(* ===== verification/_CoqProject ===== *)
-Q . S2P
Prelude.v
Go.v
Sha256.v
Entity.v
Conflict.v
AuditTrail.v
Schema.v
Json.v
UrlGuard.v
Logic.v
Dbtx.v
Interleave.v
Crypto.v
Like.v
Validation.v
Kinds.v
MaintStore.v
Sweep.v
UserStore.v
Credentials.v
TokenStore.v
InvitationStore.v
License.v
Fixtures.v
Password.v
ConflictStore.v
Queue.v
Otp.v
OtpSpec.v
Secrets.v
Sessions.v
DanceStore.v
DanceSigner.v
AuthMethods.v
Auth.v
SessionSpec.v
Users.v
Identities.v
InvitationEmail.v
Invitations.v
Dance.v
UserSpec.v
BlockSpec.v
InvitationSpec.v
DanceFixtures.v
DanceSpec.v
DanceCodes.v
IdentitySpec.v
IntegrationStore.v
Integrations.v
Provision.v
Deferred.v
NotifyTargets.v
Catalog.v
CatalogSpec.v
IntegrationSpec.v
PresetSpec.v
Cache.v
AuditLog.v
Heartbeat.v
AuthSettings.v
HttpErrors.v
Notify.v
UserSummary.v
CodeMail.v
MaintService.v
Processors.v
Config.v
Middlewares.v
Gateway.v
Mask.v
Lifecycle.v
Refine.v
MaintSpec.v
Ordering.v
Calendar.v
