(* ===== verification/Prelude.v ===== *)
(** * MaintMode: a verification of the maintenance-calendar backend

    MaintMode plans maintenances of shared systems.  An editor drafts one with
    its steps, resources, reminders and notification channels; an approver looks
    at the draft and at the maintenances it collides with, and approves exactly
    what was shown; it is then started, its steps are worked through in order,
    and it is completed or cancelled.  Channels are told after each change, and
    a sweep cancels what was never started.  Around that stand the accounts:
    users with roles and licensed seats, who are invited by mail, sign in with a
    password, with a code sent by mail or through an identity provider, and hold
    sessions made of rotating refresh tokens.

    ** The program and its model

    All paths are under src/internal.

    - [Prelude]: tactics, hint databases, record update, and the lemmas on lists
      and sorting the other files share.
    - [Go]: [int64] durations with their wrap-around, instants, UUIDs as sixteen
      bytes, wrapped and joined errors, and the three ends of a Go call (a value,
      an error, a panic); utils/xtime, utils/xuuid, apperr.
    - [Sha256]: crypto/sha256, executable; utils/xhash.
    - [Entity]: entity/maint.go, maint_step.go, period.go, user.go, commands.go
      and the like.  Enumerations stay strings, as in Go and in the tables.
    - [Conflict]: entity/conflict.go, with the fingerprint of a conflict set.
    - [AuditTrail]: entity/audit.go and audit/, every audited action and how it is
      rendered.
    - [Schema]: the tables with the constraints of migrations/, the world of a
      request (the database, the log of what left the process, a step counter),
      and the monad [M] of the stores and services: a context that may carry a
      transaction, and a world, to a result and a world.
    - [Json]: encoding/json and jsonb, documents, their order and how they are
      decoded.  [UrlGuard]: utils/xvalidation/url.go and internal_host.go,
      utils/xurl/issuer.go, which addresses may be stored.
    - [Logic]: the weakest precondition of [M] and its rules.
    - [Dbtx]: utils/dbtx, [WithinTx] and [WithinSerializableTx].
    - [Interleave]: requests as trees of the calls they make ([Prog]), run alone
      ([exec]) or against each other in any order ([step], [reachable]).
    - [Crypto]: utils/xcripto and pkg/secrets/aad.go, tokens, codes and
      authenticated data; [Password]: utils/xcripto/argon2.go, the records of
      passwords; [Like]: utils/xsql and the LIKE of the server.
    - [MaintStore]: storages/maintenances, a definition per statement.
    - [Sweep]: the tables that are emptied in batches, as an interface, and the
      loop the four retention sweeps share.
    - [UserStore], [Credentials], [TokenStore], [InvitationStore]: storages/users,
      authcredentials, refreshtoken with blacklisttoken and distributedlock, and
      userinvitations, likewise.
    - [License]: entity/license.go and services/license, seats and their guard.
    - [Fixtures]: a small database on which witnesses are evaluated.
    - [ConflictStore]: storages/conflicts, storages/conflict_snapshots,
      services/conflicts.
    - [Queue]: services/messaging/scheduler and services/auditpublisher, over the
      goque library.
    - [Otp]: services/otp, one-time codes; [OtpSpec]: what they promise.
    - [Sessions]: services/token; [Auth]: services/auth, the sign-ins of its own
      and what sessions go through; [SessionSpec]: what sessions promise.
    - [Users]: services/user without provider identities, entity/messenger_tag.go
      and timezone.go; [UserSpec]: its transactions, statement by statement,
      against each other; [BlockSpec]: what a block leaves behind.
    - [InvitationEmail], [Invitations]: services/invitation with its claimer,
      services/messaging/sender/send_async.go, and the acceptance with a password
      of services/auth; [InvitationSpec]: what invitations promise.
    - [DanceStore]: storages/oauthdance on the key-value server; [DanceSigner]:
      services/auth/dance_state_signer.go and dance_binding.go, over an executable
      HMAC; [AuthMethods]: services/authmethod, which methods an instance offers
      and what each accepts; [Identities]: storages/useridentities, the resolution
      of a login provider, and the half of services/user that works on provider
      identities; [Dance]: the OAuth dance of services/auth, linking and
      unlinking, break-glass and the dev sign-in.  [DanceFixtures] is an instance
      for examples; [DanceSpec], [DanceCodes] and [IdentitySpec] hold what they
      promise.
    - [Kinds]: integrationkinds, what each kind of integration stores; [Secrets]:
      pkg/secrets, sealing under data keys and these under keys of the instance;
      [IntegrationStore]: storages/integration and storages/datakey;
      [Integrations]: services/integration, the registry; [Provision]: its
      provision.go, and services/dekrotator.  [IntegrationSpec] and [PresetSpec]
      hold what the registry promises.
    - [Cache]: utils/xcache and services/transportresolver, readers, joined loads
      and invalidations step by step against each other.
    - [AuditLog]: storages/audit, services/auditor and
      goque_processors/auditprocessor; [Heartbeat]: gateways/license,
      storages/licensecache and the heartbeat of services/license.
    - [AuthSettings]: services/authsettings with storages/authsettings, the
      switches of the sign-in methods; services/jwtverifier and services/authz.
    - [Deferred]: storages/ and services/deferrednotifications.
    - [NotifyTargets]: storages/ and services/notifytargets, the targets of a
      maintenance; [Catalog]: services/resources with storages/resources, and the
      other half of services/notifytargets, the management of channels, with
      storages/notifychannel; [CatalogSpec]: both are one kind of table.
    - [Notify]: services/maintnotify, services/messaging/sender,
      goque_processors/reminderprocessor; [CodeMail]: services/otp/email.go and
      goque_processors/otpemailprocessor, a code on its way to the mail;
      [UserSummary]: services/usersummary and services/userpicker.
    - [Validation]: the rules of services/maint/create_draft.go and
      update_maint.go, utils/xvalidation.
    - [MaintService]: services/maint, every operation, and
      goque_processors/autocancelprocessor.
    - [Processors]: the other goque_processors, and app/bootstrap/processors.go
      with processor_registrar.go: which tasks there are, who enqueues them
      periodically and who processes them.
    - [Config]: config, what an instance may start with.
    - [HttpErrors]: app/api/httperrors, what a failed request is answered;
      [Middlewares]: server/middlewares, server/ratelimiter.go with
      server/ratelimiter, and utils/xecho, what stands in front of a handler;
      [Gateway]: server/api_server.go, every route, and who reaches its handler;
      [Mask]: utils/xsanitize and the request sanitizer, what logs do not show.
    - [Lifecycle]: the abstract machine the service promises to implement.
    - [Refine]: the service implements it.
    - [MaintSpec]: what single operations promise.
    - [Ordering]: messages leave after the commit.
    - [Calendar]: services/calendar and calendardto, the read side.

    A service calls a store as the code does: [ApproveMaint] is a serializable
    transaction around [apply_approve], which locks the row, compares the
    revision, loads the resources, asks the conflict service, writes the
    snapshot and schedules the reminders; after the commit come the notification
    and the audit entry.  What a closure of the code captures, the model returns.

    ** What is proved

    - The lifecycle.  [Lifecycle.lifecycle] is a relation on the three tables
      that carry the state of maintenances: a specification, not a translation.
      Each operation of the service, run from any database and ending in any way,
      makes one step of it or none ([Refine.service_refines_lifecycle]); each step
      keeps the invariant ([Lifecycle.lifecycle_keeps]), hence so does any history
      of requests ([Refine.service_invariant]); ended maintenances are frozen and
      the others move along six transitions ([Refine.service_status]).
    - The approve gate.  What an approval implies ([MaintSpec.approve_gate]);
      that equal fingerprints mean equal conflict sets
      ([Conflict.ConflictFingerprintFor_sound]) and that order does not matter
      ([Conflict.ConflictFingerprintFor_stable]); that the query behind it finds
      exactly the colliding maintenances
      ([ConflictStore.ConflictedMaints_correct]); and that an approver who sends
      back what the card showed is let through (also
      [Calendar.preview_passes_gate]).
    - Transactions.  Atomicity and bounded retries ([Dbtx.WithinTx_atomic],
      [Dbtx.WithinSerializableTx_correct]); nobody is told of a change that was
      not committed ([Ordering.commit_before_message]).
    - Operations.  Creating, editing, sweeping ([MaintSpec.create_correct],
      [MaintSpec.update_correct], [MaintSpec.sweep_correct]); the recalculated
      period and the range in which it is right
      with the wrap-around beyond it ([MaintSpec.recalculatePlannedPeriod_range]);
      storing a step
      ([MaintSpec.UpdateStep_roundtrip]).
    - Notifications.  Fan-out, threads, reminders
      ([Notify.dispatch_correct]; also [Notify.replies_to_own_root],
      [Notify.reminder_only_when_planned], [Deferred.Schedule_correct]).
    - Reading.  Conflicts of a card, by plan and by fact
      ([Conflict.mark_and_sort_correct],
      [ConflictStore.ActualConflictedMaints_correct]); listings and pages
      ([Calendar.listing_correct], [Calendar.pages_join]).
    - Users.  However their transactions interleave, an admin remains and the
      seats stay within the license ([UserSpec.an_admin_remains],
      [UserSpec.seats_within_cap]), two instances of one argument about guards
      that count under a lock ([UserSpec.guard_kept]); what a block leaves behind
      ([BlockSpec.BlockUser_cuts_off]).
    - Sessions.  However requests interleave, tokens rotate once, a session has
      one live token and an ended session stays ended
      ([SessionSpec.sessions_safe]); how a refresh and the gate in front of
      mutations decide ([SessionSpec.Refresh_in_two_ways],
      [SessionSpec.EnsureActiveToken_fails_closed], whatever its calls are
      answered); what a failed change of
      password leaves behind ([SessionSpec.password_rollback_strands_session]).
    - Invitations.  Every request moves the table along the lifecycle of
      invitations ([InvitationSpec.invitations_refine_lifecycle]); accepting one is
      all or nothing ([InvitationSpec.AcceptInvitation_all_or_nothing]); the seat
      it reserved is there when it is claimed
      ([InvitationSpec.reserved_seat_kept]).
    - Providers.  A callback does nothing before its state has verified, and what
      an outcome implies ([DanceSpec.dance_in_order]); a signed state is good for
      one provider, one state and one deadline
      ([DanceSigner.state_signature_binds]); one-time secrets are redeemed once
      however requests interleave ([DanceCodes.secrets_redeemed_once]); who may be
      given an account ([IdentitySpec.GetOrCreate_guarded]); unlinking never takes
      the last way in ([IdentitySpec.unlink_never_strands]); which id tokens pass
      ([IdentitySpec.oidc_accepts_only_vouched]).
    - One-time codes.  Bounded guessing (no more verifications than attempts learn
      anything of a code), single use, issuing, pruning, and an even spread of codes ([OtpSpec.otp_guessing_bounded], [OtpSpec.issue_guarded],
      [OtpSpec.Prune_only_expired], [Crypto.generateOTPCode_uniform]).
    - Catalogs.  Every request to the resources and the channels is one step of an
      abstract catalog or none ([CatalogSpec.catalogs_refine_spec]).
    - Integrations.  Every request to the registry is one step of an abstract vault
      of plain secrets, or none, and whatever the vault holds opens; a rotation of
      the data keys is no step ([IntegrationSpec.registry_refines_vault]); what is
      held is what is served ([IntegrationSpec.settings_serve_vault]); no create
      and no edit stores a config that moves what a preset fixes
      ([PresetSpec.preset_fixed]); both for configs whose keys name different
      fields; a reader that did not
      join an earlier load never gets a client older than the last invalidation
      ([Cache.invalidation_authoritative]).
    - The audit log.  From the outbox to the page: every event is kept once and
      reads back as published ([AuditLog.log_keeps_events_once]); the listing and
      its facets ([AuditLog.GetLogs_correct]).
    - The queue.  One task per day or minute ([Processors.one_task_per_bucket]);
      the retention sweeps remove what is old and end
      ([Processors.retention_sweeps_bounded]); a tick of the heartbeat
      ([Heartbeat.heartbeat_correct]); the mail of a code
      ([CodeMail.code_mailed_as_issued]).
    - The instance.  What starts has session limits under which the sweep of
      tokens spares every live session ([Config.booted_sweep_spares_sessions]):
      every token the service has issued under them, from an empty table on, is
      good for their lifetime ([SessionSpec.tokens_issued]); it has
      secrets from the secrets file alone ([Config.secrets_from_file]) and sound
      keys and clients ([Config.booted_key], [Config.booted_clients],
      [Config.booted_stubs]); a switch is as it was set
      ([AuthSettings.switch_as_set]); roles and tokens are what the libraries vouch
      for ([AuthSettings.allowed_by_policy], [AuthSettings.verified_only]); names
      are resolved ([UserSummary.summaries_resolved],
      [UserSummary.ListAssignable_active]).
    - Requests.  A handler runs only for those who may run it
      ([Gateway.requests_guarded]) and a pair of tokens leaves only for a service
      that proved who it is ([Gateway.pairs_need_client]): both are proved of the
      table of all routes, from one lemma on each middleware that says what it has
      seen of a request it hands on ([Middlewares.gate]).  What a refusal says
      ([HttpErrors.refusals_worded]) and what is logged
      ([Mask.logged_body_masked], [Mask.logged_headers_masked],
      [Mask.logged_url_masked]).
    - Primitives.  Password records ([Password.password_roundtrip]), authenticated
      data ([Crypto.encodeAAD_roundtrip]), search ([Like.search_correct]), audit
      entries ([AuditTrail.render_total]).

    ** What is a parameter

    The class [Schema.Env] holds oracles indexed by the step counter: whether the
    next statement, begin, commit or rollback fails and with which error, the
    clock, the ids the database generates and random numbers.  No law is assumed
    of them; a theorem that needs a clock that does not run backwards says so.
    [Queue.Goque] is the queue library with its documented behaviour as
    [GoqueSpec]; [Validation.Ozzo] the validation library, with [OzzoSpec];
    [Notify.Messenger] the renderer, the transports and the user lookups;
    [MaintService.UserLister] the user lookup of the maintenance service;
    [Schema.Collation] the collation of the database, with [Like.CollationSpec];
    [Crypto.Entropy] the random source; [Password.Argon2] the key derivation, with
    [Argon2Spec]; [Otp.Sealer] the encryption of a code on its way to the mail;
    [Sessions.Jwt] the signing library; [Auth.AuthMethodFlags] the switches of the
    sign-in methods; [License.LicenseCache] the cached license;
    [Users.TzDatabase] the time zones; [Invitations.Unicode] case folding outside
    ASCII; [AuthMethods.IdentityProviders] the identity providers, asked over the
    network; [UrlGuard.NetURL] the parsers of URLs and addresses;
    [Secrets.Tink] the encryption library, with [TinkSpec]; [Dance.LiveMethods] the
    snapshot of sign-in methods that is live at a moment; [Cache.Clients] the
    client libraries of the messengers; [Heartbeat.Console] the licence server;
    [AuthSettings.AccessVerifier] and [AuthSettings.Enforcer] the verification of
    tokens and the policy; [UserSummary.TTLCache] the cache of names, with
    [TTLCacheSpec]; [Middlewares.Echo] the web framework, with [EchoSpec];
    [Middlewares.Rates] the stores of the limiters, [Middlewares.Runes] the classes
    of characters, [Middlewares.JsonText] the parser of JSON and [Mask.URLText] that
    of addresses; [Gateway.SameClaims] says that a token has one set of claims;
    and the parser of schedules is an argument of [Processors.NewTaskProcessors].  Each class with laws has an instance that
    satisfies them ([list_goque], [ex_ozzo], [c_collation], [ex_argon2],
    [marking_spec], [map_cache], [ex_echo]).

    ** Bounds and choices

    The loops that are not structural are bounded by the code's own numbers: ten
    attempts of [WithinSerializableTx], a hundred batches of a pruning; trimming
    and decoding text run for as many rounds as there are bytes.  Durations wrap at 64 bits and
    [Time_Sub] saturates, as in Go; an instant is an unbounded number of
    nanoseconds.  Rows are rounded to microseconds where PostgreSQL does.  The
    iteration order of a Go map matters in one place, the snapshot of a
    maintenance, and is taken as the order of first occurrence; its readers
    use it as a set or sort it.  Log lines, traces and metrics are left out.

    Concurrency comes in four grains.  Requests of the maintenance service run
    one after another, and the effects of concurrent ones appear as the errors of
    the fault oracle (serialization failures, constraint violations).  Requests
    about codes, sessions and dances interleave between their calls, a transaction that
    takes its lock first being one call.  Transactions on users interleave
    statement by statement at READ COMMITTED, with row locks and advisory locks.
    The readers and writers of a cache interleave between the sections its mutex
    protects.
    Time is whatever the clock answers at each call.

    ** What is not modelled

    The clients of identity providers and messengers, the live test of a mail
    server, the handlers (binding of requests and mapping of responses) and the
    wiring of the rest: network I/O and glue.  Of the HTTP server, what libraries
    do around every route: recovery, tracing, timeouts, compression.  The
    templates of lifecycle messages and the transports.  Worker counts and polling
    intervals, which are options of the queue library.  Of the configuration, the
    reading of the files and the fields no check and no modelled service reads.  The
    maintenance tables refer to users without checking that they exist: a violated
    foreign key is one of the errors of the fault oracle.  The exact wording of
    log lines. *)
From Stdlib Require Import ZArith Lia.
From stdpp Require Import base sorting sets strings numbers list.

(** ** Scopes, databases and tactics of the development *)

Declare Scope go_scope.
Delimit Scope go_scope with go.

Create HintDb maint discriminated.
Create HintDb inv discriminated.

(** Case analysis on the first [match] (or [if]) of the goal. *)
Ltac case_goal :=
  match goal with
  | |- context [match ?x with _ => _ end] => destruct x eqn:?
  end.

(** Case analysis on the first [match] of a hypothesis. *)
Ltac case_hyp H :=
  match type of H with
  | context [match ?x with _ => _ end] => destruct x eqn:?
  end.

(** Evaluate a closed term where it occurs. *)
Ltac evaluate t :=
  let v := eval vm_compute in t in
  let E := fresh in assert (E : t = v) by (vm_compute; reflexivity); rewrite E in *; clear E.

(** Decide a closed proposition by evaluation. *)
Ltac decide_now :=
  match goal with |- ?P => apply (bool_decide_eq_true_1 P); vm_compute; reflexivity end.

(** Clean up after a case analysis: equations between constructors,
    contradictory branches, substitutions. *)
Ltac tidy := repeat (progress (simplify_eq/=; try done)).

(** Comparing texts is never unfolded character by character. *)
#[global] Arguments String.eqb : simpl never.

(** ** Functional record update

    [r <| f := v |>] is Go's [r.f = v] on a value.  A record type opts in by
    giving its eta expansion as an [Eta] instance; the setter of a field is
    built from it. *)

Class Eta (R : Type) := eta : R -> R.
Class Setter {R T : Type} (proj : R -> T) := set_field : (T -> T) -> R -> R.

Ltac mk_setter proj :=
  lazymatch type of proj with
  | ?R -> ?T =>
      let et := constr:(_ : Eta R) in
      let f := constr:(fun (g : T -> T) (r : R) => ltac:(
         let e := eval hnf in et in
         let e := eval cbv beta in (e r) in
         let e := eval pattern (proj r) in e in
         lazymatch e with
         | ?F _ => let b := eval cbv beta in (F (g (proj r))) in exact b
         end)) in
      exact f
  end.

#[export] Hint Extern 0 (Setter ?p) => mk_setter p : typeclass_instances.

Notation "r <| p := v |>" := (set_field (proj := p) (fun _ => v) r)
  (at level 1, left associativity, p at level 11, v at level 99).

(** ** Lists *)

(** Two rows of a table with the same key are the same row. *)
Lemma NoDup_fmap_2_elem {A B} (f : A -> B) (l : list A) (x y : A) :
  NoDup (f <$> l) -> x ∈ l -> y ∈ l -> f x = f y -> x = y.
Proof.
  intros Hnd [i Hi]%list_elem_of_lookup [j Hj]%list_elem_of_lookup Hf.
  assert (i = j) as <-; [|congruence].
  eapply (NoDup_lookup _ i j (f x) Hnd); rewrite list_lookup_fmap; [by rewrite Hi|rewrite Hj; simpl; by f_equal].
Qed.

Lemma NoDup_fmap_filter {A B} (f : A -> B) (P : A -> Prop) `{!∀ x, Decision (P x)} (l : list A) :
  NoDup (f <$> l) -> NoDup (f <$> filter P l).
Proof.
  induction l as [|x l IH]; [done|]. rewrite fmap_cons, filter_cons. intros [Hx Hnd]%NoDup_cons.
  case_decide; [|by apply IH]. rewrite fmap_cons. apply NoDup_cons. split; [|by apply IH].
  intros (y & Hxy & [_ Hy]%list_elem_of_filter)%list_elem_of_fmap. apply Hx. rewrite Hxy. by apply list_elem_of_fmap_2.
Qed.

(** The [where] of a statement is a boolean test. *)
Lemma elem_of_List_filter {A} (p : A -> bool) (l : list A) x : x ∈ List.filter p l ↔ x ∈ l ∧ p x = true.
Proof. rewrite !list_elem_of_In. apply filter_In. Qed.

Lemma filter_all {A} (l : list A) : List.filter (fun _ => true) l = l.
Proof. induction l as [|x l IH]; simpl; [done|by rewrite IH]. Qed.

Lemma NoDup_fmap_List_filter {A B} (f : A -> B) (p : A -> bool) (l : list A) :
  NoDup (f <$> l) -> NoDup (f <$> List.filter p l).
Proof.
  induction l as [|x l IH]; [done|]. rewrite fmap_cons. intros [Hx Hnd]%NoDup_cons. simpl.
  destruct (p x); [|by apply IH]. rewrite fmap_cons. apply NoDup_cons. split; [|by apply IH].
  intros (y & Hxy & [Hy _]%elem_of_List_filter)%list_elem_of_fmap. apply Hx. rewrite Hxy. by apply list_elem_of_fmap_2.
Qed.

(** The rows a statement hits. *)
Lemma filter_hit {A} (p : A -> bool) (l : list A) :
  negb (Nat.eqb (length (List.filter p l)) 0) = true -> ∃ x, x ∈ l ∧ p x = true.
Proof.
  destruct (List.filter p l) as [|x f] eqn:E; [done|]. intros _. exists x. apply elem_of_List_filter. rewrite E. set_solver.
Qed.

Lemma filter_none {A} (p : A -> bool) (l : list A) :
  negb (Nat.eqb (length (List.filter p l)) 0) = false -> ∀ x, x ∈ l -> p x = false.
Proof.
  destruct (List.filter p l) as [|x f] eqn:E; [|done]. intros _ y Hy. apply not_true_is_false. intros Hp.
  assert (y ∈ List.filter p l) as Hf by by apply elem_of_List_filter. rewrite E in Hf. by apply not_elem_of_nil in Hf.
Qed.

Lemma omap_snoc {A B} (f : A -> option B) l x : omap f (l ++ [x]) = omap f l ++ option_list (f x).
Proof. rewrite omap_app. simpl. by destruct (f x). Qed.

Lemma find_app_None {A} (f : A -> bool) (l1 l2 : list A) :
  List.find f l1 = None -> List.find f (l1 ++ l2) = List.find f l2.
Proof. induction l1 as [|x l1 IH]; simpl; [done|]. by destruct (f x). Qed.

(** An update that hits no row. *)
Lemma fmap_if_none {A} (p : A -> bool) (y : A) (l : list A) :
  existsb p l = false -> (fun r => if p r then y else r) <$> l = l.
Proof.
  induction l as [|r l IH]; [done|]. rewrite fmap_cons. simpl.
  intros [-> ?]%orb_false_iff. by rewrite IH.
Qed.

Section lists.
Context {A : Type}.

(** [lo.Uniq]: the first occurrence of every value, in order. *)
Fixpoint uniq_acc `{EqDecision A} (seen l : list A) : list A :=
  match l with
  | [] => []
  | x :: l' => if decide (x ∈ seen) then uniq_acc seen l'
               else x :: uniq_acc (x :: seen) l'
  end.
Definition uniq `{EqDecision A} (l : list A) : list A := uniq_acc [] l.

Lemma elem_of_uniq_acc `{EqDecision A} (seen l : list A) x :
  x ∈ uniq_acc seen l ↔ x ∈ l ∧ x ∉ seen.
Proof.
  revert seen. induction l as [|y l IH]; intros seen; simpl; [set_solver|].
  case_decide; [rewrite IH; set_solver|].
  rewrite elem_of_cons, IH. destruct (decide (x = y)); set_solver.
Qed.

Lemma elem_of_uniq `{EqDecision A} (l : list A) x : x ∈ uniq l ↔ x ∈ l.
Proof. unfold uniq. rewrite elem_of_uniq_acc. set_solver. Qed.

Lemma NoDup_uniq_acc `{EqDecision A} (seen l : list A) : NoDup (uniq_acc seen l).
Proof.
  revert seen. induction l as [|y l IH]; intros seen; simpl; [constructor|].
  case_decide; [done|]. constructor; [|done].
  rewrite elem_of_uniq_acc. set_solver.
Qed.

Lemma NoDup_uniq `{EqDecision A} (l : list A) : NoDup (uniq l).
Proof. apply NoDup_uniq_acc. Qed.

(** [lo.FindIndexOf]: the first element that satisfies [f], with its index. *)
Fixpoint find_index_from (i : nat) (f : A -> bool) (l : list A) : option (A * nat) :=
  match l with
  | [] => None
  | x :: l' => if f x then Some (x, i) else find_index_from (S i) f l'
  end.
Definition find_index (f : A -> bool) (l : list A) := find_index_from 0 f l.

Lemma find_index_from_Some f l i x k :
  find_index_from i f l = Some (x, k) ->
  ∃ j, k = (i + j)%nat ∧ l !! j = Some x ∧ f x = true ∧
    ∀ j' y, (j' < j)%nat -> l !! j' = Some y -> f y = false.
Proof.
  revert i. induction l as [|y l IH]; intros i; simpl; [done|].
  destruct (f y) eqn:E; intros H; simplify_eq.
  - exists 0%nat. repeat split; [lia|done|]. intros. lia.
  - destruct (IH _ H) as (j & -> & ? & ? & Hlt). exists (S j).
    repeat split; [lia|done|done|]. intros [|j'] z ? Hz; simplify_eq/=; [done|].
    eapply Hlt; [|done]. lia.
Qed.

Lemma find_index_Some f l x k :
  find_index f l = Some (x, k) ->
  l !! k = Some x ∧ f x = true ∧ ∀ j y, (j < k)%nat -> l !! j = Some y -> f y = false.
Proof. intros (j & -> & ?)%find_index_from_Some. done. Qed.

Lemma find_index_from_None f l i :
  find_index_from i f l = None -> Forall (fun x => f x = false) l.
Proof.
  revert i. induction l as [|y l IH]; intros i; simpl; [constructor|].
  destruct (f y) eqn:E; [done|]. intros H. constructor; eauto.
Qed.
End lists.

Lemma StronglySorted_lookup_lt {A} (R : A -> A -> Prop) l :
  StronglySorted R l -> ∀ i j x y, (i < j)%nat -> l !! i = Some x -> l !! j = Some y -> R x y.
Proof.
  induction 1 as [|z l Hs IH Hall]; intros [|i] [|j] x y Hlt Hx Hy; simplify_eq/=; try lia.
  - rewrite Forall_lookup in Hall. eauto.
  - eapply IH; [|done..]. lia.
Qed.

(** ** Sorting

    [slices.SortFunc] and [ORDER BY]: insertion sort by a three-way comparison.
    The Go routine is not stable; every statement proved about a sorted slice
    uses only that the result is an ordered permutation, or that the keys
    compared are pairwise different. *)

Section sort.
Context {A : Type} (cmp : A -> A -> comparison).

Definition cmp_le (x y : A) : Prop := cmp x y ≠ Gt.
#[global] Instance cmp_le_dec : RelDecision cmp_le.
Proof. intros x y. unfold cmp_le. destruct (cmp x y); solve_decision. Defined.

Fixpoint insert_by (x : A) (l : list A) : list A :=
  match l with
  | [] => [x]
  | y :: l' => match cmp x y with
               | Gt => y :: insert_by x l'
               | _ => x :: y :: l'
               end
  end.
Fixpoint sort_by (l : list A) : list A :=
  match l with
  | [] => []
  | x :: l' => insert_by x (sort_by l')
  end.

Lemma insert_by_Permutation x l : insert_by x l ≡ₚ x :: l.
Proof.
  induction l as [|y l IH]; simpl; [done|].
  destruct (cmp x y); [done|done|]. rewrite IH. constructor.
Qed.

Lemma sort_by_Permutation l : sort_by l ≡ₚ l.
Proof. induction l as [|x l IH]; simpl; [done|]. by rewrite insert_by_Permutation, IH. Qed.

Lemma elem_of_sort_by x l : x ∈ sort_by l ↔ x ∈ l.
Proof. by rewrite sort_by_Permutation. Qed.

Lemma length_sort_by l : length (sort_by l) = length l.
Proof. by rewrite sort_by_Permutation. Qed.

(** The comparison is a total preorder. *)
Class CmpOrder : Prop := {
  cmp_antisym : ∀ x y, cmp y x = CompOpp (cmp x y);
  cmp_trans : ∀ x y z, cmp_le x y -> cmp_le y z -> cmp_le x z;
}.

Context `{!CmpOrder}.

Lemma cmp_le_total x y : cmp x y = Gt -> cmp_le y x.
Proof. unfold cmp_le. intros E. by rewrite cmp_antisym, E. Qed.

Lemma insert_by_sorted x l :
  StronglySorted cmp_le l -> StronglySorted cmp_le (insert_by x l).
Proof.
  induction 1 as [|y l Hs IH Hall]; simpl; [repeat constructor|].
  assert (cmp x y ≠ Gt -> StronglySorted cmp_le (x :: y :: l)) as Hhd.
  { intros Hxy. constructor; [by constructor|]. constructor; [done|].
    rewrite Forall_forall in Hall |- *. intros z Hz. apply cmp_trans with y; auto. }
  destruct (cmp x y) eqn:E; [by apply Hhd..|].
  constructor; [done|]. apply Forall_forall. intros z.
  rewrite insert_by_Permutation, elem_of_cons. intros [->|Hz].
  - by apply cmp_le_total.
  - rewrite Forall_forall in Hall. auto.
Qed.

Lemma sort_by_sorted l : StronglySorted cmp_le (sort_by l).
Proof. induction l; simpl; [constructor|]. by apply insert_by_sorted. Qed.

(** Two ordered lists with the same elements are equal when no two different
    elements compare equal. *)
Lemma sorted_perm_eq l1 l2 :
  (∀ x y, x ∈ l1 -> y ∈ l1 -> cmp x y = Eq -> x = y) ->
  StronglySorted cmp_le l1 -> StronglySorted cmp_le l2 -> l1 ≡ₚ l2 -> l1 = l2.
Proof.
  revert l2. induction l1 as [|x l1 IH]; intros l2 Heq H1 H2 HP.
  { by apply Permutation_nil_l in HP. }
  destruct l2 as [|y l2]; [by apply Permutation_nil_r in HP|].
  inversion H1 as [|?? Hs1 Hf1]; inversion H2 as [|?? Hs2 Hf2]; simplify_eq.
  assert (x = y) as ->.
  { assert (x ∈ y :: l2) as Hx by (rewrite <- HP; set_solver).
    assert (y ∈ x :: l1) as Hy by (rewrite HP; set_solver).
    rewrite Forall_forall in Hf1, Hf2.
    apply elem_of_cons in Hx as [->|Hx]; [done|].
    apply elem_of_cons in Hy as [->|Hy]; [done|].
    specialize (Hf1 _ Hy). specialize (Hf2 _ Hx). unfold cmp_le in *.
    apply Heq; [set_solver|set_solver|].
    rewrite cmp_antisym in Hf1. destruct (cmp y x) eqn:E, (cmp x y) eqn:E';
      rewrite cmp_antisym, E' in E; simplify_eq/=; try done. }
  f_equal. apply IH; [|done|done|by eapply Permutation_cons_inv].
  intros; apply Heq; set_solver.
Qed.

(** Sorting is canonical on lists without ties. *)
Lemma sort_by_perm_eq l1 l2 :
  (∀ x y, x ∈ l1 -> y ∈ l1 -> cmp x y = Eq -> x = y) ->
  l1 ≡ₚ l2 -> sort_by l1 = sort_by l2.
Proof.
  intros Heq HP. apply sorted_perm_eq; [|apply sort_by_sorted..|].
  - intros x y. rewrite !elem_of_sort_by. apply Heq.
  - by rewrite !sort_by_Permutation.
Qed.

Lemma sort_by_id l : StronglySorted cmp_le l -> sort_by l = l.
Proof.
  induction 1 as [|x l Hs IH Hall]; simpl; [done|]. rewrite IH.
  destruct l as [|y l]; simpl; [done|].
  apply Forall_cons in Hall as [Hxy _]. unfold cmp_le in Hxy.
  by destruct (cmp x y).
Qed.
End sort.

(** Lexicographic composition of comparisons, the shape of every comparator of
    the code. *)
Definition cmp_then (c d : comparison) : comparison :=
  match c with Eq => d | _ => c end.

Section cmp_lex.
Context {A : Type} (c d : A -> A -> comparison).
Context `{!CmpOrder c, !CmpOrder d}.

Lemma cmp_eq_le (x y : A) : c x y = Eq -> cmp_le c y x.
Proof. unfold cmp_le. intros E. by rewrite (cmp_antisym c), E. Qed.

#[global] Instance cmp_lex_order : CmpOrder (fun x y => cmp_then (c x y) (d x y)).
Proof.
  split.
  - intros x y. unfold cmp_then. rewrite (cmp_antisym c), (cmp_antisym d).
    by destruct (c x y).
  - intros x y z. unfold cmp_le, cmp_then. intros H1 H2.
    assert (cmp_le c x z) as Hxz.
    { apply (cmp_trans c) with y; unfold cmp_le; [destruct (c x y)|destruct (c y z)]; congruence. }
    destruct (c x z) eqn:E; [|done|done].
    assert (c x y = Eq) as E1.
    { destruct (c x y) eqn:E1; [done| |done]. exfalso.
      assert (cmp_le c y x) as Hyx.
      { apply (cmp_trans c) with z; unfold cmp_le; [destruct (c y z); congruence|].
        rewrite (cmp_antisym c), E. done. }
      unfold cmp_le in Hyx. rewrite (cmp_antisym c), E1 in Hyx. done. }
    assert (c y z = Eq) as E2.
    { destruct (c y z) eqn:E2; [done| |done]. exfalso.
      assert (cmp_le c z y) as Hzy.
      { apply (cmp_trans c) with x; unfold cmp_le; [|congruence].
        rewrite (cmp_antisym c), E. done. }
      unfold cmp_le in Hzy. rewrite (cmp_antisym c), E2 in Hzy. done. }
    rewrite E1 in H1. rewrite E2 in H2. by apply (cmp_trans d) with y.
Qed.
End cmp_lex.

#[export] Instance Z_cmp_order : CmpOrder Z.compare.
Proof.
  split; [intros; apply Z.compare_antisym|].
  intros x y z. unfold cmp_le. rewrite !Z.compare_gt_iff. lia.
Qed.

#[export] Instance N_cmp_order : CmpOrder N.compare.
Proof.
  split; [intros; apply N.compare_antisym|].
  intros x y z. unfold cmp_le. rewrite !N.compare_gt_iff. lia.
Qed.

#[export] Instance cmp_on_order {A B} (f : A -> B) c `{!CmpOrder c} :
  CmpOrder (fun x y => c (f x) (f y)).
Proof.
  split; [intros; apply (cmp_antisym c)|].
  intros x y z. unfold cmp_le. apply (cmp_trans c).
Qed.

#[export] Hint Rewrite @elem_of_sort_by @elem_of_uniq : maint.
