(* ===== verification/Go.v ===== *)
(** * The Go values the program computes with

    [int64] and [time.Duration] arithmetic, [time.Time] instants, the sixteen
    bytes of a [uuid.UUID], [error] values with wrapping and joining, and the
    three ways a Go call can end.  Everything here is the language and its
    standard library, plus [internal/utils/xuuid] and [internal/utils/xtime],
    [internal/apperr] and [internal/utils/dbtx/error.go]. *)
From Stdlib Require Import ZArith Lia Ascii String DecimalString DecimalFacts DecimalZ.
From stdpp Require Import base sorting sets strings numbers list.
From S2P Require Import Prelude.
Open Scope Z_scope.

(** ** Machine integers *)

(** Two's-complement wrap-around of an [int64]. *)
Definition wrap64 (z : Z) : Z := (z + 2 ^ 63) `mod` 2 ^ 64 - 2 ^ 63.

Definition in_int64 (z : Z) : Prop := - 2 ^ 63 <= z < 2 ^ 63.

Lemma wrap64_id z : in_int64 z -> wrap64 z = z.
Proof. unfold in_int64, wrap64. intros H. rewrite Z.mod_small; lia. Qed.

Lemma wrap64_range z : in_int64 (wrap64 z).
Proof.
  unfold in_int64, wrap64.
  pose proof (Z.mod_pos_bound (z + 2 ^ 63) (2 ^ 64) ltac:(lia)). lia.
Qed.

Lemma wrap64_add_l x y : wrap64 (wrap64 x + y) = wrap64 (x + y).
Proof.
  unfold wrap64. f_equal.
  replace ((x + 2 ^ 63) `mod` 2 ^ 64 - 2 ^ 63 + y + 2 ^ 63)
    with ((x + 2 ^ 63) `mod` 2 ^ 64 + y) by lia.
  rewrite Zplus_mod_idemp_l. f_equal. lia.
Qed.

(** ** Durations and instants *)

Definition Duration := Z.
Definition Nanosecond : Duration := 1.
Definition Microsecond : Duration := 1000.
Definition Millisecond : Duration := 1000 * 1000.
Definition Second : Duration := 1000 * 1000 * 1000.
Definition Minute : Duration := 60 * Second.
Definition Hour : Duration := 60 * Minute.
Definition Day : Duration := 24 * Hour.

(** A [time.Time] is its instant: nanoseconds since the Unix epoch, in UTC.
    The location only matters to the calendar functions, which take it as an
    offset. *)
Definition Time := Z.

(** [time.Time{}]: January 1, year 1, 00:00:00 UTC. *)
Definition zeroTime : Time := -62135596800 * Second.
Definition IsZero (t : Time) : bool := t =? zeroTime.

Definition Time_Add (t : Time) (d : Duration) : Time := t + d.
(** [t.Sub(u)] saturates at the extreme durations. *)
Definition Time_Sub (t u : Time) : Duration := Z.max (- 2 ^ 63) (Z.min (2 ^ 63 - 1) (t - u)).
Definition Before (t u : Time) : bool := t <? u.
Definition After (t u : Time) : bool := u <? t.
Definition Unix (t : Time) : Z := t / Second.
Definition UnixMicro (t : Time) : Z := t / Microsecond.
(** [t.Truncate(time.Second)]; the zero time is a whole number of seconds from
    the epoch, so rounding down from it is rounding down from the epoch. *)
Definition Truncate_Second (t : Time) : Time := t / Second * Second.

(** ** UUIDs *)

(** A [uuid.UUID] is an array of sixteen bytes, here the number they spell in
    big-endian order. *)
Definition UUID := N.
Bind Scope N_scope with UUID.
Definition uuid_Nil : UUID := 0%N.
Definition uuid_valid (u : UUID) : Prop := (u < 2 ^ 128)%N.

Fixpoint be_bytes (k : nat) (u : N) : list ascii :=
  match k with
  | O => []
  | S k' => be_bytes k' (u / 256)%N ++ [ascii_of_N (u mod 256)%N]
  end.
Definition uuid_bytes (u : UUID) : list ascii := be_bytes 16 u.

(** [bytes.Compare]. *)
Fixpoint bytes_Compare (a b : list ascii) : comparison :=
  match a, b with
  | [], [] => Eq
  | [], _ => Lt
  | _, [] => Gt
  | x :: a', y :: b' =>
      cmp_then (N.compare (N_of_ascii x) (N_of_ascii y)) (bytes_Compare a' b')
  end.

(** [xuuid.Compare] *)
Definition xuuid_Compare (a b : UUID) : comparison :=
  bytes_Compare (uuid_bytes a) (uuid_bytes b).

Lemma length_be_bytes k u : length (be_bytes k u) = k.
Proof. revert u. induction k as [|k IH]; intros u; simpl; [done|]. rewrite length_app, IH. simpl. lia. Qed.

Lemma N_of_ascii_mod u : N_of_ascii (ascii_of_N (u mod 256)) = (u mod 256)%N.
Proof. apply N_ascii_embedding. apply N.mod_lt. done. Qed.

Lemma be_bytes_inj k u v :
  (u < 256 ^ N.of_nat k)%N -> (v < 256 ^ N.of_nat k)%N ->
  be_bytes k u = be_bytes k v -> u = v.
Proof.
  revert u v. induction k as [|k IH]; intros u v Hu Hv; simpl.
  { rewrite N.pow_0_r in *. lia. }
  rewrite Nnat.Nat2N.inj_succ, N.pow_succ_r' in Hu, Hv.
  intros [Hq Hr]%app_inj_tail. apply (f_equal N_of_ascii) in Hr.
  rewrite !N_of_ascii_mod in Hr.
  apply IH in Hq; [|apply N.Div0.div_lt_upper_bound; lia..].
  rewrite (N.div_mod u 256), (N.div_mod v 256) by done. congruence.
Qed.

Lemma length_uuid_bytes u : length (uuid_bytes u) = 16%nat.
Proof. apply length_be_bytes. Qed.

Lemma uuid_bytes_inj u v :
  uuid_valid u -> uuid_valid v -> uuid_bytes u = uuid_bytes v -> u = v.
Proof. intros Hu Hv. by apply be_bytes_inj. Qed.

Lemma bytes_Compare_snoc a b x y :
  length a = length b ->
  bytes_Compare (a ++ [x]) (b ++ [y]) =
    cmp_then (bytes_Compare a b) (N.compare (N_of_ascii x) (N_of_ascii y)).
Proof.
  revert b. induction a as [|z a IH]; intros [|w b]; simpl; try done.
  - intros _. by destruct (N.compare _ _).
  - intros [= H]. rewrite IH by done. by destruct (N.compare (N_of_ascii z) (N_of_ascii w)).
Qed.

Lemma be_bytes_compare k u v :
  (u < 256 ^ N.of_nat k)%N -> (v < 256 ^ N.of_nat k)%N ->
  bytes_Compare (be_bytes k u) (be_bytes k v) = N.compare u v.
Proof.
  revert u v. induction k as [|k IH]; intros u v Hu Hv; simpl.
  { rewrite N.pow_0_r in *. assert (u = 0%N) as -> by lia. by assert (v = 0%N) as -> by lia. }
  rewrite Nnat.Nat2N.inj_succ, N.pow_succ_r' in Hu, Hv.
  rewrite bytes_Compare_snoc by (by rewrite !length_be_bytes).
  rewrite IH by (apply N.Div0.div_lt_upper_bound; lia). rewrite !N_of_ascii_mod.
  pose proof (N.div_mod u 256 ltac:(done)) as Eu. pose proof (N.div_mod v 256 ltac:(done)) as Ev.
  pose proof (N.mod_lt u 256 ltac:(done)) as Lu. pose proof (N.mod_lt v 256 ltac:(done)) as Lv.
  set (qu := (u / 256)%N) in *. set (qv := (v / 256)%N) in *.
  set (ru := (u mod 256)%N) in *. set (rv := (v mod 256)%N) in *.
  destruct (N.compare_spec qu qv); simpl;
    destruct (N.compare_spec ru rv); destruct (N.compare_spec u v); done || lia.
Qed.

(** Comparing the bytes of two UUIDs is comparing the numbers they spell. *)
Lemma xuuid_Compare_N u v :
  uuid_valid u -> uuid_valid v -> xuuid_Compare u v = N.compare u v.
Proof. intros. by apply be_bytes_compare. Qed.

Lemma N_compare_ascii_eq x y : N.compare (N_of_ascii x) (N_of_ascii y) = Eq -> x = y.
Proof.
  intros E%N.compare_eq. rewrite <- (ascii_N_embedding x), E. apply ascii_N_embedding.
Qed.

Lemma bytes_Compare_eq a b : bytes_Compare a b = Eq -> a = b.
Proof.
  revert b. induction a as [|x a IH]; intros [|y b]; simpl; try done.
  unfold cmp_then. destruct (N.compare _ _) eqn:E; try done.
  intros ?%IH. apply N_compare_ascii_eq in E. congruence.
Qed.

#[export] Instance bytes_Compare_order : CmpOrder bytes_Compare.
Proof.
  split.
  - induction x as [|a x IH]; intros [|b y]; simpl; try done.
    rewrite IH, N.compare_antisym. by destruct (N.compare _ _).
  - unfold cmp_le. induction x as [|a x IH]; intros [|b y] [|c z]; simpl; try done.
    unfold cmp_then.
    destruct (N.compare_spec (N_of_ascii a) (N_of_ascii b)) as [E1|E1|E1],
      (N.compare_spec (N_of_ascii b) (N_of_ascii c)) as [E2|E2|E2],
      (N.compare_spec (N_of_ascii a) (N_of_ascii c)) as [E3|E3|E3];
      simpl; try done; try (exfalso; lia); eauto.
Qed.

#[export] Instance xuuid_Compare_order : CmpOrder xuuid_Compare.
Proof. apply cmp_on_order, _. Qed.

Lemma xuuid_Compare_eq u v : uuid_valid u -> uuid_valid v -> xuuid_Compare u v = Eq -> u = v.
Proof. intros Hu Hv ?%bytes_Compare_eq. by apply uuid_bytes_inj. Qed.

(** ** Text *)

Definition bytes (s : string) : list ascii := list_ascii_of_string s.

(** [strconv.AppendInt(nil, n, 10)] *)
Definition decimal (n : Z) : list ascii := bytes (NilZero.string_of_int (Z.to_int n)).

Definition hex_digit (n : N) : ascii :=
  ascii_of_N (if (n <? 10)%N then 48 + n else 87 + n)%N.
(** [hex.EncodeToString] *)
Definition hex_encode (l : list ascii) : list ascii :=
  l ≫= fun c => let n := N_of_ascii c in [hex_digit (n / 16)%N; hex_digit (n mod 16)%N].

(** [uuid.UUID.String] *)
Definition uuid_String (u : UUID) : string :=
  let h := hex_encode (uuid_bytes u) in
  let dash := bytes "-" in
  string_of_list_ascii (take 8 h ++ dash ++ take 4 (drop 8 h) ++ dash ++ take 4 (drop 12 h) ++ dash ++
                        take 4 (drop 16 h) ++ dash ++ drop 20 h).

(** [strings.HasPrefix], [strings.HasSuffix] *)
Definition has_prefix (s p : list ascii) : bool := bool_decide (take (length p) s = p).
Definition has_suffix (s p : list ascii) : bool :=
  Nat.leb (length p) (length s) && bool_decide (drop (length s - length p) s = p).
(** [strings.TrimPrefix] *)
Definition strings_TrimPrefix (s p : string) : string :=
  if has_prefix (bytes s) (bytes p) then string_of_list_ascii (drop (length (bytes p)) (bytes s)) else s.
Definition strings_HasSuffix (s p : string) : bool := has_suffix (bytes s) (bytes p).

Definition byte (n : N) : ascii := ascii_of_N n.
Definition lower_byte (c : ascii) : ascii :=
  let n := N_of_ascii c in if (65 <=? n)%N && (n <=? 90)%N then ascii_of_N (n + 32) else c.
(** [strings.ToLower].  Of the letters outside ASCII, two have a lower case in
    ASCII, the dotted capital I and the Kelvin sign; every other one maps to a
    letter outside ASCII and is left as it is, which no test for ASCII text
    tells apart. *)
Fixpoint to_lower (s : list ascii) : list ascii :=
  match s with
  | [] => []
  | c :: s1 =>
      match N_of_ascii c, s1 with
      | 196%N, d :: s2 => if N.eqb (N_of_ascii d) 176 then "i"%char :: to_lower s2 else c :: to_lower s1
      | 226%N, d :: ((e :: s3) as s2) =>
          if N.eqb (N_of_ascii d) 132 && N.eqb (N_of_ascii e) 170 then "k"%char :: to_lower s3
          else c :: to_lower s1
      | _, _ => lower_byte c :: to_lower s1
      end
  end.
Definition strings_ToLower (s : string) : string := string_of_list_ascii (to_lower (bytes s)).

(** The encodings of the characters [unicode.IsSpace] accepts. *)
Definition space_encodings : list (list ascii) :=
  ((fun n => [byte n]) <$> [9; 10; 11; 12; 13; 32]%N) ++
  ((fun n => [byte 194; byte n]) <$> [133; 160]%N) ++
  [[byte 225; byte 154; byte 128]] ++
  ((fun n => [byte 226; byte 128; byte n]) <$> [128; 129; 130; 131; 132; 133; 134; 135; 136; 137; 138; 168; 169; 175]%N) ++
  [[byte 226; byte 129; byte 159]; [byte 227; byte 128; byte 128]].
(** [strings.TrimSpace], with as many rounds as there are bytes. *)
Fixpoint trim_left (fuel : nat) (s : list ascii) : list ascii :=
  match fuel with
  | O => s
  | S fuel' => match List.find (has_prefix s) space_encodings with
               | Some sp => trim_left fuel' (drop (length sp) s)
               | None => s
               end
  end.
Fixpoint trim_right (fuel : nat) (s : list ascii) : list ascii :=
  match fuel with
  | O => s
  | S fuel' => match List.find (has_suffix s) space_encodings with
               | Some sp => trim_right fuel' (take (length s - length sp) s)
               | None => s
               end
  end.
Definition trim_space (s : list ascii) : list ascii := trim_right (length s) (trim_left (length s) s).
Definition strings_TrimSpace (s : string) : string := string_of_list_ascii (trim_space (bytes s)).

Lemma bytes_inj s t : bytes s = bytes t -> s = t.
Proof.
  intros E. rewrite <- (string_of_list_ascii_of_string s), <- (string_of_list_ascii_of_string t).
  by f_equal.
Qed.

Lemma to_int_not_nil n : Z.to_int n ≠ Decimal.Pos Decimal.Nil ∧ Z.to_int n ≠ Decimal.Neg Decimal.Nil.
Proof.
  destruct n as [|p|p]; simpl; split; try done; intros [= E];
    by apply DecimalPos.Unsigned.to_uint_nonnil in E.
Qed.

Lemma decimal_inj m n : decimal m = decimal n -> m = n.
Proof.
  intros E%bytes_inj. apply (f_equal NilZero.int_of_string) in E.
  destruct (to_int_not_nil m), (to_int_not_nil n).
  rewrite !NilZero.isi in E by done.
  injection E as E. by rewrite <- (DecimalZ.of_to m), <- (DecimalZ.of_to n), E.
Qed.

Lemma decimal_parses n : NilZero.int_of_string (string_of_list_ascii (decimal n)) = Some (Z.to_int n).
Proof.
  unfold decimal, bytes. rewrite string_of_list_ascii_of_string. destruct (to_int_not_nil n). by apply NilZero.isi.
Qed.

Lemma string_of_uint_chars u c :
  c ∈ bytes (NilEmpty.string_of_uint u) -> (48 <= N_of_ascii c < 58)%N.
Proof. induction u; simpl; [by intros ?%not_elem_of_nil|..]; intros [->|?]%elem_of_cons; auto; simpl; lia. Qed.

(** A decimal is made of digits and a sign. *)
Lemma decimal_chars n c : c ∈ decimal n -> c = "-"%char ∨ (48 <= N_of_ascii c < 58)%N.
Proof.
  assert (∀ u, c ∈ bytes (NilZero.string_of_uint u) -> (48 <= N_of_ascii c < 58)%N) as Hu.
  { intros [] Hin; try by eapply string_of_uint_chars. apply list_elem_of_singleton in Hin as ->.
    simpl. lia. }
  unfold decimal. destruct (Z.to_int n) as [u|u]; simpl.
  - intros ?. right. by apply (Hu u).
  - intros [->|?]%elem_of_cons; [by left|]. right. by apply (Hu u).
Qed.

(** A natural number has digits only, one at least, and starts with a zero only
    if it is zero. *)
Lemma decimal_digits n c : 0 <= n -> c ∈ decimal n -> (48 <= N_of_ascii c < 58)%N.
Proof.
  intros Hn. unfold decimal. destruct n as [|p|p]; [|simpl|lia].
  - intros ->%list_elem_of_singleton. simpl. lia.
  - destruct (Pos.to_uint p) eqn:E; try apply string_of_uint_chars. by apply DecimalPos.Unsigned.to_uint_nonnil in E.
Qed.
Lemma decimal_nonempty n : decimal n ≠ [].
Proof.
  unfold decimal. destruct n as [|p|p]; simpl; [done| |done]. destruct (Pos.to_uint p) eqn:E; try done.
Qed.
Lemma to_int_norm n : Decimal.norm (Z.to_int n) = Z.to_int n.
Proof. by rewrite <- DecimalZ.to_of, DecimalZ.of_to. Qed.
Lemma decimal_zero n l : decimal n = "0"%char :: l -> n = 0.
Proof.
  intros E. destruct n as [|p|p]; [done| |by unfold decimal in E; simpl in E; destruct (Pos.to_uint p)]. exfalso.
  pose proof (to_int_norm (Zpos p)) as Hn. unfold decimal in E. simpl in E, Hn. injection Hn as Hn.
  destruct (Pos.to_uint p) as [|u|u|u|u|u|u|u|u|u|u] eqn:Eu; simpl in E; try discriminate E.
  - by apply DecimalPos.Unsigned.to_uint_nonnil in Eu.
  - unfold Decimal.unorm in Hn. destruct (Decimal.nzhead (Decimal.D0 u)) eqn:Ez; try discriminate Hn.
    + injection Hn as <-. pose proof (DecimalPos.Unsigned.to_uint_nonzero p) as H0. by rewrite Eu in H0.
    + by apply DecimalFacts.nzhead_nonzero in Ez.
Qed.

(** ** Errors

    A Go [error] as the code builds and inspects it: package-level sentinels
    (compared by identity), PostgreSQL errors with their SQLSTATE,
    [fmt.Errorf("...%w...")] around one error, and [errors.Join]. *)

Inductive error :=
  | ESentinel (text : string)
  | EPg (code : string)
  | EOther (text : string)
  | EWrap (text : string) (inner : error)
  | EJoin1 (e : error)
  | EJoin2 (e1 e2 : error).

#[export] Instance error_eq_dec : EqDecision error.
Proof. solve_decision. Defined.

(** [errors.Is] *)
Fixpoint errors_Is (e target : error) : bool :=
  bool_decide (e = target) ||
  match e with
  | EWrap _ e' | EJoin1 e' => errors_Is e' target
  | EJoin2 e1 e2 => errors_Is e1 target || errors_Is e2 target
  | _ => false
  end.

(** [errors.As(err, &pqErr)]: the first PostgreSQL error of the tree. *)
Fixpoint errors_As_pg (e : error) : option string :=
  match e with
  | EPg code => Some code
  | EWrap _ e' | EJoin1 e' => errors_As_pg e'
  | EJoin2 e1 e2 => match errors_As_pg e1 with
                    | Some c => Some c
                    | None => errors_As_pg e2
                    end
  | _ => None
  end.

(** [dbtx.ErrorIs] *)
Definition dbtx_ErrorIs (e : error) (target : string) : bool :=
  match errors_As_pg e with
  | Some code => String.eqb code target
  | None => false
  end.

Definition ErrPGUniqueViolation : string := "23505".
Definition ErrPGSerializationFailure : string := "40001".
Definition ErrPGForeignKeyViolation : string := "23503".
(** SQLSTATE check_violation and data_exception (an inverted range), which the
    code has no constant for. *)
Definition pgCheckViolation : string := "23514".
Definition pgDataException : string := "22000".

(** [fmt.Errorf("...: %w", e)] *)
Definition Errorf (text : string) (e : error) : error := EWrap text e.
(** [fmt.Errorf("%w: ...: %w", e1, e2)] *)
Definition Errorf2 (text : string) (e1 e2 : error) : error := EWrap text (EJoin2 e1 e2).

Lemma errors_Is_refl e : errors_Is e e = true.
Proof. destruct e; simpl; by rewrite bool_decide_eq_true_2. Qed.

Lemma errors_Is_wrap s e t : errors_Is e t = true -> errors_Is (EWrap s e) t = true.
Proof. intros H. simpl. rewrite H. apply orb_true_r. Qed.

Lemma errors_Is_join1 e t : errors_Is e t = true -> errors_Is (EJoin1 e) t = true.
Proof. intros H. simpl. rewrite H. apply orb_true_r. Qed.

(** *** The sentinels of internal/apperr the maintenance domain uses *)

Definition ErrValidation := ESentinel "validation failed".
Definition ErrForbidden := ESentinel "forbidden".
Definition ErrMaintNotFound := ESentinel "maintenance not found".
Definition ErrInvalidPeriodEmptyStartOrEnd := ESentinel "invalid period: empty start or end".
Definition ErrConflictsChangedSincePreview := ESentinel "conflicts changed since preview".
Definition ErrMaintChangedSincePreview := ESentinel "maintenance changed since preview".
Definition ErrConcurrentModification := ESentinel "concurrent modification, please retry".
Definition ErrInvalidPeriodStartOrEnd := Errorf "invalid period: start > end or start == end" ErrValidation.
Definition ErrInvalidPeriodInterval := Errorf "invalid period interval" ErrValidation.
Definition ErrForbiddenMaintStatusTransition := Errorf "forbidden maint status" ErrValidation.
Definition ErrApproverNotEligible := Errorf "approver is not an active reviewer/admin" ErrValidation.
Definition ErrApproverMismatch :=
  Errorf "only the assigned approver or an admin may approve this maintenance" ErrForbidden.
Definition ErrNilActor := ESentinel "actor must not be nil".
Definition ErrNilApprover := ESentinel "approver user id must not be nil".
Definition ErrStepNotFound := ESentinel "maintenance step not found".
Definition ErrStepOrderViolation := ESentinel "maintenance step order violation".
Definition ErrMaintenanceHasUnfinishedSteps := ESentinel "maintenance has unfinished steps".
Definition ErrForbiddenStepStatusTransition := Errorf "forbidden step maint status" ErrValidation.
Definition ErrNotifyTargetsAlreadyExists := ESentinel "notify targets already exists".
Definition ErrNotifyChannelAlreadyExists := ESentinel "notify channel already exists".
Definition ErrNotifyChannelNotFound := ESentinel "notify channel not found".
Definition ErrResourceNotFound := ESentinel "resource not found".
Definition ErrResourceAlreadyExists := ESentinel "resource already exists".
Definition ErrUnsupportedEvent := ESentinel "unsupported event".

(** *** Those of the accounts (apperr/auth.go) *)

Definition ErrUserNotFound := ESentinel "user not found".
Definition ErrLockBusy := ESentinel "lock is already held".
Definition ErrLockNotHeld := ESentinel "lock is not held".
Definition ErrRefreshTokenNotFound := ESentinel "refresh token not found".
Definition ErrRefreshTokenAlreadyRotated := ESentinel "refresh token already rotated".
Definition ErrInvalidAccessToken := ESentinel "invalid access token".
Definition ErrInvalidRefreshToken := ESentinel "invalid refresh token".
Definition ErrTokenExpired := ESentinel "token expired".
Definition ErrTokenReuse := ESentinel "token reuse detected".
Definition ErrLogoutAlready := ESentinel "logout already".
Definition ErrBreakGlassPersonalSignIn :=
  Errorf "the break-glass account has no personal sign-in" ErrForbidden.
Definition ErrSignupDisabled := ESentinel "signup disabled".
Definition ErrReauthenticationRequired := ESentinel "sign in again to set a password".
Definition ErrUserBlocked := ESentinel "user is blocked".
Definition ErrInvalidCredentials := ESentinel "invalid credentials".
Definition ErrInvalidRole := ESentinel "invalid role".
Definition ErrNotChanged := ESentinel "not changed".
Definition ErrLastAdmin := Errorf "cannot block or revoke admin from the last active admin" ErrValidation.
Definition ErrSelfBlock := Errorf "cannot block yourself" ErrValidation.
Definition ErrSelfRevoke := Errorf "cannot revoke a role from yourself" ErrValidation.
Definition ErrSelfUnblock := Errorf "cannot unblock yourself" ErrValidation.
Definition ErrSelfAssign := Errorf "cannot assign a role to yourself" ErrValidation.
Definition ErrInvalidTimezone := Errorf "invalid timezone" ErrValidation.
Definition ErrInvalidMessengerTag := Errorf "invalid messenger tag" ErrValidation.
Definition ErrUserAlreadyExists := ESentinel "user already exists".
Definition ErrInvitationNotFound := ESentinel "invitation not found".
Definition ErrInvitationNotPending := ESentinel "invitation is not pending".
Definition ErrInvitationExpired := ESentinel "invitation expired".
Definition ErrActivePendingExists := ESentinel "active pending invitation already exists".
Definition ErrInvalidInvitation := Errorf "invitation invalid" ErrValidation.
Definition ErrEmailMismatch := Errorf "email mismatch" ErrValidation.
Definition ErrSignInMethodDisabled := ESentinel "sign-in method is disabled".
Definition ErrUnsupportedProvider := ESentinel "unsupported provider".
Definition ErrOAuthExchangeFailed := ESentinel "oauth code exchange failed".
Definition ErrOAuthProviderDenied := ESentinel "oauth provider denied".
Definition ErrOAuthConsentDeclined := Errorf "consent declined" ErrOAuthProviderDenied.
Definition ErrAuthUnavailable := ESentinel "auth unavailable".
Definition ErrEmailNotVerified := ESentinel "email not verified".
Definition ErrOAuthDanceStateInvalid := ESentinel "oauth dance state invalid".
Definition ErrGithubEmailUnusable := ESentinel "github account has no verified primary email".
Definition ErrGithubIdentityUnusable := ESentinel "github identity has no usable subject".
Definition ErrLinkTicketUnusable := Errorf "link ticket is not usable" ErrValidation.
Definition ErrLinkCodeInvalid := ESentinel "link code is not redeemable".
Definition ErrProviderAlreadyConnected := ESentinel "provider already connected".
Definition ErrProviderLinkedToAnotherUser := ESentinel "provider linked to another user".
Definition ErrProviderNotConnected := ESentinel "provider not connected".
Definition ErrCannotDisconnectLastProvider := ESentinel "cannot disconnect the only sign-in method".
Definition ErrIntegrationNotFound := ESentinel "integration not found".
Definition ErrSeatsLimitExceeded := ESentinel "seats limit exceeded".
Definition ErrAuthCredentialNotFound := ESentinel "auth credential not found".
Definition ErrOTPSessionMismatch := ESentinel "otp session nonce mismatch".
Definition ErrAuthCredentialConflict := ESentinel "auth credential already exists".

Definition ForbiddenMaintStatusTransition (currentStatus newStatus : string) : error :=
  Errorf ("from " +:+ currentStatus +:+ " to " +:+ newStatus) ErrForbiddenMaintStatusTransition.
Definition ForbiddenStepStatusTransition (currentStatus newStatus : string) : error :=
  Errorf ("from " +:+ currentStatus +:+ " to " +:+ newStatus) ErrForbiddenStepStatusTransition.

(** ** How a call ends *)

Inductive outcome (A : Type) :=
  | Ok (a : A)
  | Err (e : error)
  | Panic (msg : string).
Arguments Ok {A} a.
Arguments Err {A} e.
Arguments Panic {A} msg.

(** ** internal/utils/xtime/time.go

    [off] is the offset of the argument's location: [t.Year()], [t.Month()] and
    [t.Day()] read the civil date there, and [time.Date(..., time.UTC)] reads
    that date in UTC. *)
Definition StartOfTheDay (off : Duration) (t : Time) : Time := (t + off) / Day * Day.
Definition EndOfTheDay (off : Duration) (t : Time) : Time :=
  (t + off) / Day * Day + (23 * Hour + 59 * Minute + 59 * Second + 999 * Nanosecond).

(** [t.UTC().Format(time.RFC3339)]: the civil date of a number of days since the
    epoch, counted in 400-year eras that begin in March. *)
Definition civil (days : Z) : Z * Z * Z :=
  let z := days + 719468 in
  let era := z / 146097 in
  let doe := z mod 146097 in
  let yoe := (doe - doe / 1460 + doe / 36524 - doe / 146096) / 365 in
  let doy := doe - (365 * yoe + yoe / 4 - yoe / 100) in
  let mp := (5 * doy + 2) / 153 in
  let m := if mp <? 10 then mp + 3 else mp - 9 in
  (yoe + era * 400 + (if m <=? 2 then 1 else 0), m, doy - (153 * mp + 2) / 5 + 1).
(** A number with at least [k] digits. *)
Definition padded (k : nat) (n : Z) : list ascii :=
  let d := decimal n in replicate (k - length d) "0"%char ++ d.
Definition Format_RFC3339 (t : Time) : string :=
  let s := Unix t in
  let '(y, m, d) := civil (s / 86400) in
  let r := s mod 86400 in
  string_of_list_ascii (padded 4 y ++ bytes "-" ++ padded 2 m ++ bytes "-" ++ padded 2 d ++ bytes "T" ++
    padded 2 (r / 3600) ++ bytes ":" ++ padded 2 (r / 60 mod 60) ++ bytes ":" ++ padded 2 (r mod 60) ++ bytes "Z").

Example Format_RFC3339_ex :
  Format_RFC3339 (1700000000 * Second) = "2023-11-14T22:13:20Z"%string /\
  Format_RFC3339 (951782400 * Second) = "2000-02-29T00:00:00Z"%string /\
  Format_RFC3339 zeroTime = "0001-01-01T00:00:00Z"%string.
Proof. vm_compute. done. Qed.

(** [xtime.OrDefaultDuration] *)
Definition OrDefaultDuration (v def : Duration) : Duration :=
  if 0 <? v then v else if v <? 0 then 0 else def.

(** [lo.FromPtr]: the pointed-to value, or the zero value of its type. *)
Definition FromPtr {A} (zero : A) (p : option A) : A :=
  match p with Some a => a | None => zero end.

(** Arithmetic and encodings stay folded under [simpl]. *)
#[global] Arguments wrap64 : simpl never.
#[global] Arguments uuid_bytes : simpl never.
#[global] Arguments decimal : simpl never.
#[global] Arguments Unix : simpl never.
#[global] Arguments UnixMicro : simpl never.
#[global] Arguments Truncate_Second : simpl never.
#[global] Arguments Time_Sub : simpl never.
#[global] Arguments xuuid_Compare : simpl never.
#[global] Arguments errors_Is : simpl nomatch.
#[global] Arguments Z.mul : simpl never.
#[global] Opaque uuid_bytes decimal.
