(* ===== verification/Sha256.v ===== *)
(** * SHA-256

    [crypto/sha256] (FIPS 180-4), which the conflict fingerprint and the
    idempotency keys of reminders hash with, and
    [internal/utils/xhash/hash.go].  The definition is executable; no theorem
    assumes anything about it beyond being a function of its input. *)
From Stdlib Require Import ZArith Lia Ascii String.
From stdpp Require Import base strings numbers list.
From S2P Require Import Prelude Go.
Open Scope Z_scope.

Definition w32 (x : Z) : Z := x mod 2 ^ 32.
Definition rotr (n x : Z) : Z := Z.lor (Z.shiftr x n) (w32 (Z.shiftl x (32 - n))).
Definition not32 (x : Z) : Z := Z.lxor x (2 ^ 32 - 1).

Definition ch (x y z : Z) : Z := Z.lxor (Z.land x y) (Z.land (not32 x) z).
Definition maj (x y z : Z) : Z := Z.lxor (Z.land x y) (Z.lxor (Z.land x z) (Z.land y z)).
Definition bsig0 (x : Z) : Z := Z.lxor (rotr 2 x) (Z.lxor (rotr 13 x) (rotr 22 x)).
Definition bsig1 (x : Z) : Z := Z.lxor (rotr 6 x) (Z.lxor (rotr 11 x) (rotr 25 x)).
Definition ssig0 (x : Z) : Z := Z.lxor (rotr 7 x) (Z.lxor (rotr 18 x) (Z.shiftr x 3)).
Definition ssig1 (x : Z) : Z := Z.lxor (rotr 17 x) (Z.lxor (rotr 19 x) (Z.shiftr x 10)).

(** The round constants: the first 32 bits of the fractional parts of the cube
    roots of the first 64 primes. *)
Definition is_prime (n : Z) : bool :=
  forallb (fun d => negb (n mod d =? 0)) (Z.of_nat <$> seq 2 (Z.to_nat n - 2)).
Definition primes (k : nat) : list Z := take k (List.filter is_prime (Z.of_nat <$> seq 2 320)).
(** The largest [r] below [2 ^ n] with [r ^ 3 <= x], bit by bit. *)
Fixpoint cube_root (n : nat) (r x : Z) : Z :=
  match n with
  | O => r
  | S n' => let r' := r + 2 ^ Z.of_nat n' in cube_root n' (if r' ^ 3 <=? x then r' else r) x
  end.
Definition K256 : list Z :=
  Eval vm_compute in (fun p => w32 (cube_root 36 0 (p * 2 ^ 96))) <$> primes 64.

Record sha_state := Sha { sa : Z; sb : Z; sc : Z; sd : Z; se : Z; sf : Z; sg : Z; sh : Z }.

(** The initial state: the same bits of the square roots of the first eight. *)
Definition H256 : sha_state :=
  Eval vm_compute in
  match (fun p => w32 (Z.sqrt (p * 2 ^ 64))) <$> primes 8 with
  | [a; b; c; d; e; f; g; h] => Sha a b c d e f g h
  | _ => Sha 0 0 0 0 0 0 0 0
  end.

(** The message schedule, newest word first. *)
Fixpoint schedule (n : nat) (w : list Z) : list Z :=
  match n with
  | O => w
  | S n' =>
      schedule n' (w32 (ssig1 (nth 1 w 0) + nth 6 w 0 + ssig0 (nth 14 w 0) + nth 15 w 0) :: w)
  end.

Definition round (s : sha_state) (kw : Z * Z) : sha_state :=
  let t1 := w32 (sh s + bsig1 (se s) + ch (se s) (sf s) (sg s) + kw.1 + kw.2) in
  let t2 := w32 (bsig0 (sa s) + maj (sa s) (sb s) (sc s)) in
  Sha (w32 (t1 + t2)) (sa s) (sb s) (sc s) (w32 (sd s + t1)) (se s) (sf s) (sg s).

Definition compress (s : sha_state) (block : list Z) : sha_state :=
  let ws := rev (schedule 48 (rev block)) in
  let s' := fold_left round (zip K256 ws) s in
  Sha (w32 (sa s + sa s')) (w32 (sb s + sb s')) (w32 (sc s + sc s')) (w32 (sd s + sd s'))
      (w32 (se s + se s')) (w32 (sf s + sf s')) (w32 (sg s + sg s')) (w32 (sh s + sh s')).

Definition byte_val (c : ascii) : Z := Z.of_N (N_of_ascii c).

(** One, then zeros up to 56 modulo 64, then the bit length in eight bytes. *)
Definition pad (msg : list ascii) : list ascii :=
  let n := Z.of_nat (length msg) in
  msg ++ ascii_of_N 128 :: replicate (Z.to_nat ((55 - n) mod 64)) (ascii_of_N 0)
      ++ be_bytes 8 (Z.to_N (8 * n)).

Fixpoint words (l : list ascii) : list Z :=
  match l with
  | a :: b :: c :: d :: l' =>
      (byte_val a * 2 ^ 24 + byte_val b * 2 ^ 16 + byte_val c * 2 ^ 8 + byte_val d) :: words l'
  | _ => []
  end.

Fixpoint blocks (n : nat) (ws : list Z) : list (list Z) :=
  match n with
  | O => []
  | S n' => match ws with [] => [] | _ => take 16 ws :: blocks n' (drop 16 ws) end
  end.

(** [sha256.Sum256] *)
Definition Sum256 (msg : list ascii) : list ascii :=
  let ws := words (pad msg) in
  let s := fold_left compress (blocks (length ws) ws) H256 in
  [sa s; sb s; sc s; sd s; se s; sf s; sg s; sh s] ≫= fun x => be_bytes 4 (Z.to_N x).

(** [xhash.HashSha256] *)
Definition HashSha256 (data : list ascii) : string :=
  string_of_list_ascii (hex_encode (Sum256 data)).

Example sha256_abc :
  HashSha256 (bytes "abc") = "ba7816bf8f01cfea414140de5dae2223b00361a396177a9cb410ff61f20015ad"%string.
Proof. vm_compute. reflexivity. Qed.

Example sha256_two_blocks :
  HashSha256 (bytes "abcdbcdecdefdefgefghfghighijhijkijkljklmklmnlmnomnopnopq")
  = "248d6a61d20638b8e5c026930c3e6039a33ce45964ff2167f6ecedd419db06c1"%string.
Proof. vm_compute. reflexivity. Qed.

(** Proofs never look inside the hash; [vm_compute] still does. *)
#[global] Opaque Sum256.
