(* ===== verification/Entity.v ===== *)
(** * The maintenance entities (internal/entity)

    Statuses and their transition tables, periods, maintenances, steps, users
    and the commands the services take.  The Go enumerations are defined string
    types and stay strings here: a row of the database can hold any text. *)
From Stdlib Require Import ZArith Lia Ascii String.
From stdpp Require Import base strings numbers list.
From S2P Require Import Prelude Go.
Open Scope Z_scope.

(** ** Maintenance status (entity/maint.go) *)

Definition MaintenanceStatus := string.
Definition MaintenanceStatusDraft : MaintenanceStatus := "draft".
Definition MaintenanceStatusPlanned : MaintenanceStatus := "planned".
Definition MaintenanceStatusInProgress : MaintenanceStatus := "in_progress".
Definition MaintenanceStatusCancelled : MaintenanceStatus := "canceled".
Definition MaintenanceStatusCompleted : MaintenanceStatus := "completed".

(** A Go [map[K]V] literal, as an association list. *)
Definition go_lookup {V} (m : list (string * V)) (k : string) : option V :=
  snd <$> List.find (fun kv => String.eqb (fst kv) k) m.

Definition allowedMaintStatusTransitions : list (MaintenanceStatus * list (MaintenanceStatus * unit)) := [
  (MaintenanceStatusDraft, [(MaintenanceStatusPlanned, tt); (MaintenanceStatusCancelled, tt)]);
  (MaintenanceStatusPlanned, [(MaintenanceStatusInProgress, tt); (MaintenanceStatusCancelled, tt)]);
  (MaintenanceStatusInProgress, [(MaintenanceStatusCompleted, tt); (MaintenanceStatusCancelled, tt)]);
  (MaintenanceStatusCancelled, []);
  (MaintenanceStatusCompleted, [])].

(** A missing outer key reads as the nil map, in which every lookup misses. *)
Definition CanMaintTransition (from to : MaintenanceStatus) : bool :=
  match go_lookup allowedMaintStatusTransitions from with
  | Some inner => match go_lookup inner to with Some _ => true | None => false end
  | None => false
  end.

Definition MaintenanceStatus_IsTerminal (s : MaintenanceStatus) : bool :=
  String.eqb s MaintenanceStatusCancelled || String.eqb s MaintenanceStatusCompleted.

Definition MaintenanceScope := string.
Definition MaintenanceScopeGlobal : MaintenanceScope := "global".
Definition MaintenanceScopeResources : MaintenanceScope := "resource".

Definition MaintenanceImpact := string.
Definition MaintenanceImpactNone : MaintenanceImpact := "none".
Definition MaintenanceImpactPartial : MaintenanceImpact := "partial_outage".
Definition MaintenanceImpactFull : MaintenanceImpact := "full_outage".

Definition MaintenanceCancelReason := string.
Definition MaintenanceCancelReasonConflict : MaintenanceCancelReason := "conflict".
Definition MaintenanceCancelReasonIncident : MaintenanceCancelReason := "incident".
Definition MaintenanceCancelReasonBusinessDecision : MaintenanceCancelReason := "business_decision".
Definition MaintenanceCancelReasonRescheduled : MaintenanceCancelReason := "rescheduled".
Definition MaintenanceCancelReasonMistake : MaintenanceCancelReason := "mistake".
Definition MaintenanceCancelReasonNotStarted : MaintenanceCancelReason := "not_started".

(** ** Step status (entity/maint_step.go) *)

Definition MaintenanceStepStatus := string.
Definition MaintenanceStepStatusPlanned : MaintenanceStepStatus := "planned".
Definition MaintenanceStepStatusStarted : MaintenanceStepStatus := "started".
Definition MaintenanceStepStatusCompleted : MaintenanceStepStatus := "completed".
Definition MaintenanceStepStatusCanceled : MaintenanceStepStatus := "canceled".

Definition MaintenanceStepStatus_IsTerminal (s : MaintenanceStepStatus) : bool :=
  String.eqb s MaintenanceStepStatusCompleted || String.eqb s MaintenanceStepStatusCanceled.

Definition allowedMaintStepStatusTransitions : list (MaintenanceStepStatus * list (MaintenanceStepStatus * unit)) := [
  (MaintenanceStepStatusPlanned, [(MaintenanceStepStatusStarted, tt)]);
  (MaintenanceStepStatusStarted, [(MaintenanceStepStatusCompleted, tt); (MaintenanceStepStatusCanceled, tt)]);
  (MaintenanceStepStatusCompleted, []);
  (MaintenanceStepStatusCanceled, [])].

Definition CanMainStepTransition (from to : MaintenanceStepStatus) : bool :=
  match go_lookup allowedMaintStepStatusTransitions from with
  | Some inner => match go_lookup inner to with Some _ => true | None => false end
  | None => false
  end.

(** ** Periods (entity/period.go) *)

Record Period := mkPeriod { Start : Time; End_ : option Time }.
#[export] Instance eta_Period : Eta Period := fun p => mkPeriod (Start p) (End_ p).
#[export] Instance Period_eq_dec : EqDecision Period.
Proof. solve_decision. Defined.

Definition NewPeriod (start end_ : Time) : Period := mkPeriod start (Some end_).
Definition NewOpenEndedPeriod (start : Time) : Period := mkPeriod start None.
Definition IsOpen (p : Period) : bool := bool_decide (End_ p = None).
(** [p.End.Sub(p.Start)]: a method call through a nil [*time.Time] panics. *)
Definition Period_Duration (p : Period) : outcome Duration :=
  match End_ p with
  | Some e => Ok (Time_Sub e (Start p))
  | None => Panic "invalid memory address or nil pointer dereference"
  end.

Definition Period_String (p : Period) : string :=
  (Format_RFC3339 (Start p) +:+ " - " +:+
   (if IsOpen p then "open ended" else Format_RFC3339 (FromPtr zeroTime (End_ p))))%string.

(** ** internal/utils/xtime/pgrange.go

    [pgtype.Tstzrange], as the fields the two functions read and write.  Every
    time is an instant, so [pgRangeInLocation] is the identity on it. *)
Inductive pgStatus := pgUndefined | pgNull | pgPresent.
Inductive pgBound := pgInclusive | pgExclusive | pgUnbounded | pgEmpty.
Record Timestamptz := mkTstz { tz_Time : Time; tz_Status : pgStatus }.
Record Tstzrange := mkRange {
  r_Lower : Timestamptz; r_Upper : Timestamptz;
  r_LowerType : pgBound; r_UpperType : pgBound; r_Status : pgStatus }.

Definition ToPgRange (p : Period) : Tstzrange :=
  if IsOpen p then
    mkRange (mkTstz (Start p) pgPresent) (mkTstz zeroTime pgUndefined) pgInclusive pgUnbounded pgPresent
  else
    mkRange (mkTstz (Start p) pgPresent) (mkTstz (FromPtr zeroTime (End_ p)) pgPresent)
      pgInclusive pgExclusive pgPresent.

Definition FromPgRange (r : Tstzrange) : Period :=
  match r_Status r with
  | pgPresent =>
      mkPeriod
        (match tz_Status (r_Lower r) with pgPresent => tz_Time (r_Lower r) | _ => zeroTime end)
        (match tz_Status (r_Upper r) with pgPresent => Some (tz_Time (r_Upper r)) | _ => None end)
  | _ => mkPeriod zeroTime None
  end.

(** ** Steps, reminders and notify targets *)

Record MaintenanceStep := mkStep {
  st_ID : UUID;
  st_Order : Z;
  st_Description : string;
  st_RollbackDescription : string;
  st_DurationMinutes : Z;
  st_Status : MaintenanceStepStatus;
  st_ActualStartedAt : option Time;
  st_ActualCompletedAt : option Time;
  st_CreatedAt : Time;
  st_UpdatedAt : option Time }.
#[export] Instance eta_Step : Eta MaintenanceStep := fun s =>
  mkStep (st_ID s) (st_Order s) (st_Description s) (st_RollbackDescription s) (st_DurationMinutes s)
    (st_Status s) (st_ActualStartedAt s) (st_ActualCompletedAt s) (st_CreatedAt s) (st_UpdatedAt s).

Record DeferredNotification := mkDeferred {
  dn_ID : UUID; dn_MaintID : UUID; dn_FireAt : Time; dn_GoqueTaskID : option UUID }.
#[export] Instance eta_Deferred : Eta DeferredNotification := fun d =>
  mkDeferred (dn_ID d) (dn_MaintID d) (dn_FireAt d) (dn_GoqueTaskID d).

Definition IsScheduled (n : DeferredNotification) : bool :=
  match dn_GoqueTaskID n with
  | Some id => negb (N.eqb id uuid_Nil)
  | None => false
  end.

Definition NotifyTransport := string.
Record MessageRef := mkRef { MessageID : string }.

Record NotifyTarget := mkTarget {
  nt_ID : UUID; nt_MaintID : UUID; nt_ChannelID : UUID; nt_CreatedAt : Time;
  nt_Transport : NotifyTransport; nt_TransportChannelID : string; nt_ChannelName : string;
  nt_RootRef : option MessageRef; nt_RootChannel : string }.

(** ** Maintenances *)

Record Maintenance := mkMaint {
  ID : UUID;
  Title : string;
  Description : string;
  PlannedPeriod : Period;
  ActualPeriod : option Period;
  Resources : list UUID;
  Scope : MaintenanceScope;
  Impact : MaintenanceImpact;
  Status : MaintenanceStatus;
  CancelReason : MaintenanceCancelReason;
  CancelReasonComment : string;
  CreatedByUserID : UUID;
  CreatedAt : Time;
  UpdatedAt : option Time;
  Steps : list MaintenanceStep;
  NotifyTargets : list NotifyTarget;
  DeferredNotifications : list DeferredNotification;
  Mentions : list UUID;
  ApproverUserID : UUID;
  TaskTrackerURL : string }.
#[export] Instance eta_Maint : Eta Maintenance := fun m =>
  mkMaint (ID m) (Title m) (Description m) (PlannedPeriod m) (ActualPeriod m) (Resources m) (Scope m)
    (Impact m) (Status m) (CancelReason m) (CancelReasonComment m) (CreatedByUserID m) (CreatedAt m)
    (UpdatedAt m) (Steps m) (NotifyTargets m) (DeferredNotifications m) (Mentions m)
    (ApproverUserID m) (TaskTrackerURL m).

(** A global-scoped maintenance has no resources. *)
Definition Normalize (m : Maintenance) : Maintenance :=
  if String.eqb (Scope m) MaintenanceScopeGlobal then m <| Resources := [] |> else m.

(** [m.ActualPeriod.End = &end] writes through the pointer. *)
Definition CloseActualPeriod (end_ : Time) (m : Maintenance) : Maintenance :=
  match ActualPeriod m with
  | None => m
  | Some p =>
      if negb (Before (Start p) end_) then m <| ActualPeriod := None |>
      else m <| ActualPeriod := Some (p <| End_ := Some end_ |>) |>
  end.

Definition Revision (m : Maintenance) : Z :=
  match UpdatedAt m with
  | Some u => UnixMicro u
  | None => UnixMicro (CreatedAt m)
  end.

(** A new maintenance value with the given fields, the rest zero. *)
Definition zeroMaint : Maintenance :=
  mkMaint uuid_Nil "" "" (mkPeriod zeroTime None) None [] "" "" "" "" "" uuid_Nil zeroTime None
    [] [] [] [] uuid_Nil "".

(** ** Users (entity/user.go) *)

Definition Role := string.
Definition RoleGuest : Role := "guest".
Definition RoleEditor : Role := "editor".
Definition RoleReviewer : Role := "reviewer".
Definition RoleAdmin : Role := "admin".
Definition roleSystemAdmin : Role := "system admin".

Definition rolesLevel : list (Role * Z) :=
  [(RoleGuest, 0); (RoleEditor, 1); (RoleReviewer, 2); (RoleAdmin, 3)].
Definition RoleOccupiesSeat (role : Role) : bool :=
  FromPtr 0 (go_lookup rolesLevel RoleGuest) <? FromPtr 0 (go_lookup rolesLevel role).

Definition ApproverEligibleRoles : list Role := [RoleReviewer; RoleAdmin].

Record User := mkUser {
  u_ID : UUID; u_Email : string; u_Name : string; u_Roles : list Role; u_CreatedAt : Time;
  u_BlockedAt : option Time; u_Timezone : option string; u_TelegramTag : option string;
  u_SlackTag : option string }.
#[export] Instance eta_User : Eta User := fun u =>
  mkUser (u_ID u) (u_Email u) (u_Name u) (u_Roles u) (u_CreatedAt u) (u_BlockedAt u) (u_Timezone u)
    (u_TelegramTag u) (u_SlackTag u).
(** [entity.User{Email: email, Name: name, Roles: roles}] *)
Definition newUser (email name : string) (roles : list Role) : User :=
  mkUser uuid_Nil email name roles zeroTime None None None None.

Definition IsBlocked (u : User) : bool := match u_BlockedAt u with Some _ => true | None => false end.
Definition IsAdmin (u : User) : bool := existsb (String.eqb RoleAdmin) (u_Roles u).
Definition IsActiveAdmin (u : User) : bool := IsAdmin u && negb (IsBlocked u).
Definition SystemUser : User := newUser "system@email.com" "system" [roleSystemAdmin].

(** [Role.Valid] *)
Definition Role_Valid (r : Role) : bool :=
  String.eqb r RoleGuest || String.eqb r RoleEditor || String.eqb r RoleReviewer || String.eqb r RoleAdmin.
Definition DefaultRoles : list Role := [RoleGuest].

(** entity.HighestRole: the seat bucket of a role set. *)
Definition role_level (r : Role) : Z := FromPtr 0 (go_lookup rolesLevel r).
Definition HighestRole (roles : list Role) : Role :=
  fst (foldl (fun (acc : Role * Z) role =>
         if acc.2 <? role_level role then (role, role_level role) else acc)
       (RoleGuest, role_level RoleGuest) roles).

(** The domain reserved for the break-glass account (entity/auth_method.go). *)
Definition breakGlassDomain : string := "maintmode.invalid".
Definition BreakGlassEmail : string := "break-glass@" +:+ breakGlassDomain.
Definition BreakGlassName : string := "Break-glass admin".
Definition IsBreakGlassEmail (email : string) : bool :=
  strings_HasSuffix (strings_ToLower (strings_TrimSpace email)) ("@" +:+ breakGlassDomain).
Definition IsBreakGlass (u : User) : bool := IsBreakGlassEmail (u_Email u).

(** ** The catalogs (entity/resource.go, entity/notifier_transport.go) *)

Definition ResourceStatus := string.
Definition ResourceStatusActive : ResourceStatus := "active".
Definition ResourceStatusArchived : ResourceStatus := "archived".

Record ResourceDetails := mkResource {
  res_ID : UUID; res_Name : string; res_Description : string; res_ExternalID : option string;
  res_Status : ResourceStatus; res_CreatedAt : Time; res_CreatedByUserID : option UUID;
  res_UpdatedAt : option Time; res_UpdatedByUserID : option UUID }.
#[export] Instance eta_ResourceDetails : Eta ResourceDetails := fun r =>
  mkResource (res_ID r) (res_Name r) (res_Description r) (res_ExternalID r) (res_Status r) (res_CreatedAt r)
    (res_CreatedByUserID r) (res_UpdatedAt r) (res_UpdatedByUserID r).

Record NotifyChannel := mkNotifyChannel {
  nc_ID : UUID; nc_Transport : NotifyTransport; nc_TransportChannelID : string; nc_Name : string;
  nc_Description : string; nc_CreatedAt : Time; nc_CreatedByUserID : option UUID;
  nc_UpdatedAt : option Time; nc_UpdatedByUserID : option UUID; nc_ArchivedAt : option Time }.
#[export] Instance eta_NotifyChannel : Eta NotifyChannel := fun c =>
  mkNotifyChannel (nc_ID c) (nc_Transport c) (nc_TransportChannelID c) (nc_Name c) (nc_Description c)
    (nc_CreatedAt c) (nc_CreatedByUserID c) (nc_UpdatedAt c) (nc_UpdatedByUserID c) (nc_ArchivedAt c).

(** Invitations (entity/invitation.go). *)
Record Invitation := mkInvitation {
  inv_ID : UUID; inv_Email : string; inv_Roles : list Role; inv_TokenHash : string; inv_Status : string;
  inv_InvitedByID : UUID; inv_ExpiresAt : Time; inv_SentAt : Time; inv_AcceptedAt : option Time;
  inv_RevokedAt : option Time; inv_CreatedAt : Time }.

(** ** Commands (entity/commands.go) *)

Record MaintenanceStepInput := mkStepInput {
  si_Order : Z; si_Description : string; si_RollbackDescription : string; si_DurationMinutes : Z }.
Record NotifyTargetInput := mkTargetInput { nti_ChannelID : UUID }.
Record MentionInput := mkMentionInput { mi_UserID : UUID }.
Record DeferredNotificationInput := mkDeferredInput { di_FireAt : Time }.

Record CreateMaintenanceCmd := mkCreateCmd {
  cc_Title : string; cc_Description : string; cc_PlannedPeriod : Period;
  cc_Scope : MaintenanceScope; cc_Impact : MaintenanceImpact; cc_Resources : list UUID;
  cc_Steps : list MaintenanceStepInput; cc_NotifyTargets : list NotifyTargetInput;
  cc_DeferredNotifications : list DeferredNotificationInput; cc_Mentions : list MentionInput;
  cc_ApproverUserID : UUID; cc_CreatedByUserID : UUID; cc_TaskTrackerURL : string;
  cc_Actor : option User }.

Record UpdateMaintenanceCmd := mkUpdateCmd {
  uc_MaintID : UUID; uc_Title : option string; uc_Description : option string;
  uc_PlannedStart : option Time; uc_Scope : option MaintenanceScope; uc_Impact : option MaintenanceImpact;
  uc_Resources : list UUID; uc_Steps : list MaintenanceStepInput;
  uc_NotifyTargets : list NotifyTargetInput;
  uc_DeferredNotifications : option (list DeferredNotificationInput);
  uc_Mentions : option (list MentionInput);
  uc_ApproverUserID : option UUID; uc_TaskTrackerURL : option string; uc_Actor : option User }.

Record StartMaintenanceCmd := mkStartCmd { sc_MaintID : UUID; sc_Actor : option User }.
Record CompleteMaintenanceCmd := mkCompleteCmd { co_MaintID : UUID; co_Actor : option User }.
Record CancelMaintenanceCmd := mkCancelCmd {
  ca_MaintID : UUID; ca_Reason : MaintenanceCancelReason; ca_ReasonComment : string; ca_Actor : option User }.
Record StepCmd := mkStepCmd { sp_MaintID : UUID; sp_StepID : UUID; sp_Actor : option User }.

(** ** auth_method.go, token.go, oauth_dance.go: what a sign-in through a provider carries *)

Definition AuthMethod := string.
Definition AuthMethodStub : AuthMethod := "stub".
Definition AuthMethodGoogle : AuthMethod := "google".
Definition AuthMethodGithub : AuthMethod := "github".
Definition AuthMethodBootstrap : AuthMethod := "bootstrap".
Definition AuthMethodUnknown : AuthMethod := "unknown".
Definition PrimaryAuthMethod (methods : list AuthMethod) : AuthMethod := default AuthMethodUnknown (head methods).

Record OAuthIDTokenClaims := mkOAuthClaims {
  oc_Subject : string; oc_Email : string; oc_Name : string; oc_EmailVerified : bool }.
Record TokenPair := mkPair {
  AccessToken : string; tp_RefreshToken : string; ExpiresIn : Z; tp_SessionID : UUID; SessionExpiresAt : Time }.
(** What a link ticket, a one-time code and a link code redeem. *)
Record LinkIntent := mkLinkIntent { li_UserID : UUID; li_Provider : AuthMethod }.
Record DanceCode := mkDanceCode { dc_Pair : option TokenPair; dc_Binding : string }.
Record PendingLink := mkPendingLink {
  pl_UserID : UUID; pl_Provider : AuthMethod; pl_Claims : OAuthIDTokenClaims; pl_Binding : string }.

(** ** Facts *)

Lemma go_lookup_cons {V} k (v : V) m k' :
  go_lookup ((k, v) :: m) k' = if String.eqb k k' then Some v else go_lookup m k'.
Proof. unfold go_lookup. simpl. by destruct (String.eqb k k'). Qed.

Lemma go_lookup_nil {V} k : go_lookup ([] : list (string * V)) k = None.
Proof. done. Qed.

Lemma go_lookup_in {V} (m : list (string * V)) k v : go_lookup m k = Some v -> (k, v) ∈ m.
Proof.
  intros ([k' v'] & [Hin Ek%String.eqb_eq]%find_some & ->)%fmap_Some. simpl in Ek. subst k'. by apply list_elem_of_In.
Qed.

(** Expose the texts of the statuses, so that different ones are different. *)
Ltac status_unfold :=
  unfold MaintenanceStatusDraft, MaintenanceStatusPlanned, MaintenanceStatusInProgress,
    MaintenanceStatusCancelled, MaintenanceStatusCompleted, MaintenanceStepStatusPlanned,
    MaintenanceStepStatusStarted, MaintenanceStepStatusCompleted, MaintenanceStepStatusCanceled,
    MaintenanceScopeGlobal, MaintenanceScopeResources in *.

Ltac solve_table :=
  status_unfold;
  repeat (rewrite go_lookup_cons || rewrite go_lookup_nil ||
    match goal with
    | |- context [String.eqb ?a ?b] => destruct (String.eqb_spec a b); subst
    end); simpl; naive_solver.

(** The transition relation, pair by pair. *)
Lemma CanMaintTransition_iff from to :
  CanMaintTransition from to = true ↔
    (from = MaintenanceStatusDraft ∧ (to = MaintenanceStatusPlanned ∨ to = MaintenanceStatusCancelled)) ∨
    (from = MaintenanceStatusPlanned ∧ (to = MaintenanceStatusInProgress ∨ to = MaintenanceStatusCancelled)) ∨
    (from = MaintenanceStatusInProgress ∧ (to = MaintenanceStatusCompleted ∨ to = MaintenanceStatusCancelled)).
Proof.
  unfold CanMaintTransition, allowedMaintStatusTransitions. solve_table.
Qed.

Lemma CanMainStepTransition_iff from to :
  CanMainStepTransition from to = true ↔
    (from = MaintenanceStepStatusPlanned ∧ to = MaintenanceStepStatusStarted) ∨
    (from = MaintenanceStepStatusStarted ∧
       (to = MaintenanceStepStatusCompleted ∨ to = MaintenanceStepStatusCanceled)).
Proof.
  unfold CanMainStepTransition, allowedMaintStepStatusTransitions. solve_table.
Qed.

(** A period survives the trip through its PostgreSQL range. *)
Lemma FromPgRange_ToPgRange p : FromPgRange (ToPgRange p) = p.
Proof. destruct p as [s [e|]]; done. Qed.

Lemma Normalize_idem m : Normalize (Normalize m) = Normalize m.
Proof.
  unfold Normalize. destruct (String.eqb (Scope m) MaintenanceScopeGlobal) eqn:E; simpl; by rewrite E.
Qed.
