(* ===== verification/Conflict.v ===== *)
(** * Conflicts (internal/entity/conflict.go)

    The conflict set an approver previews, its fingerprint (the optimistic
    token the approve gate compares), the marking of conflicts the approver had
    already seen, and the response order. *)
From Stdlib Require Import ZArith Lia Ascii String DecimalString DecimalZ.
From stdpp Require Import base sorting sets strings numbers list.
From S2P Require Import Prelude Go Sha256 Entity.
Open Scope Z_scope.

Record Conflict := mkConflict {
  cf_MaintenanceID : UUID; cf_Title : string; cf_OverlapStart : Time; cf_OverlapEnd : Time;
  cf_Scope : MaintenanceScope }.

Record ConflictWithResources := mkCWR {
  cr_Conflict : Conflict; cr_Resources : list UUID; cr_KnownAtApproval : bool }.
#[export] Instance eta_CWR : Eta ConflictWithResources := fun c =>
  mkCWR (cr_Conflict c) (cr_Resources c) (cr_KnownAtApproval c).

Definition cr_MaintenanceID (c : ConflictWithResources) : UUID := cf_MaintenanceID (cr_Conflict c).
Definition cr_OverlapStart (c : ConflictWithResources) : Time := cf_OverlapStart (cr_Conflict c).
Definition cr_OverlapEnd (c : ConflictWithResources) : Time := cf_OverlapEnd (cr_Conflict c).
Definition cr_Scope (c : ConflictWithResources) : MaintenanceScope := cf_Scope (cr_Conflict c).

Definition ConflictsSnapshot := list ConflictWithResources.

(** [strings.Compare] *)
Definition strings_Compare (a b : string) : comparison := bytes_Compare (bytes a) (bytes b).

(** ** The fingerprint *)

Definition SortResources (resources : list UUID) : list UUID := sort_by xuuid_Compare resources.

(** The comparator of [ConflictFingerprint]; two different sixteen-byte ids
    never compare equal, so each test-then-compare of the source is one link of
    the lexicographic chain. *)
Definition fingerprint_cmp (c1 c2 : ConflictWithResources) : comparison :=
  cmp_then (xuuid_Compare (cr_MaintenanceID c1) (cr_MaintenanceID c2))
    (cmp_then (Z.compare (cr_OverlapStart c1) (cr_OverlapStart c2))
      (cmp_then (Z.compare (cr_OverlapEnd c1) (cr_OverlapEnd c2))
        (strings_Compare (cr_Scope c1) (cr_Scope c2)))).

Definition conflictResourcesFingerprint (resources : list UUID) : list ascii :=
  resources ≫= fun id => bytes "id=" ++ uuid_bytes id.

(** What one conflict appends to the buffer. *)
Definition conflict_buf (c : ConflictWithResources) : list ascii :=
  bytes "maintenance_id=" ++ uuid_bytes (cr_MaintenanceID c) ++
  bytes "scope=" ++ bytes (cr_Scope c) ++
  bytes "overlap_start=" ++ decimal (Unix (Truncate_Second (cr_OverlapStart c))) ++
  bytes "overlap_end=" ++ decimal (Unix (Truncate_Second (cr_OverlapEnd c))) ++
  bytes "resources=" ++ conflictResourcesFingerprint (cr_Resources c).

(** The bytes that are hashed. *)
Definition fingerprint_input (conflicts : list ConflictWithResources) : list ascii :=
  match conflicts with
  | [] => bytes "EMPTY_CONFLICT_SET"
  | _ =>
      let sorted := sort_by fingerprint_cmp conflicts in
      let sorted := (fun c => c <| cr_Resources := SortResources (cr_Resources c) |>) <$> sorted in
      sorted ≫= conflict_buf
  end.

Definition ConflictFingerprint (conflicts : list ConflictWithResources) : string :=
  HashSha256 (fingerprint_input conflicts).

(** Each neighbor narrowed to the resources it shares with [own]; the elements
    are pointers, and nil ones are skipped. *)
Definition shared_with (own : list UUID) (c : ConflictWithResources) : ConflictWithResources :=
  mkCWR (cr_Conflict c) (List.filter (fun id => bool_decide (id ∈ own)) (cr_Resources c)) false.

Definition ConflictFingerprintFor (conflicts : list (option ConflictWithResources)) (ownResourceIDs : list UUID) : string :=
  ConflictFingerprint (shared_with ownResourceIDs <$> omap id conflicts).

(** ** Marking and ordering *)

Definition MarkKnownAtApproval (live snapshot : list ConflictWithResources) : list ConflictWithResources :=
  if bool_decide (live = []) || bool_decide (snapshot = []) then live
  else
    let known := cr_MaintenanceID <$> snapshot in
    (fun c => c <| cr_KnownAtApproval := bool_decide (cr_MaintenanceID c ∈ known) |>) <$> live.

(** false (unreviewed) sorts before true. *)
Definition known_cmp (a b : bool) : comparison :=
  match a, b with true, false => Gt | false, true => Lt | _, _ => Eq end.

Definition response_cmp (c1 c2 : ConflictWithResources) : comparison :=
  cmp_then (known_cmp (cr_KnownAtApproval c1) (cr_KnownAtApproval c2))
    (cmp_then (Z.compare (cr_OverlapStart c1) (cr_OverlapStart c2))
      (xuuid_Compare (cr_MaintenanceID c1) (cr_MaintenanceID c2))).

Definition SortConflicts (conflicts : list ConflictWithResources) : list ConflictWithResources :=
  sort_by response_cmp conflicts.

(** ** Facts *)

#[export] Instance fingerprint_cmp_order : CmpOrder fingerprint_cmp.
Proof.
  unfold fingerprint_cmp, strings_Compare.
  apply cmp_lex_order; [apply (cmp_on_order cr_MaintenanceID), _|].
  apply cmp_lex_order; [apply (cmp_on_order cr_OverlapStart), _|].
  apply cmp_lex_order; [apply (cmp_on_order cr_OverlapEnd), _|].
  apply (cmp_on_order (fun c => bytes (cr_Scope c))), _.
Qed.

#[export] Instance known_cmp_order : CmpOrder known_cmp.
Proof. split; [by intros [] []|by intros [] [] []]. Qed.

#[export] Instance response_cmp_order : CmpOrder response_cmp.
Proof.
  unfold response_cmp.
  apply cmp_lex_order; [apply (cmp_on_order cr_KnownAtApproval), _|].
  apply cmp_lex_order; [apply (cmp_on_order cr_OverlapStart), _|].
  apply (cmp_on_order cr_MaintenanceID), _.
Qed.

(** What the fingerprint sees of a conflict: the neighbor, its scope, the
    window to the second and the resources as a sorted list. *)
Record conflict_key := mkKey {
  k_id : UUID; k_scope : MaintenanceScope; k_start : Z; k_end : Z; k_resources : list UUID }.

Definition key (c : ConflictWithResources) : conflict_key :=
  mkKey (cr_MaintenanceID c) (cr_Scope c) (Unix (cr_OverlapStart c)) (Unix (cr_OverlapEnd c))
    (SortResources (cr_Resources c)).

Definition key_buf (k : conflict_key) : list ascii :=
  bytes "maintenance_id=" ++ uuid_bytes (k_id k) ++ bytes "scope=" ++ bytes (k_scope k) ++
  bytes "overlap_start=" ++ decimal (k_start k) ++ bytes "overlap_end=" ++ decimal (k_end k) ++
  bytes "resources=" ++ conflictResourcesFingerprint (k_resources k).

Definition valid_conflict (c : ConflictWithResources) : Prop :=
  uuid_valid (cr_MaintenanceID c) ∧ Forall uuid_valid (cr_Resources c) ∧
  (cr_Scope c = MaintenanceScopeGlobal ∨ cr_Scope c = MaintenanceScopeResources).

Definition valid_key (k : conflict_key) : Prop :=
  uuid_valid (k_id k) ∧ Forall uuid_valid (k_resources k) ∧
  (k_scope k = MaintenanceScopeGlobal ∨ k_scope k = MaintenanceScopeResources).

Lemma Unix_Truncate t : Unix (Truncate_Second t) = Unix t.
Proof. unfold Unix, Truncate_Second. by apply Z.div_mul. Qed.

Lemma key_buf_key c :
  conflict_buf (c <| cr_Resources := SortResources (cr_Resources c) |>) = key_buf (key c).
Proof. unfold conflict_buf. rewrite !Unix_Truncate. reflexivity. Qed.

Lemma fingerprint_input_keys l :
  l ≠ [] -> fingerprint_input l = (key <$> sort_by fingerprint_cmp l) ≫= key_buf.
Proof.
  intros Hl. unfold fingerprint_input. destruct l as [|x l]; [done|].
  set (s := sort_by _ _). clearbody s. clear Hl x l.
  induction s as [|c s IH]; [done|].
  rewrite !fmap_cons, !bind_cons. f_equal; [apply key_buf_key|done].
Qed.

Lemma valid_key_key c : valid_conflict c -> valid_key (key c).
Proof.
  intros (? & ? & ?). split; [done|]. split; [|done]. unfold key, SortResources. simpl.
  by rewrite sort_by_Permutation.
Qed.

(** *** The buffer is uniquely decodable *)

Lemma app_inj_delim {A} (x : A) l1 l2 r1 r2 :
  x ∉ l1 -> x ∉ l2 -> l1 ++ x :: r1 = l2 ++ x :: r2 -> l1 = l2 ∧ r1 = r2.
Proof.
  revert l2. induction l1 as [|a l1 IH]; intros [|b l2]; simpl; intros H1 H2 E; simplify_eq; try set_solver.
  destruct (IH l2) as [-> ->]; set_solver.
Qed.

Lemma decimal_no_o n : "o"%char ∉ decimal n.
Proof. by intros [?|[? ?]]%decimal_chars. Qed.

Lemma decimal_no_r n : "r"%char ∉ decimal n.
Proof. by intros [?|[? ?]]%decimal_chars. Qed.

(** What can follow a resource list: nothing, or the next conflict. *)
Definition next_ok (r : list ascii) : Prop := r = [] ∨ ∃ r', r = "m"%char :: r'.

Lemma resources_inj l1 l2 r1 r2 :
  Forall uuid_valid l1 -> Forall uuid_valid l2 -> next_ok r1 -> next_ok r2 ->
  conflictResourcesFingerprint l1 ++ r1 = conflictResourcesFingerprint l2 ++ r2 ->
  l1 = l2 ∧ r1 = r2.
Proof.
  intros H1 H2 N1 N2. unfold conflictResourcesFingerprint. revert l2 H2.
  induction H1 as [|u l1 Hu H1 IH]; intros l2 H2; destruct H2 as [|v l2 Hv H2]; [done|..].
  - rewrite bind_cons. destruct N1 as [->|[r' ->]]; simpl; intros E; simplify_eq.
  - rewrite bind_cons. destruct N2 as [->|[r' ->]]; simpl; intros E; simplify_eq.
  - rewrite !bind_cons, <- !app_assoc. intros E%(app_inv_head (bytes "id=")).
    apply app_inj_1 in E as [Eu E]; [|by rewrite !length_uuid_bytes].
    apply uuid_bytes_inj in Eu; [|done..]. destruct (IH l2) as [-> ->]; by subst.
Qed.

Lemma key_buf_inj k1 k2 r1 r2 :
  valid_key k1 -> valid_key k2 -> next_ok r1 -> next_ok r2 ->
  key_buf k1 ++ r1 = key_buf k2 ++ r2 -> k1 = k2 ∧ r1 = r2.
Proof.
  intros (I1 & R1 & S1) (I2 & R2 & S2) N1 N2. unfold key_buf. rewrite <- !app_assoc.
  intros E%(app_inv_head (bytes "maintenance_id=")).
  apply app_inj_1 in E as [Ei E]; [|by rewrite !length_uuid_bytes].
  apply uuid_bytes_inj in Ei; [|done..]. apply (app_inv_head (bytes "scope=")) in E.
  assert (k_scope k1 = k_scope k2) as Es.
  { destruct S1 as [S1|S1], S2 as [S2|S2]; rewrite S1, S2 in *; try done; discriminate. }
  rewrite Es in E. apply app_inv_head, (app_inv_head (bytes "overlap_start=")) in E.
  apply (app_inj_delim "o"%char) in E as [Ea E]; [|apply decimal_no_o..].
  apply (app_inv_head (bytes "verlap_end=")) in E.
  apply (app_inj_delim "r"%char) in E as [Eb E]; [|apply decimal_no_r..].
  apply (app_inv_head (bytes "esources=")) in E.
  apply resources_inj in E as [Er ->]; [|done..].
  apply decimal_inj in Ea, Eb. destruct k1, k2; simpl in *. by subst.
Qed.

Lemma keys_next_ok ks : next_ok (ks ≫= key_buf).
Proof. destruct ks as [|k ks]; [by left|right]. eexists. rewrite bind_cons. done. Qed.

Lemma keys_buf_inj ks1 ks2 :
  Forall valid_key ks1 -> Forall valid_key ks2 ->
  ks1 ≫= key_buf = ks2 ≫= key_buf -> ks1 = ks2.
Proof.
  intros H1. revert ks2. induction H1 as [|k1 ks1 Hk1 H1 IH]; intros ks2 H2; destruct H2 as [|k2 ks2 Hk2 H2];
    [done|..]; rewrite ?bind_cons; [done|done|].
  intros E. apply key_buf_inj in E as [-> E]; [|done|done|apply keys_next_ok..].
  f_equal. auto.
Qed.

Lemma hex_digit_inj (a b : ascii) :
  (let n := N_of_ascii a in [hex_digit (n / 16); hex_digit (n mod 16)]) =
  (let n := N_of_ascii b in [hex_digit (n / 16); hex_digit (n mod 16)]) -> a = b.
Proof.
  set (dec := fun c => let n := N_of_ascii c in (if n <? 58 then n - 48 else n - 87)%N).
  assert (∀ a, ascii_of_N (dec (hex_digit (N_of_ascii a / 16)) * 16 +
                           dec (hex_digit (N_of_ascii a mod 16)))%N = a) as Hdec.
  { intros [[] [] [] [] [] [] [] []]; vm_compute; reflexivity. }
  intros E. rewrite <- (Hdec a), <- (Hdec b). simpl in E. congruence.
Qed.

Lemma hex_encode_inj l1 l2 : hex_encode l1 = hex_encode l2 -> l1 = l2.
Proof.
  unfold hex_encode. revert l2. induction l1 as [|a l1 IH]; intros [|b l2]; rewrite ?bind_cons; try done.
  intros E. apply app_inj_1 in E as [Ea E]; [|done]. apply hex_digit_inj in Ea. f_equal; auto.
Qed.

Lemma HashSha256_inj a b : HashSha256 a = HashSha256 b -> Sum256 a = Sum256 b.
Proof.
  unfold HashSha256. intros E. apply hex_encode_inj.
  rewrite <- (list_ascii_of_string_of_list_ascii (hex_encode (Sum256 a))), E.
  apply list_ascii_of_string_of_list_ascii.
Qed.

(** *** Sorting by id decides the order of the keys *)

Lemma sorted_keys_by_id l :
  StronglySorted (cmp_le (fun k1 k2 => xuuid_Compare (k_id k1) (k_id k2)))
    (key <$> sort_by fingerprint_cmp l).
Proof.
  pose proof (sort_by_sorted fingerprint_cmp l) as Hs.
  induction Hs as [|c s Hs IH Hall]; simpl; constructor; [done|].
  rewrite Forall_fmap. eapply Forall_impl; [exact Hall|]. intros c' Hc'. unfold cmp_le in *.
  unfold fingerprint_cmp in Hc'. simpl. by destruct (xuuid_Compare _ _).
Qed.

Lemma fingerprint_input_perm l1 l2 :
  Forall valid_conflict l1 -> NoDup (cr_MaintenanceID <$> l1) ->
  key <$> l1 ≡ₚ key <$> l2 -> fingerprint_input l1 = fingerprint_input l2.
Proof.
  intros Hv Hnd HP. destruct l1 as [|x l1].
  { apply Permutation_nil_l, symmetry, fmap_nil_inv in HP. by subst. }
  destruct l2 as [|y l2]; [by apply Permutation_nil_r in HP|].
  rewrite !fingerprint_input_keys by done. f_equal.
  set (u1 := x :: l1) in *. set (u2 := y :: l2) in *.
  apply sorted_perm_eq with (cmp := fun k1 k2 => xuuid_Compare (k_id k1) (k_id k2)).
  - apply cmp_on_order, _.
  - intros k1 k2. rewrite !list_elem_of_fmap. setoid_rewrite elem_of_sort_by.
    intros (c1 & -> & H1) (c2 & -> & H2) E. rewrite Forall_forall in Hv.
    apply xuuid_Compare_eq in E; [|by apply Hv..]. simpl in E.
    apply list_elem_of_lookup in H1 as [i Hi], H2 as [j Hj].
    assert (i = j) as ->; [|congruence].
    eapply NoDup_lookup; [exact Hnd|rewrite list_lookup_fmap, Hi; done|].
    rewrite list_lookup_fmap, Hj. simpl. by rewrite E.
  - apply sorted_keys_by_id.
  - apply sorted_keys_by_id.
  - rewrite !sort_by_Permutation. done.
Qed.

Lemma fingerprint_input_inj l1 l2 :
  Forall valid_conflict l1 -> Forall valid_conflict l2 ->
  fingerprint_input l1 = fingerprint_input l2 -> key <$> l1 ≡ₚ key <$> l2.
Proof.
  intros V1 V2. destruct l1 as [|x l1], l2 as [|y l2]; [done|..].
  - rewrite (fingerprint_input_keys (y :: l2)) by done.
    destruct (keys_next_ok (key <$> sort_by fingerprint_cmp (y :: l2))) as [->|[r ->]];
      intros E; discriminate E.
  - rewrite (fingerprint_input_keys (x :: l1)) by done.
    destruct (keys_next_ok (key <$> sort_by fingerprint_cmp (x :: l1))) as [->|[r ->]];
      intros E; discriminate E.
  - rewrite !fingerprint_input_keys by done. intros E%keys_buf_inj.
    + rewrite <- (sort_by_Permutation fingerprint_cmp (x :: l1)), E. by rewrite sort_by_Permutation.
    + rewrite Forall_fmap, sort_by_Permutation. eapply Forall_impl; [exact V1|]. apply valid_key_key.
    + rewrite Forall_fmap, sort_by_Permutation. eapply Forall_impl; [exact V2|]. apply valid_key_key.
Qed.

Lemma valid_shared own c : valid_conflict c -> valid_conflict (shared_with own c).
Proof.
  intros (? & Hr & ?). split; [done|]. split; [|done]. simpl.
  rewrite Forall_forall in *. intros u Hu. apply Hr.
  apply list_elem_of_In, filter_In in Hu as [Hu _]. by apply list_elem_of_In.
Qed.

Lemma omap_id_Some {A} (l : list A) : omap id (Some <$> l) = l.
Proof. induction l as [|x l IH]; [done|]. cbn. f_equal. exact IH. Qed.

Definition ids_of (l : list (option ConflictWithResources)) : list UUID := cr_MaintenanceID <$> omap id l.

(** The keys the approve gate compares: neighbors seen through [own]. *)
Definition gate_keys (own : list UUID) (l : list (option ConflictWithResources)) : list conflict_key :=
  key ∘ shared_with own <$> omap id l.

Lemma fingerprint_stable own l1 l2 :
  Forall valid_conflict (omap id l1) -> NoDup (ids_of l1) ->
  gate_keys own l1 ≡ₚ gate_keys own l2 ->
  ConflictFingerprintFor l1 own = ConflictFingerprintFor l2 own.
Proof.
  intros Hv Hnd HP. unfold ConflictFingerprintFor, ConflictFingerprint. f_equal.
  apply fingerprint_input_perm.
  - rewrite Forall_fmap. eapply Forall_impl; [exact Hv|]. intros c. apply valid_shared.
  - by rewrite <- list_fmap_compose.
  - by rewrite <- !list_fmap_compose.
Qed.

(** C31. The fingerprint is a function of what the approver is shown and of
    nothing else: two conflict sets that agree, as sets, on every neighbor's id,
    scope, window to the second and resources shared with [own] have the same
    fingerprint, whatever the order of the conflicts and of their resources and
    whatever else the neighbors touch. *)
Theorem ConflictFingerprintFor_stable own l1 l2 :
  Forall valid_conflict (omap id l1) -> NoDup (ids_of l1) ->
  gate_keys own l1 ≡ₚ gate_keys own l2 ->
  ConflictFingerprintFor l1 own = ConflictFingerprintFor l2 own.
Proof. apply fingerprint_stable. Qed.

(** The buffer [ConflictFingerprintFor] hashes. *)
Definition gate_buffer (own : list UUID) (l : list (option ConflictWithResources)) : list ascii :=
  fingerprint_input (shared_with own <$> omap id l).

(** C6. The gate cannot be passed with a different conflict set: when two
    fingerprints are equal, the two sets agree on every neighbor's id, scope,
    window to the second and shared resources, unless the very buffers that were
    hashed for them differ and collide under SHA-256.  The buffer itself is
    uniquely decodable. *)
Theorem ConflictFingerprintFor_sound own l1 l2 :
  Forall valid_conflict (omap id l1) -> Forall valid_conflict (omap id l2) ->
  ConflictFingerprintFor l1 own = ConflictFingerprintFor l2 own ->
  gate_keys own l1 ≡ₚ gate_keys own l2 ∨
  (gate_buffer own l1 ≠ gate_buffer own l2 ∧ Sum256 (gate_buffer own l1) = Sum256 (gate_buffer own l2)).
Proof.
  intros V1 V2 E. unfold ConflictFingerprintFor, ConflictFingerprint in E. apply HashSha256_inj in E. unfold gate_buffer.
  set (p1 := shared_with own <$> omap id l1) in *. set (p2 := shared_with own <$> omap id l2) in *.
  destruct (decide (fingerprint_input p1 = fingerprint_input p2)) as [Ei|Hne]; [left|by right].
  apply fingerprint_input_inj in Ei; subst p1 p2.
  - unfold gate_keys. by rewrite !list_fmap_compose.
  - rewrite Forall_fmap. eapply Forall_impl; [exact V1|]. intros c. apply valid_shared.
  - rewrite Forall_fmap. eapply Forall_impl; [exact V2|]. intros c. apply valid_shared.
Qed.

Definition ex_conflict (id : UUID) (s e : Time) (rs : list UUID) : ConflictWithResources :=
  mkCWR (mkConflict id "db upgrade" s e MaintenanceScopeResources) rs false.

Lemma ex_conflict_valid id s e rs :
  uuid_valid id -> Forall uuid_valid rs -> valid_conflict (ex_conflict id s e rs).
Proof. intros. repeat split; [done..|by right]. Qed.

(** Two neighbors, listed in either order, one of them touching a resource the
    approved maintenance does not hold. *)
Lemma ConflictFingerprintFor_stable_witness :
  ConflictFingerprintFor [Some (ex_conflict 7%N 0 Hour [1%N; 9%N]); None; Some (ex_conflict 5%N 0 Hour [2%N])] [1%N; 2%N]
  = ConflictFingerprintFor [Some (ex_conflict 5%N (1 * Millisecond) Hour [2%N]); Some (ex_conflict 7%N 0 Hour [1%N])] [1%N; 2%N].
Proof.
  apply ConflictFingerprintFor_stable.
  - repeat constructor; done || by right.
  - repeat constructor; set_solver.
  - vm_compute. apply Permutation_swap.
Defined.

Lemma ConflictFingerprintFor_sound_witness :
  let l1 := [Some (ex_conflict 7%N 0 Hour [1%N; 9%N])] in
  let l2 := [Some (ex_conflict 7%N 0 Hour [8%N; 1%N])] in
  gate_keys [1%N] l1 ≡ₚ gate_keys [1%N] l2 ∨
  (gate_buffer [1%N] l1 ≠ gate_buffer [1%N] l2 ∧ Sum256 (gate_buffer [1%N] l1) = Sum256 (gate_buffer [1%N] l2)).
Proof.
  apply ConflictFingerprintFor_sound.
  - repeat constructor; done || by right.
  - repeat constructor; done || by right.
  - vm_compute. reflexivity.
Defined.

Lemma mark_known_flag live snapshot c :
  Forall (fun c => cr_KnownAtApproval c = false) live ->
  c ∈ MarkKnownAtApproval live snapshot ->
  cr_KnownAtApproval c = true ↔ cr_MaintenanceID c ∈ cr_MaintenanceID <$> snapshot.
Proof.
  unfold MarkKnownAtApproval. intros Hlive. rewrite Forall_forall in Hlive.
  destruct (bool_decide_reflect (live = [])) as [->|]; simpl; [set_solver|].
  destruct (bool_decide_reflect (snapshot = [])) as [->|]; simpl.
  { intros Hc. rewrite (Hlive _ Hc). set_solver. }
  intros (c' & -> & Hc')%list_elem_of_fmap. apply bool_decide_eq_true.
Qed.

Lemma sorted_by_known l i j c1 c2 :
  SortConflicts l !! i = Some c1 -> SortConflicts l !! j = Some c2 ->
  cr_KnownAtApproval c1 = false -> cr_KnownAtApproval c2 = true -> (i < j)%nat.
Proof.
  intros H1 H2 K1 K2. destruct (decide (i < j)%nat) as [|Hge]; [done|exfalso].
  assert (j ≠ i) by (intros ->; congruence). assert (j < i)%nat as Hlt by lia.
  pose proof (StronglySorted_lookup_lt _ _ (sort_by_sorted response_cmp l) _ _ _ _ Hlt H2 H1) as Hle.
  unfold cmp_le, response_cmp in Hle. rewrite K1, K2 in Hle. done.
Qed.

(** Reading a card loses no conflict and reveals every unreviewed one:
    marking and ordering permutes the live set, changing nothing of a conflict
    but its flag; the flag is set exactly for the neighbors of the approval
    snapshot; and every conflict nobody reviewed precedes every reviewed one. *)
Theorem mark_and_sort_correct live snapshot :
  Forall (fun c => cr_KnownAtApproval c = false) live ->
  let result := SortConflicts (MarkKnownAtApproval live snapshot) in
  ((fun c => (cr_Conflict c, cr_Resources c)) <$> result) ≡ₚ ((fun c => (cr_Conflict c, cr_Resources c)) <$> live) ∧
  (∀ c, c ∈ result -> cr_KnownAtApproval c = true ↔ cr_MaintenanceID c ∈ cr_MaintenanceID <$> snapshot) ∧
  (∀ i j c1 c2, result !! i = Some c1 -> result !! j = Some c2 ->
     cr_KnownAtApproval c1 = false -> cr_KnownAtApproval c2 = true -> (i < j)%nat).
Proof.
  intros Hlive result. subst result.
  assert (Hperm : SortConflicts (MarkKnownAtApproval live snapshot) ≡ₚ MarkKnownAtApproval live snapshot)
    by apply sort_by_Permutation.
  split_and!.
  - rewrite Hperm. unfold MarkKnownAtApproval. destruct (_ || _); [done|].
    rewrite <- list_fmap_compose. done.
  - intros c Hc. rewrite Hperm in Hc. by apply mark_known_flag in Hc.
  - intros i j c1 c2. apply sorted_by_known.
Qed.

Lemma mark_and_sort_correct_witness :
  let live := [ex_conflict 7%N 0 Hour []; ex_conflict 5%N 0 Hour []] in
  cr_MaintenanceID <$> SortConflicts (MarkKnownAtApproval live [ex_conflict 5%N 0 Hour []]) = [7%N; 5%N] ∧
  ((fun c => (cr_Conflict c, cr_Resources c)) <$> SortConflicts (MarkKnownAtApproval live [ex_conflict 5%N 0 Hour []]))
    ≡ₚ ((fun c => (cr_Conflict c, cr_Resources c)) <$> live).
Proof.
  intros live. split; [vm_compute; reflexivity|].
  apply (mark_and_sort_correct live [ex_conflict 5%N 0 Hour []]). repeat constructor.
Defined.
