(* ===== verification/AuditTrail.v ===== *)
(** * Audited actions and their rendering (internal/audit, entity/audit.go)

    Every action the services report to the audit trail, and the payload the
    renderer makes of it.  A details line is kept as its pieces, because the
    quoting of [%q] is not spelled out. *)
From Stdlib Require Import ZArith Lia Ascii String.
From stdpp Require Import base sorting sets strings numbers list.
From S2P Require Import Prelude Go Entity Conflict.
Open Scope Z_scope.

Record AuditFieldChange := mkChange { fc_Field : string; fc_Old : string; fc_New : string }.

Record AuditMetadata := mkMetadata {
  md_IP : string; md_UserAgent : string; md_SessionID : string; md_FailureReason : string;
  md_LogoutKind : string; md_RevokeReason : string; md_LoginMethod : string; md_Roles : list string;
  md_RolesAdded : list string; md_RolesRemoved : list string; md_TargetEmail : string;
  md_TargetDisplayName : string; md_MaintTitle : string; md_Changes : list AuditFieldChange }.
#[export] Instance eta_AuditMetadata : Eta AuditMetadata := fun m =>
  mkMetadata (md_IP m) (md_UserAgent m) (md_SessionID m) (md_FailureReason m) (md_LogoutKind m)
    (md_RevokeReason m) (md_LoginMethod m) (md_Roles m) (md_RolesAdded m) (md_RolesRemoved m)
    (md_TargetEmail m) (md_TargetDisplayName m) (md_MaintTitle m) (md_Changes m).
Definition noMetadata : AuditMetadata := mkMetadata "" "" "" "" "" "" "" [] [] [] "" "" "" [].

(** *** Failure reasons, login methods and the like *)

Definition AuditFailureReason := string.
Definition AuditFailureUserProvisioning : AuditFailureReason := "user provisioning failed".
Definition AuditFailureTokenIssuance : AuditFailureReason := "token issuance failed".
Definition AuditFailureUserBlocked : AuditFailureReason := "user blocked".
Definition AuditFailureInvalidCredentials : AuditFailureReason := "invalid credentials".
Definition AuditFailureMethodDisabled : AuditFailureReason := "method disabled".
Definition AuditFailureInvalidCode : AuditFailureReason := "invalid code".
Definition AuditFailureAttemptsExhausted : AuditFailureReason := "attempts exhausted".
Definition AuditFailureSessionMismatch : AuditFailureReason := "session nonce mismatch".
Definition AuditFailureUnknown : AuditFailureReason := "unknown failure reason".
Definition AuditFailureCodeExpired : AuditFailureReason := "code expired".
Definition AuditFailureSignupDisabled : AuditFailureReason := "signup disabled".
Definition AuditFailureLinkConflict : AuditFailureReason := "provider link conflict".
Definition AuditFailureLinkUnusable : AuditFailureReason := "link ticket unusable".
Definition AuditFailureProviderUnavailable : AuditFailureReason := "oauth provider unavailable".
Definition AuditFailureProviderRejected : AuditFailureReason := "oauth provider rejected the account".
Definition AuditFailureProviderDenied : AuditFailureReason := "oauth provider denied".
Definition AuditLogoutKindManual : string := "manual".
Definition AuditRevokeReasonTokenReuse : string := "token_reuse".
Definition AuditLoginMethodBootstrap : string := "bootstrap".
Definition AuditLoginMethodPassword : string := "password".
Definition AuditLoginMethodOTP : string := "otp".
Definition AuditLoginMethodOIDC : string := "oidc".

(** ** Actions *)

Record RolesChange := mkRolesChange { rc_Roles : list Role; rc_Added : list Role; rc_Removed : list Role }.

(** An [actor] is a pointer; the other users are never nil where the code builds
    the action. *)
Inductive AuditAction :=
  | LoginSuccess (user : User) (meta : option AuditMetadata)
  | LoginFailed (user : User) (meta : option AuditMetadata)
  | LogoutSuccess (user : User) (sessionID : string)
  | ProviderLinked (user : User) (meta : option AuditMetadata)
  | PasswordChanged (user : User) (meta : option AuditMetadata)
  | PasswordReset (user : User) (meta : option AuditMetadata)
  | SessionRevoked (user : User) (meta : option AuditMetadata)
  | RolesChanged (actor : option User) (target : User) (kind : string) (change : RolesChange)
  | UserBlocked (actor : option User) (target : User)
  | UserUnblocked (actor : option User) (target : User)
  | UserTagsChanged (actor : option User) (target : User) (changes : list AuditFieldChange)
  | InvitationCreated (actor : option User) (invitation : Invitation)
  | InvitationRevoked (actor : option User) (invitation : Invitation)
  | AuthMethodToggled (actor : option User) (method : string) (enabled : bool)
  | IntegrationCreated (actor : option User) (kind name : string) (enabled : bool)
  | IntegrationUpdated (actor : option User) (kind name : string) (enabled : bool) (changes : list AuditFieldChange)
  | IntegrationDeleted (actor : option User) (kind name : string)
  | ResourceCreated (actor : option User) (resource : ResourceDetails)
  | ResourceUpdated (actor : option User) (resource : ResourceDetails) (changes : list AuditFieldChange)
  | ResourceArchived (actor : option User) (resource : ResourceDetails)
  | ResourceUnarchived (actor : option User) (resource : ResourceDetails)
  | NotifyChannelCreated (actor : option User) (channel : NotifyChannel)
  | NotifyChannelUpdated (actor : option User) (channel : NotifyChannel) (changes : list AuditFieldChange)
  | NotifyChannelArchived (actor : option User) (channel : NotifyChannel)
  | NotifyChannelUnarchived (actor : option User) (channel : NotifyChannel)
  | MaintCreated (actor : option User) (maint : Maintenance)
  | MaintUpdated (actor : option User) (maint : Maintenance) (changes : list AuditFieldChange)
  | MaintApproved (actor : option User) (maint : Maintenance)
  | MaintStarted (actor : option User) (maint : Maintenance)
  | MaintCompleted (actor : option User) (maint : Maintenance)
  | MaintCancelled (actor : option User) (maint : Maintenance)
  | MaintStepStarted (actor : option User) (maint : Maintenance) (step : MaintenanceStep)
  | MaintStepCompleted (actor : option User) (maint : Maintenance) (step : MaintenanceStep)
  | MaintStepCancelled (actor : option User) (maint : Maintenance) (step : MaintenanceStep).

Definition auditAction (a : AuditAction) : string :=
  match a with
  | LoginSuccess _ _ => "login.success"
  | LoginFailed _ _ => "login.failed"
  | LogoutSuccess _ _ => "logout.success"
  | ProviderLinked _ _ => "provider.linked"
  | PasswordChanged _ _ => "password.changed"
  | PasswordReset _ _ => "password.reset"
  | SessionRevoked _ _ => "session.revoked"
  | RolesChanged _ _ _ _ => "roles.changed"
  | UserBlocked _ _ => "user.blocked"
  | UserUnblocked _ _ => "user.unblocked"
  | UserTagsChanged _ _ _ => "user.tags_changed"
  | InvitationCreated _ _ => "invitation.created"
  | InvitationRevoked _ _ => "invitation.revoked"
  | AuthMethodToggled _ _ _ => "auth_method.toggled"
  | IntegrationCreated _ _ _ _ => "integration.created"
  | IntegrationUpdated _ _ _ _ _ => "integration.updated"
  | IntegrationDeleted _ _ _ => "integration.deleted"
  | ResourceCreated _ _ => "resource.created"
  | ResourceUpdated _ _ _ => "resource.updated"
  | ResourceArchived _ _ => "resource.archived"
  | ResourceUnarchived _ _ => "resource.unarchived"
  | NotifyChannelCreated _ _ => "notify_channel.created"
  | NotifyChannelUpdated _ _ _ => "notify_channel.updated"
  | NotifyChannelArchived _ _ => "notify_channel.archived"
  | NotifyChannelUnarchived _ _ => "notify_channel.unarchived"
  | MaintCreated _ _ => "maintenance.created"
  | MaintUpdated _ _ _ => "maintenance.updated"
  | MaintApproved _ _ => "maintenance.approved"
  | MaintStarted _ _ => "maintenance.started"
  | MaintCompleted _ _ => "maintenance.completed"
  | MaintCancelled _ _ => "maintenance.canceled"
  | MaintStepStarted _ _ _ => "maintenance_step.started"
  | MaintStepCompleted _ _ _ => "maintenance_step.completed"
  | MaintStepCancelled _ _ _ => "maintenance_step.canceled"
  end.

Definition AuditCategorySignIn : string := "sign_in".
Definition AuditCategoryUsers : string := "users".
Definition AuditCategorySettings : string := "settings".
Definition AuditCategoryMaintenance : string := "maintenance".

Definition auditActionCategories : list (string * string) :=
  ((fun a => (a, AuditCategorySignIn)) <$> ["login.success"; "login.failed"; "logout.success"]) ++
  ((fun a => (a, AuditCategoryUsers)) <$>
     ["roles.changed"; "user.tags_changed"; "user.blocked"; "user.unblocked"; "password.changed"; "password.reset";
      "provider.linked"; "invitation.created"; "invitation.revoked"; "session.revoked"]) ++
  ((fun a => (a, AuditCategorySettings)) <$>
     ["auth_method.toggled"; "integration.created"; "integration.updated"; "integration.deleted";
      "resource.created"; "resource.updated"; "resource.archived"; "resource.unarchived";
      "notify_channel.created"; "notify_channel.updated"; "notify_channel.archived"; "notify_channel.unarchived"]) ++
  ((fun a => (a, AuditCategoryMaintenance)) <$>
     ["maintenance.created"; "maintenance.updated"; "maintenance.approved"; "maintenance.started";
      "maintenance.completed"; "maintenance.canceled"; "maintenance_step.started"; "maintenance_step.completed";
      "maintenance_step.canceled"]).
Definition AuditActionCategory (action : string) : option string := go_lookup auditActionCategories action.

(** ** The rendered payload *)

Inductive piece := Text (s : string) | Quoted (s : string).
Definition DetailsLine := list piece.

(** entity.ProcessorTaskPayloadAuditWrite *)
Record AuditPayload := mkAuditPayload {
  ap_EventID : UUID; ap_OccurredAt : Time; ap_Action : string; ap_Actor : string; ap_ActorID : string;
  ap_ActorDisplayName : string; ap_EntityID : string; ap_EntityType : string; ap_Details : DetailsLine;
  ap_Metadata : option AuditMetadata }.
#[export] Instance eta_AuditPayload : Eta AuditPayload := fun p =>
  mkAuditPayload (ap_EventID p) (ap_OccurredAt p) (ap_Action p) (ap_Actor p) (ap_ActorID p)
    (ap_ActorDisplayName p) (ap_EntityID p) (ap_EntityType p) (ap_Details p) (ap_Metadata p).

Definition setActor (p : AuditPayload) (actor : User) : AuditPayload :=
  p <| ap_Actor := u_Email actor |> <| ap_ActorID := uuid_String (u_ID actor) |>
    <| ap_ActorDisplayName := u_Name actor |>.

(** What reading a field of a nil user does. *)
Definition nil_dereference : string := "invalid memory address or nil pointer dereference".
Definition with_actor (actor : option User) (k : User -> AuditPayload) : outcome AuditPayload :=
  match actor with
  | Some a => Ok (k a)
  | None => Panic nil_dereference
  end.
(** The arms that fill in who acted, on what, and the line. *)
Definition filled (p : AuditPayload) (actor : User) (entityID : string) (details : DetailsLine)
    (meta : option AuditMetadata) : AuditPayload :=
  (setActor p actor) <| ap_EntityID := entityID |> <| ap_Details := details |> <| ap_Metadata := meta |>.

(** *** User agents *)

Definition maxUserAgentLen : nat := 256.
(** The runes of a string: each as the bytes it is written back with, which for
    a byte that starts no valid sequence is the encoding of U+FFFD. *)
Definition replacement_rune : list ascii := [byte 239; byte 191; byte 189].
Definition is_cont (c : ascii) : bool := let n := N_of_ascii c in (128 <=? n)%N && (n <=? 191)%N.
Definition between (lo hi : N) (c : ascii) : bool := let n := N_of_ascii c in (lo <=? n)%N && (n <=? hi)%N.
(** How many bytes the first rune takes, if it is a valid sequence: the first
    continuation byte has the range the first byte asks for. *)
Definition rune_len (s : list ascii) : option nat :=
  match s with
  | [] => None
  | c :: s' =>
      let n := N_of_ascii c in
      if (n <? 128)%N then Some 1%nat
      else if between 194 223 c then
        match s' with d :: _ => if is_cont d then Some 2%nat else None | _ => None end
      else if between 224 239 c then
        match s' with
        | d :: e :: _ =>
            let lo := if N.eqb n 224 then 160%N else 128%N in
            let hi := if N.eqb n 237 then 159%N else 191%N in
            if between lo hi d && is_cont e then Some 3%nat else None
        | _ => None
        end
      else if between 240 244 c then
        match s' with
        | d :: e :: f :: _ =>
            let lo := if N.eqb n 240 then 144%N else 128%N in
            let hi := if N.eqb n 244 then 143%N else 191%N in
            if between lo hi d && is_cont e && is_cont f then Some 4%nat else None
        | _ => None
        end
      else None
  end.
(** [[]rune(s)], with as many rounds as there are bytes. *)
Fixpoint runes (fuel : nat) (s : list ascii) : list (list ascii) :=
  match fuel, s with
  | S fuel', _ :: _ =>
      match rune_len s with
      | Some k => take k s :: runes fuel' (drop k s)
      | None => replacement_rune :: runes fuel' (drop 1 s)
      end
  | _, _ => []
  end.
Definition truncateUserAgent (ua : string) : string :=
  let s := bytes ua in
  if Nat.leb (length s) maxUserAgentLen then ua
  else let rs := runes (length s) s in
       if Nat.leb (length rs) maxUserAgentLen then ua
       else string_of_list_ascii (concat (take maxUserAgentLen rs)).
Definition sanitizeMetadata (m : option AuditMetadata) : option AuditMetadata :=
  (fun m => m <| md_UserAgent := truncateUserAgent (md_UserAgent m) |>) <$> m.

(** *** Details *)

Definition providerLinkDetails (meta : option AuditMetadata) : DetailsLine :=
  match meta with
  | Some m => if negb (String.eqb (md_FailureReason m) "") then [Text "provider link refused: "; Text (md_FailureReason m)]
              else [Text "provider linked"]
  | None => [Text "provider linked"]
  end.
Definition sessionRevokedDetails (user : User) (meta : option AuditMetadata) : DetailsLine :=
  [Text "session of "; Text (u_Email user);
   Text (match meta with
         | Some m => if String.eqb (md_RevokeReason m) AuditRevokeReasonTokenReuse
                     then " revoked: refresh token reused" else " revoked"
         | None => " revoked"
         end)].
Definition failedLoginDetails (actor : User) : DetailsLine :=
  if String.eqb (u_Email actor) "" then [Text "login failed for an unidentified caller"]
  else [Text "login failed for "; Text (u_Email actor)].
Definition failedLoginEntityID (actor : User) : string :=
  if N.eqb (u_ID actor) uuid_Nil then u_Email actor else uuid_String (u_ID actor).
Definition loginSuccessDetails (user : User) (meta : option AuditMetadata) : DetailsLine :=
  [Text "login success for "; Text (u_Email user)] ++
  match meta with
  | Some m => if String.eqb (md_LoginMethod m) AuditLoginMethodBootstrap
              then [Text " using the break-glass credential"] else []
  | None => []
  end.

(** [%s] of a slice of strings. *)
Definition roles_text (l : list Role) : string := "[" +:+ String.concat " " l +:+ "]".
Definition bool_text (b : bool) : string := if b then "true" else "false".
Definition enabledVerb (enabled : bool) : string := if enabled then "enabled" else "disabled".
Definition integrationRef (kind name : string) : DetailsLine :=
  if String.eqb name "" then [Quoted kind] else [Quoted kind; Text "/"; Quoted name].
Definition auditEntityID (kind name : string) : string :=
  if String.eqb name "" then kind else kind +:+ "/" +:+ name.

(** ** The renderer *)

Definition unsupported : outcome AuditPayload := Err (Errorf "type" ErrUnsupportedEvent).

Definition fillSignInPayload (p : AuditPayload) (action : AuditAction) : outcome AuditPayload :=
  match action with
  | LoginSuccess user meta =>
      Ok (filled p user (uuid_String (u_ID user)) (loginSuccessDetails user meta) (sanitizeMetadata meta))
  | LoginFailed user meta =>
      Ok (filled p user (failedLoginEntityID user) (failedLoginDetails user) (sanitizeMetadata meta))
  | LogoutSuccess user sessionID =>
      Ok (filled p user (uuid_String (u_ID user)) [Text "logout success for "; Text (u_Email user)]
            (Some (noMetadata <| md_SessionID := sessionID |> <| md_LogoutKind := AuditLogoutKindManual |>)))
  | _ => unsupported
  end.

Definition targetMeta (target : User) : AuditMetadata :=
  noMetadata <| md_TargetEmail := u_Email target |> <| md_TargetDisplayName := u_Name target |>.

Definition fillInvitationAction (p : AuditPayload) (actor : option User) (inv : Invitation) (verb : string)
    : outcome AuditPayload :=
  with_actor actor (fun a =>
    (filled p a (uuid_String (inv_ID inv))
       [Text "invitation for "; Text (inv_Email inv); Text (" " +:+ verb); Text " by "; Text (u_Email a)]
       (Some (noMetadata <| md_Roles := inv_Roles inv |> <| md_TargetEmail := inv_Email inv |>)))
      <| ap_EntityType := "invitation" |>).

Definition fillUsersPayload (p : AuditPayload) (action : AuditAction) : outcome AuditPayload :=
  match action with
  | ProviderLinked user meta =>
      Ok (filled p user (uuid_String (u_ID user)) (providerLinkDetails meta) (sanitizeMetadata meta))
  | PasswordChanged user meta =>
      Ok (filled p user (uuid_String (u_ID user)) [Text "password changed for "; Text (u_Email user)]
            (sanitizeMetadata meta))
  | PasswordReset user meta =>
      Ok (filled p user (uuid_String (u_ID user)) [Text "password reset for "; Text (u_Email user)]
            (sanitizeMetadata meta))
  | SessionRevoked user meta =>
      Ok (filled p user (uuid_String (u_ID user)) (sessionRevokedDetails user meta) (sanitizeMetadata meta))
  | RolesChanged actor target kind change =>
      with_actor actor (fun a => filled p a (uuid_String (u_ID target))
        [Text "roles '"; Text (roles_text (rc_Roles change)); Text "' "; Text kind; Text " for "; Text (u_Email target)]
        (Some ((targetMeta target) <| md_Roles := rc_Roles change |> <| md_RolesAdded := rc_Added change |>
                 <| md_RolesRemoved := rc_Removed change |>)))
  | UserTagsChanged actor target changes =>
      with_actor actor (fun a => filled p a (uuid_String (u_ID target))
        [Text "messenger tags of "; Text (u_Email target); Text " changed by "; Text (u_Email a)]
        (Some ((targetMeta target) <| md_Changes := changes |>)))
  | UserBlocked actor target =>
      with_actor actor (fun a => filled p a (uuid_String (u_ID target))
        [Text "user "; Text (u_Email target); Text " blocked by "; Text (u_Email a)] (Some (targetMeta target)))
  | UserUnblocked actor target =>
      with_actor actor (fun a => filled p a (uuid_String (u_ID target))
        [Text "user "; Text (u_Email target); Text " unblocked by "; Text (u_Email a)] (Some (targetMeta target)))
  | InvitationCreated actor inv => fillInvitationAction p actor inv "created"
  | InvitationRevoked actor inv => fillInvitationAction p actor inv "revoked"
  | _ => unsupported
  end.

Definition fillAuthMethodToggledPayload (p : AuditPayload) (actor : option User) (method : string) (enabled : bool)
    : outcome AuditPayload :=
  with_actor actor (fun a =>
    (setActor p a) <| ap_EntityType := "auth_setting" |> <| ap_EntityID := method |>
      <| ap_Details := [Text "sign-in method "; Text method; Text " "; Text (enabledVerb enabled); Text " by ";
                        Text (u_Email a)] |>).

Definition fillIntegrationAction (p : AuditPayload) (actor : option User) (kind name : string) (enabled : bool)
    (verb : string) (changes : list AuditFieldChange) : outcome AuditPayload :=
  with_actor actor (fun a =>
    (filled p a (auditEntityID kind name)
       ([Text "integration "] ++ integrationRef kind name ++
        [Text (" " +:+ verb); Text " (enabled="; Text (bool_text enabled); Text ") by "; Text (u_Email a)])
       (match changes with [] => None | _ => Some (noMetadata <| md_Changes := changes |>) end))
      <| ap_EntityType := "integration" |>).
Definition fillIntegrationDeleteAction (p : AuditPayload) (actor : option User) (kind name : string)
    : outcome AuditPayload :=
  with_actor actor (fun a =>
    (filled p a (auditEntityID kind name)
       ([Text "integration "] ++ integrationRef kind name ++ [Text " deleted by "; Text (u_Email a)]) None)
      <| ap_EntityType := "integration" |>).
Definition fillIntegrationPayload (p : AuditPayload) (action : AuditAction) : outcome AuditPayload :=
  match action with
  | IntegrationCreated actor kind name enabled => fillIntegrationAction p actor kind name enabled "created" []
  | IntegrationUpdated actor kind name enabled changes =>
      fillIntegrationAction p actor kind name enabled "updated" changes
  | IntegrationDeleted actor kind name => fillIntegrationDeleteAction p actor kind name
  | _ => unsupported
  end.

Definition fillResourceAction (p : AuditPayload) (actor : option User) (resource : ResourceDetails) (verb : string)
    (changes : list AuditFieldChange) : outcome AuditPayload :=
  with_actor actor (fun a =>
    (filled p a (uuid_String (res_ID resource))
       [Text "resource "; Quoted (res_Name resource); Text (" " +:+ verb); Text " by "; Text (u_Email a)]
       (Some (noMetadata <| md_TargetDisplayName := res_Name resource |> <| md_Changes := changes |>)))
      <| ap_EntityType := "resource" |>).
Definition fillChannelAction (p : AuditPayload) (actor : option User) (channel : NotifyChannel) (verb : string)
    (changes : list AuditFieldChange) : outcome AuditPayload :=
  with_actor actor (fun a =>
    (filled p a (uuid_String (nc_ID channel))
       [Text (nc_Transport channel); Text " channel "; Quoted (nc_Name channel); Text (" " +:+ verb); Text " by ";
        Text (u_Email a)]
       (Some (noMetadata <| md_TargetDisplayName := nc_Name channel |> <| md_Changes := changes |>)))
      <| ap_EntityType := "notify_channel" |>).
Definition fillCatalogPayload (p : AuditPayload) (action : AuditAction) : outcome AuditPayload :=
  match action with
  | ResourceCreated actor r => fillResourceAction p actor r "created" []
  | ResourceUpdated actor r changes => fillResourceAction p actor r "updated" changes
  | ResourceArchived actor r => fillResourceAction p actor r "archived" []
  | ResourceUnarchived actor r => fillResourceAction p actor r "unarchived" []
  | NotifyChannelCreated actor c => fillChannelAction p actor c "created" []
  | NotifyChannelUpdated actor c changes => fillChannelAction p actor c "updated" changes
  | NotifyChannelArchived actor c => fillChannelAction p actor c "archived" []
  | NotifyChannelUnarchived actor c => fillChannelAction p actor c "unarchived" []
  | _ => unsupported
  end.

Definition fillSettingsPayload (p : AuditPayload) (action : AuditAction) : outcome AuditPayload :=
  match action with
  | AuthMethodToggled actor method enabled => fillAuthMethodToggledPayload p actor method enabled
  | IntegrationCreated _ _ _ _ | IntegrationUpdated _ _ _ _ _ | IntegrationDeleted _ _ _ =>
      fillIntegrationPayload p action
  | ResourceCreated _ _ | ResourceUpdated _ _ _ | ResourceArchived _ _ | ResourceUnarchived _ _
  | NotifyChannelCreated _ _ | NotifyChannelUpdated _ _ _ | NotifyChannelArchived _ _
  | NotifyChannelUnarchived _ _ => fillCatalogPayload p action
  | _ => unsupported
  end.

Definition fillMaintAction (p : AuditPayload) (actor : option User) (maint : Maintenance) (verb : string)
    (changes : list AuditFieldChange) : outcome AuditPayload :=
  with_actor actor (fun a =>
    (filled p a (uuid_String (ID maint))
       [Text "maintenance "; Quoted (Title maint); Text (" " +:+ verb); Text " by "; Text (u_Email a)]
       (Some (noMetadata <| md_MaintTitle := Title maint |> <| md_Changes := changes |>)))
      <| ap_EntityType := "maintenance" |>).
Definition fillMaintStepAction (p : AuditPayload) (actor : option User) (maint : Maintenance)
    (step : MaintenanceStep) (verb : string) : outcome AuditPayload :=
  with_actor actor (fun a =>
    (filled p a (uuid_String (ID maint))
       [Text "step "; Text (string_of_list_ascii (decimal (st_Order step))); Text " of maintenance ";
        Quoted (Title maint); Text (" " +:+ verb)]
       (Some (noMetadata <| md_MaintTitle := Title maint |>)))
      <| ap_EntityType := "maintenance" |>).
Definition fillMaintPayload (p : AuditPayload) (action : AuditAction) : outcome AuditPayload :=
  match action with
  | MaintCreated actor maint => fillMaintAction p actor maint "created" []
  | MaintUpdated actor maint changes => fillMaintAction p actor maint "updated" changes
  | MaintApproved actor maint =>
      match fillMaintAction p actor maint "approved" [], actor with
      | Ok p', Some a =>
          Ok (if negb (N.eqb (ApproverUserID maint) (u_ID a))
              then p' <| ap_Details := ap_Details p' ++ [Text " on behalf of the assigned approver"] |> else p')
      | r, _ => r
      end
  | MaintStarted actor maint => fillMaintAction p actor maint "started" []
  | MaintCompleted actor maint => fillMaintAction p actor maint "completed" []
  | MaintCancelled actor maint => fillMaintAction p actor maint "canceled" []
  | MaintStepStarted actor maint step => fillMaintStepAction p actor maint step "started"
  | MaintStepCompleted actor maint step => fillMaintStepAction p actor maint step "completed"
  | MaintStepCancelled actor maint step => fillMaintStepAction p actor maint step "canceled"
  | _ => unsupported
  end.

Definition fillPayload (p : AuditPayload) (action : AuditAction) : outcome AuditPayload :=
  match AuditActionCategory (auditAction action) with
  | None => Err (Errorf "action" ErrUnsupportedEvent)
  | Some category =>
      if String.eqb category AuditCategorySignIn then fillSignInPayload p action
      else if String.eqb category AuditCategoryUsers then fillUsersPayload p action
      else if String.eqb category AuditCategorySettings then fillSettingsPayload p action
      else if String.eqb category AuditCategoryMaintenance then fillMaintPayload p action
      else Err (Errorf "category" ErrUnsupportedEvent)
  end.

(** Renderer.Render, given the event's id and time. *)
Definition render (eventID : UUID) (now : Time) (action : AuditAction) : outcome AuditPayload :=
  fillPayload (mkAuditPayload eventID now (auditAction action) "" "" "" "" "user" [] None) action.

(** ** Facts about user agents *)

Lemma rune_len_app s t k : rune_len s = Some k -> rune_len (s ++ t) = Some k.
Proof.
  destruct s as [|c s]; [done|]. cbn [rune_len app]. intros E.
  repeat (case_hyp E; simplify_eq; try done);
    cbn [app]; repeat match goal with H : _ = _ |- _ => rewrite H; clear H end; done.
Qed.

Lemma rune_len_bounds s k : rune_len s = Some k -> (1 <= k <= length s)%nat.
Proof. destruct s as [|c s]; [done|]. simpl. intros. repeat case_match; simplify_eq/=; lia. Qed.

(** The bytes that decided the length are the first [k]. *)
Lemma rune_len_take s k : rune_len s = Some k -> rune_len (take k s) = Some k.
Proof.
  destruct s as [|c s]; [done|]. cbn [rune_len]. intros E.
  repeat (case_match; simplify_eq; try done); cbn [take rune_len];
    repeat match goal with H : _ = _ |- _ => rewrite H; clear H end; done.
Qed.

(** A rune as it is written back. *)
Definition rune_ok (r : list ascii) : Prop := rune_len r = Some (length r).

Lemma runes_ok fuel s : Forall rune_ok (runes fuel s).
Proof.
  revert s. induction fuel as [|fuel IH]; intros [|c s]; [constructor..|].
  cbn [runes]. destruct (rune_len (c :: s)) as [k|] eqn:E; constructor; try apply IH; [|done].
  unfold rune_ok. pose proof (rune_len_bounds _ _ E). rewrite length_take, Nat.min_l by lia. by apply rune_len_take.
Qed.

(** Decoding what was written gives the runes that were written. *)
Lemma runes_concat rs fuel : Forall rune_ok rs -> (length (concat rs) <= fuel)%nat -> runes fuel (concat rs) = rs.
Proof.
  revert fuel. induction rs as [|r rs IH]; intros fuel Hall Hf; simpl; [by destruct fuel|].
  apply Forall_cons in Hall as [Hr Hall]. simpl in Hf. rewrite length_app in Hf.
  pose proof (rune_len_bounds _ _ Hr). destruct fuel as [|fuel]; [lia|].
  assert (∃ c t, r ++ concat rs = c :: t) as (c & t & E) by (destruct r; simpl in *; [lia|eauto]).
  rewrite E. cbn [runes]. rewrite <- E, (rune_len_app _ _ _ Hr), take_app_length, drop_app_length. f_equal. apply IH; [done|lia].
Qed.

Definition rune_count (s : string) : nat := length (runes (length (bytes s)) (bytes s)).

Lemma length_runes fuel s : (length (runes fuel s) <= length s)%nat.
Proof.
  revert s. induction fuel as [|fuel IH]; intros [|c s]; [simpl; lia..|]. cbn [runes].
  destruct (rune_len (c :: s)) as [k|] eqn:E; cbn [length].
  - pose proof (rune_len_bounds _ _ E). specialize (IH (drop k (c :: s))). rewrite length_drop in IH. simpl in *. lia.
  - specialize (IH s). change (drop 1 (c :: s)) with s. lia.
Qed.

Lemma truncateUserAgent_bound ua : (rune_count (truncateUserAgent ua) <= maxUserAgentLen)%nat.
Proof.
  unfold truncateUserAgent. destruct (Nat.leb_spec (length (bytes ua)) maxUserAgentLen) as [?|?].
  { unfold rune_count. pose proof (length_runes (length (bytes ua)) (bytes ua)). lia. }
  destruct (Nat.leb_spec (length (runes (length (bytes ua)) (bytes ua))) maxUserAgentLen) as [?|?]; [done|].
  unfold rune_count, bytes at 1 4. rewrite list_ascii_of_string_of_list_ascii.
  rewrite runes_concat; [rewrite length_take; lia|apply Forall_take, runes_ok|done].
Qed.

Lemma sanitizeMetadata_bound m m' :
  sanitizeMetadata m = Some m' -> (rune_count (md_UserAgent m') <= maxUserAgentLen)%nat.
Proof. destruct m as [m|]; [|done]. intros [= <-]. apply truncateUserAgent_bound. Qed.

(** ** Rendering is total *)

(** Who an action is attributed to: the pointer it carries, or its user. *)
Definition acting (a : AuditAction) : option User :=
  match a with
  | LoginSuccess u _ | LoginFailed u _ | LogoutSuccess u _ | ProviderLinked u _ | PasswordChanged u _
  | PasswordReset u _ | SessionRevoked u _ => Some u
  | RolesChanged a _ _ _ | UserBlocked a _ | UserUnblocked a _ | UserTagsChanged a _ _ | InvitationCreated a _
  | InvitationRevoked a _ | AuthMethodToggled a _ _ | IntegrationCreated a _ _ _ | IntegrationUpdated a _ _ _ _
  | IntegrationDeleted a _ _ | ResourceCreated a _ | ResourceUpdated a _ _ | ResourceArchived a _
  | ResourceUnarchived a _ | NotifyChannelCreated a _ | NotifyChannelUpdated a _ _ | NotifyChannelArchived a _
  | NotifyChannelUnarchived a _ | MaintCreated a _ | MaintUpdated a _ _ | MaintApproved a _ | MaintStarted a _
  | MaintCompleted a _ | MaintCancelled a _ | MaintStepStarted a _ _ | MaintStepCompleted a _ _
  | MaintStepCancelled a _ _ => a
  end.

(** What every rendered entry carries. *)
Record rendered (id : UUID) (now : Time) (action : AuditAction) (u : User) (p : AuditPayload) : Prop := {
  rd_event : ap_EventID p = id ∧ ap_OccurredAt p = now ∧ ap_Action p = auditAction action;
  rd_actor : ap_Actor p = u_Email u ∧ ap_ActorID p = uuid_String (u_ID u) ∧ ap_ActorDisplayName p = u_Name u;
  rd_category : is_Some (AuditActionCategory (ap_Action p));
  rd_agent : ∀ m, ap_Metadata p = Some m -> (rune_count (md_UserAgent m) <= maxUserAgentLen)%nat }.

Lemma rune_count_empty : (rune_count "" <= maxUserAgentLen)%nat.
Proof. vm_compute. lia. Qed.

(** The renderer an action is routed to. *)
Definition routed (p : AuditPayload) (action : AuditAction) : outcome AuditPayload :=
  match action with
  | LoginSuccess _ _ | LoginFailed _ _ | LogoutSuccess _ _ => fillSignInPayload p action
  | ProviderLinked _ _ | PasswordChanged _ _ | PasswordReset _ _ | SessionRevoked _ _ | RolesChanged _ _ _ _
  | UserBlocked _ _ | UserUnblocked _ _ | UserTagsChanged _ _ _ | InvitationCreated _ _
  | InvitationRevoked _ _ => fillUsersPayload p action
  | MaintCreated _ _ | MaintUpdated _ _ _ | MaintApproved _ _ | MaintStarted _ _ | MaintCompleted _ _
  | MaintCancelled _ _ | MaintStepStarted _ _ _ | MaintStepCompleted _ _ _ | MaintStepCancelled _ _ _ =>
      fillMaintPayload p action
  | _ => fillSettingsPayload p action
  end.
Lemma fillPayload_routed p action : fillPayload p action = routed p action.
Proof. by destruct action. Qed.

Lemma AuditActionCategory_known action : is_Some (AuditActionCategory (auditAction action)).
Proof. destruct action; by eexists. Qed.

(** Filling in keeps the event and names the actor. *)
Lemma rendered_intro id now action u p :
  ap_EventID p = id -> ap_OccurredAt p = now -> ap_Action p = auditAction action ->
  ap_Actor p = u_Email u -> ap_ActorID p = uuid_String (u_ID u) -> ap_ActorDisplayName p = u_Name u ->
  (∀ m, ap_Metadata p = Some m -> (∃ m0, sanitizeMetadata m0 = Some m) ∨ md_UserAgent m = EmptyString) ->
  rendered id now action u p.
Proof.
  intros ? ? Ha ? ? ? Hm. split; [done..|rewrite Ha; apply AuditActionCategory_known|].
  intros m [[m0 E]| ->]%Hm; [by eapply sanitizeMetadata_bound|apply rune_count_empty].
Qed.

(** C40. Rendering never refuses an action: every one has a category and a
    renderer.  The entry carries the given id and time, the action's name, the
    identity of who acted, and a user agent of at most 256 runes however long
    the client's was.  The only other end is the panic of an action published
    with a nil actor. *)
Theorem render_total id now action :
  match render id now action with
  | Ok p => ∃ u, acting action = Some u ∧ rendered id now action u p
  | Err _ => False
  | Panic _ => acting action = None
  end.
Proof.
  unfold render. rewrite fillPayload_routed.
  destruct action; cbn [routed fillSignInPayload fillUsersPayload fillSettingsPayload fillIntegrationPayload
      fillCatalogPayload fillMaintPayload acting];
    try (destruct actor as [a|]; [|done]);
    (eexists; split; [reflexivity|]; apply rendered_intro; try reflexivity; try (repeat case_match; reflexivity));
     intros m Hm; try (left; eexists; exact Hm); right.
  all: try (by discriminate Hm); try (injection Hm as <-; reflexivity).
  all: try (destruct changes; [discriminate Hm|injection Hm as <-; reflexivity]).
  all: destruct (negb _) in Hm; injection Hm as <-; reflexivity.
Qed.
