(* ===== verification/Schema.v ===== *)
(** * The database and the effect monad

    The tables of the maintenance domain with the constraints of migrations/,
    the world a request runs in, and the monad the stores and services are
    written in.

    Statements can fail: before every statement (and every begin, commit and
    rollback) an oracle, [env_fault], may answer with an error.  Nothing is
    assumed about it, so every theorem covers every pattern of database errors,
    serialization failures included.  The clock and the generated ids are
    oracles too. *)
From Stdlib Require Import ZArith Lia Ascii String.
From stdpp Require Import base sorting sets strings numbers list.
From S2P Require Import Prelude Go Entity Conflict AuditTrail.
Open Scope Z_scope.

(** ** Tables *)

(** maintenances *)
Record MaintRow := mkMaintRow {
  mr_ID : UUID; mr_Title : string; mr_Description : string;
  mr_PlannedPeriod : Tstzrange; mr_ActualPeriod : option Tstzrange;
  mr_Impact : string; mr_Status : string; mr_Scope : string;
  mr_CanceledReasonCode : option string; mr_CanceledReasonComment : option string;
  mr_CreatedAt : Time; mr_UpdatedAt : option Time;
  mr_ApproverUserID : UUID; mr_CreatedByUserID : UUID; mr_TaskTrackerURL : string }.
#[export] Instance eta_MaintRow : Eta MaintRow := fun r =>
  mkMaintRow (mr_ID r) (mr_Title r) (mr_Description r) (mr_PlannedPeriod r) (mr_ActualPeriod r)
    (mr_Impact r) (mr_Status r) (mr_Scope r) (mr_CanceledReasonCode r) (mr_CanceledReasonComment r)
    (mr_CreatedAt r) (mr_UpdatedAt r) (mr_ApproverUserID r) (mr_CreatedByUserID r) (mr_TaskTrackerURL r).

(** maintenance_steps, UNIQUE (maintenance_id, step_order) *)
Record StepRow := mkStepRow {
  sr_ID : UUID; sr_MaintenanceID : UUID; sr_StepOrder : Z; sr_Description : string; sr_Rollback : string;
  sr_DurationMinutes : Z; sr_Status : string; sr_ActualStartedAt : option Time;
  sr_ActualCompletedAt : option Time; sr_CreatedAt : Time; sr_UpdatedAt : option Time }.
#[export] Instance eta_StepRow : Eta StepRow := fun r =>
  mkStepRow (sr_ID r) (sr_MaintenanceID r) (sr_StepOrder r) (sr_Description r) (sr_Rollback r)
    (sr_DurationMinutes r) (sr_Status r) (sr_ActualStartedAt r) (sr_ActualCompletedAt r)
    (sr_CreatedAt r) (sr_UpdatedAt r).

(** maintenance_resources, PRIMARY KEY (maintenance_id, resource_id) *)
Record MaintResourceRow := mkMaintResourceRow { mrr_MaintenanceID : UUID; mrr_ResourceID : UUID }.
#[export] Instance MaintResourceRow_eq_dec : EqDecision MaintResourceRow.
Proof. solve_decision. Defined.

(** maintenance_mentions, UNIQUE (maintenance_id, user_id) *)
Record MentionRow := mkMentionRow {
  me_ID : UUID; me_MaintenanceID : UUID; me_UserID : UUID; me_CreatedAt : Time }.

(** maintenance_notify_targets, UNIQUE (maintenance_id, channel_id) *)
Record TargetRow := mkTargetRow {
  tr_ID : UUID; tr_MaintenanceID : UUID; tr_ChannelID : UUID; tr_CreatedAt : Time;
  tr_RootMessageID : option string; tr_RootChannel : option string }.
#[export] Instance eta_TargetRow : Eta TargetRow := fun r =>
  mkTargetRow (tr_ID r) (tr_MaintenanceID r) (tr_ChannelID r) (tr_CreatedAt r) (tr_RootMessageID r) (tr_RootChannel r).

(** maintenance_deferred_notifications *)
Record DeferredRow := mkDeferredRow {
  dr_ID : UUID; dr_MaintenanceID : UUID; dr_FireAt : Time; dr_GoqueTaskID : option UUID; dr_CreatedAt : Time }.
#[export] Instance eta_DeferredRow : Eta DeferredRow := fun r =>
  mkDeferredRow (dr_ID r) (dr_MaintenanceID r) (dr_FireAt r) (dr_GoqueTaskID r) (dr_CreatedAt r).

(** maintenance_conflict_snapshot *)
Record SnapshotRow := mkSnapshotRow {
  sn_ID : UUID; sn_MaintenanceID : UUID; sn_ConflictedMaintenanceID : UUID; sn_ResourceID : option UUID;
  sn_ConflictPeriod : Tstzrange; sn_CreatedAt : Time }.

(** messenger_channels, UNIQUE (transport, transport_channel_id) *)
Record ChannelRow := mkChannelRow {
  ch_ID : UUID; ch_Transport : string; ch_TransportChannelID : string; ch_Name : string;
  ch_Description : string; ch_CreatedAt : Time; ch_ArchivedAt : option Time; ch_CreatedByUserID : option UUID;
  ch_UpdatedByUserID : option UUID; ch_UpdatedAt : option Time }.
#[export] Instance eta_ChannelRow : Eta ChannelRow := fun r =>
  mkChannelRow (ch_ID r) (ch_Transport r) (ch_TransportChannelID r) (ch_Name r) (ch_Description r)
    (ch_CreatedAt r) (ch_ArchivedAt r) (ch_CreatedByUserID r) (ch_UpdatedByUserID r) (ch_UpdatedAt r).

(** resources, UNIQUE (lower(name)) *)
Record ResourceRow := mkResourceRow {
  rs_ID : UUID; rs_Name : string; rs_Description : string; rs_ExternalID : option string; rs_CreatedAt : Time;
  rs_UpdatedAt : option Time; rs_Status : string; rs_CreatedByUserID : option UUID;
  rs_UpdatedByUserID : option UUID }.
#[export] Instance eta_ResourceRow : Eta ResourceRow := fun r =>
  mkResourceRow (rs_ID r) (rs_Name r) (rs_Description r) (rs_ExternalID r) (rs_CreatedAt r) (rs_UpdatedAt r)
    (rs_Status r) (rs_CreatedByUserID r) (rs_UpdatedByUserID r).

(** users, UNIQUE (email) *)
Record UserRow := mkUserRow {
  ur_ID : UUID; ur_Email : string; ur_Name : string; ur_Roles : list string; ur_CreatedAt : Time;
  ur_BlockedAt : option Time; ur_Timezone : option string; ur_TelegramTag : option string;
  ur_SlackTag : option string }.
#[export] Instance eta_UserRow : Eta UserRow := fun r =>
  mkUserRow (ur_ID r) (ur_Email r) (ur_Name r) (ur_Roles r) (ur_CreatedAt r) (ur_BlockedAt r) (ur_Timezone r)
    (ur_TelegramTag r) (ur_SlackTag r).

(** auth_credentials; at most one password and at most one unconsumed one-time
    code per user *)
Record CredentialRow := mkCredentialRow {
  ac_ID : UUID; ac_UserID : UUID; ac_Kind : string; ac_SecretHash : string; ac_ExpiresAt : option Time;
  ac_ConsumedAt : option Time; ac_Attempts : Z; ac_SessionNonce : option string; ac_CreatedAt : Time;
  ac_UpdatedAt : Time }.
#[export] Instance eta_CredentialRow : Eta CredentialRow := fun r =>
  mkCredentialRow (ac_ID r) (ac_UserID r) (ac_Kind r) (ac_SecretHash r) (ac_ExpiresAt r) (ac_ConsumedAt r)
    (ac_Attempts r) (ac_SessionNonce r) (ac_CreatedAt r) (ac_UpdatedAt r).

(** refresh_tokens, PRIMARY KEY (token_hash) *)
Record TokenRow := mkTokenRow {
  rt_TokenHash : string; rt_UserID : UUID; rt_Family : UUID; rt_ExpiresAt : Time; rt_GraceTTL : option Time;
  rt_Revoked : bool; rt_ReplacedBy : option string; rt_CreatedAt : Time; rt_UpdatedAt : option Time;
  rt_SessionStartedAt : Time; rt_ClientIP : string }.
#[export] Instance eta_TokenRow : Eta TokenRow := fun r =>
  mkTokenRow (rt_TokenHash r) (rt_UserID r) (rt_Family r) (rt_ExpiresAt r) (rt_GraceTTL r) (rt_Revoked r)
    (rt_ReplacedBy r) (rt_CreatedAt r) (rt_UpdatedAt r) (rt_SessionStartedAt r) (rt_ClientIP r).

(** user_invitations, UNIQUE (token_hash), UNIQUE (lower(email)) WHERE status = 'pending' *)
Record InvitationRow := mkInvitationRow {
  iv_ID : UUID; iv_Email : string; iv_Roles : list Role; iv_TokenHash : string; iv_Status : string;
  iv_InvitedByID : UUID; iv_ExpiresAt : Time; iv_SentAt : Time; iv_AcceptedAt : option Time;
  iv_RevokedAt : option Time; iv_CreatedAt : Time }.
#[export] Instance eta_InvitationRow : Eta InvitationRow := fun r =>
  mkInvitationRow (iv_ID r) (iv_Email r) (iv_Roles r) (iv_TokenHash r) (iv_Status r) (iv_InvitedByID r)
    (iv_ExpiresAt r) (iv_SentAt r) (iv_AcceptedAt r) (iv_RevokedAt r) (iv_CreatedAt r).

(** A jsonb value. *)
Inductive json :=
  | JNull | JBool (b : bool) | JNumber (text : string) | JString (s : string) | JArray (l : list json)
  | JObject (fields : list (string * json)).

(** data_keys *)
Record DataKeyRow := mkDataKeyRow {
  dk_ID : UUID; dk_KekID : string; dk_EncryptedDek : list ascii; dk_Label : option string; dk_CreatedAt : Time }.
#[export] Instance eta_DataKeyRow : Eta DataKeyRow := fun r =>
  mkDataKeyRow (dk_ID r) (dk_KekID r) (dk_EncryptedDek r) (dk_Label r) (dk_CreatedAt r).

(** integration_settings, UNIQUE (kind, name), dek_id referring to data_keys *)
Record IntegrationRow := mkIntegrationRow {
  is_ID : UUID; is_Kind : string; is_Enabled : bool; is_Config : json; is_Secrets : json; is_DekID : UUID;
  is_CreatedAt : Time; is_CreatedByUserID : option UUID; is_UpdatedAt : Time; is_UpdatedByUserID : option UUID;
  is_Name : string; is_Provisioned : bool }.
#[export] Instance eta_IntegrationRow : Eta IntegrationRow := fun r =>
  mkIntegrationRow (is_ID r) (is_Kind r) (is_Enabled r) (is_Config r) (is_Secrets r) (is_DekID r) (is_CreatedAt r)
    (is_CreatedByUserID r) (is_UpdatedAt r) (is_UpdatedByUserID r) (is_Name r) (is_Provisioned r).

(** user_identities, UNIQUE (integration_id, subject), UNIQUE (user_id, integration_id), each row referring to a user
    and to an integration *)
Record IdentityRow := mkIdentityRow {
  ui_ID : UUID; ui_UserID : UUID; ui_Subject : string; ui_Email : string; ui_CreatedAt : Time; ui_IntegrationID : UUID }.

(** ** Queued tasks *)

(** audit_log; the metadata are jsonb.  license_cache, which has one row at most. *)
Record AuditLogRow := mkAuditLogRow {
  al_ID : UUID; al_Action : string; al_Actor : string; al_ActorID : string; al_ActorDisplayName : string; al_EntityID : string;
  al_EntityType : string; al_Details : DetailsLine; al_Metadata : json; al_CreatedAt : Time; al_EventID : option UUID }.
Record LicenseCacheRow := mkLicenseCacheRow { lc_Status : string; lc_SeatsPurchased : option Z; lc_FetchedAt : option Time }.

(** entity.ProcessorTaskPayloadOTPEmail: a code under a data key, that key under
    the key of [KEKURI]. *)
Record OTPEmailPayload := mkOTPEmail {
  oe_CredentialID : UUID; oe_Target : string; oe_Code : list ascii; oe_DEK : list ascii; oe_KEKURI : string;
  oe_ExpiresAt : Time; oe_Purpose : string }.
#[export] Instance eta_OTPEmailPayload : Eta OTPEmailPayload := fun p =>
  mkOTPEmail (oe_CredentialID p) (oe_Target p) (oe_Code p) (oe_DEK p) (oe_KEKURI p) (oe_ExpiresAt p) (oe_Purpose p).

(** entity.ProcessorTaskPayloadEventNotify *)
Record EventNotifyPayload := mkEventNotify {
  en_TransportName : NotifyTransport; en_Target : string; en_Subject : string; en_Body : string; en_MessageMIME : string;
  en_ReplyTo : option MessageRef }.

(** The payloads of goque_processors_task.go; those of the periodic sweeps carry
    their tunables. *)
Inductive TaskPayload :=
  | PayloadMaintReminder (maintID deferredID : UUID)
  | PayloadAuditWrite (payload : AuditPayload)
  | PayloadOTPEmail (payload : OTPEmailPayload)
  | PayloadEventNotify (payload : EventNotifyPayload)
  | PayloadMaintAutoCancel (threshold : Duration) (limit : Z)
  | PayloadAuditPrune (retention : Duration) (batchLimit : Z)
  | PayloadInvitationRotate (batchLimit : Z)
  | PayloadInvitationPrune (retention : Duration) (batchLimit : Z)
  | PayloadOTPPrune (retention : Duration) (batchLimit : Z)
  | PayloadRefreshTokenPrune (retention : Duration) (batchLimit : Z)
  | PayloadLicenseHeartbeat.

(** auth_settings, a row per built-in sign-in method. *)
Record AuthSettingsRow := mkAuthSettingsRow {
  as_ID : UUID; as_Method : string; as_Enabled : bool; as_CreatedAt : Time; as_UpdatedAt : Time; as_UpdatedByUserID : option UUID }.
#[export] Instance eta_AuthSettingsRow : Eta AuthSettingsRow := fun r =>
  mkAuthSettingsRow (as_ID r) (as_Method r) (as_Enabled r) (as_CreatedAt r) (as_UpdatedAt r) (as_UpdatedByUserID r).

(** A goque task as this code fills it in. *)
Record Task := mkTask {
  tk_ID : UUID; tk_Type : string; tk_Payload : TaskPayload; tk_ExternalID : string; tk_NextAttemptAt : Time }.
#[export] Instance eta_Task : Eta Task := fun t =>
  mkTask (tk_ID t) (tk_Type t) (tk_Payload t) (tk_ExternalID t) (tk_NextAttemptAt t).

Record DB := mkDB {
  maintenances : list MaintRow;
  maintenance_steps : list StepRow;
  maintenance_resources : list MaintResourceRow;
  maintenance_mentions : list MentionRow;
  maintenance_notify_targets : list TargetRow;
  maintenance_deferred_notifications : list DeferredRow;
  maintenance_conflict_snapshot : list SnapshotRow;
  messenger_channels : list ChannelRow;
  resources : list ResourceRow;
  users : list UserRow;
  auth_credentials : list CredentialRow;
  refresh_tokens : list TokenRow;
  user_invitations : list InvitationRow;
  integration_settings : list IntegrationRow;
  data_keys : list DataKeyRow;
  user_identities : list IdentityRow;
  audit_log : list AuditLogRow;
  license_cache : list LicenseCacheRow;
  auth_settings : list AuthSettingsRow;
  goque_tasks : list Task }.
#[export] Instance eta_DB : Eta DB := fun d =>
  mkDB (maintenances d) (maintenance_steps d) (maintenance_resources d) (maintenance_mentions d)
    (maintenance_notify_targets d) (maintenance_deferred_notifications d) (maintenance_conflict_snapshot d)
    (messenger_channels d) (resources d) (users d) (auth_credentials d) (refresh_tokens d)
    (user_invitations d) (integration_settings d) (data_keys d) (user_identities d) (audit_log d) (license_cache d)
    (auth_settings d) (goque_tasks d).

(** ** What the server stores *)

(** A timestamptz has whole microseconds: the server rounds what it is sent to
    the nearest one, ties to even. *)
Definition pg_ts (t : Time) : Time :=
  let q := t / Microsecond in
  let r := t mod Microsecond in
  (if (r <? 500) || (r =? 500) && Z.even q then q else q + 1) * Microsecond.

Definition pg_tstz (t : Timestamptz) : Timestamptz := mkTstz (pg_ts (tz_Time t)) (tz_Status t).
Definition pg_range (r : Tstzrange) : Tstzrange :=
  mkRange (pg_tstz (r_Lower r)) (pg_tstz (r_Upper r)) (r_LowerType r) (r_UpperType r) (r_Status r).

Definition pg_maint_row (r : MaintRow) : MaintRow :=
  r <| mr_PlannedPeriod := pg_range (mr_PlannedPeriod r) |>
    <| mr_ActualPeriod := pg_range <$> mr_ActualPeriod r |>
    <| mr_CreatedAt := pg_ts (mr_CreatedAt r) |> <| mr_UpdatedAt := pg_ts <$> mr_UpdatedAt r |>.
Definition pg_step_row (r : StepRow) : StepRow :=
  r <| sr_ActualStartedAt := pg_ts <$> sr_ActualStartedAt r |>
    <| sr_ActualCompletedAt := pg_ts <$> sr_ActualCompletedAt r |>
    <| sr_CreatedAt := pg_ts (sr_CreatedAt r) |> <| sr_UpdatedAt := pg_ts <$> sr_UpdatedAt r |>.

(** ** Constraints *)

(** A range with its lower bound above its upper one cannot be built (SQLSTATE
    22000); a range that is empty or, for planned periods, unbounded above
    violates a CHECK. *)
Definition check_range (allow_open : bool) (r : Tstzrange) : option string :=
  match tz_Status (r_Upper r) with
  | pgPresent =>
      if tz_Time (r_Upper r) <? tz_Time (r_Lower r) then Some pgDataException
      else if tz_Time (r_Upper r) =? tz_Time (r_Lower r) then Some pgCheckViolation
      else None
  | _ => if allow_open then None else Some pgCheckViolation
  end.

Definition check_maint_row (r : MaintRow) : option string :=
  match check_range false (mr_PlannedPeriod r) with
  | Some c => Some c
  | None => match mr_ActualPeriod r with
            | Some a => check_range true a
            | None => None
            end
  end.

#[global] Arguments pg_ts : simpl never.

Lemma pg_ts_bounds t : 2 * Z.abs (pg_ts t - t) <= Microsecond.
Proof.
  unfold pg_ts, Microsecond. pose proof (Z.div_mod t 1000 ltac:(lia)) as E.
  pose proof (Z.mod_pos_bound t 1000 ltac:(lia)).
  destruct (Z.ltb_spec (t mod 1000) 500), (Z.eqb_spec (t mod 1000) 500);
    simpl; try destruct (Z.even _); lia.
Qed.

(** Storing is stable: a stored time is stored as it is. *)
Lemma pg_ts_whole q : pg_ts (q * Microsecond) = q * Microsecond.
Proof.
  unfold pg_ts. rewrite Z.div_mul, Z.mod_mul by done. done.
Qed.

Lemma pg_ts_idem t : pg_ts (pg_ts t) = pg_ts t.
Proof. unfold pg_ts at 2 3. apply pg_ts_whole. Qed.

(** ** World, context and environment *)

Record NotifyMessage := mkMessage { msg_Subject : string; msg_Body : string; msg_MIME : string }.

(** What a run does outside the database: a message handed to a transport, and
    the pauses between the attempts of a transaction. *)
Inductive Effect :=
  | EvSleep (d : Duration)
  | EvSend (transport : NotifyTransport) (target : string) (msg : NotifyMessage) (replyTo : option MessageRef)
  | EvChanged (kind name : string).

(** A key of the key-value server (Valkey), with its value and the time it is
    dropped at.  A value is a text, or the JSON of one of the structs of the
    OAuth dance, kept as the struct. *)
Inductive KVValue :=
  | KVText (s : string)
  | KVDanceCode (c : DanceCode)
  | KVLinkIntent (i : LinkIntent)
  | KVPendingLink (l : PendingLink).
#[export] Instance TokenPair_eq_dec : EqDecision TokenPair. Proof. solve_decision. Defined.
#[export] Instance OAuthIDTokenClaims_eq_dec : EqDecision OAuthIDTokenClaims. Proof. solve_decision. Defined.
#[export] Instance DanceCode_eq_dec : EqDecision DanceCode. Proof. solve_decision. Defined.
#[export] Instance LinkIntent_eq_dec : EqDecision LinkIntent. Proof. solve_decision. Defined.
#[export] Instance PendingLink_eq_dec : EqDecision PendingLink. Proof. solve_decision. Defined.
#[export] Instance KVValue_eq_dec : EqDecision KVValue. Proof. solve_decision. Defined.
Record KVEntry := mkKV { kv_Key : string; kv_Value : KVValue; kv_ExpiresAt : Time }.

(** [w_step] counts the questions put to the oracles; [w_kv] is the key-value
    server, which no transaction covers. *)
Record World := mkWorld { w_db : DB; w_step : nat; w_log : list Effect; w_kv : list KVEntry }.
#[export] Instance eta_World : Eta World := fun w => mkWorld (w_db w) (w_step w) (w_log w) (w_kv w).

(** A [context.Context]: the transaction it carries, as the time [now()] has
    inside it. *)
Record Ctx := mkCtx { ctx_tx : option Time }.
Definition background : Ctx := mkCtx None.

(** How a statement fails for a reason outside the model: with an SQLSTATE, or
    in the driver. *)
Inductive fault := FaultPg (code : string) | FaultDriver (text : string).
Definition fault_error (f : fault) : error :=
  match f with FaultPg code => EPg code | FaultDriver text => EOther text end.

Class Env := {
  env_now : nat -> Time;
  env_fault : nat -> option fault;
  (** math/rand *)
  env_rand : nat -> Z;
  env_uuid : nat -> nat -> UUID;
  (** what [ctx.Err()] answers *)
  env_ctx_err : nat -> option error }.

(** The server's [lower()] and its order of texts, which depend on its collation. *)
Class Collation := { pg_lower : string -> string; pg_cmp : string -> string -> comparison }.

Definition M (A : Type) : Type := Ctx -> World -> outcome A * World.

#[export] Instance M_ret : MRet M := fun A a _ w => (Ok a, w).
#[export] Instance M_bind : MBind M := fun A B k m ctx w =>
  match m ctx w with
  | (Ok a, w') => k a ctx w'
  | (Err e, w') => (Err e, w')
  | (Panic s, w') => (Panic s, w')
  end.

Definition raise {A} (e : error) : M A := fun _ w => (Err e, w).
Definition panic {A} (s : string) : M A := fun _ w => (Panic s, w).
Definition lift {A} (r : outcome A) : M A := fun _ w => (r, w).
(** [x, err := m]: the error as a value. *)
Definition attempt {A} (m : M A) : M (A + error) := fun ctx w =>
  match m ctx w with
  | (Ok a, w') => (Ok (inl a), w')
  | (Err e, w') => (Ok (inr e), w')
  | (Panic s, w') => (Panic s, w')
  end.
(** [if cond { return err }] *)
Definition reject_if (cond : bool) (e : error) : M unit := if cond then raise e else mret tt.
(** [if err := m; err != nil { return wrap(err) }] *)
Definition wrap_err {A} (f : error -> error) (m : M A) : M A := fun ctx w =>
  match m ctx w with
  | (Err e, w') => (Err (f e), w')
  | r => r
  end.
Definition in_tx : M bool := fun ctx w => (Ok (if ctx_tx ctx then true else false), w).

Fixpoint for_each {A} (f : A -> M unit) (l : list A) : M unit :=
  match l with
  | [] => mret tt
  | x :: l' => f x;; for_each f l'
  end.

Section primitives.
Context `{Env}.

Definition tick (w : World) : World := w <| w_step := S (w_step w) |>.

(** [xtime.UTCNow()] *)
Definition UTCNow : M Time := fun _ w => (Ok (env_now (w_step w)), tick w).
Definition ctx_Err : M (option error) := fun _ w => (Ok (env_ctx_err (w_step w)), tick w).

(** What a statement can ask the server for: [now()] (the start of the
    transaction, or of the statement outside one) and [uuidv7()] per row. *)
Record Stmt := mkStmt { pg_now : Time; pg_uuid : nat -> UUID }.
Definition stmt_of (ctx : Ctx) (n : nat) : Stmt :=
  mkStmt (pg_ts (match ctx_tx ctx with Some t => t | None => env_now n end)) (env_uuid n).

Definition sql {A} (stmt : Stmt -> DB -> outcome (A * DB)) : M A := fun ctx w =>
  match env_fault (w_step w) with
  | Some f => (Err (fault_error f), tick w)
  | None =>
      match stmt (stmt_of ctx (w_step w)) (w_db w) with
      | Ok (a, db') => (Ok a, tick w <| w_db := db' |>)
      | Err e => (Err e, tick w)
      | Panic s => (Panic s, tick w)
      end
  end.

(** What a statement is refused for. *)
Definition require (cond : bool) (code : string) {A} (k : outcome A) : outcome A :=
  if cond then k else Err (EPg code).

(** A SELECT. *)
Definition query {A} (f : DB -> A) : M A := sql (fun _ db => Ok (f db, db)).

Definition emit (e : Effect) : M unit := fun _ w => (Ok tt, w <| w_log := w_log w ++ [e] |>).
End primitives.
