(* ===== verification/Json.v ===== *)
(** * JSON: jsonb columns and encoding/json

    A document is its value; the texts of configs and secrets appear only as
    what they decode to.  A number is its literal, and that PostgreSQL or a trip
    through [float64] may spell it differently is left out: no setting that is
    stored is read from one that is not a plain integer. *)
From Stdlib Require Import ZArith Lia Ascii String.
From stdpp Require Import base sorting sets strings numbers list.
From S2P Require Import Prelude Go Entity Conflict AuditTrail Schema.
Open Scope Z_scope.

(** A [json.RawMessage]: absent, not JSON, or a text with a value. *)
Inductive RawMessage := RawNone | RawBad | RawText (j : json).
Definition raw_present (m : RawMessage) : bool := match m with RawNone => false | _ => true end.
Definition bad_json : error := EOther "json: syntax error".
Definition wrong_type : error := EOther "json: cannot unmarshal".

(** ** Maps, sorted by a comparison of keys *)

Section maps.
Context (cmp : string -> string -> comparison).

Fixpoint put {V} (k : string) (v : V) (m : list (string * V)) : list (string * V) :=
  match m with
  | [] => [(k, v)]
  | (k', v') :: m' =>
      match cmp k k' with
      | Lt => (k, v) :: m
      | Eq => (k, v) :: m'
      | Gt => (k', v') :: put k v m'
      end
  end.
(** The fields of an object in the order of the text: the last of a key wins. *)
Definition put_all {V} (fields : list (string * V)) : list (string * V) :=
  foldl (fun m f => put f.1 f.2 m) [] fields.
End maps.

(** jsonb keeps the keys of an object by length, then by bytes. *)
Definition jsonb_cmp (a b : string) : comparison :=
  cmp_then (Nat.compare (length (bytes a)) (length (bytes b))) (strings_Compare a b).
Fixpoint canonical (cmp : string -> string -> comparison) (j : json) : json :=
  match j with
  | JArray l => JArray (canonical cmp <$> l)
  | JObject fields => JObject (put_all cmp ((fun f => (f.1, canonical cmp f.2)) <$> fields))
  | _ => j
  end.
Definition jsonb : json -> json := canonical jsonb_cmp.

(** ** json.Unmarshal *)

(** Into a map: keys as they are, a null leaves none. *)
Definition unmarshal_map (j : json) : option (option (list (string * json))) :=
  match j with
  | JNull => Some None
  | JObject fields => Some (Some (put_all strings_Compare fields))
  | _ => None
  end.

(** Into an [any] and marshalled again: the keys of every object in order. *)
Definition through_any : json -> json := canonical strings_Compare.

(** Into a struct: a key names a field when both fold to the same text.  The
    letters outside ASCII that fold to one inside are the long s and the Kelvin
    sign; the names of fields are ASCII. *)
Definition upper_byte (c : ascii) : ascii :=
  let n := N_of_ascii c in if (97 <=? n)%N && (n <=? 122)%N then ascii_of_N (n - 32) else c.
Fixpoint fold_bytes (s : list ascii) : list ascii :=
  match s with
  | [] => []
  | c :: s1 =>
      match N_of_ascii c, s1 with
      | 197%N, d :: s2 => if N.eqb (N_of_ascii d) 191 then "S"%char :: fold_bytes s2 else c :: fold_bytes s1
      | 226%N, d :: ((e :: s3) as s2) =>
          if N.eqb (N_of_ascii d) 132 && N.eqb (N_of_ascii e) 170 then "K"%char :: fold_bytes s3
          else c :: fold_bytes s1
      | _, _ => upper_byte c :: fold_bytes s1
      end
  end.
Definition foldName (s : string) : string := string_of_list_ascii (fold_bytes (bytes s)).
Definition names_field (name key : string) : bool := String.eqb (foldName key) (foldName name).

(** A field takes the values of its keys one after another; [None] is an error. *)
Definition decode_field {T} (decode : T -> json -> option T) (name : string) (init : T) (fields : list (string * json)) : option T :=
  foldl (fun acc f => match acc with
                      | Some t => if names_field name f.1 then decode t f.2 else acc
                      | None => None
                      end) (Some init) fields.
Definition decode_string (old : string) (j : json) : option string :=
  match j with JString s => Some s | JNull => Some old | _ => None end.
(** [strconv.ParseInt(text, 10, 64)] *)
Definition ParseInt (text : string) : option Z :=
  let digits l := match l with
                  | [] => None
                  | _ => foldl (fun acc c => n ← acc; let d := N_of_ascii c in
                                 if (48 <=? d)%N && (d <=? 57)%N then Some (10 * n + Z.of_N (d - 48)) else None) (Some 0) l
                  end in
  n ← match bytes text with
      | "-"%char :: l => Z.opp <$> digits l
      | l => digits l
      end;
  if (- 2 ^ 63 <=? n) && (n <? 2 ^ 63) then Some n else None.
Definition decode_int (old : Z) (j : json) : option Z :=
  match j with JNumber text => ParseInt text | JNull => Some old | _ => None end.
Definition decode_strings (_ : list string) (j : json) : option (list string) :=
  match j with
  | JNull => Some []
  | JArray l => mapM (decode_string "") l
  | _ => None
  end.
(** A nested struct. *)
Definition decode_object {T} (decode : T -> list (string * json) -> option T) (old : T) (j : json) : option T :=
  match j with
  | JObject fields => decode old fields
  | JNull => Some old
  | _ => None
  end.

(** ** json.Marshal *)

Definition hex_digit (n : N) : ascii := nth (N.to_nat n) (bytes "0123456789abcdef") "0"%char.
Definition escape_u (n : N) : list ascii := bytes "\u00" ++ [hex_digit (n / 16); hex_digit (n mod 16)].
Fixpoint escape_bytes (s : list ascii) : list ascii :=
  match s with
  | [] => []
  | c :: s1 =>
      match N_of_ascii c, s1 with
      | 8%N, _ => bytes "\b" ++ escape_bytes s1
      | 9%N, _ => bytes "\t" ++ escape_bytes s1
      | 10%N, _ => bytes "\n" ++ escape_bytes s1
      | 12%N, _ => bytes "\f" ++ escape_bytes s1
      | 13%N, _ => bytes "\r" ++ escape_bytes s1
      | 34%N, _ | 92%N, _ => "\"%char :: c :: escape_bytes s1
      | 38%N, _ | 60%N, _ | 62%N, _ => escape_u (N_of_ascii c) ++ escape_bytes s1
      | 226%N, d :: ((e :: s3) as s2) =>
          if N.eqb (N_of_ascii d) 128 && N.eqb (N_of_ascii e) 168 then bytes "\u2028" ++ escape_bytes s3
          else if N.eqb (N_of_ascii d) 128 && N.eqb (N_of_ascii e) 169 then bytes "\u2029" ++ escape_bytes s3
          else c :: escape_bytes s1
      | n, _ => (if (n <? 32)%N then escape_u n else [c]) ++ escape_bytes s1
      end
  end.
Definition quote : ascii := ascii_of_N 34.
Definition marshal_string (s : string) : list ascii := quote :: escape_bytes (bytes s) ++ [quote].
Fixpoint commas (l : list (list ascii)) : list ascii :=
  match l with
  | [] => []
  | [x] => x
  | x :: l' => x ++ ","%char :: commas l'
  end.
(** A decoded value: the keys of its objects are sorted. *)
Fixpoint marshal (j : json) : list ascii :=
  match j with
  | JNull => bytes "null"
  | JBool b => bytes (if b then "true" else "false")
  | JNumber text => bytes text
  | JString s => marshal_string s
  | JArray l => "["%char :: commas (marshal <$> l) ++ ["]"%char]
  | JObject fields =>
      "{"%char :: commas ((fun f => marshal_string f.1 ++ ":"%char :: f.2) <$>
                           put_all strings_Compare ((fun f => (f.1, marshal f.2)) <$> fields)) ++ ["}"%char]
  end.

Example marshal_ex :
  string_of_list_ascii (marshal (JObject [("b", JArray [JNumber "1"; JNull]); ("a", JString "x<y")])) =
  ("{" +:+ String quote "a" +:+ String quote (":" +:+ String quote "x\u003cy") +:+ String quote ("," +:+ String quote "b") +:+
   String quote ":[1,null]}")%string.
Proof. vm_compute. reflexivity. Qed.
(** Case does not matter to a struct, nor does the long s. *)
Example foldName_ex :
  foldName "ISSUER_url" = foldName "issuer_url" ∧
  foldName (string_of_list_ascii (bytes "i" ++ [byte 197; byte 191; byte 197; byte 191] ++ bytes "uer_url")) = foldName "issuer_url".
Proof. split; vm_compute; reflexivity. Qed.

(** ** Lemmas on maps *)

#[export] Instance nat_cmp_order : CmpOrder Nat.compare.
Proof.
  split; [intros; apply Nat.compare_antisym|]. unfold cmp_le. intros x y z.
  destruct (Nat.compare_spec x y), (Nat.compare_spec y z), (Nat.compare_spec x z); done || lia.
Qed.
#[export] Instance strings_Compare_order : CmpOrder strings_Compare.
Proof. unfold strings_Compare. apply _. Qed.
#[export] Instance jsonb_cmp_order : CmpOrder jsonb_cmp.
Proof. apply (cmp_lex_order (fun a b => Nat.compare (length (bytes a)) (length (bytes b))) strings_Compare). Qed.
Lemma strings_Compare_eq a b : strings_Compare a b = Eq -> a = b.
Proof. intros E. by apply bytes_inj, bytes_Compare_eq. Qed.
Lemma jsonb_cmp_eq a b : jsonb_cmp a b = Eq -> a = b.
Proof. unfold jsonb_cmp, cmp_then. destruct (Nat.compare _ _); [apply strings_Compare_eq|done..]. Qed.

Section maps_lemmas.
Context (cmp : string -> string -> comparison) `{!CmpOrder cmp} (Heq : ∀ a b, cmp a b = Eq -> a = b).
Context {V : Type}.
Implicit Types (m fs : list (string * V)).

Definition key_lt (a b : string * V) : Prop := cmp a.1 b.1 = Lt.

Lemma cmp_refl a : cmp a a = Eq.
Proof. pose proof (cmp_antisym cmp a a) as E. by destruct (cmp a a). Qed.
Lemma key_lt_trans a b c : key_lt a b -> key_lt b c -> key_lt a c.
Proof.
  unfold key_lt. intros H1 H2. assert (cmp_le cmp a.1 c.1) as Hle by (apply (cmp_trans cmp) with b.1; unfold cmp_le; congruence).
  unfold cmp_le in Hle. destruct (cmp a.1 c.1) eqn:E; [|done..]. apply Heq in E.
  rewrite E, (cmp_antisym cmp), H2 in H1. done.
Qed.

(** A key nobody has is added, and the order kept. *)
Lemma put_fresh k v m : k ∉ m.*1 -> put cmp k v m ≡ₚ (k, v) :: m.
Proof.
  induction m as [|[k' v'] m IH]; simpl; [done|]. intros [Hne Hm]%not_elem_of_cons.
  destruct (cmp k k') eqn:E; [by apply Heq in E|done|]. rewrite IH by done. constructor.
Qed.
Lemma put_keys k v m x : x ∈ (put cmp k v m).*1 ↔ x = k ∨ x ∈ m.*1.
Proof.
  induction m as [|[k' v'] m IH]; simpl; [set_solver|].
  destruct (cmp k k') eqn:E; simpl; [apply Heq in E; set_solver|set_solver|]. rewrite !elem_of_cons, IH. naive_solver.
Qed.
Lemma put_sorted k v m : StronglySorted key_lt m -> StronglySorted key_lt (put cmp k v m).
Proof.
  induction 1 as [|[k' v'] m Hs IH Hall]; simpl; [repeat constructor|]. destruct (cmp k k') eqn:E.
  - apply Heq in E as ->. by constructor.
  - constructor; [by constructor|]. constructor; [done|]. eapply Forall_impl; [done|]. intros y Hy. by apply key_lt_trans with (k', v').
  - constructor; [done|]. apply Forall_forall. intros y Hy. unfold key_lt. simpl.
    assert (y.1 ∈ (put cmp k v m).*1) as [->|Hin]%put_keys by by apply list_elem_of_fmap_2.
    + by rewrite (cmp_antisym cmp), E.
    + apply list_elem_of_fmap in Hin as (z & Ez & Hz). rewrite Forall_forall in Hall. rewrite Ez. apply (Hall z Hz).
Qed.
Lemma put_last k v m : Forall (fun f => key_lt f (k, v)) m -> put cmp k v m = m ++ [(k, v)].
Proof.
  induction 1 as [|[k' v'] m Hk _ IH]; simpl; [done|]. unfold key_lt in Hk. simpl in Hk. rewrite (cmp_antisym cmp), Hk. simpl. by rewrite IH.
Qed.

Lemma put_all_sorted fs : StronglySorted key_lt (put_all cmp fs).
Proof.
  unfold put_all. assert (StronglySorted key_lt (@nil (string * V))) as Hs by constructor. revert Hs.
  generalize (@nil (string * V)). induction fs as [|f fs IH]; intros m Hm; simpl; [done|]. by apply IH, put_sorted.
Qed.
Lemma put_all_id fs : StronglySorted key_lt fs -> put_all cmp fs = fs.
Proof.
  unfold put_all. change fs with ([] ++ fs) at 1 3. generalize (@nil (string * V)).
  induction fs as [|[k v] fs IH]; intros m Hs; [by rewrite app_nil_r|]. simpl. rewrite put_last.
  - rewrite (IH (m ++ [(k, v)])); rewrite <- app_assoc; done.
  - apply StronglySorted_app in Hs as (Hs & _ & _). apply Forall_forall. intros f Hf. apply Hs; set_solver.
Qed.
Lemma put_all_perm fs : NoDup fs.*1 -> put_all cmp fs ≡ₚ fs.
Proof.
  unfold put_all. assert (∀ m, NoDup (m ++ fs).*1 -> foldl (fun m f => put cmp f.1 f.2 m) m fs ≡ₚ m ++ fs) as H.
  { induction fs as [|[k v] fs IH]; intros m Hnd; [by rewrite app_nil_r|]. simpl.
    assert (put cmp k v m ≡ₚ (k, v) :: m) as Hp.
    { apply put_fresh. rewrite fmap_app in Hnd. apply NoDup_app in Hnd as (_ & Hd & _). intros Hin. apply (Hd k Hin). set_solver. }
    assert (put cmp k v m ++ fs ≡ₚ m ++ (k, v) :: fs) as Hm by by rewrite Hp, <- Permutation_middle.
    rewrite IH; [done|]. by rewrite Hm. }
  intros Hnd. by apply (H []).
Qed.
Lemma put_all_keys fs x : x ∈ (put_all cmp fs).*1 ↔ x ∈ fs.*1.
Proof.
  unfold put_all. assert (∀ m, x ∈ (foldl (fun m f => put cmp f.1 f.2 m) m fs).*1 ↔ x ∈ m.*1 ∨ x ∈ fs.*1) as H.
  { induction fs as [|[k v] fs IH]; intros m; simpl; [set_solver|]. rewrite IH, put_keys. set_solver. }
  rewrite H. set_solver.
Qed.
Lemma sorted_NoDup fs : StronglySorted key_lt fs -> NoDup fs.*1.
Proof.
  induction 1 as [|f fs _ IH Hall]; simpl; constructor; [|done]. intros (g & E & Hg)%list_elem_of_fmap.
  rewrite Forall_forall in Hall. specialize (Hall g Hg). unfold key_lt in Hall. by rewrite E, cmp_refl in Hall.
Qed.
End maps_lemmas.

(** ** What the server keeps of a document *)

Lemma json_nested_ind (P : json -> Prop) :
  P JNull -> (∀ b, P (JBool b)) -> (∀ t, P (JNumber t)) -> (∀ s, P (JString s)) ->
  (∀ l, Forall P l -> P (JArray l)) -> (∀ fields, Forall (fun f => P f.2) fields -> P (JObject fields)) -> ∀ j, P j.
Proof.
  intros H1 H2 H3 H4 H5 H6. fix IH 1. intros [|b|t|s|l|fields]; [done|apply H2|apply H3|apply H4|apply H5|apply H6].
  - induction l as [|x l IHl]; constructor; [apply IH|exact IHl].
  - induction fields as [|[k x] l IHl]; constructor; [apply IH|exact IHl].
Qed.

Lemma put_elem {V} cmp k v (m : list (string * V)) f : f ∈ put cmp k v m -> f = (k, v) ∨ f ∈ m.
Proof.
  induction m as [|[k' v'] m IH]; simpl; [set_solver|]. destruct (cmp k k'); set_solver.
Qed.
Lemma put_all_elem {V} cmp (fs : list (string * V)) f : f ∈ put_all cmp fs -> f ∈ fs.
Proof.
  unfold put_all. assert (∀ m, f ∈ foldl (fun m f => put cmp f.1 f.2 m) m fs -> f ∈ m ∨ f ∈ fs) as H.
  { induction fs as [|[k v] fs IH]; intros m; simpl; [set_solver|]. intros [[->|Hm]%put_elem|Hf]%IH; set_solver. }
  intros [Hn|Hf]%H; [set_solver|done].
Qed.

(** A config whose keys name different fields. *)
Definition plain_keys (j : json) : Prop :=
  match j with JObject fields => NoDup (foldName <$> fields.*1) | _ => True end.
#[export] Instance plain_keys_dec j : Decision (plain_keys j).
Proof. destruct j; apply _. Defined.

(** ... as do those of the objects in it. *)
Definition plain_config (j : json) : Prop :=
  match j with JObject fields => plain_keys j ∧ Forall (fun f => plain_keys f.2) fields | _ => True end.
#[export] Instance plain_config_dec j : Decision (plain_config j).
Proof. destruct j; apply _. Defined.

Section canonical.
Context (cmp : string -> string -> comparison) `{!CmpOrder cmp} (Heq : ∀ a b, cmp a b = Eq -> a = b).

(** Storing what was stored changes nothing. *)
Lemma canonical_idem j : canonical cmp (canonical cmp j) = canonical cmp j.
Proof.
  induction j as [|b|t|s|l IH|fields IH] using json_nested_ind; simpl; try done; f_equal.
  - rewrite <- list_fmap_compose. by apply Forall_fmap_ext.
  - set (F := (fun f => (f.1, canonical cmp f.2)) <$> fields). transitivity (put_all cmp (put_all cmp F)).
    + f_equal. rewrite <- (list_fmap_id (put_all cmp F)) at 2. apply list_fmap_ext. intros i f Hf.
      apply list_elem_of_lookup_2, put_all_elem, list_elem_of_fmap in Hf as (g & -> & Hg).
      rewrite Forall_forall in IH. simpl. by rewrite IH.
    + apply put_all_id; [..|apply put_all_sorted]; first [apply _|exact Heq].
Qed.

Lemma plain_NoDup (fields : list (string * json)) : NoDup (foldName <$> fields.*1) -> NoDup fields.*1.
Proof. apply NoDup_fmap_1. Qed.
Lemma canonical_field_keys (fields : list (string * json)) : ((fun f => (f.1, canonical cmp f.2)) <$> fields).*1 = fields.*1.
Proof. by rewrite <- list_fmap_compose. Qed.
Lemma canonical_fields_perm (fields : list (string * json)) :
  NoDup (foldName <$> fields.*1) ->
  put_all cmp ((fun f => (f.1, canonical cmp f.2)) <$> fields) ≡ₚ (fun f => (f.1, canonical cmp f.2)) <$> fields.
Proof.
  intros Hnd. apply put_all_perm; [apply _|apply Heq|]. rewrite canonical_field_keys. by apply plain_NoDup.
Qed.
Lemma plain_canonical j : plain_keys j -> plain_keys (canonical cmp j).
Proof.
  destruct j; try done. simpl. intros Hnd. rewrite canonical_fields_perm by done. by rewrite canonical_field_keys.
Qed.

Lemma plain_config_canonical j : plain_config j -> plain_config (canonical cmp j).
Proof.
  destruct j as [| | | | |fields]; try done. intros [Hk Hall]. split; [by apply (plain_canonical (JObject fields))|].
  rewrite canonical_fields_perm by done. apply Forall_fmap. eapply Forall_impl; [exact Hall|]. intros f. apply plain_canonical.
Qed.

Section decoding.
Context {T : Type} (decode : T -> json -> option T) (name : string).

Definition decode_step (acc : option T) (f : string * json) : option T :=
  match acc with
  | Some t => if names_field name f.1 then decode t f.2 else acc
  | None => None
  end.
Lemma decode_perm l l' acc :
  l ≡ₚ l' -> NoDup (foldName <$> l.*1) -> foldl decode_step acc l = foldl decode_step acc l'.
Proof.
  intros Hp. revert acc. induction Hp as [|x l l' _ IH|x y l|l1 l2 l3 Hp1 IH1 _ IH2]; intros acc Hnd; simpl; [done| | |].
  - apply IH. by apply NoDup_cons in Hnd as [_ ?].
  - f_equal. unfold decode_step, names_field. destruct acc as [t|]; [|done].
    destruct (String.eqb_spec (foldName x.1) (foldName name)) as [Ex|], (String.eqb_spec (foldName y.1) (foldName name)) as [Ey|];
      try done; try by destruct (decode t _).
    apply NoDup_cons in Hnd as [Hn _]. destruct Hn. rewrite Ey. set_solver.
  - rewrite IH1 by done. apply IH2. by rewrite <- Hp1.
Qed.
Lemma decode_field_canonical init fields :
  (∀ t f, f ∈ fields -> decode t (canonical cmp f.2) = decode t f.2) -> NoDup (foldName <$> fields.*1) ->
  decode_field decode name init (put_all cmp ((fun f => (f.1, canonical cmp f.2)) <$> fields)) = decode_field decode name init fields.
Proof.
  intros Hd Hnd. change (foldl decode_step (Some init) (put_all cmp ((fun f => (f.1, canonical cmp f.2)) <$> fields)) =
    foldl decode_step (Some init) fields).
  rewrite (decode_perm _ _ _ (canonical_fields_perm fields Hnd)).
  - generalize (Some init). clear Hnd. induction fields as [|f fields IH]; intros acc; [done|]. rewrite fmap_cons. simpl.
    rewrite IH by set_solver. f_equal. unfold decode_step. destruct acc as [t|]; [|done]. simpl. by rewrite Hd by set_solver.
  - rewrite canonical_fields_perm by done. by rewrite canonical_field_keys.
Qed.
End decoding.

Lemma decode_string_canonical t v : decode_string t (canonical cmp v) = decode_string t v.
Proof. by destruct v. Qed.
Lemma decode_int_canonical t v : decode_int t (canonical cmp v) = decode_int t v.
Proof. by destruct v. Qed.
Lemma decode_strings_canonical t v : decode_strings t (canonical cmp v) = decode_strings t v.
Proof.
  destruct v as [| | | |l|]; try done. change (mapM (decode_string "") (canonical cmp <$> l) = mapM (decode_string "") l).
  induction l as [|x l IH]; [done|]. rewrite fmap_cons. cbn [mapM]. by rewrite decode_string_canonical, IH.
Qed.
End canonical.
