(* ===== verification/UrlGuard.v ===== *)
(** * Which addresses may be stored (internal/utils/xvalidation, url.go and
      internal_host.go; internal/utils/xurl)

    The rule behind every endpoint of a login provider: https, no credentials
    in it, and no address only the server can reach; and the one spelling of an
    issuer that secrets are bound to.  Parsing of URLs and addresses is net/url's
    and net's, a parameter here. *)
From Stdlib Require Import ZArith Lia Ascii String.
From stdpp Require Import base sorting sets strings numbers list.
From S2P Require Import Prelude Go Entity Conflict AuditTrail Schema Json.
Open Scope Z_scope.

(** A [url.URL]: what the code reads of it, and the rest. *)
Record URL := mkURL { url_Scheme : string; url_Host : string; url_User : bool; url_Rest : string }.
#[export] Instance eta_URL : Eta URL := fun u => mkURL (url_Scheme u) (url_Host u) (url_User u) (url_Rest u).

Class NetURL := {
  net_url_Parse : string -> option URL;
  net_url_String : URL -> string;
  (** sixteen bytes, an IPv4 address in its mapped form *)
  net_ParseIP : string -> option (list N);
  (** ozzo's [is.URL] *)
  is_URL : string -> bool;
  time_ParseDuration : string -> option Z }.

(** ** URL.Hostname *)

Definition is_digit (c : ascii) : bool := let n := N_of_ascii c in (48 <=? n)%N && (n <=? 57)%N.
Fixpoint last_colon (s : list ascii) : option (list ascii * list ascii) :=
  match s with
  | [] => None
  | c :: s' =>
      match last_colon s' with
      | Some (h, p) => Some (c :: h, p)
      | None => if bool_decide (c = ":"%char) then Some ([], s') else None
      end
  end.
Definition Hostname (u : URL) : string :=
  let host := bytes (url_Host u) in
  let host := match last_colon host with
              | Some (h, port) => if forallb is_digit port then h else host
              | None => host
              end in
  string_of_list_ascii
    (if has_prefix host ["["%char] && has_suffix host ["]"%char] then take (length host - 2) (drop 1 host) else host).

(** ** internal_host.go *)

(** An address as a number, and its last 32 bits when it is an IPv4 one. *)
Definition ip_number (ip : list N) : N := foldl (fun n b => (256 * n + b)%N) 0%N ip.
Definition ip_To4 (ip : list N) : option N :=
  if N.eqb (ip_number (take 12 ip)) 0xffff then Some (ip_number (drop 12 ip)) else None.
Definition in_prefix (width : N) (addr prefix bits : N) : bool := N.eqb (N.shiftr addr (width - bits)) (N.shiftr prefix (width - bits)).
Definition v4 (a b c d : N) : N := (((a * 256 + b) * 256 + c) * 256 + d)%N.
Definition v6 (hi : N) : N := N.shiftl hi 64.

Definition IsLoopback (ip : list N) : bool :=
  match ip_To4 ip with Some a => N.eqb (N.shiftr a 24) 127 | None => N.eqb (ip_number ip) 1 end.
Definition IsLinkLocalUnicast (ip : list N) : bool :=
  match ip_To4 ip with
  | Some a => in_prefix 32 a (v4 169 254 0 0) 16
  | None => in_prefix 128 (ip_number ip) (v6 0xfe80000000000000) 10
  end.
Definition IsLinkLocalMulticast (ip : list N) : bool :=
  match ip_To4 ip with
  | Some a => in_prefix 32 a (v4 224 0 0 0) 24
  | None => match ip with b0 :: b1 :: _ => N.eqb b0 255 && N.eqb (N.land b1 15) 2 | _ => false end
  end.
Definition IsPrivate (ip : list N) : bool :=
  match ip_To4 ip with
  | Some a => in_prefix 32 a (v4 10 0 0 0) 8 || in_prefix 32 a (v4 172 16 0 0) 12 || in_prefix 32 a (v4 192 168 0 0) 16
  | None => in_prefix 128 (ip_number ip) (v6 0xfc00000000000000) 7
  end.
Definition IsUnspecified (ip : list N) : bool :=
  match ip_To4 ip with Some a => N.eqb a 0 | None => N.eqb (ip_number ip) 0 end.
Definition IsMulticast (ip : list N) : bool :=
  match ip_To4 ip with
  | Some a => N.eqb (N.shiftr a 28) 14
  | None => in_prefix 128 (ip_number ip) (v6 0xff00000000000000) 8
  end.

Definition reservedRanges4 : list (N * N) :=
  [(v4 100 64 0 0, 10); (v4 192 0 0 0, 24); (v4 192 0 2 0, 24); (v4 192 88 99 0, 24); (v4 198 18 0 0, 15);
   (v4 198 51 100 0, 24); (v4 203 0 113 0, 24); (v4 240 0 0 0, 4)]%N.
Definition reservedRanges6 : list (N * N) :=
  [(v6 0x0064ff9b00000000, 96); (v6 0x0064ff9b00010000, 48); (N.shiftl 0xffff 48, 96); (v6 0x2002000000000000, 16);
   (v6 0xfec0000000000000, 10)]%N.
Definition inReservedRange (ip : list N) : bool :=
  match ip_To4 ip with
  | Some a => existsb (fun r => in_prefix 32 a r.1 r.2) reservedRanges4
  | None => existsb (fun r => in_prefix 128 (ip_number ip) r.1 r.2) reservedRanges6
  end.

Definition isHexHost (digits : list ascii) : bool :=
  negb (Nat.eqb (length digits) 0) &&
  forallb (fun c => let n := N_of_ascii c in is_digit c || (97 <=? n)%N && (n <=? 102)%N) digits.
Definition isNumericHost (host : string) : bool :=
  if String.eqb host "" then false
  else
    let lower := bytes (strings_ToLower host) in
    if has_prefix lower (bytes "0x") then isHexHost (drop 2 lower)
    else forallb (fun c => is_digit c || bool_decide (c = "."%char)) (bytes host).

Section rules.
Context `{NetURL}.

(** [true] is no error. *)
Definition refuseInternalHost (raw : string) : bool :=
  match net_url_Parse raw with
  | None => true
  | Some parsed =>
      if String.eqb (url_Host parsed) "" then true
      else
        let host := Hostname parsed in
        if String.eqb (foldName host) (foldName "localhost") then false
        else if isNumericHost host then false
        else match net_ParseIP host with
             | None => true
             | Some ip => negb (IsLoopback ip || (IsLinkLocalUnicast ip || IsLinkLocalMulticast ip) || IsPrivate ip ||
                                IsUnspecified ip || IsMulticast ip || inReservedRange ip)
             end
  end.

Definition HTTPSURL (raw : string) : bool :=
  if String.eqb raw "" then true
  else match net_url_Parse raw with
       | None => true
       | Some parsed =>
           if String.eqb (url_Host parsed) "" then false
           else if negb (String.eqb (url_Scheme parsed) "https") then false
           else if url_User parsed then false
           else refuseInternalHost raw
       end.

Definition IsDuration (value : string) : bool := match time_ParseDuration value with Some _ => true | None => false end.

(** ** xurl.NormalizeIssuer *)

Fixpoint trim_slashes (s : list ascii) : list ascii :=
  match s with
  | [] => []
  | c :: s' => match trim_slashes s' with
               | [] => if bool_decide (c = "/"%char) then [] else [c]
               | t => c :: t
               end
  end.
Definition NormalizeIssuer (raw : string) : string :=
  let trimmed := strings_TrimSpace raw in
  let trimmed := strings_TrimSpace (string_of_list_ascii (trim_slashes (bytes trimmed))) in
  match net_url_Parse trimmed with
  | Some parsed =>
      if String.eqb (url_Host parsed) "" then strings_ToLower trimmed
      else net_url_String (parsed <| url_Scheme := strings_ToLower (url_Scheme parsed) |>
                                  <| url_Host := strings_ToLower (url_Host parsed) |>)
  | None => strings_ToLower trimmed
  end.
End rules.

(** What passes points nowhere internal. *)
Lemma HTTPSURL_external `{NetURL} raw u :
  HTTPSURL raw = true -> raw ≠ ""%string -> net_url_Parse raw = Some u ->
  url_Scheme u = "https"%string ∧ url_User u = false ∧ isNumericHost (Hostname u) = false ∧
  ∀ ip, net_ParseIP (Hostname u) = Some ip ->
    IsLoopback ip = false ∧ IsLinkLocalUnicast ip = false ∧ IsPrivate ip = false ∧ IsMulticast ip = false ∧ inReservedRange ip = false.
Proof.
  unfold HTTPSURL, refuseInternalHost. intros Hok Hne Hp. apply String.eqb_neq in Hne. rewrite Hne, Hp in Hok.
  destruct (String.eqb (url_Host u) ""); [done|]. destruct (String.eqb_spec (url_Scheme u) "https") as [->|]; [|done]. simpl in Hok.
  destruct (url_User u); [done|]. destruct (String.eqb _ _); [done|]. destruct (isNumericHost _); [done|].
  split_and!; [done..|]. intros ip Hip. rewrite Hip in Hok. apply negb_true_iff in Hok.
  by rewrite !orb_false_iff in Hok; destruct_and!.
Qed.

(** The metadata address of a cloud, bracketed, as an address of the operator's own NAT64. *)
Example inReservedRange_ex : inReservedRange [0; 0x64; 0xff; 0x9b; 0; 1; 0; 0; 0; 0; 0; 0; 169; 254; 169; 254]%N = true ∧
  inReservedRange [0x26; 0x07; 0xf8; 0xb0; 0x40; 0; 0; 0; 0; 0; 0; 0; 0; 0; 0; 1]%N = false ∧
  inReservedRange [0; 0; 0; 0; 0; 0; 0; 0; 0xff; 0xff; 0; 0; 127; 0; 0; 1]%N = true ∧
  isNumericHost "0x7F000001" = true ∧ isNumericHost "127.1" = true ∧ isNumericHost "idp.example" = false.
Proof. split_and!; vm_compute; reflexivity. Qed.
