(* ===== verification/Logic.v ===== *)
(** * A program logic for the effect monad

    [wp m ctx w Q]: running [m] from [w] ends in a result and a world that
    satisfy [Q].  [keeps I m Q]: every run of [m] from a database that satisfies
    [I] ends, in whatever way, in one that does, and a value it returns
    satisfies [Q].  [keeps] has one rule per combinator of the monad; the rules
    are hints of the database [inv], so that the invariant proofs of the
    services follow the code. *)
From Stdlib Require Import ZArith Lia Ascii String.
From stdpp Require Import base sorting sets strings numbers list.
From S2P Require Import Prelude Go Entity Conflict AuditTrail Schema.
Open Scope Z_scope.

Definition wp {A} (m : M A) (ctx : Ctx) (w : World) (Q : outcome A -> World -> Prop) : Prop :=
  Q (fst (m ctx w)) (snd (m ctx w)).

(** What a bind does with the result of its first half. *)
Definition bind_post {A B} (k : A -> M B) (ctx : Ctx) (Q : outcome B -> World -> Prop)
    (r : outcome A) (w : World) : Prop :=
  match r with
  | Ok a => wp (k a) ctx w Q
  | Err e => Q (Err e) w
  | Panic s => Q (Panic s) w
  end.

Section wp.
Context `{Env}.

Lemma wp_run {A} (m : M A) ctx w (Q : outcome A -> World -> Prop) r w' :
  m ctx w = (r, w') -> wp m ctx w Q -> Q r w'.
Proof. unfold wp. by intros ->. Qed.

Lemma wp_intro {A} (m : M A) ctx w (Q : outcome A -> World -> Prop) :
  (∀ r w', m ctx w = (r, w') -> Q r w') -> wp m ctx w Q.
Proof. unfold wp. intros HQ. apply HQ. by destruct (m ctx w). Qed.

Lemma wp_mono {A} (m : M A) ctx w (P Q : outcome A -> World -> Prop) :
  wp m ctx w P -> (∀ r w', P r w' -> Q r w') -> wp m ctx w Q.
Proof. unfold wp. auto. Qed.

Lemma wp_ret {A} (a : A) ctx w (Q : outcome A -> World -> Prop) : Q (Ok a) w -> wp (mret a) ctx w Q.
Proof. done. Qed.

Lemma wp_bind {A B} (m : M A) (k : A -> M B) ctx w Q :
  wp m ctx w (bind_post k ctx Q) -> wp (m ≫= k) ctx w Q.
Proof. unfold wp, bind_post, mbind, M_bind. by destruct (m ctx w) as [[] ?]. Qed.

Lemma bind_Ok {A B} (m : M A) (k : A -> M B) ctx w b w' :
  (m ≫= k) ctx w = (Ok b, w') -> ∃ a w1, m ctx w = (Ok a, w1) ∧ k a ctx w1 = (Ok b, w').
Proof. unfold mbind, M_bind. destruct (m ctx w) as [[] ?]; naive_solver. Qed.

(** Every way a bind ends: in its second half, or early in the first. *)
Lemma bind_inv {A B} (m : M A) (k : A -> M B) ctx w r w' :
  (m ≫= k) ctx w = (r, w') ->
  (∃ a w1, m ctx w = (Ok a, w1) ∧ k a ctx w1 = (r, w')) ∨
  ((∀ b, r ≠ Ok b) ∧ ∃ r0, m ctx w = (r0, w') ∧ ∀ a, r0 ≠ Ok a).
Proof.
  unfold mbind, M_bind. destruct (m ctx w) as [[a|e|s] w1]; intros E; [by left; exists a, w1|right..];
    injection E as <- <-; (split; [done|]; eexists; split; [done|]; done).
Qed.

Lemma bind_Panic {A B} (m : M A) (k : A -> M B) ctx w s w' :
  (m ≫= k) ctx w = (Panic s, w') -> m ctx w = (Panic s, w') ∨ ∃ a w1, m ctx w = (Ok a, w1) ∧ k a ctx w1 = (Panic s, w').
Proof. unfold mbind, M_bind. destruct (m ctx w) as [[] ?]; naive_solver. Qed.

Lemma reject_if_Ok cond e ctx w u w' :
  reject_if cond e ctx w = (Ok u, w') -> cond = false ∧ w' = w.
Proof. unfold reject_if, raise, mret, M_ret. destruct cond; naive_solver. Qed.

Lemma attempt_Ok {A} (m : M A) ctx w r w' :
  attempt m ctx w = (Ok r, w') ->
  match r with inl a => m ctx w = (Ok a, w') | inr e => m ctx w = (Err e, w') end.
Proof. unfold attempt. destruct (m ctx w) as [[] ?]; naive_solver. Qed.

Lemma wrap_err_Ok {A} f (m : M A) ctx w a w' :
  wrap_err f m ctx w = (Ok a, w') -> m ctx w = (Ok a, w').
Proof. unfold wrap_err. destruct (m ctx w) as [[] ?]; naive_solver. Qed.

Lemma sql_Ok {A} (f : Stmt -> DB -> outcome (A * DB)) ctx w a w' :
  sql f ctx w = (Ok a, w') ->
  ∃ db', f (stmt_of ctx (w_step w)) (w_db w) = Ok (a, db') ∧ w' = tick w <| w_db := db' |>.
Proof.
  unfold sql. destruct (env_fault _); [naive_solver|].
  destruct (f _ _) as [[]| |]; naive_solver.
Qed.

Lemma query_Ok {A} (f : DB -> A) ctx w a w' :
  query f ctx w = (Ok a, w') -> a = f (w_db w) ∧ w_db w' = w_db w ∧ w_log w' = w_log w.
Proof. intros (db' & [= <- <-] & ->)%sql_Ok. done. Qed.
End wp.

(** Decompose a run that returned a value into the runs of its parts. *)
Ltac run_step H :=
  match type of H with
  | (mret _) _ _ = _ => unfold mret, M_ret in H; simplify_eq
  | (_ ≫= _) _ _ = (Ok _, _) =>
      let a := fresh "a" in let w := fresh "w" in
      let H1 := fresh "Hrun" in let H2 := fresh "Hrun" in
      apply bind_Ok in H as (a & w & H1 & H2)
  | wrap_err _ _ _ _ = (Ok _, _) => apply wrap_err_Ok in H
  | reject_if _ _ _ _ = (Ok _, _) => apply reject_if_Ok in H as [? ->]
  | attempt _ _ _ = (Ok _, _) => apply attempt_Ok in H
  | raise _ _ _ = _ => discriminate H
  | panic _ _ _ = _ => discriminate H
  end.
Ltac run_all := repeat match goal with H : _ = (Ok _, _) |- _ => run_step H end.

(** ** Invariants *)

Definition keeps (I : DB -> Prop) {A} (m : M A) (Q : A -> Prop) : Prop :=
  ∀ ctx w, I (w_db w) -> wp m ctx w (fun r w' => I (w_db w') ∧ ∀ a, r = Ok a -> Q a).

Section keeps.
Context `{Env} (I : DB -> Prop).

Lemma keeps_run {A} (m : M A) (Q : A -> Prop) ctx w r w' :
  keeps I m Q -> m ctx w = (r, w') -> I (w_db w) -> I (w_db w') ∧ ∀ a, r = Ok a -> Q a.
Proof. intros Hm Hrun Hw. specialize (Hm ctx w Hw). unfold wp in Hm. by rewrite Hrun in Hm. Qed.

Lemma keeps_ret {A} (a : A) (Q : A -> Prop) : Q a -> keeps I (mret a) Q.
Proof. intros HQ ctx w Hw. split; [done|]. intros ? [= <-]. done. Qed.

Lemma keeps_bind {A B} (m : M A) (k : A -> M B) (Q : A -> Prop) (R : B -> Prop) :
  keeps I m Q -> (∀ a, Q a -> keeps I (k a) R) -> keeps I (m ≫= k) R.
Proof.
  intros Hm Hk ctx w Hw. apply wp_bind. eapply wp_mono; [by apply Hm|].
  intros [a|e|s] w' [Hw' HQ]; simpl; [|by split..]. by apply Hk; [apply HQ|].
Qed.

Lemma keeps_weaken {A} (m : M A) (Q R : A -> Prop) :
  keeps I m Q -> (∀ a, Q a -> R a) -> keeps I m R.
Proof. intros Hm HQ ctx w Hw. eapply wp_mono; [by apply Hm|]. intros r w' [? ?]. split; eauto. Qed.

Lemma keeps_raise {A} e (Q : A -> Prop) : keeps I (raise e) Q.
Proof. intros ctx w Hw. by split. Qed.

Lemma keeps_panic {A} s (Q : A -> Prop) : keeps I (panic s) Q.
Proof. intros ctx w Hw. by split. Qed.

Lemma keeps_lift {A} (r : outcome A) (Q : A -> Prop) : (∀ a, r = Ok a -> Q a) -> keeps I (lift r) Q.
Proof. intros HQ ctx w Hw. by split. Qed.

Lemma keeps_attempt {A} (m : M A) (Q : A -> Prop) :
  keeps I m Q -> keeps I (attempt m) (fun r => match r with inl a => Q a | inr _ => True end).
Proof.
  intros Hm ctx w Hw. specialize (Hm ctx w Hw). unfold wp, attempt in *.
  destruct (m ctx w) as [[a|e|s] w']; simpl in *; destruct Hm as [? HQ]; split; try done; naive_solver.
Qed.

Lemma keeps_wrap_err {A} f (m : M A) (Q : A -> Prop) : keeps I m Q -> keeps I (wrap_err f m) Q.
Proof.
  intros Hm ctx w Hw. specialize (Hm ctx w Hw). unfold wp, wrap_err in *.
  by destruct (m ctx w) as [[a|e|s] w']; simpl in *; destruct Hm as [? HQ].
Qed.

Lemma keeps_reject_if cond e : keeps I (reject_if cond e) (fun _ => cond = false).
Proof. unfold reject_if. destruct cond; [apply keeps_raise|by apply keeps_ret]. Qed.

Lemma keeps_sql {A} (f : Stmt -> DB -> outcome (A * DB)) (Q : A -> Prop) :
  (∀ s db a db', I db -> f s db = Ok (a, db') -> I db' ∧ Q a) -> keeps I (sql f) Q.
Proof.
  intros Hf ctx w Hw. unfold wp, sql. destruct (env_fault _); [by split|].
  destruct (f _ _) as [[a db']| |] eqn:E; simpl; [|by split..].
  edestruct Hf as [? ?]; [done..|]. split; [done|]. by intros ? [= <-].
Qed.

Lemma keeps_query {A} (f : DB -> A) (Q : A -> Prop) :
  (∀ db, I db -> Q (f db)) -> keeps I (query f) Q.
Proof. intros Hf. apply keeps_sql. intros ???? Hdb [= <- <-]. eauto. Qed.

Lemma keeps_query_any {A} (f : DB -> A) : keeps I (query f) (fun _ => True).
Proof. by apply keeps_query. Qed.

Lemma keeps_UTCNow (Q : Time -> Prop) : (∀ t, Q t) -> keeps I UTCNow Q.
Proof. intros HQ ctx w Hw. split; [done|]. eauto. Qed.

Lemma keeps_ctx_Err : keeps I ctx_Err (fun _ => True).
Proof. intros ctx w Hw. by split. Qed.

Lemma keeps_in_tx : keeps I in_tx (fun _ => True).
Proof. intros ctx w Hw. by split. Qed.

Lemma keeps_emit e : keeps I (emit e) (fun _ => True).
Proof. intros ctx w Hw. by split. Qed.

Lemma keeps_for_each {A} (f : A -> M unit) (l : list A) :
  (∀ x, x ∈ l -> keeps I (f x) (fun _ => True)) -> keeps I (for_each f l) (fun _ => True).
Proof.
  induction l as [|x l IH]; simpl; intros Hf; [by apply keeps_ret|].
  eapply keeps_bind; [apply Hf; set_solver|]. intros _ _. apply IH. intros y ?. apply Hf. set_solver.
Qed.
End keeps.

#[export] Hint Resolve keeps_ret keeps_raise keeps_panic keeps_attempt keeps_wrap_err keeps_reject_if
  keeps_query keeps_UTCNow keeps_ctx_Err keeps_in_tx keeps_emit : inv.

(** One step of an invariant proof: follow the head combinator, or split a test
    of the code. *)
Ltac keeps_step :=
  match goal with
  | |- keeps _ (_ ≫= _) _ => eapply keeps_bind
  | |- keeps _ (mret _) _ => apply keeps_ret
  | |- keeps _ (raise _) _ => apply keeps_raise
  | |- keeps _ (panic _) _ => apply keeps_panic
  | |- keeps _ (wrap_err _ _) _ => apply keeps_wrap_err
  | |- keeps _ (attempt _) _ => apply keeps_attempt
  | |- keeps _ (match ?x with _ => _ end) _ => destruct x eqn:?
  | |- ∀ _, _ => intros ?
  end.

Lemma keeps_and (I J : DB -> Prop) {A} (m : M A) (P Q : A -> Prop) :
  keeps I m P -> keeps J m Q -> keeps (fun db => I db ∧ J db) m (fun a => P a ∧ Q a).
Proof.
  intros HI HJ ctx w [Hi Hj]. specialize (HI ctx w Hi). specialize (HJ ctx w Hj).
  unfold wp in *. naive_solver.
Qed.

(** ** Computations that emit nothing *)

Definition quiet {A} (m : M A) : Prop := ∀ ctx w, w_log (snd (m ctx w)) = w_log w.

Section quiet.
Context `{Env}.

Lemma quiet_run {A} (m : M A) ctx w r w' : quiet m -> m ctx w = (r, w') -> w_log w' = w_log w.
Proof. intros Hq E. specialize (Hq ctx w). by rewrite E in Hq. Qed.

Lemma quiet_ret {A} (a : A) : quiet (mret a).
Proof. done. Qed.

Lemma quiet_raise {A} e : quiet (raise (A := A) e).
Proof. done. Qed.

Lemma quiet_bind {A B} (m : M A) (k : A -> M B) : quiet m -> (∀ a, quiet (k a)) -> quiet (m ≫= k).
Proof.
  intros Hm Hk ctx w. unfold mbind, M_bind. specialize (Hm ctx w). destruct (m ctx w) as [[a|e|s] w1]; simpl in *;
    [|done..]. by rewrite (Hk a ctx w1).
Qed.

Lemma quiet_attempt {A} (m : M A) : quiet m -> quiet (attempt m).
Proof. intros Hm ctx w. specialize (Hm ctx w). unfold attempt. by destruct (m ctx w) as [[] ?]. Qed.

Lemma quiet_wrap_err {A} f (m : M A) : quiet m -> quiet (wrap_err f m).
Proof. intros Hm ctx w. specialize (Hm ctx w). unfold wrap_err. by destruct (m ctx w) as [[] ?]. Qed.

Lemma quiet_sql {A} (f : Stmt -> DB -> outcome (A * DB)) : quiet (sql f).
Proof. intros ctx w. unfold sql. destruct (env_fault _); [done|]. by destruct (f _ _) as [[]| |]. Qed.

Lemma quiet_query {A} (f : DB -> A) : quiet (query f).
Proof. apply quiet_sql. Qed.

Lemma quiet_UTCNow : quiet UTCNow.
Proof. done. Qed.
End quiet.

#[export] Hint Resolve quiet_ret quiet_raise quiet_attempt quiet_wrap_err quiet_sql quiet_query quiet_UTCNow : inv.

(** ** Reading is only reading *)

Section reads.
Context `{Env}.

(** The database is left alone. *)
Definition db_still {A} (m : M A) : Prop := ∀ J : DB -> Prop, keeps J m (fun _ => True).

Lemma db_still_run {A} (m : M A) ctx w r w' : db_still m -> m ctx w = (r, w') -> w_db w' = w_db w.
Proof. intros Hm E. by eapply (keeps_run (fun db => db = w_db w)) in E as [? _]. Qed.

(** [m] leaves the database and the log alone. *)
Definition reads {A} (m : M A) : Prop := db_still m ∧ quiet m.

Lemma reads_ret {A} (a : A) : reads (mret a).
Proof. split; [intros J; by apply keeps_ret|done]. Qed.
Lemma reads_raise {A} e : reads (raise (A := A) e).
Proof. split; [intros J; apply keeps_raise|done]. Qed.
Lemma reads_panic {A} s : reads (panic (A := A) s).
Proof. split; [intros J; apply keeps_panic|done]. Qed.
Lemma reads_bind {A B} (m : M A) (k : A -> M B) : reads m -> (∀ a, reads (k a)) -> reads (m ≫= k).
Proof.
  intros [Hm Hq] Hk. split; [|apply quiet_bind; [done|apply Hk]].
  intros J. eapply keeps_bind; [apply Hm|]. intros a _. apply Hk.
Qed.
Lemma reads_query {A} (f : DB -> A) : reads (query f).
Proof. split; [intros J; apply keeps_query_any|apply quiet_query]. Qed.
Lemma reads_attempt {A} (m : M A) : reads m -> reads (attempt m).
Proof.
  intros [Hm Hq]. split; [|by apply quiet_attempt]. intros J. eapply keeps_weaken; [apply keeps_attempt, Hm|done].
Qed.
Lemma reads_wrap_err {A} f (m : M A) : reads m -> reads (wrap_err f m).
Proof. intros [Hm Hq]. split; [intros J; apply keeps_wrap_err, Hm|by apply quiet_wrap_err]. Qed.
Lemma reads_reject_if cond e : reads (reject_if cond e).
Proof. destruct cond; [apply reads_raise|apply reads_ret]. Qed.
Lemma reads_UTCNow : reads UTCNow.
Proof. split; [intros J; by apply keeps_UTCNow|done]. Qed.
Lemma reads_lift {A} (r : outcome A) : reads (lift r).
Proof. destruct r; [apply reads_ret|apply reads_raise|apply reads_panic]. Qed.
Lemma reads_sql {A} (f : Stmt -> DB -> outcome (A * DB)) :
  (∀ s db a db', f s db = Ok (a, db') -> db' = db) -> reads (sql f).
Proof.
  intros Hf. split; [|apply quiet_sql]. intros J. apply keeps_sql. intros s db a db' Hdb E. by rewrite (Hf _ _ _ _ E).
Qed.
Lemma reads_run {A} (m : M A) ctx w r w' : reads m -> m ctx w = (r, w') -> w_db w' = w_db w ∧ w_log w' = w_log w.
Proof. intros [Hm Hq] E. split; [by eapply db_still_run|by eapply quiet_run]. Qed.
End reads.

Create HintDb reads.
#[export] Hint Resolve reads_ret reads_raise reads_panic reads_query reads_attempt reads_wrap_err reads_reject_if
  reads_UTCNow reads_lift : reads.
Ltac reads_solve :=
  repeat first
    [ progress intros
    | solve [auto with reads nocore]
    | apply reads_wrap_err | apply reads_attempt | apply reads_bind
    | apply reads_sql; intros ? ? ? ?; unfold require;
      match goal with |- (if ?b then _ else _) = _ -> _ => destruct b end; intros; simplify_eq; reflexivity
    | match goal with |- reads (match ?x with _ => _ end) => destruct x end ].

(** ** Programs that fail only when the database does *)

Section faulting.
Context `{Env}.

(** A statement between two points failed. *)
Definition faulted (w w' : World) : Prop := ∃ k f, (w_step w <= k < w_step w')%nat ∧ env_fault k = Some f.
Lemma fault_at k f (w w' : World) : env_fault k = Some f -> (w_step w <= k)%nat -> (k < w_step w')%nat -> faulted w w'.
Proof. intros. by exists k, f. Qed.
Lemma faulted_mono (w w' v v' : World) : faulted w w' -> (w_step v <= w_step w)%nat -> (w_step w' <= w_step v')%nat -> faulted v v'.
Proof. intros (k & f & Hk & Hf) ? ?. exists k, f. split; [lia|done]. Qed.

Definition faulting {A} (m : M A) : Prop := ∀ ctx w r w', m ctx w = (r, w') ->
  (w_step w <= w_step w')%nat ∧ match r with Ok _ => True | Err _ => faulted w w' | Panic _ => False end.
Lemma faulting_ret {A} (a : A) : faulting (mret a).
Proof. intros ctx w r w' [= <- <-]. split; [lia|done]. Qed.
Lemma faulting_bind {A B} (m : M A) (k : A -> M B) : faulting m -> (∀ a, faulting (k a)) -> faulting (m ≫= k).
Proof.
  intros Hm Hk ctx w r w'. unfold mbind, M_bind. destruct (m ctx w) as [[a|e|s] w1] eqn:E; apply Hm in E as [Hle Hf]; [|by intros [= <- <-]..].
  intros [Hle' Hf']%Hk. split; [lia|]. destruct r; [done| |done]. eapply faulted_mono; [exact Hf'|lia..].
Qed.
Lemma faulting_sql {A} (f : Stmt -> DB -> outcome (A * DB)) : (∀ s db, ∃ x, f s db = Ok x) -> faulting (sql f).
Proof.
  intros Hf ctx w r w'. unfold sql. destruct (env_fault _) as [x|] eqn:E.
  - intros [= <- <-]. split; [simpl; lia|]. by eapply fault_at; [exact E|simpl; lia..].
  - destruct (Hf (stmt_of ctx (w_step w)) (w_db w)) as [[a db] ->]. intros [= <- <-]. split; [simpl; lia|done].
Qed.
Lemma faulting_query {A} (f : DB -> A) : faulting (query f).
Proof. apply faulting_sql. intros. by eexists. Qed.
Lemma faulting_UTCNow : faulting UTCNow.
Proof. intros ctx w r w' [= <- <-]. split; [simpl; lia|done]. Qed.
Lemma faulting_wrap_err {A} f (m : M A) : faulting m -> faulting (wrap_err f m).
Proof. intros Hm ctx w r w'. unfold wrap_err. destruct (m ctx w) as [[] ?] eqn:E; apply Hm in E; by intros [= <- <-]. Qed.
End faulting.
#[export] Hint Resolve faulting_ret faulting_query faulting_UTCNow faulting_wrap_err : reads.
