(* ===== verification/Dbtx.v ===== *)
(** * Transactions (internal/utils/dbtx)

    [WithinTx] with its reentrancy, panic recovery and joined errors, and
    [WithinSerializableTx] with its bounded retries.

    The database of a world is its committed state, or, inside a transaction,
    the state that transaction sees: a rollback puts back the state the
    transaction began in.  A commit that fails leaves nothing behind. *)
From Stdlib Require Import ZArith Lia Ascii String.
From stdpp Require Import base sorting sets strings numbers list.
From S2P Require Import Prelude Go Entity Conflict AuditTrail Schema Logic.
Open Scope Z_scope.

Definition serializableMaxAttempts : Z := 10.
Definition serializableRetryBaseDelay : Duration := 5 * Millisecond.
Definition serializableRetryMaxDelay : Duration := 40 * Millisecond.

(** [sql.ErrTxDone]: what a rollback answers once the commit was tried. *)
Definition ErrTxDone : error := ESentinel "sql: transaction has already been committed or rolled back".

Definition TxFromContext (ctx : Ctx) : option Time := ctx_tx ctx.

Section dbtx.
Context `{Env}.

(** [tx.Rollback()] and what the deferred function makes of its error. *)
Definition rollback (saved : DB) (err : error) (w : World) : error * World :=
  match env_fault (w_step w) with
  | Some f => (EJoin2 err (fault_error f), tick w <| w_db := saved |>)
  | None => (err, tick w <| w_db := saved |>)
  end.

Definition WithinTx {A} (fn : M A) : M A := fun ctx w =>
  match TxFromContext ctx with
  | Some _ => fn ctx w
  | None =>
      match env_fault (w_step w) with
      | Some f => (Err (fault_error f), tick w)
      | None =>
          let fail err w2 := let '(err', w3) := rollback (w_db w) err w2 in (Err err', w3) in
          match fn (mkCtx (Some (env_now (w_step w)))) (tick w) with
          | (Panic s, w2) => fail (EJoin1 (EOther ("panic recovery: " +:+ s))) w2
          | (Err fnErr, w2) => fail (EJoin1 fnErr) w2
          | (Ok a, w2) =>
              match env_fault (w_step w2) with
              | Some f => (Err (EJoin2 (EJoin1 (fault_error f)) ErrTxDone),
                            tick w2 <| w_db := w_db w |>)
              | None => (Ok a, tick w2)
              end
          end
      end
  end.

(** [rand.Int64N(n)] *)
Definition rand_Int64N (r n : Z) : Z := r mod n.

Definition serializableRetryDelay (r : Z) (attempt : Z) : Duration :=
  let backoff := Z.min (wrap64 (Z.shiftl serializableRetryBaseDelay (attempt - 1)))
                       serializableRetryMaxDelay in
  rand_Int64N r (wrap64 (backoff + 1)).

Definition sleep (attempt : Z) (w : World) : World :=
  tick w <| w_log := w_log w ++ [EvSleep (serializableRetryDelay (env_rand (w_step w)) attempt)] |>.

(** The loop, with [left] attempts after this one. *)
Fixpoint serializable_attempts {A} (left : nat) (attempt : Z) (fn : M A) : M A := fun ctx w =>
  match WithinTx fn ctx w with
  | (Err err, w1) =>
      if negb (dbtx_ErrorIs err ErrPGSerializationFailure) then (Err err, w1)
      else
        match left with
        | O => (Err err, w1)
        | S left' =>
            match env_ctx_err (w_step w1) with
            | Some ctxErr => (Err ctxErr, tick w1)
            | None => serializable_attempts left' (attempt + 1) fn ctx (sleep attempt (tick w1))
            end
        end
  | r => r
  end.

Definition WithinSerializableTx {A} (fn : M A) : M A := fun ctx w =>
  match TxFromContext ctx with
  | Some _ => WithinTx fn ctx w
  | None => serializable_attempts (Z.to_nat (serializableMaxAttempts - 1)) 1 fn ctx w
  end.

(** [TxManager.AdvisoryXactLock]: refused outside a transaction.  The lock
    itself is the server's. *)
Definition AdvisoryXactLock (key : Z) : M unit :=
  tx ← in_tx;
  if (tx : bool) then wrap_err (Errorf "acquire advisory xact lock") (query (fun _ => tt))
  else raise (EOther "advisory xact lock requires an active transaction").

(** ** Lemmas *)

Lemma WithinTx_nested {A} (fn : M A) ctx t w :
  ctx_tx ctx = Some t -> WithinTx fn ctx w = fn ctx w.
Proof. intros E. unfold WithinTx, TxFromContext. by rewrite E. Qed.

(** Every way a top-level transaction can end. *)
Lemma WithinTx_cases {A} (fn : M A) w r w' :
  WithinTx fn background w = (r, w') ->
  (∃ e, r = Err e ∧ w_db w' = w_db w) ∨
  ∃ a w2, r = Ok a ∧ w_db w' = w_db w2 ∧ w_log w' = w_log w2 ∧
    fn (mkCtx (Some (env_now (w_step w)))) (tick w) = (Ok a, w2).
Proof.
  unfold WithinTx, TxFromContext, rollback; simpl. destruct (env_fault (w_step w)); [naive_solver|].
  destruct (fn _ (tick w)) as [[a|e|s] w2]; simpl; destruct (env_fault (w_step w2)); naive_solver.
Qed.

Lemma WithinTx_Ok {A} (fn : M A) ctx w a w' :
  WithinTx fn ctx w = (Ok a, w') ->
  ∃ t w1 w2, fn (mkCtx (Some t)) w1 = (Ok a, w2) ∧
    w_db w1 = w_db w ∧ w_db w' = w_db w2 ∧ w_log w1 = w_log w ∧ w_log w' = w_log w2.
Proof.
  destruct ctx as [[t|]].
  - rewrite (WithinTx_nested _ _ t) by done. intros E. by exists t, w, w'.
  - intros [(e & [=] & _)|(a' & w2 & [= <-] & Hdb & Hl & Hrun)]%WithinTx_cases.
    eexists _, _, w2. split; [exact Hrun|]. done.
Qed.

Lemma keeps_WithinTx {A} I (fn : M A) Q : keeps I fn Q -> keeps I (WithinTx fn) Q.
Proof.
  intros Hfn [[t|]] w Hw; [by apply (Hfn (mkCtx (Some t)))|].
  apply wp_intro. intros r w' [(e & -> & Hdb)|(a & w2 & -> & Hdb & _ & Hrun)]%WithinTx_cases.
  - by rewrite Hdb.
  - rewrite Hdb. by eapply keeps_run.
Qed.

(** The attempts of a serializable transaction all begin in the database the
    call began in. *)
Lemma serializable_attempts_cases {A} left attempt (fn : M A) w r w' :
  serializable_attempts left attempt fn background w = (r, w') ->
  (∃ e, r = Err e ∧ w_db w' = w_db w) ∨
  ∃ a t w1 w2, r = Ok a ∧ w_db w' = w_db w2 ∧ w_db w1 = w_db w ∧ fn (mkCtx (Some t)) w1 = (Ok a, w2).
Proof.
  revert attempt w. induction left as [|left IH]; intros attempt w; simpl;
    destruct (WithinTx fn background w) as [r1 w1] eqn:E; apply WithinTx_cases in E;
    destruct E as [(e & -> & Hdb)|(a & w2 & -> & Hdb & _ & Hrun)];
    try (intros [= <- <-]; right; by eexists _, _, (tick w), w2);
    destruct (negb _); try (intros [= <- <-]; eauto).
  destruct (env_ctx_err _); [intros [= <- <-]; eauto|].
  intros HIH%IH. simpl in HIH. by rewrite Hdb in HIH.
Qed.

Lemma keeps_WithinSerializableTx {A} I (fn : M A) Q : keeps I fn Q -> keeps I (WithinSerializableTx fn) Q.
Proof.
  intros Hfn [[t|]] w Hw; [by apply (Hfn (mkCtx (Some t)))|].
  apply wp_intro. intros r w'
    [(e & -> & Hdb)|(a & t & w1 & w2 & -> & Hdb & Hdb1 & Hrun)]%serializable_attempts_cases.
  - by rewrite Hdb.
  - rewrite Hdb. eapply keeps_run; [done..|]. by rewrite Hdb1.
Qed.

Lemma WithinSerializableTx_Ok {A} (fn : M A) ctx w a w' :
  WithinSerializableTx fn ctx w = (Ok a, w') ->
  ∃ t w1 w2, fn (mkCtx (Some t)) w1 = (Ok a, w2) ∧ w_db w1 = w_db w ∧ w_db w' = w_db w2.
Proof.
  destruct ctx as [[t|]]; simpl.
  - intros E. by exists t, w, w'.
  - intros [(e & [=] & _)|(a' & t & w1 & w2 & [= <-] & ? & ? & ?)]%serializable_attempts_cases.
    by exists t, w1, w2.
Qed.

Lemma serializableRetryDelay_bounds r attempt :
  1 <= attempt <= serializableMaxAttempts ->
  0 <= serializableRetryDelay r attempt <=
    Z.min (serializableRetryBaseDelay * 2 ^ (attempt - 1)) serializableRetryMaxDelay.
Proof.
  unfold serializableMaxAttempts, serializableRetryDelay, rand_Int64N. intros Ha.
  assert (attempt ∈ [1; 2; 3; 4; 5; 6; 7; 8; 9; 10]) as Hin
    by (rewrite !elem_of_cons, elem_of_nil; lia).
  repeat (apply elem_of_cons in Hin as [->|Hin]);
    [| | | | | | | | | |by apply elem_of_nil in Hin];
    match goal with |- context [r mod ?n] => let v := eval vm_compute in n in change n with v end;
    match goal with |- _ <= _ <= ?n => let v := eval vm_compute in n in change n with v end;
    match goal with |- context [r mod ?n] => pose proof (Z.mod_pos_bound r n ltac:(lia)) end; lia.
Qed.

(** The pauses of a run, oldest first. *)
Definition sleeps (l : list Effect) : list Duration :=
  l ≫= fun e => match e with EvSleep d => [d] | _ => [] end.

(** How often a loop that still has [left] retries can sleep, and how long. *)
Definition max_backoff (attempt : Z) : Z :=
  Z.min (serializableRetryBaseDelay * 2 ^ (attempt - 1)) serializableRetryMaxDelay.
Fixpoint total_backoff (left : nat) (attempt : Z) : Z :=
  match left with
  | O => 0
  | S left' => max_backoff attempt + total_backoff left' (attempt + 1)
  end.

Lemma WithinTx_quiet {A} (fn : M A) : quiet fn -> quiet (WithinTx fn).
Proof.
  intros Hq ctx w. unfold WithinTx, TxFromContext, rollback. destruct (ctx_tx ctx); [done|].
  destruct (env_fault (w_step w)); [done|].
  pose proof (Hq (mkCtx (Some (env_now (w_step w)))) (tick w)) as Hq'.
  destruct (fn _ (tick w)) as [[a|e|s] w2]; simpl in *; by destruct (env_fault (w_step w2)).
Qed.
Lemma quiet_lift {A} (r : outcome A) : quiet (lift r).
Proof. done. Qed.
Lemma quiet_for_each {A} (f : A -> M unit) l : (∀ x, quiet (f x)) -> quiet (for_each f l).
Proof. intros Hf. induction l as [|x l IH]; simpl; [done|]. by apply quiet_bind. Qed.
Lemma quiet_reject_if cond e : quiet (reject_if cond e).
Proof. by destruct cond. Qed.

Lemma total_backoff_nonneg left attempt : 1 <= attempt -> 0 <= total_backoff left attempt.
Proof.
  revert attempt. induction left as [|left IH]; intros attempt Ha; simpl; [lia|].
  specialize (IH (attempt + 1) ltac:(lia)). unfold max_backoff, serializableRetryBaseDelay,
    serializableRetryMaxDelay. pose proof (Z.pow_nonneg 2 (attempt - 1)).
  unfold Millisecond, Microsecond, Nanosecond. lia.
Qed.

Lemma serializable_attempts_sleeps {A} left attempt (fn : M A) w :
  quiet fn -> 1 <= attempt -> attempt + Z.of_nat left <= serializableMaxAttempts ->
  ∃ ds, w_log (snd (serializable_attempts left attempt fn background w)) = w_log w ++ (EvSleep <$> ds) ∧
    (length ds <= left)%nat ∧ Forall (fun d => 0 <= d) ds ∧ foldr Z.add 0 ds <= total_backoff left attempt.
Proof.
  intros Hq. revert attempt w. induction left as [|left IH]; intros attempt w H1 H2; simpl;
    pose proof (WithinTx_quiet fn Hq background w) as Hlog;
    destruct (WithinTx fn background w) as [[a|e|s] w1]; simpl in Hlog.
  1-3: try destruct (negb _); exists []; simpl; rewrite app_nil_r; split_and!; done || lia.
  2: destruct (negb _); [|destruct (env_ctx_err _)].
  1, 2, 3, 5: exists []; simpl; rewrite app_nil_r;
    pose proof (total_backoff_nonneg (S left) attempt H1); split_and!; done || simpl in *; lia || done.
  destruct (IH (attempt + 1) (sleep attempt (tick w1))) as (ds & -> & Hl & Hf & Hs); [lia..|].
  pose proof (serializableRetryDelay_bounds (env_rand (w_step (tick w1))) attempt ltac:(lia)) as Hb.
  eexists (_ :: ds). simpl. rewrite <- app_assoc. simpl. rewrite Hlog. split_and!.
  - done.
  - lia.
  - constructor; [apply Hb|done].
  - destruct Hb as [_ Hb]. exact (Z.add_le_mono _ _ _ _ Hb Hs).
Qed.
End dbtx.

Create HintDb quiet.
#[export] Hint Resolve quiet_lift quiet_reject_if : quiet.
(** Follow the code; every statement is silent. *)
Ltac quiet_solve :=
  repeat first
    [ progress intros
    | solve [auto with quiet inv nocore]
    | apply quiet_wrap_err | apply quiet_attempt | apply quiet_for_each | apply WithinTx_quiet
    | apply quiet_bind
    | match goal with |- quiet (match ?x with _ => _ end) => destruct x end ].

#[export] Hint Resolve keeps_WithinTx keeps_WithinSerializableTx : inv.

Section properties.
Context `{Env}.

(** A top-level transaction is atomic and never lets a panic out: either
    its body ran once, returned a value, and the database is the one the body
    left; or the caller gets an error and the database is untouched.  An error
    the body returned is still in the error the caller sees. *)
Theorem WithinTx_atomic {A} (fn : M A) w :
  let '(r, w') := WithinTx fn background w in
  match r with
  | Ok a => ∃ w2, fn (mkCtx (Some (env_now (w_step w)))) (tick w) = (Ok a, w2) ∧ w_db w' = w_db w2
  | Err e => w_db w' = w_db w ∧
             ∀ fnErr w2, fn (mkCtx (Some (env_now (w_step w)))) (tick w) = (Err fnErr, w2) ->
               env_fault (w_step w) = None -> errors_Is e fnErr = true
  | Panic _ => False
  end.
Proof.
  destruct (WithinTx fn background w) as [r w'] eqn:E.
  pose proof (WithinTx_cases _ _ _ _ E) as [(e & -> & Hdb)|(a & w2 & -> & Hdb & _ & Hrun)]; [|eauto].
  split; [done|]. intros fnErr w2 Hrun Hf. revert E. unfold WithinTx, TxFromContext, rollback; simpl.
  rewrite Hf, Hrun. destruct (env_fault (w_step w2)); intros [= <- _]; simpl;
    rewrite errors_Is_refl; by rewrite ?orb_true_r.
Qed.

(** C34. A serializable transaction that returns a value commits the effect of
    exactly one run of its body, from the database the call began in, however
    many attempts were aborted before; otherwise the caller gets an error and
    the database is untouched.  Between the attempts of a body that itself
    emits nothing it sleeps at most nine times and at most 275 ms in all. *)
Theorem WithinSerializableTx_correct {A} (fn : M A) w :
  quiet fn ->
  let '(r, w') := WithinSerializableTx fn background w in
  match r with
  | Ok a => ∃ t w1 w2, w_db w1 = w_db w ∧ fn (mkCtx (Some t)) w1 = (Ok a, w2) ∧ w_db w' = w_db w2
  | Err _ => w_db w' = w_db w
  | Panic _ => False
  end ∧
  ∃ ds, w_log w' = w_log w ++ (EvSleep <$> ds) ∧ (length ds <= 9)%nat ∧
    Forall (fun d => 0 <= d) ds ∧ foldr Z.add 0 ds <= 275 * Millisecond.
Proof.
  intros Hq. destruct (WithinSerializableTx fn background w) as [r w'] eqn:E. split.
  - apply serializable_attempts_cases in E as [(e & -> & Hdb)|(a & t & w1 & w2 & -> & ? & ? & ?)]; eauto 10.
  - destruct (serializable_attempts_sleeps 9 1 fn w Hq) as (ds & Hl & Hn & Hf & Hs);
      [by unfold serializableMaxAttempts..|].
    unfold WithinSerializableTx in E; simpl in E, Hl. rewrite E in Hl. by exists ds.
Qed.
End properties.

(** A world in which every attempt loses, with the longest pauses. *)
Definition losing_env : Env := {|
  env_now := fun n => Z.of_nat n * Millisecond;
  env_fault := fun n => if Nat.even n then None else Some (FaultPg ErrPGSerializationFailure);
  env_rand := fun _ => -1; env_uuid := fun n k => N.of_nat (1000 * n + k); env_ctx_err := fun _ => None |}.
Definition empty_db : DB := mkDB [] [] [] [] [] [] [] [] [] [] [] [] [] [] [] [] [] [] [] [].

Lemma WithinSerializableTx_correct_witness :
  let '(r, w') := @WithinSerializableTx losing_env unit (mret tt) background (mkWorld empty_db 0 [] []) in
  (match r with Err _ => w_db w' = empty_db | _ => False end) ∧
  w_log w' = EvSleep <$> [5000000; 10000000; 20000000; 40000000; 40000000; 40000000; 40000000; 40000000; 40000000] ∧
  ∃ ds, w_log w' = EvSleep <$> ds ∧ foldr Z.add 0 ds <= 275 * Millisecond.
Proof.
  pose proof (@WithinSerializableTx_correct losing_env unit (mret tt) (mkWorld empty_db 0 [] []) (fun _ _ => eq_refl)) as Ht.
  evaluate (@WithinSerializableTx losing_env unit (mret tt) background (mkWorld empty_db 0 [] [])).
  destruct Ht as [Hdb (ds & Hl & _ & _ & Hs)]. split; [exact Hdb|]. split; [reflexivity|].
  exists ds. split; [exact Hl|exact Hs].
Defined.
