(* ===== verification/Interleave.v ===== *)
(** * Requests that interleave

    A request of the account services is a sequence of calls, each of which the
    servers answer in one piece: a statement, a transaction, a command of the
    key-value server, a reading of the clock.  [Prog] is the tree of those calls,
    [exec] runs it alone, and [step] runs any number of them against one world in
    any order, recording every call and its answer.

    A transaction that takes a row lock or an advisory lock first is one call:
    the lock makes the calls of other requests on the same rows wait for its
    end. *)
From Stdlib Require Import ZArith Lia Ascii String.
From stdpp Require Import base sorting sets strings numbers list relations.
From S2P Require Import Prelude Go Entity Conflict AuditTrail Schema Logic Dbtx.
Open Scope Z_scope.

Inductive Prog (E : Type -> Type) (A : Type) : Type :=
  | PRet (a : A)
  | PErr (e : error)
  | PCall {X : Type} (op : E X) (k : X + error -> Prog E A).
Arguments PRet {E A} a.
Arguments PErr {E A} e.
Arguments PCall {E A X} op k.

Section prog.
Context {E : Type -> Type}.

Fixpoint prog_bind {A B} (f : A -> Prog E B) (p : Prog E A) : Prog E B :=
  match p with
  | PRet a => f a
  | PErr e => PErr e
  | PCall op k => PCall op (fun r => prog_bind f (k r))
  end.
#[global] Instance Prog_ret : MRet (Prog E) := fun A a => PRet a.
#[global] Instance Prog_bind : MBind (Prog E) := fun A B f p => prog_bind f p.

(** [x, err := op()]; the error of a call as a value. *)
Definition try_call {X} (op : E X) : Prog E (X + error) := PCall op PRet.
(** [if err != nil { return err }] *)
Definition call {X} (op : E X) : Prog E X :=
  PCall op (fun r => match r with inl x => PRet x | inr e => PErr e end).
(** [if err != nil { return wrap(err) }] *)
Definition call_wrap {X} (f : error -> error) (op : E X) : Prog E X :=
  PCall op (fun r => match r with inl x => PRet x | inr e => PErr (f e) end).
End prog.

(** The calls of one service among those of another that uses it. *)
Fixpoint prog_map {E F : Type -> Type} (f : ∀ X, E X -> F X) {A} (p : Prog E A) : Prog F A :=
  match p with
  | PRet a => PRet a
  | PErr e => PErr e
  | PCall op k => PCall (f _ op) (fun r => prog_map f (k r))
  end.
(** [x, err := m()] of a part. *)
Fixpoint prog_try {E : Type -> Type} {A} (p : Prog E A) : Prog E (A + error) :=
  match p with
  | PRet a => PRet (inl a)
  | PErr e => PRet (inr e)
  | PCall op k => PCall op (fun r => prog_try (k r))
  end.
(** [if err := m(); err != nil { return wrap(err) }] of a part. *)
Definition prog_wrap {E : Type -> Type} (f : error -> error) {A} (p : Prog E A) : Prog E A :=
  r ← prog_try p;
  match r with inl a => mret a | inr e => PErr (f e) end.

(** A request reports its own failures by an error; a panic ends it. *)
Definition answer {X} (r : outcome X) : X + error :=
  match r with
  | Ok x => inl x
  | Err e => inr e
  | Panic s => inr (EOther s)
  end.

Section run.
Context {E : Type -> Type} (handle : ∀ X, E X -> M X).

(** A request alone. *)
Fixpoint exec {A} (p : Prog E A) : M A := fun ctx w =>
  match p with
  | PRet a => (Ok a, w)
  | PErr e => (Err e, w)
  | PCall op k =>
      match handle _ op ctx w with
      | (Panic s, w') => (Panic s, w')
      | (r, w') => exec (k (answer r)) ctx w'
      end
  end.

Inductive Event := Ev (thread : nat) {X : Type} (op : E X) (r : outcome X).
Definition ev_thread (e : Event) : nat := match e with Ev i _ _ => i end.

Context {A : Type}.

(** The requests under way, the world they share, and what was called so far. *)
Record Conf := mkConf { cf_threads : list (Prog E A); cf_world : World; cf_trace : list Event }.

(** What is left of a request after an answer. *)
Definition resume {X} (k : X + error -> Prog E A) (r : outcome X) : Prog E A :=
  match r with
  | Panic s => PErr (EOther s)
  | _ => k (answer r)
  end.

Inductive step (arrives : Prog E A -> Prop) : Conf -> Conf -> Prop :=
  | step_arrive ts w tr p :
      arrives p -> step arrives (mkConf ts w tr) (mkConf (ts ++ [p]) w tr)
  | step_call ts w tr i X (op : E X) k r w' :
      ts !! i = Some (PCall op k) -> handle _ op background w = (r, w') ->
      step arrives (mkConf ts w tr) (mkConf (<[i := resume k r]> ts) w' (tr ++ [Ev i op r])).

Definition reachable (arrives : Prog E A -> Prop) (w : World) : Conf -> Prop :=
  rtc (step arrives) (mkConf [] w []).

(** A given schedule, run. *)
Definition fire (c : Conf) (i : nat) : Conf :=
  match cf_threads c !! i with
  | Some (PCall op k) =>
      let '(r, w') := handle _ op background (cf_world c) in
      mkConf (<[i := resume k r]> (cf_threads c)) w' (cf_trace c ++ [Ev i op r])
  | _ => c
  end.
Definition run_schedule (ps : list (Prog E A)) (w : World) (l : list nat) : Conf := fold_left fire l (mkConf ps w []).

Lemma arrive_all arrives ps w :
  Forall arrives ps -> ∀ ts, rtc (step arrives) (mkConf ts w []) (mkConf (ts ++ ps) w []).
Proof.
  induction 1 as [|p ps Hp _ IH]; intros ts; [by rewrite app_nil_r|].
  eapply rtc_l; [by apply (step_arrive _ _ _ _ p)|]. rewrite (cons_middle p ts ps), app_assoc. apply IH.
Qed.

Lemma run_schedule_reachable arrives ps w l : Forall arrives ps -> reachable arrives w (run_schedule ps w l).
Proof.
  intros Hps. unfold reachable, run_schedule. etrans; [by apply (arrive_all _ ps _ Hps [])|].
  cbn [app]. generalize (mkConf ps w []). clear Hps. induction l as [|i l IH]; intros c; simpl; [apply rtc_refl|].
  etrans; [|apply IH]. unfold fire. destruct c as [ts w0 tr]. simpl.
  destruct (ts !! i) as [[| |X op k]|] eqn:Ei; try apply rtc_refl.
  destruct (handle _ op background w0) as [r w'] eqn:Eh. apply rtc_once. by econstructor.
Qed.

(** ** Invariants *)

Lemma reachable_inv arrives w0 (I : World -> list Event -> Prop) c :
  reachable arrives w0 c -> I w0 [] ->
  (∀ w tr i X (op : E X) r w', I w tr -> handle _ op background w = (r, w') -> I w' (tr ++ [Ev i op r])) ->
  I (cf_world c) (cf_trace c).
Proof.
  intros Hr H0 Hstep. unfold reachable in Hr.
  enough (∀ c1 c2, rtc (step arrives) c1 c2 -> I (cf_world c1) (cf_trace c1) -> I (cf_world c2) (cf_trace c2)) as Hgen
    by by eapply Hgen.
  clear -Hstep. induction 1 as [|c1 c2 c3 Hs _ IH]; [done|]. intros HI. apply IH. destruct Hs; simpl in *; eauto.
Qed.

(** The calls a request can come to make. *)
Inductive calls_only (P : ∀ X, E X -> Prop) : Prog E A -> Prop :=
  | calls_ret a : calls_only P (PRet a)
  | calls_err e : calls_only P (PErr e)
  | calls_call X (op : E X) k : P X op -> (∀ r, calls_only P (k r)) -> calls_only P (PCall op k).

Lemma calls_only_inv P X (op : E X) k :
  calls_only P (PCall op k) -> P X op ∧ ∀ r, calls_only P (k r).
Proof.
  intros Hc. change (match PCall op k with PCall op k => P _ op ∧ (∀ r, calls_only P (k r)) | _ => True end).
  by destruct Hc.
Qed.

(** [reachable_inv] for requests that make only the calls of [P]. *)
Lemma reachable_inv_calls arrives w0 (P : ∀ X, E X -> Prop) (I : World -> list Event -> Prop) c :
  reachable arrives w0 c -> (∀ p, arrives p -> calls_only P p) -> I w0 [] ->
  (∀ w tr i X (op : E X) r w', P X op -> I w tr -> handle _ op background w = (r, w') -> I w' (tr ++ [Ev i op r])) ->
  I (cf_world c) (cf_trace c).
Proof.
  intros Hr Hp H0 Hstep. unfold reachable in Hr.
  enough (∀ c1 c2, rtc (step arrives) c1 c2 -> Forall (calls_only P) (cf_threads c1) -> I (cf_world c1) (cf_trace c1) ->
    I (cf_world c2) (cf_trace c2)) as Hgen by (eapply Hgen; [done|constructor|done]).
  clear -Hp Hstep. induction 1 as [|c1 c2 c3 Hs _ IH]; [done|]. intros Hall HI.
  destruct Hs as [ts w tr p Ha|ts w tr i X op k r w' Hi Hh]; simpl in *; apply IH; simpl.
  - apply Forall_app. auto.
  - done.
  - apply Forall_insert; [done|]. rewrite Forall_lookup in Hall.
    destruct (calls_only_inv _ _ _ _ (Hall _ _ Hi)) as [_ Hk]. destruct r; simpl; [apply Hk..|constructor].
  - rewrite Forall_lookup in Hall. destruct (calls_only_inv _ _ _ _ (Hall _ _ Hi)). eauto.
Qed.

(** ** The history of one request *)

(** [follows p es q]: answered as in [es], the request [p] comes to [q]. *)
Inductive follows : Prog E A -> list Event -> Prog E A -> Prop :=
  | follows_nil p : follows p [] p
  | follows_call i X (op : E X) k r es q :
      follows (resume k r) es q -> follows (PCall op k) (Ev i op r :: es) q.

Lemma follows_snoc p es i X (op : E X) k r :
  follows p es (PCall op k) -> follows p (es ++ [Ev i op r]) (resume k r).
Proof.
  intros Hf. remember (PCall op k) as q eqn:Eq. revert Eq.
  induction Hf as [p|j Y op' k' r' es q Hf IH]; intros ->; simpl; [repeat constructor|].
  constructor. by apply IH.
Qed.

Definition thread_events (i : nat) (tr : list Event) : list Event :=
  filter (fun e => ev_thread e = i) tr.

(** Every request under way follows its own answers, whatever the others do. *)
Lemma reachable_follows arrives w0 c :
  reachable arrives w0 c -> ∀ i p, cf_threads c !! i = Some p ->
  ∃ p0, arrives p0 ∧ follows p0 (thread_events i (cf_trace c)) p.
Proof.
  unfold reachable.
  enough (∀ c1 c2, rtc (step arrives) c1 c2 ->
    ((∀ i p, cf_threads c1 !! i = Some p -> ∃ p0, arrives p0 ∧ follows p0 (thread_events i (cf_trace c1)) p) ∧
     Forall (fun e => (ev_thread e < length (cf_threads c1))%nat) (cf_trace c1)) ->
    ((∀ i p, cf_threads c2 !! i = Some p -> ∃ p0, arrives p0 ∧ follows p0 (thread_events i (cf_trace c2)) p) ∧
     Forall (fun e => (ev_thread e < length (cf_threads c2))%nat) (cf_trace c2))) as Hgen.
  { intros Hr. destruct (Hgen _ _ Hr) as [Hc _]; [|done]. split; [done|constructor]. }
  induction 1 as [|c1 c2 c3 Hs _ IH]; [done|]. intros [Hf Hall]. apply IH. clear IH c3.
  destruct Hs as [ts w tr p0 Hp|ts w tr i0 X op k r w' Hi Hh]; simpl in *.
  - split.
    + intros i p [Hl|[Hl [_ <-]%list_lookup_singleton_Some]]%lookup_app_Some; [eauto|].
      exists p0. split; [done|]. replace (thread_events _ tr) with ([] : list Event); [constructor|].
      symmetry. unfold thread_events. clear -Hall Hl. induction Hall as [|e tr He _ IH]; [done|].
      rewrite filter_cons_False; [done|].
      intros Heq. rewrite Heq in He. lia.
    + eapply Forall_impl; [done|]. intros e He. cbv beta in *. rewrite length_app. simpl. lia.
  - assert (i0 < length ts)%nat as Hlt by by eapply lookup_lt_Some. split.
    + intros i p Hl. unfold thread_events. rewrite filter_app. destruct (decide (i = i0)) as [->|Hne].
      * rewrite list_lookup_insert_eq in Hl by done. injection Hl as <-. rewrite filter_cons_True by done.
        destruct (Hf _ _ Hi) as (p0 & Ha & Hfol). exists p0. split; [done|]. by apply follows_snoc.
      * rewrite list_lookup_insert_ne in Hl by done. rewrite filter_cons_False by done. rewrite filter_nil, app_nil_r. eauto.
    + rewrite length_insert. apply Forall_app. split; [done|]. by constructor.
Qed.

(** ** Invariants of programs that use what they were answered *)

(** Every call satisfies [P] of what the request was answered before. *)
Inductive calls_hist (P : list Event -> ∀ X, E X -> Prop) : list Event -> Prog E A -> Prop :=
  | ch_ret es a : calls_hist P es (PRet a)
  | ch_err es e : calls_hist P es (PErr e)
  | ch_call es X (op : E X) k :
      P es X op -> (∀ i r, calls_hist P (es ++ [Ev i op r]) (resume k r)) -> calls_hist P es (PCall op k).

Lemma calls_hist_inv P es p :
  calls_hist P es p ->
  match p with
  | PCall op k => P es _ op ∧ ∀ i r, calls_hist P (es ++ [Ev i op r]) (resume k r)
  | _ => True
  end.
Proof. by destruct 1. Qed.

Lemma calls_hist_follows P es0 p es q : calls_hist P es0 p -> follows p es q -> calls_hist P (es0 ++ es) q.
Proof.
  intros Hc Hf. revert es0 Hc. induction Hf as [p|i X op k r es q Hf IH]; intros es0 Hc; [by rewrite app_nil_r|].
  apply calls_hist_inv in Hc as [_ Hk]. rewrite (cons_middle (Ev i op r) es0 es), app_assoc. by apply IH.
Qed.

Lemma reachable_inv_hist arrives w0 P (I : World -> list Event -> Prop) c :
  reachable arrives w0 c -> (∀ p, arrives p -> calls_hist P [] p) -> I w0 [] ->
  (∀ w tr i X (op : E X) r w', P (thread_events i tr) X op -> I w tr -> handle _ op background w = (r, w') ->
     I w' (tr ++ [Ev i op r])) ->
  I (cf_world c) (cf_trace c).
Proof.
  intros Hr Hp H0 Hstep. revert c Hr.
  apply (rtc_ind_r (fun c => I (cf_world c) (cf_trace c))); [done|]. intros c1 c2 Hr Hs IH. destruct Hs as [ts w tr p Ha|ts w tr i X op k r w' Hi Hh]; simpl in *; [done|].
  destruct (reachable_follows arrives w0 _ Hr _ _ Hi) as (p0 & Ha & Hf). simpl in Hf.
  apply (Hstep w); [|done|done]. pose proof (calls_hist_follows P [] _ _ _ (Hp _ Ha) Hf) as Hc.
  by apply calls_hist_inv in Hc as [? _].
Qed.

(** What happens to a request that runs alone is one of the things that can
    happen to it. *)
Lemma exec_follows (p : Prog E A) w a w' :
  exec p background w = (Ok a, w') -> ∃ es, follows p es (PRet a).
Proof.
  revert w. induction p as [a0|e|X op k IH]; intros w; simpl; [intros [= <- <-]; eexists; constructor|done|].
  destruct (handle _ op background w) as [[x|e|s] w1] eqn:Eh; [| |done]; intros Hrun.
  - destruct (IH (inl x) _ Hrun) as [es Hes]. exists (Ev 0 op (Ok x) :: es). by constructor.
  - destruct (IH (inr e) _ Hrun) as [es Hes]. exists (Ev 0 op (Err e) :: es). by constructor.
Qed.
End run.

Lemma follows_inv {E A} (p : Prog E A) es q :
  follows p es q ->
  match p with
  | PCall op k => (es = [] ∧ q = PCall op k) ∨ ∃ i r es', es = Ev i op r :: es' ∧ follows (resume k r) es' q
  | _ => es = [] ∧ q = p
  end.
Proof. destruct 1 as [[| |]|]; simpl; eauto 10. Qed.

Lemma follows_call_inv {E A X} (op : E X) (k : X + error -> Prog E A) es a :
  follows (PCall op k) es (PRet a) ->
  ∃ i r es', es = Ev i op r :: es' ∧ follows (resume k r) es' (PRet a).
Proof. intros [[_ [=]]|?]%follows_inv. done. Qed.

Lemma follows_ret_inv {E A} (a : A) (es : list (@Event E)) b : follows (PRet a) es (PRet b) -> es = [] ∧ b = a.
Proof. intros [-> [= ->]]%follows_inv. done. Qed.

Lemma follows_err_inv {E A} e (es : list (@Event E)) (b : A) : ~ follows (PErr e) es (PRet b).
Proof. intros [_ [=]]%follows_inv. Qed.

(** The answers of a request that returned, part by part. *)
Lemma follows_bind_inv {E A B} (p : Prog E A) (f : A -> Prog E B) es b :
  follows (p ≫= f) es (PRet b) ->
  ∃ es1 es2 a, es = es1 ++ es2 ∧ follows p es1 (PRet a) ∧ follows (f a) es2 (PRet b).
Proof.
  revert es. induction p as [a|e|X op k IH]; intros es Hf.
  - exists [], es, a. split_and!; [done|constructor|exact Hf].
  - by apply follows_err_inv in Hf.
  - apply follows_call_inv in Hf as (i & r & es' & -> & Hf).
    assert (∃ es1 es2 a, es' = es1 ++ es2 ∧ follows (resume k r) es1 (PRet a) ∧ follows (f a) es2 (PRet b))
      as (es1 & es2 & a & -> & H1 & H2).
    { destruct r as [x|e|s]; simpl in *; [by apply IH..|]. by apply follows_err_inv in Hf. }
    exists (Ev i op r :: es1), es2, a. split_and!; [done|by constructor|done].
Qed.

Lemma follows_try_call_inv {E X} (op : E X) es r :
  follows (try_call op) es (PRet r) ->
  ∃ i, (∃ x, r = inl x ∧ es = [Ev i op (Ok x)]) ∨ (∃ e, r = inr e ∧ es = [Ev i op (Err e)]).
Proof.
  intros (i & o & es' & -> & Hf)%follows_call_inv. exists i.
  destruct o as [x|e|s]; simpl in Hf; [apply follows_ret_inv in Hf as [-> ->]; eauto..|by apply follows_err_inv in Hf].
Qed.

Lemma follows_call_op_inv {E X} (op : E X) es x :
  follows (call op) es (PRet x) -> ∃ i, es = [Ev i op (Ok x)].
Proof.
  intros (i & o & es' & -> & Hf)%follows_call_inv. exists i.
  destruct o as [y|e|s]; simpl in Hf; [apply follows_ret_inv in Hf as [-> ->]; eauto|by apply follows_err_inv in Hf..].
Qed.

Lemma follows_call_wrap_inv {E X} f (op : E X) es x :
  follows (call_wrap f op) es (PRet x) -> ∃ i, es = [Ev i op (Ok x)].
Proof.
  intros (i & o & es' & -> & Hf)%follows_call_inv. exists i.
  destruct o as [y|e|s]; simpl in Hf; [apply follows_ret_inv in Hf as [-> ->]; eauto|by apply follows_err_inv in Hf..].
Qed.

Lemma follows_try_inv {E A} (p : Prog E A) es r :
  follows (prog_try p) es (PRet r) ->
  (∃ a, r = inl a ∧ follows p es (PRet a)) ∨ (∃ e, r = inr e ∧ follows p es (PErr e)).
Proof.
  revert es. induction p as [a|e|X op k IH]; intros es Hf.
  - apply follows_ret_inv in Hf as [-> ->]. left. eexists. split; [done|constructor].
  - apply follows_ret_inv in Hf as [-> ->]. right. eexists. split; [done|constructor].
  - apply follows_call_inv in Hf as (i & o & es' & -> & Hf).
    destruct o as [x|e|s]; simpl in Hf; [| |by apply follows_err_inv in Hf];
      apply IH in Hf as [(a & -> & Hf)|(e' & -> & Hf)]; [left|right|left|right]; eexists; split; try done; by constructor.
Qed.

Definition ev_map {E F : Type -> Type} (f : ∀ X, E X -> F X) (e : @Event E) : @Event F :=
  match e with Ev i op r => Ev i (f _ op) r end.

Lemma follows_map_inv {E F : Type -> Type} (f : ∀ X, E X -> F X) {A} (p : Prog E A) es a :
  follows (prog_map f p) es (PRet a) -> ∃ es', es = ev_map f <$> es' ∧ follows p es' (PRet a).
Proof.
  revert es. induction p as [a0|e|X op k IH]; intros es Hf.
  - apply follows_ret_inv in Hf as [-> ->]. exists []. split; [done|constructor].
  - by apply follows_err_inv in Hf.
  - apply follows_call_inv in Hf as (i & o & es' & -> & Hf).
    assert (∃ es1, es' = ev_map f <$> es1 ∧ follows (resume k o) es1 (PRet a)) as (es1 & -> & H1).
    { destruct o as [x|e|s]; simpl in *; [by apply IH..|]. by apply follows_err_inv in Hf. }
    exists (Ev i op o :: es1). split; [done|]. by constructor.
Qed.

Lemma follows_wrap_inv {E : Type -> Type} {A} f (p : Prog E A) es a :
  follows (prog_wrap f p) es (PRet a) -> follows p es (PRet a).
Proof.
  unfold prog_wrap. intros (es1 & es2 & x & -> & [(y & -> & Hp)|(y & -> & Hp)]%follows_try_inv & Hf)%follows_bind_inv.
  - apply follows_ret_inv in Hf as [-> ->]. by rewrite app_nil_r.
  - by apply follows_err_inv in Hf.
Qed.


(** Every call a request makes, with what it was answered before. *)
Lemma calls_hist_at {E A} P es0 (p : Prog E A) es q es1 e es2 :
  calls_hist P es0 p -> follows p es q -> es = es1 ++ e :: es2 -> match e with Ev _ op _ => P (es0 ++ es1) _ op end.
Proof.
  intros Hc Hf. revert es0 es1 Hc. induction Hf as [p|i X op k r es q Hf IH]; intros es0 es1 Hc E0; [by destruct es1|].
  apply calls_hist_inv in Hc as [HP Hk]. destruct es1 as [|e' es1]; simpl in E0; injection E0 as <- E0.
  - by rewrite app_nil_r.
  - rewrite (cons_middle (Ev i op r) es0 es1), app_assoc. by apply IH.
Qed.

(** ** Rules for [calls_hist] and [calls_only] *)
Section rules.
Context {E : Type -> Type}.

Lemma calls_only_bind {A B} (P : ∀ X, E X -> Prop) (p : Prog E A) (f : A -> Prog E B) :
  calls_only P p -> (∀ a, calls_only P (f a)) -> calls_only P (p ≫= f).
Proof. intros Hp Hf. induction Hp; [apply Hf|constructor|]. by constructor. Qed.

Lemma calls_only_try {A} (P : ∀ X, E X -> Prop) (p : Prog E A) : calls_only P p -> calls_only P (prog_try p).
Proof. induction 1; by constructor. Qed.

Lemma calls_only_wrap {A} (P : ∀ X, E X -> Prop) f (p : Prog E A) : calls_only P p -> calls_only P (prog_wrap f p).
Proof. intros Hp. apply calls_only_bind; [by apply calls_only_try|]. intros [?|?]; constructor. Qed.

Lemma calls_only_map {F : Type -> Type} {A} (P : ∀ X, F X -> Prop) (f : ∀ X, E X -> F X) (p : Prog E A) :
  (∀ X op, P X (f X op)) -> calls_only P (prog_map f p).
Proof. intros Hf. induction p; by constructor. Qed.

Lemma calls_only_map_strong {F : Type -> Type} {A} (P : ∀ X, F X -> Prop) (Q : ∀ X, E X -> Prop) (f : ∀ X, E X -> F X)
    (p : Prog E A) : (∀ X op, Q X op -> P X (f X op)) -> calls_only Q p -> calls_only P (prog_map f p).
Proof. intros Hf. induction 1; constructor; auto. Qed.

Lemma calls_only_follows {A} (P : ∀ X, E X -> Prop) (p : Prog E A) es q :
  calls_only P p -> follows p es q -> Forall (fun e => match e with Ev _ op _ => P _ op end) es.
Proof.
  intros Hp Hf. induction Hf as [|i X op k r es q Hf IH]; [constructor|].
  apply calls_only_inv in Hp as [Hop Hk]. constructor; [done|]. apply IH. destruct r; [apply Hk..|constructor].
Qed.

Lemma calls_hist_calm {A} (P : list Event -> ∀ X, E X -> Prop) (C : ∀ X, E X -> Prop) (p : Prog E A) :
  (∀ es X op, C X op -> P es X op) -> calls_only C p -> ∀ es, calls_hist P es p.
Proof.
  intros HC. induction 1 as [|?|X op k Hop _ IH]; intros es; constructor; [auto|].
  intros i [x|e|s]; [apply IH..|constructor].
Qed.

Lemma calls_hist_bind {A B} (P : list Event -> ∀ X, E X -> Prop) (p : Prog E A) (f : A -> Prog E B) es :
  calls_hist P es p -> (∀ es' a, follows p es' (PRet a) -> calls_hist P (es ++ es') (f a)) -> calls_hist P es (p ≫= f).
Proof.
  intros Hp. induction Hp as [es a|es e|es X op k HP _ IH]; intros Hf.
  - specialize (Hf [] a (follows_nil _)). by rewrite app_nil_r in Hf.
  - constructor.
  - constructor; [done|]. intros i r. specialize (IH i r). destruct r as [x|e|s]; simpl in *; [..|constructor];
      apply IH; intros es' a Hfol; rewrite <- app_assoc; simpl; apply Hf; by constructor.
Qed.

Lemma calls_hist_try {A} (P : list Event -> ∀ X, E X -> Prop) (p : Prog E A) es :
  calls_hist P es p -> calls_hist P es (prog_try p).
Proof.
  induction 1 as [es a|es e|es X op k HP _ IH]; constructor; [done|].
  intros i r. specialize (IH i r). by destruct r; simpl in *; [..|constructor].
Qed.

Lemma calls_hist_wrap {A} (P : list Event -> ∀ X, E X -> Prop) f (p : Prog E A) es :
  calls_hist P es p -> calls_hist P es (prog_wrap f p).
Proof. intros Hp. apply calls_hist_bind; [by apply calls_hist_try|]. intros es' [?|?] _; constructor. Qed.
End rules.

(** Take a request that returned apart, answer by answer. *)
Ltac follow_step H :=
  lazymatch type of H with
  | follows (PRet _) _ (PRet _) => apply follows_ret_inv in H as [-> H]
  | follows (mret _) _ (PRet _) => apply follows_ret_inv in H as [-> H]
  | follows (PErr _) _ (PRet _) => by apply follows_err_inv in H
  | follows (_ ≫= _) _ (PRet _) =>
      let es1 := fresh "es" in let es2 := fresh "es" in let a := fresh "a" in let H1 := fresh H in
      apply follows_bind_inv in H as (es1 & es2 & a & -> & H1 & H); follow_step H1
  | follows (try_call _) _ (PRet _) =>
      let i := fresh "i" in let x := fresh "x" in
      apply follows_try_call_inv in H as [i [(x & -> & ->)|(x & -> & ->)]]
  | follows (call _) _ (PRet _) => let i := fresh "i" in apply follows_call_op_inv in H as [i ->]
  | follows (call_wrap _ _) _ (PRet _) => let i := fresh "i" in apply follows_call_wrap_inv in H as [i ->]
  | follows (prog_try _) _ (PRet _) =>
      let x := fresh "x" in apply follows_try_inv in H as [(x & -> & H)|(x & -> & H)]
  | _ => idtac
  end.

(** ** Invariants that mention the step counter

    [P n db] speaks of the database and of the ids the server has not handed out
    by step [n]. *)
Section stepped.
Context `{Env} (P : nat -> DB -> Prop) (P_later : ∀ n n' db, P n db -> (n <= n')%nat -> P n' db).

Definition keepsN {A} (m : M A) : Prop := ∀ ctx w r w',
  m ctx w = (r, w') -> P (w_step w) (w_db w) -> (w_step w <= w_step w')%nat ∧ P (w_step w') (w_db w').

Lemma keepsN_ret {A} (a : A) : keepsN (mret a).
Proof. intros ctx w r w' [= <- <-]. done. Qed.

Lemma keepsN_raise {A} e : keepsN (raise (A := A) e).
Proof. intros ctx w r w' [= <- <-]. done. Qed.

Lemma keepsN_lift {A} (o : outcome A) : keepsN (lift o).
Proof. intros ctx w r w' [= <- <-]. done. Qed.

Lemma keepsN_bind {A B} (m : M A) (k : A -> M B) : keepsN m -> (∀ a, keepsN (k a)) -> keepsN (m ≫= k).
Proof.
  intros Hm Hk ctx w r w' Hrun HP. apply bind_inv in Hrun as [(a & w1 & H1 & H2)|(_ & r0 & H1 & _)].
  - destruct (Hm _ _ _ _ H1 HP) as [Hle1 HP1]. destruct (Hk a _ _ _ _ H2 HP1) as [Hle2 HP2]. split; [lia|done].
  - by apply (Hm _ _ _ _ H1).
Qed.

Lemma keepsN_attempt {A} (m : M A) : keepsN m -> keepsN (attempt m).
Proof.
  intros Hm ctx w r w' Hrun. unfold attempt in Hrun. destruct (m ctx w) as [r0 w0] eqn:E1.
  assert (w' = w0) as -> by (destruct r0; naive_solver). by apply (Hm _ _ _ _ E1).
Qed.

Lemma keepsN_wrap_err {A} f (m : M A) : keepsN m -> keepsN (wrap_err f m).
Proof.
  intros Hm ctx w r w' Hrun. unfold wrap_err in Hrun. destruct (m ctx w) as [r0 w0] eqn:E1.
  assert (w' = w0) as -> by (destruct r0; naive_solver). by apply (Hm _ _ _ _ E1).
Qed.

(** What asks the oracles once and does not touch the tables. *)
Lemma keepsN_tick {A} (m : M A) :
  (∀ ctx w, w_db (snd (m ctx w)) = w_db w ∧ (w_step w <= w_step (snd (m ctx w)))%nat) -> keepsN m.
Proof.
  intros Hm ctx w r w' Hrun HP. destruct (Hm ctx w) as [Hdb Hle]. rewrite Hrun in Hdb, Hle. simpl in *.
  split; [done|]. rewrite Hdb. by eapply P_later.
Qed.

Lemma keepsN_UTCNow : keepsN UTCNow.
Proof. apply keepsN_tick. intros ctx w. simpl. split; [done|lia]. Qed.

Lemma keepsN_sql {A} (f : Stmt -> DB -> outcome (A * DB)) :
  (∀ n ctx db a db', P n db -> f (stmt_of ctx n) db = Ok (a, db') -> P (S n) db') -> keepsN (sql f).
Proof.
  intros Hf ctx w r w' Hrun HP. unfold sql in Hrun.
  destruct (env_fault _); [injection Hrun as <- <-; simpl; split; [lia|eapply P_later; eauto]|].
  destruct (f _ _) as [[a db']|e|s] eqn:Ef; injection Hrun as <- <-; simpl;
    (split; [lia|]); [by eapply Hf|eapply P_later; eauto..].
Qed.

Lemma keepsN_query {A} (f : DB -> A) : keepsN (query f).
Proof. apply keepsN_sql. intros n ctx db a db' HP [= <- <-]. eapply P_later; eauto. Qed.

Lemma keepsN_for_each {A} (f : A -> M unit) l : (∀ x, keepsN (f x)) -> keepsN (for_each f l).
Proof.
  intros Hf. induction l as [|x l IH]; simpl; [apply keepsN_ret|]. by apply keepsN_bind.
Qed.

Lemma keepsN_WithinTx {A} (fn : M A) : keepsN fn -> keepsN (WithinTx fn).
Proof.
  intros Hfn ctx w r w' Hrun HP. unfold WithinTx, TxFromContext, rollback in Hrun.
  destruct (ctx_tx ctx) as [t|]; [by eapply Hfn|].
  destruct (env_fault (w_step w)) as [f|]; [injection Hrun as <- <-; simpl; split; [lia|eapply P_later; eauto]|].
  destruct (fn _ (tick w)) as [r1 w2] eqn:Efn.
  destruct (Hfn _ _ _ _ Efn) as [Hle HP2]; [simpl; eapply P_later; eauto|]. simpl in Hle.
  destruct r1 as [a|e|s]; simpl in Hrun; destruct (env_fault (w_step w2)); injection Hrun as <- <-; simpl;
    (split; [lia|]); eapply P_later; eauto; lia.
Qed.
End stepped.

#[export] Hint Resolve keepsN_ret keepsN_raise keepsN_lift keepsN_attempt keepsN_wrap_err keepsN_UTCNow keepsN_query
  keepsN_WithinTx : inv.
