(* ===== verification/Crypto.v ===== *)
(** * Tokens, codes and authenticated data (internal/utils/xcripto, pkg/secrets/aad.go)

    Opaque tokens, six-digit codes drawn by rejection, and the length-prefixed
    encoding that binds an envelope to its place.  The random device is a
    parameter: the bytes it delivers to a reading before it fails. *)
From Stdlib Require Import ZArith Lia Ascii String.
From stdpp Require Import base sorting sets strings numbers list.
From S2P Require Import Prelude Go Sha256 Entity Conflict AuditTrail Schema.
Open Scope Z_scope.

(** ** encoding/base64 *)

Definition base64_alphabet : list ascii :=
  bytes "ABCDEFGHIJKLMNOPQRSTUVWXYZabcdefghijklmnopqrstuvwxyz0123456789-_".
Definition b64 (n : N) : ascii := nth (N.to_nat n) base64_alphabet "="%char.
(** [base64.URLEncoding.EncodeToString], three bytes at a time. *)
Fixpoint base64_url (l : list ascii) : list ascii :=
  match l with
  | [] => []
  | [a] => let n := (N_of_ascii a * 16)%N in [b64 (n / 64); b64 (n mod 64); "="%char; "="%char]
  | [a; b] =>
      let n := ((N_of_ascii a * 256 + N_of_ascii b) * 4)%N in
      [b64 (n / 4096); b64 (n / 64 mod 64); b64 (n mod 64); "="%char]
  | a :: b :: c :: l' =>
      let n := ((N_of_ascii a * 256 + N_of_ascii b) * 256 + N_of_ascii c)%N in
      [b64 (n / 262144); b64 (n / 4096 mod 64); b64 (n / 64 mod 64); b64 (n mod 64)] ++ base64_url l'
  end.
Example base64_url_ex : base64_url (bytes "light wo?") = bytes "bGlnaHQgd28_" ∧ base64_url (bytes "a") = bytes "YQ==".
Proof. vm_compute. done. Qed.

(** ** The random device *)

Class Entropy := { entropy : nat -> list ascii }.
(** [io.ReadFull] of [k] bytes. *)
Definition read_full (k : nat) (src : list ascii) : option (list ascii * list ascii) :=
  if Nat.leb k (length src) then Some (take k src, drop k src) else None.

Section random.
Context `{Env} `{Entropy}.

(** xcripto.GenerateToken *)
Definition GenerateToken (length : nat) : M (string * string) := fun _ w =>
  (match read_full length (entropy (w_step w)) with
   | Some (b, _) => let raw := string_of_list_ascii (base64_url b) in Ok (raw, HashSha256 (bytes raw))
   | None => Err (Errorf "generate token bytes" (EOther "EOF"))
   end, tick w).

Definition otpCodeDigits : nat := 6.
Definition otpCodeSpace : Z := 1000000.
Definition otpRejectionCeiling : Z := 2 ^ 32 - 2 ^ 32 mod otpCodeSpace.

(** [binary.BigEndian.Uint32] *)
Definition uint32 (b : list ascii) : Z := foldl (fun n c => n * 256 + Z.of_N (N_of_ascii c)) 0 b.
(** [fmt.Sprintf("%0*d", k, n)] for a number of at most [k] digits. *)
Fixpoint fixed_digits (k : nat) (n : Z) : list ascii :=
  match k with
  | O => []
  | S k' => fixed_digits k' (n / 10) ++ [ascii_of_N (48 + Z.to_N (n mod 10))]
  end.
Definition otp_code (n : Z) : string := string_of_list_ascii (fixed_digits otpCodeDigits (n mod otpCodeSpace)).
(** The loop reads four bytes a round, so the bytes at hand bound the rounds. *)
Fixpoint otp_loop (rounds : nat) (src : list ascii) : string + error :=
  match rounds, read_full 4 src with
  | S rounds', Some (buf, src') =>
      let n := uint32 buf in
      if otpRejectionCeiling <=? n then otp_loop rounds' src' else inl (otp_code n)
  | _, _ => inr (Errorf "generate otp code bytes" (EOther "EOF"))
  end.
Definition generateOTPCode (src : list ascii) : (string * string) + error :=
  match otp_loop (length src) src with
  | inl code => inl (code, HashSha256 (bytes code))
  | inr e => inr e
  end.
Definition GenerateOTPCode : M (string * string) := fun _ w =>
  (match generateOTPCode (entropy (w_step w)) with inl r => Ok r | inr e => Err e end, tick w).
End random.

(** ** pkg/secrets/aad.go *)

Definition aadDomainOTPCode : string := "maintmode/otp-code/v2".
Definition aadDomainSecret : string := "maintmode/integration-secret/v2".
Definition aadDomainSecretClient : string := "maintmode/integration-secret-client/v2".
Definition aadDomainDEKWrap : string := "maintmode/dek-wrap/v2".

(** [binary.AppendUvarint]: ten rounds cover 64 bits. *)
Fixpoint uvarint (rounds : nat) (x : N) : list ascii :=
  match rounds with
  | O => []
  | S r => if (x <? 128)%N then [ascii_of_N x] else ascii_of_N (128 + x mod 128) :: uvarint r (x / 128)
  end.
Definition aad_part (p : string) : list ascii := uvarint 10 (N.of_nat (length (bytes p))) ++ bytes p.
Definition encodeAAD (domain : string) (parts : list string) : list ascii := (domain :: parts) ≫= aad_part.
Definition SecretAAD (kind secretKey : string) : list ascii := encodeAAD aadDomainSecret [kind; secretKey].
Definition SecretAADForClient (kind secretKey issuerURL clientID : string) : list ascii :=
  encodeAAD aadDomainSecretClient [kind; secretKey; issuerURL; clientID].
Definition DEKWrapAAD (kekID : string) : list ascii := encodeAAD aadDomainDEKWrap [kekID].
Definition OTPCodeAAD (credentialID : string) : list ascii := encodeAAD aadDomainOTPCode [credentialID].

(** ** Codes are uniform *)

Example fixed_digits_ex : fixed_digits 6 407 = padded 6 407 ∧ fixed_digits 6 0 = padded 6 0 ∧ fixed_digits 6 999999 = padded 6 999999.
Proof. vm_compute. done. Qed.

Lemma length_fixed_digits k n : length (fixed_digits k n) = k.
Proof. revert n. induction k as [|k IH]; intros n; simpl; [done|]. rewrite length_app, IH. simpl. lia. Qed.

Lemma digit_value n : N_of_ascii (ascii_of_N (48 + Z.to_N (n mod 10))) = (48 + Z.to_N (n mod 10))%N.
Proof. apply N_ascii_embedding. pose proof (Z.mod_pos_bound n 10 ltac:(lia)). lia. Qed.

Lemma fixed_digits_chars k n c : c ∈ fixed_digits k n -> (48 <= N_of_ascii c < 58)%N.
Proof.
  revert n. induction k as [|k IH]; intros n; simpl; [by intros ?%elem_of_nil|].
  intros [?|Hc]%elem_of_app; [eauto|]. apply list_elem_of_singleton in Hc as ->. rewrite digit_value.
  pose proof (Z.mod_pos_bound n 10 ltac:(lia)). lia.
Qed.

Lemma fixed_digits_inj k m n :
  0 <= m < 10 ^ Z.of_nat k -> 0 <= n < 10 ^ Z.of_nat k -> fixed_digits k m = fixed_digits k n -> m = n.
Proof.
  revert m n. induction k as [|k IH]; intros m n Hm Hn; simpl; [simpl in *; lia|].
  rewrite Nat2Z.inj_succ, Z.pow_succ_r in Hm, Hn by lia. intros [Hq Hr]%app_inj_tail.
  apply (f_equal N_of_ascii) in Hr. rewrite !digit_value in Hr.
  apply IH in Hq; [|split; [apply Z.div_pos; lia|apply Z.div_lt_upper_bound; lia]..].
  pose proof (Z.mod_pos_bound m 10 ltac:(lia)). pose proof (Z.mod_pos_bound n 10 ltac:(lia)).
  rewrite (Z.div_mod m 10), (Z.div_mod n 10) by lia. lia.
Qed.

Lemma otp_code_inj m n : otp_code m = otp_code n -> m mod otpCodeSpace = n mod otpCodeSpace.
Proof.
  intros E%(f_equal bytes). unfold otp_code, bytes in E. rewrite !list_ascii_of_string_of_list_ascii in E.
  apply fixed_digits_inj in E; [done|..]; apply Z.mod_pos_bound; done.
Qed.

Lemma uint32_range b : length b = 4%nat -> 0 <= uint32 b < 2 ^ 32.
Proof.
  destruct b as [|c1 [|c2 [|c3 [|c4 [|]]]]]; try done. intros _. unfold uint32. simpl.
  pose proof (N_ascii_bounded c1). pose proof (N_ascii_bounded c2). pose proof (N_ascii_bounded c3). pose proof (N_ascii_bounded c4).
  lia.
Qed.

Lemma otp_loop_Ok rounds src code :
  otp_loop rounds src = inl code -> ∃ buf, length buf = 4%nat ∧ uint32 buf < otpRejectionCeiling ∧ code = otp_code (uint32 buf).
Proof.
  revert src. induction rounds as [|r IH]; intros src; simpl; [done|]. unfold read_full.
  destruct (Nat.leb_spec 4 (length src)) as [Hl|]; [|done].
  destruct (Z.leb_spec otpRejectionCeiling (uint32 (take 4 src))) as [?|?]; [apply IH|].
  intros [= <-]. exists (take 4 src). split_and!; [rewrite length_take; lia|done|done].
Qed.

Lemma read_full_app (a b : list ascii) k : length a = k -> read_full k (a ++ b) = Some (a, b).
Proof.
  intros <-. unfold read_full. rewrite length_app.
  destruct (Nat.leb_spec (length a) (length a + length b)); [|lia]. by rewrite take_app_length, drop_app_length.
Qed.

(** Draws above the ceiling are skipped, the next one counts. *)
Lemma otp_loop_skips ws buf rest rounds :
  Forall (fun b => length b = 4%nat ∧ otpRejectionCeiling <= uint32 b) ws -> length buf = 4%nat ->
  uint32 buf < otpRejectionCeiling -> (length ws < rounds)%nat ->
  otp_loop rounds (concat ws ++ buf ++ rest) = inl (otp_code (uint32 buf)).
Proof.
  intros Hws Hb Hlt. revert rounds. induction Hws as [|b ws [Hl Hge] _ IH]; intros [|rounds] Hr; simpl in Hr; [lia| |lia|].
  - cbn [concat app otp_loop]. rewrite read_full_app by done. by destruct (Z.leb_spec otpRejectionCeiling (uint32 buf)); [lia|].
  - cbn [concat]. rewrite <- app_assoc. cbn [otp_loop]. rewrite read_full_app by done.
    destruct (Z.leb_spec otpRejectionCeiling (uint32 b)); [|lia]. apply IH. lia.
Qed.

(** A code is six decimal digits, and no code is likelier than another: of
    the 32-bit draws that are accepted, exactly 4294 give each of the million
    codes.  Draws at or above the ceiling are skipped, and the first one below it
    decides, however many were skipped. *)
Theorem generateOTPCode_uniform :
  (∀ src code hash, generateOTPCode src = inl (code, hash) ->
     length (bytes code) = 6%nat ∧ (∀ c, c ∈ bytes code -> (48 <= N_of_ascii c < 58)%N) ∧
     hash = HashSha256 (bytes code)) ∧
  (∀ ws buf rest, Forall (fun b => length b = 4%nat ∧ otpRejectionCeiling <= uint32 b) ws -> length buf = 4%nat ->
     uint32 buf < otpRejectionCeiling ->
     generateOTPCode (concat ws ++ buf ++ rest) =
       inl (otp_code (uint32 buf), HashSha256 (bytes (otp_code (uint32 buf))))) ∧
  (∀ c n, 0 <= c < otpCodeSpace -> 0 <= n < 2 ^ 32 ->
     (n < otpRejectionCeiling ∧ otp_code n = otp_code c ↔ ∃ k, 0 <= k < 4294 ∧ n = c + otpCodeSpace * k)).
Proof.
  split_and!.
  - intros src code hash. unfold generateOTPCode. destruct (otp_loop _ src) as [c|] eqn:E; [|done]. intros [= <- <-].
    apply otp_loop_Ok in E as (buf & _ & _ & ->). unfold otp_code, bytes. rewrite list_ascii_of_string_of_list_ascii.
    split_and!; [apply length_fixed_digits|intros c; apply fixed_digits_chars|done].
  - intros ws buf rest Hws Hb Hlt. unfold generateOTPCode. rewrite otp_loop_skips; [done..|].
    rewrite !length_app, Hb. clear -Hws. induction Hws as [|b ws [Hl _] _ IH]; simpl; [lia|]. rewrite length_app. lia.
  - intros c n Hc Hn. change otpRejectionCeiling with (4294 * otpCodeSpace). split.
    + intros [Hlt E%otp_code_inj]. rewrite (Z.mod_small c) in E by done. exists (n / otpCodeSpace).
      unfold otpCodeSpace in *. pose proof (Z.div_mod n 1000000 ltac:(lia)) as Hd. pose proof (Z.mod_pos_bound n 1000000 ltac:(lia)).
      split; [|lia]. lia.
    + intros (k & Hk & ->). unfold otpCodeSpace in *. split; [lia|]. unfold otp_code, otpCodeSpace.
      by rewrite Z.mul_comm, Z.mod_add by lia.
Qed.

(** ** The encoding is injective *)

Fixpoint uvarint_decode (rounds : nat) (s : list ascii) : option (N * list ascii) :=
  match rounds, s with
  | S r, c :: s' =>
      let n := N_of_ascii c in
      if (n <? 128)%N then Some (n, s')
      else match uvarint_decode r s' with
           | Some (m, s'') => Some ((n - 128) + 128 * m, s'')%N
           | None => None
           end
  | _, _ => None
  end.
(** The parts of an encoding, with as many rounds as there are bytes. *)
Fixpoint decodeAAD (rounds : nat) (s : list ascii) : option (list string) :=
  match s, rounds with
  | [], _ => Some []
  | _, O => None
  | _, S r =>
      match uvarint_decode 10 s with
      | Some (n, s') =>
          cons (string_of_list_ascii (take (N.to_nat n) s')) <$> decodeAAD r (drop (N.to_nat n) s')
      | None => None
      end
  end.

Lemma uvarint_decode_app r x s :
  (x < 128 ^ N.of_nat (S r))%N -> uvarint_decode (S r) (uvarint (S r) x ++ s) = Some (x, s).
Proof.
  revert x. induction r as [|r IH]; intros x Hx; cbn [uvarint];
    (destruct (N.ltb_spec x 128) as [Hlt|Hge]; cbn [app];
     [cbn [uvarint_decode]; rewrite N_ascii_embedding by lia; by destruct (N.ltb_spec x 128); [|lia]|]).
  - simpl in Hx. lia.
  - pose proof (N.mod_lt x 128 ltac:(done)). change (uvarint_decode (S (S r)) ?l) with
      (match l with c :: s' => if (N_of_ascii c <? 128)%N then Some (N_of_ascii c, s')
         else match uvarint_decode (S r) s' with
              | Some (m, s'') => Some ((N_of_ascii c - 128) + 128 * m, s'')%N | None => None end
       | [] => None end). cbv beta iota.
    rewrite N_ascii_embedding by lia.
    rewrite (proj2 (N.ltb_ge (128 + x mod 128) 128)) by apply N.le_add_r.
    change (if (x / 128 <? 128)%N then [ascii_of_N (x / 128)] else _) with (uvarint (S r) (x / 128)). rewrite IH.
    + do 2 f_equal. rewrite (N.add_comm 128), N.add_sub, N.add_comm. symmetry. by apply N.div_mod.
    + apply N.Div0.div_lt_upper_bound. rewrite Nnat.Nat2N.inj_succ, N.pow_succ_r' in Hx. lia.
Qed.

Lemma uvarint_length rounds x : (0 < rounds)%nat -> (1 <= length (uvarint rounds x))%nat.
Proof. destruct rounds; [lia|]. simpl. destruct (x <? 128)%N; simpl; lia. Qed.

(** Every string in memory is shorter than this. *)
Definition fits_memory (s : string) : Prop := (N.of_nat (length (bytes s)) < 128 ^ 10)%N.

Lemma decodeAAD_parts l rounds :
  Forall fits_memory l -> (length (l ≫= aad_part) <= rounds)%nat -> decodeAAD rounds (l ≫= aad_part) = Some l.
Proof.
  revert rounds. induction l as [|p l IH]; intros rounds Hl Hr; [by destruct rounds|].
  apply Forall_cons in Hl as [Hp Hl]. rewrite bind_cons in Hr |- *. unfold aad_part at 1 in Hr. unfold aad_part at 1.
  rewrite !length_app in Hr. pose proof (uvarint_length 10 (N.of_nat (length (bytes p))) ltac:(lia)) as Hu.
  destruct rounds as [|r]; [lia|]. cbn [decodeAAD]. rewrite <- app_assoc, uvarint_decode_app by done.
  rewrite Nnat.Nat2N.id, take_app_length, drop_app_length, IH by (done || lia).
  unfold bytes at 3. rewrite string_of_list_ascii_of_string.
  destruct (uvarint 10 _); [simpl in Hu; lia|done].
Qed.

(** The authenticated data of an envelope determines its domain and every
    field: decoding gives them back, so different places never share it and no
    field can be moved across a boundary. *)
Theorem encodeAAD_roundtrip domain parts :
  Forall fits_memory (domain :: parts) ->
  decodeAAD (length (encodeAAD domain parts)) (encodeAAD domain parts) = Some (domain :: parts).
Proof. intros Hl. by apply decodeAAD_parts. Qed.

Lemma encodeAAD_roundtrip_witness :
  Forall fits_memory [aadDomainOTPCode; "0198c0de"%string] ∧
  decodeAAD (length (OTPCodeAAD "0198c0de")) (OTPCodeAAD "0198c0de") = Some [aadDomainOTPCode; "0198c0de"%string].
Proof.
  assert (Forall fits_memory [aadDomainOTPCode; "0198c0de"%string]) as Hf.
  { repeat constructor; unfold fits_memory; vm_compute; reflexivity. }
  split; [exact Hf|]. exact (encodeAAD_roundtrip _ _ Hf).
Defined.
