(* ===== verification/Like.v ===== *)
(** * Searching by name: LIKE and its escaping (internal/utils/xsql)

    The search boxes of the catalogs build a LIKE pattern from what the user
    typed.  [like] is PostgreSQL's operator; [search] the expression the stores
    use; the theorem says a search means what it looks like. *)
From Stdlib Require Import ZArith Lia Ascii String.
From stdpp Require Import base sorting sets strings numbers list.
From S2P Require Import Prelude Go Entity Conflict AuditTrail Schema.
Open Scope Z_scope.

Definition backslash : ascii := "\"%char.
Definition percent : ascii := "%"%char.
Definition underscore : ascii := "_"%char.
Definition special (c : ascii) : bool :=
  bool_decide (c = backslash) || bool_decide (c = percent) || bool_decide (c = underscore).

(** likeEscaper: one pass over the text. *)
Definition escape (s : list ascii) : list ascii := s ≫= fun c => if special c then [backslash; c] else [c].
#[global] Arguments escape : simpl never.
Definition EscapeLike (s : string) : string := string_of_list_ascii (escape (bytes s)).

(** ** The operator *)

Inductive token := Lit (c : ascii) | AnyOne | AnyMany.
(** A pattern that ends in a lone backslash is an error of the server. *)
Fixpoint parse_like (p : list ascii) : option (list token) :=
  match p with
  | [] => Some []
  | c :: p' =>
      if bool_decide (c = backslash) then
        match p' with
        | d :: p'' => cons (Lit d) <$> parse_like p''
        | [] => None
        end
      else cons (if bool_decide (c = percent) then AnyMany
                 else if bool_decide (c = underscore) then AnyOne else Lit c) <$> parse_like p'
  end.
Fixpoint like_match (p : list token) (s : list ascii) : bool :=
  match p with
  | [] => bool_decide (s = [])
  | Lit c :: p' => match s with d :: s' => bool_decide (c = d) && like_match p' s' | [] => false end
  | AnyOne :: p' => match s with
                    | [] => false
                    | _ => like_match p' (drop (FromPtr 1%nat (rune_len s)) s)
                    end
  | AnyMany :: p' => existsb (fun k => like_match p' (drop k s)) (seq 0 (S (length s)))
  end.
Definition like (s p : string) : option bool := (fun p => like_match p (bytes s)) <$> parse_like (bytes p).

(** LOWER(column) LIKE LOWER('%' || EscapeLike(query) || '%').  The pattern is
    never malformed; [None] would be a failed statement. *)
Definition search_pattern `{Collation} (q : string) : string := pg_lower ("%" +:+ EscapeLike q +:+ "%").
Definition search `{Collation} (column q : string) : bool :=
  FromPtr false (like (pg_lower column) (search_pattern q)).

(** What the collations in use have in common: the three characters are lowered
    to themselves wherever they stand, and come from nothing else. *)
Class CollationSpec `{Collation} : Prop := {
  cmp_order :: CmpOrder pg_cmp;
  cmp_eq : ∀ s t, pg_cmp s t = Eq -> s = t;
  lower_empty : pg_lower "" = ""%string;
  lower_special : ∀ s c t, special c = true -> pg_lower (s +:+ String c t) = pg_lower s +:+ String c (pg_lower t);
  lower_ordinary : ∀ s c, special c = true -> c ∈ bytes (pg_lower s) -> c ∈ bytes s }.

(** ** Lemmas *)

Lemma bytes_app s t : bytes (s +:+ t) = bytes s ++ bytes t.
Proof. induction s as [|c s IH]; simpl; [done|]. by f_equal. Qed.

Lemma bytes_of_list l : bytes (string_of_list_ascii l) = l.
Proof. apply list_ascii_of_string_of_list_ascii. Qed.

Lemma escape_cons c q : escape (c :: q) = (if special c then [backslash; c] else [c]) ++ escape q.
Proof. apply bind_cons. Qed.

Lemma parse_escape q p : parse_like (escape q ++ p) = app (Lit <$> q) <$> parse_like p.
Proof.
  induction q as [|c q IH]; [by change (escape []) with (@nil ascii); simpl; destruct (parse_like p)|].
  rewrite escape_cons. destruct (special c) eqn:Es.
  - change (cons (Lit c) <$> parse_like (escape q ++ p) = app (Lit <$> c :: q) <$> parse_like p).
    rewrite IH. by destruct (parse_like p).
  - apply orb_false_iff in Es as [[H1%bool_decide_eq_false H2%bool_decide_eq_false]%orb_false_iff H3%bool_decide_eq_false].
    rewrite <- app_assoc. cbn [app parse_like]. rewrite !(bool_decide_false (c = _)) by done.
    rewrite IH. by destruct (parse_like p).
Qed.

Lemma like_match_many p s : like_match (AnyMany :: p) s = true ↔ ∃ k, like_match p (drop k s) = true.
Proof.
  cbn [like_match]. rewrite existsb_exists. split; [naive_solver|].
  intros [k Hk]. destruct (decide (k <= length s)%nat) as [Hle|Hgt].
  - exists k. split; [|done]. apply in_seq. lia.
  - exists (length s). split; [apply in_seq; lia|]. rewrite drop_ge in Hk |- * by lia. done.
Qed.

Lemma like_match_lits q p s : like_match ((Lit <$> q) ++ p) s = true ↔ ∃ t, s = q ++ t ∧ like_match p t = true.
Proof.
  revert s. induction q as [|c q IH]; intros s; simpl; [naive_solver|].
  destruct s as [|d s]; [naive_solver|]. rewrite andb_true_iff, bool_decide_eq_true, IH. naive_solver.
Qed.

(** A pattern of literal text between two wildcards finds that text. *)
Lemma like_contains q s : like_match (AnyMany :: (Lit <$> q) ++ [AnyMany]) s = true ↔ ∃ a b, s = a ++ q ++ b.
Proof.
  rewrite like_match_many. split.
  - intros (k & (t & Hd & _)%like_match_lits). exists (take k s), t. by rewrite <- Hd, take_drop.
  - intros (a & b & ->). exists (length a). rewrite drop_app_length. apply like_match_lits. exists b. split; [done|].
    apply like_match_many. exists (length b). by rewrite drop_ge.
Qed.

Lemma escape_app s t : escape (s ++ t) = escape s ++ escape t.
Proof. apply bind_app. Qed.

Lemma escape_ordinary s : (∀ c, c ∈ s -> special c = false) -> escape s = s.
Proof.
  induction s as [|c s IH]; intros Hs; [done|]. rewrite escape_cons, (Hs c) by set_solver.
  simpl. f_equal. apply IH. set_solver.
Qed.

(** A text cut at its first special character. *)
Lemma cut_special q :
  (∀ c, c ∈ bytes q -> special c = false) ∨
  ∃ s d t, q = s +:+ String d t ∧ special d = true ∧ ∀ c, c ∈ bytes s -> special c = false.
Proof.
  induction q as [|c q [IH|(s & d & t & -> & Hd & Hs)]]; [left; intros c Hc; by apply elem_of_nil in Hc|..].
  - destruct (special c) eqn:E; [right; exists ""%string, c, q; split_and!; [done|done|intros ? Hn; by apply elem_of_nil in Hn]|].
    left. intros d [->|Hd]%elem_of_cons; [done|by apply IH].
  - right. destruct (special c) eqn:E.
    + exists ""%string, c, (s +:+ String d t). split_and!; [done|done|]. intros ? Hn. by apply elem_of_nil in Hn.
    + exists (String c s), d, t. split_and!; [done|done|]. intros e [->|He]%elem_of_cons; [done|by apply Hs].
Qed.

Section collation.
Context `{!Collation} `{!CollationSpec}.

Lemma lower_ordinary_all s :
  (∀ c, c ∈ bytes s -> special c = false) -> ∀ c, c ∈ bytes (pg_lower s) -> special c = false.
Proof. intros Hs c Hc. destruct (special c) eqn:E; [|done]. by rewrite <- E, (Hs c) by by eapply lower_ordinary. Qed.

(** Lowering and escaping commute. *)
Lemma lower_escape q : bytes (pg_lower (EscapeLike q)) = escape (bytes (pg_lower q)).
Proof.
  induction q as [q IH] using (induction_ltof1 _ String.length). unfold ltof in IH.
  destruct (cut_special q) as [Hno|(s & d & t & -> & Hd & Hs)].
  - rewrite escape_ordinary by by apply lower_ordinary_all. do 2 f_equal. apply bytes_inj. unfold EscapeLike.
    rewrite bytes_of_list. by apply escape_ordinary.
  - assert (EscapeLike (s +:+ String d t) = s +:+ String backslash ("" +:+ String d (EscapeLike t))) as ->.
    { apply bytes_inj. unfold EscapeLike. rewrite bytes_of_list, !bytes_app. simpl. rewrite bytes_of_list, escape_app.
      rewrite (escape_ordinary (bytes s)) by done. rewrite escape_cons, Hd. done. }
    rewrite !lower_special, lower_empty by done. rewrite !bytes_app, escape_app. simpl.
    rewrite (escape_ordinary (bytes (pg_lower s))) by by apply lower_ordinary_all.
    rewrite escape_cons, Hd, IH; [done|]. clear. induction s; simpl; lia.
Qed.

(** A search finds exactly the rows whose lowered column contains the lowered
    query: no character of the query acts as a wildcard, and the pattern is never
    malformed. *)
Theorem search_correct column q :
  is_Some (like (pg_lower column) (search_pattern q)) ∧
  (search column q = true ↔
   ∃ a b, bytes (pg_lower column) = a ++ bytes (pg_lower q) ++ b).
Proof.
  assert (parse_like (bytes (search_pattern q)) = Some (AnyMany :: (Lit <$> bytes (pg_lower q)) ++ [AnyMany])) as E.
  { unfold search_pattern. change ("%" +:+ EscapeLike q +:+ "%") with ("" +:+ String percent (EscapeLike q +:+ String percent "")).
    rewrite !lower_special, lower_empty by done. rewrite !bytes_app. simpl. rewrite bytes_app, lower_escape. simpl.
    by rewrite parse_escape. }
  unfold search, like. rewrite E. split; [by eexists|]. apply like_contains.
Qed.
End collation.

(** The C collation, which lowers the letters of ASCII. *)
Definition c_collation : Collation := {|
  pg_lower := fun s => string_of_list_ascii (lower_byte <$> bytes s);
  pg_cmp := fun s t => bytes_Compare (bytes s) (bytes t) |}.
Lemma lower_byte_special c : special (lower_byte c) = true -> lower_byte c = c.
Proof. destruct c as [[] [] [] [] [] [] [] []]; vm_compute; done. Qed.
Lemma special_lower_byte c : special c = true -> lower_byte c = c.
Proof. destruct c as [[] [] [] [] [] [] [] []]; vm_compute; done. Qed.
Lemma c_collation_spec : @CollationSpec c_collation.
Proof.
  split; simpl; [| |done|..].
  - apply (cmp_on_order bytes), _.
  - intros s t ?%bytes_Compare_eq. by apply bytes_inj.
  - intros s c t Hc. apply bytes_inj. rewrite bytes_app. simpl. rewrite !bytes_of_list, bytes_app, fmap_app. simpl.
    by rewrite !bytes_of_list, special_lower_byte.
  - intros s c Hc. rewrite bytes_of_list. intros (d & -> & Hd)%list_elem_of_fmap. by rewrite lower_byte_special.
Qed.

Lemma search_correct_witness :
  @search c_collation "Ledger_50% (eu)" "R_50%" = true ∧ @search c_collation "ledger 500 eu" "R_50%" = false ∧
  ∃ a b, bytes (@pg_lower c_collation "Ledger_50% (eu)") = a ++ bytes (@pg_lower c_collation "R_50%") ++ b.
Proof.
  split; [vm_compute; done|]. split; [vm_compute; done|].
  apply (proj2 (@search_correct c_collation c_collation_spec "Ledger_50% (eu)" "R_50%")). vm_compute. done.
Defined.
