(* ===== verification/Validation.v ===== *)
(** * Command validation (services/maint/create_draft.go,
      services/maint/update_maint.go and internal/utils/xvalidation)

    The rules are those of ozzo-validation, a library: each rule the code uses
    is a parameter, at each type it is used at, that answers whether a value
    passes.  A struct is valid when every rule of every field passes; [Each]
    runs its rules on every element. *)
From Stdlib Require Import ZArith Lia Ascii String.
From stdpp Require Import base sorting sets strings numbers list.
From S2P Require Import Prelude Go Entity Conflict AuditTrail Schema Logic.
Open Scope Z_scope.

Record ParsedURL := mkParsedURL { pu_Hostname : string; pu_Scheme : string; pu_User : bool }.

Class Ozzo := {
  Required_string : string -> bool;
  Required_uuid : UUID -> bool;
  Required_int : Z -> bool;
  Required_time : Time -> bool;
  Required_period : Period -> bool;
  Required_slice : nat -> bool;
  NilOrNotEmpty_string : option string -> bool;
  NilOrNotEmpty_uuid : option UUID -> bool;
  NilOrNotEmpty_time : option Time -> bool;
  Length : Z -> Z -> nat -> bool;
  Min : Z -> Z -> bool;
  In_string : list string -> string -> bool;
  (** net/url.Parse *)
  url_Parse : string -> option ParsedURL }.

(** What the library documents: [Required] refuses an empty value, and the
    other rules let an empty value pass. *)
Class OzzoSpec `{Ozzo} : Prop := {
  Required_string_spec : ∀ s, Required_string s = true -> s ≠ ""%string;
  Required_int_spec : ∀ n, Required_int n = true -> n ≠ 0;
  Required_slice_spec : ∀ n, Required_slice n = true -> n ≠ 0%nat;
  Length_spec : ∀ lo hi n, Length lo hi n = true -> n ≠ 0%nat -> lo <= Z.of_nat n <= hi;
  Min_spec : ∀ k n, Min k n = true -> n ≠ 0 -> k <= n;
  In_string_spec : ∀ l s, In_string l s = true ↔ s = ""%string ∨ s ∈ l }.

Definition maxSteps : Z := 100.
Definition minSteps : Z := 1.
Definition minStepDurationsMinutes : Z := 5.
Definition minNotifyTargets : Z := 1.
Definition maxNotifyTargets : Z := 10.
Definition minDeferredNotifications : Z := 0.
Definition maxDeferredNotifications : Z := 10.
Definition minMentions : Z := 0.
Definition maxMentions : Z := 10.

(** ** utils/xvalidation *)

Definition UUIDNotNil (v : UUID) : bool := negb (String.eqb (uuid_String v) (uuid_String uuid_Nil)).

Definition maxLinkURLLength : nat := 2048.
Definition isPrintableASCII (s : string) : bool :=
  forallb (fun c => let n := N_of_ascii c in negb ((n <? 0x21)%N || (0x7e <? n)%N)) (bytes s).
(** [strings.ContainsAny], the characters given by their codes *)
Definition ContainsAny (s : string) (codes : list N) : bool :=
  existsb (fun c => existsb (N.eqb (N_of_ascii c)) codes) (bytes s).
(** less-than, greater-than, vertical bar and double quote *)
Definition forbidden_codes : list N := [60%N; 62%N; 124%N; 34%N].

Section validation.
Context `{Ozzo}.

Definition HTTPLinkURL (value : option string) : bool :=
  match value with
  | None => true
  | Some raw =>
      if String.eqb raw "" then true
      else if (maxLinkURLLength <? length (bytes raw))%nat then false
      else if negb (isPrintableASCII raw) then false
      else if ContainsAny raw forbidden_codes then false
      else
        match url_Parse raw with
        | None => false
        | Some parsed =>
            negb (String.eqb (pu_Hostname parsed) "") &&
            (String.eqb (pu_Scheme parsed) "http" || String.eqb (pu_Scheme parsed) "https") &&
            isPrintableASCII (pu_Hostname parsed) && negb (pu_User parsed)
        end
  end.

(** ** create_draft.go *)

Definition validateMentionInput (m : MentionInput) : bool := Required_uuid (mi_UserID m) && UUIDNotNil (mi_UserID m).
Definition validateDeferredNotificationInput (n : DeferredNotificationInput) : bool := Required_time (di_FireAt n).
Definition validateStepInput (s : MaintenanceStepInput) : bool :=
  Required_int (si_Order s) && Min 1 (si_Order s) && Required_string (si_Description s) &&
  Required_string (si_RollbackDescription s) &&
  Required_int (si_DurationMinutes s) && Min minStepDurationsMinutes (si_DurationMinutes s).
Definition validateNotifyTargetsInput (t : NotifyTargetInput) : bool := Required_uuid (nti_ChannelID t).

Definition validatePlanedPeriod (now : Time) (period : Period) : outcome unit :=
  let start := Start period in
  let end_ := FromPtr zeroTime (End_ period) in
  if IsZero start || IsZero end_ then Err ErrInvalidPeriodEmptyStartOrEnd
  else if After start end_ || (start =? end_) then Err ErrInvalidPeriodStartOrEnd
  else if Before start now then Err ErrInvalidPeriodStartOrEnd
  else Ok tt.
Definition passes (r : outcome unit) : bool := match r with Ok _ => true | _ => false end.

Definition create_valid (now : Time) (cmd : CreateMaintenanceCmd) : bool :=
  Required_string (cc_Title cmd) && Required_uuid (cc_CreatedByUserID cmd) && Required_uuid (cc_ApproverUserID cmd) &&
  (if String.eqb (cc_Scope cmd) MaintenanceScopeResources then Required_slice (length (cc_Resources cmd)) else true) &&
  forallb UUIDNotNil (cc_Resources cmd) &&
  Required_string (cc_Description cmd) && HTTPLinkURL (Some (cc_TaskTrackerURL cmd)) &&
  Required_period (cc_PlannedPeriod cmd) && passes (validatePlanedPeriod now (cc_PlannedPeriod cmd)) &&
  Required_string (cc_Impact cmd) && Required_string (cc_Scope cmd) &&
  Required_slice (length (cc_Steps cmd)) && Length minSteps maxSteps (length (cc_Steps cmd)) &&
  forallb validateStepInput (cc_Steps cmd) &&
  Required_slice (length (cc_NotifyTargets cmd)) &&
  Length minNotifyTargets maxNotifyTargets (length (cc_NotifyTargets cmd)) &&
  forallb validateNotifyTargetsInput (cc_NotifyTargets cmd) &&
  Length minDeferredNotifications maxDeferredNotifications (length (cc_DeferredNotifications cmd)) &&
  forallb validateDeferredNotificationInput (cc_DeferredNotifications cmd) &&
  Length minMentions maxMentions (length (cc_Mentions cmd)) && forallb validateMentionInput (cc_Mentions cmd).

(** The errors of a struct come back as one [validation.Errors]. *)
Definition validationErrors : error := EOther "validation errors".
Definition validateCreate `{Env} (cmd : CreateMaintenanceCmd) : M unit :=
  now ← UTCNow;
  reject_if (negb (create_valid now cmd)) validationErrors.

(** ** update_maint.go *)

Definition update_valid (cmd : UpdateMaintenanceCmd) : bool :=
  let deferred := FromPtr [] (uc_DeferredNotifications cmd) in
  let mentions := FromPtr [] (uc_Mentions cmd) in
  NilOrNotEmpty_string (uc_Title cmd) && NilOrNotEmpty_string (uc_Description cmd) &&
  HTTPLinkURL (uc_TaskTrackerURL cmd) && NilOrNotEmpty_uuid (uc_ApproverUserID cmd) &&
  match uc_ApproverUserID cmd with Some id => UUIDNotNil id | None => true end &&
  NilOrNotEmpty_time (uc_PlannedStart cmd) && NilOrNotEmpty_string (uc_Scope cmd) &&
  NilOrNotEmpty_string (uc_Impact cmd) && forallb UUIDNotNil (uc_Resources cmd) &&
  Length 0 maxSteps (length (uc_Steps cmd)) && forallb validateStepInput (uc_Steps cmd) &&
  Length 0 maxNotifyTargets (length (uc_NotifyTargets cmd)) &&
  forallb validateNotifyTargetsInput (uc_NotifyTargets cmd) &&
  Length 0 maxDeferredNotifications (length deferred) && Length minMentions maxMentions (length mentions) &&
  forallb validateDeferredNotificationInput deferred && forallb validateMentionInput mentions.

Definition validateUpdate (cmd : UpdateMaintenanceCmd) : M unit :=
  reject_if (negb (update_valid cmd)) validationErrors.
End validation.

(** The rules, as the library documents them. *)
Definition ex_ozzo : Ozzo := {|
  Required_string := fun s => negb (String.eqb s ""); Required_uuid := fun u => negb (N.eqb u 0);
  Required_int := fun n => negb (n =? 0); Required_time := fun t => negb (IsZero t);
  Required_period := fun p => negb (IsZero (Start p)); Required_slice := fun n => negb (Nat.eqb n 0);
  NilOrNotEmpty_string := fun o => match o with Some s => negb (String.eqb s "") | None => true end;
  NilOrNotEmpty_uuid := fun o => match o with Some u => negb (N.eqb u 0) | None => true end;
  NilOrNotEmpty_time := fun o => match o with Some t => negb (IsZero t) | None => true end;
  Length := fun lo hi n => Nat.eqb n 0 || (lo <=? Z.of_nat n) && (Z.of_nat n <=? hi);
  Min := fun k n => (n =? 0) || (k <=? n); In_string := fun l s => String.eqb s "" || bool_decide (s ∈ l);
  url_Parse := fun _ => Some (mkParsedURL "host" "https" false) |}.

Lemma ex_ozzo_spec : @OzzoSpec ex_ozzo.
Proof.
  split; simpl.
  - intros s Hs ->. discriminate.
  - intros n Hn. by apply Z.eqb_neq, negb_true_iff.
  - intros n Hn. by apply Nat.eqb_neq, negb_true_iff.
  - intros lo hi n Hn Hne. apply Nat.eqb_neq in Hne. rewrite Hne in Hn. simpl in Hn. lia.
  - intros k n Hn Hne. apply Z.eqb_neq in Hne. rewrite Hne in Hn. simpl in Hn. lia.
  - intros l s. by rewrite orb_true_iff, String.eqb_eq, bool_decide_eq_true.
Qed.
