(* ===== verification/Kinds.v ===== *)
(** * The kinds of integration (internal/integrationkinds)

    What each kind stores, which keys of it are secret, how a config is parsed
    and which settings are valid, and what the secrets of a login provider are
    bound to. *)
From Stdlib Require Import ZArith Lia Ascii String.
From stdpp Require Import base sorting sets strings numbers list.
From S2P Require Import Prelude Go Entity Conflict AuditTrail Schema Json UrlGuard Crypto Validation.
Open Scope Z_scope.

(** ** Settings *)

Record SlackSettings := mkSlack { sk_BotToken : string; sk_APIURL : string; sk_Timeout : string }.
Record TelegramSettings := mkTelegram { tg_BotToken : string; tg_APIURL : string; tg_Timeout : string }.
Record EmailSettings := mkEmail {
  em_Host : string; em_Port : Z; em_Username : string; em_Password : string; em_From : string; em_ReplyTo : string;
  em_TLSPolicy : string; em_Timeout : string }.
Record OIDCSettings := mkOIDC {
  oi_DisplayName : string; oi_IssuerURL : string; oi_ClientID : string; oi_ClientSecret : string; oi_RedirectURI : string;
  oi_Scopes : list string; oi_AllowedHostedDomains : list string }.
Record OAuth2Settings := mkOAuth2 {
  oa_DisplayName : string; oa_ClientID : string; oa_ClientSecret : string; oa_RedirectURI : string; oa_AuthorizeURL : string;
  oa_TokenURL : string; oa_APIBaseURL : string }.
(** The interface value; [SetNil] is nil. *)
Inductive Settings :=
  | SetNil
  | SetSlack (s : SlackSettings)
  | SetTelegram (s : TelegramSettings)
  | SetEmail (s : EmailSettings)
  | SetOIDC (s : OIDCSettings)
  | SetOAuth2 (s : OAuth2Settings).

(** ** Kinds *)

Definition Category := string.
Definition CategoryNotify : Category := "notify".
Definition CategoryLogin : Category := "login".
Definition TLSPolicyNone : string := "none".

Inductive Integration := Slack | Email | Telegram | Oidc (name presetKey : string) | Oauth2 (name : string).
Definition nameGoogle : string := "google".
Definition nameCustom : string := "custom".
Definition nameGithub : string := "github".
Definition Google : Integration := Oidc nameGoogle nameGoogle.
Definition Custom : Integration := Oidc nameCustom "".
Definition GitHub : Integration := Oauth2 nameGithub.

Definition Name (i : Integration) : string :=
  match i with Slack => "slack" | Email => "email" | Telegram => "telegram" | Oidc name _ | Oauth2 name => name end.
Definition in_Category (i : Integration) : Category :=
  match i with Slack | Email | Telegram => CategoryNotify | Oidc _ _ | Oauth2 _ => CategoryLogin end.
Definition SecretKeys (i : Integration) : list string :=
  match i with Slack | Telegram => ["bot_token"] | Email => ["password"] | Oidc _ _ | Oauth2 _ => ["client_secret"] end%string.
(** [None]: the kind is not [Preseted]. *)
Definition PresetKey (i : Integration) : option string :=
  match i with
  | Oidc name presetKey => Some (if String.eqb name nameCustom then "" else presetKey)%string
  | Oauth2 name => Some name
  | _ => None
  end.

(** ** Parse *)

(** [unmarshalConfig] into a struct whose fields [decode] reads. *)
Definition unmarshalConfig {S} (config : RawMessage) (decode : list (string * json) -> option S) : S + error :=
  let fields_of := match config with
                   | RawNone | RawText JNull => inl []
                   | RawText (JObject fields) => inl fields
                   | RawText _ => inr wrong_type
                   | RawBad => inr bad_json
                   end in
  match fields_of with
  | inr err => inr (Errorf "config" err)
  | inl fields => match decode fields with Some s => inl s | None => inr (Errorf "config" wrong_type) end
  end.
Definition string_at (name : string) : list (string * json) -> option string := decode_field decode_string name "".
Definition decode_jwtverifier (domains : list string) (j : json) : option (list string) :=
  decode_object (fun old => decode_field decode_strings "allowed_hosted_domains" old) domains j.

Definition secret_at (key : string) (secrets : list (string * string)) : string := default ""%string (go_lookup secrets key).

Section decode.
Context (secrets : list (string * string)) (fs : list (string * json)).

Definition slack_Parse : option SlackSettings :=
  api ← string_at "api_url" fs; timeout ← string_at "timeout" fs;
  Some (mkSlack (secret_at "bot_token" secrets) api timeout).
Definition telegram_Parse : option TelegramSettings :=
  api ← string_at "api_url" fs; timeout ← string_at "timeout" fs;
  Some (mkTelegram (secret_at "bot_token" secrets) api timeout).
Definition email_Parse : option EmailSettings :=
  host ← string_at "host" fs; port ← decode_field decode_int "port" 0 fs; username ← string_at "username" fs;
  from ← string_at "from" fs; reply ← string_at "reply_to" fs; tls ← string_at "tls_policy" fs;
  timeout ← string_at "timeout" fs;
  Some (mkEmail host port username (secret_at "password" secrets) from reply tls timeout).
Definition oidc_Parse : option OIDCSettings :=
  display ← string_at "display_name" fs; issuer ← string_at "issuer_url" fs; client ← string_at "client_id" fs;
  redirect ← string_at "redirect_uri" fs; scopes ← decode_field decode_strings "scopes" [] fs;
  domains ← decode_field decode_jwtverifier "jwtverifier" [] fs;
  Some (mkOIDC display issuer client (secret_at "client_secret" secrets) redirect scopes domains).
Definition oauth2_Parse : option OAuth2Settings :=
  display ← string_at "display_name" fs; client ← string_at "client_id" fs; redirect ← string_at "redirect_uri" fs;
  authorize ← string_at "authorize_url" fs; token ← string_at "token_url" fs; api ← string_at "api_base_url" fs;
  Some (mkOAuth2 display client (secret_at "client_secret" secrets) redirect authorize token api).
Definition decode_settings (i : Integration) : option Settings :=
  match i with
  | Slack => SetSlack <$> slack_Parse
  | Telegram => SetTelegram <$> telegram_Parse
  | Email => SetEmail <$> email_Parse
  | Oidc _ _ => SetOIDC <$> oidc_Parse
  | Oauth2 _ => SetOAuth2 <$> oauth2_Parse
  end.
End decode.
Ltac kinds_unfold := unfold slack_Parse, telegram_Parse, email_Parse, oidc_Parse, oauth2_Parse in *.
Definition Parse (i : Integration) (config : RawMessage) (secrets : list (string * string)) : Settings + error :=
  unmarshalConfig config (fun fs => decode_settings secrets fs i).

(** Decoding into [EmptySettings] with unknown fields disallowed: the fields a
    kind has. *)
Definition field_names (i : Integration) : list string :=
  match i with
  | Slack | Telegram => ["api_url"; "timeout"]
  | Email => ["host"; "port"; "username"; "from"; "reply_to"; "tls_policy"; "timeout"]
  | Oidc _ _ => ["display_name"; "issuer_url"; "client_id"; "redirect_uri"; "scopes"; "jwtverifier"]
  | Oauth2 _ => ["display_name"; "client_id"; "redirect_uri"; "authorize_url"; "token_url"; "api_base_url"]
  end%string.
Definition known_field (names : list string) (key : string) : bool := existsb (fun name => names_field name key) names.
Definition known_fields (i : Integration) (fs : list (string * json)) : bool :=
  forallb (fun f =>
    known_field (field_names i) f.1 &&
    (if names_field "jwtverifier" f.1
     then match f.2 with JObject inner => forallb (fun g => known_field ["allowed_hosted_domains"%string] g.1) inner | _ => true end
     else true)) fs.
Definition decodes_strictly (i : Integration) (config : json) : bool :=
  match config with
  | JNull => true
  | JObject fs => known_fields i fs && match decode_settings [] fs i with Some _ => true | None => false end
  | _ => false
  end.

(** ** What the secrets of a login provider are bound to *)

(** [None]: the settings are not [ClientBound]. *)
Definition AADBinding (s : Settings) : option (string * string) :=
  match s with
  | SetOIDC s => Some (oi_IssuerURL s, oi_ClientID s)
  | SetOAuth2 s => Some (""%string, oa_ClientID s)
  | _ => None
  end.
Definition SecurityRelevant (s : Settings) : list ascii :=
  match s with
  | SetOIDC s => (oi_RedirectURI s :: oi_AllowedHostedDomains s) ≫= aad_part
  | SetOAuth2 s => [oa_RedirectURI s; oa_AuthorizeURL s; oa_TokenURL s; oa_APIBaseURL s] ≫= aad_part
  | _ => []
  end.

(** ** Validate *)
Section validate.
Context `{Ozzo} `{NetURL}.

Definition required_when (c : bool) (v : string) : bool := if c then Required_string v else true.
Definition optional_url (v : string) : bool := String.eqb v "" || is_URL v.
Definition optional_duration (v : string) : bool := String.eqb v "" || IsDuration v.
Definition endpoint (v : string) : bool := Required_string v && is_URL v && HTTPSURL v.

Definition slack_Validate (s : SlackSettings) : bool :=
  Required_string (sk_BotToken s) && optional_url (sk_APIURL s) && optional_duration (sk_Timeout s).
Definition telegram_Validate (s : TelegramSettings) : bool :=
  Required_string (tg_BotToken s) && optional_url (tg_APIURL s) && optional_duration (tg_Timeout s).
Definition email_Validate (s : EmailSettings) : bool :=
  Required_string (em_Host s) && Required_string (em_From s) &&
  required_when (negb (String.eqb (em_Password s) "")) (em_Username s) &&
  required_when (negb (String.eqb (em_Username s) "")) (em_Password s) &&
  (String.eqb (em_Username s) "" || negb (String.eqb (em_TLSPolicy s) TLSPolicyNone)) &&
  optional_duration (em_Timeout s).
Definition oidc_Validate (s : OIDCSettings) : bool :=
  Required_string (oi_DisplayName s) && endpoint (oi_IssuerURL s) && Required_string (oi_ClientID s) &&
  Required_string (oi_ClientSecret s) && (Required_string (oi_RedirectURI s) && is_URL (oi_RedirectURI s)).
Definition oauth2_Validate (s : OAuth2Settings) : bool :=
  Required_string (oa_DisplayName s) && Required_string (oa_ClientID s) && Required_string (oa_ClientSecret s) &&
  (Required_string (oa_RedirectURI s) && is_URL (oa_RedirectURI s)) && endpoint (oa_AuthorizeURL s) &&
  endpoint (oa_TokenURL s) && endpoint (oa_APIBaseURL s).
Definition Validate (i : Integration) (settings : Settings) : bool :=
  match i, settings with
  | Slack, SetSlack s => slack_Validate s
  | Telegram, SetTelegram s => telegram_Validate s
  | Email, SetEmail s => email_Validate s
  | Oidc _ _, SetOIDC s => oidc_Validate s
  | Oauth2 _, SetOAuth2 s => oauth2_Validate s
  | _, _ => false
  end.
End validate.

(** ** Lemmas *)

(** Secrets do not move the binding. *)
Lemma decode_binding i secrets secrets' fs :
  (s ← decode_settings secrets fs i; Some (AADBinding s)) = (s ← decode_settings secrets' fs i; Some (AADBinding s)).
Proof.
  destruct i; simpl; kinds_unfold; repeat (destruct (decode_field _ _ _ _); simpl; try done); by repeat (destruct (string_at _ _); simpl).
Qed.
Lemma Parse_binding i config secrets secrets' s :
  Parse i config secrets = inl s -> ∃ s', Parse i config secrets' = inl s' ∧ AADBinding s' = AADBinding s.
Proof.
  unfold Parse, unmarshalConfig. intros Hp.
  assert (∃ fs, decode_settings secrets fs i = Some s ∧
    (∀ s', decode_settings secrets' fs i = Some s' -> Parse i config secrets' = inl s')) as (fs & Hd & Hk).
  { destruct config as [| |j]; [exists []|done|destruct j as [| | | | |fs]; try done; [exists []|exists fs]];
      simpl in Hp; (destruct (decode_settings secrets _ i) eqn:E; [|done]); injection Hp as ->; (split; [done|]);
      intros s' Hs'; unfold Parse, unmarshalConfig; simpl; by rewrite Hs'. }
  pose proof (decode_binding i secrets secrets' fs) as Hb. rewrite Hd in Hb. simpl in Hb.
  destruct (decode_settings secrets' fs i) as [s'|] eqn:E; [|done]. simpl in Hb. injection Hb as Hb. exists s'. split; [by apply Hk|done].
Qed.

(** A config with plain keys means the same after a trip through the database,
    or through a map. *)
Section canonical.
Context (cmp : string -> string -> comparison) `{!CmpOrder cmp} (Heq : ∀ a b, cmp a b = Eq -> a = b).

Lemma decode_jwtverifier_canonical t v : plain_keys v -> decode_jwtverifier t (canonical cmp v) = decode_jwtverifier t v.
Proof using All.
  destruct v as [| | | | |fields]; try done. intros Hk. apply decode_field_canonical; [done..| |done].
  intros; apply decode_strings_canonical.
Qed.
Lemma string_at_canonical name fields :
  NoDup (foldName <$> fields.*1) ->
  string_at name (put_all cmp ((fun f => (f.1, canonical cmp f.2)) <$> fields)) = string_at name fields.
Proof using All. intros Hk. apply decode_field_canonical; [done..| |done]. intros; apply decode_string_canonical. Qed.
Lemma Parse_canonical i j secrets : plain_config j -> Parse i (RawText (canonical cmp j)) secrets = Parse i (RawText j) secrets.
Proof using All.
  destruct j as [| | | | |fields]; try done. intros [Hk Hall]. unfold Parse, unmarshalConfig. simpl.
  set (fs := put_all _ _). assert (decode_settings secrets fs i = decode_settings secrets fields i) as ->; [|done].
  destruct i; simpl; kinds_unfold; unfold fs; rewrite !string_at_canonical by done; try done.
  - by rewrite decode_field_canonical by first [done|intros; apply decode_int_canonical].
  - rewrite !decode_field_canonical; try done; [by intros; apply decode_strings_canonical|].
    intros t f Hf. apply decode_jwtverifier_canonical. rewrite Forall_forall in Hall. by apply Hall.
Qed.
End canonical.
Lemma Parse_jsonb i j secrets : plain_config j -> Parse i (RawText (jsonb j)) secrets = Parse i (RawText j) secrets.
Proof. apply Parse_canonical; [apply _|apply jsonb_cmp_eq]. Qed.
Lemma jsonb_jsonb j : jsonb (jsonb j) = jsonb j.
Proof. apply canonical_idem; [apply _|apply jsonb_cmp_eq]. Qed.
Lemma plain_config_jsonb j : plain_config j -> plain_config (jsonb j).
Proof. apply plain_config_canonical; [apply _|apply jsonb_cmp_eq]. Qed.
