(* ===== verification/MaintStore.v ===== *)
(** * The maintenance store (internal/storages/maintenances)

    The mappers between entities and rows and one definition per statement.
    Foreign keys to resources, channels and maintenances are enforced here;
    those to users, whose table is not modelled, are among the errors the fault
    oracle may answer with. *)
From Stdlib Require Import ZArith Lia Ascii String.
From stdpp Require Import base sorting sets strings numbers list.
From S2P Require Import Prelude Go Entity Conflict AuditTrail Schema Logic.
Open Scope Z_scope.

(** ** mapper.go *)

Definition fromDBMaintenance (m : MaintRow) : Maintenance :=
  zeroMaint <| ID := mr_ID m |> <| Title := mr_Title m |> <| Description := mr_Description m |>
    <| PlannedPeriod := FromPgRange (mr_PlannedPeriod m) |>
    <| Scope := mr_Scope m |> <| Impact := mr_Impact m |> <| Status := mr_Status m |>
    <| CancelReason := FromPtr EmptyString (mr_CanceledReasonCode m) |>
    <| CancelReasonComment := FromPtr EmptyString (mr_CanceledReasonComment m) |>
    <| CreatedByUserID := mr_CreatedByUserID m |> <| ApproverUserID := mr_ApproverUserID m |>
    <| CreatedAt := mr_CreatedAt m |> <| UpdatedAt := mr_UpdatedAt m |>
    <| TaskTrackerURL := mr_TaskTrackerURL m |>
    <| ActualPeriod := FromPgRange <$> mr_ActualPeriod m |>.

Definition toDBMaintenance (m : Maintenance) : MaintRow :=
  {| mr_ID := ID m; mr_Title := Title m; mr_Description := Description m;
     mr_PlannedPeriod := ToPgRange (PlannedPeriod m); mr_ActualPeriod := ToPgRange <$> ActualPeriod m;
     mr_Scope := Scope m; mr_Impact := Impact m; mr_Status := Status m;
     mr_CanceledReasonCode := Some (CancelReason m);
     mr_CanceledReasonComment := Some (CancelReasonComment m);
     mr_CreatedByUserID := CreatedByUserID m; mr_CreatedAt := CreatedAt m; mr_UpdatedAt := UpdatedAt m;
     mr_ApproverUserID := ApproverUserID m; mr_TaskTrackerURL := TaskTrackerURL m |}.

Definition toDBMaintenanceResource (maintID resourceID : UUID) : MaintResourceRow :=
  mkMaintResourceRow maintID resourceID.

(** A mention row before the server fills in its id and creation time. *)
Definition toDBMaintenanceMention (maintID userID : UUID) : MentionRow :=
  mkMentionRow uuid_Nil maintID userID zeroTime.

(** The creation and update times are not carried over. *)
Definition toDBMaintenanceStep (maintID : UUID) (step : MaintenanceStep) : StepRow :=
  {| sr_ID := uuid_Nil; sr_MaintenanceID := maintID; sr_StepOrder := st_Order step;
     sr_Description := st_Description step; sr_Rollback := st_RollbackDescription step;
     sr_DurationMinutes := st_DurationMinutes step; sr_Status := st_Status step;
     sr_ActualStartedAt := st_ActualStartedAt step; sr_ActualCompletedAt := st_ActualCompletedAt step;
     sr_CreatedAt := zeroTime; sr_UpdatedAt := None |}.

Definition fromDBMaintenanceStep (step : StepRow) : MaintenanceStep :=
  {| st_ID := sr_ID step; st_Order := sr_StepOrder step; st_Description := sr_Description step;
     st_RollbackDescription := sr_Rollback step; st_DurationMinutes := sr_DurationMinutes step;
     st_Status := sr_Status step; st_ActualStartedAt := sr_ActualStartedAt step;
     st_ActualCompletedAt := sr_ActualCompletedAt step; st_CreatedAt := sr_CreatedAt step;
     st_UpdatedAt := sr_UpdatedAt step |}.

(** ** Conditions *)

Definition find_maint (id : UUID) (db : DB) : option MaintRow :=
  List.find (fun r => N.eqb (mr_ID r) id) (maintenances db).
Definition maint_exists (id : UUID) (db : DB) : bool := existsb (fun r => N.eqb (mr_ID r) id) (maintenances db).
Definition resource_exists (id : UUID) (db : DB) : bool := existsb (fun r => N.eqb (rs_ID r) id) (resources db).
Definition of_maint (id : UUID) (s : StepRow) : bool := N.eqb (sr_MaintenanceID s) id.

(** ** Statements *)

Section store.
Context `{Env}.

(** id and created_at take the column defaults. *)
Definition CreateMaint (m : Maintenance) : M Maintenance :=
  sql (fun s db =>
    let row := (pg_maint_row (toDBMaintenance m)) <| mr_ID := pg_uuid s 0 |> <| mr_CreatedAt := pg_now s |> in
    match check_maint_row row with
    | Some code => Err (EPg code)
    | None =>
        require (negb (maint_exists (mr_ID row) db)) ErrPGUniqueViolation
          (Ok (fromDBMaintenance row, db <| maintenances := maintenances db ++ [row] |>))
    end).

Definition getMaint (maintID : UUID) : M Maintenance :=
  r ← query (find_maint maintID);
  match r with
  | Some row => mret (fromDBMaintenance row)
  | None => raise ErrMaintNotFound
  end.
Definition GetMaint (maintID : UUID) : M Maintenance := getMaint maintID.
Definition GetMaintForUpdate (maintID : UUID) : M Maintenance := getMaint maintID.

(** [maint.UpdatedAt] is set on the caller's value: it is returned. *)
Definition UpdateMaint (maint : Maintenance) : M Maintenance :=
  now ← UTCNow;
  let maint := maint <| UpdatedAt := Some now |> in
  sql (fun _ db =>
    let row := pg_maint_row (toDBMaintenance maint) in
    let db' := db <| maintenances :=
      (fun r => if N.eqb (mr_ID r) (ID maint) then row else r) <$> maintenances db |> in
    if maint_exists (ID maint) db then
      match check_maint_row row with
      | Some code => Err (EPg code)
      | None => Ok (maint, db')
      end
    else Ok (maint, db)).

(** ON CONFLICT DO NOTHING. *)
Definition insert_resource (row : MaintResourceRow) (l : list MaintResourceRow) : list MaintResourceRow :=
  if decide (row ∈ l) then l else l ++ [row].
Definition AddResources (maintID : UUID) (resourceIDs : list UUID) : M unit :=
  match resourceIDs with
  | [] => mret tt
  | _ =>
      let dbResources := toDBMaintenanceResource maintID <$> resourceIDs in
      sql (fun _ db =>
        require (maint_exists maintID db && forallb (fun id => resource_exists id db) resourceIDs)
          ErrPGForeignKeyViolation
          (Ok (tt, db <| maintenance_resources :=
                     foldl (fun l r => insert_resource r l) (maintenance_resources db) dbResources |>)))
  end.

Definition DeleteResources (maintID : UUID) : M unit :=
  sql (fun _ db => Ok (tt, db <| maintenance_resources :=
    filter (fun r => mrr_MaintenanceID r ≠ maintID) (maintenance_resources db) |>)).

(** The join of maintenance_resources with resources, grouped by maintenance:
    the map the code builds, as the list of a key's values. *)
Definition resource_rows (maintID : UUID) (db : DB) : list ResourceRow :=
  filter (fun r => mrr_MaintenanceID r = maintID) (maintenance_resources db) ≫= fun link =>
  filter (fun r => rs_ID r = mrr_ResourceID link) (resources db).
Definition GetMaintResources (maintIDs : list UUID) : M (UUID -> list ResourceRow) :=
  match maintIDs with
  | [] => mret (fun _ => [])
  | _ => query (fun db id => if decide (id ∈ maintIDs) then resource_rows id db else [])
  end.

Definition insert_mention (s : Stmt) (l : list MentionRow) (ki : nat * MentionRow) : list MentionRow :=
  let row := ki.2 in
  if existsb (fun r => N.eqb (me_MaintenanceID r) (me_MaintenanceID row) && N.eqb (me_UserID r) (me_UserID row)) l
  then l
  else l ++ [mkMentionRow (pg_uuid s ki.1) (me_MaintenanceID row) (me_UserID row) (pg_now s)].
Definition AddMentions (maintID : UUID) (userIDs : list UUID) : M unit :=
  match userIDs with
  | [] => mret tt
  | _ =>
      let dbMentions := toDBMaintenanceMention maintID <$> userIDs in
      sql (fun s db => Ok (tt, db <| maintenance_mentions :=
        foldl (insert_mention s) (maintenance_mentions db) (zip (seq 0 (length dbMentions)) dbMentions) |>))
  end.
Definition DeleteMentions (maintID : UUID) : M unit :=
  sql (fun _ db => Ok (tt, db <| maintenance_mentions :=
    filter (fun r => me_MaintenanceID r ≠ maintID) (maintenance_mentions db) |>)).
Definition mention_cmp (a b : MentionRow) : comparison :=
  cmp_then (Z.compare (me_CreatedAt a) (me_CreatedAt b)) (xuuid_Compare (me_ID a) (me_ID b)).
Definition GetMaintMentions (maintID : UUID) : M (list UUID) :=
  query (fun db => me_UserID <$>
    sort_by mention_cmp (filter (fun r => me_MaintenanceID r = maintID) (maintenance_mentions db))).

(** The two unique indexes: the primary key and (maintenance_id, step_order). *)
Definition step_clash (a b : StepRow) : bool :=
  N.eqb (sr_ID a) (sr_ID b) ||
  N.eqb (sr_MaintenanceID a) (sr_MaintenanceID b) && Z.eqb (sr_StepOrder a) (sr_StepOrder b).
Fixpoint insert_steps (rows : list StepRow) (l : list StepRow) : outcome (list StepRow) :=
  match rows with
  | [] => Ok l
  | r :: rows' => require (negb (existsb (step_clash r) l)) ErrPGUniqueViolation (insert_steps rows' (l ++ [r]))
  end.
Definition AddSteps (maintID : UUID) (steps : list MaintenanceStep) : M (list MaintenanceStep) :=
  match steps with
  | [] => mret []
  | _ =>
      let dbSteps := toDBMaintenanceStep maintID <$> steps in
      sql (fun s db =>
        let rows := (fun '(k, r) => (pg_step_row r) <| sr_ID := pg_uuid s k |> <| sr_CreatedAt := pg_now s |>) <$>
                    zip (seq 0 (length dbSteps)) dbSteps in
        require (maint_exists maintID db) ErrPGForeignKeyViolation
          match insert_steps rows (maintenance_steps db) with
          | Ok l => Ok (fromDBMaintenanceStep <$> rows, db <| maintenance_steps := l |>)
          | Err e => Err e
          | Panic msg => Panic msg
          end)
  end.
Definition DeleteSteps (maintID : UUID) : M unit :=
  sql (fun _ db => Ok (tt, db <| maintenance_steps :=
    filter (fun r => sr_MaintenanceID r ≠ maintID) (maintenance_steps db) |>)).

Definition step_order_cmp (a b : StepRow) : comparison := Z.compare (sr_StepOrder a) (sr_StepOrder b).
Definition step_rows (maintID : UUID) (db : DB) : list StepRow :=
  sort_by step_order_cmp (filter (fun r => sr_MaintenanceID r = maintID) (maintenance_steps db)).
Definition getSteps (maintID : UUID) : M (list MaintenanceStep) :=
  query (fun db => fromDBMaintenanceStep <$> step_rows maintID db).
Definition GetMaintSteps (maintID : UUID) : M (list MaintenanceStep) := getSteps maintID.
Definition GetMaintStepsForUpdate (maintID : UUID) : M (list MaintenanceStep) := getSteps maintID.

(** Every mutable column is written, created_at and updated_at included, from
    the row the mapper builds. *)
Definition step_target (maintID stepID : UUID) (r : StepRow) : bool :=
  N.eqb (sr_ID r) stepID && N.eqb (sr_MaintenanceID r) maintID.
Definition UpdateStep (maintID : UUID) (step : MaintenanceStep) : M MaintenanceStep :=
  now ← UTCNow;
  let step := step <| st_UpdatedAt := Some now |> in
  sql (fun _ db =>
    let row := (pg_step_row (toDBMaintenanceStep maintID step)) <| sr_ID := st_ID step |> in
    let others := List.filter (fun r => negb (step_target maintID (st_ID step) r)) (maintenance_steps db) in
    let upd := (fun r => if step_target maintID (st_ID step) r then row else r) <$> maintenance_steps db in
    if existsb (step_target maintID (st_ID step)) (maintenance_steps db) then
      require (negb (existsb (step_clash row) others)) ErrPGUniqueViolation
        (Ok (step, db <| maintenance_steps := upd |>))
    else Ok (step, db)).

(** ** Listings *)

Definition pg_limit {A} (n : Z) (l : list A) : list A := take (Z.to_nat n) l.
Definition pg_offset {A} (n : Z) (l : list A) : list A := drop (Z.to_nat n) l.
(** [make([]T, 0, n)] panics on a negative capacity. *)
Definition make_cap (n : Z) : M unit := if n <? 0 then panic "runtime error: makeslice: cap out of range" else mret tt.

Definition lower_bound (r : MaintRow) : Time := tz_Time (r_Lower (mr_PlannedPeriod r)).
Definition overdue (startedBefore : Time) (r : MaintRow) : bool :=
  (String.eqb (mr_Status r) MaintenanceStatusDraft || String.eqb (mr_Status r) MaintenanceStatusPlanned) &&
  Before (lower_bound r) (pg_ts startedBefore).
Definition ListOverdueNotStarted (startedBefore : Time) (limit : Z) : M (list Maintenance) :=
  make_cap limit;;
  query (fun db => fromDBMaintenance <$>
    pg_limit limit (sort_by (fun a b => Z.compare (lower_bound a) (lower_bound b))
      (List.filter (overdue startedBefore) (maintenances db)))).

Record PendingApprovalsFilter := mkPendingFilter { pf_ApproverUserID : UUID; pf_Limit : Z; pf_Offset : Z }.
Definition pendingApprovalsWhereExpr (f : PendingApprovalsFilter) (r : MaintRow) : bool :=
  N.eqb (mr_ApproverUserID r) (pf_ApproverUserID f) && String.eqb (mr_Status r) MaintenanceStatusDraft.
Definition countPendingApprovals (f : PendingApprovalsFilter) : M Z :=
  query (fun db => Z.of_nat (length (List.filter (pendingApprovalsWhereExpr f) (maintenances db)))).
Definition created_cmp (a b : MaintRow) : comparison :=
  cmp_then (Z.compare (mr_CreatedAt a) (mr_CreatedAt b)) (xuuid_Compare (mr_ID a) (mr_ID b)).
Definition ListPendingApprovals (f : PendingApprovalsFilter) : M (list Maintenance * Z) :=
  reject_if (N.eqb (pf_ApproverUserID f) uuid_Nil) ErrNilApprover;;
  total ← countPendingApprovals f;
  make_cap (pf_Limit f);;
  maints ← query (fun db => pg_limit (pf_Limit f) (pg_offset (pf_Offset f)
    (sort_by created_cmp (List.filter (pendingApprovalsWhereExpr f) (maintenances db)))));
  mret (fromDBMaintenance <$> maints, total).

(** The times of a filter keep the offset of the location PeriodFrom came in:
    [EndOfTheDay] reads the civil date there. *)
Record GetMaintsFilter := mkMaintsFilter {
  gf_PeriodFrom : Time; gf_PeriodFromOffset : Duration; gf_PeriodTo : Time;
  gf_Statuses : list MaintenanceStatus; gf_ResourceIDs : list UUID; gf_ChannelIDs : list UUID }.

(** [planned_period && tstzrange(from, to)] *)
Definition range_overlaps (r : Tstzrange) (from to : Time) : bool :=
  Before from to && Before (tz_Time (r_Lower r)) to &&
  match tz_Status (r_Upper r) with pgPresent => Before from (tz_Time (r_Upper r)) | _ => true end.

Definition filter_period (now : Time) (f : GetMaintsFilter) : Time * Time :=
  let periodFrom := if IsZero (gf_PeriodFrom f) then StartOfTheDay 0 now else gf_PeriodFrom f in
  let off := if IsZero (gf_PeriodFrom f) then 0 else gf_PeriodFromOffset f in
  let periodTo := if IsZero (gf_PeriodTo f) then EndOfTheDay off periodFrom else gf_PeriodTo f in
  (periodFrom, periodTo).
Definition filterToWhereExpr (now : Time) (f : GetMaintsFilter) (db : DB) (r : MaintRow) : bool :=
  let '(periodFrom, periodTo) := filter_period now f in
  range_overlaps (mr_PlannedPeriod r) (pg_ts periodFrom) (pg_ts periodTo) &&
  (match gf_Statuses f with [] => true | l => existsb (String.eqb (mr_Status r)) l end) &&
  (match gf_ResourceIDs f with
   | [] => true
   | l => existsb (fun x => N.eqb (mrr_MaintenanceID x) (mr_ID r) && existsb (N.eqb (mrr_ResourceID x)) l)
            (maintenance_resources db)
   end) &&
  (match gf_ChannelIDs f with
   | [] => true
   | l => existsb (fun x => N.eqb (tr_MaintenanceID x) (mr_ID r) && existsb (N.eqb (tr_ChannelID x)) l)
            (maintenance_notify_targets db)
   end).

(** The order of ranges: by lower bound, then by upper bound, an unbounded one
    last. *)
Definition upper_cmp (a b : Timestamptz) : comparison :=
  match tz_Status a, tz_Status b with
  | pgPresent, pgPresent => Z.compare (tz_Time a) (tz_Time b)
  | pgPresent, _ => Lt
  | _, pgPresent => Gt
  | _, _ => Eq
  end.
Definition range_cmp (a b : Tstzrange) : comparison :=
  cmp_then (Z.compare (tz_Time (r_Lower a)) (tz_Time (r_Lower b))) (upper_cmp (r_Upper a) (r_Upper b)).
Definition listing_cmp (a b : MaintRow) : comparison :=
  CompOpp (cmp_then (range_cmp (mr_PlannedPeriod a) (mr_PlannedPeriod b)) (xuuid_Compare (mr_ID a) (mr_ID b))).

Definition GetMaints (f : GetMaintsFilter) (limit : Z) : M (list Maintenance * bool) :=
  now ← UTCNow;
  make_cap (limit + 1);;
  let '(periodFrom, periodTo) := filter_period now f in
  maints ← sql (fun _ db =>
    require (negb (Before (pg_ts periodTo) (pg_ts periodFrom))) pgDataException
      (Ok (pg_limit (limit + 1) (sort_by listing_cmp
             (List.filter (filterToWhereExpr now f db) (maintenances db))), db)));
  let truncated := limit <? Z.of_nat (length maints) in
  let maints := if truncated then take (Z.to_nat limit) maints else maints in
  mret (fromDBMaintenance <$> maints, truncated).
End store.

(** ** What a statement that succeeded did *)

Ltac sql_inv H :=
  apply sql_Ok in H as (? & H & ->);
  try match type of H with context [stmt_of ?c ?n] => let s := fresh "s" in set (s := stmt_of c n) in H; clearbody s end;
  unfold require in H; simpl in *.

Section store_ok.
Context `{Env}.

Lemma require_Ok {A} cond code (k : outcome A) a : require cond code k = Ok a -> cond = true ∧ k = Ok a.
Proof. unfold require. by destruct cond. Qed.

Lemma CreateMaint_Ok m ctx w m' w' :
  CreateMaint m ctx w = (Ok m', w') ->
  ∃ id now, let row := (pg_maint_row (toDBMaintenance m)) <| mr_ID := id |> <| mr_CreatedAt := now |> in
    pg_ts now = now ∧ check_maint_row row = None ∧ maint_exists id (w_db w) = false ∧ m' = fromDBMaintenance row ∧
    w_db w' = (w_db w) <| maintenances := maintenances (w_db w) ++ [row] |>.
Proof.
  intros (db' & E & ->)%sql_Ok. unfold require in E. repeat case_hyp E; simplify_eq.
  eexists _, _. split; [apply pg_ts_idem|]. split_and!; [done| |done..]. by apply negb_true_iff.
Qed.

Lemma getMaint_Ok id ctx w m w' :
  getMaint id ctx w = (Ok m, w') ->
  ∃ row, find_maint id (w_db w) = Some row ∧ m = fromDBMaintenance row ∧ w_db w' = w_db w ∧ w_log w' = w_log w.
Proof.
  intros E. unfold getMaint in E. run_all. apply query_Ok in Hrun as (Ha & Hdb & Hl).
  destruct a as [row|]; run_all. exists row. by rewrite Hdb.
Qed.

Lemma UpdateMaint_Ok m ctx w m' w' :
  UpdateMaint m ctx w = (Ok m', w') ->
  ∃ now, let row := pg_maint_row (toDBMaintenance m') in
    m' = m <| UpdatedAt := Some now |> ∧
    (maint_exists (ID m) (w_db w) = true -> check_maint_row row = None) ∧
    w_db w' = (w_db w) <| maintenances :=
      (fun r => if N.eqb (mr_ID r) (ID m) then row else r) <$> maintenances (w_db w) |>.
Proof.
  unfold UpdateMaint. intros E. run_all. unfold UTCNow in Hrun. injection Hrun as <- <-. sql_inv Hrun0.
  eexists. destruct (maint_exists _ _) eqn:Ex.
  - repeat case_hyp Hrun0; simplify_eq. done.
  - simplify_eq. split_and!; [done..|]. rewrite fmap_if_none by done. by destruct (w_db w).
Qed.

Lemma AddResources_Ok id ids ctx w u w' :
  AddResources id ids ctx w = (Ok u, w') ->
  (ids = [] ∨ maint_exists id (w_db w) = true) ∧
  w_db w' = (w_db w) <| maintenance_resources :=
    foldl (fun l r => insert_resource r l) (maintenance_resources (w_db w)) (mkMaintResourceRow id <$> ids) |>.
Proof.
  unfold AddResources. destruct ids as [|i ids]; intros E.
  - run_all. simpl. split; [by left|]. by destruct (w_db w').
  - sql_inv E. repeat case_hyp E; simplify_eq. apply andb_true_iff in Heqb as [? _]. split; [by right|]. done.
Qed.

Lemma DeleteResources_Ok id ctx w u w' :
  DeleteResources id ctx w = (Ok u, w') ->
  w_db w' = (w_db w) <| maintenance_resources :=
    filter (fun r => mrr_MaintenanceID r ≠ id) (maintenance_resources (w_db w)) |>.
Proof. intros E. sql_inv E. by simplify_eq. Qed.

Lemma GetMaintResources_Ok ids ctx w f w' :
  GetMaintResources ids ctx w = (Ok f, w') ->
  w_db w' = w_db w ∧ w_log w' = w_log w ∧ ∀ id, id ∈ ids -> f id = resource_rows id (w_db w).
Proof.
  unfold GetMaintResources. destruct ids as [|i ids]; intros E.
  - run_all. split_and!; [done..|]. intros id ?%elem_of_nil. done.
  - apply query_Ok in E as (-> & ? & ?). split_and!; [done..|]. intros id Hid. by rewrite decide_True.
Qed.

Lemma AddMentions_Ok id ids ctx w u w' :
  AddMentions id ids ctx w = (Ok u, w') ->
  ∃ l, w_db w' = (w_db w) <| maintenance_mentions := l |>.
Proof.
  unfold AddMentions. destruct ids as [|i ids]; intros E.
  - run_all. exists (maintenance_mentions (w_db w')). by destruct (w_db w').
  - sql_inv E. simplify_eq. eauto.
Qed.

Lemma DeleteMentions_Ok id ctx w u w' :
  DeleteMentions id ctx w = (Ok u, w') -> ∃ l, w_db w' = (w_db w) <| maintenance_mentions := l |>.
Proof. intros E. sql_inv E. simplify_eq. eauto. Qed.

Lemma GetMaintMentions_Ok id ctx w l w' :
  GetMaintMentions id ctx w = (Ok l, w') -> w_db w' = w_db w ∧ w_log w' = w_log w.
Proof. intros (_ & ? & ?)%query_Ok. done. Qed.

Lemma DeleteSteps_Ok id ctx w u w' :
  DeleteSteps id ctx w = (Ok u, w') ->
  w_db w' = (w_db w) <| maintenance_steps :=
    filter (fun r => sr_MaintenanceID r ≠ id) (maintenance_steps (w_db w)) |>.
Proof. intros E. sql_inv E. by simplify_eq. Qed.

Lemma getSteps_Ok id ctx w l w' :
  getSteps id ctx w = (Ok l, w') ->
  l = fromDBMaintenanceStep <$> step_rows id (w_db w) ∧ w_db w' = w_db w ∧ w_log w' = w_log w.
Proof. apply query_Ok. Qed.

Lemma insert_steps_Ok rows l l' :
  insert_steps rows l = Ok l' -> l' = l ++ rows ∧
    ∀ pre r post, rows = pre ++ r :: post -> existsb (step_clash r) (l ++ pre) = false.
Proof.
  revert l. induction rows as [|r rows IH]; intros l; simpl.
  - intros [= <-]. rewrite app_nil_r. split; [done|]. by intros [] ??.
  - intros [Hc [-> Hr]%IH]%require_Ok. rewrite <- app_assoc. split; [done|].
    intros [|r0 pre] r1 post; simpl; intros [= <- ->].
    + rewrite app_nil_r. by apply negb_true_iff.
    + rewrite cons_middle, app_assoc. by eapply Hr.
Qed.

(** The rows an insertion of steps adds: in the order given, in planned or
    whatever status the steps have, under fresh ids. *)
Lemma AddSteps_Ok id steps ctx w steps' w' :
  AddSteps id steps ctx w = (Ok steps', w') ->
  ∃ rows, steps' = fromDBMaintenanceStep <$> rows ∧
    Forall2 (fun s r => ∃ sid now, r = (pg_step_row (toDBMaintenanceStep id s)) <| sr_ID := sid |> <| sr_CreatedAt := now |>)
      steps rows ∧
    (∀ pre r post, rows = pre ++ r :: post -> existsb (step_clash r) (maintenance_steps (w_db w) ++ pre) = false) ∧
    w_db w' = (w_db w) <| maintenance_steps := maintenance_steps (w_db w) ++ rows |>.
Proof.
  unfold AddSteps. destruct steps as [|s0 steps0] eqn:Es; [|rewrite <- Es; clear Es s0 steps0]; intros E.
  - run_all. exists []. simpl. rewrite app_nil_r. split_and!; [done|done|by intros [] ??|by destruct (w_db w')].
  - sql_inv E. repeat case_hyp E; simplify_eq. apply insert_steps_Ok in Heqo as [-> Hu].
    eexists. split; [done|]. split; [|split; [exact Hu|done]].
    rewrite length_fmap. generalize 0%nat at 1. clear. induction steps as [|x l IH]; intros k; simpl; constructor; eauto.
Qed.

Lemma UpdateStep_Ok id s ctx w s' w' :
  UpdateStep id s ctx w = (Ok s', w') ->
  ∃ now, let row := (pg_step_row (toDBMaintenanceStep id s)) <| sr_ID := st_ID s |> in
    s' = s <| st_UpdatedAt := Some now |> ∧
    (existsb (step_target id (st_ID s)) (maintenance_steps (w_db w)) = true ->
     existsb (step_clash row)
       (List.filter (fun r => negb (step_target id (st_ID s) r)) (maintenance_steps (w_db w))) = false) ∧
    w_db w' = (w_db w) <| maintenance_steps :=
      (fun r => if step_target id (st_ID s) r then row else r) <$> maintenance_steps (w_db w) |>.
Proof.
  unfold UpdateStep. intros E. run_all. unfold UTCNow in Hrun. injection Hrun as <- <-. sql_inv Hrun0.
  eexists. destruct (existsb (step_target _ _) _) eqn:Ex.
  - repeat case_hyp Hrun0; simplify_eq. split_and!; [done| |done]. intros _. by apply negb_true_iff.
  - simplify_eq. split_and!; [done..|]. rewrite fmap_if_none by done. by destruct (w_db w).
Qed.
End store_ok.
