(* ===== verification/Sweep.v ===== *)
(** * Bounded sweeps

    Retention is the same work for one-time codes, refresh tokens, invitations
    and the audit log: a statement deletes, by key, the oldest of the rows that a
    condition holds of, a bounded number at a time, and a loop repeats it until a
    batch comes back short.  [Sweepable] is what such a table is; the loop is
    proved once against it. *)
From Stdlib Require Import ZArith Lia Ascii String.
From stdpp Require Import base sorting sets strings numbers list.
From S2P Require Import Prelude Go Entity Conflict AuditTrail Schema Logic MaintStore.
Open Scope Z_scope.

(** A table with a key, in the order in which its rows are swept. *)
Class Sweepable (R K : Type) `{EqDecision K} := {
  sw_table : DB -> list R;
  sw_put : list R -> DB -> DB;
  sw_key : R -> K;
  sw_order : R -> R -> comparison }.
Class SweepableLaws (R K : Type) `{Sweepable R K} : Prop := {
  sw_table_put : ∀ l db, sw_table (sw_put l db) = l;
  sw_put_table : ∀ db, sw_put (sw_table db) db = db;
  sw_put_put : ∀ l l' db, sw_put l (sw_put l' db) = sw_put l db }.

(** [for range n { ...; if count < batchLimit { break } }] *)
Fixpoint batches (n : nat) (batch : M Z) (batchLimit : Z) : M unit :=
  match n with
  | O => mret tt
  | S n' =>
      count ← batch;
      if count <? batchLimit then mret tt else batches n' batch batchLimit
  end.

Lemma keeps_batches I n batch limit : keeps I batch (fun _ => True) -> keeps I (batches n batch limit) (fun _ => True).
Proof.
  intros Hb. induction n as [|n IH]; [by apply keeps_ret|]. eapply keeps_bind; [exact Hb|]. intros c _.
  destruct (c <? limit); [by apply keeps_ret|done].
Qed.

Section sweep.
Context `{Sweepable R K} (p : R -> bool).

(** The rows the subquery picks, and whether a row is one of them by its key. *)
Definition picked (limit : Z) (l : list R) : list R := pg_limit limit (sort_by sw_order (List.filter p l)).
Definition swept (limit : Z) (l : list R) (r : R) : bool := bool_decide (sw_key r ∈ sw_key <$> picked limit l).
Definition unswept (limit : Z) (l : list R) : list R := List.filter (fun r => negb (swept limit l r)) l.
(** DELETE ... WHERE key IN (SELECT key ... WHERE p ORDER BY ... LIMIT limit) *)
Definition sweep `{Env} (limit : Z) : M Z :=
  sql (fun _ db => let l := sw_table db in Ok (Z.of_nat (length (List.filter (swept limit l) l)), sw_put (unswept limit l) db)).

Lemma picked_in limit l r : r ∈ picked limit l -> r ∈ l ∧ p r = true.
Proof.
  intros (i & Hi & _)%elem_of_take. apply list_elem_of_lookup_2 in Hi. rewrite elem_of_sort_by in Hi. by apply elem_of_List_filter.
Qed.
Lemma picked_key limit l r : NoDup (sw_key <$> l) -> r ∈ l -> sw_key r ∈ sw_key <$> picked limit l -> r ∈ picked limit l.
Proof.
  intros Hnd Hr (x & Hid & Hx)%list_elem_of_fmap. pose proof Hx as [Hxl _]%picked_in. by rewrite (NoDup_fmap_2_elem _ _ _ _ Hnd Hr Hxl Hid).
Qed.
Lemma swept_true limit l r : NoDup (sw_key <$> l) -> r ∈ l -> swept limit l r = true -> p r = true.
Proof. intros Hnd Hr Hs%bool_decide_eq_true. apply picked_key in Hs; [|done..]. by apply picked_in in Hs as [_ ?]. Qed.
Lemma unswept_sub limit l : sublist (unswept limit l) l.
Proof.
  unfold unswept. generalize (swept limit l). intros q. induction l as [|x l IH]; simpl; [done|]. destruct (q x); simpl; by constructor.
Qed.
Lemma unswept_gone limit l r : NoDup (sw_key <$> l) -> r ∈ l -> r ∉ unswept limit l -> p r = true.
Proof.
  intros Hnd Hr Hn. apply (swept_true limit l); [done..|]. destruct (swept limit l r) eqn:E; [done|]. destruct Hn.
  apply elem_of_List_filter. by rewrite E.
Qed.
Lemma swept_count limit l :
  NoDup (sw_key <$> l) -> length (List.filter (swept limit l) l) = Nat.min (Z.to_nat limit) (length (List.filter p l)).
Proof.
  intros Hnd. rewrite <- (length_sort_by sw_order (List.filter p l)), <- length_take. apply Permutation_length, NoDup_Permutation.
  - apply NoDup_fmap_1 with sw_key. by apply NoDup_fmap_List_filter.
  - eapply sublist_NoDup; [|apply sublist_take]. rewrite sort_by_Permutation. apply NoDup_fmap_1 with sw_key. by apply NoDup_fmap_List_filter.
  - intros r. rewrite elem_of_List_filter. unfold swept. rewrite bool_decide_eq_true. split.
    + intros [Hr Hs]. by apply picked_key in Hs.
    + intros Hp. pose proof Hp as [Hr _]%picked_in. split; [done|]. by apply list_elem_of_fmap_2.
Qed.
Lemma unswept_drained limit l :
  NoDup (sw_key <$> l) -> Z.of_nat (length (List.filter (swept limit l) l)) < limit -> ∀ r, r ∈ unswept limit l -> p r = false.
Proof.
  intros Hnd Hlt r [Hr Hn]%elem_of_List_filter. apply not_true_is_false. intros Hp. apply negb_true_iff, bool_decide_eq_false in Hn.
  rewrite swept_count in Hlt by done. apply Hn, list_elem_of_fmap_2. unfold picked, pg_limit. rewrite take_ge.
  - rewrite elem_of_sort_by. by apply elem_of_List_filter.
  - rewrite length_sort_by. lia.
Qed.

Lemma filter_negb_length {A} (q : A -> bool) l : (length (List.filter q l) + length (List.filter (fun x => negb (q x)) l) = length l)%nat.
Proof. induction l as [|x l IH]; simpl; [done|]. destruct (q x); simpl; lia. Qed.

(** What [n] batches leave of a table: some of its rows, as they were and in
    order, without only such as were to go; and at success without any of these,
    or with [n] full batches removed. *)
Record pruned (n : nat) (limit : Z) (r : outcome unit) (l l' : list R) : Prop := {
  pr_sub : sublist l' l;
  pr_gone : ∀ x, x ∈ l -> x ∉ l' -> p x = true;
  pr_done : r = Ok tt -> (∀ x, x ∈ l' -> p x = false) ∨ Z.of_nat (length l') + Z.of_nat n * limit <= Z.of_nat (length l) }.

Lemma pruned_same n limit r l : r ≠ Ok tt ∨ n = O -> pruned n limit r l l.
Proof. intros Hr. split; [done|done|]. intros ->. destruct Hr as [?| ->]; [done|]. right. lia. Qed.
Lemma pruned_short n limit l :
  NoDup (sw_key <$> l) -> Z.of_nat (length (List.filter (swept limit l) l)) < limit -> pruned n limit (Ok tt) l (unswept limit l).
Proof. intros Hnd Hlt. split; [apply unswept_sub|by intros; eapply unswept_gone|]. left. by apply unswept_drained. Qed.
Lemma pruned_next n limit r l l' :
  NoDup (sw_key <$> l) -> limit <= Z.of_nat (length (List.filter (swept limit l) l)) -> pruned n limit r (unswept limit l) l' ->
  pruned (S n) limit r l l'.
Proof.
  intros Hnd Hge [Hsub Hgone Hdone]. split.
  - etrans; [exact Hsub|apply unswept_sub].
  - intros x Hx Hn. destruct (swept limit l x) eqn:E; [by eapply swept_true|]. apply Hgone; [|done]. apply elem_of_List_filter. by rewrite E.
  - intros Hr. destruct (Hdone Hr) as [?|?]; [by left|right]. rewrite Nat2Z.inj_succ, Z.mul_succ_l.
    pose proof (filter_negb_length (swept limit l) l). unfold unswept in *. lia.
Qed.

Context `{Env} `{!SweepableLaws R K}.

Lemma sweep_run limit ctx w :
  sweep limit ctx w =
  match env_fault (w_step w) with
  | Some f => (Err (fault_error f), tick w)
  | None => let l := sw_table (w_db w) in
            (Ok (Z.of_nat (length (List.filter (swept limit l) l))), tick w <| w_db := sw_put (unswept limit l) (w_db w) |>)
  end.
Proof. done. Qed.

(** The loop: so many statements at most, and nothing else is touched. *)
Lemma batches_sweep n limit ctx w r w' :
  batches n (sweep limit) limit ctx w = (r, w') -> NoDup (sw_key <$> sw_table (w_db w)) ->
  (w_step w <= w_step w' <= w_step w + n)%nat ∧ pruned n limit r (sw_table (w_db w)) (sw_table (w_db w')) ∧
  w_db w' = sw_put (sw_table (w_db w')) (w_db w).
Proof.
  revert w. induction n as [|n IH]; intros w Hrun Hnd.
  - injection Hrun as <- <-. split_and!; [lia|lia|apply pruned_same; by right|by rewrite sw_put_table].
  - cbn [batches] in Hrun. unfold mbind, M_bind in Hrun. rewrite sweep_run in Hrun. destruct (env_fault (w_step w)).
    { injection Hrun as <- <-. simpl. split_and!; [lia|lia|apply pruned_same; by left|by rewrite sw_put_table]. }
    simpl in Hrun. set (l := sw_table (w_db w)) in *. destruct (Z.ltb_spec (Z.of_nat (length (List.filter (swept limit l) l))) limit).
    + injection Hrun as <- <-. simpl. rewrite sw_table_put. split_and!; [lia|lia|by apply pruned_short|done].
    + apply IH in Hrun as (Hs & Hp & Hdb); simpl in *; rewrite sw_table_put in *.
      * split_and!; [lia|lia|by apply pruned_next|]. by rewrite Hdb at 1; rewrite sw_put_put.
      * by apply NoDup_fmap_List_filter.
Qed.
End sweep.
