(* ===== verification/UserStore.v ===== *)
(** * The users store (internal/storages/users)

    One definition per statement.  The search of the list looks at names and
    addresses, and at messenger tags when the caller asks for it. *)
From Stdlib Require Import ZArith Lia Ascii String.
From stdpp Require Import base sorting sets strings numbers list.
From S2P Require Import Prelude Go Entity Conflict AuditTrail Schema Logic Dbtx Like MaintStore.
Open Scope Z_scope.

(** ** mapper.go *)

Definition fromDBUser (r : UserRow) : User :=
  mkUser (ur_ID r) (ur_Email r) (ur_Name r) (ur_Roles r) (ur_CreatedAt r) (ur_BlockedAt r) (ur_Timezone r)
    (ur_TelegramTag r) (ur_SlackTag r).
(** The id and the creation time are not carried over. *)
Definition toDBUser (u : User) : UserRow :=
  mkUserRow uuid_Nil (u_Email u) (u_Name u) (u_Roles u) zeroTime (u_BlockedAt u) (u_Timezone u)
    (u_TelegramTag u) (u_SlackTag u).

(** CHECK (length(tag) <= 64); a NULL passes. *)
Definition tag_fits (tag : option string) : bool :=
  match tag with
  | Some t => Nat.leb (rune_count t) 64
  | None => true
  end.
Definition user_row_fits (r : UserRow) : bool := tag_fits (ur_TelegramTag r) && tag_fits (ur_SlackTag r).

Definition find_user (id : UUID) (db : DB) : option UserRow := List.find (fun r => N.eqb (ur_ID r) id) (users db).
Definition row_active_admin (r : UserRow) : bool :=
  existsb (String.eqb RoleAdmin) (ur_Roles r) && match ur_BlockedAt r with None => true | Some _ => false end.

(** UPDATE ... SET every mutable column but the address, the name and the
    creation time. *)
Definition written (user : User) (r : UserRow) : UserRow :=
  let m := toDBUser user in
  if N.eqb (ur_ID r) (u_ID user)
  then r <| ur_Roles := ur_Roles m |> <| ur_BlockedAt := pg_ts <$> ur_BlockedAt m |>
         <| ur_Timezone := ur_Timezone m |> <| ur_TelegramTag := ur_TelegramTag m |>
         <| ur_SlackTag := ur_SlackTag m |>
  else r.

Section store.
Context `{Env} `{Collation}.

Definition Create (u : User) : M User :=
  sql (fun s db =>
    let row := (toDBUser u) <| ur_ID := pg_uuid s 0 |> <| ur_CreatedAt := pg_now s |>
                 <| ur_BlockedAt := pg_ts <$> u_BlockedAt u |> in
    require (user_row_fits row) pgCheckViolation
      (require (negb (existsb (fun r => N.eqb (ur_ID r) (ur_ID row) || String.eqb (ur_Email r) (ur_Email row)) (users db)))
         ErrPGUniqueViolation
         (Ok (fromDBUser row, db <| users := users db ++ [row] |>)))).

Definition get (r : option UserRow) : M User :=
  match r with
  | Some row => mret (fromDBUser row)
  | None => raise ErrUserNotFound
  end.
Definition GetByID (userID : UUID) : M User := r ← query (find_user userID); get r.
Definition GetForUpdateByID (userID : UUID) : M User := r ← query (find_user userID); get r.
(** The address is unique as written; of several that differ in case the server
    answers one. *)
Definition GetByEmail (email : string) : M User :=
  r ← query (fun db => List.find (fun r => String.eqb (pg_lower (ur_Email r)) (pg_lower email)) (users db)); get r.

Definition Update (user : User) : M unit :=
  sql (fun _ db =>
    require (forallb (fun r => negb (N.eqb (ur_ID r) (u_ID user)) || user_row_fits (written user r)) (users db)) pgCheckViolation
      (Ok (tt, db <| users := written user <$> users db |>))).

Definition countList (where_ : UserRow -> bool) : M Z :=
  query (fun db => Z.of_nat (length (List.filter where_ (users db)))).
Definition CountActiveAdmins : M Z := countList row_active_admin.
Definition LockAdminMutations : M unit := AdvisoryXactLock 1.

Definition ListActiveRoles : M (list (list Role)) :=
  query (fun db => ur_Roles <$> List.filter (fun r => match ur_BlockedAt r with None => true | Some _ => false end) (users db)).

(** *** list.go *)

Record ListUsersCmd := mkListUsers {
  lu_Search : string; lu_SearchMessengerTags : bool; lu_Roles : list Role; lu_IDs : list UUID; lu_Limit : Z; lu_Offset : Z;
  lu_ExcludeBlocked : bool }.

(** A NULL column is not LIKE anything. *)
Definition search_null (column : option string) (q : string) : bool :=
  match column with
  | Some c => search c q
  | None => false
  end.
Definition user_matches (cmd : ListUsersCmd) (r : UserRow) : bool :=
  let tag := strings_TrimPrefix (strings_TrimSpace (lu_Search cmd)) "@" in
  search (ur_Name r) (lu_Search cmd) || search (ur_Email r) (lu_Search cmd) ||
  lu_SearchMessengerTags cmd && negb (String.eqb tag "") &&
    (search_null (ur_TelegramTag r) tag || search_null (ur_SlackTag r) tag).
Definition listWhereExpr (cmd : ListUsersCmd) (r : UserRow) : bool :=
  (String.eqb (lu_Search cmd) "" || user_matches cmd r) &&
  (bool_decide (lu_IDs cmd = []) || bool_decide (ur_ID r ∈ lu_IDs cmd)) &&
  (bool_decide (lu_Roles cmd = []) || existsb (fun role => bool_decide (role ∈ lu_Roles cmd)) (ur_Roles r)) &&
  (negb (lu_ExcludeBlocked cmd) || match ur_BlockedAt r with None => true | Some _ => false end).

(** ORDER BY name, id.  The limit is also the capacity of the slice, so that a
    negative one panics; a negative OFFSET is an error of the server. *)
Definition name_cmp (a b : UserRow) : comparison := cmp_then (pg_cmp (ur_Name a) (ur_Name b)) (xuuid_Compare (ur_ID a) (ur_ID b)).
Definition List_ (cmd : ListUsersCmd) : M (list User * Z) :=
  total ← countList (listWhereExpr cmd);
  (if lu_Limit cmd <? 0 then lift (Panic "makeslice: cap out of range") else mret tt);;
  users ← sql (fun _ db =>
    if lu_Offset cmd <? 0 then Err (EPg "2201X")
    else Ok (fromDBUser <$> take (Z.to_nat (lu_Limit cmd)) (drop (Z.to_nat (lu_Offset cmd))
               (sort_by name_cmp (List.filter (listWhereExpr cmd) (users db)))), db));
  mret (users, total).
End store.
