(* ===== verification/Credentials.v ===== *)
(** * The credentials store (internal/storages/authcredentials)

    Passwords and one-time codes in one table, told apart by their kind.  The
    guards of consuming a code and of spending an attempt are conditions of the
    statements themselves. *)
From Stdlib Require Import ZArith Lia Ascii String.
From stdpp Require Import base sorting sets strings numbers list.
From S2P Require Import Prelude Go Entity Conflict AuditTrail Schema Logic MaintStore UserStore.
Open Scope Z_scope.

Definition AuthCredentialKindPassword : string := "password".
Definition AuthCredentialKindOTP : string := "otp".

(** entity/auth_credential.go *)
Record AuthCredential := mkCredential {
  c_ID : UUID; c_UserID : UUID; c_Kind : string; c_SecretHash : string; c_ExpiresAt : option Time;
  c_ConsumedAt : option Time; c_Attempts : Z; c_SessionNonce : option string; c_CreatedAt : Time;
  c_UpdatedAt : Time }.

(** ** mapper.go *)

Definition fromDB (r : CredentialRow) : AuthCredential :=
  mkCredential (ac_ID r) (ac_UserID r) (ac_Kind r) (ac_SecretHash r) (ac_ExpiresAt r) (ac_ConsumedAt r)
    (ac_Attempts r) (ac_SessionNonce r) (ac_CreatedAt r) (ac_UpdatedAt r).
(** The two times of the row are left to the server. *)
Definition toDB (c : AuthCredential) : CredentialRow :=
  mkCredentialRow (c_ID c) (c_UserID c) (c_Kind c) (c_SecretHash c) (c_ExpiresAt c) (c_ConsumedAt c)
    (c_Attempts c) (c_SessionNonce c) zeroTime zeroTime.

(** ** Conditions and constraints *)

Definition is_otp (r : CredentialRow) : bool := String.eqb (ac_Kind r) AuthCredentialKindOTP.
Definition is_password (r : CredentialRow) : bool := String.eqb (ac_Kind r) AuthCredentialKindPassword.
Definition unconsumed (r : CredentialRow) : bool := match ac_ConsumedAt r with None => true | Some _ => false end.
(** The rows of the index auth_credentials_active_otp_uidx. *)
Definition active_otp (r : CredentialRow) : bool := is_otp r && unconsumed r.
Definition of_user (userID : UUID) (r : CredentialRow) : bool := N.eqb (ac_UserID r) userID.
(** Two rows one of the unique indexes keeps apart. *)
Definition clash (a b : CredentialRow) : bool :=
  N.eqb (ac_ID a) (ac_ID b) ||
  N.eqb (ac_UserID a) (ac_UserID b) && (is_password a && is_password b || active_otp a && active_otp b).
Definition user_exists (id : UUID) (db : DB) : bool := existsb (fun r => N.eqb (ur_ID r) id) (users db).

(** What a row is updated to, and how many rows are hit. *)
Definition update_where (p : CredentialRow -> bool) (f : CredentialRow -> CredentialRow) (db : DB) : DB :=
  db <| auth_credentials := (fun r => if p r then f r else r) <$> auth_credentials db |>.
Definition hits (p : CredentialRow -> bool) (db : DB) : nat := length (List.filter p (auth_credentials db)).

Section store.
Context `{Env}.

(** id, consumed_at and the two times take the column defaults. *)
Definition Create (cred : AuthCredential) : M AuthCredential :=
  wrap_err (fun err => if dbtx_ErrorIs err ErrPGUniqueViolation then ErrAuthCredentialConflict else err)
    (sql (fun s db =>
       let row := (toDB cred) <| ac_ID := pg_uuid s 0 |> <| ac_ExpiresAt := pg_ts <$> c_ExpiresAt cred |>
                    <| ac_ConsumedAt := None |> <| ac_CreatedAt := pg_now s |> <| ac_UpdatedAt := pg_now s |> in
       require (is_password row || is_otp row) pgCheckViolation
         (require (negb (existsb (clash row) (auth_credentials db))) ErrPGUniqueViolation
            (require (user_exists (ac_UserID row) db) ErrPGForeignKeyViolation
               (Ok (fromDB row, db <| auth_credentials := auth_credentials db ++ [row] |>)))))).

Definition get (r : option CredentialRow) : M AuthCredential :=
  match r with
  | Some row => mret (fromDB row)
  | None => raise ErrAuthCredentialNotFound
  end.
Definition find_otp (userID : UUID) (db : DB) : option CredentialRow :=
  List.find (fun r => of_user userID r && active_otp r) (auth_credentials db).
Definition GetUnconsumedOTPByUserID (userID : UUID) : M AuthCredential := r ← query (find_otp userID); get r.
Definition GetUnconsumedOTPByUserIDForUpdate (userID : UUID) : M AuthCredential := r ← query (find_otp userID); get r.
Definition GetPasswordByUserID (userID : UUID) : M AuthCredential :=
  r ← query (fun db => List.find (fun r => of_user userID r && is_password r) (auth_credentials db)); get r.

Definition claimable (id : UUID) (maxAttempts : Z) (r : CredentialRow) : bool :=
  N.eqb (ac_ID r) id && active_otp r && (ac_Attempts r <? maxAttempts).
Definition ClaimOTPAttempt (id : UUID) (maxAttempts : Z) : M bool :=
  now ← UTCNow;
  sql (fun _ db =>
    Ok (negb (Nat.eqb (hits (claimable id maxAttempts) db) 0),
        update_where (claimable id maxAttempts)
          (fun r => r <| ac_Attempts := ac_Attempts r + 1 |> <| ac_UpdatedAt := pg_ts now |>) db)).

Definition consumable (id : UUID) (r : CredentialRow) : bool := N.eqb (ac_ID r) id && active_otp r.
Definition ConsumeOTP (id : UUID) : M bool :=
  now ← UTCNow;
  sql (fun _ db =>
    Ok (negb (Nat.eqb (hits (consumable id) db) 0),
        update_where (consumable id)
          (fun r => r <| ac_ConsumedAt := Some (pg_ts now) |> <| ac_UpdatedAt := pg_ts now |>) db)).

(** A NULL expires_at compares as neither before nor after. *)
Definition expired_before (cutoff : Time) (r : CredentialRow) : bool :=
  is_otp r && match ac_ExpiresAt r with Some t => t <? pg_ts cutoff | None => false end.
Definition expiry_cmp (a b : CredentialRow) : comparison :=
  Z.compare (FromPtr 0 (ac_ExpiresAt a)) (FromPtr 0 (ac_ExpiresAt b)).
(** The ids the subquery of a prune picks. *)
Definition oldest_expired (cutoff : Time) (limit : Z) (l : list CredentialRow) : list UUID :=
  ac_ID <$> pg_limit limit (sort_by expiry_cmp (List.filter (expired_before cutoff) l)).
Definition PruneOTPExpiredBefore (cutoff : Time) (limit : Z) : M Z :=
  sql (fun _ db =>
    let ids := oldest_expired cutoff limit (auth_credentials db) in
    let gone r := bool_decide (ac_ID r ∈ ids) in
    Ok (Z.of_nat (length (List.filter gone (auth_credentials db))),
        db <| auth_credentials := List.filter (fun r => negb (gone r)) (auth_credentials db) |>)).

(** INSERT ... ON CONFLICT (user_id) WHERE kind = 'password' DO UPDATE. *)
Definition UpsertPassword (userID : UUID) (phc : string) : M unit :=
  sql (fun s db =>
    let mine r := of_user userID r && is_password r in
    let row := mkCredentialRow (pg_uuid s 0) userID AuthCredentialKindPassword phc None None 0 None (pg_now s) (pg_now s) in
    if existsb mine (auth_credentials db) then
      Ok (tt, update_where mine (fun r => r <| ac_SecretHash := phc |> <| ac_UpdatedAt := pg_now s |>
                <| ac_Attempts := 0 |> <| ac_ExpiresAt := None |> <| ac_ConsumedAt := None |>
                <| ac_SessionNonce := None |>) db)
    else
      require (negb (existsb (clash row) (auth_credentials db))) ErrPGUniqueViolation
        (require (user_exists userID db) ErrPGForeignKeyViolation
           (Ok (tt, db <| auth_credentials := auth_credentials db ++ [row] |>)))).
End store.
