(* ===== verification/TokenStore.v ===== *)
(** * Refresh tokens and the key-value server

    The store of refresh tokens (internal/storages/refreshtoken), the blacklist
    of access tokens (internal/storages/blacklisttoken) and the distributed lock
    (internal/storages/distributedlock). *)
From Stdlib Require Import ZArith Lia Ascii String.
From stdpp Require Import base sorting sets strings numbers list.
From S2P Require Import Prelude Go Entity Conflict AuditTrail Schema Logic Dbtx MaintStore Credentials.
Open Scope Z_scope.

(** ** entity/refresh_token.go *)

Record RefreshToken := mkRefreshToken {
  Token : string; t_UserID : UUID; Family : UUID; t_ExpiresAt : Time; t_SessionStartedAt : Time;
  GraceTTL : option Time; Revoked : bool; ReplacedBy : option string; t_ClientIP : string; t_CreatedAt : Time;
  t_UpdatedAt : Time }.

(** A token as it is issued. *)
Definition newToken (hash : string) (userID family : UUID) (expires : Time) (clientIP : string) (started : Time) :
    RefreshToken :=
  mkRefreshToken hash userID family expires started None false None clientIP zeroTime zeroTime.

(** ** mapper.go *)

Definition fromDBToken (t : TokenRow) : RefreshToken :=
  mkRefreshToken (rt_TokenHash t) (rt_UserID t) (rt_Family t) (rt_ExpiresAt t) (rt_SessionStartedAt t) (rt_GraceTTL t)
    (rt_Revoked t) (rt_ReplacedBy t) (rt_ClientIP t) (rt_CreatedAt t) (FromPtr zeroTime (rt_UpdatedAt t)).
Definition toDBRefreshToken (t : RefreshToken) : TokenRow :=
  mkTokenRow (Token t) (t_UserID t) (Family t) (t_ExpiresAt t) (GraceTTL t) (Revoked t) (ReplacedBy t) zeroTime None
    (t_SessionStartedAt t) (t_ClientIP t).

Definition find_token (hash : string) (db : DB) : option TokenRow :=
  List.find (fun r => String.eqb (rt_TokenHash r) hash) (refresh_tokens db).

Section store.
Context `{Env}.

(** created_at takes its default; the server rounds the times. *)
Definition Save (t : RefreshToken) : M unit :=
  sql (fun s db =>
    let m := toDBRefreshToken t in
    let row := m <| rt_CreatedAt := pg_now s |> <| rt_ExpiresAt := pg_ts (rt_ExpiresAt m) |>
                 <| rt_GraceTTL := pg_ts <$> rt_GraceTTL m |> <| rt_SessionStartedAt := pg_ts (rt_SessionStartedAt m) |> in
    require (negb (existsb (fun r => String.eqb (rt_TokenHash r) (rt_TokenHash row)) (refresh_tokens db)))
      ErrPGUniqueViolation
      (require (user_exists (rt_UserID row) db) ErrPGForeignKeyViolation
         (Ok (tt, db <| refresh_tokens := refresh_tokens db ++ [row] |>)))).

Definition get (r : option TokenRow) : M RefreshToken :=
  match r with
  | Some row => mret (fromDBToken row)
  | None => raise ErrRefreshTokenNotFound
  end.
Definition GetByTokenHash (hash : string) : M RefreshToken := r ← query (find_token hash); get r.
Definition GetByTokenHashForUpdate (hash : string) : M RefreshToken := r ← query (find_token hash); get r.

Definition HasLiveToken (family : UUID) : M bool :=
  sql (fun s db => Ok (existsb (fun r => N.eqb (rt_Family r) family && negb (rt_Revoked r) && (pg_now s <? rt_ExpiresAt r))
                         (refresh_tokens db), db)).

(** Only a row that is still live is rotated. *)
Definition rotatable (hash : string) (r : TokenRow) : bool := String.eqb (rt_TokenHash r) hash && negb (rt_Revoked r).
Definition rotated (successorHash : string) (graceUntil now : Time) (r : TokenRow) : TokenRow :=
  r <| rt_Revoked := true |> <| rt_ReplacedBy := Some successorHash |> <| rt_GraceTTL := Some (pg_ts graceUntil) |>
    <| rt_UpdatedAt := Some now |>.
Definition Rotate (tokenHash successorHash : string) (graceUntil : Time) : M unit :=
  rows ← sql (fun s db =>
    Ok (length (List.filter (rotatable tokenHash) (refresh_tokens db)),
        db <| refresh_tokens := (fun r => if rotatable tokenHash r then rotated successorHash graceUntil (pg_now s) r else r)
                <$> refresh_tokens db |>));
  if Nat.eqb rows 0 then raise ErrRefreshTokenAlreadyRotated else mret tt.

(** UPDATE ... RETURNING, and the distinct families of the rows. *)
Definition revoke (where_ : TokenRow -> bool) : M (list UUID) :=
  sql (fun s db =>
    Ok (uniq (rt_Family <$> List.filter where_ (refresh_tokens db)),
        db <| refresh_tokens := (fun r => if where_ r then r <| rt_Revoked := true |> <| rt_UpdatedAt := Some (pg_now s) |> else r)
                <$> refresh_tokens db |>)).
Definition RevokeByUserID (userID : UUID) : M (list UUID) := revoke (fun r => N.eqb (rt_UserID r) userID).
Definition RevokeByUserIDExceptFamily (userID keep : UUID) : M (list UUID) :=
  revoke (fun r => N.eqb (rt_UserID r) userID && negb (N.eqb (rt_Family r) keep)).
Definition RevokeFamily (family : UUID) : M unit := _ ← revoke (fun r => N.eqb (rt_Family r) family); mret tt.

Definition token_expiry_cmp (a b : TokenRow) : comparison := Z.compare (rt_ExpiresAt a) (rt_ExpiresAt b).
Definition PruneExpiredBefore (cutoff : Time) (limit : Z) : M Z :=
  sql (fun _ db =>
    let picked := rt_TokenHash <$> pg_limit limit (sort_by token_expiry_cmp
      (List.filter (fun r => rt_ExpiresAt r <? pg_ts cutoff) (refresh_tokens db))) in
    let gone r := bool_decide (rt_TokenHash r ∈ picked) in
    Ok (Z.of_nat (length (List.filter gone (refresh_tokens db))),
        db <| refresh_tokens := List.filter (fun r => negb (gone r)) (refresh_tokens db) |>)).

(** [dbtx.AdvisoryXactLockOn]; the lock itself is the server's. *)
Definition AdvisoryXactLockOn (key : Z) (object : string) : M unit :=
  tx ← in_tx;
  if (tx : bool) then wrap_err (Errorf "acquire advisory xact lock") (query (fun _ => tt))
  else raise (EOther "advisory xact lock requires an active transaction").
Definition AdvisoryLockKeyUserSessions : Z := 5.
Definition LockUserSessions (userID : UUID) : M unit := AdvisoryXactLockOn AdvisoryLockKeyUserSessions (uuid_String userID).

(** ** The key-value server *)

(** A command, at the server's clock; a command that fails was not run. *)
Definition kv {A} (f : Time -> list KVEntry -> A * list KVEntry) : M A := fun _ w =>
  match env_fault (w_step w) with
  | Some _ => (Err (EOther "valkey: connection"), tick w)
  | None => let '(a, l) := f (env_now (w_step w)) (w_kv w) in (Ok a, tick w <| w_kv := l |>)
  end.
Definition kv_live (now : Time) (key : string) (e : KVEntry) : bool := String.eqb (kv_Key e) key && (now <? kv_ExpiresAt e).
Definition kv_get (now : Time) (key : string) (l : list KVEntry) : option KVValue := kv_Value <$> List.find (kv_live now key) l.
Definition kv_put (key : string) (value : KVValue) (expires : Time) (l : list KVEntry) : list KVEntry :=
  mkKV key value expires :: List.filter (fun e => negb (String.eqb (kv_Key e) key)) l.
Definition kv_del (key : string) (l : list KVEntry) : list KVEntry :=
  List.filter (fun e => negb (String.eqb (kv_Key e) key)) l.

(** blacklisttoken *)
Definition keyPrefix : string := "blacklist:".
Definition sessionKeyPrefix : string := keyPrefix +:+ "session:".
Definition Add (jti : string) (expiration : Duration) : M unit :=
  if expiration <=? 0 then mret tt
  else wrap_err (Errorf ("blacklist add " +:+ jti))
    (kv (fun now l => (tt, kv_put (keyPrefix +:+ jti) (KVText "1") (now + expiration) l))).
(** One pipeline. *)
Definition AddSessions (expiration : Duration) (sessionIDs : list UUID) : M unit :=
  if (expiration <=? 0) || Nat.eqb (length sessionIDs) 0 then mret tt
  else wrap_err (Errorf "blacklist add sessions")
    (kv (fun now l =>
       (tt, fold_left (fun l id => kv_put (sessionKeyPrefix +:+ uuid_String id) (KVText "1") (now + expiration) l) sessionIDs l))).
Definition Contains (jti : string) : M bool :=
  wrap_err (Errorf ("blacklist check " +:+ jti))
    (kv (fun now l => (bool_decide (is_Some (kv_get now (keyPrefix +:+ jti) l)), l))).
Definition IsRevoked (jti sessionID : string) : M bool :=
  let keys := [keyPrefix +:+ jti] ++ (if String.eqb sessionID "" then [] else [sessionKeyPrefix +:+ sessionID]) in
  wrap_err (Errorf ("blacklist check " +:+ jti))
    (kv (fun now l => (existsb (fun k => bool_decide (is_Some (kv_get now k l))) keys, l))).

(** distributedlock *)
Record DistributedLock := mkLock { dl_Key : string; dl_Token : string }.
Definition lockPrefix : string := "lock:".
(** SET NX with a time to live; [uuid.NewString] for the owner. *)
Definition Acquire (key : string) (ttl : Duration) : M DistributedLock := fun ctx w =>
  let lock := mkLock (lockPrefix +:+ key) (uuid_String (env_uuid (w_step w) 0)) in
  (got ← wrap_err (Errorf ("acquire lock " +:+ key))
     (kv (fun now l => if bool_decide (is_Some (kv_get now (dl_Key lock) l)) then (false, l)
                       else (true, kv_put (dl_Key lock) (KVText (dl_Token lock)) (now + ttl) l)));
   if (got : bool) then mret lock else raise ErrLockBusy) ctx (tick w).
(** The compare-and-delete script. *)
Definition Release (lock : DistributedLock) : M unit :=
  deleted ← wrap_err (Errorf ("release lock " +:+ dl_Key lock))
    (kv (fun now l => if bool_decide (kv_get now (dl_Key lock) l = Some (KVText (dl_Token lock))) then (1, kv_del (dl_Key lock) l)
                      else (0, l)));
  if deleted =? 0 then raise (Errorf ("release lock " +:+ dl_Key lock) ErrLockNotHeld) else mret tt.
End store.
