(* ===== verification/InvitationStore.v ===== *)
(** * The invitations store (internal/storages/userinvitations)

    One definition per statement.  The statements that bound themselves by an
    id-subquery pick the oldest rows first. *)
From Stdlib Require Import ZArith Lia Ascii String.
From stdpp Require Import base sorting sets strings numbers list.
From S2P Require Import Prelude Go Entity Conflict AuditTrail Schema Logic Dbtx MaintStore Credentials.
Open Scope Z_scope.

(** ** entity/invitation.go *)

Definition InvitationStatusPending : string := "pending".
Definition InvitationStatusAccepted : string := "accepted".
Definition InvitationStatusRevoked : string := "revoked".
Definition InvitationStatusExpired : string := "expired".

Definition EffectiveStatus (i : Invitation) (now : Time) : string :=
  if String.eqb (inv_Status i) InvitationStatusPending && Before (inv_ExpiresAt i) now then InvitationStatusExpired
  else inv_Status i.

(** The preview names a live invitation "valid" and says nothing else of it. *)
Definition PreviewStatus (i : Invitation) (now : Time) : string :=
  let s := EffectiveStatus i now in
  if String.eqb s InvitationStatusPending then "valid"
  else if String.eqb s InvitationStatusExpired then "expired"
  else if String.eqb s InvitationStatusAccepted then "accepted"
  else if String.eqb s InvitationStatusRevoked then "revoked"
  else "invalid".

(** ** mapper.go *)

Definition fromDB (r : InvitationRow) : Invitation :=
  mkInvitation (iv_ID r) (iv_Email r) (iv_Roles r) (iv_TokenHash r) (iv_Status r) (iv_InvitedByID r) (iv_ExpiresAt r)
    (iv_SentAt r) (iv_AcceptedAt r) (iv_RevokedAt r) (iv_CreatedAt r).
Definition toDB (r : Invitation) : InvitationRow :=
  mkInvitationRow (inv_ID r) (inv_Email r) (inv_Roles r) (inv_TokenHash r) (inv_Status r) (inv_InvitedByID r)
    (inv_ExpiresAt r) (inv_SentAt r) (inv_AcceptedAt r) (inv_RevokedAt r) zeroTime.

Definition is_pending (r : InvitationRow) : bool := String.eqb (iv_Status r) InvitationStatusPending.
Definition find_invitation (id : UUID) (db : DB) : option InvitationRow :=
  List.find (fun r => N.eqb (iv_ID r) id) (user_invitations db).

Section store.
Context `{Env} `{Collation}.

(** The two unique indexes, and that the inviter exists. *)
Definition Create (inv : Invitation) : M Invitation :=
  r ← attempt (sql (fun s db =>
    let m := toDB inv in
    let row := m <| iv_ID := pg_uuid s 0 |> <| iv_CreatedAt := pg_now s |> <| iv_ExpiresAt := pg_ts (iv_ExpiresAt m) |>
                 <| iv_SentAt := pg_ts (iv_SentAt m) |> <| iv_AcceptedAt := pg_ts <$> iv_AcceptedAt m |>
                 <| iv_RevokedAt := pg_ts <$> iv_RevokedAt m |> in
    let clash r := N.eqb (iv_ID r) (iv_ID row) || String.eqb (iv_TokenHash r) (iv_TokenHash row) ||
                   is_pending r && is_pending row && String.eqb (pg_lower (iv_Email r)) (pg_lower (iv_Email row)) in
    require (negb (existsb clash (user_invitations db))) ErrPGUniqueViolation
      (require (user_exists (iv_InvitedByID row) db) ErrPGForeignKeyViolation
         (Ok (fromDB row, db <| user_invitations := user_invitations db ++ [row] |>)))));
  match r with
  | inl i => mret i
  | inr e => if dbtx_ErrorIs e ErrPGUniqueViolation then raise ErrActivePendingExists else raise e
  end.

Definition get (r : option InvitationRow) : M Invitation :=
  match r with
  | Some row => mret (fromDB row)
  | None => raise ErrInvitationNotFound
  end.
Definition GetByID (id : UUID) : M Invitation := r ← query (find_invitation id); get r.
Definition GetForUpdateByID (id : UUID) : M Invitation := r ← query (find_invitation id); get r.
Definition GetByTokenHash (tokenHash : string) : M Invitation :=
  r ← query (fun db => List.find (fun r => String.eqb (iv_TokenHash r) tokenHash) (user_invitations db)); get r.
Definition GetActivePendingByEmail (email : string) : M Invitation :=
  r ← query (fun db => List.find (fun r => String.eqb (pg_lower (iv_Email r)) (pg_lower email) && is_pending r)
                          (user_invitations db));
  get r.

Definition update_where (where_ : InvitationRow -> bool) (set : InvitationRow -> InvitationRow) (db : DB) : Z * DB :=
  (Z.of_nat (length (List.filter where_ (user_invitations db))),
   db <| user_invitations := (fun r => if where_ r then set r else r) <$> user_invitations db |>).

Definition expiry_cmp (a b : InvitationRow) : comparison := Z.compare (iv_ExpiresAt a) (iv_ExpiresAt b).
Definition ExpireOlderThan (now : Time) (limit : Z) : M Z :=
  sql (fun _ db =>
    let stale := iv_ID <$> pg_limit limit (sort_by expiry_cmp
      (List.filter (fun r => is_pending r && (iv_ExpiresAt r <? pg_ts now)) (user_invitations db))) in
    Ok (update_where (fun r => bool_decide (iv_ID r ∈ stale)) (fun r => r <| iv_Status := InvitationStatusExpired |>) db)).

(** Only a pending invitation that has not run out is accepted, once. *)
Definition MarkAccepted (id : UUID) : M bool :=
  now ← UTCNow;
  affected ← sql (fun _ db =>
    Ok (update_where (fun r => N.eqb (iv_ID r) id && is_pending r && (pg_ts now <? iv_ExpiresAt r))
          (fun r => r <| iv_Status := InvitationStatusAccepted |> <| iv_AcceptedAt := Some (pg_ts now) |>) db));
  mret (0 <? affected).

Definition is_terminal (r : InvitationRow) : bool :=
  existsb (String.eqb (iv_Status r)) [InvitationStatusExpired; InvitationStatusAccepted; InvitationStatusRevoked].
Definition created_cmp (a b : InvitationRow) : comparison := Z.compare (iv_CreatedAt a) (iv_CreatedAt b).
Definition PruneTerminalOlderThan (cutoff : Time) (limit : Z) : M Z :=
  sql (fun _ db =>
    let stale := iv_ID <$> pg_limit limit (sort_by created_cmp
      (List.filter (fun r => is_terminal r && (iv_CreatedAt r <? pg_ts cutoff)) (user_invitations db))) in
    let gone r := bool_decide (iv_ID r ∈ stale) in
    Ok (Z.of_nat (length (List.filter gone (user_invitations db))),
        db <| user_invitations := List.filter (fun r => negb (gone r)) (user_invitations db) |>)).

Definition Resend (id : UUID) (tokenHash : string) (expiresAt sentAt : Time) : M Invitation :=
  sql (fun _ db =>
    let set r := r <| iv_TokenHash := tokenHash |> <| iv_ExpiresAt := pg_ts expiresAt |> <| iv_SentAt := pg_ts sentAt |> in
    require (negb (existsb (fun r => String.eqb (iv_TokenHash r) tokenHash && negb (N.eqb (iv_ID r) id))
                     (user_invitations db))) ErrPGUniqueViolation
      (match find_invitation id db with
       | Some r => Ok (fromDB (set r), snd (update_where (fun r => N.eqb (iv_ID r) id) set db))
       | None => Err (EOther "qrm: no rows in result set")
       end)).

Definition SetRevoked (id : UUID) (revokedAt : Time) : M unit :=
  sql (fun _ db =>
    Ok (tt, snd (update_where (fun r => N.eqb (iv_ID r) id)
                  (fun r => r <| iv_Status := InvitationStatusRevoked |> <| iv_RevokedAt := Some (pg_ts revokedAt) |>) db))).

Definition ListPendingRoles : M (list (list Role)) :=
  now ← UTCNow;
  query (fun db => iv_Roles <$> List.filter (fun r => is_pending r && (pg_ts now <=? iv_ExpiresAt r)) (user_invitations db)).

(** *** List *)

Record InvitationListItem := mkListItem { li_Invitation : Invitation; li_InviterID : UUID; li_InviterName : string; li_InviterEmail : string }.

(** A status nobody knows lists everything. *)
Definition listWhereExpr (status : string) (now : Time) (r : InvitationRow) : bool :=
  if String.eqb status InvitationStatusPending then is_pending r && (pg_ts now <=? iv_ExpiresAt r)
  else if String.eqb status InvitationStatusExpired
  then String.eqb (iv_Status r) InvitationStatusExpired || is_pending r && (iv_ExpiresAt r <? pg_ts now)
  else if String.eqb status InvitationStatusAccepted || String.eqb status InvitationStatusRevoked
  then String.eqb (iv_Status r) status
  else true.

(** ORDER BY sent_at DESC, id DESC; the join drops an invitation whose inviter is gone. *)
Definition list_cmp (a b : InvitationRow) : comparison :=
  cmp_then (Z.compare (iv_SentAt b) (iv_SentAt a)) (xuuid_Compare (iv_ID b) (iv_ID a)).
Definition ListInvitations (status : string) : M (list InvitationListItem) :=
  now ← UTCNow;
  query (fun db =>
    omap (fun r => u ← List.find (fun u => N.eqb (ur_ID u) (iv_InvitedByID r)) (users db);
                   Some (mkListItem (fromDB r) (iv_InvitedByID r) (ur_Name u) (ur_Email u)))
      (sort_by list_cmp (List.filter (listWhereExpr status now) (user_invitations db)))).
End store.
