(* ===== verification/License.v ===== *)
(** * Licensed seats (internal/entity/license.go, internal/services/license)

    A license caps the seats of an organization.  The guard counts the active
    users and the pending invitations that hold a seat, under an advisory lock
    that lasts until its transaction ends; [SeatGuard] is the interface through
    which the role-granting paths call it. *)
From Stdlib Require Import ZArith Lia Ascii String.
From stdpp Require Import base sorting sets strings numbers list.
From S2P Require Import Prelude Go Entity Conflict AuditTrail Schema Logic Dbtx Interleave MaintStore UserStore Credentials.
From S2P Require Import InvitationStore.
Open Scope Z_scope.

(** ** entity/license.go *)

Definition LicenseStatusActive : string := "active".
Definition LicenseStatusBlocked : string := "blocked".
Record License := mkLicense { lic_Status : string; SeatsPurchased : option Z; lic_FetchedAt : option Time }.
Definition Blocked (l : option License) : bool :=
  match l with
  | Some l => String.eqb (lic_Status l) LicenseStatusBlocked
  | None => false
  end.

Record SeatBucket := mkBucket { sb_Active : Z; sb_Pending : Z }.
Record SeatUsage := mkUsage { su_Admin : SeatBucket; su_Reviewer : SeatBucket; su_Editor : SeatBucket; su_Guest : SeatBucket }.

(** The counters are int64; they count the elements of two slices of slice
    headers, so that no sum of them comes near the bound. *)
Definition SeatsUsed (u : SeatUsage) : Z :=
  sb_Active (su_Admin u) + sb_Active (su_Reviewer u) + sb_Active (su_Editor u).
Definition TotalActive (u : SeatUsage) : Z := SeatsUsed u + sb_Active (su_Guest u).
Definition SeatsOccupied (u : SeatUsage) : Z :=
  sb_Active (su_Admin u) + sb_Pending (su_Admin u) + sb_Active (su_Reviewer u) + sb_Pending (su_Reviewer u) +
  sb_Active (su_Editor u) + sb_Pending (su_Editor u).
Definition SeatsPending (u : SeatUsage) : Z :=
  sb_Pending (su_Admin u) + sb_Pending (su_Reviewer u) + sb_Pending (su_Editor u).

(** The closure [bucket] and what is done to what it points to. *)
Definition bucket (f : SeatBucket -> SeatBucket) (usage : SeatUsage) (roles : list Role) : SeatUsage :=
  let r := HighestRole roles in
  let 'mkUsage a rv e g := usage in
  if String.eqb r RoleAdmin then mkUsage (f a) rv e g
  else if String.eqb r RoleReviewer then mkUsage a (f rv) e g
  else if String.eqb r RoleEditor then mkUsage a rv (f e) g
  else mkUsage a rv e (f g).
Definition BucketSeats (activeRoles pendingRoles : list (list Role)) : SeatUsage :=
  let zero := mkBucket 0 0 in
  let active b := mkBucket (sb_Active b + 1) (sb_Pending b) in
  let pending b := mkBucket (sb_Active b) (sb_Pending b + 1) in
  foldl (bucket pending) (foldl (bucket active) (mkUsage zero zero zero zero) activeRoles) pendingRoles.

(** ** services/license *)

Inductive SeatOp : Type -> Type :=
  (** [Service.License]: the license_cache row behind a cache that may lag *)
  | SLicense : SeatOp (option License)
  | SLockSeats : SeatOp unit
  | SActiveRoles : SeatOp (list (list Role))
  | SPendingRoles : SeatOp (list (list Role)).

(** [Enforcement], as the role-granting paths see it. *)
Class SeatGuard := { EnsureSeatAvailable : Prog SeatOp unit }.

(** ensure_seat_available.go *)
Definition license_EnsureSeatAvailable : Prog SeatOp unit :=
  lic ← call SLicense;
  match lic with
  | None | Some (mkLicense _ None _) => mret tt
  | Some (mkLicense _ (Some purchased) _) =>
      call_wrap (Errorf "lock seat mutations") SLockSeats;;
      active ← call_wrap (Errorf "list active roles") SActiveRoles;
      pending ← call_wrap (Errorf "list pending roles") SPendingRoles;
      let occupied := SeatsOccupied (BucketSeats active pending) in
      if purchased <? occupied + 1 then PErr (Errorf "all seats are in use" ErrSeatsLimitExceeded) else mret tt
  end.
Definition license_guard : SeatGuard := {| EnsureSeatAvailable := license_EnsureSeatAvailable |}.
(** noop.go: self-hosted, nothing is enforced. *)
Definition Noop : SeatGuard := {| EnsureSeatAvailable := mret tt |}.

(** What the cache in front of license_cache answers at a moment. *)
Class LicenseCache := { cached_license : nat -> option License }.
Definition AdvisoryLockKeySeatMutations : Z := 2.

Section handler.
Context `{Env} `{LicenseCache}.
Definition seat_handle (X : Type) (op : SeatOp X) : M X :=
  match op with
  | SLicense => fun _ w => (Ok (cached_license (w_step w)), tick w)
  | SLockSeats => AdvisoryXactLock AdvisoryLockKeySeatMutations
  | SActiveRoles => ListActiveRoles
  | SPendingRoles => ListPendingRoles
  end.

(** refresh.go, seats_usage.go *)
Definition collectSeatUsage : M SeatUsage :=
  activeRoles ← ListActiveRoles;
  pendingRoles ← ListPendingRoles;
  mret (BucketSeats activeRoles pendingRoles).
Definition SeatsUsage : M (SeatUsage * option License) :=
  usage ← wrap_err (Errorf "collect seat usage") collectSeatUsage;
  lic ← seat_handle _ SLicense;
  mret (usage, lic).
End handler.

(** ** The counts *)

Definition holds_seat (roles : list Role) : bool := RoleOccupiesSeat (HighestRole roles).
Definition seats (l : list (list Role)) : Z := Z.of_nat (length (List.filter holds_seat l)).

Lemma occupies_seat_no r : r ≠ RoleAdmin -> r ≠ RoleReviewer -> r ≠ RoleEditor -> RoleOccupiesSeat r = false.
Proof.
  intros N1 N2 N3. unfold RoleOccupiesSeat, rolesLevel, go_lookup. simpl.
  destruct (String.eqb_spec RoleGuest r) as [|_]; [done|]. destruct (String.eqb_spec RoleEditor r) as [|_]; [by subst|].
  destruct (String.eqb_spec RoleReviewer r) as [|_]; [by subst|]. destruct (String.eqb_spec RoleAdmin r) as [|_]; [by subst|done].
Qed.

(** A role set lands in one bucket, and the seat-holding ones in those
    [SeatsOccupied] adds up. *)
Lemma bucket_occupied f d usage roles :
  (∀ b, sb_Active (f b) + sb_Pending (f b) = sb_Active b + sb_Pending b + d) ->
  SeatsOccupied (bucket f usage roles) = SeatsOccupied usage + (if holds_seat roles then d else 0).
Proof.
  intros Hf. unfold bucket, holds_seat. destruct usage as [a rv e g].
  destruct (String.eqb_spec (HighestRole roles) RoleAdmin) as [->|N1]; [unfold SeatsOccupied; simpl; specialize (Hf a); lia|].
  destruct (String.eqb_spec (HighestRole roles) RoleReviewer) as [->|N2]; [unfold SeatsOccupied; simpl; specialize (Hf rv); lia|].
  destruct (String.eqb_spec (HighestRole roles) RoleEditor) as [->|N3]; [unfold SeatsOccupied; simpl; specialize (Hf e); lia|].
  assert (RoleOccupiesSeat (HighestRole roles) = false) as -> by (by apply occupies_seat_no).
  unfold SeatsOccupied. simpl. lia.
Qed.

Lemma foldl_bucket_occupied f d l usage :
  (∀ b, sb_Active (f b) + sb_Pending (f b) = sb_Active b + sb_Pending b + d) ->
  SeatsOccupied (foldl (bucket f) usage l) = SeatsOccupied usage + d * seats l.
Proof.
  intros Hf. revert usage. induction l as [|r l IH]; intros usage; simpl; [unfold seats; simpl; lia|].
  rewrite IH, (bucket_occupied f d) by done. unfold seats. simpl. destruct (holds_seat r); simpl; lia.
Qed.

Lemma BucketSeats_occupied activeRoles pendingRoles :
  SeatsOccupied (BucketSeats activeRoles pendingRoles) = seats activeRoles + seats pendingRoles.
Proof.
  unfold BucketSeats. rewrite (foldl_bucket_occupied _ 1), (foldl_bucket_occupied _ 1); [unfold SeatsOccupied; simpl; lia|..];
    intros b; simpl; lia.
Qed.
