(* ===== verification/Fixtures.v ===== *)
(** * A small database for examples

    A planned maintenance, a draft that would collide with it, and a global one
    in progress; a server on which nothing fails. *)
From Stdlib Require Import ZArith Lia Ascii String.
From stdpp Require Import base sorting sets strings numbers list.
From S2P Require Import Prelude Go Entity Conflict AuditTrail Schema MaintStore.
Open Scope Z_scope.

Definition T0 : Time := 1700000000 * Second.
Definition at_min (m : Z) : Time := T0 + m * Minute.

(** No faults, a clock that advances one millisecond per question, fresh ids. *)
Definition calm_env : Env := {|
  env_now := fun n => T0 + Z.of_nat n * Millisecond; env_fault := fun _ => None; env_rand := fun _ => 0;
  env_uuid := fun n k => N.of_nat (1000 * S n + k); env_ctx_err := fun _ => None |}.

Definition ex_row (id : UUID) (status scope : string) (from to : Z) (actual : option Period) : MaintRow :=
  toDBMaintenance (zeroMaint <| ID := id |> <| Title := "maintenance" |> <| Status := status |> <| Scope := scope |>
    <| PlannedPeriod := NewPeriod (at_min from) (at_min to) |> <| ActualPeriod := actual |>
    <| ApproverUserID := 11%N |> <| CreatedByUserID := 12%N |> <| CreatedAt := at_min (-1000) |>).

Definition ex_step (id : UUID) (order : Z) (status : string) : StepRow :=
  mkStepRow id 3 order "switch over" "switch back" 5 status None None (at_min (-1000)) None.

Definition ex_db : DB := {|
  maintenances := [ex_row 1 "planned" "resource" 60 120 None;
                   ex_row 2 "draft" "resource" 90 150 None;
                   ex_row 3 "in_progress" "global" (-10) 10 (Some (NewOpenEndedPeriod (at_min (-10))))];
  maintenance_steps := [ex_step 32 2 "planned"; ex_step 31 1 "completed"];
  maintenance_resources := [mkMaintResourceRow 1 71; mkMaintResourceRow 2 72; mkMaintResourceRow 2 71];
  maintenance_mentions := [mkMentionRow 41 1 13 (at_min (-1000))];
  maintenance_notify_targets := [mkTargetRow 21 1 51 (at_min (-1000)) None None;
                                 mkTargetRow 23 3 51 (at_min (-1000)) (Some "42") (Some "#ops")];
  maintenance_deferred_notifications := [mkDeferredRow 61 2 (at_min 30) None (at_min (-1000))];
  maintenance_conflict_snapshot := [];
  messenger_channels := [mkChannelRow 51 "slack" "#ops" "ops" "" (at_min (-1000)) None None None None];
  resources := [mkResourceRow 71 "db-1" "" None (at_min (-1000)) None "active" None None;
                mkResourceRow 72 "db-2" "" None (at_min (-1000)) None "active" None None];
  users := []; auth_credentials := []; refresh_tokens := []; user_invitations := []; integration_settings := []; data_keys := []; user_identities := [];
  audit_log := []; license_cache := []; auth_settings := []; goque_tasks := [] |}.

Definition ex_world : World := mkWorld ex_db 0 [] [].

Lemma calm_uuid_inj m k : @env_uuid calm_env m 0 = @env_uuid calm_env k 0 -> m = k.
Proof.
  intros E. apply Nat2N.inj in E. rewrite !Nat.add_0_r in E. apply Nat.mul_cancel_l in E; [by injection E|done].
Qed.

Lemma calm_uuid_big m : (1000 <= @env_uuid calm_env m 0)%N.
Proof.
  change (N.of_nat 1000 <= N.of_nat (1000 * S m + 0))%N. generalize 1000%nat. intros x. nia.
Qed.
