(* ===== verification/Password.v ===== *)
(** * Password records (internal/utils/xcripto/argon2.go)

    A password is stored as a PHC text: the parameters of the derivation, the
    salt and the derived key.  The derivation itself is a library's; what is
    modelled is everything around it, down to [fmt.Sscanf] and base64. *)
From Stdlib Require Import ZArith Lia Ascii String.
From stdpp Require Import base sorting sets strings numbers list.
From S2P Require Import Prelude Go Sha256 Entity Conflict AuditTrail Schema Crypto Validation MaintStore Fixtures.
Open Scope Z_scope.

(** golang.org/x/crypto/argon2 *)
Class Argon2 := {
  argon2_Version : Z;
  argon2_IDKey : list ascii -> list ascii -> Z -> Z -> Z -> Z -> list ascii }.
(** What its documentation says: the version, and a key of the asked length. *)
Class Argon2Spec `{Argon2} : Prop := {
  argon2_version : argon2_Version = 19;
  argon2_length : ∀ p salt t m l k, 0 <= k -> length (argon2_IDKey p salt t m l k) = Z.to_nat k }.

(** ** base64.RawStdEncoding *)

Definition std_alphabet : list ascii :=
  bytes "ABCDEFGHIJKLMNOPQRSTUVWXYZabcdefghijklmnopqrstuvwxyz0123456789+/".
Definition std64 (n : N) : ascii := nth (N.to_nat n) std_alphabet "="%char.
Fixpoint base64_std (l : list ascii) : list ascii :=
  match l with
  | [] => []
  | [a] => let n := (N_of_ascii a * 16)%N in [std64 (n / 64); std64 (n mod 64)]
  | [a; b] =>
      let n := ((N_of_ascii a * 256 + N_of_ascii b) * 4)%N in
      [std64 (n / 4096); std64 (n / 64 mod 64); std64 (n mod 64)]
  | a :: b :: c :: l' =>
      let n := ((N_of_ascii a * 256 + N_of_ascii b) * 256 + N_of_ascii c)%N in
      [std64 (n / 262144); std64 (n / 4096 mod 64); std64 (n / 64 mod 64); std64 (n mod 64)] ++ base64_std l'
  end.
Definition std_value (c : ascii) : option N :=
  (fun p : nat * ascii => N.of_nat p.1) <$> list_find (fun x => x = c) std_alphabet.
(** Four characters at a time; the bits a short last group has to spare are not
    looked at. *)
Fixpoint decode_groups (l : list N) : option (list ascii) :=
  match l with
  | [] => Some []
  | [a; b] => Some [ascii_of_N ((a * 64 + b) / 16)]
  | [a; b; c] => let n := ((a * 64 + b) * 64 + c)%N in Some [ascii_of_N (n / 1024); ascii_of_N (n / 4 mod 256)]
  | a :: b :: c :: d :: l' =>
      let n := (((a * 64 + b) * 64 + c) * 64 + d)%N in
      r ← decode_groups l';
      Some ([ascii_of_N (n / 65536); ascii_of_N (n / 256 mod 256); ascii_of_N (n mod 256)] ++ r)
  | _ => None
  end.
Definition is_newline (c : ascii) : bool := bool_decide (c = byte 10) || bool_decide (c = byte 13).
(** Line breaks are skipped, any other foreign character is an error. *)
Definition DecodeString (s : list ascii) : option (list ascii) :=
  vs ← mapM std_value (List.filter (fun c => negb (is_newline c)) s);
  decode_groups vs.

(** ** strings.Split at one character, and fmt.Sscanf *)

Fixpoint split_at (sep : ascii) (l : list ascii) : list (list ascii) :=
  match l with
  | [] => [[]]
  | c :: l' =>
      if bool_decide (c = sep) then [] :: split_at sep l'
      else match split_at sep l' with
           | f :: fs => (c :: f) :: fs
           | [] => [[c]]
           end
  end.

(** A scan takes a prefix of the input, or fails. *)
Definition scanner (A : Type) : Type := list ascii -> option (A * list ascii).
Definition scan_literal (t : list ascii) : scanner unit := fun s =>
  if has_prefix s t then Some (tt, drop (length t) s) else None.
(** [SkipSpace]; a line break is an error. *)
Fixpoint skip_space (fuel : nat) : scanner unit := fun s =>
  match fuel with
  | O => Some (tt, s)
  | S fuel' =>
      if has_prefix s [byte 10] then None
      else match List.find (has_prefix s) space_encodings with
           | Some sp => skip_space fuel' (drop (length sp) s)
           | None => Some (tt, s)
           end
  end.
Definition is_digit (c : ascii) : bool := let n := N_of_ascii c in (48 <=? n)%N && (n <=? 57)%N.
Fixpoint take_digits (s : list ascii) : list ascii :=
  match s with
  | c :: s' => if is_digit c then c :: take_digits s' else []
  | [] => []
  end.
Definition digits_value (ds : list ascii) : Z := foldl (fun n c => n * 10 + (Z.of_N (N_of_ascii c) - 48)) 0 ds.
(** [%d] into an unsigned number of [bits] bits. *)
Definition scan_uint (bits : Z) : scanner Z := fun s =>
  match skip_space (length s) s with
  | Some (_, s) =>
      let ds := take_digits s in
      if Nat.eqb (length ds) 0 then None
      else if 2 ^ bits <=? digits_value ds then None
      else Some (digits_value ds, drop (length ds) s)
  | None => None
  end.
(** [%d] into an [int]. *)
Definition scan_int : scanner Z := fun s =>
  match skip_space (length s) s with
  | Some (_, s) =>
      let neg := has_prefix s (bytes "-") in
      let s := if has_prefix s (bytes "-") || has_prefix s (bytes "+") then drop 1 s else s in
      let ds := take_digits s in
      let v := if neg then - digits_value ds else digits_value ds in
      if Nat.eqb (length ds) 0 then None
      else if (v <? - 2 ^ 63) || (2 ^ 63 <=? v) then None
      else Some (v, drop (length ds) s)
  | None => None
  end.

(** ** argon2.go *)

Definition argon2Memory : Z := 64 * 1024.
Definition argon2Iterations : Z := 3.
Definition argon2Parallelism : Z := 1.
Definition argon2SaltBytes : nat := 16.
Definition argon2KeyBytes : Z := 32.
Definition minPasswordLen : Z := 12.
Definition maxPasswordLen : Z := 256.
Definition maxStoredMemory : Z := Z.shiftl 1 21.
Definition maxStoredIterations : Z := 16.
Definition maxStoredLanes : Z := 16.
Definition ErrMalformedHash := ESentinel "malformed password hash".
Definition ErrPasswordPolicy := ESentinel "password does not meet the length policy".
Definition phcPrefix : list ascii := bytes "$argon2id$".

(** The two rules run in turn; which one fails is the library's text. *)
Definition ValidatePasswordPolicy `{Ozzo} (password : string) : option error :=
  if Required_string password && Length minPasswordLen maxPasswordLen (String.length password) then None
  else Some (EJoin2 ErrPasswordPolicy (EOther "ozzo")).

Record phcRecord := mkPHC { memory : Z; iterations : Z; parallelism : Z; salt : list ascii; key : list ascii }.

Section argon2.
Context `{Argon2}.

Definition deriveKey (password : string) (salt : list ascii) (iterations memory parallelism : Z) : list ascii :=
  argon2_IDKey (bytes password) salt iterations memory parallelism argon2KeyBytes.

Definition encodePHC (salt key : list ascii) : string :=
  string_of_list_ascii (phcPrefix ++ bytes "v=" ++ decimal argon2_Version ++ bytes "$m=" ++ decimal argon2Memory ++
    bytes ",t=" ++ decimal argon2Iterations ++ bytes ",p=" ++ decimal argon2Parallelism ++ bytes "$" ++
    base64_std salt ++ bytes "$" ++ base64_std key).

Definition HashPassword `{Env} `{Entropy} (password : string) : M string := fun _ w =>
  (match read_full argon2SaltBytes (entropy (w_step w)) with
   | Some (salt, _) => Ok (encodePHC salt (deriveKey password salt argon2Iterations argon2Memory argon2Parallelism))
   | None => Err (Errorf "generate password salt" (EOther "EOF"))
   end, tick w).

Definition malformed (text : string) : error := Errorf text ErrMalformedHash.

Definition checkVersion (field : list ascii) : option error :=
  match scan_literal (bytes "v=") field with
  | Some (_, s) =>
      match scan_int s with
      | Some (version, _) => if version =? argon2_Version then None else Some (malformed "unsupported version")
      | None => Some (malformed "unreadable version")
      end
  | None => Some (malformed "unreadable version")
  end.

Definition scan_params (field : list ascii) : option (Z * Z * Z) :=
  '(_, s) ← scan_literal (bytes "m=") field;
  '(m, s) ← scan_uint 32 s;
  '(_, s) ← scan_literal (bytes ",t=") s;
  '(t, s) ← scan_uint 32 s;
  '(_, s) ← scan_literal (bytes ",p=") s;
  '(p, _) ← scan_uint 8 s;
  Some (m, t, p).
Definition parseParams (field : list ascii) : (Z * Z * Z) + error :=
  match scan_params field with
  | None => inr (malformed "unreadable parameters")
  | Some (m, t, p) =>
      if (m =? 0) || (maxStoredMemory <? m) || (t =? 0) || (maxStoredIterations <? t) || (p =? 0) || (maxStoredLanes <? p)
      then inr (malformed "parameters out of range")
      else inl (m, t, p)
  end.

Definition decode_field (field : list ascii) (err : error) : list ascii + error :=
  match DecodeString field with
  | Some (c :: l) => inl (c :: l)
  | _ => inr err
  end.

Definition parsePHC (stored : string) : phcRecord + error :=
  let stored := bytes stored in
  if negb (has_prefix stored phcPrefix) then inr (malformed "not an argon2id record")
  else
    match split_at "$"%char stored with
    | [_; _; version; params; salt; key] =>
        match checkVersion version with
        | Some err => inr err
        | None =>
            match parseParams params with
            | inr err => inr err
            | inl (m, t, p) =>
                match decode_field salt (malformed "unreadable salt") with
                | inr err => inr err
                | inl salt =>
                    match decode_field key (malformed "unreadable key") with
                    | inr err => inr err
                    | inl key => inl (mkPHC m t p salt key)
                    end
                end
            end
        end
    | _ => inr (malformed "expected 6 fields")
    end.

(** [subtle.ConstantTimeCompare]: only its answer is modelled. *)
Definition VerifyPassword (stored password : string) : bool + error :=
  match parsePHC stored with
  | inr err => inr err
  | inl rec =>
      if maxPasswordLen <? Z.of_nat (String.length password) then inl false
      else inl (bool_decide (deriveKey password (salt rec) (iterations rec) (memory rec) (parallelism rec) = key rec))
  end.
End argon2.

(** ** Round trips *)

Lemma std_table n :
  (n < 64)%N -> std_value (std64 n) = Some n ∧ is_newline (std64 n) = false ∧ std64 n ≠ "$"%char.
Proof.
  intros Hn. assert (Forall (fun k => std_value (std64 (N.of_nat k)) = Some (N.of_nat k) ∧
    is_newline (std64 (N.of_nat k)) = false ∧ std64 (N.of_nat k) ≠ "$"%char) (seq 0 64)) as Hall by decide_now.
  rewrite Forall_forall in Hall. rewrite <- (N2Nat.id n). apply Hall. apply elem_of_seq. lia.
Qed.

(** Induction three bytes at a time. *)
Lemma by_threes (P : list ascii -> Prop) :
  P [] -> (∀ a, P [a]) -> (∀ a b, P [a; b]) -> (∀ a b c l, P l -> P (a :: b :: c :: l)) -> ∀ l, P l.
Proof.
  intros H0 H1 H2 H3. fix IH 1. intros [|a [|b [|c l]]]; [exact H0|exact (H1 a)|exact (H2 a b)|].
  apply H3, IH.
Qed.

Lemma mul_div_lt (a b c : N) : (a < b * c)%N -> c ≠ 0%N -> (a / c < b)%N.
Proof. intros. apply N.Div0.div_lt_upper_bound. lia. Qed.

Lemma mod64_lt n : (n mod 64 < 64)%N.
Proof. by apply N.mod_lt. Qed.

Lemma byte_of_ascii a : (N_of_ascii a < 256)%N.
Proof. apply N_ascii_bounded. Qed.

Lemma ascii_back n a : n = N_of_ascii a -> ascii_of_N n = a.
Proof. intros ->. apply ascii_N_embedding. Qed.

(** The characters an encoding is made of. *)
Lemma base64_std_chars l : Forall (fun c => ∃ n, (n < 64)%N ∧ c = std64 n) (base64_std l).
Proof.
  induction l as [|a|a b|a b c l IH] using by_threes; cbn [base64_std]; cbv zeta.
  - constructor.
  - pose proof (byte_of_ascii a). repeat constructor; eexists; (split; [|reflexivity]); [|apply mod64_lt].
    apply mul_div_lt; lia.
  - pose proof (byte_of_ascii a). pose proof (byte_of_ascii b).
    repeat constructor; eexists; (split; [|reflexivity]); [|apply mod64_lt..]. apply mul_div_lt; lia.
  - pose proof (byte_of_ascii a). pose proof (byte_of_ascii b). pose proof (byte_of_ascii c).
    repeat constructor; [..|exact IH]; eexists; (split; [|reflexivity]); [|apply mod64_lt..]. apply mul_div_lt; lia.
Qed.

Lemma std_values l vs : Forall (fun n => n < 64)%N vs -> l = std64 <$> vs -> mapM std_value l = Some vs.
Proof.
  intros Hv ->. induction Hv as [|n vs Hn _ IH]; [done|]. rewrite fmap_cons. simpl.
  destruct (std_table n Hn) as [-> _]. simpl. by rewrite IH.
Qed.

(** Quotients and remainders of numbers. *)
Ltac div_lia := zify; Z.to_euclidean_division_equations; lia.

Lemma base64_std_values l :
  ∃ vs, Forall (fun n => n < 64)%N vs ∧ base64_std l = std64 <$> vs ∧ decode_groups vs = Some l.
Proof.
  induction l as [|a|a b|a b c l (vs & Hv & E & D)] using by_threes.
  - by exists [].
  - pose proof (byte_of_ascii a). set (n := (N_of_ascii a * 16)%N). exists [n / 64; n mod 64]%N. split_and!; [|done|].
    + repeat constructor; [apply mul_div_lt; lia|apply mod64_lt].
    + cbn [decode_groups]. do 2 f_equal. apply ascii_back. subst n. div_lia.
  - pose proof (byte_of_ascii a). pose proof (byte_of_ascii b).
    set (n := ((N_of_ascii a * 256 + N_of_ascii b) * 4)%N). exists [n / 4096; n / 64 mod 64; n mod 64]%N. split_and!; [|done|].
    + repeat constructor; [apply mul_div_lt; lia|apply mod64_lt..].
    + cbn [decode_groups]. cbv zeta.
      assert (((n / 4096 * 64 + n / 64 mod 64) * 64 + n mod 64)%N = n) as -> by div_lia.
      do 2 f_equal; [|f_equal]; apply ascii_back; subst n; div_lia.
  - pose proof (byte_of_ascii a). pose proof (byte_of_ascii b). pose proof (byte_of_ascii c).
    set (n := ((N_of_ascii a * 256 + N_of_ascii b) * 256 + N_of_ascii c)%N).
    exists ([n / 262144; n / 4096 mod 64; n / 64 mod 64; n mod 64]%N ++ vs). split_and!.
    + repeat constructor; [..|exact Hv]; [|apply mod64_lt..]. apply mul_div_lt; lia.
    + cbn [base64_std]. cbv zeta. fold n. by rewrite E.
    + cbn [decode_groups app]. cbv zeta. rewrite D.
      assert ((((n / 262144 * 64 + n / 4096 mod 64) * 64 + n / 64 mod 64) * 64 + n mod 64)%N = n) as -> by div_lia.
      simpl. do 2 f_equal; [|f_equal; [|f_equal]]; apply ascii_back; subst n; div_lia.
Qed.

Lemma DecodeString_base64 l : DecodeString (base64_std l) = Some l.
Proof.
  destruct (base64_std_values l) as (vs & Hv & E & D). unfold DecodeString.
  replace (List.filter _ (base64_std l)) with (base64_std l); [by rewrite (std_values _ _ Hv E)|].
  symmetry. apply forallb_filter_id, forallb_forall. intros c Hc%list_elem_of_In.
  pose proof (base64_std_chars l) as Hch. rewrite Forall_forall in Hch. destruct (Hch c Hc) as (n & Hn & ->).
  by destruct (std_table n Hn) as (_ & -> & _).
Qed.

Lemma split_at_field sep f l : sep ∉ f -> split_at sep (f ++ sep :: l) = f :: split_at sep l.
Proof.
  induction f as [|c f IH]; simpl; intros Hf; [by rewrite bool_decide_eq_true_2|].
  rewrite bool_decide_eq_false_2 by set_solver. rewrite IH by set_solver. done.
Qed.

Lemma split_at_last sep f : sep ∉ f -> split_at sep f = [f].
Proof.
  induction f as [|c f IH]; simpl; intros Hf; [done|].
  rewrite bool_decide_eq_false_2 by set_solver. rewrite IH by set_solver. done.
Qed.

Lemma base64_no_dollar l : "$"%char ∉ base64_std l.
Proof.
  pose proof (base64_std_chars l) as Hch. rewrite Forall_forall in Hch. intros (n & Hn & E)%Hch.
  by destruct (std_table n Hn) as (_ & _ & ?).
Qed.

Section roundtrip.
Context `{Argon2} `{!Argon2Spec}.

(** What a record starts with, up to the salt. *)
Lemma encodePHC_bytes s k :
  bytes (encodePHC s k) = bytes "$argon2id$v=19$m=65536,t=3,p=1$" ++ base64_std s ++ "$"%char :: base64_std k.
Proof.
  unfold encodePHC, bytes at 1. rewrite list_ascii_of_string_of_list_ascii, argon2_version.
  reflexivity.
Qed.

Lemma decode_field_base64 l err : l ≠ [] -> decode_field (base64_std l) err = inl l.
Proof. intros Hl. unfold decode_field. rewrite DecodeString_base64. by destruct l. Qed.

Lemma parsePHC_encode s k : s ≠ [] -> k ≠ [] -> parsePHC (encodePHC s k) = inl (mkPHC 65536 3 1 s k).
Proof.
  intros Hs Hk. unfold parsePHC. rewrite encodePHC_bytes.
  replace (split_at "$"%char _) with
    [[]; bytes "argon2id"; bytes "v=19"; bytes "m=65536,t=3,p=1"; base64_std s; base64_std k].
  - change (negb (has_prefix (bytes "$argon2id$v=19$m=65536,t=3,p=1$" ++ base64_std s ++ "$"%char :: base64_std k) phcPrefix))
      with false. cbv iota.
    assert (checkVersion (bytes "v=19") = None) as ->.
    { unfold checkVersion. rewrite argon2_version. vm_compute. done. }
    assert (parseParams (bytes "m=65536,t=3,p=1") = inl (65536, 3, 1)) as -> by (vm_compute; done).
    by rewrite !decode_field_base64.
  - symmetry. transitivity ([[]; bytes "argon2id"; bytes "v=19"; bytes "m=65536,t=3,p=1"] ++
      split_at "$"%char (base64_std s ++ "$"%char :: base64_std k)).
    + reflexivity.
    + rewrite split_at_field, split_at_last by apply base64_no_dollar. done.
Qed.

Lemma digits_value_nonneg s : 0 <= digits_value (take_digits s).
Proof.
  unfold digits_value. assert (∀ n, 0 <= n -> 0 <= foldl (fun n c => n * 10 + (Z.of_N (N_of_ascii c) - 48)) n (take_digits s))
    as Hf; [|by apply Hf].
  induction s as [|c s IH]; intros n Hn; simpl; [done|]. destruct (is_digit c) eqn:Ec; [|done].
  simpl. apply IH. unfold is_digit in Ec. apply andb_prop in Ec as [E1%N.leb_le _]. lia.
Qed.

Lemma scan_uint_nonneg bits f v rest : scan_uint bits f = Some (v, rest) -> 0 <= v.
Proof.
  unfold scan_uint. destruct (skip_space _ f) as [[[] t]|]; [|done].
  destruct (Nat.eqb _ 0); [done|]. destruct (_ <=? _); [done|]. intros [= <- _]. apply digits_value_nonneg.
Qed.

Lemma parseParams_bounds f m t p :
  parseParams f = inl (m, t, p) ->
  0 < m <= maxStoredMemory ∧ 0 < t <= maxStoredIterations ∧ 0 < p <= maxStoredLanes.
Proof.
  unfold parseParams. destruct (scan_params f) as [[[m' t'] p']|] eqn:E; [|done].
  assert (0 <= m' ∧ 0 <= t' ∧ 0 <= p') as (Hm & Ht & Hp).
  { unfold scan_params in E.
    repeat (apply bind_Some in E as ([? ?] & ? & E)). injection E as <- <- <-.
    split_and!; eapply scan_uint_nonneg; eassumption. }
  destruct (_ || _) eqn:Eb; [done|]. intros [= <- <- <-].
  repeat (apply orb_false_iff in Eb as [Eb ?]). rewrite ?Z.eqb_neq, ?Z.ltb_ge in *. lia.
Qed.

Lemma parsePHC_bounds stored rec :
  parsePHC stored = inl rec ->
  0 < memory rec <= maxStoredMemory ∧ 0 < iterations rec <= maxStoredIterations ∧ 0 < parallelism rec <= maxStoredLanes.
Proof.
  unfold parsePHC. cbv zeta. destruct (negb _); [done|].
  destruct (split_at _ _) as [|? [|? [|v [|ps [|s [|k [|]]]]]]]; try done.
  destruct (checkVersion v); [done|]. destruct (parseParams ps) as [[[m t] p]|] eqn:Ep; [|done].
  destruct (decode_field s _); [|done]. destruct (decode_field k _); [|done]. intros [= <-].
  by apply parseParams_bounds in Ep.
Qed.

(** A password record checks against the password it was made from: the salt
    and the key survive the text exactly, so a guess passes when and only when the
    derivation of the guess under the record's own salt is the stored key and the
    guess is not longer than a password may be.  And whatever text is stored, a
    derivation is only ever started with parameters within the caps. *)
Theorem password_roundtrip `{Env} `{Entropy} password ctx w stored w' :
  HashPassword password ctx w = (Ok stored, w') ->
  (∃ salt, length salt = argon2SaltBytes ∧ ∀ guess,
     VerifyPassword stored guess = inl (bool_decide (Z.of_nat (String.length guess) <= maxPasswordLen ∧
       deriveKey guess salt argon2Iterations argon2Memory argon2Parallelism =
       deriveKey password salt argon2Iterations argon2Memory argon2Parallelism))) ∧
  (Z.of_nat (String.length password) <= maxPasswordLen -> VerifyPassword stored password = inl true) ∧
  ∀ text rec, parsePHC text = inl rec ->
    0 < memory rec <= maxStoredMemory ∧ 0 < iterations rec <= maxStoredIterations ∧ 0 < parallelism rec <= maxStoredLanes.
Proof.
  unfold HashPassword, read_full. destruct (Nat.leb_spec argon2SaltBytes (length (entropy (w_step w)))) as [Hle|]; [|done].
  intros [= <- _]. set (s := take _ _).
  assert (length s = argon2SaltBytes) as Hs by (unfold s; rewrite length_take; lia).
  set (k := deriveKey password s _ _ _).
  assert (length k = 32%nat) as Hk by by (unfold k, deriveKey; rewrite argon2_length).
  assert (parsePHC (encodePHC s k) = inl (mkPHC 65536 3 1 s k)) as Hp.
  { apply parsePHC_encode; intros Hn; [by rewrite Hn in Hs|by rewrite Hn in Hk]. }
  assert (∀ guess, VerifyPassword (encodePHC s k) guess = inl (bool_decide (Z.of_nat (String.length guess) <= maxPasswordLen ∧
       deriveKey guess s argon2Iterations argon2Memory argon2Parallelism = k))) as Hv.
  { intros guess. unfold VerifyPassword. rewrite Hp. simpl.
    destruct (Z.ltb_spec maxPasswordLen (Z.of_nat (String.length guess))).
    - by rewrite bool_decide_eq_false_2 by lia.
    - f_equal. apply bool_decide_ext. split; [by split|by intros [_ ?]]. }
  split_and!; [eauto| |].
  - intros Hl. rewrite Hv. by rewrite bool_decide_eq_true_2.
  - intros text rec Hrec. by apply parsePHC_bounds in Hrec.
Qed.
End roundtrip.

(** A derivation with the documented interface: it repeats the password and the
    salt up to the asked length. *)
Definition ex_argon2 : Argon2 := {|
  argon2_Version := 19;
  argon2_IDKey := fun p salt _ _ _ k => resize (Z.to_nat k) Ascii.zero (p ++ salt) |}.

Lemma ex_argon2_spec : @Argon2Spec ex_argon2.
Proof. split; [done|]. intros. simpl. apply length_resize. Qed.

Lemma password_roundtrip_witness : ∃ w',
  @HashPassword ex_argon2 calm_env {| entropy := fun _ => repeat Ascii.zero 64 |} "correct horse" background ex_world
    = (Ok "$argon2id$v=19$m=65536,t=3,p=1$AAAAAAAAAAAAAAAAAAAAAA$Y29ycmVjdCBob3JzZQAAAAAAAAAAAAAAAAAAAAAAAAA"%string, w') ∧
  @VerifyPassword ex_argon2 "$argon2id$v=19$m=65536,t=3,p=1$AAAAAAAAAAAAAAAAAAAAAA$Y29ycmVjdCBob3JzZQAAAAAAAAAAAAAAAAAAAAAAAAA"
    "correct horse" = inl true.
Proof.
  eexists. match goal with |- ?E ∧ _ => assert E as Hrun by (vm_compute; reflexivity) end. split; [exact Hrun|].
  refine (proj1 (proj2 (@password_roundtrip ex_argon2 ex_argon2_spec calm_env _ _ _ _ _ _ Hrun)) _). vm_compute. discriminate.
Defined.
