(* ===== verification/ConflictStore.v ===== *)
(** * Conflict detection (internal/storages/conflicts,
      internal/storages/conflict_snapshots and internal/services/conflicts)

    The query of the approve gate (by plan), the query of the history view (by
    fact), the stored snapshot of an approval, and the service around them. *)
From Stdlib Require Import ZArith Lia Ascii String.
From stdpp Require Import base sorting sets strings numbers list.
From S2P Require Import Prelude Go Entity Conflict AuditTrail Schema Logic MaintStore Fixtures.
Open Scope Z_scope.

(** ** Commands (entity/commands.go) *)

Record ConflictQueryCmd := mkConflictQuery {
  cq_MaintID : UUID; cq_PlannedPeriod : Period; cq_Scope : MaintenanceScope; cq_ResourceIDs : list UUID }.
Record ActualConflictQueryCmd := mkActualQuery {
  aq_MaintID : UUID; aq_ActualPeriod : Period; aq_Scope : MaintenanceScope; aq_ResourceIDs : list UUID }.
Record SaveConflictsSnapshotCmd := mkSaveSnapshot { ss_MaintID : UUID; ss_ConflictSnapshot : ConflictsSnapshot }.

(** ** storages/conflicts *)

Definition ActualConflictsLimit : Z := 200.

(** model.go *)
Record ConflictRow := mkConflictRow {
  cw_MaintID : UUID; cw_Title : string; cw_Scope : string; cw_OverlapPeriod : Tstzrange }.

Definition fromDBConflict (c : ConflictRow) : Conflict :=
  let period := FromPgRange (cw_OverlapPeriod c) in
  mkConflict (cw_MaintID c) (cw_Title c) (Start period) (FromPtr zeroTime (End_ period)) (cw_Scope c).

(** [GREATEST] and [LEAST] skip an absent bound of the row. *)
Definition greatest_lower (r : Tstzrange) (lower : Time) : Time :=
  match tz_Status (r_Lower r) with pgPresent => Z.max (tz_Time (r_Lower r)) lower | _ => lower end.
Definition least_upper (r : Tstzrange) (upper : Time) : Time :=
  match tz_Status (r_Upper r) with pgPresent => Z.min (tz_Time (r_Upper r)) upper | _ => upper end.
Definition overlap_range (r : Tstzrange) (lower upper : Time) : Tstzrange :=
  mkRange (mkTstz (greatest_lower r lower) pgPresent) (mkTstz (least_upper r upper) pgPresent)
    pgInclusive pgExclusive pgPresent.

(** [r && tstzrange(lower, upper, '[)')]; an empty range overlaps nothing. *)
Definition pg_overlaps (r : Tstzrange) (lower upper : Time) : bool :=
  Before lower upper &&
  match tz_Status (r_Lower r) with pgPresent => Before (tz_Time (r_Lower r)) upper | _ => true end &&
  match tz_Status (r_Upper r) with pgPresent => Before lower (tz_Time (r_Upper r)) | _ => true end.

Definition overlapByGlobalScope (scope : MaintenanceScope) (r : MaintRow) : bool :=
  String.eqb scope MaintenanceScopeGlobal || String.eqb (mr_Scope r) MaintenanceScopeGlobal.
Definition overlapByResources (db : DB) (scope : MaintenanceScope) (ids : list UUID) (r : MaintRow) : bool :=
  match ids with
  | [] => false
  | _ => String.eqb scope MaintenanceScopeResources && String.eqb (mr_Scope r) MaintenanceScopeResources &&
         existsb (fun l => N.eqb (mrr_MaintenanceID l) (mr_ID r) && existsb (N.eqb (mrr_ResourceID l)) ids)
           (maintenance_resources db)
  end.

Section stores.
Context `{Env}.

Definition planned_conflict (db : DB) (cmd : ConflictQueryCmd) (lower upper : Time) (r : MaintRow) : bool :=
  negb (N.eqb (mr_ID r) (cq_MaintID cmd)) &&
  (String.eqb (mr_Status r) MaintenanceStatusPlanned || String.eqb (mr_Status r) MaintenanceStatusInProgress) &&
  pg_overlaps (mr_PlannedPeriod r) lower upper &&
  (overlapByGlobalScope (cq_Scope cmd) r || overlapByResources db (cq_Scope cmd) (cq_ResourceIDs cmd) r).

Definition ConflictedMaints (cmd : ConflictQueryCmd) : M (list Conflict) :=
  let planetPeriod := pg_range (ToPgRange (cq_PlannedPeriod cmd)) in
  let lower := tz_Time (r_Lower planetPeriod) in
  let upper := tz_Time (r_Upper planetPeriod) in
  conflicts ← sql (fun _ db =>
    require (negb (Before upper lower)) pgDataException
      (Ok ((fun r => mkConflictRow (mr_ID r) (mr_Title r) (mr_Scope r)
                       (overlap_range (mr_PlannedPeriod r) lower upper)) <$>
             List.filter (planned_conflict db cmd lower upper) (maintenances db), db)));
  mret (fromDBConflict <$> conflicts).

Definition actual_conflict (db : DB) (cmd : ActualConflictQueryCmd) (lower upper : Time) (r : MaintRow) : bool :=
  negb (N.eqb (mr_ID r) (aq_MaintID cmd)) &&
  match mr_ActualPeriod r with Some p => pg_overlaps p lower upper | None => false end &&
  (overlapByGlobalScope (aq_Scope cmd) r || overlapByResources db (aq_Scope cmd) (aq_ResourceIDs cmd) r).

Definition actual_overlap (lower upper : Time) (r : MaintRow) : ConflictRow :=
  mkConflictRow (mr_ID r) (mr_Title r) (mr_Scope r)
    (match mr_ActualPeriod r with
     | Some p => overlap_range p lower upper
     | None => overlap_range (mr_PlannedPeriod r) lower upper
     end).
Definition overlap_cmp (a b : ConflictRow) : comparison :=
  cmp_then (Z.compare (tz_Time (r_Lower (cw_OverlapPeriod a))) (tz_Time (r_Lower (cw_OverlapPeriod b))))
    (xuuid_Compare (cw_MaintID a) (cw_MaintID b)).

Definition ActualConflictedMaints (cmd : ActualConflictQueryCmd) : M (list Conflict * bool) :=
  reject_if (IsOpen (aq_ActualPeriod cmd)) (EOther "actual period must be closed");;
  let actualPeriod := pg_range (ToPgRange (aq_ActualPeriod cmd)) in
  let lower := tz_Time (r_Lower actualPeriod) in
  let upper := tz_Time (r_Upper actualPeriod) in
  rows ← sql (fun _ db =>
    require (negb (Before upper lower)) pgDataException
      (Ok (pg_limit (ActualConflictsLimit + 1) (sort_by overlap_cmp
             (actual_overlap lower upper <$> List.filter (actual_conflict db cmd lower upper) (maintenances db))), db)));
  let truncated := ActualConflictsLimit <? Z.of_nat (length rows) in
  let rows := if truncated then take (Z.to_nat ActualConflictsLimit) rows else rows in
  mret (fromDBConflict <$> rows, truncated).

(** The rows of the given maintenances, grouped by maintenance; a missing key
    of the map reads as the empty slice. *)
Definition linked_resources (db : DB) (id : UUID) : list UUID :=
  mrr_ResourceID <$> filter (fun r => mrr_MaintenanceID r = id) (maintenance_resources db).
Definition ConflictedResources_store (ids : list UUID) : M (UUID -> list UUID) :=
  match ids with
  | [] => mret (fun _ => [])
  | _ => query (fun db id => if decide (id ∈ ids) then linked_resources db id else [])
  end.

(** ** storages/conflict_snapshots *)

Definition snapshot_row (maintID : UUID) (s : ConflictWithResources) (resource : option UUID) : SnapshotRow :=
  mkSnapshotRow uuid_Nil maintID (cr_MaintenanceID s) resource
    (ToPgRange (NewPeriod (cr_OverlapStart s) (cr_OverlapEnd s))) zeroTime.
Definition toDBSnaphots (maintID : UUID) (snaphots : list ConflictWithResources) : list SnapshotRow :=
  snaphots ≫= fun s =>
    match cr_Resources s with
    | [] => [snapshot_row maintID s None]
    | rs => (fun r => snapshot_row maintID s (Some r)) <$> rs
    end.

Definition fill_snapshot (s : Stmt) (kr : nat * SnapshotRow) : SnapshotRow :=
  let r := kr.2 in
  mkSnapshotRow (pg_uuid s kr.1) (sn_MaintenanceID r) (sn_ConflictedMaintenanceID r) (sn_ResourceID r)
    (pg_range (sn_ConflictPeriod r)) (pg_now s).
Definition Save (maintID : UUID) (snaphots : list ConflictWithResources) : M unit :=
  match snaphots with
  | [] => mret tt
  | _ =>
      let rows := toDBSnaphots maintID snaphots in
      sql (fun s db =>
        let filled := fill_snapshot s <$> zip (seq 0 (length rows)) rows in
        require (forallb (fun r => negb (Before (tz_Time (r_Upper (sn_ConflictPeriod r)))
                                                (tz_Time (r_Lower (sn_ConflictPeriod r))))) filled)
          pgDataException
          (require (maint_exists maintID db && forallb (fun r => maint_exists (sn_ConflictedMaintenanceID r) db) filled)
            ErrPGForeignKeyViolation
            (Ok (tt, db <| maintenance_conflict_snapshot := maintenance_conflict_snapshot db ++ filled |>))))
  end.

(** A snapshot row joined with the maintenance it names. *)
Definition joined := (SnapshotRow * MaintRow)%type.

(** Grouping: the groups in the order their keys first occur (the code ranges
    over a map, so it promises no order), the rows of a group in the order
    read.  The row that describes a group is its first. *)
Definition snapshot_group (rows : list joined) (id : UUID) : list joined :=
  filter (fun r => sn_ConflictedMaintenanceID r.1 = id) rows.
Definition fromDBSnaphots (rows : list joined) : list ConflictWithResources :=
  omap (fun id =>
    match snapshot_group rows id with
    | [] => None
    | (first, maint) :: _ as group =>
        let conflictPeriod := FromPgRange (sn_ConflictPeriod first) in
        Some (mkCWR (mkConflict id (mr_Title maint) (Start conflictPeriod)
                       (FromPtr zeroTime (End_ conflictPeriod)) (mr_Scope maint))
                (omap (fun r => sn_ResourceID r.1) group) false)
    end) (uniq ((fun r => sn_ConflictedMaintenanceID r.1) <$> rows)).

Definition snapshot_join (db : DB) (maintID : UUID) : list joined :=
  filter (fun r => sn_MaintenanceID r = maintID) (maintenance_conflict_snapshot db) ≫= fun s =>
  pair s <$> filter (fun m => mr_ID m = sn_ConflictedMaintenanceID s) (maintenances db).
Definition GetSnapshots (maintID : UUID) : M (list ConflictWithResources) :=
  rows ← query (fun db => snapshot_join db maintID);
  mret (fromDBSnaphots rows).

(** ** services/conflicts *)

Definition ConflictedResources (ids : list UUID) : M (UUID -> list UUID) := ConflictedResources_store ids.

Definition attachResources (conflicts : list Conflict) : M (list ConflictWithResources) :=
  resources ← ConflictedResources (cf_MaintenanceID <$> conflicts);
  mret ((fun c => mkCWR c (resources (cf_MaintenanceID c)) false) <$> conflicts).

Definition GetConflicts (cmd : ConflictQueryCmd) : M (list ConflictWithResources) :=
  conflicts ← ConflictedMaints cmd;
  attachResources conflicts.

Definition GetActualConflicts (cmd : ActualConflictQueryCmd) : M (list ConflictWithResources * bool) :=
  '(conflicts, truncated) ← ActualConflictedMaints cmd;
  withResources ← attachResources conflicts;
  mret (withResources, truncated).

Definition GetApprovalSnapshot (maintID : UUID) : M (list ConflictWithResources) :=
  snapshot ← GetSnapshots maintID;
  resolved ← attachResources (cr_Conflict <$> snapshot);
  mret (SortConflicts ((fun c => c <| cr_KnownAtApproval := true |>) <$> resolved)).

(** An unreadable snapshot degrades to "nothing was reviewed". *)
Definition MarkApprovalState (maintID : UUID) (live : list ConflictWithResources) : M (list ConflictWithResources) :=
  match live with
  | [] => mret []
  | _ =>
      snapshot ← attempt (GetSnapshots maintID);
      match snapshot with
      | inr _ => mret (SortConflicts live)
      | inl snapshot => mret (SortConflicts (MarkKnownAtApproval live snapshot))
      end
  end.

Definition SaveSnapshot (cmd : SaveConflictsSnapshotCmd) : M unit :=
  wrap_err (Errorf "bulk insert conflict snapshots") (Save (ss_MaintID cmd) (ss_ConflictSnapshot cmd)).
End stores.

(** ** Lemmas *)

(** The instants of a period and of a stored range. *)
Definition in_period (t : Time) (p : Period) : Prop :=
  Start p <= t ∧ match End_ p with Some e => t < e | None => True end.
Definition in_range (t : Time) (r : Tstzrange) : Prop := in_period t (FromPgRange r).

(** A stored range is present and has a lower bound; one read back from the
    columns of the maintenances table is of this form. *)
Definition plain_range (r : Tstzrange) : Prop := r_Status r = pgPresent ∧ tz_Status (r_Lower r) = pgPresent.

Lemma plain_pg_range p : plain_range (pg_range (ToPgRange p)).
Proof. destruct p as [s [e|]]; done. Qed.

Lemma pg_overlaps_iff r lower upper :
  plain_range r -> (∀ u, tz_Status (r_Upper r) = pgPresent -> u = tz_Time (r_Upper r) -> tz_Time (r_Lower r) < u) ->
  pg_overlaps r lower upper = true ↔ ∃ t, in_range t r ∧ lower <= t < upper.
Proof.
  intros [Hs Hl] Hne. unfold pg_overlaps, in_range, in_period, FromPgRange, Before. rewrite Hs, Hl. simpl.
  rewrite !andb_true_iff, !Z.ltb_lt. destruct (tz_Status (r_Upper r)) eqn:Hu; simpl; rewrite ?Z.ltb_lt.
  3: specialize (Hne _ eq_refl eq_refl); split; [|intros (t & ? & ?); lia];
     intros [[??]?]; exists (Z.max (tz_Time (r_Lower r)) lower); lia.
  all: split; [intros [[??]_]; exists (Z.max (tz_Time (r_Lower r)) lower); lia|intros (t & ? & ?); split_and!; lia || done].
Qed.

(** The reported overlap is the intersection. *)
Lemma overlap_range_instants r lower upper t :
  plain_range r -> in_range t (overlap_range r lower upper) ↔ in_range t r ∧ lower <= t < upper.
Proof.
  intros [Hs Hl]. unfold in_range, in_period, overlap_range, FromPgRange, greatest_lower, least_upper.
  rewrite Hs, Hl. simpl. destruct (tz_Status (r_Upper r)); simpl; lia.
Qed.

(** Half-open intervals are determined by their instants. *)
Lemma intersection_unique (P : Z -> Prop) a b c d :
  a < b -> (∀ t, a <= t < b ↔ P t) -> (∀ t, c <= t < d ↔ P t) -> a = c ∧ b = d.
Proof.
  intros Hab H1 H2. assert (∀ t, a <= t < b ↔ c <= t < d) as Hi by (intros t; by rewrite H1, H2).
  pose proof (Hi a). pose proof (Hi c). pose proof (Hi (b - 1)). pose proof (Hi (d - 1)). lia.
Qed.

Section stores_ok.
Context `{Env}.

Lemma ConflictedMaints_Ok cmd ctx w cs w' :
  ConflictedMaints cmd ctx w = (Ok cs, w') ->
  let range := pg_range (ToPgRange (cq_PlannedPeriod cmd)) in
  let lower := tz_Time (r_Lower range) in
  let upper := tz_Time (r_Upper range) in
  lower <= upper ∧ w_db w' = w_db w ∧ w_log w' = w_log w ∧
  cs = (fun r => fromDBConflict (mkConflictRow (mr_ID r) (mr_Title r) (mr_Scope r)
                   (overlap_range (mr_PlannedPeriod r) lower upper))) <$>
       List.filter (planned_conflict (w_db w) cmd lower upper) (maintenances (w_db w)).
Proof.
  unfold ConflictedMaints. cbv zeta. set (lower := tz_Time (r_Lower _)). set (upper := tz_Time (r_Upper _)).
  intros E. run_all. sql_inv Hrun. repeat case_hyp Hrun; simplify_eq. rewrite <- list_fmap_compose.
  split_and!; [|done..]. unfold Before in Heqb. lia.
Qed.

Lemma ConflictedResources_Ok ids ctx w f w' :
  ConflictedResources ids ctx w = (Ok f, w') ->
  w_db w' = w_db w ∧ w_log w' = w_log w ∧ ∀ id, id ∈ ids -> f id = linked_resources (w_db w) id.
Proof.
  unfold ConflictedResources, ConflictedResources_store. destruct ids; intros E.
  - run_all. split_and!; [done..|]. intros id ?%elem_of_nil. done.
  - apply query_Ok in E as (-> & ? & ?). split_and!; [done..|]. intros id Hid. by rewrite decide_True.
Qed.

Lemma attachResources_Ok cs ctx w l w' :
  attachResources cs ctx w = (Ok l, w') ->
  w_db w' = w_db w ∧ w_log w' = w_log w ∧
  l = (fun c => mkCWR c (linked_resources (w_db w) (cf_MaintenanceID c)) false) <$> cs.
Proof.
  unfold attachResources. intros E. run_all. apply ConflictedResources_Ok in Hrun as (? & ? & Hf).
  split_and!; [done..|]. apply list_fmap_ext. intros i c Hc. f_equal. apply Hf.
  apply list_elem_of_fmap. exists c. split; [done|]. by eapply list_elem_of_lookup_2.
Qed.

Lemma Save_Ok id l ctx w u w' :
  Save id l ctx w = (Ok u, w') -> ∃ rows, w_db w' = (w_db w) <| maintenance_conflict_snapshot := rows |>.
Proof.
  unfold Save. destruct l; intros E.
  - run_all. exists (maintenance_conflict_snapshot (w_db w')). by destruct (w_db w').
  - sql_inv E. repeat case_hyp E; simplify_eq; eauto.
Qed.

(** What [GetConflicts] answers in a given database. *)
Definition live_conflicts (db : DB) (cmd : ConflictQueryCmd) : list ConflictWithResources :=
  let range := pg_range (ToPgRange (cq_PlannedPeriod cmd)) in
  let lower := tz_Time (r_Lower range) in
  let upper := tz_Time (r_Upper range) in
  (fun r => mkCWR (fromDBConflict (mkConflictRow (mr_ID r) (mr_Title r) (mr_Scope r)
                    (overlap_range (mr_PlannedPeriod r) lower upper))) (linked_resources db (mr_ID r)) false) <$>
  List.filter (planned_conflict db cmd lower upper) (maintenances db).

Lemma GetConflicts_Ok cmd ctx w l w' :
  GetConflicts cmd ctx w = (Ok l, w') -> l = live_conflicts (w_db w) cmd ∧ w_db w' = w_db w ∧ w_log w' = w_log w.
Proof.
  unfold GetConflicts. intros E. run_all. apply ConflictedMaints_Ok in Hrun as (_ & Hdb & ? & ->).
  apply attachResources_Ok in Hrun0 as (? & ? & ->). split_and!; [|congruence..].
  rewrite Hdb. unfold live_conflicts. by rewrite <- list_fmap_compose.
Qed.
End stores_ok.

Section properties.
Context `{Env}.

(** Every row of the table was written by this code: its planned period is
    a stored range with both bounds, in order. *)
Definition planned_ok (r : MaintRow) : Prop :=
  plain_range (mr_PlannedPeriod r) ∧ tz_Status (r_Upper (mr_PlannedPeriod r)) = pgPresent ∧
  tz_Time (r_Lower (mr_PlannedPeriod r)) < tz_Time (r_Upper (mr_PlannedPeriod r)).

(** Two maintenances touch the same zone: one of them is global, or both name
    resources and share one. *)
Definition zones_meet (db : DB) (scope : MaintenanceScope) (ids : list UUID) (r : MaintRow) : Prop :=
  scope = MaintenanceScopeGlobal ∨ mr_Scope r = MaintenanceScopeGlobal ∨
  (scope = MaintenanceScopeResources ∧ mr_Scope r = MaintenanceScopeResources ∧
   ∃ id, id ∈ ids ∧ mkMaintResourceRow (mr_ID r) id ∈ maintenance_resources db).

Lemma zones_meet_iff db scope ids r :
  overlapByGlobalScope scope r || overlapByResources db scope ids r = true ↔ zones_meet db scope ids r.
Proof.
  unfold overlapByGlobalScope, zones_meet. rewrite !orb_true_iff, !String.eqb_eq.
  assert (overlapByResources db scope ids r = true ↔
    scope = MaintenanceScopeResources ∧ mr_Scope r = MaintenanceScopeResources ∧
      ∃ id, id ∈ ids ∧ mkMaintResourceRow (mr_ID r) id ∈ maintenance_resources db) as ->; [|tauto].
  assert (existsb (fun l => N.eqb (mrr_MaintenanceID l) (mr_ID r) && existsb (N.eqb (mrr_ResourceID l)) ids)
      (maintenance_resources db) = true ↔
    ∃ id, id ∈ ids ∧ mkMaintResourceRow (mr_ID r) id ∈ maintenance_resources db) as Hex.
  { rewrite existsb_exists. split.
    - intros ([m x] & Hin & Hc). simpl in Hc. rewrite andb_true_iff, N.eqb_eq, existsb_exists in Hc.
      destruct Hc as (-> & id & Hid & ->%N.eqb_eq). exists id. by rewrite !list_elem_of_In.
    - intros (id & Hid & Hin). exists (mkMaintResourceRow (mr_ID r) id). rewrite list_elem_of_In in Hin.
      split; [done|]. simpl. rewrite N.eqb_refl. apply existsb_exists. exists id.
      rewrite <- list_elem_of_In. by rewrite N.eqb_refl. }
  unfold overlapByResources. destruct ids as [|i ids].
  - split; [done|]. intros (_ & _ & id & ?%elem_of_nil & _). done.
  - rewrite !andb_true_iff, !String.eqb_eq, Hex. tauto.
Qed.

(** C32. The query behind the approve gate finds the neighbours that matter,
    and only those: a maintenance is reported exactly when it is another one,
    is planned or in progress, its planned period has an instant in common
    with ours, and the impact zones meet; and the overlap it is reported with
    is the intersection of the two periods, instant by instant. *)
Theorem ConflictedMaints_correct cmd ctx w cs w' :
  Forall planned_ok (maintenances (w_db w)) ->
  ConflictedMaints cmd ctx w = (Ok cs, w') ->
  let range := pg_range (ToPgRange (cq_PlannedPeriod cmd)) in
  let ours t := tz_Time (r_Lower range) <= t < tz_Time (r_Upper range) in
  w_db w' = w_db w ∧
  ∀ c, c ∈ cs ↔ ∃ r, r ∈ maintenances (w_db w) ∧
    mr_ID r ≠ cq_MaintID cmd ∧
    (mr_Status r = MaintenanceStatusPlanned ∨ mr_Status r = MaintenanceStatusInProgress) ∧
    (∃ t, in_range t (mr_PlannedPeriod r) ∧ ours t) ∧
    zones_meet (w_db w) (cq_Scope cmd) (cq_ResourceIDs cmd) r ∧
    cf_MaintenanceID c = mr_ID r ∧ cf_Title c = mr_Title r ∧ cf_Scope c = mr_Scope r ∧
    cf_OverlapStart c < cf_OverlapEnd c ∧
    ∀ t, cf_OverlapStart c <= t < cf_OverlapEnd c ↔ in_range t (mr_PlannedPeriod r) ∧ ours t.
Proof.
  intros Hok E. apply ConflictedMaints_Ok in E as (_ & Hdb & _ & ->). cbv zeta. split; [done|].
  set (lower := tz_Time (r_Lower _)). set (upper := tz_Time (r_Upper _)). intros c.
  rewrite list_elem_of_fmap. split.
  - intros (r & -> & [Hin Hc]%list_elem_of_In%filter_In). apply list_elem_of_In in Hin.
    rewrite Forall_forall in Hok. destruct (Hok r Hin) as (Hp & Hu & Hlt).
    unfold planned_conflict in Hc. rewrite !andb_true_iff, zones_meet_iff, negb_true_iff, N.eqb_neq in Hc.
    rewrite orb_true_iff, !String.eqb_eq in Hc. destruct Hc as [[[Hid Hst] Hov] Hz].
    rewrite pg_overlaps_iff in Hov by (try done; by intros ? _ ->).
    exists r. split_and!; try done.
    + destruct Hov as (t & Ht & Htt). pose proof (overlap_range_instants _ lower upper t Hp) as [_ Hi].
      specialize (Hi (conj Ht Htt)). unfold in_range, in_period in Hi. simpl in *. lia.
    + intros t. exact (overlap_range_instants _ lower upper t Hp).
  - intros (r & Hin & Hid & Hst & Hov & Hz & H1 & H2 & H3 & Hlt' & Hi). exists r.
    rewrite Forall_forall in Hok. destruct (Hok r Hin) as (Hp & Hu & Hlt). split.
    + destruct (intersection_unique _ _ _ (greatest_lower (mr_PlannedPeriod r) lower)
        (least_upper (mr_PlannedPeriod r) upper) Hlt' Hi) as [E1 E2].
      { intros t. exact (overlap_range_instants _ lower upper t Hp). }
      destruct c; simpl in *; unfold fromDBConflict; simpl; congruence.
    + apply list_elem_of_In, filter_In. rewrite <- list_elem_of_In. split; [done|].
      unfold planned_conflict. rewrite !andb_true_iff, zones_meet_iff, negb_true_iff, N.eqb_neq.
      rewrite orb_true_iff, !String.eqb_eq. split_and!; try done.
      rewrite pg_overlaps_iff by (try done; by intros ? _ ->). done.
Qed.
End properties.

Section factual.
Context `{Env}.

Lemma ActualConflictedMaints_Ok cmd ctx w cs truncated w' :
  ActualConflictedMaints cmd ctx w = (Ok (cs, truncated), w') ->
  let range := pg_range (ToPgRange (aq_ActualPeriod cmd)) in
  let lower := tz_Time (r_Lower range) in
  let upper := tz_Time (r_Upper range) in
  let rows := sort_by overlap_cmp
    (actual_overlap lower upper <$> List.filter (actual_conflict (w_db w) cmd lower upper) (maintenances (w_db w))) in
  w_db w' = w_db w ∧ cs = fromDBConflict <$> take 200 rows ∧ truncated = (200 <? Z.of_nat (length rows)).
Proof.
  unfold ActualConflictedMaints. cbv zeta. set (lower := tz_Time (r_Lower _)). set (upper := tz_Time (r_Upper _)).
  intros E. run_all. match goal with Hs : sql _ _ _ = _ |- _ => apply sql_Ok in Hs as (db' & Hs & ->);
    apply require_Ok in Hs as [_ Hs]; injection Hs as <- <- end.
  split; [done|]. unfold pg_limit, ActualConflictsLimit. change (Z.to_nat (200 + 1)) with 201%nat.
  change (Z.to_nat 200) with 200%nat. set (rows := sort_by _ _). rewrite length_take.
  destruct (Z.ltb_spec 200 (Z.of_nat (201 `min` length rows))), (Z.ltb_spec 200 (Z.of_nat (length rows))); try lia; split; try done.
  - rewrite take_take. f_equal.
  - rewrite !take_ge by lia. done.
Qed.

(** An actual period as the service stores it. *)
Definition actual_plain (r : MaintRow) : Prop := ∀ p, mr_ActualPeriod r = Some p ->
  plain_range p ∧ (tz_Status (r_Upper p) = pgPresent -> tz_Time (r_Lower p) < tz_Time (r_Upper p)).

(** [c] reports that [r] ran at the same time, in the same zone. *)
Definition ran_alongside (db : DB) (cmd : ActualConflictQueryCmd) (r : MaintRow) (c : Conflict) : Prop :=
  let range := pg_range (ToPgRange (aq_ActualPeriod cmd)) in
  let ours t := tz_Time (r_Lower range) <= t < tz_Time (r_Upper range) in
  mr_ID r ≠ aq_MaintID cmd ∧ zones_meet db (aq_Scope cmd) (aq_ResourceIDs cmd) r ∧
  ∃ p, mr_ActualPeriod r = Some p ∧ (∃ t, in_range t p ∧ ours t) ∧
    cf_MaintenanceID c = mr_ID r ∧ cf_Title c = mr_Title r ∧ cf_Scope c = mr_Scope r ∧
    ∀ t, cf_OverlapStart c <= t < cf_OverlapEnd c ↔ in_range t p ∧ ours t.

Lemma actual_conflict_iff db cmd r :
  let range := pg_range (ToPgRange (aq_ActualPeriod cmd)) in
  let lower := tz_Time (r_Lower range) in
  let upper := tz_Time (r_Upper range) in
  actual_plain r ->
  actual_conflict db cmd lower upper r = true ↔ ran_alongside db cmd r (fromDBConflict (actual_overlap lower upper r)).
Proof.
  intros range lower upper Hp. unfold actual_conflict, ran_alongside. rewrite !andb_true_iff, zones_meet_iff, negb_true_iff, N.eqb_neq.
  fold range lower upper. unfold actual_overlap. destruct (mr_ActualPeriod r) as [p|] eqn:Ep.
  - destruct (Hp p Ep) as [Hpl Hlt]. rewrite pg_overlaps_iff by (try done; intros u Hu ->; by apply Hlt). split.
    + intros [[Hid Hov] Hz]. split_and!; [done..|]. exists p. split_and!; [done..|].
      intros t. exact (overlap_range_instants _ lower upper t Hpl).
    + intros (Hid & Hz & p' & [= <-] & Hov & _). done.
  - split; [by intros [[_ ?] _]|]. by intros (_ & _ & p & [=] & _).
Qed.

(** The card of a finished maintenance tells what really ran beside it: at
    most two hundred neighbours, each of which worked, whatever became of it,
    during an instant of our own working time and in the same zone, with the
    common time as its overlap; and unless the answer is marked truncated, all
    of them. *)
Theorem ActualConflictedMaints_correct cmd ctx w cs truncated w' :
  Forall actual_plain (maintenances (w_db w)) ->
  ActualConflictedMaints cmd ctx w = (Ok (cs, truncated), w') ->
  w_db w' = w_db w ∧ (length cs <= 200)%nat ∧
  (∀ c, c ∈ cs -> ∃ r, r ∈ maintenances (w_db w) ∧ ran_alongside (w_db w) cmd r c) ∧
  (truncated = false -> ∀ r c, r ∈ maintenances (w_db w) -> ran_alongside (w_db w) cmd r c ->
     ∃ c', c' ∈ cs ∧ cf_MaintenanceID c' = mr_ID r ∧ ran_alongside (w_db w) cmd r c').
Proof.
  intros Hok (Hdb & -> & ->)%ActualConflictedMaints_Ok. split; [done|]. rewrite Forall_forall in Hok.
  set (lower := tz_Time (r_Lower _)). set (upper := tz_Time (r_Upper _)). set (rows := sort_by _ _).
  assert (∀ x, x ∈ rows ↔ ∃ r, x = actual_overlap lower upper r ∧ r ∈ maintenances (w_db w) ∧
    actual_conflict (w_db w) cmd lower upper r = true) as Hrows.
  { intros x. subst rows. rewrite elem_of_sort_by, list_elem_of_fmap. setoid_rewrite list_elem_of_In.
    setoid_rewrite filter_In. done. }
  split_and!.
  - rewrite length_fmap, length_take. lia.
  - intros c (x & -> & Hx)%list_elem_of_fmap. apply elem_of_take in Hx as (i & Hx%list_elem_of_lookup_2 & _).
    apply Hrows in Hx as (r & -> & Hr & Hc). exists r. split; [done|]. by apply actual_conflict_iff; [apply Hok|].
  - intros Hle%Z.ltb_ge r c Hr Hran. exists (fromDBConflict (actual_overlap lower upper r)).
    assert (actual_conflict (w_db w) cmd lower upper r = true) as Hc.
    { apply actual_conflict_iff; [by apply Hok|]. destruct Hran as (Hid & Hz & p & Ep & Hov & _). destruct (Hok r Hr p Ep) as [Hpl _].
      unfold ran_alongside, actual_overlap. rewrite Ep. split_and!; [done..|]. exists p. split_and!; [done..|].
      intros t. exact (overlap_range_instants _ lower upper t Hpl). }
    split_and!; [|done|by apply actual_conflict_iff; [apply Hok|]].
    rewrite take_ge by lia. apply list_elem_of_fmap_2, Hrows. eauto.
Qed.
End factual.

Definition ex_query : ConflictQueryCmd := mkConflictQuery 2 (NewPeriod (at_min 90) (at_min 150)) "resource" [72%N; 71%N].

Lemma ConflictedMaints_correct_witness :
  ∃ w', @ConflictedMaints calm_env ex_query background ex_world =
    (Ok [mkConflict 1 "maintenance" (at_min 90) (at_min 120) "resource"], w') ∧ w_db w' = ex_db.
Proof.
  eexists. split; [vm_compute; reflexivity|].
  refine (proj1 (@ConflictedMaints_correct calm_env ex_query background ex_world _ _ _ eq_refl)).
  repeat constructor.
Defined.

Lemma ex_actual_plain : Forall actual_plain (maintenances ex_db).
Proof.
  simpl. rewrite !Forall_cons. split_and!; [intros p Hp; discriminate Hp..| |done].
  intros p Hp. injection Hp as <-. split; [by split|discriminate].
Qed.

(** The global maintenance in progress, seen from one that ran for an hour. *)
Lemma ActualConflictedMaints_correct_witness :
  ∃ w', @ActualConflictedMaints calm_env (mkActualQuery 9 (NewPeriod (at_min (-60)) T0) "resource" [71%N]) background ex_world =
    (Ok ([mkConflict 3 "maintenance" (at_min (-10)) T0 "global"], false), w') ∧ w_db w' = ex_db.
Proof.
  eexists. split; [vm_compute; reflexivity|].
  refine (proj1 (@ActualConflictedMaints_correct calm_env (mkActualQuery 9 (NewPeriod (at_min (-60)) T0) "resource" [71%N])
    background ex_world _ _ _ _ eq_refl)).
  exact ex_actual_plain.
Defined.
