(* ===== verification/Queue.v ===== *)
(** * The task queue and the audit outbox

    [goque] is a library this code only calls: its three operations are
    parameters, over the table the library owns.  Because the callers hand it
    their transaction ([goque.WithTx]), its statements are statements of the
    caller's transaction.  On top of it, the scheduler
    (internal/services/messaging/scheduler) and the publisher of audited actions
    (internal/services/auditpublisher). *)
From Stdlib Require Import ZArith Lia Ascii String.
From stdpp Require Import base sorting sets strings numbers list.
From S2P Require Import Prelude Go Entity Conflict AuditTrail Schema Logic Dbtx MaintStore Fixtures.
Open Scope Z_scope.

Class Goque := {
  (** goque.NewTaskWithPayloadAndExternalID, given the clock and a fresh id *)
  goque_new : Time -> UUID -> string -> TaskPayload -> string -> outcome Task;
  (** TaskQueueManager.AddTaskToQueue *)
  goque_add : Task -> list Task -> outcome (list Task);
  (** TaskQueueManager.CancelTask *)
  goque_cancel : UUID -> list Task -> outcome (list Task) }.

(** What the code relies on. *)
Class GoqueSpec `{Goque} : Prop := {
  goque_new_ok : ∀ now id ty p ext t, goque_new now id ty p ext = Ok t -> t = mkTask id ty p ext now;
  goque_add_ok : ∀ t l l', goque_add t l = Ok l' -> ∀ x, x ∈ l' ↔ x = t ∨ x ∈ l;
  (** the unique (type, external_id) index *)
  goque_add_unique : ∀ t l l', goque_add t l = Ok l' ->
    ∀ x, x ∈ l -> ~ (tk_Type x = tk_Type t ∧ tk_ExternalID x = tk_ExternalID t) }.

Definition ProcessorTaskMaintReminder : string := "maint.reminder".
Definition ProcessorTaskAuditWrite : string := "audit.write".

Section queue.
Context `{Env} `{Goque}.

Definition goque_NewTask (taskType : string) (payload : TaskPayload) (externalID : string) : M Task :=
  fun _ w => (goque_new (env_now (w_step w)) (env_uuid (w_step w) 0) taskType payload externalID, tick w).

Definition on_queue (f : list Task -> outcome (list Task)) : M unit :=
  sql (fun _ db => match f (goque_tasks db) with
                   | Ok l => Ok (tt, db <| goque_tasks := l |>)
                   | Err e => Err e
                   | Panic s => Panic s
                   end).
Definition AddTaskToQueue (task : Task) : M unit := on_queue (goque_add task).
Definition CancelTask (taskID : UUID) : M unit := on_queue (goque_cancel taskID).

(** ** messaging/scheduler *)

Definition ScheduleDelayed (taskType : string) (payload : TaskPayload) (delay : Duration)
    (idempotencyKey : string) : M UUID :=
  task ← wrap_err (Errorf "build task") (goque_NewTask taskType payload idempotencyKey);
  let task := if 0 <? delay then task <| tk_NextAttemptAt := Time_Add (tk_NextAttemptAt task) delay |> else task in
  AddTaskToQueue task;;
  mret (tk_ID task).

Definition Schedule_now (taskType : string) (payload : TaskPayload) (idempotencyKey : string) : M UUID :=
  ScheduleDelayed taskType payload 0 idempotencyKey.

Definition Scheduler_Cancel (taskID : UUID) : M unit := CancelTask taskID.

(** ** audit *)

(** Renderer.Render *)
Definition Render (action : AuditAction) : M AuditPayload := fun _ w =>
  (render (env_uuid (w_step w) 0) (env_now (w_step w)) action, tick w).

Definition Publish (action : AuditAction) : M unit :=
  payload ← wrap_err (Errorf "render audit action") (Render action);
  task ← wrap_err (Errorf "build audit task")
    (goque_NewTask ProcessorTaskAuditWrite (PayloadAuditWrite payload) (uuid_String (ap_EventID payload)));
  wrap_err (Errorf "enqueue audit task") (AddTaskToQueue task).

(** services/maint/audit_publish.go: an error is logged and dropped. *)
Definition publishAudit (action : AuditAction) : M unit :=
  _ ← attempt (Publish action);
  mret tt.

(** ** Lemmas *)

(** What only touches the queue keeps every fact about the other tables. *)
Definition queue_blind (I : DB -> Prop) : Prop := ∀ db l, I db -> I (db <| goque_tasks := l |>).

Lemma keeps_on_queue I f : queue_blind I -> keeps I (on_queue f) (fun _ => True).
Proof. intros HI. apply keeps_sql. intros s db a db' Hdb. destruct (f _); naive_solver. Qed.

Lemma keeps_goque_NewTask I ty p ext : keeps I (goque_NewTask ty p ext) (fun _ => True).
Proof. intros ctx w Hw. by split. Qed.

Lemma keeps_ScheduleDelayed I ty p d key : queue_blind I -> keeps I (ScheduleDelayed ty p d key) (fun _ => True).
Proof.
  intros HI. eapply keeps_bind; [apply keeps_wrap_err, keeps_goque_NewTask|]. intros t _.
  eapply keeps_bind; [by apply keeps_on_queue|]. intros _ _. by apply keeps_ret.
Qed.

Lemma keeps_Render I a : keeps I (Render a) (fun _ => True).
Proof. intros ctx w Hw. by split. Qed.

Lemma keeps_Publish I a : queue_blind I -> keeps I (Publish a) (fun _ => True).
Proof.
  intros HI. eapply keeps_bind; [apply keeps_wrap_err, keeps_Render|]. intros p _.
  eapply keeps_bind; [apply keeps_wrap_err, keeps_goque_NewTask|]. intros t _.
  by apply keeps_wrap_err, keeps_on_queue.
Qed.

Lemma keeps_publishAudit I a : queue_blind I -> keeps I (publishAudit a) (fun _ => True).
Proof.
  intros HI. eapply keeps_bind; [by apply keeps_attempt, keeps_Publish|]. intros ??. by apply keeps_ret.
Qed.

Lemma on_queue_Ok f ctx w u w' :
  on_queue f ctx w = (Ok u, w') ->
  ∃ l, f (goque_tasks (w_db w)) = Ok l ∧ w_db w' = (w_db w) <| goque_tasks := l |> ∧ w_step w' = S (w_step w).
Proof. intros E. sql_inv E. repeat case_hyp E; simplify_eq. eauto. Qed.

Lemma ScheduleDelayed_Ok `{!GoqueSpec} ty p delay key ctx w id w' :
  ScheduleDelayed ty p delay key ctx w = (Ok id, w') ->
  ∃ l, let task := mkTask id ty p key (env_now (w_step w) + Z.max delay 0) in
    goque_add task (goque_tasks (w_db w)) = Ok l ∧ (w_step w <= w_step w')%nat ∧
    w_db w' = (w_db w) <| goque_tasks := l |>.
Proof.
  unfold ScheduleDelayed, goque_NewTask. intros E. run_all. injection Hrun as Hn <-.
  apply goque_new_ok in Hn as ->. apply on_queue_Ok in Hrun1 as (l & Hl & Hdb & Hs). simpl in *.
  exists l. destruct (Z.ltb_spec 0 delay); simpl in *.
  - split_and!; [by rewrite Z.max_l by lia|lia|done].
  - split_and!; [by rewrite Z.max_r, Z.add_0_r by lia|lia|done].
Qed.

(** A task is queued in silence. *)
Lemma quiet_goque_NewTask ty p ext : quiet (goque_NewTask ty p ext).
Proof. done. Qed.
Lemma quiet_Render a : quiet (Render a).
Proof. done. Qed.
Lemma quiet_on_queue f : quiet (on_queue f).
Proof. apply quiet_sql. Qed.
Hint Resolve quiet_goque_NewTask quiet_Render quiet_on_queue : quiet.
Lemma quiet_publishAudit a : quiet (publishAudit a).
Proof. unfold publishAudit, Publish, AddTaskToQueue. quiet_solve. Qed.
End queue.
#[export] Hint Resolve quiet_goque_NewTask quiet_Render quiet_on_queue quiet_publishAudit : quiet.

(** A queue: a list of tasks with the unique index. *)
Definition list_goque : Goque := {|
  goque_new := fun now id ty p ext => Ok (mkTask id ty p ext now);
  goque_add := fun t l =>
    if existsb (fun x => String.eqb (tk_Type x) (tk_Type t) && String.eqb (tk_ExternalID x) (tk_ExternalID t)) l
    then Err (EPg ErrPGUniqueViolation) else Ok (l ++ [t]);
  goque_cancel := fun id l => Ok (List.filter (fun x => negb (N.eqb (tk_ID x) id)) l) |}.

Lemma list_goque_spec : @GoqueSpec list_goque.
Proof.
  split; simpl.
  - intros. by simplify_eq.
  - intros t l l'. destruct (existsb _ _); [done|]. intros [= <-] x. set_solver.
  - intros t l l'. destruct (existsb _ _) eqn:E; [done|]. intros _ x Hx [H1 H2].
    assert (existsb (fun x => String.eqb (tk_Type x) (tk_Type t) && String.eqb (tk_ExternalID x) (tk_ExternalID t)) l
      = true) as E2; [|congruence].
    apply existsb_exists. exists x. rewrite <- list_elem_of_In, H1, H2, !String.eqb_refl. done.
Qed.
