(* ===== verification/Otp.v ===== *)
(** * One-time codes (internal/services/otp)

    A code is requested for an address, mailed, and redeemed by the browser that
    asked for it.  Redeeming takes no transaction: its statements interleave with
    those of every other request, so the service is written as the sequence of
    its calls ([Prog]).  Issuing is one transaction that locks the live code
    first. *)
From Stdlib Require Import ZArith Lia Ascii String.
From stdpp Require Import base sorting sets strings numbers list.
From S2P Require Import Prelude Go Sha256 Entity Conflict AuditTrail Schema Logic Dbtx Interleave MaintStore Queue.
From S2P Require Import Crypto Like UserStore Credentials.
Open Scope Z_scope.

(** ** defaults.go *)

(** The fields of config.Auth the service reads. *)
Record OtpConfig := mkOtpConfig { OTPTTL : Duration; OTPMaxAttempts : Z; OTPReissueCooldown : Duration }.

Definition defaultTTL : Duration := 5 * Minute.
Definition TTL (cfg : OtpConfig) : Duration := if OTPTTL cfg <=? 0 then defaultTTL else OTPTTL cfg.

Definition defaultMaxAttempts : Z := 5.
Definition maxAllowedAttempts : Z := 10.
(** The conversion to [int16]. *)
Definition wrap16 (z : Z) : Z := (z + 2 ^ 15) mod 2 ^ 16 - 2 ^ 15.
Definition MaxAttempts (cfg : OtpConfig) : Z :=
  let n := if OTPMaxAttempts cfg <=? 0 then defaultMaxAttempts else OTPMaxAttempts cfg in
  let n := if maxAllowedAttempts <? n then maxAllowedAttempts else n in
  wrap16 n.

Definition defaultReissueCooldown : Duration := Minute.
Definition ReissueCooldown (cfg : OtpConfig) : Duration :=
  let cooldown := if OTPReissueCooldown cfg <=? 0 then defaultReissueCooldown else OTPReissueCooldown cfg in
  Z.min cooldown (TTL cfg).

(** ** service.go *)

Record Service := mkService { ttl : Duration; maxAttempts : Z; reissueCooldown : Duration }.
Definition NewService (cfg : OtpConfig) : Service := mkService (TTL cfg) (MaxAttempts cfg) (ReissueCooldown cfg).

(** The data key generator, the cipher and the keyring; what they answer may
    depend on the moment. *)
Class Sealer := {
  GenerateDEK : nat -> list ascii + error;
  cipher_Encrypt : nat -> list ascii -> list ascii -> list ascii -> list ascii + error;
  keyring_WrapDEK : nat -> list ascii -> (list ascii * string) + error }.

Definition slotHold := string.
Definition slotFree : slotHold := "".
Definition slotHoldAttemptsSpent : slotHold := "attempts_spent".
Definition slotHoldCooldown : slotHold := "cooldown".

Definition ProcessorTaskOTPEmailSend : string := "otp.email".
Definition sessionNonceBytes : nat := 32.

Record VerifyOTPCmd := mkVerifyCmd {
  vo_Email : string; vo_Code : string; vo_SessionNonce : string; vo_ClientIP : string; vo_UserAgent : string }.

(** What [Verify] returns: the user if one was resolved, the reason for the audit
    trail, and the error. *)
Record Verdict := mkVerdict { v_user : option User; v_reason : AuditFailureReason; v_err : option error }.

(** The calls the service makes, each answered in one piece. *)
Inductive OtpOp : Type -> Type :=
  | OpNow : OtpOp Time
  | OpToken : OtpOp (string * string)
  | OpCode : OtpOp (string * string)
  | OpUserByEmail (email : string) : OtpOp User
  | OpIssue (user : User) (nonce purpose code codeHash : string) : OtpOp slotHold
  | OpUnconsumed (userID : UUID) : OtpOp AuthCredential
  | OpClaim (id : UUID) (maxAttempts : Z) : OtpOp bool
  | OpConsume (id : UUID) : OtpOp bool
  | OpPrune (cutoff : Time) (limit : Z) : OtpOp Z
  | OpSetPassword (userID : UUID) (phc : string) : OtpOp unit.

Section issue.
Context `{Env} `{Goque} `{Sealer} (s : Service).

(** *** request.go, the transaction *)

Definition at_step {A} (f : nat -> A + error) : M A := fun _ w =>
  (match f (w_step w) with inl a => Ok a | inr e => Err e end, tick w).

Definition claimSlot (userID : UUID) : M slotHold :=
  r ← attempt (GetUnconsumedOTPByUserIDForUpdate userID);
  match r with
  | inr err => if errors_Is err ErrAuthCredentialNotFound then mret slotFree
               else raise (Errorf "look up live otp" err)
  | inl live =>
      now ← UTCNow;
      let unexpired := match c_ExpiresAt live with Some t => After t now | None => false end in
      if unexpired && (maxAttempts s <=? c_Attempts live) then mret slotHoldAttemptsSpent
      else if unexpired && After (c_CreatedAt live) (Time_Add now (- reissueCooldown s)) then mret slotHoldCooldown
      else
        _ ← wrap_err (Errorf "consume live otp") (ConsumeOTP (c_ID live));
        mret slotFree
  end.

Definition sealForDelivery (cred : AuthCredential) (target code : string) : M OTPEmailPayload :=
  dek ← wrap_err (Errorf "generate otp data key") (at_step GenerateDEK);
  envelope ← wrap_err (Errorf "seal otp code")
    (at_step (fun n => cipher_Encrypt n dek (bytes code) (OTPCodeAAD (uuid_String (c_ID cred)))));
  wrapped ← wrap_err (Errorf "wrap otp data key") (at_step (fun n => keyring_WrapDEK n dek));
  match c_ExpiresAt cred with
  | Some t => mret (mkOTPEmail (c_ID cred) target envelope wrapped.1 wrapped.2 t "")
  | None => panic nil_dereference
  end.

Definition idempotencyKey (credentialID : string) : string := HashSha256 (bytes ("otp-email:" +:+ credentialID)).

Definition issue_in_tx (user : User) (nonce purpose code codeHash : string) : M slotHold :=
  held ← claimSlot (u_ID user);
  if negb (String.eqb held slotFree) then mret held
  else
    now ← UTCNow;
    cred ← wrap_err (Errorf "create otp credential")
      (Credentials.Create (mkCredential uuid_Nil (u_ID user) AuthCredentialKindOTP codeHash (Some (Time_Add now (ttl s)))
         None 0 (Some nonce) zeroTime zeroTime));
    task ← sealForDelivery cred (u_Email user) code;
    _ ← wrap_err (Errorf "enqueue otp email")
      (Schedule_now ProcessorTaskOTPEmailSend (PayloadOTPEmail (task <| oe_Purpose := purpose |>))
         (idempotencyKey (uuid_String (c_ID cred))));
    mret slotFree.
End issue.

(** *** The requests *)

Section service.
Context (s : Service).

(** request.go *)
Definition issue (user : User) (nonce purpose : string) : Prog OtpOp slotHold :=
  cc ← call_wrap (Errorf "generate otp code") OpCode;
  call (OpIssue user nonce purpose cc.1 cc.2).

Definition Request (email purpose : string) : Prog OtpOp string :=
  token ← call_wrap (Errorf "generate session nonce") OpToken;
  let nonce := token.1 in
  if IsBreakGlassEmail email then mret nonce
  else
    r ← try_call (OpUserByEmail email);
    match r with
    | inr err => if errors_Is err ErrUserNotFound then mret nonce else PErr (Errorf "resolve user by email" err)
    | inl user =>
        if IsBlocked user then mret nonce
        else
          _ ← issue user nonce purpose;
          mret nonce
    end.

(** verify.go; a nil expiry counts as expired, and the clock is not read then. *)
Definition expired (cred : AuthCredential) : Prog OtpOp bool :=
  match c_ExpiresAt cred with
  | None => mret true
  | Some t => now ← call OpNow; mret (negb (After t now))
  end.
(** [subtle.ConstantTimeCompare]: only its answer is modelled. *)
Definition matches (stored : option string) (given : string) : bool :=
  match stored with
  | None => false
  | Some v => String.eqb v given
  end.

Definition refused (user : option User) (reason : AuditFailureReason) (err : error) : Prog OtpOp Verdict :=
  mret (mkVerdict user reason (Some err)).

Definition Verify (cmd : VerifyOTPCmd) : Prog OtpOp Verdict :=
  r ← try_call (OpUserByEmail (vo_Email cmd));
  match r with
  | inr err => if errors_Is err ErrUserNotFound then refused None AuditFailureInvalidCode ErrInvalidCredentials
               else refused None "" (Errorf "resolve user by email" err)
  | inl user =>
      r ← try_call (OpUnconsumed (u_ID user));
      match r with
      | inr err => if errors_Is err ErrAuthCredentialNotFound
                   then refused (Some user) AuditFailureInvalidCode ErrInvalidCredentials
                   else refused None "" (Errorf "look up live otp" err)
      | inl cred =>
          dead ← expired cred;
          if (dead : bool) then
            r ← try_call (OpConsume (c_ID cred));
            match r with
            | inl true => refused (Some user) AuditFailureCodeExpired ErrInvalidCredentials
            | _ => refused (Some user) AuditFailureInvalidCode ErrInvalidCredentials
            end
          else if negb (matches (c_SessionNonce cred) (vo_SessionNonce cmd)) then
            refused (Some user) AuditFailureSessionMismatch ErrOTPSessionMismatch
          else
            r ← try_call (OpClaim (c_ID cred) (maxAttempts s));
            match r with
            | inr err => refused None "" (Errorf "claim otp attempt" err)
            | inl false => refused (Some user) AuditFailureAttemptsExhausted ErrInvalidCredentials
            | inl true =>
                if negb (matches (Some (c_SecretHash cred)) (HashSha256 (bytes (vo_Code cmd)))) then
                  refused (Some user) AuditFailureInvalidCode ErrInvalidCredentials
                else
                  r ← try_call (OpConsume (c_ID cred));
                  match r with
                  | inr err => refused None "" (Errorf "consume otp" err)
                  | inl false => refused (Some user) AuditFailureInvalidCode ErrInvalidCredentials
                  | inl true => mret (mkVerdict (Some user) "" None)
                  end
            end
      end
  end.

(** prune.go *)
Definition maxPruneBatches : nat := 100.
Definition defaultPruneBatchLimit : Z := 1000.
Definition defaultPruneRetention : Duration := 24 * Hour.
Fixpoint prune_batches (n : nat) (cutoff : Time) (batchLimit : Z) : Prog OtpOp unit :=
  match n with
  | O => mret tt
  | S n' =>
      deleted ← call (OpPrune cutoff batchLimit);
      if deleted <? batchLimit then mret tt else prune_batches n' cutoff batchLimit
  end.
Definition Prune (retention : Duration) (batchLimit : Z) : Prog OtpOp unit :=
  let batchLimit := if batchLimit <=? 0 then defaultPruneBatchLimit else batchLimit in
  let retention := if retention <=? 0 then defaultPruneRetention else retention in
  now ← call OpNow;
  prune_batches maxPruneBatches (Time_Add now (- retention)) batchLimit.
End service.

Section handler.
Context `{Env} `{Collation} `{Goque} `{Sealer} `{Entropy} (s : Service).

Definition otp_handle (X : Type) (op : OtpOp X) : M X :=
  match op with
  | OpNow => UTCNow
  | OpToken => GenerateToken sessionNonceBytes
  | OpCode => GenerateOTPCode
  | OpUserByEmail email => UserStore.GetByEmail email
  | OpIssue user nonce purpose code codeHash => WithinTx (issue_in_tx s user nonce purpose code codeHash)
  | OpUnconsumed userID => GetUnconsumedOTPByUserID userID
  | OpClaim id max => ClaimOTPAttempt id max
  | OpConsume id => ConsumeOTP id
  | OpPrune cutoff limit => PruneOTPExpiredBefore cutoff limit
  | OpSetPassword userID phc => UpsertPassword userID phc
  end.
End handler.
