(* ===== verification/OtpSpec.v ===== *)
(** * What one-time codes promise

    A code is compared with no more guesses than the ceiling allows and buys no
    more than one session, however the requests interleave; a second code is not
    issued while the first one shields it; pruning ends and takes only what has
    expired. *)
From Stdlib Require Import ZArith Lia Ascii String.
From stdpp Require Import base sorting sets strings numbers list relations.
From S2P Require Import Prelude Go Sha256 Entity Conflict AuditTrail Schema Logic Dbtx Interleave MaintStore Queue.
From S2P Require Import Sweep Fixtures Crypto Like UserStore Credentials Otp.
Open Scope Z_scope.

(** ** The requests of the service

    Setting a password is the one other writer of the table. *)

Inductive OtpRequest :=
  | ReqIssue (email purpose : string)
  | ReqVerify (cmd : VerifyOTPCmd)
  | ReqPrune (retention : Duration) (batchLimit : Z)
  | ReqSetPassword (userID : UUID) (phc : string).

Inductive OtpResult := ResNonce (nonce : string) | ResVerdict (v : Verdict) | ResDone.

Definition otp_program (s : Service) (req : OtpRequest) : Prog OtpOp OtpResult :=
  match req with
  | ReqIssue email purpose => n ← Request email purpose; mret (ResNonce n)
  | ReqVerify cmd => v ← Verify s cmd; mret (ResVerdict v)
  | ReqPrune retention limit => Prune retention limit;; mret ResDone
  | ReqSetPassword userID phc => call (OpSetPassword userID phc);; mret ResDone
  end.

Definition otp_arrives (s : Service) (p : Prog OtpOp OtpResult) : Prop := ∃ req, p = otp_program s req.

(** Attempts are claimed under the ceiling of the configuration. *)
Definition otp_call_ok (s : Service) (X : Type) (op : OtpOp X) : Prop :=
  match op with
  | OpClaim _ m => m = maxAttempts s
  | _ => True
  end.

Section calls.
Context (s : Service).

Lemma calls_of {A X} (op : OtpOp X) (k : X + error -> Prog OtpOp A) :
  otp_call_ok s X op -> (∀ r, calls_only (otp_call_ok s) (k r)) -> calls_only (otp_call_ok s) (PCall op k).
Proof. by constructor. Qed.

Ltac calls_tac :=
  repeat match goal with
  | |- calls_only _ (_ ≫= _) => apply calls_only_bind; [|intros ?]
  | |- calls_only _ (mret _) => constructor
  | |- calls_only _ (PRet _) => constructor
  | |- calls_only _ (PErr _) => constructor
  | |- calls_only _ (refused _ _ _) => constructor
  | |- calls_only _ (call _) => apply calls_of; [done|intros []; constructor]
  | |- calls_only _ (call_wrap _ _) => apply calls_of; [done|intros []; constructor]
  | |- calls_only _ (try_call _) => apply calls_of; [done|intros []; constructor]
  | |- calls_only _ (match ?x with _ => _ end) => destruct x
  | |- calls_only _ (if ?x then _ else _) => destruct x
  end.

Lemma prune_batches_calls n cutoff limit : calls_only (otp_call_ok s) (prune_batches n cutoff limit).
Proof. induction n as [|n IH]; cbn [prune_batches]; calls_tac. done. Qed.

Lemma otp_program_calls req : calls_only (otp_call_ok s) (otp_program s req).
Proof.
  destruct req; unfold otp_program, Request, issue, Verify, expired, Prune; calls_tac. apply prune_batches_calls.
Qed.
End calls.

(** ** Counting *)

(** An attempt claimed on the code [id], and the code [id] consumed. *)
Definition is_claim (id : UUID) (e : @Event OtpOp) : bool :=
  match e with
  | Ev _ op r =>
      match op in OtpOp X return outcome X -> bool with
      | OpClaim id' _ => fun r => match r with Ok true => N.eqb id' id | _ => false end
      | _ => fun _ => false
      end r
  end.
Definition is_consume (id : UUID) (e : @Event OtpOp) : bool :=
  match e with
  | Ev _ op r =>
      match op in OtpOp X return outcome X -> bool with
      | OpConsume id' => fun r => match r with Ok true => N.eqb id' id | _ => false end
      | _ => fun _ => false
      end r
  end.
Definition count (p : @Event OtpOp -> bool) (tr : list (@Event OtpOp)) : nat := length (List.filter p tr).
Definition claims (id : UUID) := count (is_claim id).
Definition redeemed (id : UUID) := count (is_consume id).

Lemma count_snoc p tr e : count p (tr ++ [e]) = (count p tr + if p e then 1 else 0)%nat.
Proof. unfold count. rewrite List.filter_app, length_app. simpl. by destruct (p e). Qed.

(** ** The invariant *)

Section guarded.
Context `{Env} (max : Z).
Implicit Types (tr : list (@Event OtpOp)) (db : DB).

(** A row has at least the attempts the history claimed on it, a code still live
    was never consumed, and ids not handed out yet have no history. *)
Record otp_inv tr (n : nat) db : Prop := {
  oi_nodup : NoDup (ac_ID <$> auth_credentials db);
  oi_claims : ∀ r, r ∈ auth_credentials db -> is_otp r = true -> Z.of_nat (claims (ac_ID r) tr) <= ac_Attempts r;
  oi_live : ∀ r, r ∈ auth_credentials db -> active_otp r = true -> redeemed (ac_ID r) tr = 0%nat;
  oi_ceiling : ∀ id, Z.of_nat (claims id tr) <= max;
  oi_once : ∀ id, (redeemed id tr <= 1)%nat;
  oi_fresh : ∀ m, (n <= m)%nat -> claims (env_uuid m 0) tr = 0%nat ∧ redeemed (env_uuid m 0) tr = 0%nat ∧
    env_uuid m 0 ∉ ac_ID <$> auth_credentials db }.

Lemma otp_inv_later tr n n' db : otp_inv tr n db -> (n <= n')%nat -> otp_inv tr n' db.
Proof. intros [H1 H2 H3 H4 H5 H6] Hle. split; try done. intros m Hm. apply H6. lia. Qed.

(** An event that neither claims nor consumes. *)
Lemma otp_inv_quiet tr n db e :
  (∀ id, is_claim id e = false) -> (∀ id, is_consume id e = false) -> otp_inv tr n db -> otp_inv (tr ++ [e]) n db.
Proof.
  intros Hc Hr [H1 H2 H3 H4 H5 H6].
  assert (∀ id, claims id (tr ++ [e]) = claims id tr) as Ec.
  { intros id. unfold claims. rewrite count_snoc, Hc. lia. }
  assert (∀ id, redeemed id (tr ++ [e]) = redeemed id tr) as Er.
  { intros id. unfold redeemed. rewrite count_snoc, Hr. lia. }
  split; [done|..]; intros *; rewrite ?Ec, ?Er; auto.
Qed.

(** A table whose rows each come from a row of the old one, no younger, no
    nearer to live. *)
Definition row_le (r r' : CredentialRow) : Prop :=
  ac_ID r' = ac_ID r ∧ ac_Kind r' = ac_Kind r ∧
  (is_otp r = true -> ac_Attempts r <= ac_Attempts r' ∧ (unconsumed r' = true -> unconsumed r = true)).

Lemma row_le_refl r : row_le r r.
Proof. repeat split; lia || done. Qed.

Lemma row_le_otp r r' : row_le r r' -> is_otp r' = is_otp r.
Proof. intros (_ & Hk & _). unfold is_otp. by rewrite Hk. Qed.

Lemma otp_inv_shrink tr n db db' :
  otp_inv tr n db -> NoDup (ac_ID <$> auth_credentials db') ->
  (∀ r', r' ∈ auth_credentials db' -> ∃ r, r ∈ auth_credentials db ∧ row_le r r') -> otp_inv tr n db'.
Proof.
  intros [H1 H2 H3 H4 H5 H6] Hnd Hrows. split; try done.
  - intros r' (r & Hr & Hle)%Hrows Ho. rewrite (row_le_otp _ _ Hle) in Ho. destruct Hle as (-> & _ & Hle).
    destruct (Hle Ho). specialize (H2 _ Hr Ho). lia.
  - intros r' (r & Hr & Hle)%Hrows Ho. unfold active_otp in *. apply andb_prop in Ho as [Ho Hu].
    rewrite (row_le_otp _ _ Hle) in Ho. destruct Hle as (-> & _ & Hle). destruct (Hle Ho) as [_ Hc].
    apply H3; [done|]. by rewrite Ho, Hc.
  - intros m Hm. destruct (H6 m Hm) as (Hc & Hr & Hf). split_and!; [done..|].
    intros (r' & E & (r & Hr' & Hid & _)%Hrows)%list_elem_of_fmap. apply Hf. apply list_elem_of_fmap. exists r.
    split; [congruence|done].
Qed.

Lemma otp_inv_update tr n db p f :
  otp_inv tr n db -> (∀ r, p r = true -> row_le r (f r)) -> otp_inv tr n (update_where p f db).
Proof.
  intros Hi Hf. assert (∀ r, row_le r (if p r then f r else r)) as Hle.
  { intros r. destruct (p r) eqn:E; [by apply Hf|apply row_le_refl]. }
  apply (otp_inv_shrink _ _ _ _ Hi).
  - simpl. rewrite <- list_fmap_compose. erewrite list_fmap_ext; [apply (oi_nodup _ _ _ Hi)|].
    intros i r _. apply (Hle r).
  - intros r' (r & -> & Hr)%list_elem_of_fmap. eauto.
Qed.

Lemma otp_inv_insert tr n db row :
  (∀ m k, env_uuid m 0 = env_uuid k 0 -> m = k) -> otp_inv tr n db -> ac_ID row = env_uuid n 0 ->
  ac_Attempts row = 0 -> otp_inv tr (S n) (db <| auth_credentials := auth_credentials db ++ [row] |>).
Proof.
  intros Hinj [H1 H2 H3 H4 H5 H6] Hid Ha. destruct (H6 n) as (Hc & Hr & Hf); [lia|]. split; simpl; try done.
  - rewrite fmap_app. apply NoDup_app. split_and!; [done| |apply NoDup_singleton].
    intros x Hx ->%list_elem_of_singleton. by rewrite Hid in Hx.
  - intros r [Hr'| ->%list_elem_of_singleton]%elem_of_app; [by apply H2|]. intros _. rewrite Hid, Hc. lia.
  - intros r [Hr'| ->%list_elem_of_singleton]%elem_of_app; [by apply H3|]. intros _. by rewrite Hid.
  - intros m Hm. destruct (H6 m) as (Hc' & Hr'' & Hf'); [lia|]. split_and!; [done..|].
    rewrite fmap_app, elem_of_app. simpl. rewrite list_elem_of_singleton, Hid. intros [?| ->%Hinj]; [done|lia].
Qed.

Lemma otp_inv_other tr n db db' :
  auth_credentials db' = auth_credentials db -> otp_inv tr n db -> otp_inv tr n db'.
Proof. intros E [H1 H2 H3 H4 H5 H6]. split; rewrite ?E; done. Qed.
End guarded.

(** One step of such a proof: the rule of the head combinator. *)
Ltac keepsN_step :=
  match goal with
  | |- keepsN _ (_ ≫= _) => apply keepsN_bind; [|intros ?]
  | |- keepsN _ (mret _) => apply keepsN_ret
  | |- keepsN _ (raise _) => apply keepsN_raise
  | |- keepsN _ (attempt _) => apply keepsN_attempt
  | |- keepsN _ (wrap_err _ _) => apply keepsN_wrap_err
  | |- keepsN _ (query _) => apply keepsN_query, otp_inv_later
  | |- keepsN _ UTCNow => apply keepsN_UTCNow; apply otp_inv_later
  | |- keepsN _ (match ?x with _ => _ end) => destruct x
  | |- keepsN _ (if ?x then _ else _) => destruct x
  end.
Ltac keepsN_tac := repeat keepsN_step.

Section preserved.
Context `{Env} `{Collation} `{Goque} `{Sealer} `{Entropy} (s : Service) (max : Z) (tr : list (@Event OtpOp)).
Context (uuid_inj : ∀ m k, env_uuid m 0 = env_uuid k 0 -> m = k).
Local Notation kept := (keepsN (otp_inv max tr)).

Lemma kept_tick {A} (m : M A) :
  (∀ ctx w, w_db (snd (m ctx w)) = w_db w ∧ (w_step w <= w_step (snd (m ctx w)))%nat) -> kept m.
Proof. apply keepsN_tick, otp_inv_later. Qed.

(** An update of the one column or the other. *)
Lemma kept_update {A} (g : DB -> A) p f :
  (∀ r, p r = true -> row_le r (f r)) -> kept (sql (fun _ db => Ok (g db, update_where p f db))).
Proof.
  intros Hf. apply keepsN_sql; [apply otp_inv_later|]. intros n ctx db a db' Hi [= <- <-].
  apply otp_inv_update; [|done]. by eapply otp_inv_later; [|apply Nat.le_succ_diag_r].
Qed.

Lemma claim_row_le id m t r :
  claimable id m r = true -> row_le r (r <| ac_Attempts := ac_Attempts r + 1 |> <| ac_UpdatedAt := t |>).
Proof. intros _. destruct r. split_and!; [done..|]. intros _. simpl. split; [lia|done]. Qed.

Lemma consume_row_le id t u r :
  consumable id r = true -> row_le r (r <| ac_ConsumedAt := Some t |> <| ac_UpdatedAt := u |>).
Proof. intros _. destruct r. split_and!; [done..|]. intros _. simpl. split; [lia|done]. Qed.

Lemma kept_Claim id m : kept (ClaimOTPAttempt id m).
Proof. unfold ClaimOTPAttempt. keepsN_tac. apply kept_update. apply claim_row_le. Qed.

Lemma kept_Consume id : kept (ConsumeOTP id).
Proof. unfold ConsumeOTP. keepsN_tac. apply kept_update. apply consume_row_le. Qed.

Lemma kept_Create cred : c_Attempts cred = 0 -> kept (Credentials.Create cred).
Proof.
  intros Ha. unfold Credentials.Create. keepsN_step. apply keepsN_sql; [apply otp_inv_later|].
  intros n ctx db a db' Hi Hrun. cbv zeta in Hrun. do 3 (apply require_Ok in Hrun as [_ Hrun]).
  injection Hrun as <- <-. by apply otp_inv_insert.
Qed.

Lemma otp_not_password r : is_password r = true -> is_otp r = false.
Proof. unfold is_password, is_otp. by intros ->%String.eqb_eq. Qed.

Lemma kept_Prune cutoff limit : kept (PruneOTPExpiredBefore cutoff limit).
Proof.
  apply keepsN_sql; [apply otp_inv_later|]. intros n ctx db a db' Hi [= <- <-].
  apply otp_inv_shrink with db; [by eapply otp_inv_later; [|apply Nat.le_succ_diag_r]|..]; simpl.
  - apply NoDup_fmap_List_filter, (oi_nodup _ _ _ _ Hi).
  - intros r [Hr _]%elem_of_List_filter. eauto using row_le_refl.
Qed.

Lemma kept_UpsertPassword userID phc : kept (UpsertPassword userID phc).
Proof.
  apply keepsN_sql; [apply otp_inv_later|]. intros n ctx db a db' Hi Hrun. cbv zeta in Hrun.
  destruct (existsb _ _); [injection Hrun as <- <-|].
  - apply otp_inv_update; [by eapply otp_inv_later; [|apply Nat.le_succ_diag_r]|].
    intros r [_ Hp]%andb_prop. apply otp_not_password in Hp. destruct r. by split_and!; [..|rewrite Hp].
  - do 2 (apply require_Ok in Hrun as [_ Hrun]). injection Hrun as <- <-. by apply otp_inv_insert.
Qed.

Lemma kept_on_queue f : kept (on_queue f).
Proof.
  apply keepsN_sql; [apply otp_inv_later|]. intros n ctx db a db' Hi Hrun. destruct (f _); [|done..].
  injection Hrun as <- <-. eapply otp_inv_other; [|by eapply otp_inv_later; [|apply Nat.le_succ_diag_r]]. done.
Qed.

Lemma kept_at_step {A} (f : nat -> A + error) : kept (at_step f).
Proof. apply kept_tick. intros ctx w. simpl. split; [done|lia]. Qed.

Lemma kept_NewTask ty p ext : kept (goque_NewTask ty p ext).
Proof. apply kept_tick. intros ctx w. simpl. split; [done|lia]. Qed.

Lemma kept_issue user nonce purpose code codeHash : kept (issue_in_tx s user nonce purpose code codeHash).
Proof.
  unfold issue_in_tx, claimSlot, GetUnconsumedOTPByUserIDForUpdate, Credentials.get, sealForDelivery, Schedule_now,
    ScheduleDelayed, AddTaskToQueue.
  keepsN_tac; try apply kept_Consume; try apply kept_at_step; try apply kept_NewTask; try apply kept_on_queue.
  - by apply kept_Create.
  - apply keepsN_lift.
Qed.

Lemma kept_handle X (op : OtpOp X) : kept (otp_handle s X op).
Proof.
  destruct op; simpl; try (apply kept_tick; intros ctx w; simpl; split; [done|lia]).
  - unfold GetByEmail, UserStore.get. keepsN_tac.
  - apply keepsN_WithinTx; [apply otp_inv_later|apply kept_issue].
  - unfold GetUnconsumedOTPByUserID, Credentials.get. keepsN_tac.
  - apply kept_Claim.
  - apply kept_Consume.
  - apply kept_Prune.
  - apply kept_UpsertPassword.
Qed.
End preserved.

(** ** Claims and redemptions in the history *)

Section history.
Context `{Env} `{Collation} `{Goque} `{Sealer} `{Entropy} (s : Service).
Implicit Types (tr : list (@Event OtpOp)).

(** The rows of a table behind an update of one of them. *)
Lemma update_where_elem p f db r' :
  r' ∈ auth_credentials (update_where p f db) ->
  ∃ r, r ∈ auth_credentials db ∧ r' = (if p r then f r else r).
Proof. intros (r & -> & Hr)%list_elem_of_fmap. eauto. Qed.

Lemma claim_counts max tr n db id t i :
  otp_inv max tr n db -> hits (claimable id max) db ≠ 0%nat ->
  otp_inv max (tr ++ [Ev i (OpClaim id max) (Ok true)]) n
    (update_where (claimable id max) (fun r => r <| ac_Attempts := ac_Attempts r + 1 |> <| ac_UpdatedAt := t |>) db).
Proof.
  intros Hi Hh. set (e := Ev _ _ _). set (f := fun r => _). set (p := claimable id max).
  assert (∃ r0, r0 ∈ auth_credentials db ∧ p r0 = true) as (r0 & Hr0 & Hp0).
  { apply filter_hit. by apply negb_true_iff, Nat.eqb_neq. }
  unfold p, claimable in Hp0. apply andb_prop in Hp0 as [[Hid Hact]%andb_prop Hlt].
  apply N.eqb_eq in Hid. apply Z.ltb_lt in Hlt. pose proof Hact as [Hotp _]%andb_prop.
  pose proof (oi_claims _ _ _ _ Hi _ Hr0 Hotp) as Hc0. rewrite Hid in Hc0.
  assert (∀ id', claims id' (tr ++ [e]) = (claims id' tr + if N.eqb id id' then 1 else 0)%nat) as Ec
    by (intros id'; apply count_snoc).
  assert (∀ id', redeemed id' (tr ++ [e]) = redeemed id' tr) as Er.
  { intros id'. unfold redeemed. rewrite count_snoc. simpl. lia. }
  pose proof (otp_inv_update max tr n db p f Hi (claim_row_le _ _ _)) as [G1 G2 G3 G4 G5 G6]. split; [done|..].
  - intros r' Hr' Ho. rewrite Ec. specialize (G2 r' Hr' Ho).
    destruct (N.eqb_spec id (ac_ID r')) as [E|E]; [|lia].
    apply update_where_elem in Hr' as (r & Hr & ->).
    assert (r = r0) as ->.
    { eapply NoDup_fmap_2_elem; [apply (oi_nodup _ _ _ _ Hi)|done..|]. rewrite Hid, E. by destruct (p r), r. }
    assert (p r0 = true) as Ep.
    { unfold p, claimable. rewrite Hid, N.eqb_refl, Hact. by apply Z.ltb_lt. }
    rewrite Ep in *. replace (ac_ID (f r0)) with id by done.
    replace (ac_Attempts (f r0)) with (ac_Attempts r0 + 1) by by destruct r0. lia.
  - intros r' Hr' Ha. rewrite Er. by apply G3.
  - intros id'. rewrite Ec. specialize (G4 id'). destruct (N.eqb_spec id id') as [->|]; lia.
  - intros id'. by rewrite Er.
  - intros m Hm. destruct (G6 m Hm) as (Hc & Hr & Hf). rewrite Ec, Er. split_and!; [|done..].
    destruct (N.eqb_spec id (env_uuid m 0)) as [E|]; [|lia]. destruct Hf. rewrite <- E. simpl.
    rewrite <- list_fmap_compose. apply list_elem_of_fmap. exists r0. split; [|done]. rewrite <- Hid.
    simpl. by destruct (p r0), r0.
Qed.

Lemma consume_counts max tr n db id t i :
  otp_inv max tr n db -> hits (consumable id) db ≠ 0%nat ->
  otp_inv max (tr ++ [Ev i (OpConsume id) (Ok true)]) n
    (update_where (consumable id) (fun r => r <| ac_ConsumedAt := Some t |> <| ac_UpdatedAt := t |>) db).
Proof.
  intros Hi Hh. set (e := Ev _ _ _). set (f := fun r => _). set (p := consumable id).
  assert (∃ r0, r0 ∈ auth_credentials db ∧ p r0 = true) as (r0 & Hr0 & Hp0).
  { apply filter_hit. by apply negb_true_iff, Nat.eqb_neq. }
  pose proof Hp0 as [Hid Hact]%andb_prop. apply N.eqb_eq in Hid.
  pose proof (oi_live _ _ _ _ Hi _ Hr0 Hact) as Hc0. rewrite Hid in Hc0.
  assert (∀ id', redeemed id' (tr ++ [e]) = (redeemed id' tr + if N.eqb id id' then 1 else 0)%nat) as Er
    by (intros id'; apply count_snoc).
  assert (∀ id', claims id' (tr ++ [e]) = claims id' tr) as Ec.
  { intros id'. unfold claims. rewrite count_snoc. simpl. lia. }
  pose proof (otp_inv_update max tr n db p f Hi (consume_row_le _ _ _)) as [G1 G2 G3 G4 G5 G6]. split; [done|..].
  - intros r' Hr' Ho. rewrite Ec. by apply G2.
  - intros r' Hr' Ha. rewrite Er. rewrite (G3 r' Hr' Ha). destruct (N.eqb_spec id (ac_ID r')) as [E|E]; [|lia].
    apply update_where_elem in Hr' as (r & Hr & ->).
    assert (r = r0) as ->.
    { eapply NoDup_fmap_2_elem; [apply (oi_nodup _ _ _ _ Hi)|done..|]. rewrite Hid, E. by destruct (p r), r. }
    rewrite Hp0 in Ha. apply andb_prop in Ha as [_ Hu]. by destruct r0.
  - intros id'. by rewrite Ec.
  - intros id'. rewrite Er. specialize (G5 id'). destruct (N.eqb_spec id id') as [->|]; lia.
  - intros m Hm. destruct (G6 m Hm) as (Hc & Hr & Hf). rewrite Ec, Er. split_and!; [done| |done].
    destruct (N.eqb_spec id (env_uuid m 0)) as [E|]; [|lia]. destruct Hf. rewrite <- E. simpl.
    rewrite <- list_fmap_compose. apply list_elem_of_fmap. exists r0. split; [|done]. rewrite <- Hid.
    simpl. by destruct (p r0), r0.
Qed.

(** What a guarded statement of the store answers and does. *)
Lemma guarded_run {A} (g : Time -> DB -> A) (u : Time -> DB -> DB) ctx w r w' :
  (now ← UTCNow; sql (fun _ db => Ok (g now db, u now db))) ctx w = (r, w') ->
  (∃ e, r = Err e) ∨ (∃ t, r = Ok (g t (w_db w)) ∧ w_db w' = u t (w_db w) ∧ (w_step w <= w_step w')%nat).
Proof.
  unfold mbind, M_bind, UTCNow, sql. simpl. destruct (env_fault _); intros [= <- <-]; [eauto|].
  right. eexists. split_and!; [done|done|]. simpl. lia.
Qed.

Context (uuid_inj : ∀ m k, env_uuid m 0 = env_uuid k 0 -> m = k).

Lemma otp_step w tr i X (op : OtpOp X) r w' :
  otp_call_ok s X op -> otp_inv (maxAttempts s) tr (w_step w) (w_db w) -> otp_handle s X op background w = (r, w') ->
  otp_inv (maxAttempts s) (tr ++ [Ev i op r]) (w_step w') (w_db w').
Proof.
  intros Hok Hi Hrun. destruct (kept_handle s (maxAttempts s) tr uuid_inj X op _ _ _ _ Hrun Hi) as [Hle Hk].
  destruct op; try by apply otp_inv_quiet.
  - simpl in Hok. subst. simpl in Hrun.
    apply guarded_run in Hrun as [[e ->]|(t & -> & Hdb & Hs)]; [by apply otp_inv_quiet|].
    destruct (negb _) eqn:Eh; [|by apply otp_inv_quiet]. rewrite Hdb.
    eapply otp_inv_later; [|exact Hs]. apply claim_counts; [done|]. by apply Nat.eqb_neq, negb_true_iff.
  - simpl in Hrun. apply guarded_run in Hrun as [[e ->]|(t & -> & Hdb & Hs)]; [by apply otp_inv_quiet|].
    destruct (negb _) eqn:Eh; [|by apply otp_inv_quiet]. rewrite Hdb.
    eapply otp_inv_later; [|exact Hs]. apply consume_counts; [done|]. by apply Nat.eqb_neq, negb_true_iff.
Qed.
End history.

(** ** The guarantees *)

Lemma count_unique p tr e e' : (count p tr <= 1)%nat -> e ∈ tr -> e' ∈ tr -> p e = true -> p e' = true -> e = e'.
Proof.
  unfold count. intros Hc He He' Hp Hp'.
  assert (e ∈ List.filter p tr) as H1 by by apply elem_of_List_filter.
  assert (e' ∈ List.filter p tr) as H2 by by apply elem_of_List_filter.
  destruct (List.filter p tr) as [|x [|y l]]; simpl in Hc; [set_solver| |lia].
  apply list_elem_of_singleton in H1, H2. congruence.
Qed.

Lemma MaxAttempts_bound cfg : 1 <= MaxAttempts cfg <= maxAllowedAttempts.
Proof.
  unfold MaxAttempts, wrap16, maxAllowedAttempts, defaultMaxAttempts.
  destruct (Z.leb_spec (OTPMaxAttempts cfg) 0); [done|].
  destruct (Z.ltb_spec 10 (OTPMaxAttempts cfg)); [done|]. rewrite Z.mod_small; lia.
Qed.

(** A verification that succeeded: every answer it got, in order. *)
Definition redeems (i : nat) (s : Service) (cmd : VerifyOTPCmd) (user : User) (cred : AuthCredential)
    (tr : list (@Event OtpOp)) : Prop :=
  ∃ now exp, tr = [Ev i (OpUserByEmail (vo_Email cmd)) (Ok user); Ev i (OpUnconsumed (u_ID user)) (Ok cred);
      Ev i OpNow (Ok now); Ev i (OpClaim (c_ID cred) (maxAttempts s)) (Ok true); Ev i (OpConsume (c_ID cred)) (Ok true)] ∧
    c_SessionNonce cred = Some (vo_SessionNonce cmd) ∧ c_SecretHash cred = HashSha256 (bytes (vo_Code cmd)) ∧
    c_ExpiresAt cred = Some exp ∧ now < exp.

(** A branch that answers an error. *)
Ltac refusal H v := repeat (progress follow_step H || case_hyp H); subst v; discriminate.

Lemma Verify_redeems s cmd i es v :
  follows (v ← Verify s cmd; mret (ResVerdict v)) es (PRet (ResVerdict v)) -> v_err v = None ->
  Forall (fun e => ev_thread e = i) es -> ∃ user cred, v_user v = Some user ∧ redeems i s cmd user cred es.
Proof.
  intros H Hv Hi. follow_step H. follow_step H. injection H as <-. unfold Verify, refused in H0.
  follow_step H0; [|refusal H0 v].
  follow_step H0; [|refusal H0 v].
  follow_step H0. unfold expired in H1. destruct (c_ExpiresAt x0) as [exp|] eqn:Eexp; last first.
  { follow_step H1. subst a. cbv beta iota in H0. refusal H0 v. }
  follow_step H1. follow_step H1. subst a. destruct (After exp a0) eqn:Eaft; cbn [negb] in H0; last first.
  { refusal H0 v. }
  destruct (matches (c_SessionNonce x0) _) eqn:En; [cbn [negb] in H0|cbn [negb] in H0; refusal H0 v].
  follow_step H0; [|refusal H0 v]. destruct x1; [|refusal H0 v].
  destruct (matches (Some _) _) eqn:Ec; [cbn [negb] in H0|cbn [negb] in H0; refusal H0 v].
  follow_step H0; [|refusal H0 v]. destruct x1; [|refusal H0 v].
  follow_step H0. subst v. exists x, x0. split; [done|]. exists a0, exp. simpl in Hi.
  repeat match goal with Hc : Forall _ (_ :: _) |- _ => apply Forall_cons in Hc as [? Hc] end. simpl in *. subst.
  split_and!; [done| | |done|].
  - unfold matches in En. destruct (c_SessionNonce x0); [|done]. by apply String.eqb_eq in En as ->.
  - by apply String.eqb_eq in Ec.
  - by apply Z.ltb_lt.
Qed.

(** The same request with another code. *)
Definition other_code (cmd : VerifyOTPCmd) (code : string) : VerifyOTPCmd :=
  mkVerifyCmd (vo_Email cmd) code (vo_SessionNonce cmd) (vo_ClientIP cmd) (vo_UserAgent cmd).

(** A run of one branch, of which the conditions are known. *)
Ltac follow_back :=
  repeat first
    [ apply follows_nil
    | eapply follows_call; cbn
    | match goal with Hc : ?x = _ |- context [if negb ?x then _ else _] => rewrite Hc; cbn end
    | match goal with Hc : ?x = _ |- context [if ?x then _ else _] => rewrite Hc; cbn end
    | match goal with Hc : ?x = _ |- context [match ?x with _ => _ end] => rewrite Hc; cbn end ].

(** The code a verification was shown. *)
Definition credential_read (e : @Event OtpOp) : option AuthCredential :=
  match e with
  | Ev _ op r =>
      match op in OtpOp X return outcome X -> option AuthCredential with
      | OpUnconsumed _ => fun r => match r with Ok cred => Some cred | _ => None end
      | _ => fun _ => None
      end r
  end.

(** A verification either has claimed an attempt on the code it read, or has said
    what it would have said to every other code. *)
Lemma Verify_blind s cmd es v :
  follows (Verify s cmd) es (PRet v) ->
  (∀ i user cred, Ev i (OpUnconsumed user) (Ok cred) ∈ es -> ∃ j, Ev j (OpClaim (c_ID cred) (maxAttempts s)) (Ok true) ∈ es) ∨
  ∀ code, follows (Verify s (other_code cmd code)) es (PRet v).
Proof.
  intros H. unfold Verify, refused in H.
  follow_step H; [|right; intros code; case_hyp H; follow_step H; subst v; unfold Verify, refused; cbn; follow_back].
  follow_step H; [|right; intros code; case_hyp H; follow_step H; subst v; unfold Verify, refused; cbn; follow_back].
  follow_step H. unfold expired in H0. destruct (c_ExpiresAt x0) as [exp|] eqn:Eexp; last first.
  { follow_step H0. subst a. cbv beta iota in H. right. intros code.
    repeat (progress follow_step H || case_hyp H); subst v; unfold Verify, expired, refused; cbn; follow_back. }
  follow_step H0. follow_step H0. subst a. destruct (After exp a0) eqn:Eaft; cbn [negb] in H; last first.
  { right. intros code. repeat (progress follow_step H || case_hyp H); subst v; unfold Verify, expired, refused; cbn; follow_back. }
  destruct (matches (c_SessionNonce x0) _) eqn:En; cbn [negb] in H; last first.
  { right. intros code. follow_step H; subst v; unfold Verify, expired, refused; cbn; follow_back. }
  follow_step H; [destruct x1|]; [left|right; intros code; follow_step H; subst v; unfold Verify, expired, refused; cbn; follow_back..].
  intros i3 user cred Hin. exists i2. assert (cred = x0) as ->; [|set_solver].
  enough (Some cred = Some x0) as E by by injection E.
  repeat (progress follow_step H || case_hyp H); repeat (apply elem_of_cons in Hin as [Hin|Hin]; [by apply (f_equal credential_read) in Hin|]);
    by apply elem_of_nil in Hin.
Qed.

(** The thread [i] has tried its code on the stored code [id] and knows something
    of it now: it has read the row, and with some other code the verification,
    answered the same by the database, would not have ended the way it did. *)
Definition guessed (s : Service) (c : @Conf OtpOp OtpResult) (id : UUID) (i : nat) : Prop := ∃ v cmd code user cred,
  cf_threads c !! i = Some (PRet (ResVerdict v)) ∧
  follows (otp_program s (ReqVerify cmd)) (thread_events i (cf_trace c)) (PRet (ResVerdict v)) ∧
  ~ follows (otp_program s (ReqVerify (other_code cmd code))) (thread_events i (cf_trace c)) (PRet (ResVerdict v)) ∧
  Ev i (OpUnconsumed user) (Ok cred) ∈ cf_trace c ∧ c_ID cred = id.

Lemma thread_events_elem (i : nat) (e : @Event OtpOp) tr : e ∈ thread_events i tr <-> ev_thread e = i ∧ e ∈ tr.
Proof. unfold thread_events. by rewrite list_elem_of_filter. Qed.

Lemma follows_bind_ret {E A B} (p : Prog E A) (f : A -> B) es a :
  follows p es (PRet a) -> follows (x ← p; mret (f x)) es (PRet (f a)).
Proof.
  revert es. induction p as [x|e|X op k IH]; intros es Hf.
  - apply follows_ret_inv in Hf as [-> ->]. constructor.
  - by apply follows_err_inv in Hf.
  - apply follows_call_inv in Hf as (i & r & es' & -> & Hf). cbn. constructor.
    destruct r as [x|e|m]; cbn in *; [by apply IH..|by apply follows_err_inv in Hf].
Qed.

Lemma guessed_claims s c id i : guessed s c id i -> i ∈ ev_thread <$> List.filter (is_claim id) (cf_trace c).
Proof.
  intros (v & cmd & code & user & cred & _ & Hf & Hother & Hread & <-). cbn [otp_program] in Hf, Hother.
  apply follows_bind_inv in Hf as (es & es2 & v' & Ees & Hf0 & [-> [= ->]]%follows_ret_inv). rewrite app_nil_r in Ees. subst es.
  destruct (Verify_blind _ _ _ _ Hf0) as [Hclaim|Hblind]; [|by destruct Hother; apply follows_bind_ret].
  destruct (Hclaim i user cred) as (j & Hj); [by apply thread_events_elem|]. apply thread_events_elem in Hj as [<- Hj].
  apply list_elem_of_fmap. exists (Ev j (OpClaim (c_ID cred) (maxAttempts s)) (Ok true)). split; [done|].
  apply elem_of_List_filter. split; [done|]. simpl. apply N.eqb_refl.
Qed.

(** No more guesses than claims. *)
Lemma guesses_bounded s c id l : NoDup l -> (∀ i, i ∈ l -> guessed s c id i) -> (length l <= claims id (cf_trace c))%nat.
Proof.
  intros Hnd Hl. unfold claims, count. rewrite <- (length_fmap ev_thread). apply submseteq_length, NoDup_submseteq; [done|].
  intros i Hi. by eapply guessed_claims, Hl.
Qed.

Section promises.
Context `{Env} `{Collation} `{Goque} `{Sealer} `{Entropy} (cfg : OtpConfig).
Let s := NewService cfg.

(** C10. However requests for codes, verifications, prunings and password changes
    interleave: on every code at most the configured number of attempts is ever
    claimed, which is between one and ten whatever the configuration says, and no
    more verifications than that ever learn anything of the code, by ending in a
    way they would not have ended in with some other guess; a
    code is consumed at most once, so two verifications never redeem the same
    one; and a verification that succeeds has found the live code of the user
    with that address, asked by the same browser, with the hash of the given
    code, not expired at the moment it looked, has claimed an attempt on it and
    has consumed it.  The ids the server draws are assumed distinct. *)
Theorem otp_guessing_bounded w0 c :
  (∀ m k, env_uuid m 0 = env_uuid k 0 -> m = k) ->
  NoDup (ac_ID <$> auth_credentials (w_db w0)) ->
  (∀ m, (w_step w0 <= m)%nat -> env_uuid m 0 ∉ ac_ID <$> auth_credentials (w_db w0)) ->
  (∀ r, r ∈ auth_credentials (w_db w0) -> 0 <= ac_Attempts r) ->
  reachable (otp_handle s) (otp_arrives s) w0 c ->
  1 <= MaxAttempts cfg <= 10 ∧
  (∀ id, Z.of_nat (claims id (cf_trace c)) <= MaxAttempts cfg ∧ (redeemed id (cf_trace c) <= 1)%nat) ∧
  (∀ id guessers, NoDup guessers -> (∀ i, i ∈ guessers -> guessed s c id i) -> Z.of_nat (length guessers) <= MaxAttempts cfg) ∧
  (∀ i v, cf_threads c !! i = Some (PRet (ResVerdict v)) -> v_err v = None ->
     ∃ cmd user cred, v_user v = Some user ∧ redeems i s cmd user cred (thread_events i (cf_trace c))) ∧
  (∀ i j id, Ev i (OpConsume id) (Ok true) ∈ cf_trace c -> Ev j (OpConsume id) (Ok true) ∈ cf_trace c -> i = j).
Proof.
  intros Hinj Hnd Hfresh Hatt Hr. pose proof (MaxAttempts_bound cfg) as Hmax.
  assert (otp_inv (maxAttempts s) (cf_trace c) (w_step (cf_world c)) (w_db (cf_world c))) as Hi.
  { apply (reachable_inv_calls _ _ _ (otp_call_ok s) (fun w tr => otp_inv (maxAttempts s) tr (w_step w) (w_db w)) _ Hr).
    - intros p [req ->]. apply otp_program_calls.
    - split; [done|..]; try (intros; simpl; auto; lia). intros id. simpl. unfold claims, count. simpl. lia.
    - intros. by eapply otp_step. }
  split; [done|]. split; [|split; [|split]].
  - intros id. split; [apply (oi_ceiling _ _ _ _ Hi)|apply (oi_once _ _ _ _ Hi)].
  - intros id l Hndl Hl. pose proof (guesses_bounded _ _ _ _ Hndl Hl). pose proof (oi_ceiling _ _ _ _ Hi id) as Hc.
    change (maxAttempts s) with (MaxAttempts cfg) in Hc. lia.
  - intros i v Ht Hv. destruct (reachable_follows _ _ _ _ Hr _ _ Ht) as (p0 & [req ->] & Hf).
    assert (∃ cmd, req = ReqVerify cmd) as [cmd ->].
    { clear -Hf. revert Hf. generalize (thread_events i (cf_trace c)). intros es Hf. destruct req; cbn [otp_program] in Hf; [|eauto|..]; follow_step Hf; by follow_step Hf. }
    exists cmd. eapply Verify_redeems; [exact Hf|done|]. apply Forall_forall.
    intros e [He _]%list_elem_of_filter. done.
  - intros i j id Hi1 Hj1. enough (Ev i (OpConsume id) (Ok true) = Ev j (OpConsume id) (Ok true)) as E
      by by apply (f_equal ev_thread) in E.
    eapply count_unique; [apply (oi_once _ _ _ _ Hi id)|done..|simpl; apply N.eqb_refl|simpl; apply N.eqb_refl].
Qed.
End promises.

(** Two browsers send the right code at once; the statements of the two
    verifications alternate, and one of them gets in. *)
Definition ex_sealer : Sealer := {|
  GenerateDEK := fun _ => inl (bytes "key"); cipher_Encrypt := fun _ _ p _ => inl p;
  keyring_WrapDEK := fun _ k => inl (k, "v1") |}.
Definition ex_entropy : Entropy := {| entropy := fun _ => repeat Ascii.zero 64 |}.
Definition ex_otp_cfg : OtpConfig := mkOtpConfig 0 100 0.
Definition ex_otp_world : World :=
  mkWorld (ex_db <| users := [mkUserRow 11 "ann@example.com" "Ann" [] T0 None None None None] |>
             <| auth_credentials := [mkCredentialRow 1 11 AuthCredentialKindOTP "8d969eef6ecad3c29a3a629280e686cf0c3f5d5a86aff3ca12020c923adc6c92"
                  (Some (at_min 5)) None 0 (Some "nonce") T0 T0] |>) 0 [] [].
Definition ex_verify : VerifyOTPCmd := mkVerifyCmd "ann@example.com" "123456" "nonce" "" "".
Definition ex_race : Conf :=
  run_schedule (@otp_handle calm_env c_collation list_goque ex_sealer ex_entropy (NewService ex_otp_cfg))
    [otp_program (NewService ex_otp_cfg) (ReqVerify ex_verify); otp_program (NewService ex_otp_cfg) (ReqVerify ex_verify)]
    ex_otp_world [0; 1; 0; 1; 0; 1; 0; 1; 0; 1]%nat.

(** How the verification of the thread [i] ended. *)
Definition verdict_of (c : @Conf OtpOp OtpResult) (i : nat) : option (option error) :=
  match cf_threads c !! i with
  | Some (PRet (ResVerdict v)) => Some (v_err v)
  | _ => None
  end.

Lemma ex_race_reachable :
  reachable (@otp_handle calm_env c_collation list_goque ex_sealer ex_entropy (NewService ex_otp_cfg))
    (otp_arrives (NewService ex_otp_cfg)) ex_otp_world ex_race.
Proof. apply run_schedule_reachable. repeat constructor; by eexists. Qed.

(** The verification that got in has learned the code: another guess would not have. *)
Lemma ex_race_guessed : guessed (NewService ex_otp_cfg) ex_race 1 0.
Proof.
  assert (∃ v, cf_threads ex_race !! 0%nat = Some (PRet (ResVerdict v)) ∧ v_err v = None) as (v & Hv & Herr)
    by (eexists; split; vm_compute; reflexivity).
  assert (∃ user cred, omap credential_read (thread_events 0 (cf_trace ex_race)) = [cred] ∧ c_ID cred = 1%N ∧
    c_SecretHash cred = "8d969eef6ecad3c29a3a629280e686cf0c3f5d5a86aff3ca12020c923adc6c92" ∧
    thread_events 0 (cf_trace ex_race) !! 1%nat = Some (Ev 0 (OpUnconsumed user) (Ok cred))) as (user & cred & Hone & Hid & Hhash & Hread)
    by (do 2 eexists; split_and!; vm_compute; reflexivity).
  assert (reachable (@otp_handle calm_env c_collation list_goque ex_sealer ex_entropy (NewService ex_otp_cfg))
    (fun p => p = otp_program (NewService ex_otp_cfg) (ReqVerify ex_verify)) ex_otp_world ex_race) as Hreach
    by by apply run_schedule_reachable; repeat constructor.
  destruct (reachable_follows _ _ _ _ Hreach _ _ Hv) as (p0 & -> & Hfol).
  assert (String.eqb "8d969eef6ecad3c29a3a629280e686cf0c3f5d5a86aff3ca12020c923adc6c92" (HashSha256 (bytes "000000")) = false) as Hne
    by (vm_compute; reflexivity).
  exists v, ex_verify, "000000", user, cred. split; [done|]. split; [|split; [|split; [|done]]].
  - exact Hfol.
  - intros Hf. destruct (Verify_redeems _ _ 0 _ _ Hf Herr) as (u' & cred' & _ & now & exp & Etr & _ & Hh & _).
    { apply Forall_forall. intros e [He _]%thread_events_elem. done. }
    rewrite Etr in Hone. cbn in Hone. injection Hone as ->. rewrite Hhash in Hh. change (vo_Code _) with "000000" in Hh.
    apply String.eqb_neq in Hne. exact (Hne Hh).
  - by apply list_elem_of_lookup_2, thread_events_elem in Hread as [_ ?].
Qed.

Lemma otp_guessing_bounded_witness :
  verdict_of ex_race 0 = Some None ∧ verdict_of ex_race 1 = Some (Some ErrInvalidCredentials) ∧
  claims 1 (cf_trace ex_race) = 2%nat ∧ guessed (NewService ex_otp_cfg) ex_race 1 0 ∧ (redeemed 1 (cf_trace ex_race) <= 1)%nat.
Proof.
  split; [vm_compute; reflexivity|]. split; [vm_compute; reflexivity|]. split; [vm_compute; reflexivity|]. split; [exact ex_race_guessed|].
  refine (proj2 (proj1 (proj2 (@otp_guessing_bounded calm_env c_collation list_goque ex_sealer ex_entropy ex_otp_cfg
    ex_otp_world ex_race _ _ _ _ _)) 1%N)).
  - exact calm_uuid_inj.
  - decide_now.
  - intros m _ Hin%list_elem_of_singleton. pose proof (calm_uuid_big m) as Hb. rewrite Hin in Hb. by apply Hb.
  - intros r ->%list_elem_of_singleton. done.
  - exact ex_race_reachable.
Defined.

(** ** Issuing *)

Section issuing.
Context `{Env} `{Goque} `{Sealer} (s : Service).

Lemma find_otp_Some uid db row :
  find_otp uid db = Some row -> row ∈ auth_credentials db ∧ of_user uid row = true ∧ active_otp row = true.
Proof. intros [Hin [? ?]%andb_prop]%find_some. by rewrite list_elem_of_In. Qed.

Lemma get_live_run uid ctx w r w' :
  attempt (GetUnconsumedOTPByUserIDForUpdate uid) ctx w = (Ok r, w') ->
  w_db w' = w_db w ∧ (w_step w <= w_step w')%nat ∧
  match r with
  | inl c => ∃ row, find_otp uid (w_db w) = Some row ∧ c = fromDB row
  | inr e => errors_Is e ErrAuthCredentialNotFound = true -> find_otp uid (w_db w) = None
  end.
Proof.
  intros E%attempt_Ok. unfold GetUnconsumedOTPByUserIDForUpdate in E. destruct r as [c|e].
  - run_all. apply sql_Ok in Hrun as (db' & [= <- <-] & ->). unfold Credentials.get in Hrun0.
    destruct (find_otp uid (w_db w)) as [row|]; run_all. split_and!; [done|simpl; lia|eauto].
  - unfold mbind, M_bind in E. destruct (query _ _ _) as [[o|e'|p] w1] eqn:Eq; [|injection E as -> ->|done].
    + apply sql_Ok in Eq as (db' & [= <- <-] & ->). unfold Credentials.get in E.
      destruct (find_otp uid (w_db w)); [done|]. injection E as <- <-. split_and!; [done|simpl; lia|done].
    + unfold query, sql in Eq. destruct (env_fault _) as [f|]; [|done]. injection Eq as <- <-.
      split_and!; [done|simpl; lia|]. by destruct f.
Qed.

(** The live code allows a second one: it has expired, or it is old enough and
    has attempts left. *)
Definition replaceable (row : CredentialRow) (now : Time) : Prop :=
  ∀ exp, ac_ExpiresAt row = Some exp -> exp <= now ∨
    (ac_Attempts row < maxAttempts s ∧ ac_CreatedAt row <= now - reissueCooldown s).
Definition shields (row : CredentialRow) (now : Time) : Prop :=
  ∃ exp, ac_ExpiresAt row = Some exp ∧ now < exp ∧
    (maxAttempts s <= ac_Attempts row ∨ now - reissueCooldown s < ac_CreatedAt row).

Lemma claimSlot_Ok uid ctx w held w' :
  claimSlot s uid ctx w = (Ok held, w') ->
  (held ≠ slotFree ∧ w_db w' = w_db w ∧
     ∃ row n, find_otp uid (w_db w) = Some row ∧ (w_step w <= n)%nat ∧ shields row (env_now n)) ∨
  (held = slotFree ∧ (w_step w <= w_step w')%nat ∧
     ∀ row, find_otp uid (w_db w) = Some row -> ∃ n, (w_step w <= n)%nat ∧ replaceable row (env_now n)).
Proof.
  unfold claimSlot. intros E. run_step E. apply get_live_run in Hrun as (Hdb & Hn & Hr). destruct a as [c|e].
  - destruct Hr as (row & Hrow & ->). run_step Hrun0. injection Hrun as <- <-.
    set (now := env_now _) in *. cbn [fromDB c_ExpiresAt c_Attempts c_CreatedAt c_ID] in Hrun1. rewrite Hrow.
    assert (∀ b1 b2 : bool, b1 && b2 = false -> b1 = true -> b2 = false) as Hand by by intros [] [].
    unfold After, Time_Add in Hrun1.
    destruct (_ && (maxAttempts s <=? _)) eqn:E1.
    { apply andb_prop in E1 as [E1 E2%Z.leb_le]. injection Hrun1 as <- <-. left. split_and!; [done..|].
      exists row, (w_step w0). split_and!; [done..|]. destruct (ac_ExpiresAt row) as [exp|] eqn:Eexp; [|done].
      exists exp. split_and!; [done|by apply Z.ltb_lt|by left]. }
    destruct (_ && (_ <? ac_CreatedAt row)) eqn:E2.
    { apply andb_prop in E2 as [E2 E3%Z.ltb_lt]. injection Hrun1 as <- <-. left. split_and!; [done..|].
      exists row, (w_step w0). split_and!; [done..|]. destruct (ac_ExpiresAt row) as [exp|] eqn:Eexp; [|done].
      exists exp. split_and!; [done|by apply Z.ltb_lt|right; subst now; lia]. }
    run_all. apply guarded_run in Hrun as [[? [=]]|(t & _ & _ & Hle)]. right. split; [done|].
    split; [simpl in Hle; lia|].
    intros r [= <-]. exists (w_step w0). split; [done|]. intros exp Eexp. rewrite Eexp in E1, E2. fold now.
    destruct (Z.ltb_spec now exp) as [Hlt|]; [right|by left]. simpl in E1, E2.
    apply Z.leb_gt in E1. apply Z.ltb_ge in E2. lia.
  - destruct (errors_Is _ _); [|done]. injection Hrun0 as <- <-. right. by rewrite (Hr eq_refl).
Qed.

Lemma at_step_Ok {A} (f : nat -> A + error) ctx w a w' : at_step f ctx w = (Ok a, w') -> w_db w' = w_db w.
Proof. unfold at_step. by intros [= _ <-]. Qed.

Lemma Create_Ok cred ctx w c w' :
  Credentials.Create cred ctx w = (Ok c, w') ->
  ∃ row, c = fromDB row ∧ existsb (clash row) (auth_credentials (w_db w)) = false ∧
    ac_UserID row = c_UserID cred ∧ ac_Kind row = c_Kind cred ∧ ac_SecretHash row = c_SecretHash cred ∧
    ac_ExpiresAt row = pg_ts <$> c_ExpiresAt cred ∧ ac_ConsumedAt row = None ∧ ac_Attempts row = c_Attempts cred ∧
    ac_SessionNonce row = c_SessionNonce cred ∧
    w_db w' = (w_db w) <| auth_credentials := auth_credentials (w_db w) ++ [row] |>.
Proof.
  intros (db' & E & ->)%wrap_err_Ok%sql_Ok. cbv zeta in E.
  apply require_Ok in E as [_ E]. apply require_Ok in E as [Ec E]. apply require_Ok in E as [_ E].
  injection E as <- <-. eexists. split; [reflexivity|]. split; [by apply negb_true_iff|]. by split_and!.
Qed.

Lemma sealForDelivery_Ok cred target code ctx w p w' :
  sealForDelivery cred target code ctx w = (Ok p, w') ->
  w_db w' = w_db w ∧ oe_CredentialID p = c_ID cred ∧ oe_Target p = target.
Proof.
  unfold sealForDelivery. intros E. run_all.
  repeat match goal with Ha : at_step _ _ _ = _ |- _ => apply at_step_Ok in Ha end.
  destruct (c_ExpiresAt cred); run_all. split_and!; [congruence|done..].
Qed.

(** The one live code of a user whose row was just inserted. *)
Lemma Create_live uid row db :
  existsb (clash row) (auth_credentials db) = false -> ac_UserID row = uid -> active_otp row = true ->
  find_otp uid (db <| auth_credentials := auth_credentials db ++ [row] |>) = Some row ∧
  ∀ x, x ∈ auth_credentials db ++ [row] -> of_user uid x = true -> active_otp x = true -> x = row.
Proof.
  intros Hc <- Ha.
  assert (∀ x, x ∈ auth_credentials db -> of_user (ac_UserID row) x = true -> active_otp x = true -> False) as Hno.
  { intros x Hx Hu Hax. rewrite <- not_true_iff_false, existsb_exists in Hc. apply Hc. exists x.
    split; [by apply list_elem_of_In|]. unfold clash. unfold of_user in Hu. rewrite (N.eqb_sym (ac_UserID row)), Hu, Ha, Hax.
    by rewrite !orb_true_r. }
  split.
  - unfold find_otp. simpl. rewrite find_app_None; simpl.
    + unfold of_user. by rewrite N.eqb_refl, Ha.
    + destruct (List.find _ _) as [x|] eqn:E; [|done]. apply find_some in E as [Hx%list_elem_of_In [??]%andb_prop].
      by destruct (Hno x).
  - intros x [Hx| ->%list_elem_of_singleton]%elem_of_app; [|done]. intros ??. by destruct (Hno x).
Qed.

(** Issuing a code is all or nothing.  While the user's live code has not
    expired and is either out of attempts or younger than the cooldown, nothing
    is written; so a burnt code cannot be traded for fresh guesses.  Otherwise
    the old code is given up only for a reason, and the user is left with exactly
    one live code: the new one, with the given hash and nonce, no attempts spent
    and the configured lifetime, and a mail for it in the queue addressed to the
    user.  A run that fails, wherever it fails, changes nothing. *)
Theorem issue_guarded `{!GoqueSpec} user nonce purpose code codeHash w r w' :
  WithinTx (issue_in_tx s user nonce purpose code codeHash) background w = (r, w') ->
  match r with
  | Ok held =>
      let live := find_otp (u_ID user) (w_db w) in
      if String.eqb held slotFree then
        (∀ row, live = Some row -> ∃ n, (w_step w <= n)%nat ∧ replaceable row (env_now n)) ∧
        ∃ row n task, find_otp (u_ID user) (w_db w') = Some row ∧
          (∀ x, x ∈ auth_credentials (w_db w') -> of_user (u_ID user) x = true -> active_otp x = true -> x = row) ∧
          ac_SecretHash row = codeHash ∧ ac_SessionNonce row = Some nonce ∧ ac_Attempts row = 0 ∧
          (w_step w <= n)%nat ∧ ac_ExpiresAt row = Some (pg_ts (env_now n + ttl s)) ∧
          task ∈ goque_tasks (w_db w') ∧ tk_Type task = ProcessorTaskOTPEmailSend ∧
          ∃ mail, tk_Payload task = PayloadOTPEmail mail ∧ oe_CredentialID mail = ac_ID row ∧
            oe_Target mail = u_Email user ∧ oe_Purpose mail = purpose
      else w_db w' = w_db w ∧ ∃ row n, live = Some row ∧ (w_step w <= n)%nat ∧ shields row (env_now n)
  | _ => w_db w' = w_db w
  end.
Proof.
  intros [(e & -> & Hdb)|(held & w2 & -> & Hdb & _ & Hrun)]%WithinTx_cases; [done|]. rewrite Hdb. clear Hdb w'.
  unfold issue_in_tx in Hrun. run_step Hrun. apply claimSlot_Ok in Hrun0 as [(Hh & Hd & Hs)|(-> & Hle & Hs)].
  - destruct (String.eqb_spec a slotFree); [done|]. simpl in Hrun1. injection Hrun1 as <- <-.
    destruct (String.eqb_spec a slotFree); [done|]. split; [done|]. destruct Hs as (row & k & ? & ? & ?).
    exists row, k. split_and!; [done|simpl in *; lia|done].
  - change (negb (String.eqb slotFree slotFree)) with false in Hrun1. cbv iota in Hrun1. run_all.
    unfold UTCNow in Hrun. injection Hrun as <- <-.
    apply Create_Ok in Hrun1 as (row & -> & Hc & Hu & Hk & Hsh & He & Hcons & Ha & Hn & Hdb).
    apply sealForDelivery_Ok in Hrun0 as (Hdb1 & Hid & Hto). apply ScheduleDelayed_Ok in Hrun2 as (l & Hl & _ & Hdb2).
    assert (active_otp row = true) as Hact by (unfold active_otp, is_otp, unconsumed; by rewrite Hk, Hcons).
    destruct (Create_live _ _ _ Hc Hu Hact) as [Hf Hone]. rewrite Hdb2, Hdb1, Hdb. split.
    + intros row' Hr'. destruct (Hs row' Hr') as (k & ? & ?). exists k. split; [simpl in *; lia|done].
    + cbv zeta in Hl. match type of Hl with goque_add ?t _ = _ => exists row, (w_step w0), t end.
      split_and!; [exact Hf|exact Hone|done|done|done| |exact He| |done|].
      * simpl in *. lia.
      * simpl. by apply (goque_add_ok _ _ _ Hl); left.
      * eexists. split_and!; [done|destruct a1; exact Hid|destruct a1; exact Hto|by destruct a1].
Qed.
End issuing.

Definition ex_user : User := fromDBUser (mkUserRow 11 "ann@example.com" "Ann" [] T0 None None None None).
Definition ex_issue_world : World := ex_otp_world <| w_db := (w_db ex_otp_world) <| auth_credentials := [] |> |>.

Lemma issue_guarded_witness : ∃ w',
  @WithinTx calm_env _ (@issue_in_tx calm_env list_goque ex_sealer (NewService ex_otp_cfg) ex_user "n2" "login" "654321" "hash")
    background ex_issue_world = (Ok slotFree, w') ∧
  ∃ row, find_otp (u_ID ex_user) (w_db w') = Some row ∧ ac_SecretHash row = "hash"%string.
Proof.
  eexists. match goal with |- ?E ∧ _ => assert E as Hrun by (vm_compute; reflexivity) end. split; [exact Hrun|].
  destruct (@issue_guarded calm_env list_goque ex_sealer (NewService ex_otp_cfg) list_goque_spec ex_user "n2" "login"
    "654321" "hash" _ _ _ Hrun) as (_ & row & n & task & Hf & _ & Hh & _). exact (ex_intro _ row (conj Hf Hh)).
Defined.

(** ** Pruning *)

Section pruning.
Context `{Env}.

#[export] Instance sweep_codes : Sweepable CredentialRow UUID := {|
  sw_table := auth_credentials; sw_put l db := db <| auth_credentials := l |>; sw_key := ac_ID; sw_order := expiry_cmp |}.
#[export] Instance sweep_codes_laws : SweepableLaws CredentialRow UUID.
Proof. split; [done|by intros []|done]. Qed.

Context `{Collation} `{Goque} `{Sealer} `{Entropy} (s : Service).

(** The program makes the calls of the loop. *)
Lemma prune_batches_run n cutoff limit ctx w :
  exec (otp_handle s) (prune_batches n cutoff limit) ctx w = batches n (sweep (expired_before cutoff) limit) limit ctx w.
Proof.
  revert w. induction n as [|n IH]; intros w; [done|]. cbn [prune_batches batches]. unfold call, mbind, Prog_bind, M_bind. simpl.
  unfold PruneOTPExpiredBefore, sweep, sql. destruct (env_fault (w_step w)); [done|]. simpl.
  change (oldest_expired cutoff limit (auth_credentials (w_db w)))
    with (sw_key <$> picked (expired_before cutoff) limit (auth_credentials (w_db w))).
  unfold swept. simpl. destruct (_ <? limit); [done|apply IH].
Qed.

(** Whole microseconds and rounding: what is before a rounded cutoff that was
    before now is before now. *)
Lemma expired_before_now exp now d : pg_ts exp = exp -> 0 < d -> exp < pg_ts (now - d) -> exp < now.
Proof.
  intros He Hd Hlt. pose proof (pg_ts_bounds (now - d)) as Hb. unfold Microsecond in Hb.
  assert (∃ q, exp = q * 1000) as [q Hq] by (rewrite <- He; unfold pg_ts; eauto).
  assert (∃ p, pg_ts (now - d) = p * 1000) as [p Hp] by (unfold pg_ts; eauto). lia.
Qed.

(** Pruning ends after at most a hundred batches and one reading of the
    clock.  Whatever retention and batch size it is called with, it removes only
    one-time codes that had already expired when it started, never a live one,
    keeps every other row as it was and in its place, and touches no other table.
    When it reports success, no code older than the retention is left, or it has
    removed a hundred full batches. *)
Theorem Prune_only_expired retention batchLimit w r w' :
  exec (otp_handle s) (Prune retention batchLimit) background w = (r, w') ->
  NoDup (ac_ID <$> auth_credentials (w_db w)) ->
  (∀ x exp, x ∈ auth_credentials (w_db w) -> ac_ExpiresAt x = Some exp -> pg_ts exp = exp) ->
  let now := env_now (w_step w) in
  let keep := if retention <=? 0 then defaultPruneRetention else retention in
  let limit := if batchLimit <=? 0 then defaultPruneBatchLimit else batchLimit in
  let l := auth_credentials (w_db w) in
  let l' := auth_credentials (w_db w') in
  (w_step w' <= w_step w + 101)%nat ∧ sublist l' l ∧ w_db w' = (w_db w) <| auth_credentials := l' |> ∧
  (∀ x, x ∈ l -> x ∉ l' -> is_otp x = true ∧ ∃ exp, ac_ExpiresAt x = Some exp ∧ exp < now) ∧
  (r = Ok tt -> (∀ x, x ∈ l' -> expired_before (now - keep) x = false) ∨
     Z.of_nat (length l') + 100 * limit <= Z.of_nat (length l)).
Proof.
  intros Hrun Hnd Hts. cbv zeta. unfold Prune in Hrun.
  set (keep := if retention <=? 0 then _ else _) in *. set (limit := if batchLimit <=? 0 then _ else _) in *.
  assert (0 < keep) as Hk by (subst keep; destruct (Z.leb_spec retention 0); [done|lia]).
  change (exec (otp_handle s) (prune_batches maxPruneBatches (Time_Add (env_now (w_step w)) (- keep)) limit) background (tick w)
    = (r, w')) in Hrun.
  rewrite prune_batches_run in Hrun. apply batches_sweep in Hrun as (Hs & [Hsub Hgone Hdone] & Hdb); [|apply _|done]. simpl in *.
  split_and!; [unfold maxPruneBatches in Hs; lia|done|done| |done].
  intros x Hx Hn. specialize (Hgone x Hx Hn). unfold expired_before in Hgone. apply andb_prop in Hgone as [Ho He].
  split; [done|]. destruct (ac_ExpiresAt x) as [exp|] eqn:Eexp; [|done]. exists exp. split; [done|].
  apply Z.ltb_lt in He. eapply (expired_before_now _ _ keep); eauto.
Qed.
End pruning.

Definition ex_prune_world : World :=
  ex_otp_world <| w_db := (w_db ex_otp_world) <| auth_credentials := auth_credentials (w_db ex_otp_world) ++
    [mkCredentialRow 2 11 AuthCredentialKindOTP "h" (Some (at_min (-5))) None 5 None T0 T0;
     mkCredentialRow 3 11 AuthCredentialKindPassword "h" None None 0 None T0 T0] |> |>.

Lemma Prune_only_expired_witness : ∃ w',
  exec (@otp_handle calm_env c_collation list_goque ex_sealer ex_entropy (NewService ex_otp_cfg)) (Prune 1 0) background
    ex_prune_world = (Ok tt, w') ∧
  ac_ID <$> auth_credentials (w_db w') = [1%N; 3%N] ∧
  (w_step w' <= w_step ex_prune_world + 101)%nat.
Proof.
  eexists. match goal with |- ?E ∧ _ => assert E as Hrun by (vm_compute; reflexivity) end. split; [exact Hrun|].
  split; [vm_compute; reflexivity|].
  refine (proj1 (@Prune_only_expired calm_env c_collation list_goque ex_sealer ex_entropy _ _ _ _ _ _ Hrun _ _)).
  - decide_now.
  - intros x exp Hx Hexp. assert (Forall (fun r => pg_ts <$> ac_ExpiresAt r = ac_ExpiresAt r)
      (auth_credentials (w_db ex_prune_world))) as Hall by decide_now.
    rewrite Forall_forall in Hall. specialize (Hall x Hx). rewrite Hexp in Hall. by injection Hall.
Defined.
