(* ===== verification/Secrets.v ===== *)
(** * Sealing secrets (internal/pkg/secrets)

    A value is sealed under a data key (DEK), and the data key under a key of
    the instance (KEK): the cipher, the keyring and the local keys, on the
    primitives of the Tink library.  Randomness and serialization are indexed by
    the step of the call. *)
From Stdlib Require Import ZArith Lia Ascii String.
From stdpp Require Import base sorting sets strings numbers list.
From S2P Require Import Prelude Go Entity Conflict AuditTrail Schema Crypto Password Otp.
Open Scope Z_scope.

(** ** Values and errors *)

Definition and_then {A B} (m : A + error) (k : A -> B + error) : B + error :=
  match m with inl a => k a | inr err => inr err end.
Definition or_wrap {A} (f : error -> error) (m : A + error) : A + error :=
  match m with inl a => inl a | inr err => inr (f err) end.

(** ** base64.StdEncoding *)

Definition pad_of (n : nat) : nat := ((3 - n mod 3) mod 3)%nat.
Definition StdEncoding_EncodeToString (l : list ascii) : list ascii := base64_std l ++ repeat "="%char (pad_of (length l)).
Fixpoint strip_pads (s : list ascii) : list ascii * nat :=
  match s with
  | [] => ([], O)
  | c :: s' => match strip_pads s' with
               | ([], n) => if bool_decide (c = "="%char) then ([], S n) else ([c], n)
               | (t, n) => (c :: t, n)
               end
  end.
Definition StdEncoding_DecodeString (s : list ascii) : option (list ascii) :=
  let '(body, pads) := strip_pads (List.filter (fun c => negb (is_newline c)) s) in
  if Nat.eqb ((length body + pads) mod 4) 0 && Nat.leb pads 2 then DecodeString body else None.

(** ** Tink *)

Class Tink := {
  Handle : Type;
  AEAD : Type;
  (** [keyset.NewHandle(aead.AES256GCMKeyTemplate())] *)
  keyset_NewHandle : nat -> Handle + error;
  (** [insecurecleartextkeyset.Write] and [Read] *)
  cleartext_Write : nat -> Handle -> list ascii + error;
  cleartext_Read : list ascii -> Handle + error;
  aead_New : Handle -> AEAD + error;
  aead_Encrypt : AEAD -> nat -> list ascii -> list ascii -> list ascii + error;
  aead_Decrypt : AEAD -> list ascii -> list ascii -> list ascii + error;
  (** [Handle.WriteWithAssociatedData] and [keyset.ReadWithAssociatedData] *)
  keyset_Write : nat -> Handle -> AEAD -> list ascii -> list ascii + error;
  keyset_Read : list ascii -> AEAD -> list ascii -> Handle + error;
  subtle_NewAESGCM : list ascii -> AEAD + error }.
(** What it documents: what was written is read back, under the same key and
    associated data. *)
Class TinkSpec `{Tink} : Prop := {
  cleartext_roundtrip : ∀ n h b, cleartext_Write n h = inl b -> cleartext_Read b = inl h;
  aead_roundtrip : ∀ a n p ad c, aead_Encrypt a n p ad = inl c -> aead_Decrypt a c ad = inl p;
  keyset_roundtrip : ∀ n h a ad b, keyset_Write n h a ad = inl b -> keyset_Read b a ad = inl h }.

Section secrets.
Context `{Tink}.

(** ** dekkeyset.go *)

Definition parseDEKKeyset (dek : list ascii) : Handle + error := or_wrap (Errorf "read dek keyset") (cleartext_Read dek).
Definition serializeDEKKeyset (n : nat) (handle : Handle) : list ascii + error :=
  or_wrap (Errorf "serialize dek keyset") (cleartext_Write n handle).
Definition secrets_GenerateDEK (n : nat) : list ascii + error :=
  or_wrap (Errorf "secrets: generate dek") (and_then (keyset_NewHandle n) (serializeDEKKeyset n)).

(** ** cipher.go *)

Definition dekAEAD (dek : list ascii) : AEAD + error :=
  and_then (parseDEKKeyset dek) (fun handle => or_wrap (Errorf "dek aead") (aead_New handle)).
Definition Encrypt (n : nat) (dek plaintext aad : list ascii) : list ascii + error :=
  or_wrap (Errorf "secrets: encrypt") (and_then (dekAEAD dek) (fun primitive => aead_Encrypt primitive n plaintext aad)).
Definition Decrypt (dek envelope aad : list ascii) : list ascii + error :=
  or_wrap (Errorf "secrets: decrypt") (and_then (dekAEAD dek) (fun primitive => aead_Decrypt primitive envelope aad)).

Definition aadDomainDEKVerify : string := "maintmode/dek-verify/v2".
Definition probeDEKOpens (n : nat) (sealer opener : list ascii) : unit + error :=
  let probe := bytes "dek-equivalence-probe" in
  let aad := encodeAAD aadDomainDEKVerify [] in
  and_then (Encrypt n sealer probe aad) (fun env =>
  and_then (Decrypt opener env aad) (fun got =>
  if bool_decide (got = probe) then inl tt else inr (EOther "secrets: dek probe mismatch"))).
Definition EquivalentDEKs (n : nat) (a b : list ascii) : unit + error :=
  and_then (or_wrap (Errorf "dek equivalence (a->b)") (probeDEKOpens n a b)) (fun _ =>
  or_wrap (Errorf "dek equivalence (b->a)") (probeDEKOpens n b a)).

(** ** keyring.go *)

(** [registry.KMSClient] *)
Record KMSClient := mkKMS { kms_Supported : string -> bool; kms_GetAEAD : string -> AEAD + error }.
Record Keyring := mkKeyring { activeKEKURI : string; kms : KMSClient }.

Definition NewKeyring (uri : string) (client : KMSClient) : Keyring + error :=
  if negb (kms_Supported client uri) then inr (EOther "secrets: active kek not supported by the kms client")
  else and_then (or_wrap (Errorf "secrets: active kek") (kms_GetAEAD client uri)) (fun _ => inl (mkKeyring uri client)).
Definition ActiveKEKID (k : Keyring) : string := activeKEKURI k.
Definition Knows (k : Keyring) (kekURI : string) : bool := kms_Supported (kms k) kekURI.
Definition WrapDEK (k : Keyring) (n : nat) (dek : list ascii) : (list ascii * string) + error :=
  if Nat.eqb (length dek) 0 then inr (EOther "secrets: dek keyset is empty")
  else or_wrap (Errorf "secrets: wrap dek") (
    and_then (parseDEKKeyset dek) (fun handle =>
    and_then (kms_GetAEAD (kms k) (activeKEKURI k)) (fun kekAEAD =>
    and_then (keyset_Write n handle kekAEAD (DEKWrapAAD (activeKEKURI k))) (fun wrapped =>
    inl (wrapped, activeKEKURI k))))).
Definition UnwrapDEK (k : Keyring) (n : nat) (wrapped : list ascii) (kekURI : string) : list ascii + error :=
  if negb (kms_Supported (kms k) kekURI) then inr (EOther "secrets: unknown kek; cannot unwrap dek")
  else or_wrap (Errorf "secrets: unwrap dek") (
    and_then (kms_GetAEAD (kms k) kekURI) (fun kekAEAD =>
    and_then (keyset_Read wrapped kekAEAD (DEKWrapAAD kekURI)) (fun handle =>
    serializeDEKKeyset n handle))).

(** ** localkms.go *)

Definition LocalKEKScheme : string := "local-kms://".
Definition keyLen : nat := 32.
Definition hex_value (c : ascii) : option N :=
  let n := N_of_ascii c in
  if (48 <=? n)%N && (n <=? 57)%N then Some (n - 48)%N
  else if (97 <=? n)%N && (n <=? 102)%N then Some (n - 87)%N
  else if (65 <=? n)%N && (n <=? 70)%N then Some (n - 55)%N
  else None.
(** [hex.DecodeString] *)
Fixpoint hex_decode (s : list ascii) : option (list ascii) :=
  match s with
  | [] => Some []
  | a :: b :: s' => x ← hex_value a; y ← hex_value b; r ← hex_decode s'; Some (ascii_of_N (16 * x + y) :: r)
  | _ => None
  end.
Definition local_key (uri hexKey : string) : AEAD + error :=
  if negb (has_prefix (bytes uri) (bytes LocalKEKScheme)) then inr (EOther "secrets: local kek must use the local-kms:// scheme")
  else match hex_decode (bytes hexKey) with
       | None => inr (EOther "secrets: local kek is not valid hex")
       | Some key =>
           if negb (Nat.eqb (length key) keyLen) then inr (EOther "secrets: local kek must decode to 32 bytes")
           else if bool_decide (key = repeat (ascii_of_N 0) keyLen) then inr (EOther "secrets: local kek is all-zero (placeholder or unset)")
           else or_wrap (Errorf "secrets: local kek") (subtle_NewAESGCM key)
       end.
Fixpoint local_keys (keys : list (string * string)) : list (string * AEAD) + error :=
  match keys with
  | [] => inl []
  | (uri, hexKey) :: keys' => and_then (local_key uri hexKey) (fun a => and_then (local_keys keys') (fun l => inl ((uri, a) :: l)))
  end.
Definition NewLocalKMSClient (keys : list (string * string)) : KMSClient + error :=
  match keys with
  | [] => inr (EOther "secrets: no local keks configured")
  | _ => and_then (local_keys keys) (fun aeads =>
           inl (mkKMS (fun uri => match go_lookup aeads uri with Some _ => true | None => false end)
                      (fun uri => match go_lookup aeads uri with Some a => inl a | None => inr (EOther "secrets: unknown kek") end)))
  end.
Definition NewLocalKeyring (uri : string) (keys : list (string * string)) : Keyring + error :=
  and_then (NewLocalKMSClient keys) (NewKeyring uri).

(** The sealer of one-time codes is this cipher with this keyring. *)
Definition keyring_sealer (k : Keyring) : Sealer := {|
  GenerateDEK := secrets_GenerateDEK; cipher_Encrypt := Encrypt; keyring_WrapDEK := WrapDEK k |}.

(** ** Lemmas *)

Lemma or_wrap_inl {A} f (m : A + error) a : or_wrap f m = inl a -> m = inl a.
Proof. destruct m; naive_solver. Qed.
Lemma and_then_inl {A B} (m : A + error) (k : A -> B + error) b : and_then m k = inl b -> ∃ a, m = inl a ∧ k a = inl b.
Proof. destruct m; naive_solver. Qed.

(** The key material a serialized data key holds. *)
Definition dek_is (dek : list ascii) (a : AEAD) : Prop := dekAEAD dek = inl a.

Context `{!TinkSpec}.

Lemma Encrypt_Decrypt n dek p ad c a : Encrypt n dek p ad = inl c -> dek_is dek a -> aead_Decrypt a c ad = inl p.
Proof.
  intros (a' & Ha & Henc)%or_wrap_inl%and_then_inl Hd. unfold dek_is in Hd. rewrite Ha in Hd. injection Hd as ->. by eapply aead_roundtrip.
Qed.

(** What a wrapped key opens to, by the keys an instance holds. *)
Definition wraps (c : KMSClient) (wrapped : list ascii) (kekURI : string) (h : Handle) : Prop :=
  kms_Supported c kekURI = true ∧ ∃ a, kms_GetAEAD c kekURI = inl a ∧ keyset_Read wrapped a (DEKWrapAAD kekURI) = inl h.

Lemma UnwrapDEK_wraps k n wrapped uri dek :
  UnwrapDEK k n wrapped uri = inl dek -> ∃ h, wraps (kms k) wrapped uri h ∧ cleartext_Read dek = inl h.
Proof.
  unfold UnwrapDEK. destruct (kms_Supported (kms k) uri) eqn:Es; [|done]. simpl.
  intros (a & Ha & (h & Hh & Hd%or_wrap_inl)%and_then_inl)%or_wrap_inl%and_then_inl. exists h. split; [by split; [|exists a]|].
  by eapply cleartext_roundtrip.
Qed.
Lemma WrapDEK_wraps k n dek wrapped uri h :
  kms_Supported (kms k) (activeKEKURI k) = true -> WrapDEK k n dek = inl (wrapped, uri) -> cleartext_Read dek = inl h ->
  wraps (kms k) wrapped uri h.
Proof.
  intros Hs. unfold WrapDEK. destruct (Nat.eqb _ _); [done|].
  intros (h' & Hh'%or_wrap_inl & (a & Ha & (b & Hb & [= -> <-])%and_then_inl)%and_then_inl)%or_wrap_inl%and_then_inl Hr.
  rewrite Hr in Hh'. injection Hh' as ->. split; [done|]. exists a. split; [done|]. by eapply keyset_roundtrip.
Qed.
Lemma GenerateDEK_reads n dek : secrets_GenerateDEK n = inl dek -> ∃ h, cleartext_Read dek = inl h.
Proof. intros (h & _ & Hd%or_wrap_inl)%or_wrap_inl%and_then_inl. exists h. by eapply cleartext_roundtrip. Qed.
Lemma wraps_fun c wrapped uri h h' : wraps c wrapped uri h -> wraps c wrapped uri h' -> h = h'.
Proof. intros (_ & a & Ha & Hr) (_ & a' & Ha' & Hr'). congruence. Qed.
End secrets.

(** ** base64 *)

Lemma strip_pads_app s n : "="%char ∉ s -> strip_pads (s ++ repeat "="%char n) = (s, n).
Proof.
  induction s as [|c s IH]; simpl; intros Hs.
  - induction n as [|n IHn]; simpl; [done|]. by rewrite IHn.
  - rewrite IH by set_solver. destruct s; [|done]. by rewrite bool_decide_eq_false_2 by set_solver.
Qed.

Lemma length_base64_std l : ((length (base64_std l) + pad_of (length l)) mod 4 = 0)%nat.
Proof.
  induction l as [|a|a b|a b c l IH] using by_threes; try reflexivity. unfold pad_of in *. cbn [base64_std length app].
  cbv zeta. simpl length. set (L := length (base64_std l)) in *. set (n := length l) in *. clearbody L n.
  assert (S (S (S n)) mod 3 = n mod 3)%nat as -> by (change (S (S (S n))) with (3 + n)%nat; by rewrite <- Nat.Div0.add_mod_idemp_l). set (p := ((3 - n mod 3) mod 3)%nat) in *. clearbody p.
  replace (S (S (S (S L))) + p)%nat with (4 + (L + p))%nat by lia. by rewrite (Nat.Div0.add_mod 4 (L + p) 4), IH.
Qed.
Lemma base64_no_pad l : "="%char ∉ base64_std l.
Proof.
  pose proof (base64_std_chars l) as Hch. rewrite Forall_forall in Hch. intros (n & Hn & E)%Hch.
  assert (∀ n, n < 64 -> std64 (N.of_nat n) ≠ "="%char)%nat as Htab.
  { intros m Hm. do 64 (destruct m as [|m]; [by vm_compute|]). lia. }
  apply (Htab (N.to_nat n)); [lia|]. by rewrite N2Nat.id.
Qed.
Lemma StdEncoding_roundtrip l : StdEncoding_DecodeString (StdEncoding_EncodeToString l) = Some l.
Proof.
  unfold StdEncoding_DecodeString, StdEncoding_EncodeToString.
  replace (List.filter _ _) with (base64_std l ++ repeat "="%char (pad_of (length l))).
  - rewrite strip_pads_app by apply base64_no_pad. rewrite length_base64_std. simpl.
    assert (pad_of (length l) <=? 2 = true)%nat as ->; [|apply DecodeString_base64].
    apply Nat.leb_le. unfold pad_of. pose proof (Nat.mod_upper_bound (3 - length l mod 3) 3). lia.
  - symmetry. apply forallb_filter_id, forallb_forall. intros c [Hc|Hc]%in_app_or.
    + rewrite <- list_elem_of_In in Hc. pose proof (base64_std_chars l) as Hch. rewrite Forall_forall in Hch.
      destruct (Hch c Hc) as (n & Hn & ->). by destruct (std_table n Hn) as (_ & -> & _).
    + apply repeat_spec in Hc as ->. reflexivity.
Qed.
