(* ===== verification/Sessions.v ===== *)
(** * Tokens and sessions (internal/services/token, internal/services/auth)

    A session is a family of refresh tokens, one of them live at a time; an
    access token carries the session it was minted for.  The requests are
    written as the calls they make ([Prog]); rotating and revoking take the
    user's sessions lock for the length of their transaction, so each is one
    call. *)
From Stdlib Require Import ZArith Lia Ascii String.
From stdpp Require Import base sorting sets strings numbers list.
From S2P Require Import Prelude Go Sha256 Entity Conflict AuditTrail Schema Logic Dbtx Interleave MaintStore Queue.
From S2P Require Import Crypto UserStore Credentials TokenStore Otp.
Open Scope Z_scope.

(** ** entity/token.go *)

Record AccessClaims := mkClaims {
  cl_UserName : string; cl_UserEmail : string; cl_UserRoles : list Role; cl_SessionID : string;
  cl_ID : string; cl_Subject : string; cl_Issuer : string; cl_IssuedAt : Time; cl_ExpiresAt : option Time }.
Record IntrospectReport := mkReport {
  ir_Active : bool; ir_JTI : string; ir_Subject : string; ir_Email : string; ir_Roles : list Role; ir_Exp : Z }.

(** The fields of config.JWT the services read. *)
Record JWTConfig := mkJWTConfig {
  Issuer : string; Kid : string; AccessTokenTTL : Duration; SessionInactiveLifetime : Duration;
  SessionMaxLifetime : Duration; RefreshTokenTTL : Duration; RefreshTokenGracePeriod : Duration;
  RefreshTokenrDistributedLockTTL : Duration }.

(** The libraries for signed tokens and for parsing ids.  What signing and
    parsing answer may depend on the moment: the key device, the clock. *)
Class Jwt := {
  jwt_NewNumericDate : Time -> Time;
  jwt_SignedString : nat -> string -> AccessClaims -> string + error;
  jwt_ParseWithClaims : nat -> string -> string -> (AccessClaims * bool) + error;
  jwt_ErrTokenExpired : error;
  uuid_Parse : string -> UUID + error }.

(** ** services/token *)

Inductive TokenOp : Type -> Type :=
  | TNow : TokenOp Time
  | TNewUUID : TokenOp UUID
  | TGenerate : TokenOp (string * string)
  | TSign (claims : AccessClaims) : TokenOp string
  | TParse (raw : string) : TokenOp (AccessClaims * bool)
  | TByHash (hash : string) : TokenOp RefreshToken
  | THasLive (family : UUID) : TokenOp bool
  | TSave (t : RefreshToken) : TokenOp unit
  (** the transaction of a rotation *)
  | TRotate (old : RefreshToken) (graceUntil : Time) (successor : RefreshToken) : TokenOp unit
  | TRevokeFamily (userID family : UUID) : TokenOp unit
  | TRevokeUser (userID : UUID) : TokenOp (list UUID)
  | TRevokeExcept (userID keep : UUID) : TokenOp (list UUID)
  | TRevokeByToken (userID : UUID) (subject hash : string) : TokenOp UUID
  | TAddSessions (ttl : Duration) (ids : list UUID) : TokenOp unit
  | TPrune (cutoff : Time) (limit : Z) : TokenOp Z.

Definition refreshTokenBytes : nat := 32.
Definition revokedSessionSkew : Duration := Minute.
Definition maxPruneBatches : nat := 100.
Definition defaultPruneBatchLimit : Z := 1000.
Definition defaultPruneRetention : Duration := 24 * Hour.

(** *** The transactions *)
Section transactions.
Context `{Env}.

Definition withUserSessionsLocked {A} (userID : UUID) (fn : M A) : M A :=
  WithinTx (LockUserSessions userID;; fn).

(** refresh.go of services/auth, the body of its transaction *)
Definition rotate_tx (old : RefreshToken) (graceUntil : Time) (successor : RefreshToken) : M unit :=
  WithinTx (
    LockUserSessions (t_UserID old);;
    wrap_err (Errorf "rotate old token") (Rotate (Token old) (Token successor) graceUntil);;
    wrap_err (Errorf "save refresh token") (Save successor)).

Definition revoke_by_token_tx (userID : UUID) (subject hash : string) : M UUID :=
  withUserSessionsLocked userID (
    rt ← wrap_err (Errorf2 "get refresh token" ErrRefreshTokenNotFound) (GetByTokenHashForUpdate hash);
    reject_if (negb (String.eqb (uuid_String (t_UserID rt)) subject))
      (Errorf "mismatch user id in refresh token and access token" ErrInvalidAccessToken);;
    RevokeFamily (Family rt);;
    mret (Family rt)).
End transactions.

Section handler.
Context `{Env} `{Entropy} `{Jwt} (cfg : JWTConfig).

Definition token_handle (X : Type) (op : TokenOp X) : M X :=
  match op with
  | TNow => UTCNow
  | TNewUUID => fun _ w => (Ok (env_uuid (w_step w) 0), tick w)
  | TGenerate => GenerateToken refreshTokenBytes
  | TSign claims => at_step (fun n => jwt_SignedString n (Kid cfg) claims)
  | TParse raw => at_step (fun n => jwt_ParseWithClaims n (Issuer cfg) raw)
  | TByHash hash => GetByTokenHash hash
  | THasLive family => HasLiveToken family
  | TSave t => Save t
  | TRotate old graceUntil successor => rotate_tx old graceUntil successor
  | TRevokeFamily userID family => withUserSessionsLocked userID (RevokeFamily family)
  | TRevokeUser userID => withUserSessionsLocked userID (RevokeByUserID userID)
  | TRevokeExcept userID keep => withUserSessionsLocked userID (RevokeByUserIDExceptFamily userID keep)
  | TRevokeByToken userID subject hash => revoke_by_token_tx userID subject hash
  | TAddSessions ttl ids => AddSessions ttl ids
  | TPrune cutoff limit => PruneExpiredBefore cutoff limit
  end.
End handler.

(** *** The service *)
Section token_service.
Context `{Jwt} (cfg : JWTConfig).

Definition revokedSessionTTL : Duration := AccessTokenTTL cfg + revokedSessionSkew.

(** [cmp.Or] of texts *)
Definition cmp_Or (l : list string) : string := default "" (List.find (fun s => negb (String.eqb s "")) l).

(** issue_access_token.go *)
Definition IssueAccessToken (accessTokenTTL : Duration) (user : User) (sessionID : UUID) : Prog TokenOp string :=
  if IsBlocked user then PErr ErrUserBlocked
  else if N.eqb sessionID uuid_Nil then PErr (EOther "access token requires a session id")
  else
    now ← call TNow;
    jti ← call TNewUUID;
    call (TSign (mkClaims (cmp_Or [u_Name user; u_Email user; "unknown"%string]) (u_Email user) (u_Roles user)
      (uuid_String sessionID) (uuid_String jti) (uuid_String (u_ID user)) (Issuer cfg) (jwt_NewNumericDate now)
      (Some (jwt_NewNumericDate (Time_Add now accessTokenTTL))))).

(** verify_access_token.go *)
Definition VerifyAccessToken (raw : string) : Prog TokenOp AccessClaims :=
  r ← try_call (TParse raw);
  match r with
  | inr err => if errors_Is err jwt_ErrTokenExpired then PErr (EJoin2 ErrTokenExpired err)
               else PErr (EJoin2 ErrInvalidAccessToken err)
  | inl (claims, valid) => if negb valid then PErr ErrInvalidAccessToken else mret claims
  end.

Definition GetRefreshToken (raw : string) : Prog TokenOp RefreshToken := call (TByHash (HashSha256 (bytes raw))).
Definition SaveRefreshToken (t : RefreshToken) : Prog TokenOp unit := call_wrap (Errorf "save refresh token") (TSave t).

(** revoke_sessions.go: a failure is logged and dropped. *)
Definition revokeSessionAccessTokens (sessionIDs : list UUID) : Prog TokenOp unit :=
  if Nat.eqb (length sessionIDs) 0 then mret tt
  else
    _ ← try_call (TAddSessions revokedSessionTTL sessionIDs);
    mret tt.

(** revoke_refresh_token.go *)
Definition RevokeRefreshTokenByFamily (userID family : UUID) : Prog TokenOp unit :=
  call (TRevokeFamily userID family);;
  revokeSessionAccessTokens [family].
Definition RevokeRefreshTokenByUserID (userID : UUID) : Prog TokenOp unit :=
  families ← call (TRevokeUser userID);
  revokeSessionAccessTokens families.
Definition RevokeRefreshTokenByUserIDExceptFamily (userID keep : UUID) : Prog TokenOp unit :=
  families ← call (TRevokeExcept userID keep);
  revokeSessionAccessTokens families.

Definition FamilyByRefreshToken (raw : string) (userID : UUID) : Prog TokenOp UUID :=
  rt ← call (TByHash (HashSha256 (bytes raw)));
  if negb (N.eqb (t_UserID rt) userID) then PErr ErrInvalidRefreshToken
  else if Revoked rt then PErr ErrInvalidRefreshToken
  else mret (Family rt).

Definition RevokeFamilyByRefreshToken (raw : string) (claims : AccessClaims) : Prog TokenOp UUID :=
  match uuid_Parse (cl_Subject claims) with
  | inr err => PErr (Errorf2 "parse user id from claims.Subject" ErrInvalidAccessToken err)
  | inl userID =>
      family ← call (TRevokeByToken userID (cl_Subject claims) (HashSha256 (bytes raw)));
      revokeSessionAccessTokens [family];;
      mret family
  end.

(** prune_refresh_tokens.go *)
Fixpoint prune_tokens (n : nat) (cutoff : Time) (batchLimit : Z) : Prog TokenOp unit :=
  match n with
  | O => mret tt
  | S n' =>
      deleted ← call (TPrune cutoff batchLimit);
      if deleted <? batchLimit then mret tt else prune_tokens n' cutoff batchLimit
  end.
Definition PruneRefreshTokens (retention : Duration) (batchLimit : Z) : Prog TokenOp unit :=
  let batchLimit := if batchLimit <=? 0 then defaultPruneBatchLimit else batchLimit in
  let retention := if retention <=? 0 then defaultPruneRetention else retention in
  now ← call TNow;
  prune_tokens maxPruneBatches (Time_Add now (- retention)) batchLimit.
End token_service.
