(* ===== verification/DanceStore.v ===== *)
(** * What an OAuth dance leaves on the server (internal/storages/oauthdance)

    Four kinds of entries in the key-value server, each behind the hash of a
    secret the browser carries: the token pair behind a one-time code, the
    invitation behind a handle, the account behind a link ticket, and a link the
    provider vouched for behind a link code.  All but the ticket at /start are
    read with GETDEL, so each is redeemed at most once. *)
From Stdlib Require Import ZArith Lia Ascii String.
From stdpp Require Import base sorting sets strings numbers list.
From S2P Require Import Prelude Go Sha256 Entity Conflict AuditTrail Schema Logic Dbtx Interleave TokenStore Sessions.
Open Scope Z_scope.

(** ** store.go *)

Definition codePrefix : string := "oauth:code:".
Definition invitationPrefix : string := "oauth:invitation:".
Definition linkPrefix : string := "oauth:link:".
Definition linkCodePrefix : string := "oauth:linkcode:".
Definition codeTTL : Duration := 60 * Second.

Definition codeKey (code : string) : string := codePrefix +:+ HashSha256 (bytes code).
Definition invitationKey (handle : string) : string := invitationPrefix +:+ HashSha256 (bytes handle).
Definition linkKey (ticket : string) : string := linkPrefix +:+ HashSha256 (bytes ticket).
Definition linkCodeKey (code : string) : string := linkCodePrefix +:+ HashSha256 (bytes code).

Section store.
Context `{Env} `{Jwt} (handleTTL : Duration).

(** SET with a time to live, which the configuration makes positive; GETDEL; GET. *)
Definition kv_set (key : string) (v : KVValue) (ttl : Duration) : M unit :=
  kv (fun now l => (tt, kv_put key v (now + ttl) l)).
Definition kv_getdel (key : string) : M (option KVValue) := kv (fun now l => (kv_get now key l, kv_del key l)).
Definition kv_read (key : string) : M (option KVValue) := kv (fun now l => (kv_get now key l, l)).

(** [json.Unmarshal].  The prefixes keep the kinds apart, so an entry is always read as what it was written as. *)
Definition wrong_json : error := EOther "json: cannot unmarshal".
Definition unmarshal {A} (read : KVValue -> option A) (what : string) (raw : option KVValue) : M (option A) :=
  match raw with
  | None => mret None
  | Some v => match read v with
              | Some a => mret (Some a)
              | None => raise (Errorf what wrong_json)
              end
  end.

(** put_code.go, consume_code.go *)
Definition PutCode (code : string) (entry : DanceCode) : M unit :=
  wrap_err (Errorf "put dance code") (kv_set (codeKey code) (KVDanceCode entry) codeTTL).
Definition ConsumeCode (code : string) : M (option DanceCode) :=
  raw ← wrap_err (Errorf "consume dance code") (kv_getdel (codeKey code));
  unmarshal (fun v => match v with KVDanceCode c => Some c | _ => None end) "unmarshal dance code" raw.

(** put_invitation_handle.go, consume_invitation_handle.go *)
Definition PutInvitationHandle (handle : string) (invitationID : UUID) : M unit :=
  wrap_err (Errorf "put invitation handle") (kv_set (invitationKey handle) (KVText (uuid_String invitationID)) handleTTL).
Definition ConsumeInvitationHandle (handle : string) : M (option UUID) :=
  raw ← wrap_err (Errorf "consume invitation handle") (kv_getdel (invitationKey handle));
  match raw with
  | None => mret None
  | Some (KVText raw) =>
      match uuid_Parse raw with
      | inl id => mret (Some id)
      | inr err => raise (Errorf "parse invitation id from handle" err)
      end
  | Some _ => raise (Errorf "parse invitation id from handle" (EOther "invalid UUID format"))
  end.

(** put_link_ticket.go, peek_link_ticket.go, consume_link_ticket.go *)
Definition decodeLinkIntent (raw : option KVValue) : M (option LinkIntent) :=
  unmarshal (fun v => match v with KVLinkIntent i => Some i | _ => None end) "parse link intent" raw.
Definition PutLinkTicket (ticket : string) (intent : LinkIntent) : M unit :=
  wrap_err (Errorf "store link ticket") (kv_set (linkKey ticket) (KVLinkIntent intent) handleTTL).
Definition PeekLinkTicket (ticket : string) : M (option LinkIntent) :=
  raw ← wrap_err (Errorf "peek link ticket") (kv_read (linkKey ticket));
  decodeLinkIntent raw.
Definition ConsumeLinkTicket (ticket : string) : M (option LinkIntent) :=
  raw ← wrap_err (Errorf "consume link ticket") (kv_getdel (linkKey ticket));
  decodeLinkIntent raw.

(** put_link_code.go, consume_link_code.go *)
Definition PutLinkCode (code : string) (link : PendingLink) : M unit :=
  wrap_err (Errorf "put link code") (kv_set (linkCodeKey code) (KVPendingLink link) codeTTL).
Definition ConsumeLinkCode (code : string) : M (option PendingLink) :=
  raw ← wrap_err (Errorf "consume link code") (kv_getdel (linkCodeKey code));
  unmarshal (fun v => match v with KVPendingLink l => Some l | _ => None end) "parse pending link" raw.
End store.
