(* ===== verification/DanceSigner.v ===== *)
(** * The signed state and the browser binding of an OAuth dance
      (internal/services/auth/dance_state_signer.go, dance_binding.go)

    /start hands the browser a signature over the provider, the state and a
    deadline; the callback verifies it from what the provider returned, so that
    the server keeps nothing.  The binding is the hash of a nonce only the
    browser that started the dance holds. *)
From Stdlib Require Import ZArith Lia Ascii String DecimalString DecimalZ.
From stdpp Require Import base sorting sets strings numbers list.
From S2P Require Import Prelude Go Sha256 Entity Schema Crypto Password.
Open Scope Z_scope.

(** ** crypto/hmac with SHA-256, base64.RawURLEncoding *)

Definition xor_byte (x : N) (c : ascii) : ascii := ascii_of_N (N.lxor x (N_of_ascii c)).
Definition hmac_block (key : list ascii) : list ascii :=
  let k := if Nat.ltb 64 (length key) then Sum256 key else key in
  k ++ repeat (byte 0) (64 - length k).
Definition hmac_sha256 (key msg : list ascii) : list ascii :=
  let k := hmac_block key in
  Sum256 ((xor_byte 92 <$> k) ++ Sum256 ((xor_byte 54 <$> k) ++ msg)).

(** The URL alphabet has [-] and [_] where the standard one has [+] and [/]. *)
Definition to_url (c : ascii) : ascii := if Ascii.eqb c "+" then "-"%char else if Ascii.eqb c "/" then "_"%char else c.
Definition from_url (c : ascii) : ascii := if Ascii.eqb c "-" then "+"%char else if Ascii.eqb c "_" then "/"%char else c.
Definition RawURLEncoding_EncodeToString (l : list ascii) : list ascii := to_url <$> base64_std l.
Definition RawURLEncoding_DecodeString (s : list ascii) : option (list ascii) :=
  if existsb (fun c => Ascii.eqb c "+" || Ascii.eqb c "/") s then None else DecodeString (from_url <$> s).

(** RFC 4231, test case 2. *)
Example hmac_ex : hex_encode (hmac_sha256 (bytes "Jefe") (bytes "what do ya want for nothing?"))
  = bytes "5bdcc146bf60754e6a042426089575c75a003f089d2739839dec58b964ec3843".
Proof. vm_compute. done. Qed.

(** ** strings.Cut at one character, strconv.ParseInt(s, 10, 64), time.Unix *)

Fixpoint cut (sep : ascii) (s : list ascii) : option (list ascii * list ascii) :=
  match s with
  | [] => None
  | c :: s' => if Ascii.eqb c sep then Some ([], s')
               else (fun p : list ascii * list ascii => (c :: p.1, p.2)) <$> cut sep s'
  end.
Definition ParseInt (s : list ascii) : option Z :=
  let parsed := match s with
                | "+"%char :: s' => Decimal.Pos <$> NilZero.uint_of_string (string_of_list_ascii s')
                | _ => NilZero.int_of_string (string_of_list_ascii s)
                end in
  match parsed with
  | Some d => if (- 2 ^ 63 <=? Z.of_int d) && (Z.of_int d <? 2 ^ 63) then Some (Z.of_int d) else None
  | None => None
  end.
(** Seconds are counted from the year 1 in 64 bits. *)
Definition time_Unix (sec : Z) : Time := (wrap64 (sec + 62135596800) - 62135596800) * Second.

(** ** dance_state_signer.go *)

Definition stateSignatureLabel : string := "oauth-state-v1".
Definition stateSignatureSeparator : ascii := "."%char.
Definition newDanceStateSigner (jwtPrivateKey : string) : list ascii :=
  hmac_sha256 (bytes jwtPrivateKey) (bytes stateSignatureLabel).

Definition mac_field (field : list ascii) : list ascii :=
  decimal (Z.of_nat (length field)) ++ [stateSignatureSeparator] ++ field.
Definition mac_input (provider state : string) (unix : list ascii) : list ascii :=
  [bytes provider; bytes state; unix] ≫= mac_field.
Definition signature (key : list ascii) (provider state : string) (unix : list ascii) : list ascii :=
  RawURLEncoding_EncodeToString (hmac_sha256 key (mac_input provider state unix)).
Definition Sign (key : list ascii) (provider state : string) (exp : Time) : string :=
  let unix := decimal (Unix exp) in
  string_of_list_ascii (unix ++ [stateSignatureSeparator] ++ signature key provider state unix).
Definition Verify (key : list ascii) (cookieValue provider state : string) (now : Time) : bool :=
  match cut stateSignatureSeparator (bytes cookieValue) with
  | None => false
  | Some (unix, sig) =>
      match ParseInt unix with
      | None => false
      | Some exp =>
          if negb (Before now (time_Unix exp)) then false
          else bool_decide (sig = signature key provider state unix)
      end
  end.

(** ** dance_binding.go *)

Definition validDanceBinding (binding : string) : bool :=
  match RawURLEncoding_DecodeString (bytes binding) with
  | Some raw => Nat.eqb (length raw) 32
  | None => false
  end.
Definition bindingOf (nonce : string) : string :=
  string_of_list_ascii (RawURLEncoding_EncodeToString (Sum256 (bytes nonce))).
Definition danceBindingProven (binding proof : string) : bool :=
  if String.eqb binding "" || String.eqb proof "" then false else String.eqb (bindingOf proof) binding.

(** ** Facts *)

Lemma base64_std_inj l m : base64_std l = base64_std m -> l = m.
Proof. intros E. apply (f_equal DecodeString) in E. rewrite !DecodeString_base64 in E. by injection E. Qed.

Lemma std64_not_url n : (n < 64)%N -> std64 n ≠ "-"%char ∧ std64 n ≠ "_"%char ∧ from_url (to_url (std64 n)) = std64 n.
Proof.
  intros Hn. unfold std64. assert (Forall (fun c => c ≠ "-"%char ∧ c ≠ "_"%char ∧ from_url (to_url c) = c) std_alphabet) as Hall by decide_now.
  rewrite Forall_forall in Hall. apply Hall, list_elem_of_In, nth_In. change (length std_alphabet) with 64%nat. lia.
Qed.

Lemma from_to_url l : from_url <$> (to_url <$> base64_std l) = base64_std l.
Proof.
  rewrite <- list_fmap_compose. pose proof (base64_std_chars l) as Hch. rewrite <- (list_fmap_id (base64_std l)) at 2.
  apply list_fmap_ext. intros i c Hc. apply list_elem_of_lookup_2 in Hc. rewrite Forall_forall in Hch.
  destruct (Hch c Hc) as (n & Hn & ->). simpl. by apply std64_not_url.
Qed.

Lemma RawURL_inj l m : RawURLEncoding_EncodeToString l = RawURLEncoding_EncodeToString m -> l = m.
Proof.
  unfold RawURLEncoding_EncodeToString. intros E. apply base64_std_inj.
  by rewrite <- (from_to_url l), <- (from_to_url m), E.
Qed.

Lemma RawURL_roundtrip l : RawURLEncoding_DecodeString (RawURLEncoding_EncodeToString l) = Some l.
Proof.
  unfold RawURLEncoding_DecodeString, RawURLEncoding_EncodeToString. rewrite from_to_url.
  destruct (existsb _ _) eqn:E; [|by apply DecodeString_base64].
  apply existsb_exists in E as (c & (d & -> & _)%list_elem_of_In%list_elem_of_fmap & Hd). unfold to_url in Hd.
  destruct (Ascii.eqb d "+") eqn:E1, (Ascii.eqb d "/") eqn:E2; simpl in Hd; try done. by rewrite E1, E2 in Hd.
Qed.

Lemma cut_app sep a b : sep ∉ a -> cut sep (a ++ sep :: b) = Some (a, b).
Proof.
  induction a as [|c a IH]; simpl; [by rewrite Ascii.eqb_refl|]. intros [Hc Ha]%not_elem_of_cons.
  destruct (Ascii.eqb_spec c sep) as [->|_]; [done|]. by rewrite IH.
Qed.

Lemma cut_Some sep s a b : cut sep s = Some (a, b) -> s = a ++ sep :: b.
Proof.
  revert a b. induction s as [|c s IH]; intros a b; simpl; [done|].
  destruct (Ascii.eqb_spec c sep) as [->|_]; [by intros [= <- <-]|].
  destruct (cut sep s) as [[a' b']|]; simpl; [|done]. intros [= <- <-]. by rewrite (IH a' b').
Qed.

Lemma decimal_no_dot n : "."%char ∉ decimal n.
Proof. intros [?|[? ?]]%decimal_chars; [done|]. simpl in *. lia. Qed.

(** A length, a separator and as many bytes: fields can be read back. *)
Lemma mac_field_inj a a' r r' : mac_field a ++ r = mac_field a' ++ r' -> a = a' ∧ r = r'.
Proof.
  unfold mac_field. rewrite <- !app_assoc. simpl. intros E. apply (f_equal (cut ".")) in E.
  rewrite !cut_app in E by apply decimal_no_dot. injection E as Hl%decimal_inj E.
  apply app_inj_1 in E; [done|lia].
Qed.

Lemma mac_input_inj p s u p' s' u' : mac_input p s u = mac_input p' s' u' -> p = p' ∧ s = s' ∧ u = u'.
Proof.
  unfold mac_input. rewrite !bind_cons. intros E. apply mac_field_inj in E as [Hp%bytes_inj E].
  apply mac_field_inj in E as [Hs%bytes_inj E]. by apply mac_field_inj in E as [Hu _].
Qed.

Lemma ParseInt_decimal n : in_int64 n -> ParseInt (decimal n) = Some n.
Proof.
  intros [Hlo Hhi]. unfold ParseInt.
  assert (head (decimal n) ≠ Some "+"%char) as Hplus.
  { intros Hh. destruct (decimal n) as [|c l] eqn:E; [done|]. injection Hh as ->.
    destruct (decimal_chars n "+"%char) as [?|[? ?]]; [rewrite E; set_solver|done|simpl in *; lia]. }
  assert (NilZero.int_of_string (string_of_list_ascii (decimal n)) = Some (Z.to_int n)) as Hn.
  { apply decimal_parses. }
  replace (match decimal n with "+"%char :: s' => _ | _ => _ end) with (Some (Z.to_int n)).
  - rewrite DecimalZ.of_to. destruct (Z.leb_spec (- 2 ^ 63) n), (Z.ltb_spec n (2 ^ 63)); simpl; done || lia.
  - rewrite <- Hn. destruct (decimal n) as [|c l]; [done|]. destruct c as [[] [] [] [] [] [] [] []]; try done.
Qed.

(** Two messages with one authentication code under a key. *)
Definition mac_collision (key m1 m2 : list ascii) : Prop := m1 ≠ m2 ∧ hmac_sha256 key m1 = hmac_sha256 key m2.

Lemma signature_inj key p s u p' s' u' :
  signature key p s u = signature key p' s' u' ->
  (p = p' ∧ s = s' ∧ u = u') ∨ mac_collision key (mac_input p s u) (mac_input p' s' u').
Proof.
  intros E%RawURL_inj. destruct (decide (mac_input p s u = mac_input p' s' u')) as [Ei|Ne]; [left; by apply mac_input_inj|by right].
Qed.

Lemma Verify_true key cookie p s now :
  Verify key cookie p s now = true ->
  ∃ unix exp, bytes cookie = unix ++ "."%char :: signature key p s unix ∧ cut "." (bytes cookie) = Some (unix, signature key p s unix) ∧
    ParseInt unix = Some exp ∧ now < time_Unix exp.
Proof.
  unfold Verify. destruct (cut _ _) as [[unix sig]|] eqn:Ec; [|done]. destruct (ParseInt unix) as [exp|] eqn:Ep; [|done].
  destruct (Before now (time_Unix exp)) eqn:Eb; [|done]. intros ->%bool_decide_eq_true.
  exists unix, exp. split; [by apply cut_Some|]. split; [done|]. split; [done|]. by apply Z.ltb_lt.
Qed.

Lemma Verify_Sign key p s exp p' s' now :
  in_int64 (Unix exp) -> in_int64 (Unix exp + 62135596800) ->
  Verify key (Sign key p s exp) p' s' now =
    (now <? Unix exp * Second) && bool_decide (signature key p s (decimal (Unix exp)) = signature key p' s' (decimal (Unix exp))).
Proof.
  intros Hi Hu. unfold Verify, Sign, bytes. rewrite list_ascii_of_string_of_list_ascii.
  change (?a ++ [stateSignatureSeparator] ++ ?b) with (a ++ "."%char :: b).
  unfold stateSignatureSeparator. rewrite cut_app by apply decimal_no_dot. rewrite ParseInt_decimal by done.
  unfold time_Unix. rewrite wrap64_id by done. unfold Before.
  replace (Unix exp + 62135596800 - 62135596800) with (Unix exp) by lia. by destruct (now <? _).
Qed.

(** What follows the separator in what [Sign] hands out. *)
Lemma cut_Sign key p s exp :
  snd <$> cut "." (bytes (Sign key p s exp)) = Some (signature key p s (decimal (Unix exp))).
Proof.
  unfold Sign, bytes. rewrite list_ascii_of_string_of_list_ascii.
  change (?a ++ [stateSignatureSeparator] ++ ?b) with (a ++ "."%char :: b). rewrite cut_app by apply decimal_no_dot. done.
Qed.

(** C18. A signed state is good for one provider, one state and one deadline.
    What [Sign] hands out verifies for its own provider and state at every
    moment before the deadline, in whole seconds, and at none after it.  An
    accepted cookie names, before its separator, a deadline that has not
    passed.  A cookie that carries the code [Sign] gave out is accepted only for
    the provider and the state it was given out for, with the deadline it was
    given out with, written the same way, and before that deadline: neither the
    names nor the deadline can be changed under a code.  And one cookie never
    verifies for two different pairs of provider and state.  The last two hold
    however the values are chosen, unless the client has found two different
    messages, the ones the code authenticates here, with the same
    authentication code. *)
Theorem state_signature_binds key p s exp :
  in_int64 (Unix exp) -> in_int64 (Unix exp + 62135596800) ->
  (∀ now, Verify key (Sign key p s exp) p s now = (now <? Unix exp * Second)) ∧
  (∀ cookie p' s' now, Verify key cookie p' s' now = true ->
    ∃ unix tag sec, cut "." (bytes cookie) = Some (unix, tag) ∧ ParseInt unix = Some sec ∧ now < time_Unix sec ∧
      (snd <$> cut "." (bytes (Sign key p s exp)) = Some tag ->
       (p' = p ∧ s' = s ∧ cookie = Sign key p s exp ∧ now < Unix exp * Second) ∨
       mac_collision key (mac_input p s (decimal (Unix exp))) (mac_input p' s' unix))) ∧
  ∀ cookie p1 s1 now1 p2 s2 now2,
    Verify key cookie p1 s1 now1 = true -> Verify key cookie p2 s2 now2 = true ->
    (p1 = p2 ∧ s1 = s2) ∨
    ∃ unix tag, cut "." (bytes cookie) = Some (unix, tag) ∧ mac_collision key (mac_input p1 s1 unix) (mac_input p2 s2 unix).
Proof.
  intros Hi Hu. assert (∀ now, Verify key (Sign key p s exp) p s now = (now <? Unix exp * Second)) as Hown.
  { intros now. rewrite Verify_Sign, bool_decide_eq_true_2, andb_true_r by done. done. }
  split; [done|]. split.
  - intros cookie p' s' now Hv. pose proof Hv as (unix & sec & Hc & Hcut & Hp & Hn)%Verify_true.
    exists unix, (signature key p' s' unix), sec. do 3 (split; [done|]). rewrite cut_Sign. intros Ht%(inj Some).
    apply signature_inj in Ht as [(<- & <- & Eu)|Hm]; [left|by right]. rewrite <- Eu in Hc.
    assert (cookie = Sign key p s exp) as ->.
    { unfold Sign. rewrite <- (string_of_list_ascii_of_string cookie). by f_equal. }
    split_and!; [done..|]. apply Z.ltb_lt. by rewrite <- Hown.
  - intros cookie p1 s1 now1 p2 s2 now2 (u1 & e1 & _ & H1 & _)%Verify_true (u2 & e2 & _ & H2 & _)%Verify_true.
    pose proof H1 as Hu1. rewrite H1 in H2. apply (inj Some), pair_equal_spec in H2 as [-> Es].
    apply signature_inj in Es as [(-> & -> & _)|Hc]; [by left|right; by eexists _, _].
Qed.

(** A name with a dot in it does not verify for the name cut at the dot, and
    the deadline written in the cookie cannot be put off. *)
Lemma state_signature_binds_witness :
  let key := newDanceStateSigner "0123456789abcdef" in
  let cookie := Sign key "corp.sso" "state" (1700000600 * Second) in
  Verify key cookie "corp.sso" "state" (1700000599 * Second) = true ∧
  Verify key cookie "corp.sso" "state" (1700000600 * Second) = false ∧
  Verify key cookie "corp" "sso5.state" (1700000599 * Second) = false ∧
  let later := string_of_list_ascii (bytes "1900000600" ++ drop 10 (bytes cookie)) in
  snd <$> cut "." (bytes later) = snd <$> cut "." (bytes cookie) ∧
  Verify key later "corp.sso" "state" (1700000600 * Second) = false.
Proof.
  destruct (state_signature_binds (newDanceStateSigner "0123456789abcdef") "corp.sso" "state" (1700000600 * Second)) as [Hv _];
    [by vm_compute..|]. cbv zeta. rewrite !Hv. split; [reflexivity|]. split; [reflexivity|]. split; [vm_compute; reflexivity|].
  split; vm_compute; reflexivity.
Defined.
