(* ===== verification/AuthMethods.v ===== *)
(** * Sign-in methods (internal/services/authmethod)

    Which methods an instance offers is a snapshot, replaced as a whole whenever
    the registry of login providers changes.  A method says whom a credential
    belongs to; a gateway is the half of a provider that holds its secret.  The
    networks behind them are a parameter. *)
From Stdlib Require Import ZArith Lia Ascii String.
From stdpp Require Import base sorting sets strings numbers list.
From S2P Require Import Prelude Go Sha256 Entity Conflict AuditTrail Schema Logic Interleave Json Validation Kinds Sessions.
Open Scope Z_scope.

(** ** entity/login_provider.go *)

Record ConfiguredProvider := mkConfigured {
  cp_Name : string; cp_Enabled : bool; cp_Settings : Settings; cp_Unreadable : bool }.
Definition LoginProviderHealth := string.
Definition LoginProviderHealthOK : LoginProviderHealth := "ok".
Definition LoginProviderHealthUnresolved : LoginProviderHealth := "unresolved".
Definition LoginProviderHealthDisabled : LoginProviderHealth := "disabled".
Definition LoginProviderHealthUnreadable : LoginProviderHealth := "unreadable".
Record LoginMethodView := mkLoginMethod { lm_ID : AuthMethod; lm_DisplayName : string }.

(** ** Methods and gateways *)

Inductive Gateway := OIDCGateway (s : OIDCSettings) | OAuth2Gateway (s : OAuth2Settings).
(** bootstrapauth, stuboauth, oidc and oauth2 *)
Inductive Method :=
  | BootstrapMethod (password email : string)
  | StubMethod
  | OIDCMethod (name : AuthMethod) (s : OIDCSettings)
  | OAuth2Method (name : AuthMethod) (s : OAuth2Settings).
Definition MethodID (m : Method) : AuthMethod :=
  match m with
  | BootstrapMethod _ _ => AuthMethodBootstrap
  | StubMethod => AuthMethodStub
  | OIDCMethod name _ | OAuth2Method name _ => name
  end.

(** oidc/verify.go: the payload of a verified token; [email_verified] as the
    issuer wrote it. *)
Record idTokenClaims := mkIDToken {
  it_Email : string; it_EmailVerified : option json; it_Name : string; it_HostedDomain : string }.
Record OAuth2Identity := mkOAuth2Identity { o2_Subject : string; o2_Email : string; o2_Name : string }.

(** The identity providers, asked over the network at some moment: the URL to
    send a browser to, the exchange of a code, the verifier of an id token (whose
    answer is the subject and the claims, if they decode) and the identity behind
    an access token.  [net/mail.ParseAddress] serves the stub. *)
Class IdentityProviders := {
  idp_AuthCodeURL : nat -> Gateway -> string -> string -> string + error;
  idp_Exchange : nat -> Gateway -> string -> string -> string + error;
  idp_verifier : nat -> OIDCSettings -> option error;
  idp_verify : nat -> OIDCSettings -> string -> (string * (idTokenClaims + error)) + error;
  idp_expired : error -> bool;
  idp_FetchIdentity : nat -> OAuth2Settings -> string -> OAuth2Identity + error;
  mail_ParseAddress : string -> option string }.

(** [strconv.ParseBool] *)
Definition ParseBool (s : string) : option bool :=
  if bool_decide (s ∈ ["1"; "t"; "T"; "true"; "TRUE"; "True"]%string) then Some true
  else if bool_decide (s ∈ ["0"; "f"; "F"; "false"; "FALSE"; "False"]%string) then Some false
  else None.
(** emailVerified.UnmarshalJSON; a claim that is absent is not asserted. *)
Definition emailVerified (raw : option json) : bool + error :=
  match raw with
  | None | Some JNull => inl false
  | Some (JBool b) => inl b
  | Some (JString s) => match ParseBool s with
                        | Some b => inl b
                        | None => inr (EOther "email_verified string is not a boolean")
                        end
  | Some _ => inr (EOther "email_verified is neither a boolean nor a string")
  end.

Section authenticate.
Context `{Env} `{IdentityProviders} `{Ozzo}.

(** Ask an oracle about the present moment. *)
Definition idp {A} (f : nat -> A) : M A := fun _ w => (Ok (f (w_step w)), tick w).

(** bootstrapauth/authenticate.go *)
Definition bootstrap_Authenticate (password email credential : string) : M OAuthIDTokenClaims :=
  if String.eqb password "" || negb (String.eqb credential password) then raise ErrInvalidCredentials
  else mret (mkOAuthClaims "" email BreakGlassName true).

(** stuboauth/verify.go; [addr.Address[:LastIndex]] *)
Fixpoint before_last_at (s : list ascii) : list ascii :=
  match s with
  | [] => []
  | c :: s' => if bool_decide ("@"%char ∈ s') then c :: before_last_at s' else if Ascii.eqb c "@" then [] else before_last_at s'
  end.
Definition xuuid_NewString : M string := fun _ w => (Ok (uuid_String (env_uuid (w_step w) 0)), tick w).
Definition stub_Authenticate (token : string) : M OAuthIDTokenClaims :=
  if String.eqb token "this-is-not-a-valid-jwt" then raise ErrInvalidAccessToken
  else
    match mail_ParseAddress token with
    | Some address =>
        mret (mkOAuthClaims (HashSha256 (bytes (strings_ToLower address))) address
                ("User Name[" +:+ string_of_list_ascii (before_last_at (bytes address)) +:+ "]") true)
    | None =>
        id ← xuuid_NewString;
        subject ← xuuid_NewString;
        mret (mkOAuthClaims subject (id +:+ "@mail.com") ("User Name[" +:+ id +:+ "]") true)
    end.

(** oidc/verify.go *)
Definition validateClaims (claims : idTokenClaims) (domains : list string) : bool :=
  Required_string (it_Email claims) &&
  (if Nat.ltb 0 (length domains) then Required_string (it_HostedDomain claims) else true) &&
  In_string domains (it_HostedDomain claims).
Definition refusedToken (err : error) : error := EJoin2 ErrInvalidAccessToken err.
Definition oidc_Authenticate (s : OIDCSettings) (idToken : string) : M OAuthIDTokenClaims :=
  resolved ← idp (fun n => idp_verifier n s);
  match resolved with
  | Some err => raise (EJoin2 ErrAuthUnavailable err)
  | None =>
      r ← idp (fun n => idp_verify n s idToken);
      match r with
      | inr err => if idp_expired err then raise (EJoin2 ErrTokenExpired err) else raise (refusedToken err)
      | inl (_, inr err) => raise (refusedToken err)
      | inl (subject, inl claims) =>
          match emailVerified (it_EmailVerified claims) with
          | inr err => raise (refusedToken err)
          | inl verified =>
              reject_if (negb (validateClaims claims (oi_AllowedHostedDomains s))) (refusedToken (EOther "validation"));;
              reject_if (negb verified) ErrEmailNotVerified;;
              mret (mkOAuthClaims subject (it_Email claims) (it_Name claims) verified)
          end
      end
  end.

(** oauth2/provider.go *)
Definition oauth2_Authenticate (s : OAuth2Settings) (credential : string) : M OAuthIDTokenClaims :=
  reject_if (String.eqb credential "") (Errorf "empty oauth2 credential" ErrInvalidCredentials);;
  r ← idp (fun n => idp_FetchIdentity n s credential);
  match r with
  | inr err => raise (Errorf "fetch oauth2 identity" err)
  | inl i => mret (mkOAuthClaims (o2_Subject i) (o2_Email i) (o2_Name i) true)
  end.

Definition Authenticate (m : Method) (credential : string) : M OAuthIDTokenClaims :=
  match m with
  | BootstrapMethod password email => bootstrap_Authenticate password email credential
  | StubMethod => stub_Authenticate credential
  | OIDCMethod _ s => oidc_Authenticate s credential
  | OAuth2Method _ s => oauth2_Authenticate s credential
  end.
End authenticate.

(** ** snapshot.go *)

Record snapshot := mkSnapshot {
  methods : list (AuthMethod * Method); gateways : list (AuthMethod * Gateway); listing : list LoginMethodView;
  health : list (AuthMethod * LoginProviderHealth); danceCookieSecure : bool }.
Record providerInput := mkProviderInput {
  pv_ID : AuthMethod; pv_DisplayName : string; pv_Method : option Method; pv_Gateway : option Gateway;
  pv_Health : LoginProviderHealth; pv_RedirectURI : string }.

(** [m[k] = v] *)
Definition map_set {V} (k : string) (v : V) (m : list (string * V)) : list (string * V) :=
  (k, v) :: List.filter (fun e => negb (String.eqb (fst e) k)) m.

Section snapshots.
Context `{Ozzo}.

Definition redirectsOverPlainHTTP (redirectURI : string) : bool :=
  match url_Parse redirectURI with
  | Some parsed => String.eqb (pu_Scheme parsed) "http"
  | None => false
  end.
Definition set_some {V} (k : string) (v : option V) (m : list (string * V)) : list (string * V) :=
  match v with Some v => map_set k v m | None => m end.
Definition view_cmp (a b : LoginMethodView) : comparison := strings_Compare (lm_ID a) (lm_ID b).
Definition newSnapshot (builtins : list (AuthMethod * Method)) (providers : list providerInput) : snapshot :=
  let danceable := List.filter (fun p => bool_decide (is_Some (pv_Gateway p))) providers in
  let insecure := List.filter (fun p => redirectsOverPlainHTTP (pv_RedirectURI p)) danceable in
  let listed := List.filter (fun p => bool_decide (is_Some (pv_Method p)) && bool_decide (is_Some (pv_Gateway p))) providers in
  mkSnapshot
    (fold_left (fun m p => set_some (pv_ID p) (pv_Method p) m) providers builtins)
    (fold_left (fun m p => set_some (pv_ID p) (pv_Gateway p) m) providers [])
    (sort_by view_cmp ((fun p => mkLoginMethod (pv_ID p) (pv_DisplayName p)) <$> listed))
    (fold_left (fun m p => map_set (pv_ID p) (pv_Health p) m) providers [])
    (Nat.eqb (length danceable) 0 || Nat.ltb (length insecure) (length danceable)).
Definition healthOf (s : snapshot) (id : AuthMethod) : LoginProviderHealth :=
  default LoginProviderHealthUnresolved (go_lookup (health s) id).

(** ** reloader.go *)

Definition buildOne (row : ConfiguredProvider) : providerInput :=
  let bare h := mkProviderInput (cp_Name row) (cp_Name row) None None h "" in
  if cp_Unreadable row then bare LoginProviderHealthUnreadable
  else if negb (cp_Enabled row) then bare LoginProviderHealthDisabled
  else
    match cp_Settings row with
    | SetOIDC s =>
        mkProviderInput (cp_Name row) (cmp_Or [oi_DisplayName s; cp_Name row]) (Some (OIDCMethod (cp_Name row) s))
          (Some (OIDCGateway s)) LoginProviderHealthOK (oi_RedirectURI s)
    | SetOAuth2 s =>
        mkProviderInput (cp_Name row) (cmp_Or [oa_DisplayName s; cp_Name row]) (Some (OAuth2Method (cp_Name row) s))
          (Some (OAuth2Gateway s)) LoginProviderHealthOK (oa_RedirectURI s)
    | _ => bare LoginProviderHealthUnreadable
    end.
Definition build (stored : list ConfiguredProvider) : list providerInput := buildOne <$> stored.

(** ** provider.go *)

Record Methods := mkMethods { useStub : bool; builtins : list (AuthMethod * Method); current : snapshot }.
#[export] Instance eta_Methods : Eta Methods := fun m => mkMethods (useStub m) (builtins m) (current m).

Definition NewAuthMethods (isDev useStub : bool) (given : list Method) : Methods :=
  let methodsMap := fold_left (fun m x => map_set (MethodID x) x m) given [] in
  let methodsMap := if isDev then map_set AuthMethodStub StubMethod methodsMap else methodsMap in
  mkMethods (isDev && useStub) methodsMap (newSnapshot methodsMap []).
Definition installProviders (providers : list providerInput) (p : Methods) : Methods :=
  p <| current := newSnapshot (builtins p) providers |>.
(** A registry that cannot be read leaves the snapshot as it is. *)
Definition reload (stored : list ConfiguredProvider + error) (p : Methods) : Methods :=
  match stored with
  | inl rows => installProviders (build rows) p
  | inr _ => p
  end.
End snapshots.

Definition Get (p : Methods) (methodID : AuthMethod) : Method + error :=
  let methodID := if useStub p && negb (String.eqb methodID AuthMethodBootstrap) then AuthMethodStub else methodID in
  match go_lookup (methods (current p)) methodID with
  | Some m => inl m
  | None => inr (Errorf methodID ErrUnsupportedProvider)
  end.
Definition reservedMethod (m : AuthMethod) : bool := String.eqb m AuthMethodStub || String.eqb m AuthMethodBootstrap.
Definition Parse (p : Methods) (name : string) : option AuthMethod :=
  if reservedMethod name then None
  else match go_lookup (methods (current p)) name with
       | Some _ => Some name
       | None => None
       end.
Definition DanceProvider (p : Methods) (segment : string) : option AuthMethod :=
  if reservedMethod segment then None
  else match go_lookup (methods (current p)) segment, go_lookup (gateways (current p)) segment with
       | Some _, Some _ => Some segment
       | _, _ => None
       end.
Definition DanceGateway (p : Methods) (method : AuthMethod) : option Gateway := go_lookup (gateways (current p)) method.
Definition ProviderHealth (p : Methods) (name : string) : string := healthOf (current p) name.
Definition DanceCookieSecure (p : Methods) : bool := danceCookieSecure (current p).
Definition Listing (p : Methods) : list LoginMethodView := listing (current p).
