(* ===== verification/Auth.v ===== *)
(** * Sign-in, refresh and sign-out (internal/services/auth)

    Every way to a session ends in [IssueTokenPair], every way on in [Refresh];
    a session ends by sign-out, by reuse of a rotated token, or by a new
    password. *)
From Stdlib Require Import ZArith Lia Ascii String.
From stdpp Require Import base sorting sets strings numbers list.
From S2P Require Import Prelude Go Sha256 Entity Conflict AuditTrail Schema Logic Dbtx Interleave Crypto Validation MaintStore.
From S2P Require Import UserStore Credentials TokenStore Password Queue Otp Sessions.
Open Scope Z_scope.

(** Where a built-in sign-in method's switch is kept (internal/services/authmethod). *)
Class AuthMethodFlags := { method_enabled : nat -> string -> bool + error }.
Definition AuthMethodNameEmailOTP : string := "email_otp".
Definition AuthMethodNameEmailPassword : string := "email_password".
Definition OTPPurposePasswordReset : string := "password_reset".
Definition AuditFailurePasswordPolicy : AuditFailureReason := "password policy violation".

(** The calls of the service; those of the token service and of the one-time
    codes are among them. *)
Inductive AuthOp : Type -> Type :=
  | ATok {X} (op : TokenOp X) : AuthOp X
  | AOtp {X} (op : OtpOp X) : AuthOp X
  | AAcquire (key : string) (ttl : Duration) : AuthOp DistributedLock
  | ARelease (lock : DistributedLock) : AuthOp unit
  | AUserByID (id : UUID) : AuthOp User
  | AUserByEmail (email : string) : AuthOp User
  | ABlacklistAdd (jti : string) (ttl : Duration) : AuthOp unit
  | AIsRevoked (jti sid : string) : AuthOp bool
  | AGetPassword (userID : UUID) : AuthOp AuthCredential
  | AHashPassword (password : string) : AuthOp string
  | AVerifyPassword (stored password : string) : AuthOp bool
  | AMethodEnabled (method : string) : AuthOp bool
  (** the transaction of a new password; the sessions are revoked inside it *)
  | AInstallPassword (userID : UUID) (hash : string) (revokeSessions : Prog TokenOp unit) : AuthOp unit
  | APublish (action : AuditAction) : AuthOp unit.

Definition tok {A} (p : Prog TokenOp A) : Prog AuthOp A := prog_map (@ATok) p.
Definition otp {A} (p : Prog OtpOp A) : Prog AuthOp A := prog_map (@AOtp) p.

Record ChangePasswordCmd := mkChangePassword {
  cp_UserID : UUID; cp_CurrentPassword : string; cp_NewPassword : string; cp_RefreshToken : string;
  cp_ClientIP : string; cp_UserAgent : string }.
Record ResetPasswordCmd := mkResetPassword {
  rp_Email : string; rp_Code : string; rp_SessionNonce : string; rp_NewPassword : string; rp_ClientIP : string;
  rp_UserAgent : string }.
Record LoginWithPasswordCmd := mkLoginWithPassword {
  lp_Email : string; lp_Password : string; lp_ClientIP : string; lp_UserAgent : string }.

Definition noMeta : AuditMetadata := mkMetadata "" "" "" "" "" "" "" [] [] [] "" "" "" [].
Definition clientMeta (ip ua : string) : AuditMetadata := noMeta <| md_IP := ip |> <| md_UserAgent := ua |>.
(** [&entity.User{Email: claimed}] *)
Definition claimedUser (email : string) : User := mkUser uuid_Nil email "" [] zeroTime None None None None.

Section handler.
Context `{Env} `{Collation} `{Goque} `{Sealer} `{Entropy} `{Jwt} `{Argon2} `{AuthMethodFlags}.
Context (cfg : JWTConfig) (codes : Otp.Service).

(** install_password.go, the transaction *)
Definition install_tx (userID : UUID) (hash : string) (revokeSessions : Prog TokenOp unit) : M unit :=
  WithinTx (
    wrap_err (Errorf "write password") (UpsertPassword userID hash);;
    exec (token_handle cfg) revokeSessions).

Definition auth_handle (X : Type) (op : AuthOp X) : M X :=
  match op with
  | ATok op => token_handle cfg _ op
  | AOtp op => otp_handle codes _ op
  | AAcquire key ttl => Acquire key ttl
  | ARelease lock => Release lock
  | AUserByID id => UserStore.GetByID id
  | AUserByEmail email => UserStore.GetByEmail email
  | ABlacklistAdd jti ttl => Add jti ttl
  | AIsRevoked jti sid => IsRevoked jti sid
  | AGetPassword userID => GetPasswordByUserID userID
  | AHashPassword password => HashPassword password
  | AVerifyPassword stored password => at_step (fun _ => VerifyPassword stored password)
  | AMethodEnabled method => at_step (fun n => method_enabled n method)
  | AInstallPassword userID hash revokeSessions => install_tx userID hash revokeSessions
  | APublish action => Publish action
  end.
End handler.

Section service.
Context `{Jwt} `{Ozzo} (cfg : JWTConfig) (codes : Otp.Service).

(** ** service.go, login_failure_reason.go *)

Definition auth_publishAudit (action : AuditAction) : Prog AuthOp unit :=
  _ ← try_call (APublish action);
  mret tt.
Definition metaWithReason (meta : option AuditMetadata) (reason : AuditFailureReason) : AuditMetadata :=
  match meta with
  | Some m => m <| md_FailureReason := reason |>
  | None => noMeta <| md_FailureReason := reason |>
  end.
Definition publishLoginFailure (actor : User) (meta : option AuditMetadata) (reason : AuditFailureReason) :
    Prog AuthOp unit :=
  auth_publishAudit (LoginFailed actor (Some (metaWithReason meta reason))).
Definition provisioningFailureReason (err : error) : AuditFailureReason :=
  if errors_Is err ErrSignupDisabled then AuditFailureSignupDisabled else AuditFailureUserProvisioning.
Definition issuanceFailureReason (err : error) : AuditFailureReason :=
  if errors_Is err ErrUserBlocked then AuditFailureUserBlocked else AuditFailureTokenIssuance.
(** method_flags.go: whatever cannot be read refuses. *)
Definition methodOffered (method : string) : Prog AuthOp bool :=
  r ← try_call (AMethodEnabled method);
  mret (match r with inl enabled => enabled | inr _ => false end).

(** ** session_ttls.go *)

Definition breakGlassAccessTokenTTL : Duration := 5 * Minute.
Definition breakGlassSessionLifetime : Duration := 24 * Hour.
Record SessionTTLs := mkTTLs { access : Duration; maxLifetime : Duration }.
Definition sessionTTLs (user : User) : SessionTTLs :=
  if negb (IsBreakGlass user) then mkTTLs (AccessTokenTTL cfg) (SessionMaxLifetime cfg)
  else mkTTLs (Z.min (AccessTokenTTL cfg) breakGlassAccessTokenTTL) (Z.min (SessionMaxLifetime cfg) breakGlassSessionLifetime).
Definition sessionExpiresAt (startedAt : Time) (maxLifetime : Duration) : Time :=
  Truncate_Second (Time_Add startedAt maxLifetime).
Definition sessionTTLsFor (userID : UUID) : Prog AuthOp SessionTTLs :=
  user ← call_wrap (Errorf "fetch user") (AUserByID userID);
  mret (sessionTTLs user).
(** [int(d.Seconds())] *)
Definition int_Seconds (d : Duration) : Z := Z.quot d Second.

(** ** issue_token_pair.go *)

Definition IssueTokenPair (user : User) (clientIP : string) : Prog AuthOp TokenPair :=
  let ttls := sessionTTLs user in
  family ← call (ATok TNewUUID);
  accessToken ← prog_wrap (Errorf "issue access token") (tok (IssueAccessToken cfg (access ttls) user family));
  token ← call_wrap (Errorf "generate refresh token") (ATok TGenerate);
  now ← call (ATok TNow);
  prog_wrap (Errorf "save refresh token")
    (tok (SaveRefreshToken (newToken token.2 (u_ID user) family (Time_Add now (RefreshTokenTTL cfg)) clientIP now)));;
  mret (mkPair accessToken token.1 (int_Seconds (access ttls)) family (sessionExpiresAt now (maxLifetime ttls))).

(** ** refresh.go *)

Definition distributedLockKey (key : string) : string := "refresh:" +:+ key.

Definition issueAccessTokenByUserID (userID family : UUID) (ttl : Duration) : Prog AuthOp string :=
  user ← call_wrap (Errorf "fetch user") (AUserByID userID);
  tok (IssueAccessToken cfg ttl user family).

Definition publishSessionRevoked (rt : RefreshToken) (clientIP userAgent : string) : Prog AuthOp unit :=
  r ← try_call (AUserByID (t_UserID rt));
  let owner := match r with
               | inl user => user
               | inr _ => mkUser (t_UserID rt) "" "" [] zeroTime None None None None
               end in
  auth_publishAudit (SessionRevoked owner (Some ((clientMeta clientIP userAgent)
    <| md_SessionID := uuid_String (Family rt) |> <| md_RevokeReason := AuditRevokeReasonTokenReuse |>))).

Definition refreshWithinGrace (rt : RefreshToken) : Prog AuthOp TokenPair :=
  live ← call (ATok (THasLive (Family rt)));
  if negb live then PErr ErrLogoutAlready
  else
    ttls ← sessionTTLsFor (t_UserID rt);
    accessToken ← issueAccessTokenByUserID (t_UserID rt) (Family rt) (access ttls);
    mret (mkPair accessToken "" (int_Seconds (access ttls)) uuid_Nil
            (sessionExpiresAt (t_SessionStartedAt rt) (maxLifetime ttls))).

Definition reuseRevoked (now : Time) (rt : RefreshToken) (clientIP userAgent : string) : Prog AuthOp TokenPair :=
  if Before now (FromPtr zeroTime (GraceTTL rt)) then refreshWithinGrace rt
  else
    _ ← prog_try (tok (RevokeRefreshTokenByFamily cfg (t_UserID rt) (Family rt)));
    publishSessionRevoked rt clientIP userAgent;;
    PErr (Errorf "refresh token's grace period has expired" ErrTokenReuse).

Definition rotateRefreshToken (old : RefreshToken) (now : Time) (clientIP : string) : Prog AuthOp TokenPair :=
  ttls ← sessionTTLsFor (t_UserID old);
  if SessionInactiveLifetime cfg <? Time_Sub now (t_CreatedAt old) then PErr ErrTokenExpired
  else if maxLifetime ttls <? Time_Sub now (t_SessionStartedAt old) then PErr ErrTokenExpired
  else
    accessToken ← issueAccessTokenByUserID (t_UserID old) (Family old) (access ttls);
    token ← call_wrap (Errorf "generate refresh token") (ATok TGenerate);
    r ← try_call (ATok (TRotate old (Time_Add now (RefreshTokenGracePeriod cfg))
          (newToken token.2 (t_UserID old) (Family old) (Time_Add now (RefreshTokenTTL cfg)) clientIP
             (t_SessionStartedAt old))));
    match r with
    | inr err => if errors_Is err ErrRefreshTokenAlreadyRotated then PErr ErrLockBusy else PErr err
    | inl _ => mret (mkPair accessToken token.1 (int_Seconds (access ttls)) uuid_Nil
                       (sessionExpiresAt (t_SessionStartedAt old) (maxLifetime ttls)))
    end.

(** What runs under the lock. *)
Definition refresh_locked (now : Time) (tokenHash clientIP userAgent : string) : Prog AuthOp TokenPair :=
  r ← try_call (ATok (TByHash tokenHash));
  match r with
  | inr _ => PErr ErrInvalidRefreshToken
  | inl rt =>
      if Revoked rt && bool_decide (ReplacedBy rt = None) then PErr ErrLogoutAlready
      else if Revoked rt then reuseRevoked now rt clientIP userAgent
      else rotateRefreshToken rt now clientIP
  end.

Definition Refresh (oldTokenRaw clientIP userAgent : string) : Prog AuthOp TokenPair :=
  now ← call (ATok TNow);
  let tokenHash := HashSha256 (bytes oldTokenRaw) in
  r ← try_call (AAcquire (distributedLockKey tokenHash) (RefreshTokenrDistributedLockTTL cfg));
  match r with
  | inr _ => PErr ErrLockBusy
  | inl lock =>
      res ← prog_try (refresh_locked now tokenHash clientIP userAgent);
      _ ← try_call (ARelease lock);
      match res with
      | inl issued => mret issued
      | inr err => PErr err
      end
  end.

(** ** logout.go *)

Definition revokeAccessTokenSession (claims : AccessClaims) (ended : UUID) : Prog AuthOp unit :=
  if String.eqb (cl_SessionID claims) "" then mret tt
  else
    match uuid_Parse (cl_SessionID claims) with
    | inr err => PErr (Errorf2 "parse sid" ErrInvalidAccessToken err)
    | inl sessionID =>
        if N.eqb sessionID ended then mret tt
        else
          match uuid_Parse (cl_Subject claims) with
          | inr err => PErr (Errorf2 "parse sub" ErrInvalidAccessToken err)
          | inl userID => tok (RevokeRefreshTokenByFamily cfg userID sessionID)
          end
    end.

Definition auditSessionID (claims : AccessClaims) : string :=
  if negb (String.eqb (cl_SessionID claims) "") then cl_SessionID claims else cl_ID claims.

(** [uuid.MustParse] panics on what does not parse. *)
Definition logout (accessTokenRaw : string) (revokeFunc : AccessClaims -> Prog AuthOp unit) : Prog AuthOp unit :=
  r ← prog_try (tok (VerifyAccessToken accessTokenRaw));
  match r with
  | inr _ => PErr ErrInvalidAccessToken
  | inl claims =>
      if negb (Required_string (cl_ID claims)) then PErr ErrInvalidAccessToken
      else
        revokeFunc claims;;
        _ ← try_call (ABlacklistAdd (cl_ID claims) (AccessTokenTTL cfg));
        match uuid_Parse (cl_Subject claims) with
        | inr _ => PErr (EOther "uuid: Parse")
        | inl userID =>
            auth_publishAudit (LogoutSuccess (mkUser userID (cl_UserEmail claims) "" [] zeroTime None None None None)
              (auditSessionID claims))
        end
  end.

Definition Logout (p : TokenPair) : Prog AuthOp unit :=
  logout (AccessToken p) (fun claims =>
    ended ← (if negb (String.eqb (tp_RefreshToken p) "")
             then tok (RevokeFamilyByRefreshToken cfg (tp_RefreshToken p) claims) else mret uuid_Nil);
    revokeAccessTokenSession claims ended).

Definition LogoutAll (accessTokenRaw : string) : Prog AuthOp unit :=
  logout accessTokenRaw (fun claims =>
    match uuid_Parse (cl_Subject claims) with
    | inr err => PErr (Errorf "parse user id from claims.Subject" err)
    | inl userID => tok (RevokeRefreshTokenByUserID cfg userID)
    end).

(** ** introspect.go *)

Definition isRevoked (claims : AccessClaims) : Prog AuthOp bool :=
  call_wrap (Errorf "check blacklistStore") (AIsRevoked (cl_ID claims) (cl_SessionID claims)).

Definition activeSubject (subject : string) : Prog AuthOp (option User) :=
  match uuid_Parse subject with
  | inr _ => mret None
  | inl userID =>
      r ← try_call (AUserByID userID);
      match r with
      | inr err => if errors_Is err ErrUserNotFound then mret None else PErr (Errorf "load user" err)
      | inl user => if IsBlocked user then mret None else mret (Some user)
      end
  end.

Definition inactive (jti : string) : IntrospectReport := mkReport false jti "" "" [] 0.
Definition Introspect (tokenString : string) : Prog AuthOp IntrospectReport :=
  r ← prog_try (tok (VerifyAccessToken tokenString));
  match r with
  | inr _ => mret (inactive "")
  | inl claims =>
      if String.eqb (cl_ID claims) "" then mret (inactive "")
      else
        revoked ← isRevoked claims;
        if (revoked : bool) then mret (inactive (cl_ID claims))
        else
          user ← activeSubject (cl_Subject claims);
          match user with
          | None => mret (inactive (cl_ID claims))
          | Some user =>
              match cl_ExpiresAt claims with
              | None => PErr (EOther nil_dereference)
              | Some exp => mret (mkReport true (cl_ID claims) (cl_Subject claims) (cl_UserEmail claims) (u_Roles user) (Unix exp))
              end
          end
  end.
Definition EnsureActiveToken (tokenString : string) : Prog AuthOp (list Role) :=
  report ← Introspect tokenString;
  if negb (ir_Active report) then PErr ErrInvalidAccessToken else mret (ir_Roles report).
Definition EnsureNotRevoked (tokenString : string) : Prog AuthOp unit :=
  claims ← tok (VerifyAccessToken tokenString);
  if String.eqb (cl_ID claims) "" then PErr ErrInvalidAccessToken
  else
    revoked ← isRevoked claims;
    if (revoked : bool) then PErr ErrInvalidAccessToken else mret tt.

(** ** install_password.go, change_password.go, reset_password.go *)

Definition installPassword (userID : UUID) (newPassword : string) (revokeSessions : Prog TokenOp unit) : Prog AuthOp unit :=
  hash ← call_wrap (Errorf "hash new password") (AHashPassword newPassword);
  call (AInstallPassword userID hash revokeSessions).

Definition firstPasswordReauthWindow : Duration := 10 * Minute.
Definition requireFreshSession (cmd : ChangePasswordCmd) : Prog AuthOp unit :=
  if String.eqb (cp_RefreshToken cmd) "" then PErr ErrReauthenticationRequired
  else
    r ← prog_try (tok (GetRefreshToken (cp_RefreshToken cmd)));
    match r with
    | inr _ => PErr ErrReauthenticationRequired
    | inl rt =>
        if negb (N.eqb (t_UserID rt) (cp_UserID cmd)) || Revoked rt then PErr ErrReauthenticationRequired
        else
          now ← call (ATok TNow);
          if firstPasswordReauthWindow <? Time_Sub now (t_SessionStartedAt rt) then PErr ErrReauthenticationRequired
          else mret tt
    end.

Definition verifyCurrentPassword (cmd : ChangePasswordCmd) : Prog AuthOp unit :=
  r ← try_call (AGetPassword (cp_UserID cmd));
  match r with
  | inr err =>
      if negb (errors_Is err ErrAuthCredentialNotFound) then PErr (Errorf "read password credential" err)
      else if negb (String.eqb (cp_CurrentPassword cmd) "")
      then PErr (Errorf "no password is set for this account" ErrValidation)
      else requireFreshSession cmd
  | inl cred =>
      if String.eqb (cp_CurrentPassword cmd) "" then PErr (Errorf "the current password is required" ErrValidation)
      else
        r ← try_call (AVerifyPassword (c_SecretHash cred) (cp_CurrentPassword cmd));
        match r with
        | inl true => mret tt
        | _ => PErr ErrInvalidCredentials
        end
  end.

Definition revokeOtherSessions (cmd : ChangePasswordCmd) : Prog TokenOp unit :=
  if String.eqb (cp_RefreshToken cmd) "" then
    prog_wrap (Errorf "revoke sessions") (RevokeRefreshTokenByUserID cfg (cp_UserID cmd))
  else
    r ← prog_try (FamilyByRefreshToken (cp_RefreshToken cmd) (cp_UserID cmd));
    match r with
    | inr _ => PErr ErrInvalidRefreshToken
    | inl family =>
        prog_wrap (Errorf "revoke other sessions")
          (RevokeRefreshTokenByUserIDExceptFamily cfg (cp_UserID cmd) family)
    end.

Definition ChangePassword (cmd : ChangePasswordCmd) : Prog AuthOp unit :=
  match ValidatePasswordPolicy (cp_NewPassword cmd) with
  | Some err => PErr (EJoin2 ErrValidation err)
  | None =>
      user ← call_wrap (Errorf "resolve user") (AUserByID (cp_UserID cmd));
      if IsBreakGlass user then PErr ErrBreakGlassPersonalSignIn
      else
        verifyCurrentPassword cmd;;
        installPassword (cp_UserID cmd) (cp_NewPassword cmd) (revokeOtherSessions cmd);;
        auth_publishAudit (PasswordChanged user (Some (clientMeta (cp_ClientIP cmd) (cp_UserAgent cmd))))
  end.

Definition HasPassword (userID : UUID) : Prog AuthOp bool :=
  r ← try_call (AGetPassword userID);
  match r with
  | inl _ => mret true
  | inr err => if errors_Is err ErrAuthCredentialNotFound then mret false else PErr (Errorf "read password credential" err)
  end.

(** has_builtin_sign_in.go *)
Definition hasBuiltinSignIn (userID : UUID) : Prog AuthOp bool :=
  otpOffered ← call_wrap (Errorf "read email_otp flag") (AMethodEnabled AuthMethodNameEmailOTP);
  if (otpOffered : bool) then mret true
  else
    passwordOffered ← call_wrap (Errorf "read email_password flag") (AMethodEnabled AuthMethodNameEmailPassword);
    if negb passwordOffered then mret false else HasPassword userID.

(** ** login_with_otp.go *)

Definition publishOTPLoginFailure (cmd : VerifyOTPCmd) (user : option User) (reason : AuditFailureReason) :
    Prog AuthOp unit :=
  publishLoginFailure (default (claimedUser (vo_Email cmd)) user)
    (Some (clientMeta (vo_ClientIP cmd) (vo_UserAgent cmd))) reason.

Definition ResetPassword (cmd : ResetPasswordCmd) : Prog AuthOp unit :=
  let attempt := mkVerifyCmd (rp_Email cmd) "" "" (rp_ClientIP cmd) (rp_UserAgent cmd) in
  match ValidatePasswordPolicy (rp_NewPassword cmd) with
  | Some _ =>
      publishOTPLoginFailure attempt None AuditFailurePasswordPolicy;;
      PErr ErrInvalidCredentials
  | None =>
      v ← otp (Verify codes (mkVerifyCmd (rp_Email cmd) (rp_Code cmd) (rp_SessionNonce cmd) (rp_ClientIP cmd) (rp_UserAgent cmd)));
      match v_err v, v_user v with
      | Some err, user =>
          publishOTPLoginFailure attempt user (cmp_Or [v_reason v; AuditFailureUnknown]);;
          PErr err
      | None, None => PErr (EOther nil_dereference)
      | None, Some user =>
          if IsBlocked user then PErr ErrUserBlocked
          else
            installPassword (u_ID user) (rp_NewPassword cmd)
              (prog_wrap (Errorf "revoke sessions") (RevokeRefreshTokenByUserID cfg (u_ID user)));;
            auth_publishAudit (PasswordReset user (Some (clientMeta (rp_ClientIP cmd) (rp_UserAgent cmd))))
      end
  end.

Definition RequestPasswordReset (email : string) : Prog AuthOp string :=
  r ← prog_try (otp (Request email OTPPurposePasswordReset));
  match r with
  | inl nonce => mret nonce
  | inr err => if negb (errors_Is err ErrUserNotFound) then PErr (Errorf "request reset code" err) else mret ""%string
  end.

Definition LoginWithOTP (cmd : VerifyOTPCmd) : Prog AuthOp TokenPair :=
  offered ← methodOffered AuthMethodNameEmailOTP;
  if negb offered then
    publishOTPLoginFailure cmd None AuditFailureMethodDisabled;;
    PErr ErrInvalidCredentials
  else
    v ← otp (Verify codes cmd);
    match v_err v, v_user v with
    | Some err, user =>
        publishOTPLoginFailure cmd user (cmp_Or [v_reason v; AuditFailureUnknown]);;
        PErr err
    | None, None => PErr (EOther nil_dereference)
    | None, Some user =>
        let meta := clientMeta (vo_ClientIP cmd) (vo_UserAgent cmd) in
        r ← prog_try (IssueTokenPair user (vo_ClientIP cmd));
        match r with
        | inr err =>
            publishLoginFailure user (Some meta) (issuanceFailureReason err);;
            PErr (Errorf "issue token pair" err)
        | inl issued =>
            auth_publishAudit (LoginSuccess user (Some (meta <| md_SessionID := uuid_String (tp_SessionID issued) |>
              <| md_LoginMethod := AuditLoginMethodOTP |>)));;
            mret issued
        end
    end.

(** ** login_with_password.go *)

Definition publishPasswordLoginFailure (cmd : LoginWithPasswordCmd) (email : string) (reason : AuditFailureReason)
    (method : string) : Prog AuthOp unit :=
  publishLoginFailure (claimedUser email)
    (Some ((clientMeta (lp_ClientIP cmd) (lp_UserAgent cmd)) <| md_LoginMethod := method |>)) reason.

(** The decoy record: the library's answer for a fixed text, made once. *)
Context (decoyPasswordHash : string).
Definition burnDecoyHash (password : string) : Prog AuthOp unit :=
  _ ← try_call (AVerifyPassword decoyPasswordHash password);
  mret tt.

(** [None]: not an answer here, the user has no password. *)
Definition loginWithStoredPassword (cmd : LoginWithPasswordCmd) (user : User) : Prog AuthOp (option TokenPair) :=
  r ← try_call (AGetPassword (u_ID user));
  match r with
  | inr err => if negb (errors_Is err ErrAuthCredentialNotFound) then PErr (Errorf "read password credential" err)
               else mret None
  | inl cred =>
      r ← try_call (AVerifyPassword (c_SecretHash cred) (lp_Password cmd));
      match r with
      | inl true =>
          r ← prog_try (IssueTokenPair user (lp_ClientIP cmd));
          match r with
          | inr err =>
              publishLoginFailure user (Some ((clientMeta (lp_ClientIP cmd) (lp_UserAgent cmd))
                <| md_LoginMethod := AuditLoginMethodPassword |>)) (issuanceFailureReason err);;
              PErr (Errorf "issue token pair" err)
          | inl issued => mret (Some issued)
          end
      | _ =>
          publishPasswordLoginFailure cmd (lp_Email cmd) AuditFailureInvalidCredentials AuditLoginMethodPassword;;
          PErr ErrInvalidCredentials
      end
  end.

Definition loginWithPassword (cmd : LoginWithPasswordCmd) : Prog AuthOp (TokenPair * User) :=
  r ← try_call (AUserByEmail (lp_Email cmd));
  handled ← match r with
            | inr err => if negb (errors_Is err ErrUserNotFound) then PErr (Errorf "look up user" err) else mret None
            | inl user =>
                offered ← methodOffered AuthMethodNameEmailPassword;
                if (offered : bool) then
                  p ← loginWithStoredPassword cmd user;
                  mret ((fun issued => (issued, user)) <$> p)
                else mret None
            end;
  match handled with
  | Some r => mret r
  | None =>
      burnDecoyHash (lp_Password cmd);;
      publishPasswordLoginFailure cmd (lp_Email cmd) AuditFailureInvalidCredentials "";;
      PErr ErrInvalidCredentials
  end.

Definition LoginWithPassword (cmd : LoginWithPasswordCmd) : Prog AuthOp TokenPair :=
  r ← loginWithPassword cmd;
  auth_publishAudit (LoginSuccess r.2 (Some ((clientMeta (lp_ClientIP cmd) (lp_UserAgent cmd))
    <| md_SessionID := uuid_String (tp_SessionID r.1) |> <| md_LoginMethod := AuditLoginMethodPassword |>)));;
  mret r.1.
End service.
