(* ===== verification/SessionSpec.v ===== *)
(** * What sessions promise

    However requests interleave, a session has at most one live refresh token,
    a token has at most one successor, and a session that was ended stays ended;
    every token in the table was issued for the lifetime of the configuration; and
    what a password change leaves behind whose transaction fails at its end.
    The proofs follow what each request was answered, because a rotation relies
    on a token it has read before. *)
From Stdlib Require Import ZArith Lia Ascii String.
From stdpp Require Import base sorting sets strings numbers list relations.
From S2P Require Import Prelude Go Sha256 Entity Conflict AuditTrail Schema Logic Dbtx Interleave Crypto Validation MaintStore.
From S2P Require Import Fixtures Like UserStore Credentials TokenStore Password Queue Otp OtpSpec Sessions Auth.
Open Scope Z_scope.

(** ** The requests *)

Inductive AuthRequest :=
  | RefreshReq (raw ip ua : string)
  | LogoutReq (p : TokenPair)
  | LogoutAllReq (raw : string)
  | LoginOTPReq (cmd : VerifyOTPCmd)
  | LoginPasswordReq (cmd : LoginWithPasswordCmd)
  | ChangePasswordReq (cmd : ChangePasswordCmd)
  | ResetPasswordReq (cmd : ResetPasswordCmd)
  | CodeReq (email purpose : string)
  | IntrospectReq (raw : string)
  | PruneReq (retention : Duration) (limit : Z).

Inductive AuthResult := RPair (p : TokenPair) | RReport (r : IntrospectReport) | RText (s : string) | RDone.

Definition auth_program `{Jwt} `{Ozzo} (cfg : JWTConfig) (codes : Otp.Service) (decoy : string) (req : AuthRequest) :
    Prog AuthOp AuthResult :=
  match req with
  | RefreshReq raw ip ua => p ← Refresh cfg raw ip ua; mret (RPair p)
  | LogoutReq p => Logout cfg p;; mret RDone
  | LogoutAllReq raw => LogoutAll cfg raw;; mret RDone
  | LoginOTPReq cmd => p ← LoginWithOTP cfg codes cmd; mret (RPair p)
  | LoginPasswordReq cmd => p ← LoginWithPassword cfg decoy cmd; mret (RPair p)
  | ChangePasswordReq cmd => ChangePassword cfg cmd;; mret RDone
  | ResetPasswordReq cmd => ResetPassword cfg codes cmd;; mret RDone
  | CodeReq email purpose => n ← otp (Request email purpose); mret (RText n)
  | IntrospectReq raw => r ← Introspect raw; mret (RReport r)
  | PruneReq retention limit => tok (PruneRefreshTokens retention limit);; mret RDone
  end.

(** ** What a history says *)

Section history.
Implicit Types (e : @Event AuthOp) (tr : list (@Event AuthOp)).

(** What a call of the token service was answered. *)
Definition on_tok {B} (f : ∀ X, TokenOp X -> outcome X -> option B) e : option (nat * B) :=
  match e with
  | Ev i op r =>
      match op in AuthOp X return outcome X -> option (nat * B) with
      | ATok op => fun r => (fun b => (i, b)) <$> f _ op r
      | _ => fun _ => None
      end r
  end.

Definition gen_of {X} (op : TokenOp X) : outcome X -> option string :=
  match op in TokenOp X return outcome X -> option string with
  | TGenerate => fun r => match r with Ok p => Some p.2 | _ => None end
  | _ => fun _ => None
  end.
Definition uuid_of {X} (op : TokenOp X) : outcome X -> option UUID :=
  match op in TokenOp X return outcome X -> option UUID with
  | TNewUUID => fun r => match r with Ok u => Some u | _ => None end
  | _ => fun _ => None
  end.
Definition read_of {X} (op : TokenOp X) : outcome X -> option (string * RefreshToken) :=
  match op in TokenOp X return outcome X -> option (string * RefreshToken) with
  | TByHash h => fun r => match r with Ok t => Some (h, t) | _ => None end
  | _ => fun _ => None
  end.
Definition now_of {X} (op : TokenOp X) : outcome X -> option Time :=
  match op in TokenOp X return outcome X -> option Time with
  | TNow => fun r => match r with Ok now => Some now | _ => None end
  | _ => fun _ => None
  end.
(** the token a sign-in saved, the token a rotation saved *)
Definition first_of {X} (op : TokenOp X) : outcome X -> option RefreshToken :=
  match op in TokenOp X return outcome X -> option RefreshToken with
  | TSave t => fun r => match r with Ok _ => Some t | _ => None end
  | _ => fun _ => None
  end.
Definition rotation_of {X} (op : TokenOp X) : outcome X -> option (RefreshToken * RefreshToken) :=
  match op in TokenOp X return outcome X -> option (RefreshToken * RefreshToken) with
  | TRotate old _ succ => fun r => match r with Ok _ => Some (old, succ) | _ => None end
  | _ => fun _ => None
  end.
(** the sessions a revocation ended *)
Definition ended_of {X} (op : TokenOp X) : outcome X -> option (list UUID) :=
  match op in TokenOp X return outcome X -> option (list UUID) with
  | TRevokeFamily _ family => fun r => match r with Ok _ => Some [family] | _ => None end
  | TRevokeUser _ => fun r => match r with Ok l => Some l | _ => None end
  | TRevokeExcept _ _ => fun r => match r with Ok l => Some l | _ => None end
  | TRevokeByToken _ _ _ => fun r => match r with Ok family => Some [family] | _ => None end
  | _ => fun _ => None
  end.

Definition gens tr : list (nat * string) := omap (on_tok (@gen_of)) tr.
Definition uuids tr : list (nat * UUID) := omap (on_tok (@uuid_of)) tr.
Definition reads tr : list (nat * (string * RefreshToken)) := omap (on_tok (@read_of)) tr.
Definition nows tr : list (nat * Time) := omap (on_tok (@now_of)) tr.
Definition firsts tr : list (nat * RefreshToken) := omap (on_tok (@first_of)) tr.
Definition rotations tr : list (nat * (RefreshToken * RefreshToken)) := omap (on_tok (@rotation_of)) tr.
(** who saved which token *)
Definition saved tr : list (nat * string) := (prod_map id Token <$> firsts tr) ++ (prod_map id (Token ∘ snd) <$> rotations tr).

(** A session that existed was ended. *)
Definition ended (R0 : list TokenRow) tr (family : UUID) : Prop :=
  ∃ tr1 e tr2 i l, tr = tr1 ++ e :: tr2 ∧ on_tok (@ended_of) e = Some (i, l) ∧ family ∈ l ∧
    (family ∈ rt_Family <$> R0 ∨ family ∈ Family ∘ snd <$> firsts tr1).

Lemma on_tok_thread {B} (f : ∀ X, TokenOp X -> outcome X -> option B) e i b : on_tok f e = Some (i, b) -> ev_thread e = i.
Proof. destruct e as [j X op r]. destruct op; simpl; try done. destruct (f _ _ _); simpl; [|done]. by intros [= ->]. Qed.

Lemma thread_omap {B} (f : ∀ X, TokenOp X -> outcome X -> option B) i tr b :
  b ∈ (omap (on_tok f) tr) -> fst b = i -> b ∈ omap (on_tok f) (thread_events i tr).
Proof.
  intros (e & He & Hb)%list_elem_of_omap Hi. apply list_elem_of_omap. exists e. split; [|done].
  apply list_elem_of_filter. split; [|done]. destruct b as [j b]. simpl in Hi. subst j. by eapply on_tok_thread.
Qed.

Lemma omap_thread {B} (f : ∀ X, TokenOp X -> outcome X -> option B) i tr b :
  b ∈ omap (on_tok f) (thread_events i tr) -> fst b = i ∧ b ∈ (omap (on_tok f) tr).
Proof.
  intros (e & [Ht He]%list_elem_of_filter & Hb)%list_elem_of_omap. split.
  - destruct b as [j b]. apply on_tok_thread in Hb. simpl. congruence.
  - apply list_elem_of_omap. eauto.
Qed.

Lemma ended_snoc R0 tr e family :
  ended R0 (tr ++ [e]) family ->
  ended R0 tr family ∨
  ∃ i l, on_tok (@ended_of) e = Some (i, l) ∧ family ∈ l ∧
    (family ∈ rt_Family <$> R0 ∨ family ∈ Family ∘ snd <$> firsts tr).
Proof.
  intros (tr1 & e' & tr2 & i & l & E & Hl & Hf & Hk). destruct tr2 as [|x tr2 _] using rev_ind.
  - apply app_inj_tail in E as [-> ->]. right. eauto.
  - left. rewrite app_comm_cons, app_assoc in E. apply app_inj_tail in E as [-> _]. exists tr1, e', tr2, i, l. done.
Qed.
End history.

(** ** The invariant *)

(** The same token, as long valid; once revoked, revoked. *)
Definition row_down (r r' : TokenRow) : Prop :=
  rt_TokenHash r' = rt_TokenHash r ∧ rt_Family r' = rt_Family r ∧ rt_UserID r' = rt_UserID r ∧
  rt_SessionStartedAt r' = rt_SessionStartedAt r ∧ (rt_Revoked r = true -> rt_Revoked r' = true) ∧ rt_ExpiresAt r' = rt_ExpiresAt r.

Section inv.
Context (R0 : list TokenRow).
Implicit Types (tr : list (@Event AuthOp)) (R : list TokenRow).

Definition known_hash tr (h : string) : Prop := h ∈ rt_TokenHash <$> R0 ∨ h ∈ snd <$> saved tr.
Definition known_family tr (f : UUID) : Prop := f ∈ rt_Family <$> R0 ∨ f ∈ Family ∘ snd <$> firsts tr.

Record sess_inv tr R : Prop := {
  v_nodup : NoDup (rt_TokenHash <$> R);
  v_ts : ∀ r, r ∈ R -> pg_ts (rt_SessionStartedAt r) = rt_SessionStartedAt r;
  v_live : ∀ r1 r2, r1 ∈ R -> r2 ∈ R -> rt_Family r1 = rt_Family r2 -> rt_Revoked r1 = false -> rt_Revoked r2 = false -> r1 = r2;
  v_owner : ∀ r1 r2, r1 ∈ R -> r2 ∈ R -> rt_Family r1 = rt_Family r2 ->
    rt_UserID r1 = rt_UserID r2 ∧ rt_SessionStartedAt r1 = rt_SessionStartedAt r2;
  v_known : ∀ r, r ∈ R -> known_hash tr (rt_TokenHash r) ∧ known_family tr (rt_Family r);
  v_src : ∀ p, p ∈ saved tr -> p ∈ gens tr;
  v_first : ∀ i t, (i, t) ∈ firsts tr -> (i, Family t) ∈ uuids tr;
  v_read : ∀ i h t, (i, (h, t)) ∈ reads tr -> Token t = h ∧ known_hash tr h ∧ known_family tr (Family t) ∧
    ∀ r, r ∈ R -> rt_TokenHash r = h ->
      rt_Family r = Family t ∧ rt_UserID r = t_UserID t ∧ rt_SessionStartedAt r = t_SessionStartedAt t;
  v_rotated : ∀ i o n, (i, (o, n)) ∈ rotations tr -> known_hash tr (Token o) ∧
    ∀ r, r ∈ R -> rt_TokenHash r = Token o -> rt_Revoked r = true;
  v_once : NoDup (Token ∘ fst ∘ snd <$> rotations tr);
  v_ended : ∀ f, ended R0 tr f -> ∀ r, r ∈ R -> rt_Family r = f -> rt_Revoked r = true }.

Lemma inv_shrink tr R R' :
  sess_inv tr R -> NoDup (rt_TokenHash <$> R') -> (∀ r', r' ∈ R' -> ∃ r, r ∈ R ∧ row_down r r') -> sess_inv tr R'.
Proof.
  intros [G1 G0 G2 G3 G4 G5 G6 G7 G8 G9 G10] Hnd Hd. split; try done.
  - intros r' (r & Hr & _ & _ & _ & -> & _)%Hd. by apply G0.
  - intros r1' r2' H1 H2 Hf L1 L2. destruct (Hd _ H1) as (r1 & I1 & E1 & F1 & _ & _ & V1 & _).
    destruct (Hd _ H2) as (r2 & I2 & E2 & F2 & _ & _ & V2 & _).
    assert (r1 = r2) as ->.
    { apply G2; [done|done|congruence|destruct (rt_Revoked r1); [by rewrite V1 in L1|done]|
        destruct (rt_Revoked r2); [by rewrite V2 in L2|done]]. }
    eapply NoDup_fmap_2_elem; [exact Hnd|done|done|congruence].
  - intros r1' r2' H1 H2 Hf. destruct (Hd _ H1) as (r1 & I1 & E1 & F1 & U1 & S1 & _).
    destruct (Hd _ H2) as (r2 & I2 & E2 & F2 & U2 & S2 & _). rewrite U1, U2, S1, S2. apply G3; congruence.
  - intros r' (r & Hr & -> & -> & _)%Hd. by apply G4.
  - intros i h t Ht. destruct (G7 _ _ _ Ht) as (? & ? & ? & Hr). split_and!; [done..|].
    intros r' (r & Hin & -> & -> & -> & -> & _)%Hd. by apply Hr.
  - intros i o n Ho. destruct (G8 _ _ _ Ho) as (? & Hr). split; [done|].
    intros r' (r & Hin & -> & _ & _ & _ & Hv & _)%Hd Hh. apply Hv. by eapply Hr.
  - intros f Hf r' (r & Hin & _ & -> & _ & _ & Hv & _)%Hd Hh. apply Hv. by eapply G10.
Qed.

Lemma omap_mono {B} (f : @Event AuthOp -> option B) tr e b : b ∈ omap f tr -> b ∈ omap f (tr ++ [e]).
Proof. rewrite omap_snoc. intros. apply elem_of_app. by left. Qed.

Lemma saved_mono tr e p : p ∈ saved tr -> p ∈ saved (tr ++ [e]).
Proof.
  unfold saved. rewrite !elem_of_app, !list_elem_of_fmap. intros [(x & -> & Hx)|(x & -> & Hx)]; [left|right];
    exists x; (split; [done|]); by apply omap_mono.
Qed.

Lemma known_hash_snoc tr e h : known_hash tr h -> known_hash (tr ++ [e]) h.
Proof.
  intros [?|(x & -> & Hx)%list_elem_of_fmap]; [by left|right]. apply list_elem_of_fmap. exists x.
  split; [done|by apply saved_mono].
Qed.

Lemma known_family_snoc tr e f : known_family tr f -> known_family (tr ++ [e]) f.
Proof.
  intros [?|(x & -> & Hx)%list_elem_of_fmap]; [by left|right]. apply list_elem_of_fmap. exists x.
  split; [done|by apply omap_mono].
Qed.

(** What every call adds to the history, and what only some calls do. *)
Lemma inv_quiet tr e R :
  on_tok (@read_of) e = None -> on_tok (@first_of) e = None -> on_tok (@rotation_of) e = None ->
  (∀ i l, on_tok (@ended_of) e = Some (i, l) -> ∀ r, r ∈ R -> rt_Family r ∈ l -> rt_Revoked r = true) ->
  sess_inv tr R -> sess_inv (tr ++ [e]) R.
Proof.
  intros Hr Hf Ho He [G1 G0 G2 G3 G4 G5 G6 G7 G8 G9 G10].
  assert (reads (tr ++ [e]) = reads tr) as Er by (unfold reads; by rewrite omap_snoc, Hr, app_nil_r).
  assert (firsts (tr ++ [e]) = firsts tr) as Ef by (unfold firsts; by rewrite omap_snoc, Hf, app_nil_r).
  assert (rotations (tr ++ [e]) = rotations tr) as Eo by (unfold rotations; by rewrite omap_snoc, Ho, app_nil_r).
  assert (saved (tr ++ [e]) = saved tr) as Es by (unfold saved; by rewrite Ef, Eo).
  split; unfold known_hash, known_family in *; rewrite ?Er, ?Ef, ?Eo, ?Es; try done.
  - intros p Hp. unfold gens. rewrite omap_snoc. apply elem_of_app. left. by apply G5.
  - intros i t Ht. unfold uuids. rewrite omap_snoc. apply elem_of_app. left. by apply G6.
  - intros f [Hf'|(i & l & Hl & Hin & _)]%ended_snoc r Hr' Hfam; [by eapply G10|]. eapply He; [done..|by rewrite Hfam].
Qed.

Lemma ended_known tr f : ended R0 tr f -> known_family tr f.
Proof.
  intros (tr1 & e & tr2 & i & l & -> & _ & _ & [?|(x & -> & Hx)%list_elem_of_fmap]); [by left|right].
  apply list_elem_of_fmap. exists x. split; [done|]. unfold firsts. rewrite omap_app. apply elem_of_app. by left.
Qed.

Lemma inv_read tr e R i h row :
  on_tok (@read_of) e = Some (i, (h, fromDBToken row)) -> on_tok (@first_of) e = None -> on_tok (@rotation_of) e = None ->
  on_tok (@ended_of) e = None -> row ∈ R -> rt_TokenHash row = h -> sess_inv tr R -> sess_inv (tr ++ [e]) R.
Proof.
  intros Hr Hf Ho He Hrow Hh [G1 G0 G2 G3 G4 G5 G6 G7 G8 G9 G10].
  assert (firsts (tr ++ [e]) = firsts tr) as Ef by (unfold firsts; by rewrite omap_snoc, Hf, app_nil_r).
  assert (rotations (tr ++ [e]) = rotations tr) as Eo by (unfold rotations; by rewrite omap_snoc, Ho, app_nil_r).
  assert (saved (tr ++ [e]) = saved tr) as Es by (unfold saved; by rewrite Ef, Eo).
  split; unfold known_hash, known_family in *; rewrite ?Ef, ?Eo, ?Es; try done.
  - intros p Hp. by apply omap_mono, G5.
  - intros j t Ht. by apply omap_mono, G6.
  - intros j h' t. unfold reads. rewrite omap_snoc, Hr, elem_of_app. intros [Ht|[= -> -> ->]%list_elem_of_singleton]; [by eapply G7|].
    destruct (G4 row Hrow). rewrite <- Hh. split_and!; [done..|]. intros r Hin E.
    by rewrite (NoDup_fmap_2_elem _ _ _ _ G1 Hin Hrow E).
  - intros f [Hf'|(j & l & Hl & _)]%ended_snoc; [by apply G10|congruence].
Qed.

Lemma inv_save tr e R i t row :
  on_tok (@first_of) e = Some (i, t) -> on_tok (@read_of) e = None -> on_tok (@rotation_of) e = None ->
  on_tok (@ended_of) e = None ->
  rt_TokenHash row = Token t -> rt_Family row = Family t -> pg_ts (rt_SessionStartedAt row) = rt_SessionStartedAt row ->
  ~ known_hash tr (Token t) -> ~ known_family tr (Family t) -> (i, Token t) ∈ gens tr -> (i, Family t) ∈ uuids tr ->
  sess_inv tr R -> sess_inv (tr ++ [e]) (R ++ [row]).
Proof.
  intros Hf Hr Ho He Hh Hfam Hts Nh Nf Hgen Huuid [G1 G0 G2 G3 G4 G5 G6 G7 G8 G9 G10].
  assert (rotations (tr ++ [e]) = rotations tr) as Eo by (unfold rotations; by rewrite omap_snoc, Ho, app_nil_r).
  assert (reads (tr ++ [e]) = reads tr) as Er by (unfold reads; by rewrite omap_snoc, Hr, app_nil_r).
  assert (firsts (tr ++ [e]) = firsts tr ++ [(i, t)]) as Ef by (unfold firsts; by rewrite omap_snoc, Hf).
  assert (∀ r, r ∈ R -> rt_Family r ≠ rt_Family row) as Hfr.
  { intros r Hin E. apply Nf. rewrite <- Hfam, <- E. by apply G4. }
  split; rewrite ?Er, ?Eo; try done.
  - rewrite fmap_app. apply NoDup_app. split_and!; [done| |apply NoDup_singleton].
    intros h (r & -> & Hin)%list_elem_of_fmap E%list_elem_of_singleton. apply Nh. rewrite <- Hh, <- E. by apply G4.
  - intros r [?| ->%list_elem_of_singleton]%elem_of_app; [by apply G0|done].
  - intros r1 r2 [H1| ->%list_elem_of_singleton]%elem_of_app [H2| ->%list_elem_of_singleton]%elem_of_app E; [by apply G2|..|done].
    + by destruct (Hfr r1).
    + by destruct (Hfr r2).
  - intros r1 r2 [H1| ->%list_elem_of_singleton]%elem_of_app [H2| ->%list_elem_of_singleton]%elem_of_app E; [by apply G3|..|done].
    + by destruct (Hfr r1).
    + by destruct (Hfr r2).
  - intros r [Hin| ->%list_elem_of_singleton]%elem_of_app.
    + destruct (G4 r Hin). split; [by apply known_hash_snoc|by apply known_family_snoc].
    + rewrite Hh, Hfam. split; right; [|rewrite Ef, fmap_app; apply elem_of_app; right; by apply list_elem_of_singleton].
      apply list_elem_of_fmap. exists (i, Token t). split; [done|]. unfold saved. rewrite Ef, fmap_app, !elem_of_app.
      left. right. by apply list_elem_of_singleton.
  - intros p. unfold saved. rewrite Ef, Eo, fmap_app, !elem_of_app. intros [[Hp|Hp]|Hp].
    + apply omap_mono, G5. unfold saved. apply elem_of_app. by left.
    + apply list_elem_of_singleton in Hp as ->. by apply omap_mono.
    + apply omap_mono, G5. unfold saved. apply elem_of_app. by right.
  - intros j t'. rewrite Ef, elem_of_app. intros [Ht|[= -> ->]%list_elem_of_singleton]; apply omap_mono; [by apply G6|done].
  - intros j h t' Ht. destruct (G7 _ _ _ Ht) as (? & Hk & ? & Hrs). split_and!; [done|by apply known_hash_snoc|by apply known_family_snoc|].
    intros r [Hin| ->%list_elem_of_singleton]%elem_of_app E; [by apply Hrs|]. destruct Nh. rewrite <- Hh, E. done.
  - intros j o n Hon. destruct (G8 _ _ _ Hon) as (Hk & Hrs). split; [by apply known_hash_snoc|].
    intros r [Hin| ->%list_elem_of_singleton]%elem_of_app E; [by apply Hrs|]. destruct Nh. rewrite <- Hh, E. done.
  - intros f [Hf'|(j & l & Hl & _)]%ended_snoc; [|congruence]. intros r [Hin| ->%list_elem_of_singleton]%elem_of_app E; [by eapply G10|].
    destruct Nf. rewrite <- Hfam, E. by apply ended_known.
Qed.

Lemma rotated_down h succ grace now r : row_down r (if rotatable h r then rotated succ grace now r else r).
Proof. destruct (rotatable h r); [|by split_and!]. by destruct r. Qed.

Lemma fmap_hash R (f : TokenRow -> TokenRow) :
  (∀ r, row_down r (f r)) -> rt_TokenHash <$> (f <$> R) = rt_TokenHash <$> R.
Proof. intros Hf. rewrite <- list_fmap_compose. apply list_fmap_ext. intros ? r _. apply Hf. Qed.

Lemma inv_update tr R (f : TokenRow -> TokenRow) :
  (∀ r, row_down r (f r)) -> sess_inv tr R -> sess_inv tr (f <$> R).
Proof.
  intros Hf Hi. apply (inv_shrink tr R); [done|rewrite fmap_hash by done; apply (v_nodup _ _ Hi)|].
  intros r' (r & -> & Hr)%list_elem_of_fmap. eauto.
Qed.

(** The successor joins a session none of whose tokens is live any more. *)
Lemma inv_successor tr e R i old succ row r0 :
  on_tok (@rotation_of) e = Some (i, (old, succ)) -> on_tok (@read_of) e = None -> on_tok (@first_of) e = None ->
  on_tok (@ended_of) e = None ->
  r0 ∈ R -> rt_TokenHash r0 = Token old -> (∀ r, r ∈ R -> rt_Family r = rt_Family r0 -> rt_Revoked r = true) ->
  Token old ∉ Token ∘ fst ∘ snd <$> rotations tr -> ~ ended R0 tr (rt_Family r0) ->
  rt_TokenHash row = Token succ -> rt_Family row = rt_Family r0 -> rt_UserID row = rt_UserID r0 ->
  rt_SessionStartedAt row = rt_SessionStartedAt r0 ->
  ~ known_hash tr (Token succ) -> (i, Token succ) ∈ gens tr -> sess_inv tr R -> sess_inv (tr ++ [e]) (R ++ [row]).
Proof.
  intros Ho Hr Hf He Hr0 Hh0 Hdead Hnew Hend Hh Hfam Hus Hst Nh Hgen [G1 G0 G2 G3 G4 G5 G6 G7 G8 G9 G10].
  assert (rotations (tr ++ [e]) = rotations tr ++ [(i, (old, succ))]) as Eo by (unfold rotations; by rewrite omap_snoc, Ho).
  assert (reads (tr ++ [e]) = reads tr) as Er by (unfold reads; by rewrite omap_snoc, Hr, app_nil_r).
  assert (firsts (tr ++ [e]) = firsts tr) as Ef by (unfold firsts; by rewrite omap_snoc, Hf, app_nil_r).
  assert (∀ h r, known_hash tr h -> r ∈ R ++ [row] -> rt_TokenHash r = h -> r ∈ R) as Hold.
  { intros h r Hk [?| ->%list_elem_of_singleton]%elem_of_app E; [done|]. destruct Nh. by rewrite <- Hh, E. }
  split; rewrite ?Er, ?Ef.
  - rewrite fmap_app. apply NoDup_app. split_and!; [done| |apply NoDup_singleton].
    intros h (r & -> & Hin)%list_elem_of_fmap E%list_elem_of_singleton. apply Nh. rewrite <- Hh, <- E. by apply G4.
  - intros r [?| ->%list_elem_of_singleton]%elem_of_app; [by apply G0|]. rewrite Hst. by apply G0.
  - intros r1 r2 [H1| ->%list_elem_of_singleton]%elem_of_app [H2| ->%list_elem_of_singleton]%elem_of_app E; [by apply G2|..|done].
    + intros L1. rewrite Hdead in L1; [done..|]. congruence.
    + intros _ L2. rewrite Hdead in L2; [done..|]. congruence.
  - intros r1 r2 [H1| ->%list_elem_of_singleton]%elem_of_app [H2| ->%list_elem_of_singleton]%elem_of_app E; [by apply G3|..|done];
      rewrite Hus, Hst; apply G3; [done|done|congruence|done|done|congruence].
  - intros r [Hin| ->%list_elem_of_singleton]%elem_of_app.
    + destruct (G4 r Hin). split; [by apply known_hash_snoc|by apply known_family_snoc].
    + rewrite Hh, Hfam. split; [right|by apply known_family_snoc, G4].
      apply list_elem_of_fmap. exists (i, Token succ). split; [done|]. unfold saved.
      rewrite Eo, fmap_app, !elem_of_app. right. right. by apply list_elem_of_singleton.
  - intros p. unfold saved. rewrite Ef, Eo, fmap_app, !elem_of_app. intros [Hp|[Hp|Hp]].
    + apply omap_mono, G5. unfold saved. apply elem_of_app. by left.
    + apply omap_mono, G5. unfold saved. apply elem_of_app. by right.
    + apply list_elem_of_singleton in Hp as ->. by apply omap_mono.
  - intros j t Ht. by apply omap_mono, G6.
  - intros j h t' Ht. destruct (G7 _ _ _ Ht) as (? & Hk & ? & Hrs).
    split_and!; [done|by apply known_hash_snoc|by apply known_family_snoc|]. intros r Hin E. apply Hrs; [by eapply Hold|done].
  - intros j o n. rewrite Eo, elem_of_app. intros [Hon|[= -> -> ->]%list_elem_of_singleton].
    + destruct (G8 _ _ _ Hon) as (Hk & Hrs). split; [by apply known_hash_snoc|]. intros r Hin E. apply Hrs; [by eapply Hold|done].
    + assert (known_hash tr (Token old)) as Hk by (rewrite <- Hh0; by apply G4). split; [by apply known_hash_snoc|].
      intros r Hin E. assert (r ∈ R) as Hin' by by eapply Hold.
      rewrite (NoDup_fmap_2_elem _ _ _ _ G1 Hin' Hr0); [by apply Hdead|congruence].
  - rewrite Eo, fmap_app. apply NoDup_app. split_and!; [done| |apply NoDup_singleton].
    intros h Hin ->%list_elem_of_singleton. done.
  - intros f [Hf'|(j & l & Hl & _)]%ended_snoc; [|congruence].
    intros r [Hin| ->%list_elem_of_singleton]%elem_of_app E; [by eapply G10|]. destruct Hend. by rewrite <- Hfam, E.
Qed.

Lemma inv_rotate tr e R i j old succ grace now row :
  on_tok (@rotation_of) e = Some (i, (old, succ)) -> on_tok (@read_of) e = None -> on_tok (@first_of) e = None ->
  on_tok (@ended_of) e = None -> (j, (Token old, old)) ∈ reads tr ->
  (∃ r0, r0 ∈ R ∧ rotatable (Token old) r0 = true) ->
  rt_TokenHash row = Token succ -> rt_Family row = Family old -> rt_UserID row = t_UserID old ->
  rt_SessionStartedAt row = pg_ts (t_SessionStartedAt old) ->
  ~ known_hash tr (Token succ) -> (i, Token succ) ∈ gens tr -> sess_inv tr R ->
  sess_inv (tr ++ [e])
    (((fun r => if rotatable (Token old) r then rotated (Token succ) grace now r else r) <$> R) ++ [row]).
Proof.
  intros Ho Hr Hf He Hread (r0 & Hr0 & Hrot) Hh Hfam Hus Hst Nh Hgen Hi.
  pose proof Hrot as [Hh0%String.eqb_eq Hlive%negb_true_iff]%andb_prop.
  destruct (v_read _ _ Hi _ _ _ Hread) as (_ & _ & _ & Hold). destruct (Hold r0 Hr0 Hh0) as (F0 & U0 & S0).
  set (f := fun r => if rotatable (Token old) r then rotated (Token succ) grace now r else r).
  assert (∀ r, row_down r (f r)) as Hdown by (intros r; apply rotated_down).
  destruct (Hdown r0) as (E1 & E2 & E3 & E4 & _).
  eapply (inv_successor _ _ _ _ old succ _ (f r0)); try done.
  - by apply list_elem_of_fmap_2.
  - congruence.
  - intros r' (r & -> & Hin)%list_elem_of_fmap E. destruct (Hdown r) as (_ & E2' & _ & _ & Hv & _).
    destruct (rt_Revoked r) eqn:Er; [by apply Hv|].
    assert (r = r0) as -> by (apply (v_live _ _ Hi); [done|done|congruence|done|done]).
    unfold f. rewrite Hrot. by destruct r0.
  - intros ([k [o n]] & E & Hin)%list_elem_of_fmap. simpl in E. destruct (v_rotated _ _ Hi _ _ _ Hin) as [_ Hv].
    rewrite Hv in Hlive; [done|done|congruence].
  - intros Hend. rewrite (v_ended _ _ Hi _ Hend r0) in Hlive; [done|done|congruence].
  - congruence.
  - congruence.
  - rewrite Hst, E4, <- S0. by apply (v_ts _ _ Hi).
  - by apply inv_update.
Qed.
End inv.

(** ** What a call does to the tokens *)

Section effects.
Context `{Env} `{Collation} `{Goque} `{Sealer} `{Entropy} `{Jwt} `{Argon2} `{AuthMethodFlags}.
Context (cfg : JWTConfig) (codes : Otp.Service).

(** Every token stands where it stood, at most revoked since. *)
Definition reached (R : list TokenRow) (db : DB) : Prop :=
  ∃ f, (∀ r, row_down r (f r)) ∧ refresh_tokens db = f <$> R.

Lemma row_down_refl r : row_down r r.
Proof. by split_and!. Qed.

Lemma row_down_trans r1 r2 r3 : row_down r1 r2 -> row_down r2 r3 -> row_down r1 r3.
Proof. unfold row_down. intros (? & ? & ? & ? & Hd1 & ?) (? & ? & ? & ? & Hd2 & ?). split_and!; [congruence..|auto|congruence]. Qed.

Lemma reached_refl db : reached (refresh_tokens db) db.
Proof. exists id. split; [intros r; apply row_down_refl|by rewrite list_fmap_id]. Qed.

Lemma keeps_still {A} I (m : M A) : (∀ ctx w, w_db (snd (m ctx w)) = w_db w) -> keeps I m (fun _ => True).
Proof. intros Hm ctx w Hw. split; [|done]. by rewrite Hm. Qed.

Lemma keeps_other {A} R (f : Stmt -> DB -> outcome (A * DB)) :
  (∀ s db a db', f s db = Ok (a, db') -> refresh_tokens db' = refresh_tokens db) -> keeps (reached R) (sql f) (fun _ => True).
Proof.
  intros Hf. apply keeps_sql. intros s db a db' (g & Hg & E) Hrun. split; [|done].
  exists g. split; [done|]. by rewrite (Hf _ _ _ _ Hrun).
Qed.

Lemma keeps_update_tokens {A} R (g : Stmt -> DB -> A) (f : Stmt -> TokenRow -> TokenRow) :
  (∀ s r, row_down r (f s r)) ->
  keeps (reached R) (sql (fun s db => Ok (g s db, db <| refresh_tokens := f s <$> refresh_tokens db |>))) (fun _ => True).
Proof.
  intros Hf. apply keeps_sql. intros s db a db' (h & Hh & E) [= <- <-]. split; [|done].
  exists (f s ∘ h). split; [intros r; exact (row_down_trans _ _ _ (Hh r) (Hf s (h r)))|]. simpl. by rewrite E, list_fmap_compose.
Qed.

Lemma revoked_down (p : TokenRow -> bool) now r :
  row_down r (if p r then r <| rt_Revoked := true |> <| rt_UpdatedAt := Some now |> else r).
Proof. destruct (p r); [|apply row_down_refl]. by destruct r. Qed.

Lemma keeps_revoke R p : keeps (reached R) (revoke p) (fun _ => True).
Proof. unfold revoke. apply keeps_update_tokens. intros s r. apply revoked_down. Qed.

Lemma kv_still {A} (f : Time -> list KVEntry -> A * list KVEntry) ctx w : w_db (snd (kv f ctx w)) = w_db w.
Proof. unfold kv. destruct (env_fault _); [done|]. by destruct (f _ _). Qed.

Lemma keeps_kv {A} I (f : Time -> list KVEntry -> A * list KVEntry) : keeps I (kv f) (fun _ => True).
Proof. apply keeps_still. intros. apply kv_still. Qed.

Lemma keeps_lock I userID : keeps I (LockUserSessions userID) (fun _ => True).
Proof.
  unfold LockUserSessions, AdvisoryXactLockOn. eapply keeps_bind; [apply keeps_in_tx|]. intros [] _; [|apply keeps_raise].
  apply keeps_wrap_err, keeps_query_any.
Qed.

Lemma keeps_locked {A} I userID (m : M A) Q : keeps I m Q -> keeps I (withUserSessionsLocked userID m) Q.
Proof. intros Hm. apply keeps_WithinTx. eapply keeps_bind; [apply keeps_lock|]. done. Qed.

Lemma keeps_exec {E A} (handle : ∀ X, E X -> M X) I (P : ∀ X, E X -> Prop) (p : Prog E A) :
  (∀ X op, P X op -> keeps I (handle X op) (fun _ => True)) -> calls_only P p -> keeps I (exec handle p) (fun _ => True).
Proof.
  intros Hh. induction 1 as [a|e|X op k Hop _ IH]; [by apply keeps_ret|by apply keeps_raise|].
  intros ctx w Hw. unfold wp. simpl. destruct (Hh X op Hop ctx w Hw) as [Hw' _].
  destruct (handle X op ctx w) as [[x|e|s] w1]; simpl in *; [by apply IH..|done].
Qed.

(** The calls that change which tokens there are. *)
Definition gentle_tok (X : Type) (op : TokenOp X) : Prop :=
  match op with TSave _ | TRotate _ _ _ | TPrune _ _ => False | _ => True end.
Definition gentle (X : Type) (op : AuthOp X) : Prop :=
  match op with
  | ATok op => gentle_tok _ op
  | AInstallPassword _ _ p => calls_only gentle_tok p
  | _ => True
  end.

Lemma keeps_bind_any {A B} I (m : M A) (k : A -> M B) :
  keeps I m (fun _ => True) -> (∀ a, keeps I (k a) (fun _ => True)) -> keeps I (m ≫= k) (fun _ => True).
Proof. intros Hm Hk. eapply keeps_bind; [exact Hm|]. intros a _. apply Hk. Qed.

Lemma keeps_attempt_any {A} I (m : M A) : keeps I m (fun _ => True) -> keeps I (attempt m) (fun _ => True).
Proof. intros Hm. eapply keeps_weaken; [by apply keeps_attempt|done]. Qed.

(** The parts of a handler, one at a time. *)
Ltac gentle_step :=
  match goal with
  | |- keeps _ (_ ≫= _) _ => apply keeps_bind_any; [|intros ?]
  | |- keeps _ (attempt _) _ => apply keeps_attempt_any
  | |- keeps _ (kv _) _ => apply keeps_kv
  | |- keeps _ (WithinTx _) _ => apply keeps_WithinTx
  | |- keeps _ (on_queue _) _ => apply keeps_other; intros ???? Hrun; case_hyp Hrun; by simplify_eq
  | |- keeps _ (goque_NewTask _ _ _) _ => apply keeps_goque_NewTask
  | |- keeps _ (Render _) _ => apply keeps_Render
  | |- keeps _ (at_step _) _ => apply keeps_still; by intros
  | |- keeps _ UTCNow _ => by apply keeps_UTCNow
  | |- keeps _ (query _) _ => apply keeps_query_any
  | |- keeps _ (if ?b then _ else _) _ => destruct b
  | _ => keeps_step
  end.

Lemma keeps_gentle_tok R X (op : TokenOp X) : gentle_tok X op -> keeps (reached R) (token_handle cfg X op) (fun _ => True).
Proof.
  destruct op; intros Hg; destruct Hg; cbn [token_handle].
  - by apply keeps_UTCNow.
  - by apply keeps_still.
  - by apply keeps_still.
  - gentle_step.
  - gentle_step.
  - unfold GetByTokenHash, TokenStore.get. repeat gentle_step; done.
  - apply keeps_other. by intros ???? [= <- <-].
  - apply keeps_locked. unfold RevokeFamily. apply keeps_bind_any; [apply keeps_revoke|]. intros ?. by apply keeps_ret.
  - apply keeps_locked, keeps_revoke.
  - apply keeps_locked, keeps_revoke.
  - apply keeps_locked. unfold GetByTokenHashForUpdate, TokenStore.get, reject_if, RevokeFamily.
    repeat (gentle_step || apply keeps_revoke); done.
  - unfold AddSessions. repeat gentle_step; done.
Qed.

Lemma keeps_gentle_otp R X (op : OtpOp X) : keeps (reached R) (otp_handle codes X op) (fun _ => True).
Proof.
  destruct op; cbn [otp_handle]; try (by apply keeps_still).
  - unfold GetByEmail, UserStore.get. repeat gentle_step; done.
  - unfold issue_in_tx, claimSlot, GetUnconsumedOTPByUserIDForUpdate, Credentials.get, ConsumeOTP, sealForDelivery,
      Schedule_now, ScheduleDelayed, AddTaskToQueue, Credentials.Create.
    repeat (gentle_step || (apply keeps_other; intros ???? Hrun; unfold require in Hrun; repeat case_hyp Hrun; by simplify_eq));
      done.
  - unfold GetUnconsumedOTPByUserID, Credentials.get. repeat gentle_step; done.
  - unfold ClaimOTPAttempt. apply keeps_bind_any; [by apply keeps_UTCNow|]. intros ?. apply keeps_other. by intros ???? [= <- <-].
  - unfold ConsumeOTP. apply keeps_bind_any; [by apply keeps_UTCNow|]. intros ?. apply keeps_other. by intros ???? [= <- <-].
  - apply keeps_other. by intros ???? [= <- <-].
  - apply keeps_other. intros ???? Hrun. unfold require in Hrun. repeat case_hyp Hrun; by simplify_eq.
Qed.

Lemma keeps_gentle R X (op : AuthOp X) : gentle X op -> keeps (reached R) (auth_handle cfg codes X op) (fun _ => True).
Proof.
  destruct op; intros Hg; cbn [auth_handle gentle] in *.
  - by apply keeps_gentle_tok.
  - apply keeps_gentle_otp.
  - assert (∀ lock, keeps (reached R) (got ← wrap_err (Errorf ("acquire lock " +:+ key))
        (kv (fun now l => if bool_decide (is_Some (kv_get now (dl_Key lock) l)) then (false, l)
                          else (true, kv_put (dl_Key lock) (KVText (dl_Token lock)) (now + ttl) l)));
      if (got : bool) then mret lock else raise ErrLockBusy) (fun _ => True)) as Hk by (intros; repeat gentle_step; done).
    intros ctx w Hw. by apply Hk.
  - unfold Release. repeat gentle_step; done.
  - unfold GetByID, UserStore.get. repeat gentle_step; done.
  - unfold GetByEmail, UserStore.get. repeat gentle_step; done.
  - unfold Add. repeat gentle_step; done.
  - unfold IsRevoked. repeat gentle_step; done.
  - unfold GetPasswordByUserID, Credentials.get. repeat gentle_step; done.
  - by apply keeps_still.
  - gentle_step.
  - gentle_step.
  - unfold install_tx. apply keeps_WithinTx, keeps_bind_any; [|intros ?; by eapply keeps_exec; [apply keeps_gentle_tok|]].
    apply keeps_wrap_err. unfold UpsertPassword. apply keeps_other. intros ???? Hrun. unfold require in Hrun.
    repeat case_hyp Hrun; by simplify_eq.
  - unfold Publish, AddTaskToQueue. repeat gentle_step; done.
Qed.

Lemma gentle_run X (op : AuthOp X) ctx w r w' :
  gentle X op -> auth_handle cfg codes X op ctx w = (r, w') -> reached (refresh_tokens (w_db w)) (w_db w').
Proof.
  intros Hg Hrun. eapply (keeps_run _ _ _ _ _ _ _ (keeps_gentle _ X op Hg) Hrun), reached_refl.
Qed.

(** A sign-in's token. *)
Lemma Save_run t ctx w r w' :
  Save t ctx w = (r, w') ->
  match r with
  | Ok _ => ∃ row, refresh_tokens (w_db w') = refresh_tokens (w_db w) ++ [row] ∧ rt_TokenHash row = Token t ∧
      rt_Family row = Family t ∧ rt_UserID row = t_UserID t ∧ rt_Revoked row = Revoked t ∧
      rt_SessionStartedAt row = pg_ts (t_SessionStartedAt t) ∧ rt_ExpiresAt row = pg_ts (t_ExpiresAt t) ∧
      Token t ∉ rt_TokenHash <$> refresh_tokens (w_db w)
  | _ => w_db w' = w_db w
  end.
Proof.
  unfold Save, sql. destruct (env_fault _); [by intros [= <- <-]|].
  destruct (_ : outcome (unit * DB)) as [[[] db']|e|p] eqn:E; intros [= <- <-]; try done.
  cbv zeta in E. apply require_Ok in E as [Hnew%negb_true_iff E]. apply require_Ok in E as [_ E]. injection E as <-.
  eexists. split_and!; try done. intros (r & Hh & Hr)%list_elem_of_fmap. apply not_true_iff_false in Hnew. destruct Hnew.
  apply existsb_exists. exists r. split; [by apply list_elem_of_In|]. simpl. by apply String.eqb_eq.
Qed.

Lemma rotate_run old grace succ w r w' :
  rotate_tx old grace succ background w = (r, w') ->
  match r with
  | Ok _ => ∃ now row, (∃ r0, r0 ∈ refresh_tokens (w_db w) ∧ rotatable (Token old) r0 = true) ∧
      refresh_tokens (w_db w') =
        ((fun r => if rotatable (Token old) r then rotated (Token succ) grace now r else r) <$> refresh_tokens (w_db w)) ++ [row] ∧
      rt_TokenHash row = Token succ ∧ rt_Family row = Family succ ∧ rt_UserID row = t_UserID succ ∧
      rt_SessionStartedAt row = pg_ts (t_SessionStartedAt succ) ∧ rt_ExpiresAt row = pg_ts (t_ExpiresAt succ) ∧
      Token succ ∉ rt_TokenHash <$> refresh_tokens (w_db w)
  | _ => w_db w' = w_db w
  end.
Proof.
  unfold rotate_tx. intros [(e & -> & Hdb)|(u & w2 & -> & Hdb & _ & Hrun)]%WithinTx_cases; [done|].
  run_all. assert (w_db w0 = w_db w) as Hw0.
  { by destruct (keeps_run _ _ _ _ _ _ _ (keeps_lock (fun db => db = w_db w) _) Hrun0 eq_refl). }
  unfold Rotate in Hrun. run_step Hrun. apply sql_Ok in Hrun1 as (db1 & [= <- <-] & ->).
  destruct (Nat.eqb _ 0) eqn:En; [done|]. injection Hrun3 as <- <-.
  apply Save_run in Hrun2 as (row & Hr & ? & ? & ? & _ & ? & ? & Hnew). rewrite Hdb, Hr. simpl in *. rewrite Hw0 in *. eexists _, row.
  split_and!; try done.
  - apply filter_hit. by rewrite En.
  - rewrite fmap_hash in Hnew; [done|]. intros r. apply rotated_down.
Qed.

Lemma prune_run cutoff limit ctx w r w' :
  PruneExpiredBefore cutoff limit ctx w = (r, w') ->
  ∃ p, refresh_tokens (w_db w') = List.filter p (refresh_tokens (w_db w)).
Proof.
  unfold PruneExpiredBefore, sql. destruct (env_fault _); intros [= <- <-]; [|simpl; eauto].
  exists (fun _ => true). simpl. by rewrite (forallb_filter_id (fun _ => true)) by (apply forallb_forall; done).
Qed.

Lemma revoke_Ok p ctx w l w' :
  revoke p ctx w = (Ok l, w') ->
  l = uniq (rt_Family <$> List.filter p (refresh_tokens (w_db w))) ∧
  ∀ r', r' ∈ refresh_tokens (w_db w') -> ∃ r, r ∈ refresh_tokens (w_db w) ∧ row_down r r' ∧ (p r = true -> rt_Revoked r' = true).
Proof.
  intros (db' & [= <- <-] & ->)%sql_Ok. split; [done|]. simpl. intros r' (r & -> & Hr)%list_elem_of_fmap.
  exists r. split_and!; [done|apply revoked_down|]. intros ->. by destruct r.
Qed.

Lemma locked_Ok {A} userID (m : M A) w a w' :
  withUserSessionsLocked userID m background w = (Ok a, w') ->
  ∃ w1 w2, m (mkCtx (Some (env_now (w_step w)))) w1 = (Ok a, w2) ∧ w_db w1 = w_db w ∧ w_db w' = w_db w2.
Proof.
  unfold withUserSessionsLocked. intros [(e & [=] & _)|(u & w2 & [= <-] & Hdb & _ & Hrun)]%WithinTx_cases.
  run_step Hrun. exists w0, w2. split_and!; [done| |done].
  by destruct (keeps_run _ _ _ _ _ _ _ (keeps_lock (fun db => db = w_db w) _) Hrun0 eq_refl).
Qed.

(** The sessions a revocation reports are over. *)
Lemma ended_run X (op : TokenOp X) w r w' l :
  (∀ r1 r2, r1 ∈ refresh_tokens (w_db w) -> r2 ∈ refresh_tokens (w_db w) -> rt_Family r1 = rt_Family r2 ->
     rt_UserID r1 = rt_UserID r2) ->
  token_handle cfg X op background w = (r, w') -> ended_of op r = Some l ->
  ∀ r', r' ∈ refresh_tokens (w_db w') -> rt_Family r' ∈ l -> rt_Revoked r' = true.
Proof.
  intros Hown Hrun He. destruct op; try done; destruct r as [x|?|?]; try done; injection He as <-;
    cbn [token_handle] in Hrun.
  - apply locked_Ok in Hrun as (w1 & w2 & Hrun & E1 & ->). unfold RevokeFamily in Hrun. run_step Hrun. injection Hrun1 as _ <-.
    apply revoke_Ok in Hrun0 as [_ Hr]. intros r' (r & Hin & Hd & Hv)%Hr Hf%list_elem_of_singleton.
    apply Hv, N.eqb_eq. rewrite <- Hf. symmetry. apply Hd.
  - apply locked_Ok in Hrun as (w1 & w2 & Hrun & E1 & ->). apply revoke_Ok in Hrun as [-> Hr]. rewrite E1 in Hr.
    intros r' (r & Hin & Hd & Hv)%Hr. rewrite elem_of_uniq, E1.
    intros (r1 & Hf & [Hr1 Hp]%elem_of_List_filter)%list_elem_of_fmap. apply Hv. apply N.eqb_eq in Hp as <-.
    apply N.eqb_eq, Hown; [done|done|]. rewrite <- Hf. symmetry. apply Hd.
  - apply locked_Ok in Hrun as (w1 & w2 & Hrun & E1 & ->). apply revoke_Ok in Hrun as [-> Hr]. rewrite E1 in Hr.
    intros r' (r & Hin & Hd & Hv)%Hr. rewrite elem_of_uniq, E1.
    intros (r1 & Hf & [Hr1 [Hp Hn]%andb_prop]%elem_of_List_filter)%list_elem_of_fmap. apply Hv.
    assert (rt_Family r = rt_Family r1) as Hff by (rewrite <- Hf; symmetry; apply Hd).
    apply andb_true_intro. split; [|by rewrite Hff]. apply N.eqb_eq in Hp as <-. by apply N.eqb_eq, Hown.
  - unfold revoke_by_token_tx in Hrun. apply locked_Ok in Hrun as (w1 & w2 & Hrun & E1 & ->).
    unfold RevokeFamily in Hrun. run_all. match goal with Hv : revoke _ _ _ = _ |- _ => apply revoke_Ok in Hv as [_ Hr] end.
    intros r' (r & Hin & Hd & Hv)%Hr Hf%list_elem_of_singleton. apply Hv, N.eqb_eq. rewrite <- Hf. symmetry. apply Hd.
Qed.

Lemma read_run hash ctx w t w' :
  GetByTokenHash hash ctx w = (Ok t, w') ->
  w_db w' = w_db w ∧ ∃ row, row ∈ refresh_tokens (w_db w) ∧ rt_TokenHash row = hash ∧ t = fromDBToken row.
Proof.
  unfold GetByTokenHash. intros Hrun. run_step Hrun. apply query_Ok in Hrun0 as (-> & Hdb & _). unfold TokenStore.get in Hrun1.
  destruct (find_token hash (w_db w)) as [row|] eqn:Ef; [|done]. injection Hrun1 as <- <-. split; [done|].
  apply find_some in Ef as [Hin Hh%String.eqb_eq]. exists row. by rewrite list_elem_of_In.
Qed.
End effects.

(** ** The discipline of the requests *)

(** A request saves at most one token, one it has drawn itself; a first token
    opens a session it has drawn, a successor continues the session of a token it
    has read; either is good for the lifetime of a refresh token from a moment
    the request has seen, at which a new session starts. *)
Definition sess_call (cfg : JWTConfig) (es : list (@Event AuthOp)) (X : Type) (op : AuthOp X) : Prop :=
  match op with
  | ATok (TSave t) => saved es = [] ∧ (∃ i, (i, Token t) ∈ gens es) ∧ (∃ i, (i, Family t) ∈ uuids es) ∧
      ∃ i now, (i, now) ∈ nows es ∧ t_ExpiresAt t = now + RefreshTokenTTL cfg ∧ t_SessionStartedAt t = now
  | ATok (TRotate old _ succ) =>
      saved es = [] ∧ (∃ i, (i, Token succ) ∈ gens es) ∧ (∃ i h, (i, (h, old)) ∈ reads es) ∧
      Family succ = Family old ∧ t_UserID succ = t_UserID old ∧ t_SessionStartedAt succ = t_SessionStartedAt old ∧
      ∃ i now, (i, now) ∈ nows es ∧ t_ExpiresAt succ = now + RefreshTokenTTL cfg
  | AInstallPassword _ _ p => calls_only gentle_tok p
  | _ => True
  end.

(** No two draws of the random generators coincide, nor with what there was. *)
Record draws_distinct (R0 : list TokenRow) (tr : list (@Event AuthOp)) : Prop := {
  dd_gens : NoDup (snd <$> gens tr);
  dd_uuids : NoDup (snd <$> uuids tr);
  dd_gens_new : ∀ h, h ∈ snd <$> gens tr -> h ∉ rt_TokenHash <$> R0;
  dd_uuids_new : ∀ f, f ∈ snd <$> uuids tr -> f ∉ rt_Family <$> R0 }.

Lemma draws_distinct_prefix R0 tr e : draws_distinct R0 (tr ++ [e]) -> draws_distinct R0 tr.
Proof.
  intros [D1 D2 D3 D4].
  assert (gens (tr ++ [e]) = gens tr ++ option_list (on_tok (@gen_of) e)) as Eg by apply omap_snoc.
  assert (uuids (tr ++ [e]) = uuids tr ++ option_list (on_tok (@uuid_of) e)) as Eu by apply omap_snoc.
  rewrite Eg, fmap_app in D1, D3. rewrite Eu, fmap_app in D2, D4.
  split; [by apply NoDup_app in D1 as [? _]|by apply NoDup_app in D2 as [? _]|..].
  - intros h Hh. apply D3. rewrite elem_of_app. by left.
  - intros f Hf. apply D4. rewrite elem_of_app. by left.
Qed.

Lemma saved_thread tr i h : (i, h) ∈ saved tr -> (i, h) ∈ saved (thread_events i tr).
Proof.
  unfold saved. rewrite !elem_of_app, !list_elem_of_fmap. intros [(x & E & Hx)|(x & E & Hx)]; [left|right];
    exists x; (split; [done|]); apply thread_omap; [done|by destruct x; injection E| done|by destruct x; injection E].
Qed.

Lemma firsts_thread tr i t : (i, t) ∈ firsts tr -> (i, Token t) ∈ saved (thread_events i tr).
Proof.
  intros Ht. apply saved_thread. unfold saved. apply elem_of_app. left. apply list_elem_of_fmap. by exists (i, t).
Qed.

Section fresh.
Context (R0 : list TokenRow) (tr : list (@Event AuthOp)) (R : list TokenRow).
Context (Hi : sess_inv R0 tr R) (Hd : draws_distinct R0 tr).

Lemma fresh_hash i j h :
  saved (thread_events i tr) = [] -> (j, h) ∈ gens (thread_events i tr) -> ~ known_hash R0 tr h ∧ (i, h) ∈ gens tr.
Proof.
  intros Hs [Hj Hg]%omap_thread. simpl in Hj. subst j. split; [|done]. intros [Hh|((k & h') & -> & Hk)%list_elem_of_fmap].
  - eapply (dd_gens_new _ _ Hd); [|exact Hh]. apply list_elem_of_fmap. by exists (i, h).
  - simpl in *. pose proof (v_src _ _ _ Hi _ Hk) as Hk'.
    assert ((k, h') = (i, h')) as [= ->] by (eapply (NoDup_fmap_2_elem snd); [exact (dd_gens _ _ Hd)|done..]).
    apply saved_thread in Hk. rewrite Hs in Hk. by apply not_elem_of_nil in Hk.
Qed.

Lemma fresh_family i j f :
  saved (thread_events i tr) = [] -> (j, f) ∈ uuids (thread_events i tr) -> ~ known_family R0 tr f ∧ (i, f) ∈ uuids tr.
Proof.
  intros Hs [Hj Hg]%omap_thread. simpl in Hj. subst j. split; [|done]. intros [Hh|((k & t) & -> & Hk)%list_elem_of_fmap].
  - eapply (dd_uuids_new _ _ Hd); [|exact Hh]. apply list_elem_of_fmap. by exists (i, f).
  - simpl in *. pose proof (v_first _ _ _ Hi _ _ Hk) as Hk'.
    assert ((k, Family t) = (i, Family t)) as [= ->] by (eapply (NoDup_fmap_2_elem snd); [exact (dd_uuids _ _ Hd)|done..]).
    apply firsts_thread in Hk. rewrite Hs in Hk. by apply not_elem_of_nil in Hk.
Qed.
End fresh.

Section step.
Context `{Env} `{Collation} `{Goque} `{Sealer} `{Entropy} `{Jwt} `{Argon2} `{AuthMethodFlags}.
Context (cfg : JWTConfig) (codes : Otp.Service) (R0 : list TokenRow).
Local Notation R w := (refresh_tokens (w_db w)).

(** A call that draws, reads or revokes. *)
Lemma gentle_step X (op : AuthOp X) w tr i r w' :
  gentle X op -> sess_inv R0 tr (R w) -> auth_handle cfg codes X op background w = (r, w') ->
  sess_inv R0 (tr ++ [Ev i op r]) (R w').
Proof.
  intros Hg Hi Hrun. destruct (gentle_run cfg codes _ _ _ _ _ _ Hg Hrun) as (f & Hf & Ef).
  assert (sess_inv R0 tr (R w')) as Hi' by (rewrite Ef; by apply inv_update).
  destruct op as [X op|X op| | | | | | | | | | | |]; try by apply inv_quiet.
  assert (∀ h (t : RefreshToken), read_of op r = Some (h, t) -> ∃ row, t = fromDBToken row ∧ row ∈ R w' ∧ rt_TokenHash row = h) as Hrd.
  { destruct op; try done. destruct r as [t|?|?]; try done. intros h t' [= <- <-]. cbn in Hrun.
    apply read_run in Hrun as (-> & row & Hin & Hh & ->). eauto. }
  assert (first_of op r = None ∧ rotation_of op r = None) as [Ho1 Ho2].
  { destruct op; try done; by destruct Hg. }
  assert (on_tok (@first_of) (Ev i (ATok op) r) = None) as E1 by (simpl; by rewrite Ho1).
  assert (on_tok (@rotation_of) (Ev i (ATok op) r) = None) as E2 by (simpl; by rewrite Ho2).
  destruct (read_of op r) as [[h t]|] eqn:Er.
  - destruct (Hrd h t eq_refl) as (row & -> & Hin & Hh). eapply inv_read; [simpl; by rewrite Er|done|done| |done|done|done].
    by destruct op.
  - apply inv_quiet; [simpl; by rewrite Er|done|done| |done]. intros j l. simpl.
    destruct (ended_of op r) as [l'|] eqn:El; [|done]. intros [= <- <-]. eapply ended_run; [|exact Hrun|exact El].
    intros r1 r2 ? ? E. by apply (v_owner _ _ _ Hi).
Qed.

Lemma sess_step X (op : AuthOp X) w tr i r w' :
  sess_call cfg (thread_events i tr) X op -> draws_distinct R0 tr -> sess_inv R0 tr (R w) ->
  auth_handle cfg codes X op background w = (r, w') -> sess_inv R0 (tr ++ [Ev i op r]) (R w').
Proof.
  intros Hc Hd Hi Hrun. destruct op as [X op|X op| | | | | | | | | | | |]; try by eapply gentle_step.
  destruct op; try by eapply gentle_step.
  - destruct Hc as (Hs & [j Hg] & [k Hu] & _). simpl in Hrun. apply Save_run in Hrun. destruct r as [[]|?|?];
      [|rewrite Hrun; by apply inv_quiet..].
    destruct Hrun as (row & -> & Hh & Hfam & _ & _ & Hst & _).
    destruct (fresh_hash _ _ _ Hi Hd _ _ _ Hs Hg). destruct (fresh_family _ _ _ Hi Hd _ _ _ Hs Hu).
    eapply inv_save; try done. rewrite Hst. apply pg_ts_idem.
  - destruct Hc as (Hs & [j Hg] & (k & h & Hrd) & Hf & Hu & Hst & _). simpl in Hrun. apply rotate_run in Hrun.
    destruct r as [[]|?|?]; [|rewrite Hrun; by apply inv_quiet..].
    destruct Hrun as (now & row & Hlive & -> & Hh & Hfam & Hus & Hrs & _).
    destruct (fresh_hash _ _ _ Hi Hd _ _ _ Hs Hg). apply omap_thread in Hrd as [_ Hrd].
    destruct (v_read _ _ _ Hi _ _ _ Hrd) as (Ht & _). subst h.
    eapply inv_rotate; try done; congruence.
  - simpl in Hrun. apply prune_run in Hrun as [p ->]. apply inv_quiet; [done..|]. eapply inv_shrink; [exact Hi|..].
    + apply NoDup_fmap_List_filter, (v_nodup _ _ _ Hi).
    + intros r' [Hin _]%elem_of_List_filter. exists r'. split; [done|apply row_down_refl].
Qed.
End step.

(** ** How long a token is good *)

(** A refresh token as this configuration issues it: it expires after the lifetime
    of a refresh token, and its session began by then (to the microsecond). *)
Definition issued_at (cfg : JWTConfig) (row : TokenRow) (issued : Time) : Prop :=
  rt_ExpiresAt row = pg_ts (issued + RefreshTokenTTL cfg) ∧ 2 * (rt_SessionStartedAt row - issued) <= Microsecond.

(** A request is shown a token of a session only once that session has begun: the
    client has it from the answer to an earlier request. *)
Definition causal (tr : list (@Event AuthOp)) : Prop := ∀ i now h t,
  (i, now) ∈ nows tr -> (i, (h, t)) ∈ reads tr -> 2 * (t_SessionStartedAt t - now) <= Microsecond.

Lemma causal_prefix tr e : causal (tr ++ [e]) -> causal tr.
Proof. intros Hc i now h t Hn Hr. apply (Hc i now h t); by apply omap_mono. Qed.
Lemma causal_thread tr i j k now h t :
  causal tr -> (j, now) ∈ nows (thread_events i tr) -> (k, (h, t)) ∈ reads (thread_events i tr) ->
  2 * (t_SessionStartedAt t - now) <= Microsecond.
Proof.
  intros Hc [E1 Hn]%omap_thread [E2 Hr]%omap_thread. simpl in E1, E2. subst. by eapply Hc.
Qed.

(** Every token of the table was issued so, and times are stored in whole
    microseconds, those that were read too. *)
Record issued_inv (cfg : JWTConfig) (tr : list (@Event AuthOp)) (R : list TokenRow) : Prop := {
  ii_nodup : NoDup (rt_TokenHash <$> R);
  ii_issued : ∀ r, r ∈ R -> pg_ts (rt_SessionStartedAt r) = rt_SessionStartedAt r ∧ ∃ issued, issued_at cfg r issued;
  ii_read : ∀ i h t, (i, (h, t)) ∈ reads tr -> pg_ts (t_SessionStartedAt t) = t_SessionStartedAt t }.

Lemma issued_inv_rows cfg tr R R' :
  issued_inv cfg tr R -> NoDup (rt_TokenHash <$> R') -> (∀ r', r' ∈ R' -> ∃ r, r ∈ R ∧ row_down r r') -> issued_inv cfg tr R'.
Proof.
  intros [G1 G2 G3] Hnd Hd. split; [done| |done]. intros r' (r & Hr & _ & _ & _ & Es & _ & Ee)%Hd.
  unfold issued_at. rewrite Es, Ee. by apply G2.
Qed.
Lemma issued_inv_map cfg tr R (f : TokenRow -> TokenRow) :
  (∀ r, row_down r (f r)) -> issued_inv cfg tr R -> issued_inv cfg tr (f <$> R).
Proof.
  intros Hf Hi. eapply issued_inv_rows; [exact Hi|rewrite fmap_hash by done; apply (ii_nodup _ _ _ Hi)|].
  intros r' (r & -> & Hr)%list_elem_of_fmap. eauto.
Qed.
Lemma issued_inv_add cfg tr R row issued :
  issued_inv cfg tr R -> rt_TokenHash row ∉ rt_TokenHash <$> R -> pg_ts (rt_SessionStartedAt row) = rt_SessionStartedAt row ->
  issued_at cfg row issued -> issued_inv cfg tr (R ++ [row]).
Proof.
  intros [G1 G2 G3] Hn Hts Hi. split; [| |done].
  - rewrite fmap_app. apply NoDup_app. split_and!; [done| |apply NoDup_singleton]. intros h Hh ->%list_elem_of_singleton. done.
  - intros r [Hr| ->%list_elem_of_singleton]%elem_of_app; [by apply G2|]. split; [done|by exists issued].
Qed.
(** An event that reads no token, or one of the table. *)
Lemma issued_inv_event cfg tr e R :
  (∀ i h t, on_tok (@read_of) e = Some (i, (h, t)) -> ∃ row, row ∈ R ∧ t = fromDBToken row) ->
  issued_inv cfg tr R -> issued_inv cfg (tr ++ [e]) R.
Proof.
  intros He [G1 G2 G3]. split; [done..|]. intros i h t. unfold reads. rewrite omap_snoc, elem_of_app. intros [Ht|Ht]; [by eapply G3|].
  destruct (on_tok (@read_of) e) as [[j [h' t']]|]; [|by apply elem_of_nil in Ht]. apply list_elem_of_singleton in Ht as [= -> -> ->].
  destruct (He _ _ _ eq_refl) as (row & Hin & ->). by apply G2.
Qed.

Section issued.
Context `{Env} `{Collation} `{Goque} `{Sealer} `{Entropy} `{Jwt} `{Argon2} `{AuthMethodFlags}.
Context (cfg : JWTConfig) (codes : Otp.Service).
Local Notation R w := (refresh_tokens (w_db w)).

Lemma issued_step X (op : AuthOp X) w tr i r w' :
  sess_call cfg (thread_events i tr) X op -> causal tr -> issued_inv cfg tr (R w) ->
  auth_handle cfg codes X op background w = (r, w') -> issued_inv cfg (tr ++ [Ev i op r]) (R w').
Proof.
  intros Hc Hca Hi Hrun.
  assert (gentle X op -> issued_inv cfg (tr ++ [Ev i op r]) (R w')) as Hgentle.
  { intros Hg. destruct (gentle_run cfg codes _ _ _ _ _ _ Hg Hrun) as (f & Hf & Ef). apply issued_inv_event; [|rewrite Ef; by apply issued_inv_map].
    intros j h t Hrd. destruct op as [X op|X op| | | | | | | | | | | |]; try done. destruct op; try done. destruct r as [x|?|?]; try done.
    injection Hrd as <- <- <-. cbn in Hrun. apply read_run in Hrun as (-> & row & Hin & _ & ->). eauto. }
  destruct op as [X op|X op| | | | | | | | | | | |]; try by apply Hgentle. destruct op; try by apply Hgentle.
  - destruct Hc as (_ & _ & _ & j & now & _ & He & Hst). simpl in Hrun. apply Save_run in Hrun.
    apply issued_inv_event; [done|]. destruct r as [[]|?|?]; [|by rewrite Hrun..].
    destruct Hrun as (row & -> & Hh & _ & _ & _ & Hrs & Hre & Hnew). rewrite Hst in Hrs. rewrite He in Hre.
    apply (issued_inv_add _ _ _ _ now); [done|by rewrite Hh|rewrite Hrs; apply pg_ts_idem|]. split; [done|].
    rewrite Hrs. pose proof (pg_ts_bounds now). lia.
  - destruct Hc as (_ & _ & (k & h & Hrd) & _ & _ & Hst & j & now & Hn & He). simpl in Hrun. apply rotate_run in Hrun.
    apply issued_inv_event; [done|]. destruct r as [[]|?|?]; [|by rewrite Hrun..].
    destruct Hrun as (now' & row & _ & -> & Hh & _ & _ & Hrs & Hre & Hnew). rewrite Hst in Hrs. rewrite He in Hre.
    pose proof (causal_thread _ _ _ _ _ _ _ Hca Hn Hrd) as Hlate. apply omap_thread in Hrd as [_ Hrd].
    pose proof (ii_read _ _ _ Hi _ _ _ Hrd) as Hts. rewrite Hts in Hrs.
    apply (issued_inv_add _ _ _ _ now); [apply issued_inv_map; [intros r; apply rotated_down|done]| |by rewrite Hrs|split; [done|by rewrite Hrs]].
    rewrite Hh, fmap_hash; [done|]. intros r. apply rotated_down.
  - simpl in Hrun. apply prune_run in Hrun as [p ->]. apply issued_inv_event; [done|]. eapply issued_inv_rows; [exact Hi|..].
    + apply NoDup_fmap_List_filter, (ii_nodup _ _ _ Hi).
    + intros r' [Hin _]%elem_of_List_filter. exists r'. split; [done|apply row_down_refl].
Qed.
End issued.

(** ** The requests keep the discipline *)

Definition calm_tok (X : Type) (op : TokenOp X) : Prop :=
  match op with TSave _ | TRotate _ _ _ => False | _ => True end.
Definition calm (X : Type) (op : AuthOp X) : Prop :=
  match op with
  | ATok op => calm_tok _ op
  | AInstallPassword _ _ p => calls_only gentle_tok p
  | _ => True
  end.

Lemma calm_sess_call cfg es X (op : AuthOp X) : calm X op -> sess_call cfg es X op.
Proof. destruct op; try done. by destruct op. Qed.

Lemma saved_app es1 es2 : saved es1 = [] -> saved es2 = [] -> saved (es1 ++ es2) = [].
Proof.
  unfold saved, firsts, rotations. rewrite !omap_app, !fmap_app. intros [E1 E2]%app_eq_nil [E3 E4]%app_eq_nil.
  by rewrite E1, E2, E3, E4.
Qed.

Lemma calm_saves_nothing es : Forall (fun e => match e with Ev _ op _ => calm _ op end) es -> saved es = [].
Proof.
  induction 1 as [|[i X op r] es Hop _ IH]; [done|]. apply (saved_app [Ev i op r]); [|done].
  destruct op; try done. destruct op; try done; by destruct Hop.
Qed.

Lemma calm_follows {A} (p : Prog AuthOp A) es q : calls_only calm p -> follows p es q -> saved es = [].
Proof. intros Hp Hf. by eapply calm_saves_nothing, calls_only_follows. Qed.

Lemma hist_calm {A} cfg (p : Prog AuthOp A) es : calls_only calm p -> calls_hist (sess_call cfg) es p.
Proof. intros Hp. eapply calls_hist_calm; [apply calm_sess_call|done]. Qed.

(** After a part that saves nothing. *)
Lemma hist_bind_calm {A B} cfg (p : Prog AuthOp A) (f : A -> Prog AuthOp B) es :
  saved es = [] -> calls_only calm p ->
  (∀ es' a, follows p es' (PRet a) -> saved (es ++ es') = [] -> calls_hist (sess_call cfg) (es ++ es') (f a)) ->
  calls_hist (sess_call cfg) es (p ≫= f).
Proof.
  intros Hs Hp Hf. apply calls_hist_bind; [by apply hist_calm|]. intros es' a Hfol. apply Hf; [done|].
  apply saved_app; [done|]. by eapply calm_follows.
Qed.

Lemma calm_of_tok {A} (p : Prog TokenOp A) : calls_only calm_tok p -> calls_only calm (tok p).
Proof. by apply calls_only_map_strong. Qed.

Lemma calm_of_otp {A} (p : Prog OtpOp A) : calls_only calm (otp p).
Proof. by apply calls_only_map. Qed.

(** Follow a program to its calls. *)
Ltac calls_step :=
  match goal with
  | |- calls_only _ (_ ≫= _) => apply calls_only_bind; [|intros ?]
  | |- calls_only _ (mret _) => constructor
  | |- calls_only _ (PRet _) => constructor
  | |- calls_only _ (PErr _) => constructor
  | |- calls_only _ (call _) => apply calls_call; [done|intros []; constructor]
  | |- calls_only _ (call_wrap _ _) => apply calls_call; [done|intros []; constructor]
  | |- calls_only _ (try_call _) => apply calls_call; [done|intros []; constructor]
  | |- calls_only _ (prog_try _) => apply calls_only_try
  | |- calls_only _ (prog_wrap _ _) => apply calls_only_wrap
  | |- calls_only calm (tok _) => apply calm_of_tok
  | |- calls_only calm (otp _) => apply calm_of_otp
  | |- calls_only _ (match ?x with _ => _ end) => destruct x
  end.
Ltac calm_tac := repeat calls_step.

Section discipline.
Context `{Jwt} `{Ozzo} (cfg : JWTConfig) (codes : Otp.Service) (decoy : string).

Lemma calm_IssueAccessToken ttl user sid : calls_only calm_tok (IssueAccessToken cfg ttl user sid).
Proof. unfold IssueAccessToken. calm_tac. Qed.

Lemma calm_Verify raw : calls_only calm_tok (VerifyAccessToken raw).
Proof. unfold VerifyAccessToken. calm_tac. Qed.

Lemma sweep_marks ids : calls_only gentle_tok (revokeSessionAccessTokens cfg ids).
Proof. unfold revokeSessionAccessTokens. calm_tac. Qed.

Lemma gentle_calm_tok {A} (p : Prog TokenOp A) : calls_only gentle_tok p -> calls_only calm_tok p.
Proof. induction 1 as [| |X op k Hop _ IH]; constructor; [by destruct op|done]. Qed.

Lemma sweep_family userID family : calls_only gentle_tok (RevokeRefreshTokenByFamily cfg userID family).
Proof. unfold RevokeRefreshTokenByFamily. calm_tac. apply sweep_marks. Qed.

Lemma sweep_user userID : calls_only gentle_tok (RevokeRefreshTokenByUserID cfg userID).
Proof. unfold RevokeRefreshTokenByUserID. calm_tac. apply sweep_marks. Qed.

Lemma sweep_others cmd : calls_only gentle_tok (revokeOtherSessions cfg cmd).
Proof.
  unfold revokeOtherSessions, FamilyByRefreshToken, RevokeRefreshTokenByUserIDExceptFamily.
  calm_tac; auto using sweep_user, sweep_marks.
Qed.

Lemma calm_by_token raw claims : calls_only calm_tok (RevokeFamilyByRefreshToken cfg raw claims).
Proof. unfold RevokeFamilyByRefreshToken. calm_tac. apply gentle_calm_tok, sweep_marks. Qed.

Lemma calm_publish action : calls_only calm (auth_publishAudit action).
Proof. unfold auth_publishAudit. calm_tac. Qed.

Lemma calm_logout raw f : (∀ claims, calls_only calm (f claims)) -> calls_only calm (logout cfg raw f).
Proof. intros Hf. unfold logout. calm_tac; auto using calm_Verify, calm_publish. Qed.

Lemma calm_Introspect raw : calls_only calm (Introspect raw).
Proof. unfold Introspect, isRevoked, activeSubject. calm_tac; apply calm_Verify. Qed.

Lemma calm_prune n cutoff limit : calls_only calm_tok (prune_tokens n cutoff limit).
Proof. induction n as [|n IH]; cbn [prune_tokens]; calm_tac. done. Qed.

Lemma calm_install userID password p : calls_only gentle_tok p -> calls_only calm (installPassword userID password p).
Proof. intros Hp. unfold installPassword. calm_tac. Qed.

Lemma gens_mono es es' x : x ∈ gens es -> x ∈ gens (es ++ es').
Proof. unfold gens. rewrite omap_app, elem_of_app. by left. Qed.

Lemma uuids_mono es es' x : x ∈ uuids es -> x ∈ uuids (es ++ es').
Proof. unfold uuids. rewrite omap_app, elem_of_app. by left. Qed.

Lemma reads_mono es es' x : x ∈ reads es -> x ∈ reads (es ++ es').
Proof. unfold reads. rewrite omap_app, elem_of_app. by left. Qed.

Lemma nows_mono es es' x : x ∈ nows es -> x ∈ nows (es ++ es').
Proof. unfold nows. rewrite omap_app, elem_of_app. by left. Qed.

Lemma nows_last es i now : (i, now) ∈ nows (es ++ [Ev i (ATok TNow) (Ok now)]).
Proof. unfold nows. rewrite omap_snoc, elem_of_app. right. by apply list_elem_of_singleton. Qed.

Lemma gens_last es i raw h : (i, h) ∈ gens (es ++ [Ev i (ATok TGenerate) (Ok (raw, h))]).
Proof. unfold gens. rewrite omap_snoc, elem_of_app. right. by apply list_elem_of_singleton. Qed.

Lemma hist_IssueTokenPair user ip es : saved es = [] -> calls_hist (sess_call cfg) es (IssueTokenPair cfg user ip).
Proof.
  intros Hs. unfold IssueTokenPair. cbv zeta.
  apply hist_bind_calm; [done|calm_tac|]. intros es1 family Hf1 Hs1. apply follows_call_op_inv in Hf1 as [i1 ->].
  assert ((i1, family) ∈ uuids (es ++ [Ev i1 (ATok TNewUUID) (Ok family)])) as Hu.
  { unfold uuids. rewrite omap_snoc, elem_of_app. right. by apply list_elem_of_singleton. }
  apply hist_bind_calm; [done|calm_tac; apply calm_IssueAccessToken|]. intros es2 accessToken _ Hs2.
  apply hist_bind_calm; [done|calm_tac|]. intros es3 [raw h] Hf3 Hs3. apply follows_call_wrap_inv in Hf3 as [i3 ->].
  apply hist_bind_calm; [done|calm_tac|]. intros es4 now Hf4 Hs4. apply follows_call_op_inv in Hf4 as [i4 ->].
  apply calls_hist_bind; [|intros; constructor]. apply calls_hist_wrap. apply ch_call; [|intros ? [|?|?]; constructor].
  split_and!; [done|..].
  - exists i3. apply gens_mono, gens_last.
  - exists i1. apply uuids_mono, uuids_mono, uuids_mono, Hu.
  - exists i4, now. split_and!; [apply nows_last|done..].
Qed.

Lemma hist_rotate old now ip es i h j :
  saved es = [] -> (i, (h, old)) ∈ reads es -> (j, now) ∈ nows es -> calls_hist (sess_call cfg) es (rotateRefreshToken cfg old now ip).
Proof.
  intros Hs Hr Hn. unfold rotateRefreshToken, sessionTTLsFor, issueAccessTokenByUserID.
  apply hist_bind_calm; [done|calm_tac|]. intros es1 ttls _ Hs1.
  destruct (_ <? _); [constructor|]. destruct (_ <? _); [constructor|].
  apply hist_bind_calm; [done|calm_tac; apply calm_IssueAccessToken|]. intros es2 accessToken _ Hs2.
  apply hist_bind_calm; [done|calm_tac|]. intros es3 [raw n] Hf3 Hs3. apply follows_call_wrap_inv in Hf3 as [i3 ->].
  apply calls_hist_bind; [|intros ? [?|e] _; [constructor|destruct (errors_Is _ _); constructor]].
  apply ch_call; [|intros ? [|?|?]; constructor]. split_and!; try done.
  - exists i3. apply gens_last.
  - exists i, h. by do 3 apply reads_mono.
  - exists j, now. split; [by do 3 apply nows_mono|done].
Qed.

Lemma calm_grace rt : calls_only calm (refreshWithinGrace cfg rt).
Proof. unfold refreshWithinGrace, sessionTTLsFor, issueAccessTokenByUserID. calm_tac. apply calm_IssueAccessToken. Qed.

Lemma calm_reuse now rt ip ua : calls_only calm (reuseRevoked cfg now rt ip ua).
Proof.
  unfold reuseRevoked, publishSessionRevoked. calm_tac; auto using calm_grace, calm_publish, gentle_calm_tok, sweep_family.
Qed.

Lemma hist_Refresh raw ip ua : calls_hist (sess_call cfg) [] (Refresh cfg raw ip ua).
Proof.
  unfold Refresh. apply hist_bind_calm; [done|calm_tac|]. intros es1 now Hf1 Hs1. cbv zeta. apply follows_call_op_inv in Hf1 as [j ->].
  apply hist_bind_calm; [done|calm_tac|]. intros es2 [lock|e] _ Hs2; [|constructor].
  apply calls_hist_bind; [|intros; apply hist_calm; calm_tac]. apply calls_hist_try. unfold refresh_locked.
  apply hist_bind_calm; [done|calm_tac|]. intros es3 [rt|e] Hf3 Hs3; [|constructor].
  destruct (_ && _); [constructor|]. destruct (Revoked rt); [by apply hist_calm, calm_reuse|].
  apply follows_try_call_inv in Hf3 as [i [(x & [= <-] & ->)|(x & [=] & _)]].
  eapply (hist_rotate _ _ _ _ i _ j); [done| |by do 2 apply nows_mono; apply (nows_last [])].
  unfold reads. rewrite omap_snoc, elem_of_app. right. by apply list_elem_of_singleton.
Qed.

Lemma calm_failure actor meta reason : calls_only calm (publishLoginFailure actor meta reason).
Proof. apply calm_publish. Qed.

Lemma hist_LoginWithOTP cmd : calls_hist (sess_call cfg) [] (LoginWithOTP cfg codes cmd).
Proof.
  unfold LoginWithOTP, methodOffered, publishOTPLoginFailure. apply hist_bind_calm; [done|calm_tac|]. intros es1 offered _ Hs1.
  destruct (negb offered); [apply hist_calm; calm_tac; apply calm_failure|].
  apply hist_bind_calm; [done|calm_tac|]. intros es2 v _ Hs2.
  destruct (v_err v); [apply hist_calm; calm_tac; apply calm_failure|]. destruct (v_user v) as [user|]; [|constructor].
  apply calls_hist_bind; [by apply calls_hist_try, hist_IssueTokenPair|].
  intros es3 [?|?] _; apply hist_calm; calm_tac; auto using calm_failure, calm_publish.
Qed.

Lemma hist_stored cmd user es : saved es = [] -> calls_hist (sess_call cfg) es (loginWithStoredPassword cfg cmd user).
Proof.
  intros Hs. unfold loginWithStoredPassword, publishPasswordLoginFailure.
  apply hist_bind_calm; [done|calm_tac|]. intros es1 [cred|e] _ Hs1; [|apply hist_calm; calm_tac].
  apply hist_bind_calm; [done|calm_tac|]. intros es2 [[]|e] _ Hs2; try (apply hist_calm; calm_tac; apply calm_failure).
  apply calls_hist_bind; [by apply calls_hist_try, hist_IssueTokenPair|].
  intros es3 [?|?] _; apply hist_calm; calm_tac; auto using calm_failure, calm_publish.
Qed.

Lemma hist_LoginWithPassword cmd : calls_hist (sess_call cfg) [] (LoginWithPassword cfg decoy cmd).
Proof.
  unfold LoginWithPassword, loginWithPassword, burnDecoyHash, publishPasswordLoginFailure.
  apply calls_hist_bind; [|intros; apply hist_calm; calm_tac; apply calm_publish].
  apply hist_bind_calm; [done|calm_tac|]. intros es1 r _ Hs1.
  apply calls_hist_bind.
  - destruct r as [user|e]; [|apply hist_calm; calm_tac]. unfold methodOffered.
    apply hist_bind_calm; [done|calm_tac|]. intros es2 [] _ Hs2; [|constructor].
    apply calls_hist_bind; [by apply hist_stored|]. intros. constructor.
  - intros es2 [?|] _; apply hist_calm; calm_tac. apply calm_failure.
Qed.

Lemma auth_program_discipline req : calls_hist (sess_call cfg) [] (auth_program cfg codes decoy req).
Proof.
  destruct req; unfold auth_program.
  - apply calls_hist_bind; [apply hist_Refresh|]. intros. constructor.
  - apply hist_calm. unfold Logout, revokeAccessTokenSession. calm_tac. apply calm_logout. intros claims. calm_tac;
      auto using calm_by_token, gentle_calm_tok, sweep_family.
  - apply hist_calm. unfold LogoutAll. calm_tac. apply calm_logout. intros claims. calm_tac;
      auto using gentle_calm_tok, sweep_user.
  - apply calls_hist_bind; [apply hist_LoginWithOTP|]. intros. constructor.
  - apply calls_hist_bind; [apply hist_LoginWithPassword|]. intros. constructor.
  - apply hist_calm. unfold ChangePassword, verifyCurrentPassword, requireFreshSession, GetRefreshToken. calm_tac;
      auto using calm_install, sweep_others, calm_publish.
  - apply hist_calm. unfold ResetPassword, publishOTPLoginFailure. calm_tac; auto using calm_failure, calm_publish.
    apply calm_install, calls_only_wrap, sweep_user.
  - apply hist_calm. calm_tac.
  - apply hist_calm. calm_tac. apply calm_Introspect.
  - apply hist_calm. unfold PruneRefreshTokens. calm_tac. apply calm_prune.
Qed.
End discipline.

(** ** Refreshing *)

Section refreshing.
Context `{Jwt} (cfg : JWTConfig).

Lemma issue_follows ttl user sid es s :
  follows (tok (IssueAccessToken cfg ttl user sid)) es (PRet s) ->
  IsBlocked user = false ∧ ∃ i claims, Ev i (ATok (TSign claims)) (Ok s) ∈ es ∧ cl_SessionID claims = uuid_String sid ∧
    cl_Subject claims = uuid_String (u_ID user) ∧ cl_UserRoles claims = u_Roles user.
Proof.
  intros (es' & -> & Hf)%follows_map_inv. unfold IssueAccessToken in Hf. destruct (IsBlocked user); [follow_step Hf|].
  destruct (N.eqb sid uuid_Nil); [follow_step Hf|]. split; [done|].
  follow_step Hf. follow_step Hf. follow_step Hf. eexists _, _.
  split; [do 2 apply list_elem_of_further; apply list_elem_of_here|by split_and!].
Qed.

Lemma ttls_follows userID es ttls :
  follows (sessionTTLsFor cfg userID) es (PRet ttls) ->
  ∃ i user, Ev i (AUserByID userID) (Ok user) ∈ es ∧ ttls = sessionTTLs cfg user.
Proof. intros Hf. unfold sessionTTLsFor in Hf. follow_step Hf. follow_step Hf. exists i, a. split; [set_solver|done]. Qed.

(** The access token of a refresh: minted for the session, for an owner who is
    not blocked. *)
Definition minted (userID family : UUID) (s : string) (es : list (@Event AuthOp)) : Prop :=
  ∃ i j user claims, Ev i (AUserByID userID) (Ok user) ∈ es ∧ IsBlocked user = false ∧
    Ev j (ATok (TSign claims)) (Ok s) ∈ es ∧ cl_SessionID claims = uuid_String family ∧
    cl_Subject claims = uuid_String (u_ID user).

Lemma minted_follows userID family ttl es s :
  follows (issueAccessTokenByUserID cfg userID family ttl) es (PRet s) -> minted userID family s es.
Proof.
  intros Hf. unfold issueAccessTokenByUserID in Hf. follow_step Hf.
  apply issue_follows in Hf as (Hb & j & claims & Hin & ? & ? & _). exists i, j, a, claims. split_and!; try done; set_solver.
Qed.

Lemma minted_mono userID family s es es' : minted userID family s es -> es ⊆ es' -> minted userID family s es'.
Proof. intros (i & j & user & claims & ? & ? & ? & ? & ?) Hs. exists i, j, user, claims. split_and!; auto. Qed.

Lemma grace_follows rt es p :
  follows (refreshWithinGrace cfg rt) es (PRet p) ->
  minted (t_UserID rt) (Family rt) (AccessToken p) es ∧ tp_RefreshToken p = ""%string ∧
  (∃ i, Ev i (ATok (THasLive (Family rt))) (Ok true) ∈ es) ∧
  ∃ i user, Ev i (AUserByID (t_UserID rt)) (Ok user) ∈ es ∧
    SessionExpiresAt p = sessionExpiresAt (t_SessionStartedAt rt) (maxLifetime (sessionTTLs cfg user)).
Proof.
  intros Hf. unfold refreshWithinGrace in Hf. follow_step Hf. destruct a; cbn [negb] in Hf; [|follow_step Hf].
  follow_step Hf. apply ttls_follows in Hf0 as (k & user & Hu & ->). follow_step Hf. apply minted_follows in Hf0.
  follow_step Hf. subst p. split_and!; [|done|exists i; set_solver|].
  - eapply minted_mono; [exact Hf0|set_solver].
  - exists k, user. split; [set_solver|done].
Qed.

Lemma rotate_follows old now ip es p :
  follows (rotateRefreshToken cfg old now ip) es (PRet p) ->
  minted (t_UserID old) (Family old) (AccessToken p) es ∧ Time_Sub now (t_CreatedAt old) <= SessionInactiveLifetime cfg ∧
  ∃ i user, Ev i (AUserByID (t_UserID old)) (Ok user) ∈ es ∧
    Time_Sub now (t_SessionStartedAt old) <= maxLifetime (sessionTTLs cfg user) ∧
    SessionExpiresAt p = sessionExpiresAt (t_SessionStartedAt old) (maxLifetime (sessionTTLs cfg user)) ∧
  ∃ j k hash, Ev j (ATok TGenerate) (Ok (tp_RefreshToken p, hash)) ∈ es ∧
    Ev k (ATok (TRotate old (now + RefreshTokenGracePeriod cfg)
      (newToken hash (t_UserID old) (Family old) (now + RefreshTokenTTL cfg) ip (t_SessionStartedAt old)))) (Ok tt) ∈ es.
Proof.
  intros Hf. unfold rotateRefreshToken in Hf. follow_step Hf. apply ttls_follows in Hf0 as (k & user & Hu & ->).
  destruct (Z.ltb_spec (SessionInactiveLifetime cfg) (Time_Sub now (t_CreatedAt old))); [follow_step Hf|].
  destruct (Z.ltb_spec (maxLifetime (sessionTTLs cfg user)) (Time_Sub now (t_SessionStartedAt old))); [follow_step Hf|].
  follow_step Hf. apply minted_follows in Hf0. follow_step Hf. destruct a0 as [raw hash].
  follow_step Hf; [|destruct (errors_Is _ _); follow_step Hf]. destruct x. follow_step Hf. subst p.
  split_and!; [eapply minted_mono; [exact Hf0|set_solver]|done|].
  exists k, user. split_and!; [set_solver|done|done|]. exists i, i0, hash. split; set_solver.
Qed.

(** Whatever its calls are answered, a refresh that returns a pair does so in
    one of two ways.  Either the token was live, idle and old within the limits,
    it was rotated in favour of a new one, which the client gets and which carries
    the owner, the session and the start of the session; or the token had been
    rotated before, its grace has not run out, its session still has a live token,
    and the client keeps the token it has.  In both, the access token is minted
    for that session and for an owner just read and not blocked, and the client is
    told an end of the session that no rotation moves. *)
Theorem Refresh_in_two_ways raw ip ua es p :
  follows (Refresh cfg raw ip ua) es (PRet p) ->
  ∃ i j now rt k user, Ev i (ATok TNow) (Ok now) ∈ es ∧ Ev j (ATok (TByHash (HashSha256 (bytes raw)))) (Ok rt) ∈ es ∧
    minted (t_UserID rt) (Family rt) (AccessToken p) es ∧ Ev k (AUserByID (t_UserID rt)) (Ok user) ∈ es ∧
    SessionExpiresAt p = sessionExpiresAt (t_SessionStartedAt rt) (maxLifetime (sessionTTLs cfg user)) ∧
    ((Revoked rt = false ∧ Time_Sub now (t_CreatedAt rt) <= SessionInactiveLifetime cfg ∧
      Time_Sub now (t_SessionStartedAt rt) <= maxLifetime (sessionTTLs cfg user) ∧
      ∃ l m hash, Ev l (ATok TGenerate) (Ok (tp_RefreshToken p, hash)) ∈ es ∧
        Ev m (ATok (TRotate rt (now + RefreshTokenGracePeriod cfg)
          (newToken hash (t_UserID rt) (Family rt) (now + RefreshTokenTTL cfg) ip (t_SessionStartedAt rt)))) (Ok tt) ∈ es) ∨
     (Revoked rt = true ∧ ReplacedBy rt ≠ None ∧ now < FromPtr zeroTime (GraceTTL rt) ∧
      tp_RefreshToken p = ""%string ∧ ∃ l, Ev l (ATok (THasLive (Family rt))) (Ok true) ∈ es)).
Proof.
  intros Hf. unfold Refresh in Hf. follow_step Hf. cbv zeta in Hf. follow_step Hf; [|follow_step Hf].
  follow_step Hf; [|follow_step Hf; follow_step Hf].
  assert (p = x0) as -> by (follow_step Hf; follow_step Hf; done).
  match goal with |- context [[Ev i (ATok TNow) (Ok a)] ++ ?l] => set (all := [Ev i (ATok TNow) (Ok a)] ++ l) end.
  assert (es ⊆ all) as Hsub by set_solver. assert (Ev i (ATok TNow) (Ok a) ∈ all) as Hnow by set_solver. clearbody all. clear Hf.
  unfold refresh_locked in Hf0. follow_step Hf0; [|follow_step Hf0]. rename x1 into rt.
  assert (Ev i1 (ATok (TByHash (HashSha256 (bytes raw)))) (Ok rt) ∈ all) as Hrd by set_solver.
  destruct (Revoked rt) eqn:Erev; cbn [andb] in Hf0.
  - destruct (decide (ReplacedBy rt = None)) as [E|E]; [rewrite bool_decide_eq_true_2 in Hf0 by done; follow_step Hf0|].
    rewrite bool_decide_eq_false_2 in Hf0 by done. unfold reuseRevoked in Hf0.
    destruct (Before a _) eqn:Eb; last first.
    { follow_step Hf0; follow_step Hf0; follow_step Hf0. }
    apply Z.ltb_lt in Eb. apply grace_follows in Hf0 as (Hm & Hr & [l Hl] & k & user & Hu & Hexp).
    exists i, i1, a, rt, k, user. split_and!; [done|done|eapply minted_mono; [exact Hm|set_solver]|set_solver|done|].
    right. split_and!; [done..|]. exists l. set_solver.
  - apply rotate_follows in Hf0 as (Hm & Hidle & k & user & Hu & Hage & Hexp & l & m & hash & Hg & Hrot).
    exists i, i1, a, rt, k, user. split_and!; [done|done|eapply minted_mono; [exact Hm|set_solver]|set_solver|done|].
    left. split_and!; [done..|]. exists l, m, hash. split; set_solver.
Qed.

(** What the gate has seen of a token it lets through: that it parses and is
    valid, that it is not revoked, and whose it is. *)
Definition vouched `{Jwt} (raw : string) (es : list Event) (i j k : nat) (claims : AccessClaims) (userID : UUID) (user : User) : Prop :=
  Ev i (ATok (TParse raw)) (Ok (claims, true)) ∈ es ∧ cl_ID claims ≠ ""%string ∧
  Ev j (AIsRevoked (cl_ID claims) (cl_SessionID claims)) (Ok false) ∈ es ∧
  uuid_Parse (cl_Subject claims) = inl userID ∧ Ev k (AUserByID userID) (Ok user) ∈ es ∧ IsBlocked user = false.

(** The gate in front of every mutation fails closed.  Whatever its calls are
    answered, it lets a request through only if the token parsed and is valid, has
    an id, is revoked neither by itself nor through its session, and its subject
    is a user just read and not blocked; and the roles it answers with are the
    stored ones, not those of the token. *)
Theorem EnsureActiveToken_fails_closed raw es roles :
  follows (EnsureActiveToken raw) es (PRet roles) ->
  ∃ i j k claims userID user, vouched raw es i j k claims userID user ∧ roles = u_Roles user.
Proof.
  intros Hf. unfold EnsureActiveToken in Hf. follow_step Hf. destruct (ir_Active a) eqn:Ea; cbn [negb] in Hf; [|follow_step Hf].
  follow_step Hf. subst roles. unfold Introspect in Hf0. follow_step Hf0; [|follow_step Hf0; by subst a].
  apply follows_map_inv in Hf1 as (es2 & -> & Hv). unfold VerifyAccessToken in Hv.
  follow_step Hv; [|destruct (errors_Is _ _); follow_step Hv]. destruct x0 as [claims []]; cbn [negb] in Hv; [|follow_step Hv].
  follow_step Hv. subst x. destruct (String.eqb_spec (cl_ID claims) ""); [follow_step Hf0; by subst a|].
  unfold isRevoked in Hf0. follow_step Hf0. destruct a0; [follow_step Hf0; by subst a|].
  follow_step Hf0. unfold activeSubject in Hf1.
  destruct (uuid_Parse (cl_Subject claims)) as [userID|e] eqn:Ep; [|follow_step Hf1; subst a0; follow_step Hf0; by subst a].
  follow_step Hf1; [|destruct (errors_Is _ _); follow_step Hf1; subst a0; follow_step Hf0; by subst a].
  destruct (IsBlocked x) eqn:Eb; follow_step Hf1; subst a0; [follow_step Hf0; by subst a|].
  destruct (cl_ExpiresAt claims); follow_step Hf0. subst a.
  exists i, i0, i1, claims, userID, x. split; [|done]. unfold vouched. split_and!; try done; set_solver.
Qed.
End refreshing.

(** ** The guarantees *)

(** A table the requests may start from; the empty one is. *)
Record sound_tokens (R : list TokenRow) : Prop := {
  st_nodup : NoDup (rt_TokenHash <$> R);
  st_ts : ∀ r, r ∈ R -> pg_ts (rt_SessionStartedAt r) = rt_SessionStartedAt r;
  st_live : ∀ r1 r2, r1 ∈ R -> r2 ∈ R -> rt_Family r1 = rt_Family r2 -> rt_Revoked r1 = false -> rt_Revoked r2 = false -> r1 = r2;
  st_owner : ∀ r1 r2, r1 ∈ R -> r2 ∈ R -> rt_Family r1 = rt_Family r2 ->
    rt_UserID r1 = rt_UserID r2 ∧ rt_SessionStartedAt r1 = rt_SessionStartedAt r2 }.

Section promises.
Context `{Env} `{Collation} `{Goque} `{Sealer} `{Entropy} `{Jwt} `{Argon2} `{AuthMethodFlags} `{Ozzo}.
Context (cfg : JWTConfig) (codes : Otp.Service) (decoy : string).

Definition auth_arrives (p : Prog AuthOp AuthResult) : Prop := ∃ req, p = auth_program cfg codes decoy req.

(** C8. However refreshes, sign-ins, sign-outs, password changes and prunings
    interleave, and whether or not the distributed lock holds: a session never has
    two live refresh tokens; the tokens of a session belong to one user and carry
    the moment the session started; a token is rotated at most once; and from the
    moment a revocation has reported a session ended, no token of it is live,
    ever again.  Draws of the random generators are assumed distinct. *)
Theorem sessions_safe w0 c :
  let R0 := refresh_tokens (w_db w0) in
  let R := refresh_tokens (w_db (cf_world c)) in
  sound_tokens R0 -> reachable (auth_handle cfg codes) auth_arrives w0 c -> draws_distinct R0 (cf_trace c) ->
  (∀ r1 r2, r1 ∈ R -> r2 ∈ R -> rt_Family r1 = rt_Family r2 -> rt_Revoked r1 = false -> rt_Revoked r2 = false -> r1 = r2) ∧
  (∀ r1 r2, r1 ∈ R -> r2 ∈ R -> rt_Family r1 = rt_Family r2 ->
     rt_UserID r1 = rt_UserID r2 ∧ rt_SessionStartedAt r1 = rt_SessionStartedAt r2) ∧
  NoDup (Token ∘ fst ∘ snd <$> rotations (cf_trace c)) ∧
  (∀ family, ended R0 (cf_trace c) family -> ∀ r, r ∈ R -> rt_Family r = family -> rt_Revoked r = true).
Proof.
  intros R0 R [S1 S2 S3 S4] Hr Hd.
  assert (sess_inv R0 (cf_trace c) R) as [_ _ G2 G3 _ _ _ _ _ G9 G10]; [|by split_and!]. revert Hd.
  apply (reachable_inv_hist _ _ _ (sess_call cfg) (fun w tr => draws_distinct R0 tr -> sess_inv R0 tr (refresh_tokens (w_db w))) _ Hr).
  - intros p [req ->]. apply auth_program_discipline.
  - intros _. split; try done.
    + intros r Hin. split; left; by apply list_elem_of_fmap_2.
    + intros i t Hp. by apply not_elem_of_nil in Hp.
    + intros i h t Hp. by apply not_elem_of_nil in Hp.
    + intros i o n Hp. by apply not_elem_of_nil in Hp.
    + constructor.
    + intros f (tr1 & e & tr2 & i & l & E & _). by destruct tr1.
  - intros w tr i X op r w' Hc IH Hrun Hd%draws_distinct_prefix. eapply sess_step; eauto.
Qed.

(** Every refresh token there ever is was issued by the configuration: from an
    empty table, whatever requests came. *)
Lemma tokens_issued w0 c :
  refresh_tokens (w_db w0) = [] -> reachable (auth_handle cfg codes) auth_arrives w0 c -> causal (cf_trace c) ->
  issued_inv cfg (cf_trace c) (refresh_tokens (w_db (cf_world c))).
Proof.
  intros Hempty Hr. apply (reachable_inv_hist _ _ _ (sess_call cfg) (fun w tr => causal tr -> issued_inv cfg tr (refresh_tokens (w_db w))) _ Hr).
  - intros p [req ->]. apply auth_program_discipline.
  - intros _. rewrite Hempty. split; [constructor|..]; [by intros r Hin%elem_of_nil|]. intros i h t Hin. by apply elem_of_nil in Hin.
  - intros w tr i X op r w' Hc IH Hrun Hd%causal_prefix. eapply issued_step; eauto.
Qed.
End promises.

(** A lock that does not hold: two refreshes of one token run side by side, one
    of them wins; then every session of the user is ended. *)
Definition ex_jwt : Jwt := {|
  jwt_NewNumericDate := Truncate_Second;
  jwt_SignedString := fun _ _ claims => inl (cl_SessionID claims);
  jwt_ParseWithClaims := fun _ _ _ => inl (mkClaims "Ann" "ann@example.com" [] "" "jti" (uuid_String 11) "" T0 (Some (at_min 5)), true);
  jwt_ErrTokenExpired := EOther "token is expired";
  uuid_Parse := fun s => if String.eqb s (uuid_String 11) then inl 11%N else inr (EOther "uuid") |}.
Definition ex_flags : AuthMethodFlags := {| method_enabled := fun _ _ => inl true |}.
Definition ex_ozzo : Ozzo := {|
  Required_string := fun s => negb (String.eqb s ""); Required_uuid := fun _ => true; Required_int := fun _ => true;
  Required_time := fun _ => true; Required_period := fun _ => true; Required_slice := fun _ => true;
  NilOrNotEmpty_string := fun _ => true; NilOrNotEmpty_uuid := fun _ => true; NilOrNotEmpty_time := fun _ => true;
  Length := fun lo hi n => (lo <=? Z.of_nat n) && (Z.of_nat n <=? hi); Min := fun _ _ => true; In_string := fun l s => String.eqb s "" || bool_decide (s ∈ l); url_Parse := fun _ => None |}.
Definition ex_draws : Entropy := {| entropy := fun n => repeat (ascii_of_nat n) 64 |}.
Definition ex_jwt_cfg : JWTConfig := mkJWTConfig "maintmode" "k1" (5 * Minute) (10 * Hour) (24 * Hour) (30 * Day) (30 * Second) 0.
Definition ex_session_world : World :=
  mkWorld (ex_db <| users := [mkUserRow 11 "ann@example.com" "Ann" [] T0 None None None None] |>
             <| refresh_tokens := [mkTokenRow (HashSha256 (bytes "raw")) 11 500 (at_min 5000) None false None T0 None T0 ""] |>) 0 [] [].
Definition ex_sessions (l : list nat) : Conf :=
  run_schedule (@auth_handle calm_env c_collation list_goque ex_sealer ex_draws ex_jwt ex_argon2 ex_flags ex_jwt_cfg
      (NewService ex_otp_cfg))
    [@auth_program ex_jwt ex_ozzo ex_jwt_cfg (NewService ex_otp_cfg) "" (RefreshReq "raw" "ip1" "");
     @auth_program ex_jwt ex_ozzo ex_jwt_cfg (NewService ex_otp_cfg) "" (RefreshReq "raw" "ip2" "");
     @auth_program ex_jwt ex_ozzo ex_jwt_cfg (NewService ex_otp_cfg) "" (LogoutAllReq "access")]
    ex_session_world l.
Definition ex_schedule : list nat := (repeat 0 5 ++ repeat 1 10 ++ repeat 0 6 ++ repeat 1 1 ++ repeat 2 5)%nat.

Lemma ex_sessions_reachable l :
  reachable (@auth_handle calm_env c_collation list_goque ex_sealer ex_draws ex_jwt ex_argon2 ex_flags ex_jwt_cfg (NewService ex_otp_cfg))
    (@auth_arrives ex_jwt ex_ozzo ex_jwt_cfg (NewService ex_otp_cfg) "") ex_session_world (ex_sessions l).
Proof. apply run_schedule_reachable. repeat constructor; by eexists. Qed.

Lemma sessions_safe_witness :
  length (rotations (cf_trace (ex_sessions ex_schedule))) = 1%nat ∧
  rt_Revoked <$> refresh_tokens (w_db (cf_world (ex_sessions ex_schedule))) = [true; true] ∧
  NoDup (Token ∘ fst ∘ snd <$> rotations (cf_trace (ex_sessions ex_schedule))).
Proof.
  split; [vm_compute; reflexivity|]. split; [vm_compute; reflexivity|].
  refine (proj1 (proj2 (proj2 (@sessions_safe calm_env c_collation list_goque ex_sealer ex_draws ex_jwt ex_argon2 ex_flags
    ex_ozzo ex_jwt_cfg (NewService ex_otp_cfg) "" ex_session_world (ex_sessions ex_schedule) _ (ex_sessions_reachable _) _)))).
  - split; [decide_now|..].
    + intros r ->%list_elem_of_singleton. done.
    + by intros r1 r2 ->%list_elem_of_singleton ->%list_elem_of_singleton.
    + by intros r1 r2 ->%list_elem_of_singleton ->%list_elem_of_singleton.
  - split; [decide_now|decide_now|..].
    + apply Forall_forall. decide_now.
    + apply Forall_forall. decide_now.
Defined.

Lemma Refresh_in_two_ways_witness : ∃ es p,
  follows (@Refresh ex_jwt ex_jwt_cfg "raw" "ip" "") es (PRet p) ∧ ExpiresIn p = 300 ∧
  ∃ i now, Ev i (ATok TNow) (Ok now) ∈ es.
Proof.
  assert (∃ p w', @exec AuthOp (@auth_handle calm_env c_collation list_goque ex_sealer ex_draws ex_jwt ex_argon2 ex_flags ex_jwt_cfg
    (NewService ex_otp_cfg)) _ (@Refresh ex_jwt ex_jwt_cfg "raw" "ip" "") background ex_session_world = (Ok p, w') ∧ ExpiresIn p = 300)
    as (p & w' & Hrun & Hexp) by (eexists _, _; split; [vm_compute; reflexivity|reflexivity]).
  apply exec_follows in Hrun as [es Hes]. exists es, p. split; [exact Hes|]. split; [exact Hexp|].
  destruct (@Refresh_in_two_ways ex_jwt ex_jwt_cfg _ _ _ _ _ Hes) as (i & j & now & rt & k & user & Hnow & _).
  exact (ex_intro _ i (ex_intro _ now Hnow)).
Defined.

(** ** Running a program alone *)
Section exec.
Context {E : Type -> Type} (handle : ∀ X, E X -> M X).

Lemma exec_bind {A B} (p : Prog E A) (f : A -> Prog E B) ctx w :
  exec handle (p ≫= f) ctx w = (exec handle p ≫= fun a => exec handle (f a)) ctx w.
Proof.
  revert w. induction p as [a|e|X op k IH]; intros w; [done..|].
  unfold mbind, M_bind in *. simpl. destruct (handle X op ctx w) as [[x|e|s] w1]; [apply IH..|done].
Qed.

Lemma exec_call_wrap {X} g (op : E X) ctx w :
  exec handle (call_wrap g op) ctx w = wrap_err g (handle X op) ctx w.
Proof. unfold wrap_err. simpl. by destruct (handle X op ctx w) as [[x|e|s] w1]. Qed.

Lemma exec_call {X} (op : E X) ctx w : exec handle (call op) ctx w = handle X op ctx w.
Proof. simpl. by destruct (handle X op ctx w) as [[x|e|s] w1]. Qed.

Lemma exec_wrap {A} g (p : Prog E A) ctx w : exec handle (prog_wrap g p) ctx w = wrap_err g (exec handle p) ctx w.
Proof.
  unfold prog_wrap. rewrite exec_bind. unfold mbind, M_bind, wrap_err. revert w.
  induction p as [a|e|X op k IH]; intros w; [done..|]. simpl. destruct (handle X op ctx w) as [[x|e|s] w1]; [apply IH..|done].
Qed.
Lemma exec_try {A} (p : Prog E A) ctx w : exec handle (prog_try p) ctx w = attempt (exec handle p) ctx w.
Proof.
  unfold attempt. revert w. induction p as [a|e|X op k IH]; intros w; [done..|]. simpl.
  destruct (handle X op ctx w) as [[x|e|s] w1]; [apply IH..|done].
Qed.
End exec.

(** ** A new password whose transaction fails *)

Lemma uuid_String_filled u : String.eqb (uuid_String u) "" = false.
Proof. apply String.eqb_neq. unfold uuid_String. intros E%(f_equal bytes). unfold bytes in E at 1. rewrite list_ascii_of_string_of_list_ascii in E.
  by apply app_eq_nil in E as [_ ?].
Qed.

Section marks.
Context `{Env}.

(** An entry is found until it expires, whatever else is put. *)
Lemma kv_put_found now key key' v expires l :
  now < expires -> is_Some (kv_get now key l) ∨ key' = key -> is_Some (kv_get now key (kv_put key' v expires l)).
Proof.
  intros Hlt Hor. unfold kv_get, kv_put. simpl. unfold kv_live at 1. simpl. destruct (String.eqb_spec key' key) as [->|Hne]; simpl.
  - apply Z.ltb_lt in Hlt. rewrite Hlt. by eexists.
  - destruct Hor as [Hl|]; [|done]. unfold kv_get in Hl. apply fmap_is_Some in Hl. apply fmap_is_Some. clear -Hl Hne.
    induction l as [|e l IH]; [done|]. simpl in *. destruct (String.eqb_spec (kv_Key e) key') as [E|]; simpl.
    + apply IH. unfold kv_live in Hl at 1. destruct (String.eqb_spec (kv_Key e) key); [congruence|done].
    + destruct (kv_live now key e); [by eexists|by apply IH].
Qed.
Lemma fold_marks now (id : UUID) ids expires l :
  now < expires -> id ∈ ids ∨ is_Some (kv_get now (sessionKeyPrefix +:+ uuid_String id) l) ->
  is_Some (kv_get now (sessionKeyPrefix +:+ uuid_String id)
    (fold_left (fun l id => kv_put (sessionKeyPrefix +:+ uuid_String id) (KVText "1") expires l) ids l)).
Proof.
  intros Hlt. revert l. induction ids as [|x ids IH]; intros l; simpl; [by intros [Hin%elem_of_nil|?]|].
  intros Hor. apply IH. destruct Hor as [[->|Hin]%elem_of_cons|Hl]; [right; apply kv_put_found; [done|by right]|by left|
    right; apply kv_put_found; [done|by left]].
Qed.
Lemma AddSessions_step ttl ids ctx w r w' : AddSessions ttl ids ctx w = (r, w') -> 0 < ttl -> length ids ≠ 0%nat -> w_step w' = S (w_step w).
Proof.
  unfold AddSessions. intros Hrun Ht Hn. destruct (Z.leb_spec ttl 0); [lia|]. apply Nat.eqb_neq in Hn. rewrite Hn in Hrun.
  unfold wrap_err, kv in Hrun. simpl in Hrun. destruct (env_fault (w_step w)); by injection Hrun as <- <-.
Qed.
Lemma AddSessions_marks ttl ids ctx w r w' id now :
  AddSessions ttl ids ctx w = (r, w') -> 0 < ttl -> env_fault (w_step w) = None -> id ∈ ids -> now < env_now (w_step w) + ttl ->
  is_Some (kv_get now (sessionKeyPrefix +:+ uuid_String id) (w_kv w')).
Proof.
  unfold AddSessions. intros Hrun Ht Hf Hin Hlt. destruct (Z.leb_spec ttl 0); [lia|]. destruct ids as [|x ids]; [by apply elem_of_nil in Hin|].
  cbn [length Nat.eqb orb] in Hrun. unfold wrap_err, kv in Hrun. rewrite Hf in Hrun. injection Hrun as <- <-.
  apply (fold_marks now id (x :: ids)); [done|by left].
Qed.
(** A mark refuses every access token of the session. *)
Lemma IsRevoked_marked jti id ctx w :
  env_fault (w_step w) = None -> is_Some (kv_get (env_now (w_step w)) (sessionKeyPrefix +:+ uuid_String id) (w_kv w)) ->
  fst (IsRevoked jti (uuid_String id) ctx w) = Ok true.
Proof.
  intros Hf Hm. unfold IsRevoked, wrap_err, kv. rewrite Hf, uuid_String_filled. simpl. rewrite (bool_decide_eq_true_2 _ Hm).
  by rewrite orb_true_r.
Qed.
End marks.

Section stranded.
Context `{Env} `{Entropy} `{Jwt} `{Ozzo} (cfg : JWTConfig).

(** The lock of a transaction that is under way. *)
Lemma locked_in_tx {A} userID (m : M A) now w a w' :
  withUserSessionsLocked userID m (mkCtx (Some now)) w = (Ok a, w') ->
  ∃ w1, m (mkCtx (Some now)) w1 = (Ok a, w') ∧ w_db w1 = w_db w ∧ w_step w1 = S (w_step w).
Proof.
  unfold withUserSessionsLocked, WithinTx, TxFromContext. simpl. intros (u & w1 & Hl & Hm)%bind_Ok. exists w1. split; [done|].
  unfold LockUserSessions, AdvisoryXactLockOn in Hl. apply bind_Ok in Hl as (b & w2 & [= <- <-] & Hl). simpl in Hl.
  by apply wrap_err_Ok, sql_Ok in Hl as (db' & [= <- <-] & ->).
Qed.

(** Sessions that are revoked are marked, in the same breath. *)
Lemma revoke_marks (op : TokenOp (list UUID)) userID p now w u w' :
  (∀ ctx w, token_handle cfg _ op ctx w = withUserSessionsLocked userID (revoke p) ctx w) ->
  0 < revokedSessionTTL cfg -> (∀ k, (k < w_step w')%nat -> env_fault k = None) ->
  exec (token_handle cfg) (families ← call op; revokeSessionAccessTokens cfg families) (mkCtx (Some now)) w = (Ok u, w') ->
  ∃ k, (w_step w <= k < w_step w')%nat ∧ ∀ row, row ∈ refresh_tokens (w_db w) -> p row = true ->
    ∀ at_, at_ < env_now k + revokedSessionTTL cfg -> is_Some (kv_get at_ (sessionKeyPrefix +:+ uuid_String (rt_Family row)) (w_kv w')).
Proof.
  intros Hop Ht Hf. rewrite exec_bind. intros (families & w1 & Hr & Hm)%bind_Ok. rewrite exec_call, Hop in Hr.
  apply locked_in_tx in Hr as (w2 & Hr & Hdb & Hs). pose proof Hr as (db' & _ & ->)%sql_Ok. apply revoke_Ok in Hr as [-> _].
  rewrite Hdb in Hm. unfold revokeSessionAccessTokens in Hm.
  set (ids := uniq _) in Hm.
  assert (∀ row, row ∈ refresh_tokens (w_db w) -> p row = true -> rt_Family row ∈ ids) as Hids.
  { intros row Hin Hp. unfold ids. rewrite elem_of_uniq. apply list_elem_of_fmap_2. by apply elem_of_List_filter. }
  clearbody ids. destruct (Nat.eqb_spec (length ids) 0) as [E|Hn].
  - injection Hm as _ <-. exists (w_step w). split; [simpl; lia|]. intros row Hin Hp. specialize (Hids row Hin Hp).
    destruct ids; [by apply elem_of_nil in Hids|done].
  - rewrite exec_bind in Hm. apply bind_Ok in Hm as (r & w3 & Hadd & [= _ <-]).
    assert (∃ o, AddSessions (revokedSessionTTL cfg) ids (mkCtx (Some now)) (tick w2 <| w_db := db' |>) = (o, w3)) as [o Ha].
    { unfold try_call in Hadd. cbn [exec] in Hadd. change (token_handle cfg _ (TAddSessions ?t ?l)) with (AddSessions t l) in Hadd.
      destruct (AddSessions _ _ _ _) as [[x|e|s] w4]; [injection Hadd as _ <-; by eexists..|done]. }
    pose proof (AddSessions_step _ _ _ _ _ _ Ha Ht Hn) as Hst. simpl in Hst. exists (S (w_step w2)). split; [lia|].
    intros row Hin Hp at_ Hlt. eapply AddSessions_marks; [exact Ha|done|apply Hf; simpl; lia|by apply Hids|done].
Qed.

Lemma read_in_tx hash now w t w' :
  exec (token_handle cfg) (call (TByHash hash)) (mkCtx (Some now)) w = (Ok t, w') ->
  w_db w' = w_db w ∧ w_step w' = S (w_step w) ∧ ∃ row, find_token hash (w_db w) = Some row ∧ t = fromDBToken row.
Proof.
  rewrite exec_call. simpl. unfold GetByTokenHash. intros (o & w1 & (db' & [= <- <-] & ->)%sql_Ok & Hg)%bind_Ok.
  unfold TokenStore.get in Hg. destruct (find_token hash (w_db w)) as [row|]; [|done]. injection Hg as <- <-. eauto.
Qed.

(** The sessions other than the one the request came in with. *)
Definition other_session (cmd : ChangePasswordCmd) (db : DB) (row : TokenRow) : Prop :=
  rt_UserID row = cp_UserID cmd ∧
  ∀ own, cp_RefreshToken cmd ≠ ""%string -> find_token (HashSha256 (bytes (cp_RefreshToken cmd))) db = Some own -> rt_Family row ≠ rt_Family own.

Lemma others_marked cmd now w u w' :
  0 < revokedSessionTTL cfg -> (∀ k, (k < w_step w')%nat -> env_fault k = None) ->
  exec (token_handle cfg) (revokeOtherSessions cfg cmd) (mkCtx (Some now)) w = (Ok u, w') ->
  ∃ k, (w_step w <= k < w_step w')%nat ∧ ∀ row, row ∈ refresh_tokens (w_db w) -> other_session cmd (w_db w) row ->
    ∀ at_, at_ < env_now k + revokedSessionTTL cfg -> is_Some (kv_get at_ (sessionKeyPrefix +:+ uuid_String (rt_Family row)) (w_kv w')).
Proof.
  intros Ht Hf. unfold revokeOtherSessions. destruct (String.eqb_spec (cp_RefreshToken cmd) "") as [Er|Er].
  - rewrite exec_wrap. intros Hrun%wrap_err_Ok. eapply (revoke_marks (TRevokeUser (cp_UserID cmd))) in Hrun as (k & Hk & Hm); [|done..].
    exists k. split; [done|]. intros row Hin [Hu _]. apply Hm; [done|]. by apply N.eqb_eq.
  - rewrite exec_bind. intros (r & w1 & Hr & Hrun)%bind_Ok. rewrite exec_try in Hr. apply attempt_Ok in Hr. destruct r as [family|e]; [|done].
    rewrite exec_wrap in Hrun. apply wrap_err_Ok in Hrun. unfold FamilyByRefreshToken in Hr. rewrite exec_bind in Hr.
    apply bind_Ok in Hr as (rt & w2 & (Hdb & Hs & own & Hown & ->)%read_in_tx & Hr).
    destruct (negb _); [done|]. destruct (Revoked _); [done|]. injection Hr as <- <-.
    eapply (revoke_marks (TRevokeExcept (cp_UserID cmd) (rt_Family own))) in Hrun as (k & Hk & Hm); [|done..].
    exists k. split; [lia|]. intros row Hin [Hu Ho]. rewrite Hdb in Hm. apply Hm; [done|]. simpl.
    rewrite Hu, N.eqb_refl. simpl. apply negb_true_iff, N.eqb_neq. by apply Ho.
Qed.

(** C39. Changing a password is not all or nothing.  The sessions are marked as
    revoked on the key-value server inside the transaction that revokes them.  So
    whenever every statement of that transaction is answered and its commit then
    fails, whatever the request and the state of the server: the change returns
    an error, the password and every refresh token are as before, yet every
    access token of every other session of the user, though that session is still
    alive, is refused for as long as the marks last. *)
Theorem password_rollback_strands_session cmd hash w w1 f :
  0 < revokedSessionTTL cfg ->
  install_tx cfg (cp_UserID cmd) hash (revokeOtherSessions cfg cmd) (mkCtx (Some (env_now (w_step w)))) (tick w) = (Ok tt, w1) ->
  (∀ k, (k < w_step w1)%nat -> env_fault k = None) -> env_fault (w_step w1) = Some f ->
  ∃ e w', install_tx cfg (cp_UserID cmd) hash (revokeOtherSessions cfg cmd) background w = (Err e, w') ∧ w_db w' = w_db w ∧
    ∃ k, (w_step w < k < w_step w')%nat ∧
    ∀ row jti ctx w2, row ∈ refresh_tokens (w_db w') -> other_session cmd (w_db w') row ->
      w_kv w2 = w_kv w' -> env_now (w_step w2) < env_now k + revokedSessionTTL cfg -> env_fault (w_step w2) = None ->
      fst (IsRevoked jti (uuid_String (rt_Family row)) ctx w2) = Ok true.
Proof.
  intros Ht Hbody Hok Hf. unfold install_tx in *. unfold WithinTx, TxFromContext in Hbody. simpl in Hbody.
  pose proof Hbody as (u & w2 & (db' & Hup & ->)%wrap_err_Ok%sql_Ok & Hrun)%bind_Ok.
  assert (refresh_tokens db' = refresh_tokens (w_db w)) as Htok.
  { cbv zeta in Hup. simpl in Hup. unfold require in Hup. repeat case_hyp Hup; by simplify_eq. }
  apply others_marked in Hrun as (k & Hk & Hm); [|done..]. simpl in Hk, Hm.
  unfold WithinTx, TxFromContext. simpl. rewrite (Hok (w_step w)) by lia. rewrite Hbody, Hf.
  eexists _, _. split; [done|]. split; [done|]. simpl. exists k. split; [lia|]. intros row jti ctx w3 Hin Hother Hkv Hnow Hfault.
  apply IsRevoked_marked; [done|]. rewrite Hkv. apply Hm; [by rewrite Htok| |done].
  destruct Hother as [Hu Ho]. split; [done|]. intros own Hne. unfold find_token. rewrite Htok. by apply Ho.
Qed.
End stranded.

(** A server whose [n]-th answer is a lost connection. *)
Definition faulty_env (n : nat) : Env := {|
  env_now := @env_now calm_env; env_fault := fun k => if Nat.eqb k n then Some (FaultDriver "connection lost") else None;
  env_rand := @env_rand calm_env; env_uuid := @env_uuid calm_env; env_ctx_err := @env_ctx_err calm_env |}.
Definition ex_record : string :=
  "$argon2id$v=19$m=65536,t=3,p=1$AAAAAAAAAAAAAAAAAAAAAA$Y29ycmVjdCBob3JzZQAAAAAAAAAAAAAAAAAAAAAAAAA".
Definition ex_password_world : World :=
  ex_session_world <| w_db := (w_db ex_session_world)
    <| auth_credentials := [mkCredentialRow 3 11 AuthCredentialKindPassword ex_record None None 0 None T0 T0] |> |>.
Definition ex_change : ChangePasswordCmd := mkChangePassword 11 "correct horse" "battery staple" "" "" "".
Definition ex_change_run (n : nat) : outcome unit * World :=
  exec (@auth_handle (faulty_env n) c_collation list_goque ex_sealer ex_draws ex_jwt ex_argon2 ex_flags ex_jwt_cfg
    (NewService ex_otp_cfg)) (@ChangePassword ex_ozzo ex_jwt_cfg ex_change) background ex_password_world.

(** A whole request: the commit is its tenth statement. *)
Example change_password_strands : ∃ e w',
  ex_change_run 9 = (Err e, w') ∧ w_db w' = w_db ex_password_world ∧
  (fun r => (rt_Family r, rt_Revoked r)) <$> refresh_tokens (w_db w') = [(500%N, false)] ∧
  fst (@IsRevoked calm_env "another token" (uuid_String 500) background w') = Ok true.
Proof. eexists _, _. split; [vm_compute; reflexivity|]. split_and!; vm_compute; reflexivity. Qed.

Lemma password_rollback_strands_session_witness : ∃ e w',
  @install_tx (faulty_env 5) ex_draws ex_jwt ex_jwt_cfg 11 "hash" (revokeOtherSessions ex_jwt_cfg ex_change) background ex_password_world = (Err e, w') ∧
  (fun r => (rt_Family r, rt_Revoked r)) <$> refresh_tokens (w_db w') = [(500%N, false)] ∧
  fst (@IsRevoked (faulty_env 5) "another token" (uuid_String 500) background w') = Ok true.
Proof.
  destruct (@password_rollback_strands_session (faulty_env 5) ex_draws ex_jwt ex_jwt_cfg ex_change "hash" ex_password_world
    (snd (@install_tx (faulty_env 5) ex_draws ex_jwt ex_jwt_cfg 11 "hash" (revokeOtherSessions ex_jwt_cfg ex_change)
      (mkCtx (Some (@env_now (faulty_env 5) 0))) (tick ex_password_world)))
    (FaultDriver "connection lost")) as (e & w' & Hrun & Hdb & k & Hk & Hmarks).
  - vm_compute. reflexivity.
  - vm_compute. reflexivity.
  - intros k Hk. assert ((k < 5)%nat) as Hk5 by (vm_compute in Hk |- *; exact Hk). simpl. destruct (Nat.eqb_spec k 5); [lia|reflexivity].
  - vm_compute. reflexivity.
  - exists e, w'. split; [exact Hrun|]. rewrite Hdb. split; [vm_compute; reflexivity|].
    assert (w_step w' = 6%nat) as Hstep by (vm_compute in Hrun; injection Hrun as _ <-; reflexivity).
    apply (Hmarks (mkTokenRow (HashSha256 (bytes "raw")) 11 500 (at_min 5000) None false None T0 None T0 "")).
    + rewrite Hdb. by left.
    + split; [reflexivity|]. intros own Hne. destruct Hne. reflexivity.
    + reflexivity.
    + rewrite Hstep. simpl. unfold revokedSessionTTL. simpl. unfold revokedSessionSkew, Minute, Second, Millisecond. lia.
    + rewrite Hstep. reflexivity.
Defined.

Lemma EnsureActiveToken_fails_closed_witness : ∃ es,
  follows (@EnsureActiveToken ex_jwt "access") es (PRet []) ∧
  ∃ i userID user, Ev i (AUserByID userID) (Ok user) ∈ es ∧ IsBlocked user = false.
Proof.
  assert (∃ w', @exec AuthOp (@auth_handle calm_env c_collation list_goque ex_sealer ex_draws ex_jwt ex_argon2 ex_flags ex_jwt_cfg
    (NewService ex_otp_cfg)) _ (@EnsureActiveToken ex_jwt "access") background ex_session_world = (Ok [], w'))
    as (w' & Hrun) by (eexists; vm_compute; reflexivity).
  apply exec_follows in Hrun as [es Hes]. exists es. split; [exact Hes|].
  destruct (@EnsureActiveToken_fails_closed ex_jwt _ _ _ Hes) as (i & j & k & claims & userID & user & (_ & _ & _ & _ & Hu & Hb) & _).
  exact (ex_intro _ k (ex_intro _ userID (ex_intro _ user (conj Hu Hb)))).
Defined.
