(* ===== verification/Users.v ===== *)
(** * The user service (internal/services/user)

    Every change of a user goes through [updateWithApply]: one transaction that
    locks the row, lets a closure change the user it read, and writes the row
    back.  The bodies of the transactions are the statements they send
    ([Prog UserOp]), so that they can be run alone ([exec]) or against each
    other (UserSpec.v). *)
From Stdlib Require Import ZArith Lia Ascii String.
From stdpp Require Import base sorting sets strings numbers list.
From S2P Require Import Prelude Go Entity Conflict AuditTrail Schema Logic Dbtx Interleave MaintStore Queue.
From S2P Require Import Crypto UserStore License Sessions.
Open Scope Z_scope.

(** ** entity/messenger_tag.go, entity/timezone.go *)

Definition in_range (lo hi : N) (c : ascii) : bool := (lo <=? N_of_ascii c)%N && (N_of_ascii c <=? hi)%N.
Definition alphanumeric (c : ascii) : bool := in_range 48 57 c || in_range 65 90 c || in_range 97 122 c.
(** [^@?[A-Za-z0-9][A-Za-z0-9._-]{0,62}$] *)
Definition messengerTagPattern (s : string) : bool :=
  match bytes (strings_TrimPrefix s "@") with
  | c :: rest => alphanumeric c && forallb (fun c => alphanumeric c || bool_decide (c ∈ bytes "._-")) rest
                 && Nat.leb (length rest) 62
  | [] => false
  end.
Definition reservedTags : list string := ["here"; "channel"; "everyone"]%string.
Definition canonicalMessengerTag (tag : option string) : string * bool :=
  match tag with
  | None => (""%string, true)
  | Some t =>
      let trimmed := strings_TrimSpace t in
      if String.eqb trimmed "" then (""%string, true)
      else if negb (messengerTagPattern trimmed) then (""%string, false)
      else if existsb (String.eqb (strings_ToLower (strings_TrimPrefix trimmed "@"))) reservedTags then (""%string, false)
      else (trimmed, true)
  end.
Definition CanonicalTelegramTag (tag : option string) : string * bool := canonicalMessengerTag tag.
Definition CanonicalSlackTag (tag : option string) : string * bool := canonicalMessengerTag tag.

(** The tz database: the names [time.LoadLocation] knows. *)
Class TzDatabase := { tz_known : string -> bool }.
Definition CanonicalTimezone `{TzDatabase} (tz : option string) : string * bool :=
  match tz with
  | None => (""%string, true)
  | Some t =>
      let name := strings_TrimSpace t in
      if String.eqb name "" then (""%string, true)
      else if String.eqb name "Local" then (""%string, false)
      else if negb (tz_known name) then (""%string, false)
      else (name, true)
  end.

(** ** Commands (entity/commands.go) *)

Record RolesCmd := mkRolesCmd { rl_Actor : option User; rl_UserID : UUID; rl_Roles : list Role }.
Record RevokeRoleCmd := mkRevokeRole { rr_Actor : option User; rr_UserID : UUID; rr_Role : Role }.
Record BlockUserCmd := mkBlock { bu_Actor : option User; bu_UserID : UUID }.
Record UpdateUserTagsCmd := mkTagsCmd {
  ut_Actor : option User; ut_UserID : UUID; ut_SetTelegramTag : bool; ut_TelegramTag : option string;
  ut_SetSlackTag : bool; ut_SlackTag : option string }.
Record UpdatePreferencesCmd := mkPrefsCmd {
  up_SetTimezone : bool; up_Timezone : option string; up_SetTelegramTag : bool; up_TelegramTag : option string;
  up_SetSlackTag : bool; up_SlackTag : option string }.
Definition TagsCmd_IsEmpty (c : UpdateUserTagsCmd) : bool := negb (ut_SetTelegramTag c) && negb (ut_SetSlackTag c).
Definition PrefsCmd_IsEmpty (c : UpdatePreferencesCmd) : bool :=
  negb (up_SetTimezone c) && negb (up_SetTelegramTag c) && negb (up_SetSlackTag c).

(** [cmd.Actor != nil && cmd.Actor.ID == cmd.UserID] *)
Definition is_self (actor : option User) (userID : UUID) : bool :=
  match actor with
  | Some a => N.eqb (u_ID a) userID
  | None => false
  end.
(** [slices.Contains] *)
Definition has_role (roles : list Role) (r : Role) : bool := bool_decide (r ∈ roles).
(** [lo.Without] *)
Definition without (l exclude : list Role) : list Role := List.filter (fun r => negb (has_role exclude r)) l.
(** [slices.Delete(roles, idx, idx+1)] at the first occurrence *)
Fixpoint delete_role (r : Role) (roles : list Role) : list Role :=
  match roles with
  | [] => []
  | x :: l => if String.eqb x r then l else x :: delete_role r l
  end.
Definition seat_gained (old new : list Role) : bool :=
  negb (RoleOccupiesSeat (HighestRole old)) && RoleOccupiesSeat (HighestRole new).
Definition emptyToNil (value : string) : option string := if String.eqb value "" then None else Some value.

(** ** The statements *)

Inductive UserOp : Type -> Type :=
  | UGetForUpdate (userID : UUID) : UserOp User
  | UGetByID (userID : UUID) : UserOp User
  | UGetByEmail (email : string) : UserOp User
  | UCreate (u : User) : UserOp User
  | UUpdate (u : User) : UserOp unit
  | ULockAdmins : UserOp unit
  | UCountAdmins : UserOp Z
  | UNow : UserOp Time
  | USeat {X : Type} (op : SeatOp X) : UserOp X
  | UPublish (action : AuditAction) : UserOp unit.

Section handler.
Context `{Env} `{Goque} `{Collation} `{LicenseCache}.
Definition user_handle (X : Type) (op : UserOp X) : M X :=
  match op with
  | UGetForUpdate userID => UserStore.GetForUpdateByID userID
  | UGetByID userID => UserStore.GetByID userID
  | UGetByEmail email => UserStore.GetByEmail email
  | UCreate u => UserStore.Create u
  | UUpdate u => UserStore.Update u
  | ULockAdmins => LockAdminMutations
  | UCountAdmins => CountActiveAdmins
  | UNow => UTCNow
  | USeat op => seat_handle _ op
  | UPublish action => Publish action
  end.
End handler.

(** ** The transactions *)
Section transactions.
Context `{SeatGuard}.

(** service.go.  The closure hands back the user it changed and what it
    captured. *)
Definition updateWithApply {X} (userID : UUID) (fn : User -> Prog UserOp (User * X)) : Prog UserOp (User * X) :=
  user ← call_wrap (Errorf "get user") (UGetForUpdate userID);
  r ← prog_wrap (Errorf "apply user update") (fn user);
  call_wrap (Errorf "update user") (UUpdate (fst r));;
  mret r.

Definition ensureNotLastActiveAdmin (user : User) : Prog UserOp unit :=
  if negb (IsActiveAdmin user) then mret tt
  else
    call_wrap (Errorf "lock admin mutations") ULockAdmins;;
    admins ← call_wrap (Errorf "count active admins") UCountAdmins;
    if admins <=? 1 then PErr ErrLastAdmin else mret tt.

Definition ensure_seat (needed : bool) : Prog UserOp unit :=
  if needed then prog_map (fun X => USeat) EnsureSeatAvailable else mret tt.

(** assign_roles.go *)
Definition assign_apply (roles : list Role) (user : User) : Prog UserOp (User * list Role) :=
  let added := List.filter (fun role => negb (has_role (u_Roles user) role)) roles in
  if Nat.eqb (length added) 0 then PErr ErrNotChanged
  else
    let newRoles := u_Roles user ++ added in
    ensure_seat (seat_gained (u_Roles user) newRoles);;
    mret (user <| u_Roles := newRoles |>, added).

(** revoke_role.go *)
Definition revoke_apply (role : Role) (user : User) : Prog UserOp (User * unit) :=
  if negb (has_role (u_Roles user) role) then PErr ErrNotChanged
  else
    (if String.eqb role RoleAdmin then ensureNotLastActiveAdmin user else mret tt);;
    mret (user <| u_Roles := delete_role role (u_Roles user) |>, tt).

(** replace_roles.go *)
Definition replace_apply (roles : list Role) (user : User) : Prog UserOp (User * list Role) :=
  let newRoles := sort_by strings_Compare (uniq (List.filter Role_Valid roles)) in
  let oldRoles := sort_by strings_Compare (u_Roles user) in
  if bool_decide (oldRoles = newRoles) then PErr ErrNotChanged
  else
    let strippingAdmin := has_role oldRoles RoleAdmin && negb (has_role newRoles RoleAdmin) in
    (if strippingAdmin then ensureNotLastActiveAdmin (user <| u_Roles := oldRoles |>) else mret tt);;
    ensure_seat (seat_gained oldRoles newRoles);;
    mret (user <| u_Roles := newRoles |>, oldRoles).

(** block_user.go, unblock_user.go *)
Definition block_apply (user : User) : Prog UserOp (User * unit) :=
  if IsBlocked user then PErr ErrNotChanged
  else
    ensureNotLastActiveAdmin user;;
    now ← call UNow;
    mret (user <| u_BlockedAt := Some now |>, tt).
Definition unblock_apply (user : User) : Prog UserOp (User * unit) :=
  if negb (IsBlocked user) then PErr ErrNotChanged
  else
    ensure_seat (RoleOccupiesSeat (HighestRole (u_Roles user)));;
    mret (user <| u_BlockedAt := None |>, tt).

(** update_user_tags.go *)
Definition tagChange (field : string) (oldValue newValue : option string) : option AuditFieldChange :=
  let before := FromPtr ""%string oldValue in
  let after := FromPtr ""%string newValue in
  if String.eqb before after then None else Some (mkChange field before after).
Definition tagChanges (cmd : UpdateUserTagsCmd) (before : User) (telegramTag slackTag : option string) :
    list AuditFieldChange :=
  (if ut_SetTelegramTag cmd then option_list (tagChange "telegram_tag" (u_TelegramTag before) telegramTag) else []) ++
  (if ut_SetSlackTag cmd then option_list (tagChange "slack_tag" (u_SlackTag before) slackTag) else []).
Definition tags_patched (cmd : UpdateUserTagsCmd) (telegramTag slackTag : option string) (user : User) : User :=
  let user1 := if ut_SetTelegramTag cmd then user <| u_TelegramTag := telegramTag |> else user in
  if ut_SetSlackTag cmd then user1 <| u_SlackTag := slackTag |> else user1.
Definition tags_apply (cmd : UpdateUserTagsCmd) (telegramTag slackTag : option string) (user : User) :
    Prog UserOp (User * list AuditFieldChange) :=
  mret (tags_patched cmd telegramTag slackTag user, tagChanges cmd user telegramTag slackTag).

(** update_preferences.go *)
Definition prefs_patched (cmd : UpdatePreferencesCmd) (timezone telegramTag slackTag : option string) (user : User) : User :=
  let user1 := if up_SetTimezone cmd then user <| u_Timezone := timezone |> else user in
  let user2 := if up_SetTelegramTag cmd then user1 <| u_TelegramTag := telegramTag |> else user1 in
  if up_SetSlackTag cmd then user2 <| u_SlackTag := slackTag |> else user2.
Definition prefs_apply (cmd : UpdatePreferencesCmd) (timezone telegramTag slackTag : option string) (user : User) :
    Prog UserOp (User * unit) :=
  mret (prefs_patched cmd timezone telegramTag slackTag user, tt).

(** get_or_create.go, under the transaction of its caller.  The audit record is
    enqueued with the grant. *)
Definition grant_apply (roles : list Role) (user : User) : Prog UserOp (User * list Role) :=
  let added := List.filter (fun role => negb (has_role (u_Roles user) role)) roles in
  if Nat.eqb (length added) 0 then PErr ErrNotChanged else mret (user <| u_Roles := u_Roles user ++ added |>, added).
Definition grantRolesUnguarded (userID : UUID) (roles : list Role) : Prog UserOp User :=
  r ← prog_try (updateWithApply userID (grant_apply roles));
  match r with
  | inr err => if errors_Is err ErrNotChanged then call (UGetByID userID) else PErr (Errorf "update user roles" err)
  | inl (user, added) =>
      _ ← try_call (UPublish (RolesChanged (Some SystemUser) user "assigned" (mkRolesChange added [] [])));
      mret user
  end.

(** ensure_break_glass_account.go, the body of its transaction *)
Definition break_glass_account (email name : string) : Prog UserOp User :=
  r ← try_call (UGetByEmail email);
  account ← (match r with
             | inl account => mret account
             | inr err =>
                 if errors_Is err ErrUserNotFound
                 then call_wrap (Errorf "get or create break-glass account") (UCreate (newUser email name DefaultRoles))
                 else PErr (Errorf "get or create break-glass account" err)
             end);
  grantRolesUnguarded (u_ID account) [RoleAdmin].
End transactions.

(** ** The service *)
Section service.
Context `{Env} `{Goque} `{Collation} `{LicenseCache} `{SeatGuard} `{TzDatabase} `{Entropy} `{Jwt} (cfg : JWTConfig).

Definition publishUserAudit (action : AuditAction) : M unit := _ ← attempt (Publish action); mret tt.
Definition within {A} (p : Prog UserOp A) : M A := WithinTx (exec user_handle p).
(** [if errors.Is(err, ErrNotChanged) { return nil }] *)
Definition unless_unchanged {A B} (m : M A) (unchanged : M B) (k : A -> M B) : M B :=
  r ← attempt m;
  match r with
  | inr err => if errors_Is err ErrNotChanged then unchanged else raise err
  | inl a => k a
  end.

Definition GetByID (userID : UUID) : M User := UserStore.GetByID userID.
Definition GetByEmail (email : string) : M User := UserStore.GetByEmail email.
Definition GetRoles (userID : UUID) : M (list Role) :=
  user ← wrap_err (Errorf "get user") (UserStore.GetByID userID); mret (u_Roles user).

Definition AssignRoles (cmd : RolesCmd) : M User :=
  reject_if (negb (forallb Role_Valid (rl_Roles cmd))) ErrInvalidRole;;
  reject_if (is_self (rl_Actor cmd) (rl_UserID cmd)) ErrSelfAssign;;
  unless_unchanged (within (updateWithApply (rl_UserID cmd) (assign_apply (rl_Roles cmd)))) (GetByID (rl_UserID cmd))
    (fun '(user, added) =>
      publishUserAudit (RolesChanged (rl_Actor cmd) user "assigned" (mkRolesChange added [] []));;
      mret user).

Definition RevokeRole (cmd : RevokeRoleCmd) : M unit :=
  reject_if (negb (Role_Valid (rr_Role cmd))) ErrInvalidRole;;
  reject_if (is_self (rr_Actor cmd) (rr_UserID cmd)) ErrSelfRevoke;;
  unless_unchanged (within (updateWithApply (rr_UserID cmd) (revoke_apply (rr_Role cmd)))) (mret tt)
    (fun '(user, _) =>
      publishUserAudit (RolesChanged (rr_Actor cmd) user "revoked" (mkRolesChange [rr_Role cmd] [] []))).

Definition ReplaceRoles (cmd : RolesCmd) : M unit :=
  reject_if (is_self (rl_Actor cmd) (rl_UserID cmd)) ErrSelfRevoke;;
  unless_unchanged (within (updateWithApply (rl_UserID cmd) (replace_apply (rl_Roles cmd)))) (mret tt)
    (fun '(user, oldRoles) =>
      publishUserAudit (RolesChanged (rl_Actor cmd) user "replaced"
        (mkRolesChange (u_Roles user) (without (u_Roles user) oldRoles) (without oldRoles (u_Roles user))))).

Definition BlockUser (cmd : BlockUserCmd) : M unit :=
  reject_if (is_self (bu_Actor cmd) (bu_UserID cmd)) ErrSelfBlock;;
  unless_unchanged (within (updateWithApply (bu_UserID cmd) block_apply)) (mret tt)
    (fun '(user, _) =>
      wrap_err (Errorf "revoke refresh tokens on block")
        (exec (token_handle cfg) (RevokeRefreshTokenByUserID cfg (bu_UserID cmd)));;
      publishUserAudit (UserBlocked (bu_Actor cmd) user)).

Definition UnblockUser (cmd : BlockUserCmd) : M unit :=
  reject_if (is_self (bu_Actor cmd) (bu_UserID cmd)) ErrSelfUnblock;;
  unless_unchanged (within (updateWithApply (bu_UserID cmd) unblock_apply)) (mret tt)
    (fun '(user, _) => publishUserAudit (UserUnblocked (bu_Actor cmd) user)).

(** The canonical value of a field that is present. *)
Definition canonical (present : bool) (c : string * bool) (e : error) : M (option string) :=
  if negb present then mret None
  else if negb (snd c) then raise e
  else mret (emptyToNil (fst c)).

Definition UpdatePreferences (userID : UUID) (cmd : UpdatePreferencesCmd) : M User :=
  if PrefsCmd_IsEmpty cmd then GetByID userID
  else
    timezone ← canonical (up_SetTimezone cmd) (CanonicalTimezone (up_Timezone cmd)) ErrInvalidTimezone;
    telegramTag ← canonical (up_SetTelegramTag cmd) (CanonicalTelegramTag (up_TelegramTag cmd)) ErrInvalidMessengerTag;
    slackTag ← canonical (up_SetSlackTag cmd) (CanonicalSlackTag (up_SlackTag cmd)) ErrInvalidMessengerTag;
    r ← within (updateWithApply userID (prefs_apply cmd timezone telegramTag slackTag));
    mret (fst r).

Definition UpdateUserTags (cmd : UpdateUserTagsCmd) : M User :=
  if TagsCmd_IsEmpty cmd then GetByID (ut_UserID cmd)
  else
    telegramTag ← canonical (ut_SetTelegramTag cmd) (CanonicalTelegramTag (ut_TelegramTag cmd)) ErrInvalidMessengerTag;
    slackTag ← canonical (ut_SetSlackTag cmd) (CanonicalSlackTag (ut_SlackTag cmd)) ErrInvalidMessengerTag;
    r ← within (updateWithApply (ut_UserID cmd) (tags_apply cmd telegramTag slackTag));
    let '(user, changes) := r in
    (if Nat.ltb 0 (length changes) then publishUserAudit (UserTagsChanged (ut_Actor cmd) user changes) else mret tt);;
    mret user.

(** create_without_identity.go; the caller's transaction covers it. *)
Definition CreateWithoutIdentity (email name : string) : M User :=
  r ← attempt (UserStore.GetByEmail email);
  match r with
  | inl _ => raise ErrUserAlreadyExists
  | inr err =>
      if negb (errors_Is err ErrUserNotFound) then raise (Errorf "get user by email" err)
      else
        c ← attempt (UserStore.Create (newUser email name DefaultRoles));
        match c with
        | inl user => mret user
        | inr err => if dbtx_ErrorIs err ErrPGUniqueViolation then raise ErrUserAlreadyExists
                     else raise (Errorf "create user" err)
        end
  end.

(** Of two first sign-ins that race, the loser tries again. *)
Definition EnsureBreakGlassAccount (email name : string) : M User :=
  r ← attempt (within (break_glass_account email name));
  match r with
  | inl user => mret user
  | inr err => if dbtx_ErrorIs err ErrPGUniqueViolation then within (break_glass_account email name) else raise err
  end.
End service.
