(* ===== verification/Identities.v ===== *)
(** * Provider identities (internal/storages/useridentities, internal/services/user)

    An identity ties a user to the account of a login provider: the provider's
    row of integration_settings and the subject it issues.  The store, the
    resolution of a provider's name, and the part of the user service that signs
    people in by an identity ([GetOrCreateByAuthInfo]), links one and unlinks
    one. *)
From Stdlib Require Import ZArith Lia Ascii String.
From stdpp Require Import base sorting sets strings numbers list.
From S2P Require Import Prelude Go Entity Conflict AuditTrail Schema Logic Dbtx Interleave MaintStore Queue.
From S2P Require Import Crypto UserStore License Json Kinds Sessions Users.
Open Scope Z_scope.

(** ** entity/user_identity.go, user_creation_policy.go, auth_method.go, integration.go *)

Record UserIdentity := mkIdentity {
  id_ID : UUID; id_UserID : UUID; id_IntegrationID : UUID; id_Subject : string; id_Email : string; id_CreatedAt : Time }.
Record UserCreationPolicy := mkPolicy { AllowCreate : bool; GrantRoles : list Role }.
Record OAuthProviderUserInfo := mkUserInfo { pi_ID : string; pi_Email : string; pi_Name : string }.
Record IntegrationSetting := mkIntegration {
  in_ID : UUID; in_Kind : string; in_Name : string; in_Enabled : bool; in_Config : RawMessage;
  in_Secrets : list (string * string); in_DEKID : UUID; in_Provisioned : bool; in_CreatedAt : Time;
  in_CreatedByUserID : option UUID; in_UpdatedAt : Time; in_UpdatedByUserID : option UUID }.

(** ** storages/useridentities, mapper.go *)

Definition identity_fromDB (r : IdentityRow) : UserIdentity :=
  mkIdentity (ui_ID r) (ui_UserID r) (ui_IntegrationID r) (ui_Subject r) (ui_Email r) (ui_CreatedAt r).
Definition identity_toDB (i : UserIdentity) : IdentityRow :=
  mkIdentityRow uuid_Nil (id_UserID i) (id_Subject i) (id_Email i) zeroTime (id_IntegrationID i).

(** Two rows that one of the unique indexes keeps apart. *)
Definition identity_clash (a b : IdentityRow) : bool :=
  N.eqb (ui_ID a) (ui_ID b) ||
  N.eqb (ui_IntegrationID a) (ui_IntegrationID b) && String.eqb (ui_Subject a) (ui_Subject b) ||
  N.eqb (ui_UserID a) (ui_UserID b) && N.eqb (ui_IntegrationID a) (ui_IntegrationID b).
Definition integration_exists (id : UUID) (db : DB) : bool := existsb (fun r => N.eqb (is_ID r) id) (integration_settings db).
Definition user_exists (id : UUID) (db : DB) : bool := existsb (fun r => N.eqb (ur_ID r) id) (users db).

#[export] Instance eta_IntegrationSetting : Eta IntegrationSetting := fun r =>
  mkIntegration (in_ID r) (in_Kind r) (in_Name r) (in_Enabled r) (in_Config r) (in_Secrets r) (in_DEKID r) (in_Provisioned r)
    (in_CreatedAt r) (in_CreatedByUserID r) (in_UpdatedAt r) (in_UpdatedByUserID r).

Section store.
Context `{Env}.

Definition CreateIdentity (i : UserIdentity) : M UserIdentity :=
  r ← attempt (sql (fun s db =>
    let row := mkIdentityRow (pg_uuid s 0) (id_UserID i) (id_Subject i) (id_Email i) (pg_now s) (id_IntegrationID i) in
    require (negb (existsb (identity_clash row) (user_identities db))) ErrPGUniqueViolation
      (require (user_exists (id_UserID i) db && integration_exists (id_IntegrationID i) db) ErrPGForeignKeyViolation
         (Ok (row, db <| user_identities := user_identities db ++ [row] |>)))));
  match r with
  | inl row => mret (identity_fromDB row)
  | inr err => if dbtx_ErrorIs err ErrPGUniqueViolation then raise ErrProviderAlreadyConnected else raise err
  end.

(** get.go *)
Definition get_identity (where_ : IdentityRow -> bool) : M UserIdentity :=
  r ← query (fun db => List.find where_ (user_identities db));
  match r with
  | Some row => mret (identity_fromDB row)
  | None => raise ErrProviderNotConnected
  end.
Definition is_subject (integrationID : UUID) (subject : string) (r : IdentityRow) : bool :=
  N.eqb (ui_IntegrationID r) integrationID && String.eqb (ui_Subject r) subject.
Definition is_method (userID integrationID : UUID) (r : IdentityRow) : bool :=
  N.eqb (ui_UserID r) userID && N.eqb (ui_IntegrationID r) integrationID.
Definition GetByMethodSubject (integrationID : UUID) (subject : string) : M UserIdentity :=
  get_identity (is_subject integrationID subject).
Definition GetByUserAndMethod (userID integrationID : UUID) : M UserIdentity := get_identity (is_method userID integrationID).

(** delete.go: DELETE ... USING integration_settings *)
Definition named_provider (name : string) (db : DB) (r : IdentityRow) : bool :=
  existsb (fun s => N.eqb (is_ID s) (ui_IntegrationID r) && String.eqb (is_Name s) name) (integration_settings db).
Definition DeleteUserIdentityByProviderName (userID : UUID) (name : AuthMethod) : M unit :=
  sql (fun _ db =>
    Ok (tt, db <| user_identities :=
          List.filter (fun r => negb (N.eqb (ui_UserID r) userID && named_provider name db r)) (user_identities db) |>)).
Definition DeleteByIntegrationID (integrationID : UUID) : M Z :=
  sql (fun _ db =>
    let hit r := N.eqb (ui_IntegrationID r) integrationID in
    Ok (Z.of_nat (length (List.filter hit (user_identities db))),
        db <| user_identities := List.filter (fun r => negb (hit r)) (user_identities db) |>)).

(** list.go: the join with integration_settings, sorted by name for each user *)
Definition identity_names (where_ : IdentityRow -> bool) (db : DB) : list (UUID * AuthMethod) :=
  List.filter where_ (user_identities db) ≫= (fun r =>
    (fun s => (ui_UserID r, is_Name s)) <$> List.filter (fun s => N.eqb (is_ID s) (ui_IntegrationID r)) (integration_settings db)).
Definition methods_of (rows : list (UUID * AuthMethod)) (userID : UUID) : list AuthMethod :=
  sort_by strings_Compare (snd <$> List.filter (fun r => N.eqb (fst r) userID) rows).
Definition listMethods (where_ : IdentityRow -> bool) : M (list (UUID * list AuthMethod)) :=
  rows ← query (identity_names where_);
  mret ((fun userID => (userID, methods_of rows userID)) <$> uniq (fst <$> rows)).
Definition ListMethodsByUserID (userID : UUID) : M (list AuthMethod) :=
  byUser ← listMethods (fun r => N.eqb (ui_UserID r) userID);
  mret (default [] (snd <$> List.find (fun e => N.eqb (fst e) userID) byUser)).
Definition ListMethodsByUserIDs (userIDs : list UUID) : M (list (UUID * list AuthMethod)) :=
  if Nat.eqb (length userIDs) 0 then mret []
  else listMethods (fun r => bool_decide (ui_UserID r ∈ userIDs)).
Definition CountProvidersByUserID (userID : UUID) : M Z :=
  query (fun db => Z.of_nat (length (List.filter (fun r => N.eqb (ui_UserID r) userID) (user_identities db)))).

(** ** storages/integration, get.go and mapper.go; services/integration, resolve_login_provider.go *)

(** [json.Unmarshal] into a map of strings: a null leaves the empty string. *)
Definition string_field (f : string * json) : option (string * string) :=
  match snd f with
  | JString s => Some (fst f, s)
  | JNull => Some (fst f, ""%string)
  | _ => None
  end.
Definition decode_secrets (j : json) : option (list (string * string)) :=
  match j with
  | JNull => Some []
  | JObject fields => mapM string_field fields
  | _ => None
  end.
Definition integration_fromDB (r : IntegrationRow) : M IntegrationSetting :=
  match decode_secrets (is_Secrets r) with
  | Some secrets =>
      mret (mkIntegration (is_ID r) (is_Kind r) (is_Name r) (is_Enabled r) (RawText (is_Config r)) secrets (is_DekID r) (is_Provisioned r)
              (is_CreatedAt r) (is_CreatedByUserID r) (is_UpdatedAt r) (is_UpdatedByUserID r))
  | None => raise (Errorf "decode stored secrets" (EOther "json: cannot unmarshal"))
  end.
Definition is_integration (kind name : string) (r : IntegrationRow) : bool :=
  String.eqb (is_Kind r) kind && String.eqb (is_Name r) name.
Definition GetByKindName (kind name : string) : M IntegrationSetting :=
  r ← query (fun db => List.find (is_integration kind name) (integration_settings db));
  match r with
  | Some row => integration_fromDB row
  | None => raise ErrIntegrationNotFound
  end.
Definition ResolveID (name : AuthMethod) : M UUID :=
  row ← wrap_err (Errorf "resolve login provider") (GetByKindName CategoryLogin name);
  mret (in_ID row).
End store.

(** ** services/user *)
Section service.
Context `{Env} `{Goque} `{Collation} `{LicenseCache} `{SeatGuard} (allowOpenSignup : bool).

(** service.go *)
Definition integrationID (method : AuthMethod) : M UUID :=
  r ← attempt (ResolveID method);
  match r with
  | inl id => mret id
  | inr err => if errors_Is err ErrIntegrationNotFound then raise (Errorf method ErrUnsupportedProvider)
               else raise (Errorf "resolve login provider" err)
  end.

(** get_or_create.go *)
Definition createIdentity (userID : UUID) (provider : AuthMethod) (subject email : string) : M unit :=
  integration ← integrationID provider;
  _ ← CreateIdentity (mkIdentity uuid_Nil userID integration subject email zeroTime);
  mret tt.

Definition createWithIdentity (provider : AuthMethod) (info : OAuthProviderUserInfo) (grantRoles : list Role) : M User :=
  user ← wrap_err (Errorf "create user") (UserStore.Create (newUser (pi_Email info) (pi_Name info) DefaultRoles));
  wrap_err (Errorf "create identity") (createIdentity (u_ID user) provider (pi_ID info) (pi_Email info));;
  if Nat.eqb (length grantRoles) 0 then mret user
  else wrap_err (Errorf "assign policy roles") (AssignRoles (mkRolesCmd (Some SystemUser) (u_ID user) grantRoles)).

Definition createByPolicy (provider : AuthMethod) (info : OAuthProviderUserInfo) (policy : UserCreationPolicy) : M User :=
  if AllowCreate policy then createWithIdentity provider info (GrantRoles policy)
  else if allowOpenSignup then createWithIdentity provider info []
  else raise ErrSignupDisabled.

Definition getUserByIdentity (provider : AuthMethod) (subject : string) : M User :=
  integration ← integrationID provider;
  identity ← wrap_err (Errorf "get identity after race") (GetByMethodSubject integration subject);
  wrap_err (Errorf "get user after race") (UserStore.GetByID (id_UserID identity)).

Definition get_or_create_in_tx (provider : AuthMethod) (info : OAuthProviderUserInfo) (policy : UserCreationPolicy) : M User :=
  r ← attempt (getUserByIdentity provider (pi_ID info));
  match r with
  | inl user => mret user
  | inr err => if errors_Is err ErrProviderNotConnected then createByPolicy provider info policy
               else raise (Errorf "get identity" err)
  end.

Definition GetOrCreateByAuthInfo (provider : AuthMethod) (info : OAuthProviderUserInfo) (policy : UserCreationPolicy) : M User :=
  reject_if (negb (forallb Role_Valid (GrantRoles policy))) ErrInvalidRole;;
  r ← attempt (WithinTx (get_or_create_in_tx provider info policy));
  match r with
  | inl user => mret user
  | inr err => if errors_Is err ErrProviderAlreadyConnected then getUserByIdentity provider (pi_ID info) else raise err
  end.

(** link_identity.go *)
Definition unlinked (e : error) (what : string) (r : UserIdentity + error) (found : UserIdentity -> error) : M unit :=
  match r with
  | inl identity => raise (found identity)
  | inr err => if errors_Is err e then mret tt else raise (Errorf what err)
  end.
Definition link_in_tx (userID integration : UUID) (claims : OAuthIDTokenClaims) : M unit :=
  owner ← wrap_err (Errorf "lock user") (UserStore.GetForUpdateByID userID);
  reject_if (IsBlocked owner) ErrUserBlocked;;
  reject_if (IsBreakGlass owner) ErrBreakGlassPersonalSignIn;;
  bySubject ← attempt (GetByMethodSubject integration (oc_Subject claims));
  unlinked ErrProviderNotConnected "get identity by subject" bySubject (fun identity =>
    if N.eqb (id_UserID identity) userID then ErrProviderAlreadyConnected else ErrProviderLinkedToAnotherUser);;
  byMethod ← attempt (GetByUserAndMethod userID integration);
  unlinked ErrProviderNotConnected "get identity by user and provider" byMethod (fun _ => ErrProviderAlreadyConnected);;
  _ ← wrap_err (Errorf "create identity")
        (CreateIdentity (mkIdentity uuid_Nil userID integration (oc_Subject claims) (oc_Email claims) zeroTime));
  mret tt.
Definition LinkIdentity (userID : UUID) (provider : AuthMethod) (claims : OAuthIDTokenClaims) : M unit :=
  integration ← integrationID provider;
  WithinTx (link_in_tx userID integration claims).

Definition unlink_in_tx (userID : UUID) (provider : AuthMethod) (keepsSignIn : bool) : M unit :=
  _ ← wrap_err (Errorf "lock user") (UserStore.GetForUpdateByID userID);
  count ← wrap_err (Errorf "count identities") (CountProvidersByUserID userID);
  reject_if ((count <=? 1) && negb keepsSignIn) ErrCannotDisconnectLastProvider;;
  wrap_err (Errorf "delete identity") (DeleteUserIdentityByProviderName userID provider).
Definition UnlinkIdentity (userID : UUID) (provider : AuthMethod) (keepsSignIn : bool) : M unit :=
  WithinTx (unlink_in_tx userID provider keepsSignIn).

Definition ListConnectedProviders (userID : UUID) : M (list AuthMethod) :=
  wrap_err (Errorf "list providers") (ListMethodsByUserID userID).

(** list_users.go *)
Record ListUsersResult := mkListUsersResult {
  lr_Users : list User; lr_Total : Z; lr_ActiveAdminCount : Z; lr_ProvidersByUser : list (UUID * list AuthMethod) }.
Definition ListUsers (cmd : ListUsersCmd) : M ListUsersResult :=
  listed ← UserStore.List_ cmd;
  activeAdmins ← CountActiveAdmins;
  providersByUser ← ListMethodsByUserIDs (u_ID <$> fst listed);
  mret (mkListUsersResult (fst listed) (snd listed) activeAdmins providersByUser).
End service.
