(* ===== verification/InvitationEmail.v ===== *)
(** * The invitation e-mail (internal/services/invitation/email.go)

    The link, the phrase for its lifetime, and the body: what html/template
    makes of the parsed template when the link stands in a quoted [href] and the
    phrase in text.  The lifetime goes through float64, as in the code. *)
From Stdlib Require Import ZArith Lia Ascii String SpecFloat.
From stdpp Require Import base sorting sets strings numbers list.
From S2P Require Import Prelude Go Sha256 Entity.
Open Scope Z_scope.

(** ** net/url and html/template *)

Definition hex_upper : list ascii := bytes "0123456789ABCDEF".
Definition hex_lower : list ascii := bytes "0123456789abcdef".
Definition percent (digits : list ascii) (c : ascii) : list ascii :=
  let n := N_of_ascii c in
  ["%"%char; nth (N.to_nat (n / 16)) digits "0"%char; nth (N.to_nat (n mod 16)) digits "0"%char].
Definition between (lo hi : N) (c : ascii) : bool := (lo <=? N_of_ascii c)%N && (N_of_ascii c <=? hi)%N.
Definition letter_or_digit (c : ascii) : bool := between 48 57 c || between 65 90 c || between 97 122 c.
Definition unreserved (c : ascii) : bool := letter_or_digit c || bool_decide (c ∈ bytes "-._~").
(** [url.QueryEscape] *)
Definition query_escape (s : list ascii) : list ascii :=
  s ≫= fun c => if unreserved c then [c] else if ascii_dec c " " then ["+"%char] else percent hex_upper c.
Definition url_QueryEscape (s : string) : string := string_of_list_ascii (query_escape (bytes s)).

(** [strings.EqualFold] against letters of ASCII: the long s and the Kelvin sign
    fold to them. *)
Fixpoint fold_ascii (s : list ascii) : list ascii :=
  match s with
  | [] => []
  | c :: s1 =>
      match s1 with
      | d :: s2 =>
          if N.eqb (N_of_ascii c) 197 && N.eqb (N_of_ascii d) 191 then "s"%char :: fold_ascii s2
          else
            match s2 with
            | e :: s3 =>
                if N.eqb (N_of_ascii c) 226 && N.eqb (N_of_ascii d) 132 && N.eqb (N_of_ascii e) 170
                then "k"%char :: fold_ascii s3
                else lower_byte c :: fold_ascii s1
            | [] => lower_byte c :: fold_ascii s1
            end
      | [] => [lower_byte c]
      end
  end.
(** [strings.Cut(s, ":")], its first half. *)
Fixpoint before_colon (s : list ascii) : option (list ascii) :=
  match s with
  | [] => None
  | c :: s1 => if ascii_dec c ":" then Some [] else (c ::.) <$> before_colon s1
  end.
Definition isSafeURL (s : list ascii) : bool :=
  match before_colon s with
  | Some protocol =>
      bool_decide ("/"%char ∈ protocol) || bool_decide (fold_ascii protocol ∈ [bytes "http"; bytes "https"; bytes "mailto"])
  | None => true
  end.
Definition urlFilter (s : list ascii) : list ascii := if isSafeURL s then s else bytes "#ZgotmplZ".

(** [processURLOnto] with norm: what is reserved or already escaped stays. *)
Definition is_hex (c : ascii) : bool := between 48 57 c || between 65 70 c || between 97 102 c.
Fixpoint urlNormalizer (s : list ascii) : list ascii :=
  match s with
  | [] => []
  | c :: s1 =>
      let kept := unreserved c || bool_decide (c ∈ bytes "!#$&*+,/:;=?@[]") ||
        bool_decide (c = "%"%char) && match s1 with a :: b :: _ => is_hex a && is_hex b | _ => false end in
      (if kept then [c] else percent hex_lower c) ++ urlNormalizer s1
  end.
(** [htmlReplacementTable] *)
Definition html_replacement (c : ascii) : list ascii :=
  match N_of_ascii c with
  | 0%N => [byte 239; byte 191; byte 189]
  | 34%N => bytes "&#34;"
  | 38%N => bytes "&amp;"
  | 39%N => bytes "&#39;"
  | 43%N => bytes "&#43;"
  | 60%N => bytes "&lt;"
  | 62%N => bytes "&gt;"
  | _ => [c]
  end.
Definition htmlReplacer (s : list ascii) : list ascii := s ≫= html_replacement.

(** ** float64 *)

Definition float64_of (n : Z) : spec_float := binary_normalize 53 1024 n 0 false.
Definition f64_add : spec_float -> spec_float -> spec_float := SFadd 53 1024.
Definition f64_div : spec_float -> spec_float -> spec_float := SFdiv 53 1024.
(** [time.Duration.Hours] *)
Definition Hours (d : Duration) : spec_float :=
  f64_add (float64_of (Z.quot d Hour)) (f64_div (float64_of (Z.rem d Hour)) (float64_of Hour)).
(** [int(math.Ceil(f))] of a finite number *)
Definition int_Ceil (f : spec_float) : Z :=
  match f with
  | S754_finite sign m e =>
      let v := if sign then Z.neg m else Z.pos m in
      if 0 <=? e then v * 2 ^ e else - (- v / 2 ^ (- e))
  | _ => 0
  end.

(** ** email.go *)

Definition expiresInPhrase (ttl : Duration) : string :=
  let days := Z.max (int_Ceil (f64_div (Hours ttl) (float64_of 24))) 1 in
  if days =? 1 then "1 day" else string_of_list_ascii (decimal days ++ bytes " days").

Definition invitationEmailSubject : string := "You've been invited to MaintMode".
Definition quote : string := String (ascii_of_nat 34) "".
Definition newline : string := String (ascii_of_nat 10) "".
(** templates/invitation_email.gohtml, executed *)
Definition invitationEmailTmpl (link expiresIn : list ascii) : list ascii :=
  bytes ("<p>You've been invited to join MaintMode.</p>" +:+ newline +:+
         "<p>MaintMode is a new way to manage your maintenance status.</p>" +:+ newline +:+
         "<p><a href=" +:+ quote) ++ htmlReplacer (urlNormalizer (urlFilter link)) ++
  bytes (quote +:+ ">Accept your invitation</a></p>" +:+ newline +:+ "<p>This link expires in ") ++
  htmlReplacer expiresIn ++
  bytes (".</p>" +:+ newline +:+
         "<p>If you weren't expecting this invitation, you can safely ignore this email.</p>" +:+ newline).
Definition renderInvitationEmail (link : string) (ttl : Duration) : string :=
  string_of_list_ascii (trim_space (invitationEmailTmpl (bytes link) (bytes (expiresInPhrase ttl)))).

(** create.go *)
Definition buildAcceptLink (frontendURL rawToken : string) : string :=
  frontendURL +:+ "/accept-invite?token=" +:+ url_QueryEscape rawToken.

Example expiresInPhrase_ex :
  expiresInPhrase (7 * 24 * Hour) = "7 days"%string ∧ expiresInPhrase (24 * Hour) = "1 day"%string ∧
  expiresInPhrase (24 * Hour + 1) = "2 days"%string ∧ expiresInPhrase (- Hour) = "1 day"%string.
Proof. vm_compute. done. Qed.
