(* ===== verification/Invitations.v ===== *)
(** * Invitations (internal/services/invitation and its claimer)

    An admin invites an address with roles; the link is mailed; whoever holds it
    accepts it, with a password (services/auth/accept_invitation_with_password.go)
    or at the end of an OAuth dance ([ResolveForIdentity], then [ClaimForUser]).
    The bodies of the transactions are the calls they make, in their order. *)
From Stdlib Require Import ZArith Lia Ascii String.
From stdpp Require Import base sorting sets strings numbers list.
From S2P Require Import Prelude Go Sha256 Entity Conflict AuditTrail Schema Logic Dbtx Interleave Crypto Validation MaintStore Sweep.
From S2P Require Import UserStore Credentials TokenStore InvitationStore License Password Queue Otp Sessions DanceStore Auth Users InvitationEmail.
Open Scope Z_scope.

(** ** Commands (entity/invitation.go, entity/commands.go) *)

Record CreateInvitationCmd := mkCreateInvitation { ci_Actor : option User; ci_Email : string; ci_Roles : list Role }.
Record RevokeInvitationCmd := mkRevokeInvitation { ri_Actor : option User; ri_ID : UUID }.
Record ResendInvitationCmd := mkResendInvitation { rs_Actor : option User; rs_ID : UUID }.
Record ResolvedInvitation := mkResolved { rv_ID : UUID; rv_Roles : list Role }.
Record AcceptInvitationWithPasswordCmd := mkAcceptWithPassword {
  aw_Token : string; aw_Password : string; aw_ClientIP : string; aw_UserAgent : string }.
Definition AuditFailureInvitationRefused : AuditFailureReason := "invitation refused".
Definition ProcessorTaskInvitationEmailSend : string := "invitation.email".
Definition NotifyTransportEmail : NotifyTransport := "email".
Definition HTMLMessageMIME : string := "text/html".

Definition defaultInvitationTTL : Duration := 7 * 24 * Hour.
Definition invitationTokenBytes : nat := 32.
Definition maxRotateBatches : nat := 100.
Definition defaultRotateBatchLimit : Z := 1000.
Definition maxPruneBatches : nat := 100.
Definition defaultPruneBatchLimit : Z := 1000.
Definition defaultPruneRetention : Duration := 365 * 24 * Hour.

(** The configuration the service keeps. *)
Record Service := mkService { s_ttl : Duration; s_frontendURL : string }.
Definition NewService (invitationTTL : Duration) (frontendURL : string) : Service :=
  mkService (if invitationTTL <=? 0 then defaultInvitationTTL else invitationTTL) frontendURL.

Section service.
Context `{Env} `{Goque} `{Collation} `{LicenseCache} `{SeatGuard} `{Entropy} (s : Service).

Definition publishAudit (action : AuditAction) : M unit := _ ← attempt (Publish action); mret tt.

(** messaging/sender/send_async.go *)
Definition SendAsync (taskType : string) (trName : NotifyTransport) (target : string) (msg : NotifyMessage)
    (replyTo : option MessageRef) (idempotencyKey : string) : M unit :=
  _ ← Schedule_now taskType (PayloadEventNotify (mkEventNotify trName target (msg_Subject msg) (msg_Body msg) (msg_MIME msg) replyTo))
        idempotencyKey;
  mret tt.

(** *** email.go *)

Definition invitationEmailIdempotencyKey (inv : Invitation) : string :=
  HashSha256 (bytes ("invitation-email:" +:+ uuid_String (inv_ID inv) +:+ ":" +:+ inv_TokenHash inv)).
Definition sendInvitationEmail (inv : Invitation) (link : string) : M unit :=
  wrap_err (Errorf "enqueue invitation email")
    (SendAsync ProcessorTaskInvitationEmailSend NotifyTransportEmail (inv_Email inv)
       (mkMessage invitationEmailSubject (renderInvitationEmail link (s_ttl s)) HTMLMessageMIME) None
       (invitationEmailIdempotencyKey inv)).

(** *** create.go *)

Definition revokeActiveInvitation (now : Time) (email : string) : M unit :=
  r ← attempt (GetActivePendingByEmail email);
  match r with
  | inr err => if errors_Is err ErrInvitationNotFound then mret tt
               else raise (Errorf "lookup active pending invitation" err)
  | inl stale => wrap_err (Errorf "revoke stale pending invitation") (SetRevoked (inv_ID stale) now)
  end.

Definition create_in_tx (cmd : CreateInvitationCmd) (raw hash : string) : M Invitation :=
  now ← UTCNow;
  revokeActiveInvitation now (ci_Email cmd);;
  (if RoleOccupiesSeat (HighestRole (ci_Roles cmd)) then exec seat_handle EnsureSeatAvailable else mret tt);;
  match ci_Actor cmd with
  | None => panic nil_dereference
  | Some actor =>
      created ← wrap_err (Errorf "create invitation")
        (InvitationStore.Create (mkInvitation uuid_Nil (ci_Email cmd) (ci_Roles cmd) hash InvitationStatusPending (u_ID actor)
           (Time_Add now (s_ttl s)) now None None zeroTime));
      sendInvitationEmail created (buildAcceptLink (s_frontendURL s) raw);;
      mret created
  end.

Definition Create (cmd : CreateInvitationCmd) : M Invitation :=
  reject_if (Nat.eqb (length (ci_Roles cmd)) 0) (Errorf "roles must not be empty" ErrValidation);;
  reject_if (negb (forallb Role_Valid (ci_Roles cmd))) ErrInvalidRole;;
  reject_if (IsBreakGlassEmail (ci_Email cmd)) (Errorf (BreakGlassEmail +:+ " is reserved for the break-glass account") ErrValidation);;
  exist ← attempt (UserStore.GetByEmail (ci_Email cmd));
  match exist with
  | inl _ => raise ErrUserAlreadyExists
  | inr err =>
      reject_if (negb (errors_Is err ErrUserNotFound)) (Errorf "check existing user" err);;
      token ← GenerateToken invitationTokenBytes;
      created ← WithinTx (create_in_tx cmd token.1 token.2);
      publishAudit (InvitationCreated (ci_Actor cmd) created);;
      mret created
  end.

(** *** resend.go: the clock is read before the transaction. *)

Definition resend_in_tx (id : UUID) (now : Time) (raw hash : string) : M unit :=
  inv ← GetForUpdateByID id;
  let status := EffectiveStatus inv now in
  reject_if (String.eqb status InvitationStatusExpired) ErrInvitationExpired;;
  reject_if (negb (String.eqb status InvitationStatusPending)) ErrInvitationNotPending;;
  resended ← wrap_err (Errorf "resend invitation") (InvitationStore.Resend (inv_ID inv) hash (Time_Add now (s_ttl s)) now);
  sendInvitationEmail resended (buildAcceptLink (s_frontendURL s) raw).

Definition Resend (cmd : ResendInvitationCmd) : M unit :=
  now ← UTCNow;
  token ← GenerateToken invitationTokenBytes;
  WithinTx (resend_in_tx (rs_ID cmd) now token.1 token.2).

(** *** revoke.go: [None] for the repeat that changes nothing. *)

Definition revoke_in_tx (id : UUID) : M (option Invitation) :=
  inv ← GetForUpdateByID id;
  if String.eqb (inv_Status inv) InvitationStatusRevoked then mret None
  else
    reject_if (String.eqb (inv_Status inv) InvitationStatusAccepted) ErrInvitationNotPending;;
    now ← UTCNow;
    wrap_err (Errorf "set revoked") (SetRevoked (inv_ID inv) now);;
    mret (Some inv).

Definition Revoke (cmd : RevokeInvitationCmd) : M unit :=
  revoked ← WithinTx (revoke_in_tx (ri_ID cmd));
  match revoked with
  | Some inv => publishAudit (InvitationRevoked (ri_Actor cmd) inv)
  | None => mret tt
  end.

(** *** rotate.go, prune.go *)

Definition Rotate (batchLimit : Z) : M unit :=
  let batchLimit := if batchLimit <=? 0 then defaultRotateBatchLimit else batchLimit in
  now ← UTCNow;
  batches maxRotateBatches (ExpireOlderThan now batchLimit) batchLimit.

Definition Prune (retention : Duration) (batchLimit : Z) : M unit :=
  let batchLimit := if batchLimit <=? 0 then defaultPruneBatchLimit else batchLimit in
  let retention := if retention <=? 0 then defaultPruneRetention else retention in
  now ← UTCNow;
  batches maxPruneBatches (PruneTerminalOlderThan (Time_Add now (- retention)) batchLimit) batchLimit.

(** *** preview.go, list.go *)

Definition Preview (rawToken : string) : M string :=
  if String.eqb rawToken "" then mret "invalid"%string
  else
    r ← attempt (InvitationStore.GetByTokenHash (HashSha256 (bytes rawToken)));
    match r with
    | inr err => if errors_Is err ErrInvitationNotFound then mret "invalid"%string else raise err
    | inl inv => now ← UTCNow; mret (PreviewStatus inv now)
    end.

Definition List_ (status : string) : M (list InvitationListItem) := ListInvitations status.
End service.

(** ** The claimer *)

(** The Unicode tables behind [strings.ToLower] and [strings.EqualFold]. *)
Class Unicode := { unicode_ToLower : string -> string; unicode_EqualFold : string -> string -> bool }.
(** xemail.EqualIgnoreCase *)
Definition EqualIgnoreCase `{Unicode} (a b : string) : bool := unicode_EqualFold (unicode_ToLower a) (unicode_ToLower b).

Section claimer.
Context `{Env} `{Goque} `{Collation} `{LicenseCache} `{SeatGuard} `{Unicode} `{Jwt} (handleTTL : Duration).

(** *** prepare_handle.go *)

Definition PrepareHandle (handle invitationToken : string) : M unit :=
  r ← attempt (InvitationStore.GetByTokenHash (HashSha256 (bytes invitationToken)));
  invitationID ← match r with
                 | inl inv => mret (inv_ID inv)
                 | inr err => if errors_Is err ErrInvitationNotFound then mret uuid_Nil
                              else raise (Errorf "get invitation by token" err)
                 end;
  wrap_err (Errorf "put invitation handle") (PutInvitationHandle handleTTL handle invitationID).

(** *** resolve_by_token.go, resolve_for_identity.go *)

Definition live_or_invalid (inv : Invitation) : M unit :=
  now ← UTCNow;
  reject_if (negb (String.eqb (EffectiveStatus inv now) InvitationStatusPending)) ErrInvalidInvitation.

(** A missing row is an invalid invitation; another error is reported. *)
Definition found_or_invalid (r : Invitation + error) : M Invitation :=
  match r with
  | inl inv => mret inv
  | inr err => if errors_Is err ErrInvitationNotFound then raise ErrInvalidInvitation else raise (Errorf "get invitation" err)
  end.

Definition ResolveByToken (rawToken : string) : M Invitation :=
  reject_if (String.eqb rawToken "") ErrInvalidInvitation;;
  r ← attempt (InvitationStore.GetByTokenHash (HashSha256 (bytes rawToken)));
  inv ← found_or_invalid r;
  live_or_invalid inv;;
  mret inv.

Definition ResolveForIdentity (handle : string) (claims : OAuthIDTokenClaims) : M ResolvedInvitation :=
  id ← wrap_err (Errorf "consume invitation handle") (ConsumeInvitationHandle handle);
  match id with
  | None => raise ErrInvalidInvitation
  | Some invitationID =>
      r ← attempt (InvitationStore.GetByID invitationID);
      inv ← found_or_invalid r;
      live_or_invalid inv;;
      reject_if (negb (oc_EmailVerified claims)) ErrEmailMismatch;;
      reject_if (negb (EqualIgnoreCase (oc_Email claims) (inv_Email inv))) ErrEmailMismatch;;
      mret (mkResolved (inv_ID inv) (inv_Roles inv))
  end.

(** *** claim_for_user.go *)

Definition claim_in_tx (inv : ResolvedInvitation) (userID : UUID) : M User :=
  claimed ← wrap_err (Errorf "mark accepted") (MarkAccepted (rv_ID inv));
  reject_if (negb claimed) ErrInvalidInvitation;;
  wrap_err (Errorf "assign invitation roles") (AssignRoles (mkRolesCmd (Some SystemUser) userID (rv_Roles inv))).

Definition ClaimForUser (inv : ResolvedInvitation) (userID : UUID) : M User := WithinTx (claim_in_tx inv userID).
End claimer.

(** ** services/auth/accept_invitation_with_password.go *)
Section accept.
Context `{Env} `{Goque} `{Collation} `{LicenseCache} `{SeatGuard} `{Sealer} `{Entropy} `{Jwt} `{Ozzo} `{Argon2} `{AuthMethodFlags}.
Context (cfg : JWTConfig) (codes : Otp.Service).

Definition auth {A} (p : Prog AuthOp A) : M A := exec (auth_handle cfg codes) p.

Definition accept_in_tx (inv : Invitation) (hash : string) : M User :=
  created ← wrap_err (Errorf "create user") (CreateWithoutIdentity (inv_Email inv) (inv_Email inv));
  wrap_err (Errorf "store password") (UpsertPassword (u_ID created) hash);;
  wrap_err (Errorf "claim invitation") (ClaimForUser (mkResolved (inv_ID inv) (inv_Roles inv)) (u_ID created)).

Definition AcceptInvitationWithPassword (cmd : AcceptInvitationWithPasswordCmd) : M TokenPair :=
  match ValidatePasswordPolicy (aw_Password cmd) with
  | Some err => raise (EJoin2 ErrValidation err)
  | None =>
      inv ← wrap_err (Errorf "resolve invitation") (ResolveByToken (aw_Token cmd));
      let meta := clientMeta (aw_ClientIP cmd) (aw_UserAgent cmd) in
      let invitee := claimedUser (inv_Email inv) in
      offered ← auth (methodOffered AuthMethodNameEmailPassword);
      if negb offered then
        auth (publishLoginFailure invitee (Some meta) AuditFailureMethodDisabled);;
        raise ErrSignInMethodDisabled
      else
        hash ← wrap_err (Errorf "hash password") (HashPassword (aw_Password cmd));
        r ← attempt (WithinTx (accept_in_tx inv hash));
        match r with
        | inr err =>
            let reason := if errors_Is err ErrInvalidInvitation then AuditFailureInvitationRefused
                          else AuditFailureUserProvisioning in
            auth (publishLoginFailure invitee (Some meta) reason);;
            raise err
        | inl user =>
            r ← attempt (auth (IssueTokenPair cfg user (aw_ClientIP cmd)));
            match r with
            | inr err =>
                auth (publishLoginFailure user (Some meta) (issuanceFailureReason err));;
                raise (Errorf "issue token pair" err)
            | inl issued =>
                auth (auth_publishAudit (LoginSuccess user (Some (meta <| md_SessionID := uuid_String (tp_SessionID issued) |>
                  <| md_LoginMethod := AuditLoginMethodPassword |>))));;
                mret issued
            end
        end
  end.
End accept.
