(* ===== verification/Dance.v ===== *)
(** * Signing in through a provider (internal/services/auth: the OAuth dance,
      linking and unlinking, break-glass, the dev sign-in)

    A dance begins at /start ([StartDance]), leaves for the provider, and comes
    back at /callback ([CompleteDance]).  A sign-in ends in a one-time code that
    the browser which started it redeems for its tokens ([RedeemDanceCode]); a
    link ends in a link code that only the owner's session can redeem
    ([CompleteLink]).  The requests are written as the calls they make. *)
From Stdlib Require Import ZArith Lia Ascii String.
From stdpp Require Import base sorting sets strings numbers list.
From S2P Require Import Prelude Go Sha256 Entity Conflict AuditTrail Schema Logic Dbtx Interleave Crypto Validation MaintStore.
From S2P Require Import UserStore Credentials TokenStore InvitationStore License Password Queue Otp Sessions DanceStore.
From S2P Require Import DanceSigner AuthMethods Auth Users Identities Invitations.
Open Scope Z_scope.

(** ** entity/oauth_dance.go, entity/commands.go *)

Record DanceStart := mkDanceStart {
  st_State : string; st_StateSignature : string; st_Verifier : string; st_AuthorizationURL : string; st_TTL : Duration;
  st_InvitationHandle : string; st_LinkTicket : string; st_Binding : string }.
Record DanceOutcome := mkOutcome { ou_Code : string; ou_LinkCode : string }.
Record DanceCallback := mkCallback {
  cb_Provider : string; cb_ProviderError : string; cb_State : string; cb_Code : string; cb_StateSignature : string;
  cb_Verifier : string; cb_LinkTicket : string; cb_InvitationHandle : string; cb_Binding : string }.
Record CompleteLinkCmd := mkCompleteLink {
  kl_UserID : UUID; kl_LinkCode : string; kl_BindingProof : string; kl_Meta : option AuditMetadata }.
Record DisconnectProviderCmd := mkDisconnect { dp_UserID : UUID; dp_Provider : string }.
Record LoginWithBreakGlassCmd := mkLoginBreakGlass { lb_Password : string; lb_ClientIP : string; lb_UserAgent : string }.
Record DevSignInCmd := mkDevSignIn { ds_Roles : list Role; ds_ClientIP : string; ds_UserAgent : string }.

(** ** The calls *)

Inductive DanceOp : Type -> Type :=
  | DAuth {X} (op : AuthOp X) : DanceOp X
  (** the sign-in methods, as the live snapshot has them *)
  | DMethods : DanceOp Methods
  | DSecret : DanceOp string
  | DAuthCodeURL (g : Gateway) (state verifier : string) : DanceOp string
  | DExchange (g : Gateway) (code verifier : string) : DanceOp string
  | DAuthenticate (m : Method) (credential : string) : DanceOp OAuthIDTokenClaims
  | DPutCode (code : string) (entry : DanceCode) : DanceOp unit
  | DConsumeCode (code : string) : DanceOp (option DanceCode)
  | DPutLinkTicket (ticket : string) (intent : LinkIntent) : DanceOp unit
  | DPeekLinkTicket (ticket : string) : DanceOp (option LinkIntent)
  | DConsumeLinkTicket (ticket : string) : DanceOp (option LinkIntent)
  | DPutLinkCode (code : string) (link : PendingLink) : DanceOp unit
  | DConsumeLinkCode (code : string) : DanceOp (option PendingLink)
  | DPrepareHandle (handle invitationToken : string) : DanceOp unit
  | DResolveForIdentity (handle : string) (claims : OAuthIDTokenClaims) : DanceOp ResolvedInvitation
  | DClaimForUser (inv : ResolvedInvitation) (userID : UUID) : DanceOp User
  | DGetOrCreate (provider : AuthMethod) (info : OAuthProviderUserInfo) (policy : UserCreationPolicy) : DanceOp User
  | DLinkIdentity (userID : UUID) (provider : AuthMethod) (claims : OAuthIDTokenClaims) : DanceOp unit
  | DUnlinkIdentity (userID : UUID) (provider : AuthMethod) (keepsSignIn : bool) : DanceOp unit
  | DListConnected (userID : UUID) : DanceOp (list AuthMethod)
  | DEnsureBreakGlass (email name : string) : DanceOp User.

Definition da {A} (p : Prog AuthOp A) : Prog DanceOp A := prog_map (@DAuth) p.

(** The snapshot that is live at a moment. *)
Class LiveMethods := { live_methods : nat -> Methods }.

Definition danceSecretBytes : nat := 32.

Section handler.
Context `{Env} `{Collation} `{Goque} `{LicenseCache} `{SeatGuard} `{Sealer} `{Entropy} `{Jwt} `{Ozzo} `{Argon2}.
Context `{AuthMethodFlags} `{Unicode} `{IdentityProviders} `{LiveMethods}.
Context (cfg : JWTConfig) (codes : Otp.Service) (danceStateTTL : Duration) (allowOpenSignup : bool).

Definition newDanceSecret : M string := fun _ w =>
  (match read_full danceSecretBytes (entropy (w_step w)) with
   | Some (b, _) => Ok (string_of_list_ascii (RawURLEncoding_EncodeToString b))
   | None => Err (Errorf "generate dance secret" (EOther "EOF"))
   end, tick w).

Definition dance_handle (X : Type) (op : DanceOp X) : M X :=
  match op with
  | DAuth op => auth_handle cfg codes _ op
  | DMethods => idp live_methods
  | DSecret => newDanceSecret
  | DAuthCodeURL g state verifier => at_step (fun n => idp_AuthCodeURL n g state verifier)
  | DExchange g code verifier => at_step (fun n => idp_Exchange n g code verifier)
  | DAuthenticate m credential => Authenticate m credential
  | DPutCode code entry => PutCode code entry
  | DConsumeCode code => ConsumeCode code
  | DPutLinkTicket ticket intent => PutLinkTicket danceStateTTL ticket intent
  | DPeekLinkTicket ticket => PeekLinkTicket ticket
  | DConsumeLinkTicket ticket => ConsumeLinkTicket ticket
  | DPutLinkCode code link => PutLinkCode code link
  | DConsumeLinkCode code => ConsumeLinkCode code
  | DPrepareHandle handle invitationToken => PrepareHandle danceStateTTL handle invitationToken
  | DResolveForIdentity handle claims => ResolveForIdentity handle claims
  | DClaimForUser inv userID => ClaimForUser inv userID
  | DGetOrCreate provider info policy => GetOrCreateByAuthInfo allowOpenSignup provider info policy
  | DLinkIdentity userID provider claims => LinkIdentity userID provider claims
  | DUnlinkIdentity userID provider keepsSignIn => UnlinkIdentity userID provider keepsSignIn
  | DListConnected userID => ListConnectedProviders userID
  | DEnsureBreakGlass email name => EnsureBreakGlassAccount email name
  end.
End handler.

Section service.
Context `{Jwt} `{Unicode} (cfg : JWTConfig) (signingKey : list ascii) (danceStateTTL : Duration).

Definition dance_publishLoginFailure (actor : User) (meta : AuditMetadata) (reason : AuditFailureReason) : Prog DanceOp unit :=
  da (publishLoginFailure actor (Some meta) reason).
Definition time_Now : Prog DanceOp Time := call (DAuth (ATok TNow)).
(** [&entity.User{}], [&entity.User{ID: id}], [&entity.User{Email: ..., Name: ...}] *)
Definition nobody : User := claimedUser "".
Definition userWithID (id : UUID) : User := mkUser id "" "" [] zeroTime None None None None.
Definition userClaimed (claims : OAuthIDTokenClaims) : User :=
  mkUser uuid_Nil (oc_Email claims) (oc_Name claims) [] zeroTime None None None None.

(** ** service.go, oauth_dance.go *)

Definition danceGatewayFor (provider : AuthMethod) : Prog DanceOp Gateway :=
  m ← call DMethods;
  match DanceGateway m provider with
  | Some g => mret g
  | None => PErr (Errorf provider ErrUnsupportedProvider)
  end.
Definition verifyProviderCredential (provider : AuthMethod) (credential : string) : Prog DanceOp OAuthIDTokenClaims :=
  m ← call DMethods;
  match Get m provider with
  | inr err => PErr (Errorf "get oauth provider" err)
  | inl method => call_wrap (Errorf "verify provider credential") (DAuthenticate method credential)
  end.

(** ** sign_in_with_verified_claims.go *)

Definition resolveSignInUser (provider : AuthMethod) (claims : OAuthIDTokenClaims) (policy : UserCreationPolicy)
    (meta : AuditMetadata) : Prog DanceOp User :=
  r ← try_call (DGetOrCreate provider (mkUserInfo (oc_Subject claims) (oc_Email claims) (oc_Name claims)) policy);
  match r with
  | inr err =>
      dance_publishLoginFailure (userClaimed claims) meta (provisioningFailureReason err);;
      PErr (Errorf "get or create user" err)
  | inl user => mret user
  end.
Definition issueSignInPair (user : User) (meta : AuditMetadata) : Prog DanceOp TokenPair :=
  r ← prog_try (da (IssueTokenPair cfg user (md_IP meta)));
  match r with
  | inr err =>
      dance_publishLoginFailure user meta (issuanceFailureReason err);;
      PErr (Errorf "issue token pair" err)
  | inl issued =>
      da (auth_publishAudit (LoginSuccess user (Some (meta <| md_SessionID := uuid_String (tp_SessionID issued) |>
        <| md_LoginMethod := AuditLoginMethodOIDC |>))));;
      mret issued
  end.
Definition SignInWithVerifiedClaims (provider : AuthMethod) (claims : OAuthIDTokenClaims) (policy : UserCreationPolicy)
    (meta : AuditMetadata) : Prog DanceOp (TokenPair * User) :=
  user ← resolveSignInUser provider claims policy meta;
  issued ← issueSignInPair user meta;
  mret (issued, user).

(** ** oauth_dance_link.go *)

Definition publishLinkRefusedFor (userID : UUID) (meta : option AuditMetadata) (reason : AuditFailureReason) :
    Prog DanceOp unit :=
  da (auth_publishAudit (ProviderLinked (userWithID userID) (Some (metaWithReason meta reason)))).
Definition publishLinkRefused (meta : option AuditMetadata) : Prog DanceOp unit :=
  publishLinkRefusedFor uuid_Nil meta AuditFailureLinkUnusable.
Definition publishLinked (userID : UUID) (meta : option AuditMetadata) : Prog DanceOp unit :=
  da (auth_publishAudit (ProviderLinked (userWithID userID) meta)).

Definition verifyLinkTicket (ticket : string) (provider : AuthMethod) : Prog DanceOp unit :=
  if String.eqb ticket "" then mret tt
  else
    intent ← call_wrap (Errorf "peek link ticket") (DPeekLinkTicket ticket);
    match intent with
    | None => PErr ErrLinkTicketUnusable
    | Some intent => if negb (String.eqb (li_Provider intent) provider) then PErr ErrLinkTicketUnusable else mret tt
    end.

Definition parkLink (provider : AuthMethod) (linkTicket : string) (claims : OAuthIDTokenClaims) (binding : string)
    (meta : AuditMetadata) : Prog DanceOp DanceOutcome :=
  r ← try_call (DConsumeLinkTicket linkTicket);
  match r with
  | inr err => publishLinkRefused (Some meta);; PErr (Errorf "consume link ticket" err)
  | inl None => publishLinkRefused (Some meta);; PErr ErrLinkTicketUnusable
  | inl (Some intent) =>
      if negb (String.eqb (li_Provider intent) provider) then publishLinkRefused (Some meta);; PErr ErrLinkTicketUnusable
      else
        code ← call_wrap (Errorf "mint one-time link code") DSecret;
        call_wrap (Errorf "store one-time link code")
          (DPutLinkCode code (mkPendingLink (li_UserID intent) provider claims binding));;
        mret (mkOutcome "" code)
  end.

Definition refuseLink (userID : UUID) (meta : option AuditMetadata) (err : error) : Prog DanceOp unit :=
  if errors_Is err ErrUserNotFound || errors_Is err ErrUserBlocked
  then publishLinkRefused meta;; PErr (Errorf "the account is gone or blocked" ErrLinkCodeInvalid)
  else publishLinkRefusedFor userID meta AuditFailureLinkConflict;; PErr (Errorf "link identity" err).

(** ** complete_link.go, mint_link_ticket.go, connect_provider.go *)

Definition CompleteLink (cmd : CompleteLinkCmd) : Prog DanceOp unit :=
  link ← call_wrap (Errorf "consume link code") (DConsumeLinkCode (kl_LinkCode cmd));
  match link with
  | None => publishLinkRefused (kl_Meta cmd);; PErr ErrLinkCodeInvalid
  | Some link =>
      if negb (danceBindingProven (pl_Binding link) (kl_BindingProof cmd)) then
        publishLinkRefusedFor (pl_UserID link) (kl_Meta cmd) AuditFailureLinkUnusable;; PErr ErrLinkCodeInvalid
      else if negb (N.eqb (pl_UserID link) (kl_UserID cmd)) then
        publishLinkRefusedFor (pl_UserID link) (kl_Meta cmd) AuditFailureLinkUnusable;; PErr ErrLinkCodeInvalid
      else
        r ← try_call (DLinkIdentity (pl_UserID link) (pl_Provider link) (pl_Claims link));
        match r with
        | inr err => refuseLink (pl_UserID link) (kl_Meta cmd) err
        | inl _ => publishLinked (pl_UserID link) (kl_Meta cmd)
        end
  end.

Definition MintLinkTicket (userID : UUID) (providerSegment : string) : Prog DanceOp string :=
  m ← call DMethods;
  match DanceProvider m providerSegment with
  | None => PErr (Errorf providerSegment ErrUnsupportedProvider)
  | Some provider =>
      ticket ← call_wrap (Errorf "mint link ticket") DSecret;
      call_wrap (Errorf "store link ticket") (DPutLinkTicket ticket (mkLinkIntent userID provider));;
      mret ticket
  end.

Definition DisconnectProvider (cmd : DisconnectProviderCmd) : Prog DanceOp unit :=
  linked ← call_wrap (Errorf "list connected providers") (DListConnected (dp_UserID cmd));
  if negb (bool_decide (dp_Provider cmd ∈ linked)) then mret tt
  else
    keepsSignIn ← (if Nat.leb (length linked) 1
                   then prog_wrap (Errorf "check built-in sign-in") (da (hasBuiltinSignIn (dp_UserID cmd)))
                   else mret false);
    call_wrap (Errorf "unlink identity") (DUnlinkIdentity (dp_UserID cmd) (dp_Provider cmd) keepsSignIn).

(** ** oauth_dance_state.go *)

Definition mintInvitationHandle (invitationToken : string) : Prog DanceOp string :=
  if String.eqb invitationToken "" then mret ""%string
  else
    handle ← call_wrap (Errorf "mint invitation handle") DSecret;
    call_wrap (Errorf "store invitation handle") (DPrepareHandle handle invitationToken);;
    mret handle.

Definition StartDance (providerSegment invitationToken linkTicket binding : string) : Prog DanceOp DanceStart :=
  m ← call DMethods;
  match DanceProvider m providerSegment with
  | None => PErr (Errorf providerSegment ErrUnsupportedProvider)
  | Some provider =>
      if negb (validDanceBinding binding)
      then PErr (Errorf "missing or malformed browser binding" ErrOAuthDanceStateInvalid)
      else if negb (String.eqb linkTicket "") && negb (String.eqb invitationToken "")
      then PErr (Errorf "an invitation cannot be combined with a link" ErrValidation)
      else
        verifyLinkTicket linkTicket provider;;
        state ← call_wrap (Errorf "mint oauth state") DSecret;
        verifier ← call_wrap (Errorf "mint pkce verifier") DSecret;
        gateway ← danceGatewayFor provider;
        invitationHandle ← mintInvitationHandle invitationToken;
        authorizationURL ← call_wrap (Errorf "build authorization url") (DAuthCodeURL gateway state verifier);
        now ← time_Now;
        mret (mkDanceStart state (Sign signingKey provider state (Time_Add now danceStateTTL)) verifier authorizationURL
                danceStateTTL invitationHandle linkTicket binding)
  end.

(** A code that redeems nothing, and a code bound to another browser, look the
    same. *)
Definition RedeemDanceCode (code proof : string) : Prog DanceOp (option TokenPair) :=
  entry ← call_wrap (Errorf "consume one-time dance code") (DConsumeCode code);
  match entry with
  | None => mret None
  | Some entry => if negb (danceBindingProven (dc_Binding entry) proof) then mret None else mret (dc_Pair entry)
  end.

Definition isOurDance (cb : DanceCallback) : Prog DanceOp bool :=
  m ← call DMethods;
  match DanceProvider m (cb_Provider cb) with
  | None => mret false
  | Some provider =>
      if String.eqb (cb_StateSignature cb) "" then mret false
      else now ← time_Now; mret (Verify signingKey (cb_StateSignature cb) provider (cb_State cb) now)
  end.

Definition refuseDance {A} (meta : AuditMetadata) (err : error) : Prog DanceOp A :=
  dance_publishLoginFailure nobody meta AuditFailureSessionMismatch;;
  PErr err.

Definition verifyDanceOrigin (cb : DanceCallback) (meta : AuditMetadata) : Prog DanceOp AuthMethod :=
  m ← call DMethods;
  match DanceProvider m (cb_Provider cb) with
  | None => PErr (Errorf (cb_Provider cb) ErrUnsupportedProvider)
  | Some provider =>
      if String.eqb (cb_StateSignature cb) "" then PErr ErrOAuthDanceStateInvalid
      else
        now ← time_Now;
        if negb (Verify signingKey (cb_StateSignature cb) provider (cb_State cb) now)
        then refuseDance meta ErrOAuthDanceStateInvalid
        else if String.eqb (cb_Verifier cb) "" then refuseDance meta ErrOAuthDanceStateInvalid
        else if String.eqb (cb_Code cb) "" then refuseDance meta ErrOAuthDanceStateInvalid
        else if String.eqb (cb_Binding cb) "" then refuseDance meta ErrOAuthDanceStateInvalid
        else mret provider
  end.

Definition credentialFailureReason (err : error) : AuditFailureReason :=
  if errors_Is err ErrGithubEmailUnusable || errors_Is err ErrGithubIdentityUnusable then AuditFailureProviderRejected
  else AuditFailureProviderUnavailable.

Definition resolveInvitation (handle : string) (claims : OAuthIDTokenClaims) (meta : AuditMetadata) :
    Prog DanceOp (option ResolvedInvitation) :=
  if String.eqb handle "" then mret None
  else
    r ← try_call (DResolveForIdentity handle claims);
    match r with
    | inr err =>
        dance_publishLoginFailure (userClaimed claims) meta AuditFailureInvitationRefused;;
        PErr (Errorf "resolve invitation" err)
    | inl invitation => mret (Some invitation)
    end.

(** Phase 2: the roles of the invitation, for the account under its address. *)
Definition claimInvitation (invitation : option ResolvedInvitation) (user : User) (claims : OAuthIDTokenClaims)
    (meta : AuditMetadata) : Prog DanceOp User :=
  match invitation with
  | None => mret user
  | Some invitation =>
      if negb (unicode_EqualFold (u_Email user) (oc_Email claims)) then
        dance_publishLoginFailure user meta AuditFailureInvitationRefused;;
        PErr (Errorf "claim invitation" ErrEmailMismatch)
      else
        r ← try_call (DClaimForUser invitation (u_ID user));
        match r with
        | inr err =>
            dance_publishLoginFailure user meta AuditFailureUserProvisioning;;
            PErr (Errorf "claim invitation" err)
        | inl claimed => mret claimed
        end
  end.

Definition issueDanceCode (provider : AuthMethod) (credential : string) (cb : DanceCallback) (meta : AuditMetadata) :
    Prog DanceOp DanceOutcome :=
  r ← prog_try (verifyProviderCredential provider credential);
  match r with
  | inr err =>
      dance_publishLoginFailure nobody meta (credentialFailureReason err);;
      PErr (Errorf2 "" ErrOAuthExchangeFailed err)
  | inl claims =>
      if negb (String.eqb (cb_LinkTicket cb) "") then parkLink provider (cb_LinkTicket cb) claims (cb_Binding cb) meta
      else
        invitation ← resolveInvitation (cb_InvitationHandle cb) claims meta;
        let policy := mkPolicy (bool_decide (is_Some invitation)) [] in
        user ← prog_wrap (Errorf "sign in with verified claims") (resolveSignInUser provider claims policy meta);
        user ← claimInvitation invitation user claims meta;
        issued ← prog_wrap (Errorf "sign in with verified claims") (issueSignInPair user meta);
        code ← call_wrap (Errorf "mint one-time dance code") DSecret;
        call_wrap (Errorf "store one-time dance code") (DPutCode code (mkDanceCode (Some issued) (cb_Binding cb)));;
        mret (mkOutcome code "")
  end.

Definition oauthErrorAccessDenied : string := "access_denied".
Definition CompleteDance (cb : DanceCallback) (meta : AuditMetadata) : Prog DanceOp DanceOutcome :=
  if negb (String.eqb (cb_ProviderError cb) "") then
    ours ← isOurDance cb;
    (if (ours : bool) then dance_publishLoginFailure nobody meta AuditFailureProviderDenied else mret tt);;
    if String.eqb (cb_ProviderError cb) oauthErrorAccessDenied then PErr ErrOAuthConsentDeclined
    else PErr (Errorf (cb_ProviderError cb) ErrOAuthProviderDenied)
  else
    provider ← verifyDanceOrigin cb meta;
    gateway ← danceGatewayFor provider;
    r ← try_call (DExchange gateway (cb_Code cb) (cb_Verifier cb));
    match r with
    | inr err =>
        dance_publishLoginFailure nobody meta AuditFailureProviderUnavailable;;
        PErr (Errorf2 "" ErrOAuthExchangeFailed err)
    | inl credential => issueDanceCode provider credential cb meta
    end.

(** ** login_with_break_glass.go, dev_sign_in.go *)

Definition LoginWithBreakGlass (cmd : LoginWithBreakGlassCmd) : Prog DanceOp TokenPair :=
  let meta := (clientMeta (lb_ClientIP cmd) (lb_UserAgent cmd)) <| md_LoginMethod := AuditLoginMethodBootstrap |> in
  let breakGlass := mkUser uuid_Nil BreakGlassEmail BreakGlassName [] zeroTime None None None None in
  m ← call DMethods;
  match Get m AuthMethodBootstrap with
  | inr err => PErr (Errorf "get auth method" err)
  | inl method =>
      r ← try_call (DAuthenticate method (lb_Password cmd));
      match r with
      | inr _ =>
          dance_publishLoginFailure breakGlass meta AuditFailureInvalidCredentials;;
          PErr ErrInvalidCredentials
      | inl claims =>
          r ← try_call (DEnsureBreakGlass (oc_Email claims) (oc_Name claims));
          match r with
          | inr err =>
              dance_publishLoginFailure breakGlass meta (provisioningFailureReason err);;
              PErr (Errorf "ensure break-glass account" err)
          | inl user =>
              r ← prog_try (da (IssueTokenPair cfg user (lb_ClientIP cmd)));
              match r with
              | inr err =>
                  dance_publishLoginFailure user meta (issuanceFailureReason err);;
                  PErr (Errorf "issue token pair" err)
              | inl issued =>
                  da (auth_publishAudit (LoginSuccess user (Some (meta <| md_SessionID := uuid_String (tp_SessionID issued) |>))));;
                  mret issued
              end
          end
      end
  end.

Definition DevSignIn (cmd : DevSignInCmd) : Prog DanceOp TokenPair :=
  if negb (forallb Role_Valid (ds_Roles cmd)) then PErr ErrInvalidRole
  else
    id ← call (DAuth (ATok TNewUUID));
    subject ← call (DAuth (ATok TNewUUID));
    let claims := mkOAuthClaims (uuid_String subject) (uuid_String id +:+ "@mail.com")
                    ("User Name[" +:+ uuid_String id +:+ "]") true in
    r ← SignInWithVerifiedClaims AuthMethodGoogle claims (mkPolicy true (uniq (ds_Roles cmd)))
          (clientMeta (ds_ClientIP cmd) (ds_UserAgent cmd));
    mret (fst r).
End service.
