(* ===== verification/UserSpec.v ===== *)
(** * Transactions on users, against each other

    The transactions of the user service (Users.v) run at READ COMMITTED: a
    statement sees what has been committed and what its own transaction wrote, a
    row that was read FOR UPDATE or written and an advisory lock stay with the
    transaction until it ends, and whoever asks for one of them waits.
    [tx_step] runs any number of transactions, statement by statement, against
    one users table; the rest of the world, the clock and the faults of the
    server included, is arbitrary at every statement.

    [guard_kept] is the argument behind both guards: a transaction that takes
    something away has counted, under an advisory lock it still holds, that
    there is room for it. *)
From Stdlib Require Import ZArith Lia Ascii String.
From stdpp Require Import base sorting sets strings numbers list gmap.
From S2P Require Import Prelude Go Entity Conflict AuditTrail Schema Logic Dbtx Interleave MaintStore Queue.
From S2P Require Import Like Crypto UserStore License Sessions Users Fixtures.
Open Scope Z_scope.

(** ** What a transaction was answered *)

Notation UserEvent := (@Event UserOp).

(** The row a statement locked and read. *)
Definition read_of (e : UserEvent) : option User :=
  match e with
  | Ev _ op r => match op in UserOp X return outcome X -> option User with
                 | UGetForUpdate _ => fun r => match r with Ok u => Some u | _ => None end
                 | _ => fun _ => None
                 end r
  end.
(** The user a statement wrote over a row. *)
Definition write_of (e : UserEvent) : option User :=
  match e with
  | Ev _ op r => match op in UserOp X return outcome X -> option User with
                 | UUpdate u => fun r => match r with Ok _ => Some u | _ => None end
                 | _ => fun _ => None
                 end r
  end.
(** The row a statement inserted. *)
Definition insert_of (e : UserEvent) : option User :=
  match e with
  | Ev _ op r => match op in UserOp X return outcome X -> option User with
                 | UCreate _ => fun r => match r with Ok u => Some u | _ => None end
                 | _ => fun _ => None
                 end r
  end.
(** The advisory lock a statement took. *)
Definition key_of (e : UserEvent) : option Z :=
  match e with
  | Ev _ op r => match op in UserOp X return outcome X -> option Z with
                 | ULockAdmins => fun r => match r with Ok _ => Some 1 | _ => None end
                 | @USeat X op => fun r => match op, r with SLockSeats, Ok _ => Some 2 | _, _ => None end
                 | _ => fun _ => None
                 end r
  end.
Definition reads (es : list UserEvent) : list User := omap read_of es.
Definition writes (es : list UserEvent) : list User := omap write_of es.
Definition inserts (es : list UserEvent) : list User := omap insert_of es.
Definition keys (es : list UserEvent) : list Z := omap key_of es.

(** [fromDBUser] loses nothing. *)
Definition row_of (u : User) : UserRow :=
  mkUserRow (u_ID u) (u_Email u) (u_Name u) (u_Roles u) (u_CreatedAt u) (u_BlockedAt u) (u_Timezone u)
    (u_TelegramTag u) (u_SlackTag u).

(** The table as the transaction sees it, and as it leaves it. *)
Definition replay (rows : list UserRow) (e : UserEvent) : list UserRow :=
  match write_of e, insert_of e with
  | Some u, _ => written u <$> rows
  | None, Some u => rows ++ [row_of u]
  | None, None => rows
  end.
Definition view (rows : list UserRow) (es : list UserEvent) : list UserRow := foldl replay rows es.

(** A statement of one transaction need not wait for another that was answered
    [es]. *)
Definition free (es : list UserEvent) (e : UserEvent) : Prop :=
  Forall (fun v => u_ID v ∉ u_ID <$> reads es ++ writes es) (option_list (read_of e)) ∧
  Forall (fun u => u_ID u ∉ u_ID <$> reads es ++ writes es) (option_list (write_of e)) ∧
  Forall (fun u => u_ID u ∉ u_ID <$> inserts es ∧ u_Email u ∉ u_Email <$> inserts es) (option_list (insert_of e)) ∧
  Forall (fun k => k ∉ keys es) (option_list (key_of e)).
#[export] Instance free_dec es e : Decision (free es e).
Proof. apply _. Defined.

Section semantics.
Context `{Env} `{Goque} `{Collation} `{LicenseCache}.

(** A transaction under way: what is left of it, and what it was answered. *)
Notation Tx := (Prog UserOp unit * list UserEvent)%type.
Record TxConf := mkTxConf { committed : list UserRow; running : gmap nat Tx }.

Inductive tx_step (arrives : Prog UserOp unit -> Prop) : TxConf -> TxConf -> Prop :=
  | tx_begin rows txs i p :
      arrives p -> txs !! i = None -> tx_step arrives (mkTxConf rows txs) (mkTxConf rows (<[i := (p, [])]> txs))
  | tx_call rows txs i X (op : UserOp X) k es ctx w r w' :
      txs !! i = Some (PCall op k, es) ->
      users (w_db w) = view rows es -> user_handle _ op ctx w = (r, w') ->
      (∀ j p es', j ≠ i -> txs !! j = Some (p, es') -> free es' (Ev i op r)) ->
      tx_step arrives (mkTxConf rows txs) (mkTxConf rows (<[i := (resume k r, es ++ [Ev i op r])]> txs))
  | tx_commit rows txs i es :
      txs !! i = Some (PRet tt, es) ->
      tx_step arrives (mkTxConf rows txs) (mkTxConf (view rows es) (delete i txs))
  (** it failed, or the connection was lost *)
  | tx_rollback rows txs i :
      tx_step arrives (mkTxConf rows txs) (mkTxConf rows (delete i txs)).

(** A given schedule, run: each statement in the world [w0]. *)
Inductive Move := MBegin (i : nat) (p : Prog UserOp unit) | MCall (i : nat) | MCommit (i : nat) | MRollback (i : nat).
Definition tx_fire (w0 : World) (c : TxConf) (m : Move) : option TxConf :=
  let 'mkTxConf rows txs := c in
  match m with
  | MBegin i p => match txs !! i with
                  | None => Some (mkTxConf rows (<[i := (p, [])]> txs))
                  | Some _ => None
                  end
  | MCall i => match txs !! i with
               | Some (PCall op k, es) =>
                   let w := w0 <| w_db := ((w_db w0) <| users := view rows es |>) |> in
                   let '(r, _) := user_handle _ op (mkCtx (Some (env_now 0))) w in
                   if decide (map_Forall (fun j t => j ≠ i -> free (snd t) (Ev i op r)) txs)
                   then Some (mkTxConf rows (<[i := (resume k r, es ++ [Ev i op r])]> txs))
                   else None
               | _ => None
               end
  | MCommit i => match txs !! i with
                 | Some (PRet tt, es) => Some (mkTxConf (view rows es) (delete i txs))
                 | _ => None
                 end
  | MRollback i => Some (mkTxConf rows (delete i txs))
  end.
Fixpoint tx_run (w0 : World) (c : TxConf) (ms : list Move) : option TxConf :=
  match ms with
  | [] => Some c
  | m :: ms => c' ← tx_fire w0 c m; tx_run w0 c' ms
  end.

Definition tx_reachable (arrives : Prog UserOp unit -> Prop) (rows : list UserRow) : TxConf -> Prop :=
  rtc (tx_step arrives) (mkTxConf rows ∅).

Lemma tx_fire_step arrives w0 c m c' :
  (∀ i p, m = MBegin i p -> arrives p) -> tx_fire w0 c m = Some c' -> tx_step arrives c c'.
Proof.
  intros Ha. destruct c as [rows txs]. destruct m as [i p|i|i|i]; simpl.
  - destruct (txs !! i) eqn:Ei; [done|]. intros [= <-]. constructor; [by eapply Ha|done].
  - destruct (txs !! i) as [[[| |X op k] es]|] eqn:Ei; try done.
    destruct (user_handle X op _ _) as [r w'] eqn:Eh. case_decide as Hfree; [|done]. intros [= <-].
    eapply tx_call; [done| |exact Eh|]; [done|]. intros j p es' Hne Hj. by apply (Hfree j (p, es') Hj).
  - destruct (txs !! i) as [[[[]| |X op k] es]|] eqn:Ei; try done. intros [= <-]. by constructor.
  - intros [= <-]. constructor.
Qed.

Lemma tx_run_steps arrives w0 ms c c' :
  Forall (fun m => match m with MBegin _ p => arrives p | _ => True end) ms ->
  tx_run w0 c ms = Some c' -> rtc (tx_step arrives) c c'.
Proof.
  intros Hms. revert c. induction Hms as [|m ms Hm _ IH]; intros c; simpl; [intros [= <-]; constructor|].
  intros (c1 & Hs1 & Hs2)%bind_Some. eapply rtc_l; [|by apply IH]. eapply tx_fire_step; [|exact Hs1]. by intros i p ->.
Qed.
End semantics.

(** ** A guard *)

(** What is guarded ([g_good]), what leaves room to take one away ([g_room]),
    which write takes one away, the lock, the answers that show room, and what
    the answers have in common. *)
Record Guard := mkGuard {
  g_key : Z; g_good : list UserRow -> Prop; g_room : list UserRow -> Prop; g_takes : User -> User -> bool;
  g_shows : UserEvent -> Prop; g_plausible : UserEvent -> Prop }.

(** The calls that may come after the write. *)
Definition late {X} (op : UserOp X) : bool :=
  match op with
  | UGetByID _ | UPublish _ => true
  | _ => false
  end.

Notation ids rows := (@fmap list _ UserRow UUID ur_ID rows).

Class GuardSpec `{Env} `{Goque} `{Collation} `{LicenseCache} (G : Guard) : Prop := {
  keep_good rows r u : NoDup (ids rows) -> r ∈ rows -> ur_ID r = u_ID u -> g_takes G (fromDBUser r) u = false ->
    g_good G rows -> g_good G (written u <$> rows);
  keep_room rows r u : NoDup (ids rows) -> r ∈ rows -> ur_ID r = u_ID u -> g_takes G (fromDBUser r) u = false ->
    g_room G rows -> g_room G (written u <$> rows);
  spend_room rows u : NoDup (ids rows) -> g_room G rows -> g_good G (written u <$> rows);
  insert_good rows u : u_Roles u = DefaultRoles -> g_good G rows -> g_good G (rows ++ [row_of u]);
  insert_room rows u : u_Roles u = DefaultRoles -> g_room G rows -> g_room G (rows ++ [row_of u]);
  answers_plausible i X (op : UserOp X) ctx w r w' : user_handle _ op ctx w = (r, w') -> g_plausible G (Ev i op r);
  shows_room i X (op : UserOp X) ctx w r w' :
    user_handle _ op ctx w = (r, w') -> g_shows G (Ev i op r) -> late op = false ∧ g_room G (users (w_db w)) }.

(** The lock, and then an answer that shows room. *)
Definition evidence (G : Guard) (es : list UserEvent) : Prop :=
  ∃ es1 e1 es2 e2 es3, es = es1 ++ e1 :: es2 ++ e2 :: es3 ∧ key_of e1 = Some (g_key G) ∧ g_shows G e2.

(** The order of a transaction: inserts before locks, one write, of a row it
    locked and read, and what takes away only on evidence. *)
Definition allowed (G : Guard) (es : list UserEvent) (X : Type) (op : UserOp X) : Prop :=
  (late op = false -> writes es = []) ∧
  match op with
  | UCreate u => keys es = [] ∧ u_Roles u = DefaultRoles
  | ULockAdmins | UCountAdmins | USeat _ => inserts es = []
  | UUpdate u => ∃ v, v ∈ reads es ∧ u_ID v = u_ID u ∧ (g_takes G v u = true -> Forall (g_plausible G) es -> evidence G es)
  | _ => True
  end.

Section guarded.
Context `{Env} `{Goque} `{Collation} `{LicenseCache} (G : Guard) `{!GuardSpec G}.

Lemma row_of_fromDBUser r : row_of (fromDBUser r) = r.
Proof. by destruct r. Qed.

Lemma ids_written u rows : ids (written u <$> rows) = ids rows.
Proof.
  rewrite <- list_fmap_compose. apply list_fmap_ext. intros i r _. simpl. unfold written.
  destruct (N.eqb (ur_ID r) (u_ID u)); by destruct r.
Qed.

Lemma written_other u r : ur_ID r ≠ u_ID u -> written u r = r.
Proof. intros Hne. unfold written. by rewrite (proj2 (N.eqb_neq _ _) Hne). Qed.

Lemma evidence_app es es' : evidence G es -> evidence G (es ++ es').
Proof.
  intros (es1 & e1 & es2 & e2 & es3 & -> & Hk & Hs). exists es1, e1, es2, e2, (es3 ++ es').
  split; [|done]. by rewrite <- !app_assoc, <- app_comm_cons, <- app_assoc, <- app_comm_cons.
Qed.

Lemma evidence_snoc es e :
  evidence G (es ++ [e]) -> evidence G es ∨ g_key G ∈ keys es ∧ g_shows G e.
Proof.
  intros (es1 & e1 & es2 & e2 & es3 & Heq & Hk & Hs).
  destruct es3 as [|e3 es3 _] using rev_ind.
  - right. rewrite app_comm_cons, app_assoc in Heq. apply app_inj_tail in Heq as [-> ->].
    split; [|done]. unfold keys. rewrite omap_app. apply elem_of_app. right. simpl. rewrite Hk. by left.
  - left. rewrite app_comm_cons, !app_assoc, app_comm_cons, app_assoc in Heq.
    apply app_inj_tail in Heq as [-> ->]. exists es1, e1, es2, e2, es3. split; [|done].
    by rewrite <- ?app_assoc, <- ?app_comm_cons, <- ?app_assoc.
Qed.

Lemma evidence_key es : evidence G es -> g_key G ∈ keys es.
Proof.
  intros (es1 & e1 & es2 & e2 & es3 & -> & Hk & _). unfold keys. rewrite omap_app. apply elem_of_app. right.
  simpl. rewrite Hk. by left.
Qed.

(** ** The invariant of one transaction *)

Record tx_inv (rows : list UserRow) (es : list UserEvent) : Prop := {
  ti_plausible : Forall (g_plausible G) es;
  ti_view : ∀ rows', view rows' es = foldl (fun rows u => written u <$> rows) (rows' ++ (row_of <$> inserts es)) (writes es);
  ti_fresh : NoDup (ids rows ++ (u_ID <$> inserts es));
  ti_plain : Forall (fun u => u_Roles u = DefaultRoles) (inserts es);
  ti_keys : keys es ≠ [] -> inserts es = [];
  ti_reads : ∀ v, v ∈ reads es -> row_of v ∈ rows ++ (row_of <$> inserts es);
  ti_writes : writes es = [] ∨ ∃ u v, writes es = [u] ∧ v ∈ reads es ∧ u_ID v = u_ID u ∧
    (g_takes G v u = true -> evidence G es);
  ti_room : evidence G es -> g_room G rows }.

Lemma tx_inv_nil rows : NoDup (ids rows) -> tx_inv rows [].
Proof.
  intros Hnd. constructor; [constructor| | |constructor|done|by intros v ?%not_elem_of_nil|by left|].
  - intros rows'. by rewrite app_nil_r.
  - by rewrite app_nil_r.
  - intros Hev%evidence_key. by apply not_elem_of_nil in Hev.
Qed.

(** The rows of the view carry distinct ids. *)
Lemma ids_all rows es : ids (rows ++ (row_of <$> inserts es)) = ids rows ++ (u_ID <$> inserts es).
Proof. by rewrite fmap_app, <- list_fmap_compose. Qed.

(** ** A commit *)

Lemma foldl_insert_keeps (P : list UserRow -> Prop) rows us :
  (∀ rows u, u_Roles u = DefaultRoles -> P rows -> P (rows ++ [row_of u])) ->
  Forall (fun u => u_Roles u = DefaultRoles) us -> P rows -> P (rows ++ (row_of <$> us)).
Proof.
  intros HP Hus. revert rows. induction Hus as [|u us Hu _ IH]; intros rows Hr; simpl; [by rewrite app_nil_r|].
  rewrite (cons_middle (row_of u)), app_assoc. apply IH. by apply HP.
Qed.

Lemma view_cases rows es :
  tx_inv rows es ->
  let rows1 := rows ++ (row_of <$> inserts es) in
  view rows es = rows1 ∨
  ∃ u r, writes es = [u] ∧ view rows es = written u <$> rows1 ∧ r ∈ rows1 ∧ ur_ID r = u_ID u ∧ fromDBUser r ∈ reads es ∧
    (g_takes G (fromDBUser r) u = true -> evidence G es ∧ inserts es = []).
Proof.
  intros [_ Hv _ _ Hk Hr Hw _]. destruct Hw as [Hw|(u & v & Hw & Hin & Hid & Ht)]; rewrite Hv, Hw; [by left|right].
  assert (fromDBUser (row_of v) = v) as Ev by by destruct v.
  exists u, (row_of v). split_and!; [done|done|by apply Hr|by destruct v|by rewrite Ev|].
  rewrite Ev. intros Htk. split; [by apply Ht|]. apply Hk. intros Hnil. pose proof (evidence_key _ (Ht Htk)) as Hkey.
  rewrite Hnil in Hkey. by apply not_elem_of_nil in Hkey.
Qed.

Lemma commit_good rows es : tx_inv rows es -> g_good G rows -> g_good G (view rows es).
Proof.
  intros Hi Hg. assert (g_good G (rows ++ (row_of <$> inserts es))) as Hg1.
  { apply foldl_insert_keeps; [apply insert_good|apply Hi|done]. }
  destruct (view_cases _ _ Hi) as [->|(u & r & _ & -> & Hr & Hid & _ & Ht)]; [done|].
  assert (NoDup (ids (rows ++ (row_of <$> inserts es)))) as Hnd by (rewrite ids_all; apply Hi).
  destruct (g_takes G (fromDBUser r) u) eqn:Htk; [|by eapply keep_good].
  destruct (Ht eq_refl) as [Hev Hins]. rewrite Hins in *. simpl in *. rewrite app_nil_r in *.
  apply spend_room; [done|]. by apply (ti_room _ _ Hi).
Qed.

Lemma commit_room rows es : tx_inv rows es -> g_key G ∉ keys es -> g_room G rows -> g_room G (view rows es).
Proof.
  intros Hi Hkey Hg. assert (g_room G (rows ++ (row_of <$> inserts es))) as Hg1.
  { apply foldl_insert_keeps; [apply insert_room|apply Hi|done]. }
  destruct (view_cases _ _ Hi) as [->|(u & r & _ & -> & Hr & Hid & _ & Ht)]; [done|].
  assert (NoDup (ids (rows ++ (row_of <$> inserts es)))) as Hnd by (rewrite ids_all; apply Hi).
  destruct (g_takes G (fromDBUser r) u) eqn:Htk; [|by eapply keep_room].
  destruct Hkey. apply evidence_key. by apply Ht.
Qed.

(** What another transaction knows of the rows survives the commit of one that
    does not hold its locks. *)
Definition compat (es es' : list UserEvent) : Prop :=
  (∀ k, k ∈ keys es -> k ∉ keys es') ∧
  (∀ id, id ∈ u_ID <$> reads es -> id ∉ u_ID <$> reads es') ∧
  (∀ id, id ∈ u_ID <$> inserts es -> id ∉ u_ID <$> inserts es').

Lemma compat_sym es es' : compat es es' -> compat es' es.
Proof. intros (Hk & Hr & Hi). split_and!; intros x Hx Hx'; naive_solver. Qed.

Lemma ids_view rows es : tx_inv rows es -> ids (view rows es) = ids rows ++ (u_ID <$> inserts es).
Proof.
  intros Hi. destruct (view_cases _ _ Hi) as [->|(u & r & _ & -> & _)]; [|rewrite ids_written]; apply ids_all.
Qed.

Lemma commit_keeps_row rows es es' v :
  tx_inv rows es -> compat es es' -> v ∈ reads es' -> row_of v ∈ rows -> row_of v ∈ view rows es.
Proof.
  intros Hi (_ & Hr & _) Hv Hin. assert (row_of v ∈ rows ++ (row_of <$> inserts es)) as Hin1 by (apply elem_of_app; by left).
  destruct (view_cases _ _ Hi) as [->|(u & r & _ & -> & _ & Hid & Hread & _)]; [done|].
  rewrite <- (written_other u (row_of v)); [by apply list_elem_of_fmap_2|].
  intros Heq. apply (Hr (u_ID v)).
  - apply list_elem_of_fmap. exists (fromDBUser r). split; [|done]. destruct v, r. simpl in *. congruence.
  - by apply list_elem_of_fmap_2.
Qed.

Lemma commit_other rows es es' :
  tx_inv rows es -> tx_inv rows es' -> compat es es' -> tx_inv (view rows es) es'.
Proof.
  intros Hi Hi' Hc. destruct Hi' as [Hp Hv Hf Hpl Hk Hr Hw Hro]. constructor; try done.
  - rewrite (ids_view _ _ Hi). pose proof (ti_fresh _ _ Hi) as Hf0. destruct Hc as (_ & _ & Hc).
    apply NoDup_app in Hf as (_ & Hf1 & Hf2). apply NoDup_app. split_and!; [done| |done].
    intros id [Hid|Hid]%elem_of_app; [by apply Hf1|by apply Hc].
  - intros v Hin. specialize (Hr v Hin). apply elem_of_app in Hr as [Hr|Hr]; apply elem_of_app; [left|by right].
    by eapply commit_keeps_row.
  - intros Hev. apply commit_room; [done| |by apply Hro]. intros Hkey. destruct Hc as (Hc & _).
    by apply (Hc _ Hkey), evidence_key.
Qed.

(** ** A statement *)

Lemma GetForUpdate_Ok id ctx w v w' :
  UserStore.GetForUpdateByID id ctx w = (Ok v, w') -> row_of v ∈ users (w_db w).
Proof.
  intros (r & w1 & Hq & Hg)%bind_Ok. apply query_Ok in Hq as (-> & _). unfold find_user in Hg.
  destruct (List.find _ _) as [r|] eqn:Ef; [|done]. injection Hg as <- _. rewrite row_of_fromDBUser.
  apply find_some in Ef as [Hin _]. by apply list_elem_of_In.
Qed.

Lemma Create_fresh u ctx w v w' :
  UserStore.Create u ctx w = (Ok v, w') -> u_Roles v = u_Roles u ∧ u_ID v ∉ ids (users (w_db w)).
Proof.
  intros (db' & Hf & _)%sql_Ok. apply require_Ok in Hf as [_ Hf]. apply require_Ok in Hf as [Hu Hf].
  injection Hf as <- _. split; [done|]. apply negb_true_iff in Hu. intros (r & Hid & Hin)%list_elem_of_fmap.
  apply not_true_iff_false in Hu. apply Hu, existsb_exists. exists r. split; [by apply list_elem_of_In|].
  apply orb_true_iff. left. by apply N.eqb_eq.
Qed.

(** What an answer says, in the order of the transaction. *)
Lemma answer_facts es i X (op : UserOp X) ctx w r w' :
  allowed G es X op -> user_handle _ op ctx w = (r, w') ->
  let e := Ev i op r in
  (∀ u, write_of e = Some u -> insert_of e = None ∧ writes es = [] ∧
     ∃ v, v ∈ reads es ∧ u_ID v = u_ID u ∧ (g_takes G v u = true -> Forall (g_plausible G) es -> evidence G es)) ∧
  (∀ u, insert_of e = Some u -> write_of e = None ∧ key_of e = None ∧ writes es = [] ∧ keys es = [] ∧
     u_Roles u = DefaultRoles ∧ u_ID u ∉ ids (users (w_db w))) ∧
  (∀ v, read_of e = Some v -> write_of e = None ∧ insert_of e = None ∧ writes es = [] ∧ row_of v ∈ users (w_db w)) ∧
  (∀ k, key_of e = Some k -> write_of e = None ∧ insert_of e = None ∧ inserts es = []).
Proof.
  intros [Hl Ha] Hh. destruct op; simpl in *; (split_and!; [..|]); intros x Hx; try done; destruct r as [y|?|?]; try done;
    try (injection Hx as <-); try (by naive_solver).
  - split_and!; [done..|by apply Hl|by eapply GetForUpdate_Ok].
  - apply Create_fresh in Hh as [Hro Hid]. split_and!; try done; [by apply Hl|naive_solver|]. rewrite Hro. naive_solver.
Qed.

Lemma omap_one {B} (f : UserEvent -> option B) e : omap f [e] = option_list (f e).
Proof. exact (omap_snoc f [] e). Qed.

Lemma call_keeps rows es i X (op : UserOp X) ctx w r w' :
  tx_inv rows es -> allowed G es X op -> users (w_db w) = view rows es -> user_handle _ op ctx w = (r, w') ->
  tx_inv rows (es ++ [Ev i op r]).
Proof.
  intros Hi Ha Hu Hh. pose proof (answer_facts es i _ op _ _ _ _ Ha Hh) as (Fw & Fi & Fr & Fk). rewrite Hu in *.
  pose proof (shows_room i _ op _ _ _ _ Hh) as Fs. pose proof (answers_plausible i _ op _ _ _ _ Hh) as Fp.
  assert (writes es = [] -> view rows es = rows ++ (row_of <$> inserts es)) as Hplain.
  { intros Hw. by rewrite (ti_view _ _ Hi), Hw. }
  destruct Hi as [Hp Hv Hf Hpl Hk Hr Hw Hro]. remember (Ev i op r) as e eqn:Ee. clear Ee.
  assert (inserts (es ++ [e]) = inserts es ++ option_list (insert_of e)) as Ei by apply omap_snoc.
  assert (writes (es ++ [e]) = writes es ++ option_list (write_of e)) as Ew by apply omap_snoc.
  assert (reads (es ++ [e]) = reads es ++ option_list (read_of e)) as Er by apply omap_snoc.
  assert (keys (es ++ [e]) = keys es ++ option_list (key_of e)) as Ek by apply omap_snoc.
  constructor; rewrite ?Ei, ?Ew, ?Er, ?Ek.
  - apply Forall_app. split; [done|]. by constructor.
  - intros rows'. unfold view. rewrite foldl_app. change (foldl replay rows' es) with (view rows' es). simpl.
    unfold replay. rewrite Hv. destruct (write_of e) as [u|] eqn:Ewe.
    { destruct (Fw _ eq_refl) as (-> & -> & _). simpl. by rewrite app_nil_r. }
    destruct (insert_of e) as [u|] eqn:Eie; simpl; rewrite ?app_nil_r; [|done].
    destruct (Fi _ eq_refl) as (_ & _ & -> & _). simpl. by rewrite fmap_app, app_assoc.
  - destruct (insert_of e) as [u|] eqn:Eie; simpl; [|by rewrite app_nil_r].
    destruct (Fi _ eq_refl) as (_ & _ & Hnw & _ & _ & Hnew). rewrite (Hplain Hnw), ids_all in Hnew.
    rewrite fmap_app, app_assoc. apply NoDup_app. split_and!; [done| |apply NoDup_singleton].
    intros id Hid ->%list_elem_of_singleton. done.
  - apply Forall_app. split; [done|]. destruct (insert_of e) as [u|] eqn:Eie; simpl; [|constructor].
    constructor; [|constructor]. naive_solver.
  - destruct (key_of e) as [k|] eqn:Eke; simpl.
    + destruct (Fk _ eq_refl) as (_ & -> & ->). done.
    + rewrite app_nil_r. intros Hne. rewrite (Hk Hne). destruct (insert_of e) as [u|] eqn:Eie; [|done]. naive_solver.
  - intros v [Hin|Hin]%elem_of_app.
    + specialize (Hr v Hin). rewrite fmap_app, app_assoc. apply elem_of_app. by left.
    + destruct (read_of e) as [v'|] eqn:Ere; simpl in Hin; [|by apply not_elem_of_nil in Hin].
      apply list_elem_of_singleton in Hin as ->. destruct (Fr _ eq_refl) as (_ & -> & Hnw & Hrow).
      rewrite (Hplain Hnw) in Hrow. simpl. by rewrite app_nil_r.
  - destruct (write_of e) as [u|] eqn:Ewe; simpl.
    + destruct (Fw _ eq_refl) as (_ & -> & v & Hin & Hid & Hev). right. exists u, v.
      split_and!; [done|apply elem_of_app; by left|done|]. intros Ht. apply evidence_app. by apply Hev.
    + rewrite app_nil_r. destruct Hw as [Hw|(u & v & Hw & Hin & Hid & Hev)]; [by left|right].
      exists u, v. split_and!; [done|apply elem_of_app; by left|done|]. intros Ht. by apply evidence_app, Hev.
  - intros [Hev|[Hkey Hsh]]%evidence_snoc; [by apply Hro|]. destruct (Fs Hsh) as [Hl Hroom].
    rewrite Hu, Hplain, Hk in Hroom; [by rewrite app_nil_r in Hroom| |by apply Ha].
    intros Hnil. rewrite Hnil in Hkey. by apply not_elem_of_nil in Hkey.
Qed.

(** ** Any number of transactions *)

Record conf_inv (c : TxConf) : Prop := {
  ci_nodup : NoDup (ids (committed c));
  ci_good : g_good G (committed c);
  ci_each : ∀ i p es, running c !! i = Some (p, es) -> calls_hist (allowed G) es p ∧ tx_inv (committed c) es;
  ci_compat : ∀ i j p es q es', i ≠ j -> running c !! i = Some (p, es) -> running c !! j = Some (q, es') -> compat es es' }.

Lemma compat_call es es' e :
  compat es es' -> free es' e -> compat (es ++ [e]) es'.
Proof.
  intros (Hk & Hr & Hi) (Fr & _ & Fi & Fk). unfold keys, reads, inserts in *.
  split_and!; intros x; [rewrite (omap_snoc key_of)|rewrite (omap_snoc read_of), fmap_app|rewrite (omap_snoc insert_of), fmap_app];
    rewrite elem_of_app; (intros [Hx|Hx]; [by auto|]).
  - rewrite Forall_forall in Fk. by apply Fk.
  - apply list_elem_of_fmap in Hx as (v & -> & Hx). rewrite Forall_forall in Fr. intros Hin. apply (Fr v Hx).
    rewrite fmap_app. apply elem_of_app. by left.
  - apply list_elem_of_fmap in Hx as (v & -> & Hx). rewrite Forall_forall in Fi. by apply Fi.
Qed.

Lemma step_keeps arrives c c' :
  (∀ p, arrives p -> calls_hist (allowed G) [] p) -> tx_step arrives c c' -> conf_inv c -> conf_inv c'.
Proof.
  intros Harr Hs [Hnd Hg He Hc].
  destruct Hs as [rows txs i p Hp Hi|rows txs i X op k es ctx w r w' Hi Hu Hh Hfree|rows txs i es Hi|rows txs i]; simpl in *.
  - constructor; simpl; [done|done| |].
    + intros j q es [[-> [= <- <-]]|[_ Hj]]%lookup_insert_Some; [|by eauto]. split; [by apply Harr|by apply tx_inv_nil].
    + intros j l q es q' es' Hne [[-> [= <- <-]]|[Hij Hj]]%lookup_insert_Some [[-> [= <- <-]]|[Hil Hl]]%lookup_insert_Some;
        [done|..|by eapply (Hc j l)]; split_and!; intros x; simpl; set_solver.
  - destruct (He _ _ _ Hi) as [Hca Hti]. apply calls_hist_inv in Hca as [Hal Hnext].
    constructor; simpl; [done|done| |].
    + intros j q es' [[-> [= <- <-]]|[_ Hj]]%lookup_insert_Some; [|by eauto]. split; [apply Hnext|by eapply call_keeps].
    + intros j l q es1 q' es2 Hne [[-> [= <- <-]]|[Hij Hj]]%lookup_insert_Some [[-> [= <- <-]]|[Hil Hl]]%lookup_insert_Some;
        [done|..|by eapply (Hc j l)].
      * apply compat_call; [by eapply (Hc j l)|by eapply (Hfree l)].
      * apply compat_sym, compat_call; [by eapply (Hc l j)|by eapply (Hfree j)].
  - destruct (He _ _ _ Hi) as [_ Hti]. constructor; simpl.
    + rewrite (ids_view _ _ Hti). apply Hti.
    + by apply commit_good.
    + intros j q es' [Hij Hj]%lookup_delete_Some. destruct (He _ _ _ Hj) as [Hca Htj]. split; [done|].
      apply commit_other; [done..|]. by eapply (Hc i j).
    + intros j l q es1 q' es2 Hne [_ Hj]%lookup_delete_Some [_ Hl]%lookup_delete_Some. by eapply (Hc j l).
  - constructor; simpl; [done|done| |].
    + intros j q es' [Hij Hj]%lookup_delete_Some. by eauto.
    + intros j l q es1 q' es2 Hne [_ Hj]%lookup_delete_Some [_ Hl]%lookup_delete_Some. by eapply (Hc j l).
Qed.

Theorem guard_kept arrives rows c :
  (∀ p, arrives p -> calls_hist (allowed G) [] p) -> NoDup (ids rows) -> g_good G rows ->
  tx_reachable arrives rows c -> g_good G (committed c).
Proof.
  intros Harr Hnd Hg Hr. enough (conf_inv c) as Hc by apply Hc.
  unfold tx_reachable in Hr. revert c Hr. apply rtc_ind_r; [by constructor|]. intros c1 c2 _ Hs IH. by eapply step_keeps.
Qed.
End guarded.

(** ** Counting rows *)

Definition count (p : UserRow -> bool) (rows : list UserRow) : Z := Z.of_nat (length (List.filter p rows)).

Lemma count_app p rows rows' : count p (rows ++ rows') = count p rows + count p rows'.
Proof. unfold count. rewrite List.filter_app, length_app. lia. Qed.

Lemma written_none u rows : u_ID u ∉ ids rows -> written u <$> rows = rows.
Proof.
  intros Hni. induction rows as [|r rows IH]; [done|]. rewrite fmap_cons in Hni.
  apply not_elem_of_cons in Hni as [Hne Hni]. rewrite fmap_cons, IH by done. by rewrite written_other.
Qed.

(** A write changes one row. *)
Lemma count_written p u rows r :
  NoDup (ids rows) -> r ∈ rows -> ur_ID r = u_ID u ->
  count p (written u <$> rows) = count p rows - Z.b2z (p r) + Z.b2z (p (written u r)).
Proof.
  induction rows as [|r0 rows IH]; intros Hnd Hin Hid; [by apply not_elem_of_nil in Hin|].
  apply NoDup_cons in Hnd as [Hni Hnd]. change (r0 :: rows) with ([r0] ++ rows) at 2. rewrite count_app.
  change (written u <$> r0 :: rows) with ([written u r0] ++ (written u <$> rows)). rewrite count_app.
  assert (∀ x, count p [x] = Z.b2z (p x)) as H1 by (intros x; unfold count; simpl; by destruct (p x)).
  rewrite !H1. apply elem_of_cons in Hin as [->|Hin].
  - rewrite written_none; [lia|]. by rewrite <- Hid.
  - rewrite IH by done. rewrite (written_other u r0); [lia|]. intros Heq. apply Hni. rewrite Heq, <- Hid.
    by apply list_elem_of_fmap_2.
Qed.

Lemma count_written_near p u rows :
  NoDup (ids rows) -> count p rows - 1 <= count p (written u <$> rows) <= count p rows + 1.
Proof.
  intros Hnd. destruct (decide (u_ID u ∈ ids rows)) as [(r & Hid & Hin)%list_elem_of_fmap|Hni].
  - rewrite (count_written p u rows r) by done. destruct (p r), (p (written u r)); simpl; lia.
  - rewrite written_none by done. lia.
Qed.

Lemma row_active_admin_user r : row_active_admin r = IsActiveAdmin (fromDBUser r).
Proof. unfold row_active_admin, IsActiveAdmin, IsAdmin, IsBlocked. destruct r as [? ? ? ? ? []]; done. Qed.
Lemma row_active_admin_written u r : ur_ID r = u_ID u -> row_active_admin (written u r) = IsActiveAdmin u.
Proof.
  intros Hid. unfold written. rewrite (proj2 (N.eqb_eq _ _) Hid). unfold row_active_admin, IsActiveAdmin, IsAdmin, IsBlocked.
  destruct r, u as [? ? ? ? ? []]; done.
Qed.

(** A user that holds a seat. *)
Definition seat_user (u : User) : bool := negb (IsBlocked u) && holds_seat (u_Roles u).
Definition row_seat (r : UserRow) : bool := seat_user (fromDBUser r).
Lemma row_seat_written u r : ur_ID r = u_ID u -> row_seat (written u r) = seat_user u.
Proof.
  intros Hid. unfold written. rewrite (proj2 (N.eqb_eq _ _) Hid). unfold row_seat, seat_user, IsBlocked.
  destruct r, u as [? ? ? ? ? []]; done.
Qed.

(** ** The two guards *)

Definition admin_guard : Guard := {|
  g_key := 1;
  g_good rows := 1 <= count row_active_admin rows;
  g_room rows := 2 <= count row_active_admin rows;
  g_takes v u := IsActiveAdmin v && negb (IsActiveAdmin u);
  g_shows e := match e with
               | Ev _ op r => match op in UserOp X return outcome X -> Prop with
                              | UCountAdmins => fun r => match r with Ok n => 2 <= n | _ => False end
                              | _ => fun _ => False
                              end r
               end;
  g_plausible _ := True |}.

Definition seat_cap (cap : Z) : Guard := {|
  g_key := 2;
  g_good rows := count row_seat rows <= cap;
  g_room rows := count row_seat rows + 1 <= cap;
  g_takes v u := negb (seat_user v) && seat_user u;
  g_shows e := match e with
               | Ev _ op r => match op in UserOp X return outcome X -> Prop with
                              | USeat op => fun r => match op in SeatOp X return outcome X -> Prop with
                                                     | SActiveRoles => fun r => match r with Ok l => seats l + 1 <= cap | _ => False end
                                                     | _ => fun _ => False
                                                     end r
                              | _ => fun _ => False
                              end r
               end;
  g_plausible e := match e with
               | Ev _ op r => match op in UserOp X return outcome X -> Prop with
                              | USeat op => fun r => match op in SeatOp X return outcome X -> Prop with
                                                     | SLicense => fun r => match r with Ok l => (l ≫= SeatsPurchased) = Some cap | _ => True end
                                                     | _ => fun _ => True
                                                     end r
                              | _ => fun _ => True
                              end r
               end |}.

Section instances.
Context `{Env} `{Goque} `{Collation} `{LicenseCache}.

#[export] Instance admin_guard_spec : GuardSpec admin_guard.
Proof.
  split; simpl.
  - intros rows r u Hnd Hin Hid Ht. rewrite (count_written _ u rows r) by done.
    rewrite row_active_admin_user, row_active_admin_written by done. destruct (IsActiveAdmin _), (IsActiveAdmin u); simpl in *; lia || done.
  - intros rows r u Hnd Hin Hid Ht. rewrite (count_written _ u rows r) by done.
    rewrite row_active_admin_user, row_active_admin_written by done. destruct (IsActiveAdmin _), (IsActiveAdmin u); simpl in *; lia || done.
  - intros rows u Hnd Hr. pose proof (count_written_near row_active_admin u rows Hnd). lia.
  - intros rows u Hu Hr. rewrite count_app. unfold count at 2. lia.
  - intros rows u Hu Hr. rewrite count_app. unfold count at 2. lia.
  - done.
  - intros i X op ctx w r w' Hh Hs. destruct op; try done. destruct r as [n| |]; try done. split; [done|].
    apply query_Ok in Hh as (-> & _). done.
Qed.

Lemma seats_active rows :
  seats (ur_Roles <$> List.filter (fun r => match ur_BlockedAt r with None => true | Some _ => false end) rows) = count row_seat rows.
Proof.
  unfold seats, count. f_equal. induction rows as [|r rows IH]; [done|]. cbn [List.filter].
  assert (row_seat r = match ur_BlockedAt r with None => holds_seat (ur_Roles r) | Some _ => false end) as ->
    by (unfold row_seat, seat_user, IsBlocked; simpl; by destruct (ur_BlockedAt r)).
  destruct (ur_BlockedAt r); [done|]. rewrite fmap_cons. cbn [List.filter]. destruct (holds_seat (ur_Roles r)); [|done].
  simpl. by f_equal.
Qed.

Lemma seat_cap_spec cap :
  (∀ n, (cached_license n ≫= SeatsPurchased) = Some cap) -> GuardSpec (seat_cap cap).
Proof.
  intros Hlic. split; simpl.
  - intros rows r u Hnd Hin Hid Ht. rewrite (count_written _ u rows r) by done. rewrite row_seat_written by done.
    fold (row_seat r) in Ht. destruct (row_seat r), (seat_user u); simpl in *; lia || done.
  - intros rows r u Hnd Hin Hid Ht. rewrite (count_written _ u rows r) by done. rewrite row_seat_written by done.
    fold (row_seat r) in Ht. destruct (row_seat r), (seat_user u); simpl in *; lia || done.
  - intros rows u Hnd Hr. pose proof (count_written_near row_seat u rows Hnd). lia.
  - intros rows u Hu Hr. rewrite count_app. replace (count row_seat [row_of u]) with 0; [lia|].
    unfold count. simpl. unfold row_seat, seat_user. simpl. rewrite Hu, andb_false_r. done.
  - intros rows u Hu Hr. rewrite count_app. replace (count row_seat [row_of u]) with 0; [lia|].
    unfold count. simpl. unfold row_seat, seat_user. simpl. rewrite Hu, andb_false_r. done.
  - intros i X op ctx w r w' Hh. destruct op as [| | | | | | | |X op|]; try done. destruct op; try done. destruct r; try done.
    simpl in Hh. injection Hh as <- _. apply Hlic.
  - intros i X op ctx w r w' Hh Hs. destruct op as [| | | | | | | |X op|]; try done. destruct op; try done.
    destruct r as [l| |]; try done. split; [done|]. simpl in Hh. apply query_Ok in Hh as (-> & _). by rewrite seats_active in Hs.
Qed.
End instances.

(** ** The requests *)

Inductive UserRequest :=
  | RAssign (userID : UUID) (roles : list Role)
  | RRevoke (userID : UUID) (role : Role)
  | RReplace (userID : UUID) (roles : list Role)
  | RBlock (userID : UUID)
  | RUnblock (userID : UUID)
  | RTags (userID : UUID) (cmd : UpdateUserTagsCmd) (telegramTag slackTag : option string)
  | RPrefs (userID : UUID) (cmd : UpdatePreferencesCmd) (timezone telegramTag slackTag : option string)
  | RBreakGlass (email name : string).

(** The transaction each operation of the service runs. *)
Definition user_program `{SeatGuard} (r : UserRequest) : Prog UserOp unit :=
  match r with
  | RAssign userID roles => _ ← updateWithApply userID (assign_apply roles); mret tt
  | RRevoke userID role => _ ← updateWithApply userID (revoke_apply role); mret tt
  | RReplace userID roles => _ ← updateWithApply userID (replace_apply roles); mret tt
  | RBlock userID => _ ← updateWithApply userID block_apply; mret tt
  | RUnblock userID => _ ← updateWithApply userID unblock_apply; mret tt
  | RTags userID cmd telegramTag slackTag => _ ← updateWithApply userID (tags_apply cmd telegramTag slackTag); mret tt
  | RPrefs userID cmd timezone telegramTag slackTag =>
      _ ← updateWithApply userID (prefs_apply cmd timezone telegramTag slackTag); mret tt
  | RBreakGlass email name => _ ← break_glass_account email name; mret tt
  end.

(** The calls of a closure. *)
Definition calm {X} (op : UserOp X) : Prop :=
  match op with
  | ULockAdmins | UCountAdmins | UNow | USeat _ => True
  | _ => False
  end.

Lemma calm_event i X (op : UserOp X) r : calm op -> write_of (Ev i op r) = None ∧ insert_of (Ev i op r) = None.
Proof. by destruct op. Qed.

Lemma calm_events {A} (p : Prog UserOp A) es q :
  calls_only (@calm) p -> follows p es q -> writes es = [] ∧ inserts es = [].
Proof.
  intros Hp Hf. pose proof (calls_only_follows _ _ _ _ Hp Hf) as Hall. clear Hf. unfold writes, inserts.
  induction Hall as [|[i X op r] es Hop _ [IHw IHi]]; [done|]. destruct (calm_event i _ op r Hop) as [Ew Ei].
  change (omap write_of ([@Ev UserOp i X op r] ++ es) = [] ∧ omap insert_of ([@Ev UserOp i X op r] ++ es) = []). rewrite !omap_app, IHw, IHi.
  by rewrite (omap_one write_of), (omap_one insert_of), Ew, Ei.
Qed.

Section programs.
Context (G : Guard).

Lemma calm_allowed {A} (p : Prog UserOp A) es :
  calls_only (@calm) p -> writes es = [] -> inserts es = [] -> calls_hist (allowed G) es p.
Proof.
  intros Hp. revert es. induction Hp as [|?|X op k Hop _ IH]; intros es Hw Hi; constructor.
  - split; [done|]. by destruct op.
  - intros i r. destruct (calm_event i _ op r Hop) as [Ew Ei].
    destruct r as [x|e|s]; simpl; [apply IH..|constructor]; unfold writes, inserts in *; rewrite omap_snoc;
      (rewrite Ew || rewrite Ei); by rewrite app_nil_r.
Qed.

(** One row read under its lock, what the closure asks, and the row written. *)
Lemma update_allowed {X} userID (fn : User -> Prog UserOp (User * X)) es :
  writes es = [] ->
  (∀ v es1, writes es1 = [] -> inserts es1 = inserts es -> calls_hist (allowed G) es1 (fn v)) ->
  (∀ v es1 u x, follows (fn v) es1 (PRet (u, x)) -> writes es1 = [] ∧ u_ID u = u_ID v ∧
     (g_takes G v u = true -> Forall (g_plausible G) es1 -> evidence G es1)) ->
  calls_hist (allowed G) es (updateWithApply userID fn).
Proof.
  intros Hw Hfn Hres. unfold updateWithApply. apply calls_hist_bind.
  { constructor; [by split|]. intros i [v|e|s]; constructor. }
  intros es1 v Hf. follow_step Hf. apply calls_hist_bind.
  { apply calls_hist_wrap, Hfn; unfold writes, inserts in *; rewrite omap_snoc; by rewrite app_nil_r. }
  intros es2 [u x] Hf2%follows_wrap_inv. destruct (Hres _ _ _ _ Hf2) as (Hw2 & Hid & Hev).
  apply calls_hist_bind; [|intros; constructor]. constructor; [|intros i' [[]|e|s]; constructor].
  split.
  - intros _. unfold writes in *. rewrite !omap_app. simpl. by rewrite Hw, Hw2.
  - exists v. split_and!; [|done|].
    + unfold reads. rewrite !omap_app. simpl. apply elem_of_app. left. apply elem_of_app. right. by left.
    + intros Ht Hpl. apply Forall_app in Hpl as [_ Hpl]. destruct (Hev Ht Hpl) as (es1 & e1 & es3 & e2 & es4 & -> & Hk & Hs).
      exists (es ++ [Ev i (UGetForUpdate userID) (Ok v)] ++ es1), e1, es3, e2, es4. split; [|done].
      by rewrite <- !app_assoc.
Qed.

(** The same, for a closure that asks only for locks, counts and the time. *)
Lemma update_calm {X} userID (fn : User -> Prog UserOp (User * X)) :
  (∀ v, calls_only (@calm) (fn v)) ->
  (∀ v es1 u x, follows (fn v) es1 (PRet (u, x)) -> u_ID u = u_ID v ∧
     (g_takes G v u = true -> Forall (g_plausible G) es1 -> evidence G es1)) ->
  calls_hist (allowed G) [] (_ ← updateWithApply userID fn; mret tt).
Proof.
  intros Hc Hres. apply calls_hist_bind; [|intros; constructor]. apply update_allowed; [done|..].
  - intros v es1 Hw Hi. by apply calm_allowed.
  - intros v es1 u x Hf. split; [by eapply calm_events|]. by apply (Hres v es1 u x).
Qed.
End programs.

Section closures.
Context `{SeatGuard}.

Lemma calm_ret {A} (a : A) : calls_only (@calm) (mret a).
Proof. constructor. Qed.
Lemma calm_err {A} e : calls_only (@calm) (PErr e : Prog UserOp A).
Proof. constructor. Qed.
Lemma calm_call_wrap {X} f (op : UserOp X) : calm op -> calls_only (@calm) (call_wrap f op).
Proof. intros Hop. constructor; [done|]. intros [?|?]; constructor. Qed.
Lemma calm_call {X} (op : UserOp X) : calm op -> calls_only (@calm) (call op).
Proof. intros Hop. constructor; [done|]. intros [?|?]; constructor. Qed.
Lemma calm_ensure_seat needed : calls_only (@calm) (ensure_seat needed).
Proof. unfold ensure_seat. destruct needed; [by apply calls_only_map|constructor]. Qed.
Lemma calm_ensure_admin user : calls_only (@calm) (ensureNotLastActiveAdmin user).
Proof.
  unfold ensureNotLastActiveAdmin. destruct (negb _); [constructor|].
  apply calls_only_bind; [by apply calm_call_wrap|]. intros _. apply calls_only_bind; [by apply calm_call_wrap|].
  intros n. destruct (n <=? 1); constructor.
Qed.
End closures.


(** ** What the closures may take away *)

Ltac calm_solve :=
  repeat first [ apply calm_ensure_seat | apply calm_ensure_admin | apply calm_ret | apply calm_err
               | (apply calm_call; exact I) | (apply calls_only_bind; [|intros ?]) | case_match ].

Lemma IsAdmin_has u : IsAdmin u = has_role (u_Roles u) RoleAdmin.
Proof.
  unfold IsAdmin, has_role. apply eq_true_iff_eq. rewrite existsb_exists, bool_decide_eq_true. split.
  - intros (r & Hin & <-%String.eqb_eq). by apply list_elem_of_In.
  - intros Hin. exists RoleAdmin. split; [by apply list_elem_of_In|done].
Qed.

Lemma same_admin v u :
  u_BlockedAt u = u_BlockedAt v -> (RoleAdmin ∈ u_Roles v -> RoleAdmin ∈ u_Roles u) ->
  IsActiveAdmin v = true -> IsActiveAdmin u = false -> False.
Proof.
  intros Hb Hr. unfold IsActiveAdmin, IsBlocked. rewrite !IsAdmin_has, Hb. unfold has_role.
  intros [Ha%bool_decide_eq_true Hv]%andb_true_iff. rewrite bool_decide_eq_true_2 by auto. simpl. by rewrite Hv.
Qed.

Lemma delete_role_other r x roles : x ≠ r -> x ∈ roles -> x ∈ delete_role r roles.
Proof.
  intros Hne. induction roles as [|y l IH]; [done|]. simpl. intros [->|Hin]%elem_of_cons.
  - rewrite (proj2 (String.eqb_neq y r)); [by left|done].
  - destruct (String.eqb y r); [done|]. right. by apply IH.
Qed.
Lemma delete_role_sub r x roles : x ∈ delete_role r roles -> x ∈ roles.
Proof.
  induction roles as [|y l IH]; [done|]. simpl. destruct (String.eqb y r); [by right|].
  intros [->|Hin]%elem_of_cons; [by left|]. right. by apply IH.
Qed.

(** The patches touch neither roles nor the block. *)
Definition same_rights (v u : User) : Prop := u_ID u = u_ID v ∧ u_Roles u = u_Roles v ∧ u_BlockedAt u = u_BlockedAt v.
Lemma tags_same cmd t s v : same_rights v (tags_patched cmd t s v).
Proof. unfold same_rights, tags_patched. by destruct (ut_SetTelegramTag cmd), (ut_SetSlackTag cmd), v. Qed.
Lemma prefs_same cmd z t s v : same_rights v (prefs_patched cmd z t s v).
Proof.
  unfold same_rights, prefs_patched. by destruct (up_SetTimezone cmd), (up_SetTelegramTag cmd), (up_SetSlackTag cmd), v.
Qed.

Section admin.
Context `{SeatGuard}.

Lemma evidence_mid G es1 es2 es3 : evidence G es2 -> evidence G (es1 ++ es2 ++ es3).
Proof.
  intros (a & e1 & b & e2 & c & -> & Hk & Hs). exists (es1 ++ a), e1, b, e2, (c ++ es3). split; [|done].
  by rewrite <- !app_assoc, <- !app_comm_cons, <- !app_assoc, <- !app_comm_cons.
Qed.

Lemma ensure_admin_evidence user es a :
  follows (ensureNotLastActiveAdmin user) es (PRet a) -> IsActiveAdmin user = true -> evidence admin_guard es.
Proof.
  intros Hf Ha. unfold ensureNotLastActiveAdmin in Hf. rewrite Ha in Hf. cbn [negb] in Hf.
  follow_step Hf. follow_step Hf. destruct (a1 <=? 1) eqn:E; follow_step Hf. apply Z.leb_gt in E.
  eexists [], _, [], _, []. split; [done|]. split; [done|]. simpl. lia.
Qed.

(** A closure ends with the user it read, and takes the last admin only on evidence. *)
Definition keeps_admin {X} (fn : User -> Prog UserOp (User * X)) : Prop :=
  (∀ v, calls_only (@calm) (fn v)) ∧
  ∀ v es u x, follows (fn v) es (PRet (u, x)) ->
    u_ID u = u_ID v ∧ (IsActiveAdmin v = true -> IsActiveAdmin u = false -> evidence admin_guard es).

Lemma update_keeps_admin {X} userID (fn : User -> Prog UserOp (User * X)) :
  keeps_admin fn -> calls_hist (allowed admin_guard) [] (_ ← updateWithApply userID fn; mret tt).
Proof.
  intros [Hc Hf]. apply update_calm; [done|]. intros v es u x Hfol. destruct (Hf _ _ _ _ Hfol) as [Hid Hev].
  split; [done|]. simpl. intros [Hv Hu%negb_true_iff]%andb_true_iff _. by apply Hev.
Qed.

Lemma assign_keeps_admin roles : keeps_admin (assign_apply roles).
Proof.
  unfold assign_apply. split; [intros v; calm_solve|]. intros v es u x Hf. destruct (Nat.eqb _ _); [by follow_step Hf|].
  follow_step Hf. follow_step Hf. injection Hf as -> _. split; [by destruct v|].
  intros Hv Hu. exfalso. revert Hv Hu. apply same_admin; [by destruct v|]. destruct v; simpl. set_solver.
Qed.

Lemma grant_keeps_admin roles v es u x :
  follows (grant_apply roles v) es (PRet (u, x)) ->
  es = [] ∧ u_ID u = u_ID v ∧ (IsActiveAdmin v = true -> IsActiveAdmin u = false -> False).
Proof.
  intros Hf. unfold grant_apply in Hf. destruct (Nat.eqb _ _); [by follow_step Hf|].
  follow_step Hf. injection Hf as -> _. split_and!; [done|by destruct v|].
  apply same_admin; [by destruct v|]. destruct v; simpl. set_solver.
Qed.

Lemma revoke_keeps_admin role : keeps_admin (revoke_apply role).
Proof.
  unfold revoke_apply. split; [intros v; calm_solve|]. intros v es u x Hf. destruct (negb _); [by follow_step Hf|].
  apply follows_bind_inv in Hf as (es1 & es2 & [] & -> & Hf1 & Hf). follow_step Hf. injection Hf as -> _.
  split; [by destruct v|]. intros Hv Hu. destruct (String.eqb_spec role RoleAdmin) as [->|Hne].
  - rewrite app_nil_r. by eapply ensure_admin_evidence.
  - exfalso. revert Hv Hu. apply same_admin; [by destruct v|]. destruct v; simpl. by apply delete_role_other.
Qed.

Lemma replace_keeps_admin roles : keeps_admin (replace_apply roles).
Proof.
  unfold replace_apply. split; [intros v; calm_solve|]. intros v es u x Hf. case_bool_decide; [by follow_step Hf|].
  apply follows_bind_inv in Hf as (es1 & es2 & [] & -> & Hf1 & Hf). follow_step Hf. follow_step Hf. injection Hf as -> _.
  split; [by destruct v|]. intros Hv Hu.
  set (newRoles := sort_by strings_Compare (uniq (List.filter Role_Valid roles))) in *.
  set (oldRoles := sort_by strings_Compare (u_Roles v)) in *.
  assert (RoleAdmin ∈ oldRoles) as Hold.
  { apply elem_of_sort_by. unfold IsActiveAdmin in Hv. apply andb_true_iff in Hv as [Ha _]. rewrite IsAdmin_has in Ha.
    by apply bool_decide_eq_true in Ha. }
  destruct (has_role newRoles RoleAdmin) eqn:En.
  - exfalso. revert Hv Hu. apply same_admin; [by destruct v|]. intros _. destruct v; simpl. by apply bool_decide_eq_true in En.
  - unfold has_role at 1 in Hf1. rewrite bool_decide_eq_true_2 in Hf1 by done. cbn [negb andb] in Hf1.
    apply (evidence_mid _ [] es1). eapply ensure_admin_evidence; [exact Hf1|].
    unfold IsActiveAdmin in *. apply andb_true_iff in Hv as [_ Hb]. apply andb_true_iff. split; [|by destruct v].
    rewrite IsAdmin_has. apply bool_decide_eq_true. by destruct v.
Qed.

Lemma block_keeps_admin : keeps_admin block_apply.
Proof.
  unfold block_apply. split; [intros v; calm_solve|]. intros v es u x Hf. destruct (IsBlocked v); [by follow_step Hf|].
  apply follows_bind_inv in Hf as (es1 & es2 & [] & -> & Hf1 & Hf). follow_step Hf. follow_step Hf. injection Hf as -> _.
  split; [by destruct v|]. intros Hv _. apply (evidence_mid _ [] es1). by eapply ensure_admin_evidence.
Qed.

Lemma unblock_keeps_admin : keeps_admin unblock_apply.
Proof.
  unfold unblock_apply. split; [intros v; calm_solve|]. intros v es u x Hf.
  destruct (IsBlocked v) eqn:Eb; cbn [negb] in Hf; [|by follow_step Hf].
  follow_step Hf. follow_step Hf. injection Hf as -> _. split; [by destruct v|].
  unfold IsActiveAdmin. rewrite Eb, andb_false_r. done.
Qed.

Lemma patch_keeps_admin {X} (f : User -> User) (g : User -> X) :
  (∀ v, same_rights v (f v)) ->
  keeps_admin (fun v => mret (f v, g v)).
Proof.
  intros Hf0. split; [intros v; constructor|]. intros v es u x Hf. follow_step Hf. injection Hf as -> _.
  destruct (Hf0 v) as (Hid & Hr & Hb). split; [done|]. intros Hv Hu. exfalso. revert Hv Hu. apply same_admin; [done|by rewrite Hr].
Qed.

Lemma break_glass_keeps_admin email name :
  calls_hist (allowed admin_guard) [] (_ ← break_glass_account email name; mret tt).
Proof.
  apply calls_hist_bind; [|intros; constructor]. unfold break_glass_account. apply calls_hist_bind.
  { constructor; [done|]. intros i [v|e|s]; constructor. }
  intros es r Hf. assert (writes es = [] ∧ keys es = []) as [Hw Hk] by (by follow_step Hf).
  apply calls_hist_bind.
  { destruct r as [v|e]; [constructor|]. destruct (errors_Is _ _); [|constructor].
    constructor; [by split|]. intros i [v|e'|s]; constructor. }
  intros es' account Hf'. assert (writes ([] ++ es ++ es') = []) as Hw'.
  { unfold writes in *. rewrite !omap_app, Hw. destruct r as [v|e]; [by follow_step Hf'|].
    destruct (errors_Is _ _); by follow_step Hf'. }
  revert Hw'. rewrite (app_assoc [] es es'). generalize (([] ++ es) ++ es'). clear. intros es Hw. unfold grantRolesUnguarded. apply calls_hist_bind.
  - apply calls_hist_try, update_allowed; [done|..].
    + intros v es1 _ _. unfold grant_apply. destruct (Nat.eqb _ _); constructor.
    + intros v es1 u x Hf%grant_keeps_admin. destruct Hf as (-> & Hid & Hno). split_and!; [done..|].
      simpl. intros [Hv Hu%negb_true_iff]%andb_true_iff _. by destruct (Hno Hv Hu).
  - intros es1 [[user added]|err] _; [|destruct (errors_Is _ _); [|constructor]].
    + apply calls_hist_bind; [|intros; constructor]. constructor; [by split|]. intros i [?|?|?]; constructor.
    + constructor; [by split|]. intros i [?|?|?]; constructor.
Qed.

Lemma user_program_keeps_admin r : calls_hist (allowed admin_guard) [] (user_program r).
Proof.
  destruct r; cbn [user_program]; [apply update_keeps_admin..|apply break_glass_keeps_admin];
    auto using assign_keeps_admin, revoke_keeps_admin, replace_keeps_admin, block_keeps_admin, unblock_keeps_admin.
  - apply patch_keeps_admin, tags_same.
  - apply (patch_keeps_admin _ (fun _ => tt)), prefs_same.
Qed.
End admin.

(** ** Seats *)

Lemma role_level_nonneg r : 0 <= role_level r.
Proof.
  unfold role_level, go_lookup, rolesLevel. simpl.
  destruct (String.eqb RoleGuest r), (String.eqb RoleEditor r), (String.eqb RoleReviewer r), (String.eqb RoleAdmin r); simpl; lia.
Qed.

(** A role set holds a seat when one of its roles does. *)
Lemma holds_seat_exists roles : holds_seat roles = existsb RoleOccupiesSeat roles.
Proof.
  unfold holds_seat, HighestRole.
  enough (∀ acc : Role * Z, acc.2 = role_level acc.1 ->
    RoleOccupiesSeat (foldl (fun acc role => if acc.2 <? role_level role then (role, role_level role) else acc) acc roles).1 =
    RoleOccupiesSeat acc.1 || existsb RoleOccupiesSeat roles) as Hgen by by rewrite Hgen.
  induction roles as [|r roles IH]; intros acc Hacc; simpl; [by rewrite orb_false_r|].
  change (RoleOccupiesSeat r) with (0 <? role_level r). change (RoleOccupiesSeat acc.1) with (0 <? role_level acc.1).
  pose proof (role_level_nonneg acc.1). destruct (acc.2 <? role_level r) eqn:E; rewrite IH by done; simpl.
  - change (RoleOccupiesSeat r) with (0 <? role_level r). apply Z.ltb_lt in E. rewrite (proj2 (Z.ltb_lt 0 (role_level r))) by lia.
    by rewrite orb_true_r.
  - change (RoleOccupiesSeat acc.1) with (0 <? role_level acc.1). apply Z.ltb_ge in E. rewrite orb_assoc. f_equal.
    destruct (0 <? role_level acc.1) eqn:E1; [done|]. apply Z.ltb_ge in E1. symmetry. apply Z.ltb_ge. lia.
Qed.

Lemma holds_seat_sub roles roles' : (∀ r, r ∈ roles -> r ∈ roles') -> holds_seat roles = true -> holds_seat roles' = true.
Proof.
  rewrite !holds_seat_exists, !existsb_exists. intros Hsub (r & Hin & Hr). exists r. split; [|done].
  by apply list_elem_of_In, Hsub, list_elem_of_In.
Qed.

Section seats.
Context (cap : Z).

Lemma ensure_seat_evidence es a :
  follows (@ensure_seat license_guard true) es (PRet a) -> Forall (g_plausible (seat_cap cap)) es ->
  evidence (seat_cap cap) es.
Proof.
  intros Hf Hp. unfold ensure_seat in Hf. apply follows_map_inv in Hf as (es' & -> & Hf).
  cbn [EnsureSeatAvailable license_guard] in Hf. unfold license_EnsureSeatAvailable in Hf.
  apply follows_bind_inv in Hf as (es1 & es2 & lic & -> & Hf1 & Hf). follow_step Hf1.
  rewrite fmap_app in Hp. apply Forall_app in Hp as [Hl Hp]. apply Forall_cons in Hl as [Hl _]. simpl in Hl.
  destruct lic as [[st [purchased|] at_]|]; simpl in Hl; try done. injection Hl as ->.
  follow_step Hf. follow_step Hf. follow_step Hf. cbv zeta in Hf.
  rewrite BucketSeats_occupied in Hf. case_match eqn:Ecap; follow_step Hf. apply Z.ltb_ge in Ecap.
  eexists [_], _, [], _, [_]. split; [done|]. split; [done|]. simpl.
  match type of Ecap with seats ?l1 + seats ?l2 + 1 <= _ => pose proof (Zle_0_nat (length (List.filter holds_seat l2))); unfold seats in * end.
  lia.
Qed.

(** A closure gives a seat only on evidence. *)
Definition keeps_seats {X} (fn : User -> Prog UserOp (User * X)) : Prop :=
  (∀ v, calls_only (@calm) (fn v)) ∧
  ∀ v es u x, follows (fn v) es (PRet (u, x)) -> u_ID u = u_ID v ∧
    (seat_user v = false -> seat_user u = true -> Forall (g_plausible (seat_cap cap)) es -> evidence (seat_cap cap) es).

Lemma seat_user_roles v u :
  u_BlockedAt u = u_BlockedAt v -> seat_user v = false -> seat_user u = true ->
  seat_gained (u_Roles v) (u_Roles u) = true.
Proof.
  intros Hb. unfold seat_user, seat_gained, IsBlocked, holds_seat. rewrite Hb.
  destruct (u_BlockedAt v); simpl; [done|]. by intros -> ->.
Qed.

Lemma update_keeps_seats {X} userID (fn : User -> Prog UserOp (User * X)) :
  keeps_seats fn -> calls_hist (allowed (seat_cap cap)) [] (_ ← updateWithApply userID fn; mret tt).
Proof.
  intros [Hc Hf]. apply update_calm; [done|]. intros v es u x Hfol. destruct (Hf _ _ _ _ Hfol) as [Hid Hev].
  split; [done|]. simpl. intros [Hv%negb_true_iff Hu]%andb_true_iff Hp. by apply Hev.
Qed.

(** A closure that leaves the user without a role the user did not have. *)
Lemma fewer_seats v u es :
  u_BlockedAt u = u_BlockedAt v -> (∀ r, r ∈ u_Roles u -> r ∈ u_Roles v) ->
  seat_user v = false -> seat_user u = true -> evidence (seat_cap cap) es.
Proof.
  intros Hb Hsub Hv Hu. exfalso. revert Hv Hu. unfold seat_user, IsBlocked. rewrite Hb.
  destruct (u_BlockedAt v); simpl; [done|]. intros Hv Hu. by rewrite (holds_seat_sub _ _ Hsub Hu) in Hv.
Qed.

Lemma assign_keeps_seats roles : keeps_seats (@assign_apply license_guard roles).
Proof.
  unfold assign_apply. split; [intros v; calm_solve|]. intros v es u x Hf. destruct (Nat.eqb _ _); [by follow_step Hf|].
  apply follows_bind_inv in Hf as (es1 & es2 & [] & -> & Hf1 & Hf). follow_step Hf. injection Hf as -> _.
  split; [by destruct v|]. intros Hv Hu Hp. rewrite app_nil_r in *.
  assert (seat_gained (u_Roles v) (u_Roles v ++ List.filter (λ role, negb (has_role (u_Roles v) role)) roles) = true) as Hg.
  { apply (seat_user_roles v) in Hu; [by destruct v|by destruct v|done]. }
  rewrite Hg in Hf1. by eapply ensure_seat_evidence.
Qed.

Lemma revoke_keeps_seats role : keeps_seats (revoke_apply role).
Proof.
  unfold revoke_apply. split; [intros v; calm_solve|]. intros v es u x Hf. destruct (negb _); [by follow_step Hf|].
  apply follows_bind_inv in Hf as (es1 & es2 & [] & -> & Hf1 & Hf). follow_step Hf. injection Hf as -> _.
  split; [by destruct v|]. intros Hv Hu _. revert Hv Hu. apply fewer_seats; [by destruct v|]. intros r. destruct v; simpl. apply delete_role_sub.
Qed.

Lemma replace_keeps_seats roles : keeps_seats (@replace_apply license_guard roles).
Proof.
  unfold replace_apply. split; [intros v; calm_solve|]. intros v es u x Hf. case_bool_decide; [by follow_step Hf|].
  apply follows_bind_inv in Hf as (es1 & es2 & [] & -> & Hf1 & Hf).
  apply follows_bind_inv in Hf as (es3 & es4 & [] & -> & Hf2 & Hf). follow_step Hf. injection Hf as -> _.
  split; [by destruct v|]. intros Hv Hu Hp. apply Forall_app in Hp as [_ Hp]. rewrite app_nil_r in *.
  rewrite <- (app_nil_r es3). apply evidence_mid. eapply ensure_seat_evidence; [|exact Hp].
  set (newRoles := sort_by strings_Compare (uniq (List.filter Role_Valid roles))) in *.
  assert (seat_gained (sort_by strings_Compare (u_Roles v)) newRoles = true) as Hg; [|by rewrite Hg in Hf2].
  apply (seat_user_roles v) in Hu; [|by destruct v|done]. unfold seat_gained in *. destruct v as [? ? ? vr ? ? ? ? ?]. simpl in *.
  apply andb_true_iff in Hu as [Ho Hn]. apply andb_true_iff. split; [|done]. apply negb_true_iff. apply negb_true_iff in Ho.
  apply not_true_iff_false. intros Hs. apply not_true_iff_false in Ho. apply Ho. revert Hs. apply holds_seat_sub.
  intros r. apply elem_of_sort_by.
Qed.

Lemma block_keeps_seats : keeps_seats block_apply.
Proof.
  unfold block_apply. split; [intros v; calm_solve|]. intros v es u x Hf. destruct (IsBlocked v); [by follow_step Hf|].
  apply follows_bind_inv in Hf as (es1 & es2 & [] & -> & Hf1 & Hf). follow_step Hf. follow_step Hf. injection Hf as -> _.
  split; by destruct v.
Qed.

Lemma unblock_keeps_seats : keeps_seats (@unblock_apply license_guard).
Proof.
  unfold unblock_apply. split; [intros v; calm_solve|]. intros v es u x Hf.
  destruct (IsBlocked v) eqn:Eb; cbn [negb] in Hf; [|by follow_step Hf].
  apply follows_bind_inv in Hf as (es1 & es2 & [] & -> & Hf1 & Hf). follow_step Hf. injection Hf as -> _.
  split; [by destruct v|]. intros _ Hu Hp. rewrite app_nil_r in *. eapply ensure_seat_evidence; [|done].
  assert (holds_seat (u_Roles v) = true) as Hs by (by destruct v). unfold holds_seat in Hs. by rewrite Hs in Hf1.
Qed.

Lemma patch_keeps_seats {X} (f : User -> User) (g : User -> X) :
  (∀ v, same_rights v (f v)) ->
  keeps_seats (fun v => mret (f v, g v)).
Proof.
  intros Hf0. split; [intros v; constructor|]. intros v es u x Hf. follow_step Hf. injection Hf as -> _.
  destruct (Hf0 v) as (Hid & Hr & Hb). split; [done|]. intros Hv Hu _. revert Hv Hu. apply fewer_seats; [done|by rewrite Hr].
Qed.

Lemma user_program_keeps_seats r :
  (∀ email name, r ≠ RBreakGlass email name) -> calls_hist (allowed (seat_cap cap)) [] (@user_program license_guard r).
Proof.
  intros Hr. destruct r; cbn [user_program]; [apply update_keeps_seats..|by destruct (Hr email name)];
    auto using assign_keeps_seats, revoke_keeps_seats, replace_keeps_seats, block_keeps_seats, unblock_keeps_seats.
  - apply patch_keeps_seats, tags_same.
  - apply (patch_keeps_seats _ (fun _ => tt)), prefs_same.
Qed.
End seats.

(** ** The two promises *)

Lemma count_positive p rows : 1 <= count p rows <-> ∃ r, r ∈ rows ∧ p r = true.
Proof.
  unfold count. split.
  - destruct (List.filter p rows) as [|r l] eqn:E; simpl; [lia|]. intros _. exists r.
    assert (In r (List.filter p rows)) as [Hin Hp]%filter_In by (rewrite E; by left). split; [by apply list_elem_of_In|done].
  - intros (r & Hin & Hp). assert (In r (List.filter p rows)) as Hr by (apply filter_In; split; [by apply list_elem_of_In|done]).
    destruct (List.filter p rows); [done|]. simpl. lia.
Qed.

(** C7. Whatever transactions of the user service run against each other, and
    however their statements interleave, an organization that has an active
    admin keeps one: the row lock and the advisory lock make the last-admin guard
    of revoking, replacing and blocking hold although the transactions run at
    READ COMMITTED, where two of them that only counted would both pass. *)
Theorem an_admin_remains `{Env} `{Goque} `{Collation} `{LicenseCache} `{SeatGuard} rows c :
  NoDup (ids rows) -> (∃ r, r ∈ rows ∧ row_active_admin r = true) ->
  tx_reachable (fun p => ∃ r, p = user_program r) rows c ->
  ∃ r, r ∈ committed c ∧ row_active_admin r = true.
Proof.
  rewrite <- !count_positive. intros Hnd Hone Hr. eapply (guard_kept admin_guard); [|exact Hnd|exact Hone|exact Hr].
  intros p [r ->]. apply user_program_keeps_admin.
Qed.

(** C11. With a license that caps the seats, no interleaving of role changes,
    blocks and unblocks lets the active users hold more seats than the license
    grants, as long as they did not at the start.  Break-glass sign-ins are
    exempt from the cap by design and are left out. *)
Theorem seats_within_cap `{Env} `{Goque} `{Collation} `{LicenseCache} cap rows c :
  (∀ n, (cached_license n ≫= SeatsPurchased) = Some cap) -> NoDup (ids rows) -> count row_seat rows <= cap ->
  tx_reachable (fun p => ∃ r, (∀ email name, r ≠ RBreakGlass email name) ∧ p = @user_program license_guard r) rows c ->
  count row_seat (committed c) <= cap.
Proof.
  intros Hlic Hnd Hcap Hr. pose proof (seat_cap_spec cap Hlic) as Hspec.
  eapply (guard_kept (seat_cap cap)); [|exact Hnd|exact Hcap|exact Hr].
  intros p (r & Hne & ->). by apply user_program_keeps_seats.
Qed.

(** ** Two races *)

Definition ex_cap : LicenseCache := {| cached_license := fun _ => Some (mkLicense LicenseStatusActive (Some 2) None) |}.
Definition ex_person (id : UUID) (email : string) (roles : list Role) : UserRow :=
  mkUserRow id email email roles T0 None None None None.

(** Two admins are blocked at the same time: the second block waits for the
    lock, counts one admin and fails. *)
Definition ex_admins : list UserRow := [ex_person 1 "ann@example.com" [RoleAdmin]; ex_person 2 "bob@example.com" [RoleAdmin]].
Definition ex_block_race : list Move :=
  let block id := @user_program Noop (RBlock id) in
  [MBegin 0 (block 1%N); MBegin 1 (block 2%N); MCall 0; MCall 1; MCall 0; MCall 0; MCall 0; MCall 0; MCommit 0;
   MCall 1; MCall 1; MRollback 1].

Lemma an_admin_remains_witness :
  ∃ c, @tx_run calm_env list_goque c_collation ex_cap ex_world (mkTxConf ex_admins ∅) ex_block_race = Some c ∧
    row_active_admin <$> committed c = [false; true] ∧ ∃ r, r ∈ committed c ∧ row_active_admin r = true.
Proof.
  eexists. match goal with |- ?E ∧ _ => assert E as Hrun by (vm_compute; reflexivity) end.
  split; [exact Hrun|]. split; [vm_compute; reflexivity|].
  apply (@an_admin_remains calm_env list_goque c_collation ex_cap Noop ex_admins).
  - decide_now.
  - exists (ex_person 1 "ann@example.com" [RoleAdmin]). split; [by left|reflexivity].
  - eapply tx_run_steps; [|exact Hrun]. unfold ex_block_race. repeat constructor; eexists; reflexivity.
Defined.

(** Two guests become editors at the same time, with one seat left. *)
Definition ex_guests : list UserRow :=
  [ex_person 1 "ann@example.com" [RoleAdmin]; ex_person 2 "bob@example.com" [RoleGuest]; ex_person 3 "cid@example.com" [RoleGuest]].
Definition ex_seat_race : list Move :=
  let assign id := @user_program license_guard (RAssign id [RoleEditor]) in
  [MBegin 0 (assign 2%N); MBegin 1 (assign 3%N); MCall 0; MCall 1; MCall 0; MCall 1; MCall 0; MCall 0; MCall 0; MCall 0;
   MCommit 0; MCall 1; MCall 1; MCall 1; MRollback 1].

Lemma seats_within_cap_witness :
  ∃ c, @tx_run calm_env list_goque c_collation ex_cap ex_world (mkTxConf ex_guests ∅) ex_seat_race = Some c ∧
    row_seat <$> committed c = [true; true; false] ∧ count row_seat (committed c) <= 2.
Proof.
  eexists. match goal with |- ?E ∧ _ => assert E as Hrun by (vm_compute; reflexivity) end.
  split; [exact Hrun|]. split; [vm_compute; reflexivity|].
  apply (@seats_within_cap calm_env list_goque c_collation ex_cap 2 ex_guests).
  - reflexivity.
  - decide_now.
  - vm_compute. discriminate.
  - eapply tx_run_steps; [|exact Hrun]. unfold ex_seat_race. repeat constructor; eexists; (split; [|reflexivity]); discriminate.
Defined.
