(* ===== verification/BlockSpec.v ===== *)
(** * Blocking a user cuts the user off

    [BlockUser] commits the block first and revokes the user's sessions in a
    second transaction; this file says what each way it can end leaves in the
    users and the tokens. *)
From Stdlib Require Import ZArith Lia Ascii String.
From stdpp Require Import base sorting sets strings numbers list.
From S2P Require Import Prelude Go Sha256 Entity Conflict AuditTrail Schema Logic Dbtx Interleave MaintStore Queue.
From S2P Require Import Like Crypto UserStore TokenStore License Sessions SessionSpec Users Fixtures.
Open Scope Z_scope.

Definition blocked_in (id : UUID) (db : DB) : Prop :=
  ∀ r, r ∈ users db -> ur_ID r = id -> ur_BlockedAt r ≠ None.
Definition already_blocked (id : UUID) (db : DB) : Prop :=
  ∃ r, find_user id db = Some r ∧ ur_BlockedAt r ≠ None.
Definition revoked_in (id : UUID) (db : DB) : Prop :=
  ∀ t, t ∈ refresh_tokens db -> rt_UserID t = id -> rt_Revoked t = true.
(** The rows of everybody else. *)
Definition others_same (id : UUID) (db db' : DB) : Prop :=
  List.filter (fun r => negb (N.eqb (ur_ID r) id)) (users db') = List.filter (fun r => negb (N.eqb (ur_ID r) id)) (users db) ∧
  List.filter (fun t => negb (N.eqb (rt_UserID t) id)) (refresh_tokens db') =
  List.filter (fun t => negb (N.eqb (rt_UserID t) id)) (refresh_tokens db).
Definition accounts (db : DB) : list UserRow * list TokenRow := (users db, refresh_tokens db).

(** ** Not changed *)

Lemma fault_plain f t : errors_Is (fault_error f) (ESentinel t) = false.
Proof. by destruct f. Qed.

Lemma fault_not_unchanged f : errors_Is (fault_error f) ErrNotChanged = false.
Proof. apply fault_plain. Qed.

(** A transaction reports a sentinel only when its body does. *)
Lemma WithinTx_reports `{Env} {A} (fn : M A) w e w' t :
  WithinTx fn background w = (Err e, w') -> errors_Is e (ESentinel t) = true -> t ≠ "sql: transaction has already been committed or rolled back"%string ->
  ∃ e0 w2, fn (mkCtx (Some (env_now (w_step w)))) (tick w) = (Err e0, w2) ∧ errors_Is e0 (ESentinel t) = true.
Proof.
  unfold WithinTx, TxFromContext, rollback; simpl. intros Hr He Ht. destruct (env_fault (w_step w)) as [f|].
  { injection Hr as <- _. by rewrite fault_plain in He. }
  destruct (fn _ (tick w)) as [[a|e0|s] w2] eqn:Ef; [exfalso| |exfalso].
  - destruct (env_fault (w_step w2)) as [f|]; [|done]. injection Hr as <- _. cbn [errors_Is] in He. rewrite fault_plain in He.
    rewrite !bool_decide_eq_false_2 in He by done. simpl in He. unfold ErrTxDone in He. cbn [errors_Is] in He.
    rewrite orb_false_r in He. apply bool_decide_eq_true in He. congruence.
  - exists e0, w2. split; [done|].
    destruct (env_fault (w_step w2)) as [f|]; injection Hr as <- _; cbn [errors_Is] in He; rewrite ?fault_plain, ?orb_false_r in He;
      by rewrite !bool_decide_eq_false_2 in He by done.
  - destruct (env_fault (w_step w2)) as [f|]; injection Hr as <- _; cbn [errors_Is] in He; rewrite ?fault_plain in He;
      by rewrite !bool_decide_eq_false_2 in He by done.
Qed.

Lemma WithinTx_unchanged `{Env} {A} (fn : M A) w e w' :
  WithinTx fn background w = (Err e, w') -> errors_Is e ErrNotChanged = true ->
  ∃ ctx e0 w2, fn ctx (tick w) = (Err e0, w2) ∧ errors_Is e0 ErrNotChanged = true.
Proof. intros Hr He. destruct (WithinTx_reports _ _ _ _ _ Hr He) as (e0 & w2 & ? & ?); [done|]. eauto. Qed.

Lemma Errorf_unchanged s e : errors_Is (Errorf s e) ErrNotChanged = errors_Is e ErrNotChanged.
Proof. unfold Errorf. cbn [errors_Is]. by rewrite (bool_decide_eq_false_2 (EWrap s e = ErrNotChanged)) by done. Qed.

Section block.
Context `{Env} `{Goque} `{Collation} `{LicenseCache} `{Entropy} `{Jwt} (cfg : JWTConfig).

(** A call that reads, and never says "not changed". *)
Definition plain_read {A} (m : M A) (Q : DB -> A -> Prop) : Prop := ∀ ctx w,
  wp m ctx w (fun r w' => w_db w' = w_db w ∧
    match r with
    | Ok a => Q (w_db w) a
    | Err e => errors_Is e ErrNotChanged = false
    | Panic _ => True
    end).

Lemma plain_query {A} (f : DB -> A) : plain_read (query f) (fun db a => a = f db).
Proof.
  intros ctx w. unfold wp, query, sql. destruct (env_fault (w_step w)) as [g|]; [|by split].
  split; [done|apply fault_not_unchanged].
Qed.
Lemma plain_ret {A} (a : A) (Q : DB -> A -> Prop) : (∀ db, Q db a) -> plain_read (mret a) Q.
Proof. intros HQ ctx w. split; [done|apply HQ]. Qed.
Lemma plain_raise {A} e (Q : DB -> A -> Prop) : errors_Is e ErrNotChanged = false -> plain_read (raise e) Q.
Proof. intros He ctx w. by split. Qed.
Lemma plain_bind {A B} (m : M A) (k : A -> M B) Q R :
  plain_read m Q -> (∀ a, plain_read (k a) (fun db b => Q db a -> R db b)) -> plain_read (m ≫= k) R.
Proof.
  intros Hm Hk ctx w. apply wp_bind. eapply wp_mono; [apply Hm|]. intros [a|e|s] w1 [Hdb HQ]; simpl; [|done..].
  eapply wp_mono; [apply Hk|]. intros r w2 [Hdb2 HR]. rewrite Hdb2. split; [done|]. rewrite Hdb in HR. destruct r; auto.
Qed.
Lemma plain_wrap {A} s (m : M A) Q : plain_read m Q -> plain_read (wrap_err (Errorf s) m) Q.
Proof.
  intros Hm ctx w. specialize (Hm ctx w). unfold wp, wrap_err in *. destruct (m ctx w) as [[a|e|x] w1]; cbn [fst snd] in *; [done| |done].
  destruct Hm as [Hdb He]. split; [done|]. by rewrite Errorf_unchanged.
Qed.

Lemma plain_weaken {A} (m : M A) (Q R : DB -> A -> Prop) :
  plain_read m Q -> (∀ db a, Q db a -> R db a) -> plain_read m R.
Proof.
  intros Hm HQ ctx w. eapply wp_mono; [apply Hm|]. intros r w1 [Hdb Hr]. split; [done|]. destruct r; auto.
Qed.

Lemma plain_get id : plain_read (UserStore.GetForUpdateByID id)
  (fun db u => ∃ r, find_user id db = Some r ∧ u = fromDBUser r).
Proof.
  eapply plain_bind; [apply plain_query|]. intros [r|]; [apply plain_ret|by apply plain_raise].
  intros db Hr. by exists r.
Qed.

Lemma plain_lock : plain_read LockAdminMutations (fun _ _ => True).
Proof.
  eapply (plain_bind _ _ (fun _ _ => True)); [intros ctx w; by split|]. intros []; [|by apply plain_raise].
  apply plain_wrap. eapply plain_weaken; [apply plain_query|done].
Qed.

Lemma plain_count : plain_read CountActiveAdmins (fun _ _ => True).
Proof. eapply plain_weaken; [apply plain_query|done]. Qed.

(** [exec] of the programs of the closure, as reads. *)
Lemma plain_exec_bind {A B} (p : Prog UserOp A) (f : A -> Prog UserOp B) Q R :
  plain_read (exec user_handle p) Q -> (∀ a, plain_read (exec user_handle (f a)) (fun db b => Q db a -> R db b)) ->
  plain_read (exec user_handle (p ≫= f)) R.
Proof. intros Hp Hf ctx w. unfold wp. rewrite exec_bind. by apply (plain_bind _ _ Q). Qed.

Lemma plain_ensure_admin v : plain_read (exec user_handle (ensureNotLastActiveAdmin v)) (fun _ _ => True).
Proof.
  unfold ensureNotLastActiveAdmin. destruct (negb _); [by apply plain_ret|].
  eapply (plain_exec_bind _ _ (fun _ _ => True)).
  { intros ctx w. unfold wp. rewrite exec_call_wrap. exact (plain_wrap _ _ _ plain_lock ctx w). }
  intros _. eapply (plain_exec_bind _ _ (fun _ _ => True)).
  { intros ctx w. unfold wp. rewrite exec_call_wrap. exact (plain_wrap _ _ _ plain_count ctx w). }
  intros n. destruct (n <=? 1); [by apply plain_raise|by apply plain_ret].
Qed.

Lemma plain_block v : IsBlocked v = false ->
  plain_read (exec user_handle (block_apply v)) (fun _ r => ∃ now, fst r = v <| u_BlockedAt := Some now |>).
Proof.
  intros Hv. unfold block_apply. rewrite Hv. eapply plain_exec_bind; [apply plain_ensure_admin|]. intros [].
  eapply (plain_exec_bind _ _ (fun _ _ => True)); [intros ctx w; by split|].
  intros now. apply plain_ret. intros _ _ _. by exists now.
Qed.

(** The transaction of a block. *)
Lemma block_body id ctx w r w2 :
  exec user_handle (updateWithApply id block_apply) ctx w = (r, w2) ->
  match r with
  | Ok (u, _) => ∃ row now, find_user id (w_db w) = Some row ∧ u = (fromDBUser row) <| u_BlockedAt := Some now |> ∧
      users (w_db w2) = written u <$> users (w_db w) ∧ refresh_tokens (w_db w2) = refresh_tokens (w_db w)
  | Err e => errors_Is e ErrNotChanged = true -> already_blocked id (w_db w)
  | Panic _ => True
  end.
Proof.
  unfold updateWithApply. rewrite exec_bind. intros Hrun.
  pose proof (plain_wrap "get user" _ _ (plain_get id) ctx w) as Hget. unfold wp in Hget.
  unfold mbind at 1, M_bind in Hrun. rewrite exec_call_wrap in Hrun. cbn [user_handle] in Hrun.
  destruct (wrap_err _ _ ctx w) as [[v|e|s] w1]; cbn [fst snd] in Hget; destruct Hget as [Hdb Hget];
    [|injection Hrun as <- <-; by rewrite Hget|injection Hrun as <- <-; done].
  destruct Hget as (row & Hrow & ->). destruct (IsBlocked (fromDBUser row)) eqn:Eb.
  { assert (already_blocked id (w_db w)) as Hal.
    { exists row. split; [done|]. unfold IsBlocked in Eb. simpl in Eb. by destruct (ur_BlockedAt row). }
    unfold block_apply in Hrun. rewrite Eb in Hrun. rewrite exec_bind in Hrun. unfold mbind, M_bind in Hrun.
    rewrite exec_wrap in Hrun. simpl in Hrun. by injection Hrun as <- <-. }
  rewrite exec_bind in Hrun. unfold mbind at 1, M_bind in Hrun. rewrite exec_wrap in Hrun.
  pose proof (plain_wrap "apply user update" _ _ (plain_block _ Eb) ctx w1) as Hfn. unfold wp in Hfn.
  destruct (wrap_err _ _ ctx w1) as [[[u x]|e|s] w3]; cbn [fst snd] in Hfn; destruct Hfn as [Hdb3 Hfn];
    [|injection Hrun as <- <-; by rewrite Hfn|injection Hrun as <- <-; done].
  destruct Hfn as [now Hu]. cbn [fst] in Hrun, Hu. rewrite exec_bind in Hrun. unfold mbind, M_bind in Hrun.
  rewrite exec_call_wrap in Hrun. unfold wrap_err in Hrun. cbn [user_handle] in Hrun.
  destruct (UserStore.Update u ctx w3) as [[[]|e|s] w4] eqn:Eu; injection Hrun as <- <-; [|..|done].
  - apply sql_Ok in Eu as (db' & Hf & ->). apply require_Ok in Hf as [_ Hf]. injection Hf as <-.
    exists row, now. split_and!; [done|done|..]; simpl; by rewrite Hdb3, Hdb.
  - rewrite Errorf_unchanged. intros He. exfalso. unfold UserStore.Update, sql in Eu.
    destruct (env_fault (w_step w3)) as [f|]; [injection Eu as <- _; by rewrite fault_not_unchanged in He|].
    unfold require in Eu. destruct (forallb _ _); simpl in Eu; [done|]. injection Eu as <- _. done.
Qed.

(** Another table, or none. *)
Lemma keeps_accounts_publish acc a : keeps (fun db => accounts db = acc) (publishUserAudit a) (fun _ => True).
Proof.
  unfold publishUserAudit. eapply keeps_bind; [apply keeps_attempt, keeps_Publish|intros; by apply keeps_ret].
  intros db tasks. by destruct db.
Qed.

Definition token_revoked (id : UUID) (now : Time) (t : TokenRow) : TokenRow :=
  if N.eqb (rt_UserID t) id then t <| rt_Revoked := true |> <| rt_UpdatedAt := Some now |> else t.

(** The revocation: all tokens of the user, or none. *)
Lemma revoke_run id w r w' :
  exec (token_handle cfg) (RevokeRefreshTokenByUserID cfg id) background w = (r, w') ->
  users (w_db w') = users (w_db w) ∧
  match r with
  | Err _ => refresh_tokens (w_db w') = refresh_tokens (w_db w)
  | _ => ∃ now, refresh_tokens (w_db w') = token_revoked id now <$> refresh_tokens (w_db w)
  end.
Proof.
  unfold RevokeRefreshTokenByUserID. rewrite exec_bind. unfold mbind, M_bind. rewrite exec_call. cbn [token_handle].
  unfold withUserSessionsLocked. destruct (WithinTx _ background w) as [rt w1] eqn:Et.
  apply WithinTx_cases in Et as [(e & -> & Hdb)|(fams & w2 & -> & Hdb & _ & Hin)].
  { intros [= <- <-]. by rewrite Hdb. }
  apply bind_Ok in Hin as ([] & w3 & Hlock & Hrev). apply (keeps_run (fun db => db = w_db w) _ _ _ _ _ _ (keeps_lock _ _)) in Hlock as [Hdb3 _]; [|done].
  apply sql_Ok in Hrev as (db' & Hf & ->). injection Hf as <- <-. simpl in Hdb. rewrite Hdb3 in Hdb. intros Hrest.
  assert (w_db w' = w_db w1 ∧ ∀ e, r ≠ Err e) as [Hdb' Hne].
  { unfold revokeSessionAccessTokens in Hrest. destruct (Nat.eqb _ 0); [injection Hrest as <- <-; by split|].
    cbn [exec mbind Prog_bind prog_bind try_call token_handle] in Hrest.
    assert (∀ fams, keeps (fun db => db = w_db w1) (AddSessions (revokedSessionTTL cfg) fams) (fun _ => True)) as Hk
      by (intros fams; unfold AddSessions; destruct (_ || _); [by apply keeps_ret|apply keeps_wrap_err, keeps_kv]).
    destruct (AddSessions _ _ background w1) as [ra wa] eqn:Ea. apply (keeps_run _ _ _ _ _ _ _ (Hk _)) in Ea as [Hwa _]; [|done].
    destruct ra; injection Hrest as <- <-; by split. }
  rewrite Hdb', Hdb. split; [done|].
  destruct r as [[]|e|s]; [|by destruct (Hne e)|]; by eexists.
Qed.

Lemma filter_fmap_other {A} (p : A -> bool) (f : A -> A) l :
  (∀ x, p x = true -> f x = x) -> (∀ x, p (f x) = p x) -> List.filter p (f <$> l) = List.filter p l.
Proof.
  intros Hf Hp. induction l as [|x l IH]; [done|]. rewrite fmap_cons. cbn [List.filter]. rewrite Hp, IH.
  destruct (p x) eqn:E; [|done]. by rewrite Hf.
Qed.

Lemma block_rows u now (rows : list UserRow) :
  u_BlockedAt u = Some now ->
  (∀ r, r ∈ written u <$> rows -> ur_ID r = u_ID u -> ur_BlockedAt r ≠ None) ∧
  List.filter (fun r => negb (N.eqb (ur_ID r) (u_ID u))) (written u <$> rows) =
  List.filter (fun r => negb (N.eqb (ur_ID r) (u_ID u))) rows.
Proof.
  intros Hb. assert (∀ r, ur_ID (written u r) = ur_ID r) as Hid.
  { intros r. unfold written. destruct (N.eqb _ _); by destruct r. }
  split.
  - intros r (r0 & -> & Hin)%list_elem_of_fmap. rewrite Hid. intros Heq. unfold written.
    rewrite (proj2 (N.eqb_eq _ _) Heq). destruct r0, u. simpl in *. by rewrite Hb.
  - apply filter_fmap_other; [|intros r; by rewrite Hid]. intros r Hne%negb_true_iff. unfold written. by rewrite Hne.
Qed.

Lemma token_rows id now (l : list TokenRow) :
  (∀ t, t ∈ token_revoked id now <$> l -> rt_UserID t = id -> rt_Revoked t = true) ∧
  List.filter (fun t => negb (N.eqb (rt_UserID t) id)) (token_revoked id now <$> l) =
  List.filter (fun t => negb (N.eqb (rt_UserID t) id)) l.
Proof.
  assert (∀ t, rt_UserID (token_revoked id now t) = rt_UserID t) as Hid.
  { intros t. unfold token_revoked. destruct (N.eqb _ _); by destruct t. }
  split.
  - intros t (t0 & -> & Hin)%list_elem_of_fmap. rewrite Hid. intros Heq. unfold token_revoked.
    rewrite (proj2 (N.eqb_eq _ _) Heq). by destruct t0.
  - apply filter_fmap_other; [|intros t; by rewrite Hid]. intros t Hne%negb_true_iff. unfold token_revoked. by rewrite Hne.
Qed.

(** What the tables hold once the block is committed, and then the tokens are revoked. *)
Definition cut_off (id : UUID) (db db' : DB) : Prop := blocked_in id db' ∧ revoked_in id db' ∧ others_same id db db'.

(** C12. However it ends, blocking a user touches nobody else's rows.  It returns
    success when the user was already blocked, and then it changes nothing, or
    when the block is stored and every refresh token of the user is revoked.  An
    error leaves the accounts as they were, or the user blocked with every token
    as it was, since the revocation is a transaction of its own: the retry of
    such a request finds the user already blocked and revokes nothing. *)
Theorem BlockUser_cuts_off cmd w r w' :
  BlockUser cfg cmd background w = (r, w') ->
  let id := bu_UserID cmd in
  match r with
  | Ok _ => already_blocked id (w_db w) ∧ accounts (w_db w') = accounts (w_db w) ∨ cut_off id (w_db w) (w_db w')
  | Err _ => accounts (w_db w') = accounts (w_db w) ∨
      blocked_in id (w_db w') ∧ refresh_tokens (w_db w') = refresh_tokens (w_db w) ∧ others_same id (w_db w) (w_db w')
  | Panic _ => cut_off id (w_db w) (w_db w')
  end.
Proof.
  unfold BlockUser, unless_unchanged, reject_if. set (id := bu_UserID cmd). intros Hrun.
  destruct (is_self _ _); [injection Hrun as <- <-; by left|].
  unfold mbind, M_bind, mret, M_ret, attempt, within in Hrun. destruct (WithinTx _ background w) as [rb w1] eqn:Eb.
  pose proof Eb as Hcases. apply WithinTx_cases in Hcases as [(e & -> & Hdb)|(ux & w2 & -> & Hdb & _ & Hbody)].
  { destruct (errors_Is e ErrNotChanged) eqn:Ee; injection Hrun as <- <-; [|left; by rewrite Hdb].
    left. rewrite Hdb. split; [|done]. destruct (WithinTx_unchanged _ _ _ _ Eb Ee) as (ctx & e0 & w2 & Hb & He0).
    apply block_body in Hb. by apply Hb. }
  apply block_body in Hbody. destruct ux as [u x]. destruct Hbody as (row & now & Hfind & Hu & Husers & Htok).
  rewrite <- Hdb in Husers, Htok. simpl in Husers, Htok.
  assert (u_ID u = id ∧ u_BlockedAt u = Some now) as [Hid Hblk].
  { subst u. apply find_some in Hfind as [_ Heq%N.eqb_eq]. by destruct row. }
  destruct (block_rows u now (users (w_db w)) Hblk) as [Hb1 Hb2]. rewrite Hid in Hb1, Hb2.
  unfold wrap_err in Hrun.
  destruct (exec (token_handle cfg) _ background w1) as [rt w3] eqn:Er. apply revoke_run in Er as [Hus Hrt].
  destruct rt as [[]|e|s].
  - destruct Hrt as [tnow Hrt]. destruct (token_rows id tnow (refresh_tokens (w_db w1))) as [Ht1 Ht2].
    assert (accounts (w_db w') = accounts (w_db w3)) as [= Ha1 Ha2].
    { by apply (keeps_run _ _ _ _ _ _ _ (keeps_accounts_publish (accounts (w_db w3)) _)) in Hrun as [-> _]. }
    assert (cut_off id (w_db w) (w_db w')) as Hcut.
    { unfold cut_off, blocked_in, revoked_in, others_same. rewrite Ha1, Ha2, Hus, Hrt, Husers. split_and!; [done..|].
      by rewrite Ht2, Htok. }
    destruct r as [[]|e|s]; [by right| |done]. exfalso. unfold publishUserAudit, attempt, mbind, M_bind in Hrun.
    by destruct (Publish _ background w3) as [[]].
  - injection Hrun as <- <-. right. unfold blocked_in, others_same. rewrite Hus, Hrt, Htok, Husers. done.
  - injection Hrun as <- <-. destruct Hrt as [tnow Hrt]. destruct (token_rows id tnow (refresh_tokens (w_db w1))) as [Ht1 Ht2].
    unfold cut_off, blocked_in, revoked_in, others_same. rewrite Hus, Hrt, Husers. split_and!; [done..|]. by rewrite Ht2, Htok.
Qed.
End block.

(** ** A revocation that fails, and the retry *)

Definition ex_block (n : nat) (w : World) : outcome unit * World :=
  @BlockUser (faulty_env n) list_goque c_collation {| cached_license := fun _ => None |} ex_draws ex_jwt ex_jwt_cfg
    (mkBlock (Some SystemUser) 11) background w.

Lemma BlockUser_cuts_off_witness : ∃ e w1 w2,
  ex_block 6 ex_session_world = (Err e, w1) ∧ ex_block 6 w1 = (Ok tt, w2) ∧
  rt_Revoked <$> refresh_tokens (w_db w2) = [false] ∧
  (already_blocked 11 (w_db w1) ∧ accounts (w_db w2) = accounts (w_db w1) ∨ cut_off 11 (w_db w1) (w_db w2)).
Proof.
  eexists _, _, _.
  split; [vm_compute; reflexivity|].
  match goal with |- ?E ∧ _ => assert E as Hrun by (vm_compute; reflexivity) end.
  split; [exact Hrun|]. split; [vm_compute; reflexivity|].
  exact (@BlockUser_cuts_off (faulty_env 6) list_goque c_collation {| cached_license := fun _ => None |} ex_draws ex_jwt ex_jwt_cfg
    (mkBlock (Some SystemUser) 11) _ (Ok tt) _ Hrun).
Defined.
