(* ===== verification/InvitationSpec.v ===== *)
(** * The lifecycle of invitations

    The table of invitations as a state machine: an invitation is issued
    pending, its link may be rotated while it is pending, it is accepted,
    revoked or expires, and only then may it be pruned.  Every request of the
    service and both ways of accepting refine it; a claim never refuses an
    invitee the seat that was reserved; accepting with a password is all or
    nothing. *)
From Stdlib Require Import ZArith Lia Ascii String.
From stdpp Require Import base sorting sets strings numbers list relations.
From S2P Require Import Prelude Go Sha256 Entity Conflict AuditTrail Schema Logic Dbtx Interleave Crypto Validation MaintStore Sweep.
From S2P Require Import UserStore Credentials TokenStore InvitationStore License Fixtures Password Queue Otp Sessions Auth.
From S2P Require Import Like OtpSpec SessionSpec DanceStore Users UserSpec BlockSpec Invitations.
Open Scope Z_scope.

(** ** The state machine *)
Section lifecycle.
Context `{Collation}.

(** What may happen to one invitation. *)
Inductive row_move : InvitationRow -> InvitationRow -> Prop :=
  | rm_same r : row_move r r
  | rm_resent r hash expires sent : is_pending r = true ->
      row_move r (r <| iv_TokenHash := hash |> <| iv_ExpiresAt := expires |> <| iv_SentAt := sent |>)
  | rm_revoked r at_ : iv_Status r ≠ InvitationStatusAccepted ->
      row_move r (r <| iv_Status := InvitationStatusRevoked |> <| iv_RevokedAt := Some at_ |>)
  | rm_accepted r at_ : is_pending r = true -> at_ < iv_ExpiresAt r ->
      row_move r (r <| iv_Status := InvitationStatusAccepted |> <| iv_AcceptedAt := Some at_ |>)
  | rm_expired r : is_pending r = true -> row_move r (r <| iv_Status := InvitationStatusExpired |>).

Definition apart (row r : InvitationRow) : Prop :=
  iv_ID r ≠ iv_ID row ∧ iv_TokenHash r ≠ iv_TokenHash row ∧
  (is_pending r = true -> pg_lower (iv_Email r) ≠ pg_lower (iv_Email row)).

Inductive table_step : list InvitationRow -> list InvitationRow -> Prop :=
  | ts_issue l row : is_pending row = true -> (∀ r, r ∈ l -> apart row r) -> table_step l (l ++ [row])
  | ts_move l l' : Forall2 row_move l l' -> NoDup (iv_TokenHash <$> l') -> table_step l l'
  | ts_prune l (gone : InvitationRow -> bool) :
      (∀ r, r ∈ l -> gone r = true -> is_terminal r = true) ->
      table_step l (List.filter (fun r => negb (gone r)) l).

(** What the two unique indexes and the primary key say. *)
Record consistent (l : list InvitationRow) : Prop := {
  co_ids : NoDup (iv_ID <$> l);
  co_hashes : NoDup (iv_TokenHash <$> l);
  co_pending : NoDup ((fun r => pg_lower (iv_Email r)) <$> List.filter is_pending l) }.

Lemma row_move_id r r' : row_move r r' -> iv_ID r' = iv_ID r ∧ iv_Email r' = iv_Email r ∧ iv_Roles r' = iv_Roles r ∧
  iv_InvitedByID r' = iv_InvitedByID r ∧ iv_CreatedAt r' = iv_CreatedAt r.
Proof. destruct 1; by destruct r. Qed.

Lemma row_move_pending r r' : row_move r r' -> is_pending r' = true -> is_pending r = true.
Proof. destruct 1; destruct r; done. Qed.

(** An accepted invitation stays as it is. *)
Lemma row_move_accepted r r' : row_move r r' -> iv_Status r = InvitationStatusAccepted -> r' = r.
Proof.
  destruct 1 as [r|r hash exp sent Hp|r t Hn|r t Hp|r Hp]; intros Ha; try done;
    unfold is_pending in Hp; by rewrite Ha in Hp.
Qed.

Lemma moves_ids l l' : Forall2 row_move l l' -> iv_ID <$> l' = iv_ID <$> l.
Proof.
  induction 1 as [|r r' l l' Hm _ IH]; [done|]. rewrite !fmap_cons, IH. by destruct (row_move_id _ _ Hm) as [-> _].
Qed.

Lemma moves_pending l l' : Forall2 row_move l l' ->
  sublist ((fun r => pg_lower (iv_Email r)) <$> List.filter is_pending l')
          ((fun r => pg_lower (iv_Email r)) <$> List.filter is_pending l).
Proof.
  induction 1 as [|r r' l l' Hm _ IH]; [done|]. destruct (row_move_id _ _ Hm) as (_ & He & _). cbn [List.filter].
  destruct (is_pending r') eqn:Ep'; [rewrite (row_move_pending _ _ Hm Ep'), !fmap_cons, He; by constructor|].
  destruct (is_pending r); [rewrite fmap_cons; by constructor|done].
Qed.

Lemma filter_filter_comm {A} (p q : A -> bool) (l : list A) :
  List.filter p (List.filter q l) = List.filter q (List.filter p l).
Proof.
  induction l as [|x l IH]; [done|]. cbn [List.filter]. destruct (q x) eqn:Eq, (p x) eqn:Ep; cbn [List.filter];
    by rewrite ?Eq, ?Ep, IH.
Qed.

Lemma filter_apart row l : (∀ r, r ∈ l -> apart row r) ->
  pg_lower (iv_Email row) ∉ (fun r => pg_lower (iv_Email r)) <$> List.filter is_pending l.
Proof.
  intros Hap (r & He & Hin)%list_elem_of_fmap. apply elem_of_List_filter in Hin as [Hin Hp].
  destruct (Hap r Hin) as (_ & _ & Hne). by apply Hne.
Qed.

Lemma table_step_consistent l l' : table_step l l' -> consistent l -> consistent l'.
Proof.
  intros Hs [Hi Hh Hp]. destruct Hs as [l row Hr Hap|l l' Hm Hnd|l gone Hg].
  - assert (∀ r, r ∈ l -> iv_ID r ≠ iv_ID row ∧ iv_TokenHash r ≠ iv_TokenHash row) as Hne
      by (intros r Hin; by destruct (Hap r Hin) as (? & ? & _)).
    split.
    + rewrite fmap_app, NoDup_app. split_and!; [done| |apply NoDup_singleton]. simpl.
      intros x (r & -> & Hin)%list_elem_of_fmap. rewrite list_elem_of_singleton. by apply Hne.
    + rewrite fmap_app, NoDup_app. split_and!; [done| |apply NoDup_singleton]. simpl.
      intros x (r & -> & Hin)%list_elem_of_fmap. rewrite list_elem_of_singleton. by apply Hne.
    + rewrite List.filter_app, fmap_app. cbn [List.filter]. rewrite Hr, NoDup_app. split_and!; [done| |apply NoDup_singleton]. simpl.
      intros x Hx. rewrite list_elem_of_singleton. intros ->. by apply (filter_apart row l Hap).
  - split; [by rewrite (moves_ids _ _ Hm)|done|]. eapply sublist_NoDup; [exact Hp|by apply moves_pending].
  - split; [by apply NoDup_fmap_List_filter..|]. rewrite filter_filter_comm. by apply NoDup_fmap_List_filter.
Qed.
End lifecycle.

(** ** The statements *)

(** Where a user is invited and known: the tables the flows below write. *)
Definition people (db : DB) : list InvitationRow * list UserRow * list CredentialRow :=
  (user_invitations db, users db, auth_credentials db).

Section statements.
Context `{Env} `{Collation}.

Lemma get_row find ctx w inv w' :
  (r ← query find; InvitationStore.get r) ctx w = (Ok inv, w') ->
  w_db w' = w_db w ∧ ∃ row, find (w_db w) = Some row ∧ inv = fromDB row.
Proof.
  intros Hrun. run_step Hrun. apply query_Ok in Hrun0 as (-> & Hdb & _). unfold InvitationStore.get in Hrun1.
  destruct (find (w_db w)) as [row|] eqn:Ef; [|done]. injection Hrun1 as <- <-. split; [done|]. eauto.
Qed.

Lemma find_invitation_Some id db row : find_invitation id db = Some row -> row ∈ user_invitations db ∧ iv_ID row = id.
Proof. intros [Hin ->%N.eqb_eq]%find_some. by rewrite list_elem_of_In. Qed.

(** An UPDATE whose rows each make a move is a step of the table. *)
Lemma update_moves (p : InvitationRow -> bool) (f : InvitationRow -> InvitationRow) l :
  (∀ r, r ∈ l -> p r = true -> row_move r (f r)) -> Forall2 row_move l ((fun r => if p r then f r else r) <$> l).
Proof.
  intros Hf. apply Forall2_fmap_r, Forall_Forall2_diag, Forall_forall. intros r Hin.
  change (row_move r (if p r then f r else r)). destruct (p r) eqn:Ep; [auto|apply rm_same].
Qed.

Lemma update_step (p : InvitationRow -> bool) (f : InvitationRow -> InvitationRow) l :
  consistent l -> (∀ r, r ∈ l -> p r = true -> row_move r (f r) ∧ iv_TokenHash (f r) = iv_TokenHash r) ->
  table_step l ((fun r => if p r then f r else r) <$> l).
Proof.
  intros Hc Hf. apply ts_move; [apply update_moves; intros r Hin Hp; by apply Hf|].
  rewrite <- list_fmap_compose. rewrite (list_fmap_ext _ iv_TokenHash l); [apply Hc|].
  intros i r Hr%list_elem_of_lookup_2. simpl. destruct (p r) eqn:Ep; [by apply Hf|done].
Qed.

(** Rows are found by their id. *)
Lemma same_row l r r' : consistent l -> r ∈ l -> r' ∈ l -> iv_ID r = iv_ID r' -> r = r'.
Proof. intros [Hi _ _] Hr Hr' He. by apply (NoDup_fmap_2_elem iv_ID l). Qed.

(** What a bounded statement picks by id are rows its condition holds of. *)
Lemma picked_row cmp (p : InvitationRow -> bool) limit l r :
  consistent l -> r ∈ l -> iv_ID r ∈ iv_ID <$> pg_limit limit (sort_by cmp (List.filter p l)) -> p r = true.
Proof.
  intros Hc Hin (r' & He & Hr')%list_elem_of_fmap. apply elem_of_take in Hr' as (i & Hi & _).
  apply list_elem_of_lookup_2 in Hi. rewrite elem_of_sort_by in Hi. apply elem_of_List_filter in Hi as [Hin' Hp].
  by rewrite (same_row _ _ _ Hc Hin Hin' He).
Qed.

Lemma Resend_Ok row hash expires sent ctx w inv w' :
  InvitationStore.Resend (iv_ID row) hash expires sent ctx w = (Ok inv, w') -> consistent (user_invitations (w_db w)) ->
  row ∈ user_invitations (w_db w) -> is_pending row = true ->
  table_step (user_invitations (w_db w)) (user_invitations (w_db w')).
Proof.
  intros (db' & Hf & ->)%sql_Ok Hc Hin Hp. apply require_Ok in Hf as [Hfresh Hf].
  destruct (find_invitation _ _) as [row0|] eqn:Efind; [|done]. injection Hf as <- <-. simpl.
  apply negb_true_iff in Hfresh. set (l := user_invitations (w_db w)) in *.
  assert (∀ r, r ∈ l -> N.eqb (iv_ID r) (iv_ID row) = true -> r = row) as Hsame
    by (intros r Hr He%N.eqb_eq; by apply (same_row l)).
  apply ts_move.
  - apply update_moves. intros r Hr He. rewrite (Hsame r Hr He). by apply rm_resent.
  - assert (∀ r, r ∈ l -> iv_ID r ≠ iv_ID row -> iv_TokenHash r ≠ hash) as Hother.
    { intros r Hr Hne Heq. assert (existsb (fun r => String.eqb (iv_TokenHash r) hash && negb (N.eqb (iv_ID r) (iv_ID row))) l = true)
        as Hex; [|by rewrite Hex in Hfresh]. apply existsb_exists. exists r. rewrite <- list_elem_of_In. split; [done|].
      rewrite (proj2 (String.eqb_eq _ _) Heq). simpl. by apply negb_true_iff, N.eqb_neq. }
    clear Hfresh Efind. destruct Hc as [Hids Hhash _]. clearbody l. clear Hin.
    induction l as [|r l IH]; [constructor|]. rewrite !fmap_cons in *. apply NoDup_cons in Hids as [Hid Hids].
    apply NoDup_cons in Hhash as [Hh Hhash]. apply NoDup_cons. split; [|apply IH; [done..|set_solver|set_solver]].
    intros (x & Hx & Hxl)%list_elem_of_fmap. apply list_elem_of_fmap in Hxl as (y & -> & Hyl).
    assert (iv_ID y ≠ iv_ID r) as Hne by (intros He; apply Hid; rewrite <- He; by apply list_elem_of_fmap_2).
    assert (iv_TokenHash y ≠ iv_TokenHash r) as Hne2 by (intros He; apply Hh; rewrite <- He; by apply list_elem_of_fmap_2).
    destruct (N.eqb_spec (iv_ID r) (iv_ID row)), (N.eqb_spec (iv_ID y) (iv_ID row)); simpl in Hx.
    + congruence.
    + apply (Hother y); [set_solver|done|]. by destruct y, r.
    + apply (Hother r); [set_solver|done|]. by destruct y, r.
    + congruence.
Qed.

Lemma issue_Ok inv ctx w created w' :
  InvitationStore.Create inv ctx w = (Ok created, w') -> inv_Status inv = InvitationStatusPending ->
  table_step (user_invitations (w_db w)) (user_invitations (w_db w')).
Proof.
  unfold InvitationStore.Create. intros Hrun Hp. run_step Hrun. run_step Hrun0. destruct a as [i|e]; [|by destruct (dbtx_ErrorIs _ _)].
  injection Hrun1 as <- <-. apply sql_Ok in Hrun0 as (db' & Hf & ->). apply require_Ok in Hf as [Hfresh Hf].
  apply require_Ok in Hf as [_ Hf]. injection Hf as <- <-. apply negb_true_iff in Hfresh. simpl.
  match goal with |- table_step _ (_ ++ [?row]) => set (new := row) in * end.
  assert (is_pending new = true) as Hnew by (unfold is_pending; simpl; by rewrite Hp).
  apply ts_issue; [done|]. intros r Hin.
  match type of Hfresh with existsb ?c _ = false => assert (c r = false) as Hc end.
  { destruct (_ || _) eqn:Ec; [|done]. rewrite <- Hfresh. symmetry. apply existsb_exists. exists r. by rewrite <- list_elem_of_In. }
  apply orb_false_elim in Hc as [Hc He]. apply orb_false_elim in Hc as [Hid Hh].
  split_and!; [by apply N.eqb_neq|by apply String.eqb_neq|]. intros Hpr.
  change (is_pending r && is_pending new && String.eqb (pg_lower (iv_Email r)) (pg_lower (iv_Email new)) = false) in He.
  rewrite Hpr, Hnew in He. by apply String.eqb_neq.
Qed.

Definition accept_row (id : UUID) (at_ : Time) (r : InvitationRow) : InvitationRow :=
  if N.eqb (iv_ID r) id && is_pending r && (at_ <? iv_ExpiresAt r)
  then r <| iv_Status := InvitationStatusAccepted |> <| iv_AcceptedAt := Some at_ |> else r.

(** The single-use gate. *)
Lemma MarkAccepted_Ok id ctx w claimed w' :
  MarkAccepted id ctx w = (Ok claimed, w') ->
  let at_ := pg_ts (env_now (w_step w)) in
  w_db w' = (w_db w) <| user_invitations := accept_row id at_ <$> user_invitations (w_db w) |> ∧
  (claimed = true -> ∃ row, row ∈ user_invitations (w_db w) ∧ iv_ID row = id ∧ is_pending row = true ∧ at_ < iv_ExpiresAt row) ∧
  (w_step w <= w_step w')%nat.
Proof.
  unfold MarkAccepted. intros Hrun. run_step Hrun. injection Hrun0 as <- <-. run_step Hrun1.
  apply sql_Ok in Hrun as (db' & [= <- <-] & ->). injection Hrun0 as <- <-. simpl. split_and!; [done| |lia].
  intros Hc%Z.ltb_lt. destruct (List.filter _ _) as [|row rows] eqn:Ef; [done|].
  assert (row ∈ row :: rows) as Hin by set_solver. rewrite <- Ef in Hin. apply elem_of_List_filter in Hin as [Hin Hr].
  apply andb_prop in Hr as [Hr Hexp%Z.ltb_lt]. apply andb_prop in Hr as [Hid%N.eqb_eq Hpend]. eauto 10.
Qed.

Lemma accept_step id at_ l : consistent l -> table_step l (accept_row id at_ <$> l).
Proof.
  intros Hc. apply (update_step (fun r => N.eqb (iv_ID r) id && is_pending r && (at_ <? iv_ExpiresAt r))); [done|].
  intros r _ Hr. apply andb_prop in Hr as [Hr Hexp%Z.ltb_lt]. apply andb_prop in Hr as [_ Hp].
  split; [by apply rm_accepted|by destruct r].
Qed.

(** The table a sweep leaves is one the lifecycle leads to. *)
Definition led_to (l0 : list InvitationRow) (db : DB) : Prop :=
  consistent (user_invitations db) ∧ rtc table_step l0 (user_invitations db).

Lemma led_to_step l0 db db' : led_to l0 db -> table_step (user_invitations db) (user_invitations db') -> led_to l0 db'.
Proof. intros [Hc Hr] Hs. split; [by eapply table_step_consistent|]. by eapply rtc_r. Qed.

Lemma ExpireOlderThan_keeps l0 now limit : keeps (led_to l0) (ExpireOlderThan now limit) (fun _ => True).
Proof.
  apply keeps_sql. intros s db n db' HI Hf. injection Hf as <- <-. split; [|done]. eapply led_to_step; [exact HI|]. simpl.
  apply update_step; [apply HI|]. intros r Hin Hst%bool_decide_eq_true. split; [|by destruct r]. apply rm_expired.
  apply picked_row in Hst as [? _]%andb_prop; [done|apply HI|done].
Qed.

Lemma PruneTerminal_keeps l0 cutoff limit : keeps (led_to l0) (PruneTerminalOlderThan cutoff limit) (fun _ => True).
Proof.
  apply keeps_sql. intros s db n db' HI Hf. injection Hf as <- <-. split; [|done]. eapply led_to_step; [exact HI|]. simpl.
  match goal with |- context [bool_decide (_ ∈ ?st)] => apply (ts_prune _ (fun r => bool_decide (iv_ID r ∈ st))) end.
  intros r Hin Hst%bool_decide_eq_true. apply picked_row in Hst as [? _]%andb_prop; [done|apply HI|done].
Qed.

End statements.

(** ** The rest of the flows *)

(** Facts that depend on the three tables only. *)
Definition on_people (I : DB -> Prop) : Prop := ∀ db db', people db' = people db -> I db -> I db'.

Lemma on_people_queue I : on_people I -> queue_blind I.
Proof. intros HI db l Hdb. by apply (HI db). Qed.

Lemma on_people_eq p : on_people (fun db => people db = p).
Proof. intros db db' -> <-. done. Qed.

Lemma on_people_led `{Collation} l0 : on_people (led_to l0).
Proof. intros db db' [= Hi _ _]. unfold led_to. by rewrite Hi. Qed.

Lemma calls_only_any {E A} (p : Prog E A) : calls_only (fun _ _ => True) p.
Proof. induction p; by constructor. Qed.

(** A call that only reads keeps everything. *)
Ltac read_step :=
  match goal with
  | |- keeps _ (_ ≫= _) _ => apply keeps_bind_any; [|intros ?]
  | |- keeps _ (attempt _) _ => apply keeps_attempt_any
  | |- keeps _ (query _) _ => apply keeps_query_any
  | |- keeps _ (kv _) _ => apply keeps_kv
  | |- keeps _ UTCNow _ => by apply keeps_UTCNow
  | |- keeps _ (if ?b then _ else _) _ => destruct b
  | _ => keeps_step
  end.

Section quiet_calls.
Context `{Env} `{Collation} `{LicenseCache}.

(** The seat guard only reads. *)
Lemma keeps_seat_op I X (op : SeatOp X) : keeps I (seat_handle X op) (fun _ => True).
Proof.
  destruct op; cbn [seat_handle].
  - by apply keeps_still.
  - unfold AdvisoryXactLock. apply keeps_bind_any; [apply keeps_in_tx|]. intros []; [|apply keeps_raise].
    apply keeps_wrap_err, keeps_query_any.
  - apply keeps_query_any.
  - unfold ListPendingRoles. apply keeps_bind_any; [by apply keeps_UTCNow|]. intros ?. apply keeps_query_any.
Qed.

Lemma keeps_seats I {A} (p : Prog SeatOp A) : keeps I (exec seat_handle p) (fun _ => True).
Proof. apply (keeps_exec _ I (fun _ _ => True)); [intros; apply keeps_seat_op|apply calls_only_any]. Qed.

Lemma keeps_on_people {A} I (f : Stmt -> DB -> outcome (A * DB)) :
  on_people I -> (∀ s db a db', f s db = Ok (a, db') -> people db' = people db) -> keeps I (sql f) (fun _ => True).
Proof. intros HI Hf. apply keeps_sql. intros s db a db' Hdb Hrun. split; [|done]. by apply (HI db); [eapply Hf|]. Qed.
End quiet_calls.

Section auth_calls.
Context `{Env} `{Collation} `{Goque} `{Sealer} `{Entropy} `{Jwt} `{Argon2} `{AuthMethodFlags} (cfg : JWTConfig) (codes : Otp.Service).

(** What issuing tokens and reporting ask for. *)
Definition talk_tok (X : Type) (op : TokenOp X) : Prop :=
  match op with TNow | TNewUUID | TGenerate | TSign _ | TSave _ => True | _ => False end.
Definition talk (X : Type) (op : AuthOp X) : Prop :=
  match op with ATok op => talk_tok _ op | APublish _ | AMethodEnabled _ => True | _ => False end.

Lemma keeps_talk I X (op : AuthOp X) : on_people I -> talk X op -> keeps I (auth_handle cfg codes X op) (fun _ => True).
Proof.
  intros HI Ht. destruct op as [X op|X op| | | | | | | | | | | |action]; try done; cbn [auth_handle].
  - destruct op; try done; cbn [token_handle].
    unfold Save. apply keeps_on_people; [done|]. intros s db a db' Hf. apply require_Ok in Hf as [_ Hf].
    apply require_Ok in Hf as [_ Hf]. by injection Hf as _ <-.
  - by apply keeps_Publish, on_people_queue.
Qed.

Lemma keeps_auth I {A} (p : Prog AuthOp A) : on_people I -> calls_only talk p -> keeps I (auth cfg codes p) (fun _ => True).
Proof. intros HI Hp. eapply keeps_exec; [intros; by apply keeps_talk|done]. Qed.

Ltac talk_step :=
  match goal with
  | |- calls_only _ (_ ≫= _) => apply calls_only_bind; [|intros ?]
  | |- calls_only _ (prog_wrap _ _) => apply calls_only_wrap
  | |- calls_only _ (prog_map _ _) => apply (calls_only_map_strong _ talk_tok); [done|]
  | |- calls_only _ (if ?b then _ else _) => destruct b
  | |- calls_only _ _ => constructor; [exact Logic.I|intros [?|?]; constructor]
  | |- calls_only _ _ => constructor
  end.

Lemma talk_issue user ip : calls_only talk (IssueTokenPair cfg user ip).
Proof. unfold IssueTokenPair, IssueAccessToken, SaveRefreshToken, tok. repeat talk_step. Qed.

Lemma talk_failure u meta reason : calls_only talk (publishLoginFailure u meta reason).
Proof. unfold publishLoginFailure, auth_publishAudit. repeat talk_step. Qed.

Lemma talk_publish action : calls_only talk (auth_publishAudit action).
Proof. unfold auth_publishAudit. repeat talk_step. Qed.

Lemma talk_method m : calls_only talk (methodOffered m).
Proof. unfold methodOffered. repeat talk_step. Qed.
End auth_calls.

(** ** Errors a call never reports *)
Section spares.
Context `{Env} (t : string).

Definition spares {A} (m : M A) : Prop := ∀ ctx w e w', m ctx w = (Err e, w') -> errors_Is e (ESentinel t) = false.

Lemma Errorf_is s e : errors_Is (Errorf s e) (ESentinel t) = errors_Is e (ESentinel t).
Proof. unfold Errorf. cbn [errors_Is]. by rewrite (bool_decide_eq_false_2 (EWrap s e = ESentinel t)) by done. Qed.

Lemma spares_ret {A} (a : A) : spares (mret a).
Proof. done. Qed.
Lemma spares_raise {A} e : errors_Is e (ESentinel t) = false -> spares (raise (A := A) e).
Proof. intros He ctx w e' w' [= <- _]. done. Qed.
Lemma spares_bind {A B} (m : M A) (k : A -> M B) : spares m -> (∀ a, spares (k a)) -> spares (m ≫= k).
Proof.
  intros Hm Hk ctx w e w' Hrun. unfold mbind, M_bind in Hrun. destruct (m ctx w) as [[a|e0|s] w1] eqn:Em; [..|done].
  - by eapply Hk.
  - injection Hrun as <- _. by eapply Hm.
Qed.
Lemma spares_wrap {A} s (m : M A) : spares m -> spares (wrap_err (Errorf s) m).
Proof.
  intros Hm ctx w e w' Hrun. unfold wrap_err in Hrun. destruct (m ctx w) as [[a|e0|x] w1] eqn:Em; [done| |done].
  injection Hrun as <- _. rewrite Errorf_is. by eapply Hm.
Qed.
Lemma spares_sql {A} (f : Stmt -> DB -> outcome (A * DB)) :
  (∀ s db e, f s db = Err e -> errors_Is e (ESentinel t) = false) -> spares (sql f).
Proof.
  intros Hf ctx w e w'. unfold sql. destruct (env_fault (w_step w)); [intros [= <- _]; apply fault_plain|].
  destruct (f _ _) as [[a db']|e0|s] eqn:Ef; intros [= <- _]. by eapply Hf.
Qed.
Lemma spares_query {A} (f : DB -> A) : spares (query f).
Proof. by apply spares_sql. Qed.
Lemma spares_reject c e : errors_Is e (ESentinel t) = false -> spares (reject_if c e).
Proof. unfold reject_if. destruct c; [apply spares_raise|done]. Qed.
Lemma spares_attempt {A} (m : M A) : spares (attempt m).
Proof. intros ctx w e w'. unfold attempt. by destruct (m ctx w) as [[] ?]. Qed.
Lemma spares_get find : t ≠ "user not found"%string -> spares (r ← query find; UserStore.get r).
Proof.
  intros Ht. apply spares_bind; [apply spares_query|]. intros [row|]; [apply spares_ret|]. apply spares_raise.
  cbn [errors_Is]. apply orb_false_intro; [apply bool_decide_eq_false_2; congruence|done].
Qed.
End spares.

(** ** Granting the roles *)

(** A guard has no way to say that nothing changed. *)
Class PlainGuard `{Env} `{Collation} `{LicenseCache} `{SeatGuard} : Prop :=
  guard_plain : spares "not changed" (exec seat_handle EnsureSeatAvailable).

Section granting.
Context `{Env} `{Goque} `{Collation} `{LicenseCache} `{SeatGuard}.

(** A closure that only asks. *)
Definition asks {X} (fn : User -> Prog UserOp (User * X)) : Prop :=
  ∀ v d, keeps (fun db => db = d) (exec user_handle (fn v)) (fun _ => True).

Lemma sql_not_Ok {A} (f : Stmt -> DB -> outcome (A * DB)) ctx w r w' :
  sql f ctx w = (r, w') -> (∀ a, r ≠ Ok a) -> w_db w' = w_db w.
Proof.
  unfold sql. destruct (env_fault (w_step w)); [by intros [= <- <-]|].
  destruct (f _ _) as [[a db']|e|s]; intros [= <- <-] Hne; [by destruct (Hne a)|done..].
Qed.

Lemma get_user_run id ctx w v w' :
  UserStore.GetForUpdateByID id ctx w = (Ok v, w') ->
  w' = tick w ∧ ∃ row, find_user id (w_db w) = Some row ∧ v = fromDBUser row.
Proof.
  intros (r & w1 & Hq & Hrun)%bind_Ok. apply sql_Ok in Hq as (db' & [= <- <-] & ->). unfold UserStore.get in Hrun.
  destruct (find_user id (w_db w)) as [row|]; [|done]. injection Hrun as <- <-. split; [by destruct w|]. eauto.
Qed.

(** The one transaction of the user service, from the inside. *)
Lemma update_run {X} id (fn : User -> Prog UserOp (User * X)) ctx w r w' :
  asks fn -> exec user_handle (updateWithApply id fn) ctx w = (r, w') ->
  match r with
  | Ok (u, x) => ∃ row w2, find_user id (w_db w) = Some row ∧
      exec user_handle (fn (fromDBUser row)) ctx (tick w) = (Ok (u, x), w2) ∧
      w_db w' = (w_db w) <| users := written u <$> users (w_db w) |>
  | Err e => w_db w' = w_db w ∧
      ∀ t, t ≠ "user not found"%string -> errors_Is e (ESentinel t) = true ->
        ∃ row e0 w2, find_user id (w_db w) = Some row ∧
          exec user_handle (fn (fromDBUser row)) ctx (tick w) = (Err e0, w2) ∧ errors_Is e0 (ESentinel t) = true
  | Panic _ => w_db w' = w_db w
  end.
Proof.
  intros Hfn Hrun. unfold updateWithApply in Hrun. rewrite exec_bind in Hrun. unfold mbind at 1, M_bind in Hrun.
  rewrite exec_call_wrap in Hrun. cbn [user_handle] in Hrun.
  assert (keeps (fun db => db = w_db w) (wrap_err (Errorf "get user") (UserStore.GetForUpdateByID id)) (fun _ => True)) as Hk.
  { apply keeps_wrap_err. apply keeps_bind_any; [apply keeps_query_any|]. intros [r0|]; [by apply keeps_ret|apply keeps_raise]. }
  destruct (wrap_err _ _ ctx w) as [[v|e|s] w1] eqn:Eg; destruct (keeps_run _ _ _ _ _ _ _ Hk Eg eq_refl) as [Hdb _];
    [|injection Hrun as <- <-..]; [|split; [done|]|done].
  2: { intros t Ht He. by rewrite (spares_wrap t _ _ (spares_get t _ Ht) _ _ _ _ Eg) in He. }
  apply wrap_err_Ok, get_user_run in Eg as [-> (row & Hrow & ->)]. clear Hk Hdb.
  rewrite exec_bind in Hrun. unfold mbind at 1, M_bind in Hrun. rewrite exec_wrap in Hrun. unfold wrap_err at 1 in Hrun.
  destruct (exec user_handle (fn (fromDBUser row)) ctx (tick w)) as [rf w2] eqn:Ef.
  destruct (keeps_run _ _ _ _ _ _ _ (Hfn (fromDBUser row) (w_db w)) Ef eq_refl) as [Hdb2 _].
  destruct rf as [[u x]|e|s]; [|injection Hrun as <- <-..]; [| |done].
  2: { split; [done|]. intros t _ He. rewrite Errorf_is in He. by exists row, e, w2. }
  rewrite exec_bind in Hrun. unfold mbind, M_bind in Hrun. rewrite exec_call_wrap in Hrun. unfold wrap_err in Hrun.
  cbn [user_handle fst] in Hrun. destruct (UserStore.Update u ctx w2) as [[[]|e|s] w3] eqn:Eu; injection Hrun as <- <-.
  - apply sql_Ok in Eu as (db' & Hf & ->). apply require_Ok in Hf as [_ Hf]. injection Hf as <-.
    exists row, w2. split_and!; [done|done|]. simpl. by rewrite Hdb2.
  - split; [apply sql_not_Ok in Eu as ->; [done|done]|]. intros t _. rewrite Errorf_is. intros He.
    assert (spares t (UserStore.Update u)) as Hs; [|by rewrite (Hs _ _ _ _ Eu) in He].
    apply spares_sql. intros s db e0. unfold require. by destruct (forallb _ _); [|intros [= <-]].
  - by apply sql_not_Ok in Eu as ->.
Qed.

Lemma keeps_ensure_seat I needed : keeps I (exec user_handle (ensure_seat needed)) (fun _ => True).
Proof.
  unfold ensure_seat. destruct needed; [|by apply keeps_ret]. generalize (EnsureSeatAvailable). intros p.
  apply (keeps_exec _ I (fun X op => ∃ o, op = USeat o)).
  - intros X op [o ->]. apply keeps_seat_op.
  - induction p as [a|e|X op k IH]; constructor; eauto.
Qed.

Lemma keeps_exec_bind {A B} I (p : Prog UserOp A) (f : A -> Prog UserOp B) :
  keeps I (exec user_handle p) (fun _ => True) -> (∀ a, keeps I (exec user_handle (f a)) (fun _ => True)) ->
  keeps I (exec user_handle (p ≫= f)) (fun _ => True).
Proof. intros Hp Hf ctx w Hw. unfold wp. rewrite exec_bind. by apply keeps_bind_any. Qed.

Lemma asks_assign roles : asks (assign_apply roles).
Proof.
  intros v d. unfold assign_apply. destruct (Nat.eqb _ 0); [by apply keeps_raise|].
  apply keeps_exec_bind; [apply keeps_ensure_seat|]. intros ?. by apply keeps_ret.
Qed.

Definition missing_roles (roles : list Role) (v : User) : list Role :=
  List.filter (fun role => negb (has_role (u_Roles v) role)) roles.
Definition with_roles (roles : list Role) (v : User) : User := v <| u_Roles := u_Roles v ++ missing_roles roles v |>.

Lemma assign_Ok roles v ctx w u added w' :
  exec user_handle (assign_apply roles v) ctx w = (Ok (u, added), w') -> u = with_roles roles v.
Proof.
  unfold assign_apply. destruct (Nat.eqb _ 0); [done|]. rewrite exec_bind. intros Hrun. run_step Hrun. by injection Hrun1 as <- _.
Qed.

Lemma exec_map_seat {A} (p : Prog SeatOp A) ctx w :
  exec user_handle (prog_map (fun X => USeat) p) ctx w = exec seat_handle p ctx w.
Proof.
  revert w. induction p as [a|e|X op k IH]; intros w; [done..|]. simpl. destruct (seat_handle X op ctx w) as [[x|e|s] w1]; [apply IH..|done].
Qed.

Lemma assign_unchanged `{!PlainGuard} roles v ctx w e w' :
  exec user_handle (assign_apply roles v) ctx w = (Err e, w') -> errors_Is e ErrNotChanged = true -> missing_roles roles v = [].
Proof.
  unfold assign_apply, missing_roles. destruct (Nat.eqb_spec (length (List.filter (fun role => negb (has_role (u_Roles v) role)) roles)) 0)
    as [Hl|_]; [intros _ _; by apply nil_length_inv|].
  rewrite exec_bind. unfold mbind, M_bind, ensure_seat. destruct (seat_gained _ _); [|done]. rewrite exec_map_seat.
  destruct (exec seat_handle _ ctx w) as [[[]|e0|s] w1] eqn:Eg; [done| |done]. intros [= <- _] He.
  apply guard_plain in Eg. unfold ErrNotChanged in He. congruence.
Qed.

Lemma keeps_publishUserAudit I a : queue_blind I -> keeps I (publishUserAudit a) (fun _ => True).
Proof.
  intros HI. unfold publishUserAudit. eapply keeps_bind; [by apply keeps_attempt, keeps_Publish|].
  intros; by apply keeps_ret.
Qed.

Definition with_users (us : list UserRow) (p : list InvitationRow * list UserRow * list CredentialRow) :
    list InvitationRow * list UserRow * list CredentialRow := (p.1.1, us, p.2).

(** Inside the caller's transaction. *)
Lemma AssignRoles_Ok `{!PlainGuard} actor uid roles t w user w' :
  AssignRoles (mkRolesCmd actor uid roles) (mkCtx (Some t)) w = (Ok user, w') ->
  ∃ row, find_user uid (w_db w) = Some row ∧
    (people (w_db w') = people (w_db w) ∧ missing_roles roles (fromDBUser row) = [] ∧ user = fromDBUser row ∨
     let u := with_roles roles (fromDBUser row) in
     people (w_db w') = with_users (written u <$> users (w_db w)) (people (w_db w)) ∧ user = u).
Proof.
  unfold AssignRoles. intros (? & w1 & [_ ->]%reject_if_Ok & Hrun)%bind_Ok.
  apply bind_Ok in Hrun as (? & w2 & [_ ->]%reject_if_Ok & Hrun). cbn [rl_UserID rl_Roles] in Hrun.
  unfold unless_unchanged, within in Hrun. apply bind_Ok in Hrun as (r & w1 & Htx%attempt_Ok & Hrun).
  rewrite (WithinTx_nested _ _ t) in Htx by done. destruct r as [[u added]|e].
  - apply (update_run uid _ _ _ _ _ (asks_assign roles)) in Htx as (row & w2 & Hrow & Hfn & Hdb).
    apply assign_Ok in Hfn as ->. exists row. split; [done|]. right.
    apply bind_Ok in Hrun as (? & w4 & Hpub & Hrun). injection Hrun as <- <-.
    pose proof (keeps_run _ _ _ _ _ _ _ (keeps_publishUserAudit _ _ (on_people_queue _ (on_people_eq (people (w_db w1))))) Hpub eq_refl) as [-> _].
    by rewrite Hdb.
  - apply (update_run uid _ _ _ _ _ (asks_assign roles)) in Htx as [Htx Hun]. destruct (errors_Is e ErrNotChanged) eqn:Ee; [|done].
    destruct (Hun "not changed"%string ltac:(done) Ee) as (row0 & e0 & w3 & Hrow & Hfn & He0). apply assign_unchanged in Hfn; [|done].
    apply bind_Ok in Hrun as (r & w2 & (-> & Hdb & _)%query_Ok & Hrun). rewrite Htx in *. unfold UserStore.get in Hrun.
    rewrite Hrow in Hrun. injection Hrun as <- <-. exists row0. split; [done|]. left. by rewrite Hdb.
Qed.

(** The claim, inside a transaction. *)
Lemma claim_Ok `{!PlainGuard} inv uid t w user w' :
  claim_in_tx inv uid (mkCtx (Some t)) w = (Ok user, w') ->
  let at_ := pg_ts (env_now (w_step w)) in
  ∃ row urow us, row ∈ user_invitations (w_db w) ∧ iv_ID row = rv_ID inv ∧ is_pending row = true ∧ at_ < iv_ExpiresAt row ∧
    find_user uid (w_db w) = Some urow ∧
    people (w_db w') = (accept_row (rv_ID inv) at_ <$> user_invitations (w_db w), us, auth_credentials (w_db w)) ∧
    (us = users (w_db w) ∧ missing_roles (rv_Roles inv) (fromDBUser urow) = [] ∧ user = fromDBUser urow ∨
     let u := with_roles (rv_Roles inv) (fromDBUser urow) in us = written u <$> users (w_db w) ∧ user = u).
Proof.
  unfold claim_in_tx. intros (claimed & w1 & Hmark%wrap_err_Ok & Hrun)%bind_Ok. apply MarkAccepted_Ok in Hmark as (Hdb & Hrow & _).
  apply bind_Ok in Hrun as (? & w2 & [Hc%negb_false_iff ->]%reject_if_Ok & Hrun%wrap_err_Ok).
  destruct (Hrow Hc) as (row & Hin & Hid & Hp & Hexp).
  apply AssignRoles_Ok in Hrun as (urow & Hfind & Hcase). unfold find_user in Hfind. rewrite Hdb in Hfind, Hcase.
  simpl in Hfind, Hcase. destruct Hcase as [(Hpe & Hm & ->)|[Hpe ->]]; eexists row, urow, _; split_and!; eauto.
Qed.
End granting.

(** ** Accepting with a password *)

(** The account an acceptance makes. *)
Definition account (email : string) (roles : list Role) (row : UserRow) : Prop :=
  ur_Email row = email ∧ ur_Name row = email ∧ ur_BlockedAt row = None ∧
  ur_Roles row = DefaultRoles ++ missing_roles roles (newUser email email DefaultRoles).
Definition password_of (id : UUID) (hash : string) (c : CredentialRow) : Prop :=
  ac_UserID c = id ∧ is_password c = true ∧ ac_SecretHash c = hash.
(** The table of credentials with the password of a user set. *)
Definition password_set (id : UUID) (hash : string) (cs cs' : list CredentialRow) : Prop :=
  (∃ c, c ∈ cs' ∧ password_of id hash c) ∧
  List.filter (fun c => negb (of_user id c)) cs' = List.filter (fun c => negb (of_user id c)) cs.

Section accepting.
Context `{Env} `{Goque} `{Collation} `{LicenseCache} `{SeatGuard} `{!PlainGuard}.

Lemma CreateWithoutIdentity_Ok email name ctx w user w' :
  CreateWithoutIdentity email name ctx w = (Ok user, w') ->
  ∃ row, user = fromDBUser row ∧ w_db w' = (w_db w) <| users := users (w_db w) ++ [row] |> ∧
    ur_Email row = email ∧ ur_Name row = name ∧ ur_BlockedAt row = None ∧ ur_Roles row = DefaultRoles ∧
    ∀ r, r ∈ users (w_db w) -> ur_ID r ≠ ur_ID row ∧ pg_lower (ur_Email r) ≠ pg_lower email.
Proof.
  unfold CreateWithoutIdentity. intros (r & w1 & Hget%attempt_Ok & Hrun)%bind_Ok. destruct r as [v|e]; [done|].
  assert (w_db w1 = w_db w ∧ (errors_Is e ErrUserNotFound = true -> ∀ r, r ∈ users (w_db w) -> pg_lower (ur_Email r) ≠ pg_lower email))
    as [Hdb Hnone].
  { unfold UserStore.GetByEmail in Hget. unfold mbind, M_bind, query, sql in Hget. destruct (env_fault (w_step w)) as [f|].
    { injection Hget as <- <-. split; [done|]. pose proof (fault_plain f "user not found") as Hf. unfold ErrUserNotFound. congruence. }
    destruct (List.find _ _) as [row|] eqn:Ef; [done|]. injection Hget as <- <-. split; [done|]. intros _ r Hin Heq.
    rewrite list_elem_of_In in Hin. apply (find_none _ _ Ef) in Hin. by apply String.eqb_neq in Hin. }
  destruct (errors_Is e ErrUserNotFound) eqn:Ee; [|done]. cbn [negb] in Hrun.
  apply bind_Ok in Hrun as (c & w2 & Hc%attempt_Ok & Hrun). destruct c as [u|e2]; [|by destruct (dbtx_ErrorIs _ _)].
  injection Hrun as <- <-. apply sql_Ok in Hc as (db' & Hf & ->). apply require_Ok in Hf as [_ Hf].
  apply require_Ok in Hf as [Hfresh Hf]. injection Hf as <- <-. apply negb_true_iff in Hfresh. rewrite Hdb in *.
  eexists. split; [done|]. split; [done|]. do 4 (split; [done|]). intros r Hin. split; [|by apply Hnone].
  intros Heq. apply not_true_iff_false in Hfresh. apply Hfresh, existsb_exists. exists r. rewrite <- list_elem_of_In.
  split; [done|]. rewrite Heq. simpl. by rewrite N.eqb_refl.
Qed.

Lemma UpsertPassword_Ok id hash ctx w u w' :
  UpsertPassword id hash ctx w = (Ok u, w') ->
  ∃ cs, w_db w' = (w_db w) <| auth_credentials := cs |> ∧ password_set id hash (auth_credentials (w_db w)) cs.
Proof.
  intros (db' & Hf & ->)%sql_Ok. cbv zeta in Hf.
  destruct (existsb (fun r => of_user id r && is_password r) (auth_credentials (w_db w))) eqn:Ex.
  - injection Hf as <-. eexists. split; [done|]. apply existsb_exists in Ex as (c & Hin & Hc). rewrite <- list_elem_of_In in Hin.
    split.
    + eexists. split; [by apply list_elem_of_fmap_2, Hin|]. cbn beta. rewrite Hc. apply andb_prop in Hc as [Hu Hp].
      apply N.eqb_eq in Hu. by destruct c.
    + apply filter_fmap_other.
      * intros x Hx%negb_true_iff. by rewrite Hx.
      * intros x. destruct (of_user id x && is_password x); [|done]. by destruct x.
  - apply require_Ok in Hf as [_ Hf]. apply require_Ok in Hf as [_ Hf]. injection Hf as <-. eexists. split; [done|]. split.
    + eexists. split; [apply elem_of_app; right; by apply list_elem_of_singleton|done].
    + rewrite List.filter_app. cbn [List.filter]. unfold of_user at 2. simpl. rewrite N.eqb_refl. simpl. by rewrite app_nil_r.
Qed.

(** Everything an acceptance changes, at once. *)
Definition accepted_by (inv : Invitation) (hash : string) (user : User) (db db' : DB) : Prop :=
  ∃ at_ row new cs,
    row ∈ user_invitations db ∧ iv_ID row = inv_ID inv ∧ is_pending row = true ∧ at_ < iv_ExpiresAt row ∧
    (∀ r, r ∈ users db -> ur_ID r ≠ ur_ID new ∧ pg_lower (ur_Email r) ≠ pg_lower (inv_Email inv)) ∧
    account (inv_Email inv) (inv_Roles inv) new ∧ user = fromDBUser new ∧
    password_set (ur_ID new) hash (auth_credentials db) cs ∧
    people db' = (accept_row (inv_ID inv) at_ <$> user_invitations db, users db ++ [new], cs).

Lemma find_user_last us id row :
  (∀ r, r ∈ us -> ur_ID r ≠ id) -> ur_ID row = id -> List.find (fun r => N.eqb (ur_ID r) id) (us ++ [row]) = Some row.
Proof.
  intros Hne Hid. induction us as [|r us IH]; simpl; [by rewrite Hid, N.eqb_refl|].
  rewrite (proj2 (N.eqb_neq _ _)) by (apply Hne; set_solver). apply IH. set_solver.
Qed.

(** Granting roles to the account that was just added. *)
Lemma granted_to_last granted row us us' user :
  ur_BlockedAt row = None -> (∀ r, r ∈ us -> ur_ID r ≠ ur_ID row) ->
  (us' = us ++ [row] ∧ missing_roles granted (fromDBUser row) = [] ∧ user = fromDBUser row ∨
   let u := with_roles granted (fromDBUser row) in us' = written u <$> (us ++ [row]) ∧ user = u) ->
  ∃ new, us' = us ++ [new] ∧ user = fromDBUser new ∧ ur_ID new = ur_ID row ∧ ur_Email new = ur_Email row ∧
    ur_Name new = ur_Name row ∧ ur_BlockedAt new = None ∧ ur_Roles new = ur_Roles row ++ missing_roles granted (fromDBUser row).
Proof.
  intros Hblk Hfresh [(-> & Hnone & ->)|[-> ->]]; [exists row; by rewrite Hnone, app_nil_r|].
  set (u := with_roles granted (fromDBUser row)). exists (written u row).
  assert (ur_ID (written u row) = ur_ID row) as Hwid by (unfold written; destruct (N.eqb _ _); by destruct row).
  split_and!; try done; [|unfold written; simpl; rewrite N.eqb_refl; simpl; rewrite ?Hblk; try done..].
  - rewrite fmap_app. f_equal. rewrite <- (list_fmap_id us) at 2.
    apply list_fmap_ext. intros i r Hr%list_elem_of_lookup_2. apply written_other. by apply Hfresh.
  - unfold u, with_roles, fromDBUser. simpl. by rewrite Hblk.
Qed.

Lemma accept_Ok inv hash t w user w' :
  accept_in_tx inv hash (mkCtx (Some t)) w = (Ok user, w') -> accepted_by inv hash user (w_db w) (w_db w').
Proof.
  unfold accept_in_tx. intros (created & w1 & Hc%wrap_err_Ok & Hrun)%bind_Ok.
  apply CreateWithoutIdentity_Ok in Hc as (row & -> & Hdb1 & Hemail & Hname & Hblk & Hroles & Hfresh).
  apply bind_Ok in Hrun as (? & w2 & Hp%wrap_err_Ok & Hrun%wrap_err_Ok). apply UpsertPassword_Ok in Hp as (cs & Hdb2 & Hset).
  unfold ClaimForUser in Hrun. rewrite (WithinTx_nested _ _ t) in Hrun by done.
  apply claim_Ok in Hrun as (irow & urow & us & Hin & Hid & Hpend & Hexp & Hfind & Hpeople & Hcase). cbn [rv_ID rv_Roles] in *.
  unfold find_user in Hfind. rewrite Hdb2, Hdb1 in *. simpl in Hin, Hfind, Hpeople, Hcase, Hset.
  rewrite find_user_last in Hfind by (done || intros r Hr; by apply Hfresh). injection Hfind as <-.
  assert (missing_roles (inv_Roles inv) (fromDBUser row) = missing_roles (inv_Roles inv) (newUser (inv_Email inv) (inv_Email inv) DefaultRoles))
    as Hm by (unfold missing_roles; simpl; by rewrite Hroles).
  destruct (granted_to_last (inv_Roles inv) row (users (w_db w)) us user Hblk ltac:(intros r Hr; by apply Hfresh) Hcase)
    as (new & -> & -> & Hnid & Hne & Hnn & Hnb & Hnr).
  exists (pg_ts (env_now (w_step w2))), irow, new, cs. rewrite Hnid. split_and!; try done.
  unfold account. by rewrite Hne, Hnn, Hnr, Hroles, Hm.
Qed.

(** The answer the claimer gives for a token. *)
Lemma keeps_ResolveByToken I raw : keeps I (ResolveByToken raw) (fun _ => True).
Proof.
  unfold ResolveByToken, InvitationStore.GetByTokenHash, InvitationStore.get, found_or_invalid, live_or_invalid, reject_if.
  repeat read_step; done.
Qed.

Lemma ResolveByToken_Ok raw ctx w inv w' :
  ResolveByToken raw ctx w = (Ok inv, w') ->
  ∃ row, row ∈ user_invitations (w_db w) ∧ iv_TokenHash row = HashSha256 (bytes raw) ∧ inv = fromDB row.
Proof.
  unfold ResolveByToken. intros (? & w1 & [_ ->]%reject_if_Ok & Hrun)%bind_Ok.
  apply bind_Ok in Hrun as (r & w1 & Hget%attempt_Ok & Hrun). apply bind_Ok in Hrun as (i & w2 & Hfound & Hrun).
  apply bind_Ok in Hrun as (? & w3 & _ & Hrun). injection Hrun as <- _. unfold found_or_invalid in Hfound.
  destruct r as [i'|e]; [|by destruct (errors_Is _ _)]. injection Hfound as -> _. apply get_row in Hget as (_ & row & Hf & ->).
  apply find_some in Hf as [Hin He%String.eqb_eq]. exists row. by rewrite list_elem_of_In.
Qed.
End accepting.

Section accept_all.
Context `{Env} `{Goque} `{Collation} `{LicenseCache} `{SeatGuard} `{!PlainGuard} `{Sealer} `{Entropy} `{Jwt} `{Ozzo} `{Argon2}.
Context `{AuthMethodFlags} (cfg : JWTConfig) (codes : Otp.Service).

(** What follows the transaction leaves the tables alone. *)
Lemma keeps_report I u meta reason e : on_people I ->
  keeps I (auth cfg codes (publishLoginFailure u meta reason);; raise (A := TokenPair) e) (fun _ => True).
Proof. intros HI. apply keeps_bind_any; [by apply keeps_auth, talk_failure|]. intros ?. apply keeps_raise. Qed.

(** C14. Accepting an invitation with a password is all or nothing.  Either the
    invitations, the users and the credentials are as they were and the caller
    has no session; or one pending invitation whose link the caller holds, not
    run out, is accepted, and nothing else of the table changes; one account is
    added, under the address of the invitation, which nobody had in any case of
    its letters, with the roles of the invitation, not blocked; and its password
    is the one given.  Only issuing the session can fail after that. *)
Theorem AcceptInvitation_all_or_nothing cmd w r w' :
  AcceptInvitationWithPassword cfg codes cmd background w = (r, w') ->
  (people (w_db w') = people (w_db w) ∧ ∀ p, r ≠ Ok p) ∨
  ∃ row hash user w1 w2, row ∈ user_invitations (w_db w) ∧ iv_TokenHash row = HashSha256 (bytes (aw_Token cmd)) ∧
    ValidatePasswordPolicy (aw_Password cmd) = None ∧ HashPassword (aw_Password cmd) background w1 = (Ok hash, w2) ∧
    accepted_by (fromDB row) hash user (w_db w) (w_db w').
Proof.
  unfold AcceptInvitationWithPassword. intros Hrun. destruct (ValidatePasswordPolicy _) eqn:Epol; [injection Hrun as <- <-; by left|].
  pose proof (on_people_eq (people (w_db w))) as HI. set (I := fun db => people db = people (w_db w)) in *.
  assert (keeps I (wrap_err (Errorf "resolve invitation") (ResolveByToken (aw_Token cmd))) (fun _ => True)) as K1
    by apply keeps_wrap_err, keeps_ResolveByToken.
  apply bind_inv in Hrun as [(inv & w1 & Hres & Hrun)|(Hne & r0 & Hres & _)];
    destruct (keeps_run _ _ _ _ _ _ _ K1 Hres eq_refl) as [Hp1 _]; [|by left].
  apply wrap_err_Ok, ResolveByToken_Ok in Hres as (row & Hin & Hhash & ->).
  apply bind_inv in Hrun as [(offered & w2 & Hoff & Hrun)|(Hne & r0 & Hoff & _)];
    destruct (keeps_run _ _ _ _ _ _ _ (keeps_auth cfg codes I _ HI (talk_method _)) Hoff Hp1) as [Hp2 _]; [|by left].
  destruct offered; cbn [negb] in Hrun; last first.
  { pose proof (keeps_run _ _ _ _ _ _ _ (keeps_report I _ _ _ _ HI) Hrun Hp2) as [Hp3 _]. left. split; [done|].
    intros p ->. by apply bind_Ok in Hrun as (? & ? & _ & ?). }
  assert (keeps I (wrap_err (Errorf "hash password") (HashPassword (aw_Password cmd))) (fun _ => True)) as K3
    by by apply keeps_wrap_err, keeps_still.
  apply bind_inv in Hrun as [(hash & w3 & Hpw & Hrun)|(Hne & r0 & Hpw & _)];
    destruct (keeps_run _ _ _ _ _ _ _ K3 Hpw Hp2) as [Hp3 _]; [|by left].
  apply wrap_err_Ok in Hpw. apply bind_inv in Hrun as [(rt & w4 & Htx & Hrun)|(_ & r0 & Htx & Hno)];
    unfold attempt in Htx; destruct (WithinTx _ background w3) as [rx wx] eqn:Etx;
    apply WithinTx_cases in Etx as [(e & -> & Hdb)|(user & w5 & -> & Hdb & _ & Hbody)]; injection Htx as <- <-; try by destruct (Hno _ eq_refl).
  { assert (I (w_db wx)) as Hp4 by by (unfold I; by rewrite Hdb).
    pose proof (keeps_run _ _ _ _ _ _ _ (keeps_report I _ _ _ _ HI) Hrun Hp4) as [Hp5 _]. left. split; [done|].
    intros p ->. by apply bind_Ok in Hrun as (? & ? & _ & ?). }
  right. apply accept_Ok in Hbody. rewrite <- Hdb in Hbody. simpl in Hbody.
  assert (people (w_db w') = people (w_db wx)) as Hlast.
  { refine (proj1 (keeps_run (fun db => people db = people (w_db wx)) _ (fun _ => True) _ _ _ _ _ Hrun eq_refl)). apply keeps_bind_any.
    { apply keeps_attempt_any, keeps_auth; [apply on_people_eq|apply talk_issue]. }
    intros [issued|e]; [|apply keeps_report, on_people_eq]. apply keeps_bind_any; [|intros; by apply keeps_ret].
    apply keeps_auth; [apply on_people_eq|apply talk_publish]. }
  exists row, hash, user, w2, w3. split_and!; [done..|]. destruct Hbody as (at_ & irow & new & cs & H').
  exists at_, irow, new, cs. injection Hp3 as E1 E2 E3. rewrite E1, E2, E3 in H'. by rewrite Hlast.
Qed.
End accept_all.

(** ** Every request *)

(** From [P], a run that returns ends in [Q]; any other ending keeps [I]. *)
Definition leads (I P : DB -> Prop) {A} (m : M A) (Q : A -> DB -> Prop) : Prop := ∀ ctx w,
  P (w_db w) -> wp m ctx w (fun r w' => match r with Ok a => Q a (w_db w') | _ => I (w_db w') end).

Section leads.
Context `{Env} (I : DB -> Prop).

Lemma leads_bind {A B} P (m : M A) (k : A -> M B) Q R :
  leads I P m Q -> (∀ a, leads I (Q a) (k a) R) -> leads I P (m ≫= k) R.
Proof.
  intros Hm Hk ctx w HP. apply wp_bind. eapply wp_mono; [by apply Hm|]. intros [a|e|s] w' HQ; simpl; [by apply Hk|done..].
Qed.

Lemma leads_wrap {A} f P (m : M A) Q : leads I P m Q -> leads I P (wrap_err f m) Q.
Proof. intros Hm ctx w HP. specialize (Hm ctx w HP). unfold wp, wrap_err in *. by destruct (m ctx w) as [[] ?]. Qed.

Lemma leads_pre {A} (P P' : DB -> Prop) (m : M A) Q : (∀ db, P db -> P' db) -> leads I P' m Q -> leads I P m Q.
Proof. intros HP Hm ctx w Hw. by apply Hm, HP. Qed.

Lemma leads_keeps {A} (m : M A) : leads I I m (fun _ => I) -> keeps I m (fun _ => True).
Proof. intros Hm ctx w Hw. eapply wp_mono; [by apply Hm|]. by intros []. Qed.

Lemma keeps_leads {A} (P : DB -> Prop) (m : M A) R :
  (∀ db, P db -> I db) -> keeps P m R -> leads I P m (fun a db => P db ∧ R a).
Proof. intros HP Hm ctx w Hw. eapply wp_mono; [by apply Hm|]. intros [a|e|s] w' [Hw' HR]; eauto. Qed.

Lemma leads_ret {A} P (a : A) (Q : A -> DB -> Prop) : (∀ db, P db -> Q a db) -> leads I P (mret a) Q.
Proof. intros HQ ctx w Hw. by apply HQ. Qed.

Lemma leads_raise {A} P e (Q : A -> DB -> Prop) : (∀ db, P db -> I db) -> leads I P (raise e) Q.
Proof. intros HP ctx w Hw. by apply HP. Qed.

Lemma leads_attempt {A} P (m : M A) Q :
  leads I P m Q -> leads I P (attempt m) (fun r db => match r with inl a => Q a db | inr _ => I db end).
Proof. intros Hm ctx w HP. specialize (Hm ctx w HP). unfold wp, attempt in *. by destruct (m ctx w) as [[] ?]. Qed.

Lemma leads_reject (P : DB -> Prop) c e : (∀ db, P db -> I db) -> leads I P (reject_if c e) (fun _ db => P db ∧ c = false).
Proof. intros HP. unfold reject_if. destruct c; [by apply leads_raise|by apply leads_ret]. Qed.

Lemma leads_sql {A} P (f : Stmt -> DB -> outcome (A * DB)) (Q : A -> DB -> Prop) :
  (∀ db, P db -> I db) -> (∀ s db a db', P db -> f s db = Ok (a, db') -> Q a db') -> leads I P (sql f) Q.
Proof.
  intros HP Hf ctx w Hw. unfold wp, sql. destruct (env_fault _); [by apply HP|].
  destruct (f _ _) as [[a db']|e|s] eqn:E; simpl; [by eapply Hf|by apply HP..].
Qed.

Lemma leads_get find (P : DB -> Prop) : (∀ db, P db -> I db) ->
  leads I P (r ← query find; InvitationStore.get r) (fun inv db => P db ∧ ∃ row, find db = Some row ∧ inv = fromDB row).
Proof.
  intros HP. eapply (leads_bind _ _ _ (fun r db => P db ∧ r = find db)).
  { apply leads_sql; [done|]. intros s db a db' Hdb [= <- <-]. done. }
  intros [row|]; [apply leads_ret|apply leads_raise]; intros db [Hdb Hr]; eauto.
Qed.
End leads.

Section requests.
Context `{Env} `{Goque} `{Collation} `{LicenseCache} `{SeatGuard} `{!PlainGuard} `{Sealer} `{Entropy} `{Jwt} `{Ozzo} `{Argon2}.
Context `{AuthMethodFlags} `{Unicode} (cfg : JWTConfig) (codes : Otp.Service) (s : Service) (handleTTL : Duration).

Lemma keeps_SendAsync I ty tr target msg reply key : on_people I -> keeps I (SendAsync ty tr target msg reply key) (fun _ => True).
Proof.
  intros HI. apply keeps_bind_any; [|intros; by apply keeps_ret]. by apply keeps_ScheduleDelayed, on_people_queue.
Qed.
Lemma keeps_email I inv link : on_people I -> keeps I (sendInvitationEmail s inv link) (fun _ => True).
Proof. intros HI. by apply keeps_wrap_err, keeps_SendAsync. Qed.
Lemma keeps_publish I a : on_people I -> keeps I (Invitations.publishAudit a) (fun _ => True).
Proof.
  intros HI. apply keeps_bind_any; [by apply keeps_attempt_any, keeps_Publish, on_people_queue|]. intros; by apply keeps_ret.
Qed.

(** A row of the table, and its status. *)
Definition standing (l0 : list InvitationRow) (id : UUID) (ok : InvitationRow -> Prop) (db : DB) : Prop :=
  led_to l0 db ∧ ∀ r, r ∈ user_invitations db -> iv_ID r = id -> ok r.

Lemma standing_found l0 id row db (ok : InvitationRow -> Prop) :
  led_to l0 db -> row ∈ user_invitations db -> iv_ID row = id -> ok row -> standing l0 id ok db.
Proof. intros Hl Hin Hid Hok. split; [done|]. intros r Hr Hr'. by rewrite (same_row _ r row (proj1 Hl)) by congruence. Qed.

Lemma leads_SetRevoked l0 id at_ :
  leads (led_to l0) (standing l0 id (fun r => iv_Status r ≠ InvitationStatusAccepted)) (SetRevoked id at_) (fun _ => led_to l0).
Proof.
  apply leads_sql; [by intros db [? _]|]. intros st db a db' [Hl Hok] [= <- <-]. eapply led_to_step; [exact Hl|]. simpl.
  apply update_step; [apply Hl|]. intros r Hin He%N.eqb_eq. split; [by apply rm_revoked, Hok|by destruct r].
Qed.
Lemma leads_resend l0 row hash expires sent :
  leads (led_to l0) (fun db => led_to l0 db ∧ row ∈ user_invitations db ∧ is_pending row = true)
    (InvitationStore.Resend (iv_ID row) hash expires sent) (fun _ => led_to l0).
Proof.
  intros ctx w (Hl & Hin & Hp). apply wp_intro. intros r w' Hrun. destruct r as [inv|e|x].
  - apply Resend_Ok in Hrun; [|by destruct Hl|done|done]. by eapply led_to_step.
  - apply sql_not_Ok in Hrun as ->; done.
  - apply sql_not_Ok in Hrun as ->; done.
Qed.

Lemma leads_issue l0 inv : inv_Status inv = InvitationStatusPending ->
  leads (led_to l0) (led_to l0) (InvitationStore.Create inv) (fun _ => led_to l0).
Proof.
  intros Hp ctx w Hl. apply wp_intro. intros r w' Hrun. destruct r as [i|e|x].
  - apply issue_Ok in Hrun; [|done]. by eapply led_to_step.
  - unfold InvitationStore.Create, attempt, mbind, M_bind in Hrun. destruct (sql _ ctx w) as [[i|e0|x] w1] eqn:Es; [done| |done].
    apply sql_not_Ok in Es; [|done]. destruct (dbtx_ErrorIs _ _); injection Hrun as _ <-; by rewrite Es.
  - unfold InvitationStore.Create, attempt, mbind, M_bind in Hrun. destruct (sql _ ctx w) as [[i|e0|y] w1] eqn:Es; [done|by destruct (dbtx_ErrorIs _ _)|].
    apply sql_not_Ok in Es; [|done]. injection Hrun as _ <-. by rewrite Es.
Qed.

Lemma leads_any {A} I (m : M A) : keeps I m (fun _ => True) -> leads I I m (fun _ => I).
Proof. intros Hm ctx w Hw. eapply wp_mono; [by apply Hm|]. by intros [] ? [? _]. Qed.

Lemma keeps_revokeActive l0 now email : keeps (led_to l0) (revokeActiveInvitation now email) (fun _ => True).
Proof.
  apply leads_keeps. eapply leads_bind; [by apply leads_attempt, leads_get|]. intros [inv|e].
  - apply leads_wrap. eapply leads_pre; [|apply leads_SetRevoked].
    intros db (Hl & row & [Hin [_ Hp]%andb_prop]%find_some & ->). rewrite <- list_elem_of_In in Hin.
    eapply standing_found; [done|exact Hin|done|]. intros Ha. unfold is_pending in Hp. by rewrite Ha in Hp.
  - apply leads_any. destruct (errors_Is _ _); [by apply keeps_ret|apply keeps_raise].
Qed.

Lemma keeps_invite l0 cmd : keeps (led_to l0) (Create s cmd) (fun _ => True).
Proof.
  pose proof (on_people_led l0) as HI. unfold Create, reject_if, UserStore.GetByEmail, UserStore.get.
  repeat read_step; try done; [|by apply keeps_publish].
  apply keeps_WithinTx. unfold create_in_tx. apply keeps_bind_any; [by apply keeps_UTCNow|]. intros now.
  apply keeps_bind_any; [apply keeps_revokeActive|]. intros ?.
  apply keeps_bind_any; [destruct (RoleOccupiesSeat _); [apply keeps_seats|by apply keeps_ret]|]. intros ?.
  destruct (ci_Actor cmd); [|apply keeps_panic]. apply keeps_bind_any; [by apply keeps_wrap_err, leads_keeps, leads_issue|].
  intros created. apply keeps_bind_any; [by apply keeps_email|]. intros ?. by apply keeps_ret.
Qed.

Lemma keeps_Resend l0 cmd : keeps (led_to l0) (Resend s cmd) (fun _ => True).
Proof.
  pose proof (on_people_led l0) as HI. unfold Resend. apply keeps_bind_any; [by apply keeps_UTCNow|]. intros now.
  apply keeps_bind_any; [by apply keeps_still|]. intros token. apply keeps_WithinTx. unfold resend_in_tx, GetForUpdateByID.
  apply leads_keeps. eapply leads_bind; [by apply leads_get|]. intros inv. cbv zeta.
  eapply leads_bind; [apply leads_reject; by intros db [? _]|]. intros ?.
  eapply leads_bind; [apply leads_reject; by intros db [[? _] _]|]. intros ?.
  eapply leads_bind; [|intros resended; by apply leads_any, keeps_email]. apply leads_wrap.
  intros ctx w (((Hl & row & [Hin Hid]%find_invitation_Some & ->) & _) & Hst%negb_false_iff%String.eqb_eq).
  apply leads_resend. split_and!; [done|done|]. unfold EffectiveStatus in Hst. simpl in Hst. unfold is_pending.
  destruct (String.eqb (iv_Status row) InvitationStatusPending) eqn:Ep; [done|]. simpl in Hst. by rewrite Hst in Ep.
Qed.

Lemma keeps_Revoke l0 cmd : keeps (led_to l0) (Revoke cmd) (fun _ => True).
Proof.
  pose proof (on_people_led l0) as HI. unfold Revoke. apply keeps_bind_any; [|intros [inv|]; [by apply keeps_publish|by apply keeps_ret]].
  apply keeps_WithinTx. unfold revoke_in_tx, GetForUpdateByID. apply leads_keeps. eapply leads_bind; [by apply leads_get|]. intros inv.
  destruct (String.eqb _ _); [apply leads_ret; by intros db [? _]|].
  eapply leads_bind; [apply leads_reject; by intros db [? _]|]. intros ?.
  eapply leads_bind with (Q := fun _ => standing l0 (inv_ID inv) (fun r => iv_Status r ≠ InvitationStatusAccepted)).
  { intros ctx w ((Hl & row & [Hin Hid]%find_invitation_Some & ->) & Hst%String.eqb_neq). unfold wp. simpl.
    by eapply standing_found. }
  intros now. eapply leads_bind; [apply leads_wrap, leads_SetRevoked|]. intros ?. by apply leads_ret.
Qed.

(** What writes another table. *)
Lemma keeps_elsewhere {A} l0 (f : Stmt -> DB -> outcome (A * DB)) :
  (∀ st db a db', f st db = Ok (a, db') -> user_invitations db' = user_invitations db) -> keeps (led_to l0) (sql f) (fun _ => True).
Proof.
  intros Hf. apply keeps_sql. intros st db a db' Hl Hrun. split; [|done]. unfold led_to. by rewrite (Hf _ _ _ _ Hrun).
Qed.

Ltac elsewhere := apply keeps_elsewhere; intros ???? Hrun; unfold require in Hrun; repeat case_hyp Hrun; by simplify_eq.

(** Facts that depend on neither the users nor the queue. *)
Definition users_blind (I : DB -> Prop) : Prop := queue_blind I ∧ ∀ db us, I db -> I (db <| users := us |>).
Lemma led_to_blind l0 : users_blind (led_to l0).
Proof. split; [apply on_people_queue, on_people_led|by intros db us]. Qed.

Lemma keeps_user_op I X (op : UserOp X) : users_blind I -> keeps I (user_handle X op) (fun _ => True).
Proof.
  intros [HQ HI]. destruct op; cbn [user_handle].
  1-3: unfold UserStore.GetForUpdateByID, UserStore.GetByID, UserStore.GetByEmail, UserStore.get; repeat read_step; done.
  - apply keeps_sql. intros ???? Hdb Hrun. unfold require in Hrun. repeat case_hyp Hrun; simplify_eq; (split; [by apply HI|done]).
  - apply keeps_sql. intros ???? Hdb Hrun. unfold require in Hrun. repeat case_hyp Hrun; simplify_eq; (split; [by apply HI|done]).
  - unfold LockAdminMutations, AdvisoryXactLock. apply keeps_bind_any; [apply keeps_in_tx|]. intros []; [|apply keeps_raise].
    apply keeps_wrap_err, keeps_query_any.
  - apply keeps_query_any.
  - by apply keeps_UTCNow.
  - apply keeps_seat_op.
  - by apply keeps_Publish.
Qed.

Lemma keeps_AssignRoles I cmd : users_blind I -> keeps I (AssignRoles cmd) (fun _ => True).
Proof.
  intros HI. pose proof HI as [HQ _]. unfold AssignRoles, reject_if, unless_unchanged, within, GetByID, UserStore.GetByID, UserStore.get.
  repeat read_step; try done; [|by apply keeps_publishUserAudit].
  apply keeps_WithinTx, (keeps_exec _ _ (fun _ _ => True)); [intros; by apply keeps_user_op|apply calls_only_any].
Qed.

Lemma keeps_Claim l0 inv uid : keeps (led_to l0) (ClaimForUser inv uid) (fun _ => True).
Proof.
  apply keeps_WithinTx. unfold claim_in_tx, reject_if. repeat read_step; try done; [|apply keeps_AssignRoles, led_to_blind].
  unfold MarkAccepted. apply keeps_bind_any; [by apply keeps_UTCNow|]. intros now.
  apply keeps_bind_any; [|intros; by apply keeps_ret]. apply keeps_sql. intros st db n db' Hl [= <- <-]. split; [|done].
  eapply led_to_step; [exact Hl|]. apply accept_step, Hl.
Qed.

Lemma keeps_Accept l0 cmd : keeps (led_to l0) (AcceptInvitationWithPassword cfg codes cmd) (fun _ => True).
Proof.
  pose proof (on_people_led l0) as HI. unfold AcceptInvitationWithPassword. destruct (ValidatePasswordPolicy _); [apply keeps_raise|].
  apply keeps_bind_any; [apply keeps_wrap_err, keeps_ResolveByToken|]. intros inv.
  apply keeps_bind_any; [by apply keeps_auth, talk_method|]. intros offered. destruct (negb offered); [by apply keeps_report|].
  apply keeps_bind_any; [by apply keeps_wrap_err, keeps_still|]. intros hash. apply keeps_bind_any.
  - apply keeps_attempt_any, keeps_WithinTx. unfold accept_in_tx, CreateWithoutIdentity, UserStore.GetByEmail, UserStore.get.
    repeat read_step; try done; [unfold UserStore.Create; elsewhere|unfold UpsertPassword; elsewhere|apply keeps_Claim].
  - intros [user|e]; [|by apply keeps_report]. apply keeps_bind_any; [by apply keeps_attempt_any, keeps_auth, talk_issue|].
    intros [issued|e]; [|by apply keeps_report]. apply keeps_bind_any; [by apply keeps_auth, talk_publish|]. intros; by apply keeps_ret.
Qed.

(** The requests of the service, of the claimer, and the acceptance. *)
Inductive InvitationRequest :=
  | QCreate (cmd : CreateInvitationCmd)
  | QResend (cmd : ResendInvitationCmd)
  | QRevoke (cmd : RevokeInvitationCmd)
  | QRotate (batchLimit : Z)
  | QPrune (retention : Duration) (batchLimit : Z)
  | QPreview (rawToken : string)
  | QList (status : string)
  | QPrepare (handle invitationToken : string)
  | QResolve (handle : string) (claims : OAuthIDTokenClaims)
  | QClaim (inv : ResolvedInvitation) (userID : UUID)
  | QAccept (cmd : AcceptInvitationWithPasswordCmd).

Definition discard {A} (m : M A) : M unit := _ ← m; mret tt.
Definition serve_invitation (q : InvitationRequest) : M unit :=
  match q with
  | QCreate cmd => discard (Create s cmd)
  | QResend cmd => Resend s cmd
  | QRevoke cmd => Revoke cmd
  | QRotate batchLimit => Rotate batchLimit
  | QPrune retention batchLimit => Prune retention batchLimit
  | QPreview rawToken => discard (Preview rawToken)
  | QList status => discard (List_ status)
  | QPrepare handle invitationToken => PrepareHandle handleTTL handle invitationToken
  | QResolve handle claims => discard (ResolveForIdentity handle claims)
  | QClaim inv userID => discard (ClaimForUser inv userID)
  | QAccept cmd => discard (AcceptInvitationWithPassword cfg codes cmd)
  end.

Lemma keeps_discard {A} I (m : M A) : keeps I m (fun _ => True) -> keeps I (discard m) (fun _ => True).
Proof. intros Hm. apply keeps_bind_any; [done|]. intros; by apply keeps_ret. Qed.

Lemma serve_invitation_keeps l0 q : keeps (led_to l0) (serve_invitation q) (fun _ => True).
Proof.
  destruct q; cbn [serve_invitation]; [..|by apply keeps_discard, keeps_Claim|by apply keeps_discard, keeps_Accept].
  - by apply keeps_discard, keeps_invite.
  - apply keeps_Resend.
  - apply keeps_Revoke.
  - apply keeps_bind_any; [by apply keeps_UTCNow|]. intros now. apply keeps_batches, ExpireOlderThan_keeps.
  - apply keeps_bind_any; [by apply keeps_UTCNow|]. intros now. apply keeps_batches, PruneTerminal_keeps.
  - apply keeps_discard. unfold Preview, InvitationStore.GetByTokenHash, InvitationStore.get. repeat read_step; done.
  - apply keeps_discard. unfold List_, ListInvitations. repeat read_step; done.
  - unfold PrepareHandle, PutInvitationHandle, kv_set, InvitationStore.GetByTokenHash, InvitationStore.get. repeat read_step; done.
  - apply keeps_discard. unfold ResolveForIdentity, ConsumeInvitationHandle, kv_getdel, InvitationStore.GetByID, InvitationStore.get,
      found_or_invalid, live_or_invalid, reject_if. repeat read_step; done.
Qed.

(** C13. The invitations follow their lifecycle.  Every request, however it
    ends, takes the table along steps of the state machine: an invitation is
    issued pending, its link is rotated only while it is pending, it is accepted
    only while pending and in time, and so at most once; an accepted one is
    never revoked, rotated or expired, and only terminal ones are pruned.  The
    address, the roles and the inviter of an invitation never change, ids and
    links stay unique, and no address ever has two pending invitations. *)
Theorem invitations_refine_lifecycle q ctx w r w' :
  consistent (user_invitations (w_db w)) -> serve_invitation q ctx w = (r, w') ->
  consistent (user_invitations (w_db w')) ∧ rtc table_step (user_invitations (w_db w)) (user_invitations (w_db w')).
Proof.
  intros Hc Hrun. apply (keeps_run _ _ _ _ _ _ _ (serve_invitation_keeps (user_invitations (w_db w)) q) Hrun). by split.
Qed.
End requests.

(** ** The reserved seat *)
Section seat.
Context `{Env} `{Goque} `{Collation} `{LicenseCache}.

Definition counted (t : Time) (r : InvitationRow) : bool := is_pending r && (pg_ts t <=? iv_ExpiresAt r).
Definition active_roles (db : DB) : list (list Role) :=
  ur_Roles <$> List.filter (fun r => match ur_BlockedAt r with None => true | Some _ => false end) (users db).
(** The seats taken at a moment: by active users and by live invitations. *)
Definition occupied (db : DB) (t : Time) : Z :=
  seats (active_roles db) + seats (iv_Roles <$> List.filter (counted t) (user_invitations db)).

Lemma pg_ts_mono a b : a <= b -> pg_ts a <= pg_ts b.
Proof.
  intros Hab. unfold pg_ts, Microsecond, Nanosecond.
  pose proof (Z.div_mod a 1000 ltac:(lia)). pose proof (Z.div_mod b 1000 ltac:(lia)).
  pose proof (Z.mod_pos_bound a 1000 ltac:(lia)). pose proof (Z.mod_pos_bound b 1000 ltac:(lia)).
  destruct (Z.eq_dec (a / 1000) (b / 1000)) as [E|].
  - rewrite E in *. destruct (Z.ltb_spec (a mod 1000) 500), (Z.ltb_spec (b mod 1000) 500), (Z.eqb_spec (a mod 1000) 500),
      (Z.eqb_spec (b mod 1000) 500); simpl; try destruct (Z.even _); simpl; lia.
  - assert (a / 1000 + 1 <= b / 1000) by (assert (a / 1000 <= b / 1000) by (apply Z.div_le_mono; lia); lia).
    repeat match goal with |- context [if ?c then _ else _] => destruct c end; lia.
Qed.

Lemma seats_filter {A} (f : A -> list Role) (p : A -> bool) l :
  seats (f <$> List.filter p l) = Z.of_nat (length (List.filter (fun x => p x && holds_seat (f x)) l)).
Proof.
  unfold seats. f_equal. induction l as [|x l IH]; [done|]. cbn [List.filter].
  destruct (p x); cbn [andb]; [|done]. rewrite fmap_cons. cbn [List.filter]. destruct (holds_seat (f x)); simpl; by rewrite IH.
Qed.

Lemma filter_length_mono {A} (p q : A -> bool) l :
  (∀ x, x ∈ l -> p x = true -> q x = true) -> (length (List.filter p l) <= length (List.filter q l))%nat.
Proof.
  intros Hpq. induction l as [|x l IH]; [done|]. cbn [List.filter]. specialize (IH ltac:(set_solver)).
  destruct (p x) eqn:Ep; [rewrite (Hpq x ltac:(set_solver) Ep); simpl; lia|]. destruct (q x); simpl; lia.
Qed.

Lemma accept_row_other id at_ (l : list InvitationRow) : (∀ r, r ∈ l -> iv_ID r ≠ id) -> accept_row id at_ <$> l = l.
Proof.
  intros Hne. rewrite <- (list_fmap_id l) at 2. apply list_fmap_ext. intros i r Hr%list_elem_of_lookup_2. unfold accept_row.
  by rewrite (proj2 (N.eqb_neq _ _) (Hne r Hr)).
Qed.

(** Accepting an invitation that holds a seat gives the seat back. *)
Lemma seat_released l row at_ t0 t :
  consistent l -> row ∈ l -> is_pending row = true -> at_ < iv_ExpiresAt row -> holds_seat (iv_Roles row) = true ->
  pg_ts t0 <= iv_ExpiresAt row -> pg_ts t0 <= pg_ts t ->
  seats (iv_Roles <$> List.filter (counted t) (accept_row (iv_ID row) at_ <$> l)) + 1 <=
  seats (iv_Roles <$> List.filter (counted t0) l).
Proof.
  intros Hc Hin Hp Hexp Hseat Hlive Hle. destruct Hc as [Hids _ _].
  apply list_elem_of_split in Hin as (l1 & l2 & ->). rewrite fmap_app, fmap_cons in Hids. apply NoDup_app in Hids as (_ & Hd & Hn).
  apply NoDup_cons in Hn as [Hn _].
  rewrite fmap_app, fmap_cons, !accept_row_other.
  2: { intros r Hr He. apply Hn. rewrite <- He. by apply list_elem_of_fmap_2. }
  2: { intros r Hr He. apply (Hd (iv_ID r)); [by apply list_elem_of_fmap_2|]. rewrite He. set_solver. }
  rewrite !seats_filter, !List.filter_app, !length_app. cbn [List.filter].
  assert (counted t (accept_row (iv_ID row) at_ row) = false) as ->.
  { unfold accept_row. rewrite N.eqb_refl, Hp, (proj2 (Z.ltb_lt _ _) Hexp). by destruct row. }
  assert (counted t0 row = true) as -> by (unfold counted; rewrite Hp; by apply Z.leb_le).
  rewrite Hseat. cbn [andb length].
  assert (∀ l, (length (List.filter (fun x => counted t x && holds_seat (iv_Roles x)) l) <=
    length (List.filter (fun x => counted t0 x && holds_seat (iv_Roles x)) l))%nat) as Hmono.
  { intros l. apply filter_length_mono. intros x _ [[Hpx Hx%Z.leb_le]%andb_prop ->]%andb_prop. unfold counted. rewrite Hpx.
    rewrite andb_true_r. apply Z.leb_le. lia. }
  pose proof (Hmono l1). pose proof (Hmono l2). lia.
Qed.
Lemma spares_seat_op t X (op : SeatOp X) : spares t (seat_handle X op).
Proof.
  destruct op; cbn [seat_handle].
  - by intros ? ? ? ? [=].
  - apply spares_bind; [done|]. intros []; [apply spares_wrap, spares_query|by apply spares_raise].
  - apply spares_query.
  - apply spares_bind; [done|]. intros ?. apply spares_query.
Qed.

Lemma spares_exec_bind {E A B} t (handle : ∀ X, E X -> M X) (p : Prog E A) (f : A -> Prog E B) :
  spares t (exec handle p) -> (∀ a, spares t (exec handle (f a))) -> spares t (exec handle (p ≫= f)).
Proof. intros Hp Hf ctx w e w'. rewrite exec_bind. by apply spares_bind. Qed.
Lemma spares_exec_call {E X} t (handle : ∀ X, E X -> M X) (op : E X) : spares t (handle X op) -> spares t (exec handle (call op)).
Proof. intros Hop ctx w e w'. rewrite exec_call. apply Hop. Qed.
Lemma spares_exec_call_wrap {E X} t (handle : ∀ X, E X -> M X) s (op : E X) :
  spares t (handle X op) -> spares t (exec handle (call_wrap (Errorf s) op)).
Proof. intros Hop ctx w e w'. rewrite exec_call_wrap. by apply spares_wrap. Qed.

(** A guard that refuses for want of seats counted them. *)
Lemma guard_refuses ctx w e w' :
  exec seat_handle license_EnsureSeatAvailable ctx w = (Err e, w') -> errors_Is e ErrSeatsLimitExceeded = true ->
  ∃ n m purchased, (w_step w <= n)%nat ∧ (cached_license m ≫= SeatsPurchased) = Some purchased ∧
    purchased < occupied (w_db w) (env_now n) + 1.
Proof.
  unfold license_EnsureSeatAvailable. rewrite exec_bind. unfold mbind at 1, M_bind. rewrite exec_call. cbn [seat_handle].
  destruct (cached_license (w_step w)) as [[st [purchased|] fetched]|] eqn:El; [|done..].
  rewrite exec_bind. unfold mbind at 1, M_bind. rewrite exec_call_wrap. cbn [seat_handle].
  assert (∀ X (op : SeatOp X) s, spares "seats limit exceeded" (wrap_err (Errorf s) (seat_handle X op))) as Hsp
    by (intros; apply spares_wrap, spares_seat_op).
  destruct (wrap_err _ (AdvisoryXactLock _) ctx (tick w)) as [[[]|e1|s] w1] eqn:E1; [| |done].
  2: { intros [= <- _] He. pose proof (Hsp _ SLockSeats _ _ _ _ _ E1). unfold ErrSeatsLimitExceeded in He. congruence. }
  pose proof (keeps_run _ _ _ _ _ _ _ (keeps_wrap_err (fun db => db = w_db w) _ _ _ (keeps_seat_op _ _ SLockSeats)) E1 eq_refl) as [Hdb1 _].
  assert (w_step w <= w_step w1)%nat as Hs1.
  { apply wrap_err_Ok in E1. unfold AdvisoryXactLock in E1. apply bind_Ok in E1 as (tx & w0 & [= _ <-] & E1).
    destruct tx; [|done]. apply wrap_err_Ok, sql_Ok in E1 as (db' & _ & ->). simpl. lia. }
  rewrite exec_bind. unfold mbind at 1, M_bind. rewrite exec_call_wrap. cbn [seat_handle].
  destruct (wrap_err _ ListActiveRoles ctx w1) as [[active|e1|s] w2] eqn:E2; [| |done].
  2: { intros [= <- _] He. pose proof (Hsp _ SActiveRoles _ _ _ _ _ E2). unfold ErrSeatsLimitExceeded in He. congruence. }
  apply wrap_err_Ok, sql_Ok in E2 as (db2 & [= <- <-] & ->).
  rewrite exec_bind. unfold mbind at 1, M_bind. rewrite exec_call_wrap. cbn [seat_handle].
  destruct (wrap_err _ ListPendingRoles ctx _) as [[pending|e1|s] w3] eqn:E3; [| |done].
  2: { intros [= <- _] He. pose proof (Hsp _ SPendingRoles _ _ _ _ _ E3). unfold ErrSeatsLimitExceeded in He. congruence. }
  apply wrap_err_Ok in E3. unfold ListPendingRoles in E3. apply bind_Ok in E3 as (now & w4 & [= <- <-] & E3).
  apply sql_Ok in E3 as (db3 & [= <- <-] & ->). simpl. rewrite BucketSeats_occupied.
  destruct (Z.ltb_spec purchased (seats (ur_Roles <$> List.filter
    (fun r => match ur_BlockedAt r with None => true | Some _ => false end) (users (w_db w1))) +
    seats (iv_Roles <$> List.filter (fun r => is_pending r && (pg_ts (env_now (S (w_step w1))) <=? iv_ExpiresAt r))
      (user_invitations (w_db w1))) + 1)) as [Hlt|]; [|done].
  intros _ _. exists (S (w_step w1)), (w_step w), purchased. rewrite El. split_and!; [lia|done|]. rewrite Hdb1 in Hlt. exact Hlt.
Qed.

#[export] Instance license_guard_plain : @PlainGuard _ _ _ license_guard.
Proof.
  unfold PlainGuard. cbn [EnsureSeatAvailable license_guard]. unfold license_EnsureSeatAvailable.
  apply spares_exec_bind; [apply spares_exec_call, spares_seat_op|]. intros [[st [purchased|] fetched]|]; [|apply spares_ret..].
  do 3 (apply spares_exec_bind; [apply spares_exec_call_wrap, spares_seat_op|intros ?]).
  destruct (purchased <? _); [|apply spares_ret]. intros ctx w e w' [= <- _]. by rewrite Errorf_is.
Qed.
#[export] Instance Noop_plain : @PlainGuard _ _ _ Noop.
Proof. by intros ? ? ? ? [=]. Qed.

(** The error of a grant, traced back to the guard. *)
Lemma AssignRoles_refused actor uid roles ctx t w e w' :
  ctx = mkCtx (Some t) -> @AssignRoles _ _ _ _ license_guard (mkRolesCmd actor uid roles) ctx w = (Err e, w') ->
  errors_Is e ErrSeatsLimitExceeded = true ->
  holds_seat roles = true ∧ ∃ n m purchased, (w_step w <= n)%nat ∧ (cached_license m ≫= SeatsPurchased) = Some purchased ∧
    purchased < occupied (w_db w) (env_now n) + 1.
Proof.
  intros -> Hrun He. unfold AssignRoles, reject_if, unless_unchanged, within in Hrun. unfold mbind, M_bind in Hrun. cbn [rl_Roles rl_Actor rl_UserID] in Hrun.
  destruct (negb _); [by injection Hrun as <- _|]. destruct (is_self _ _); [by injection Hrun as <- _|]. cbn [mret M_ret] in Hrun.
  unfold mret, M_ret, attempt in Hrun. rewrite (WithinTx_nested _ _ t) in Hrun by done.
  destruct (exec _ _ _ w) as [[[u added]|e0|x] w1] eqn:Eu; [..|done].
  { destruct (publishUserAudit _ _ w1) as [[]] eqn:Ep; [done| |done]. exfalso. unfold publishUserAudit, attempt, mbind, M_bind in Ep.
    by destruct (Publish _ _ w1) as [[]]. }
  destruct (update_run uid _ _ _ _ _ (@asks_assign _ _ _ _ license_guard roles) Eu) as [Hdb Hback].
  destruct (errors_Is e0 ErrNotChanged).
  { pose proof (spares_get "seats limit exceeded" (find_user uid) ltac:(done) _ _ _ _ Hrun) as Hs.
    unfold ErrSeatsLimitExceeded in He. congruence. }
  injection Hrun as <- _. destruct (Hback "seats limit exceeded"%string ltac:(done) He) as (row & e1 & w2 & Hrow & Hfn & He1).
  unfold assign_apply in Hfn. destruct (Nat.eqb _ 0); [by injection Hfn as <- _|]. rewrite exec_bind in Hfn. unfold mbind, M_bind in Hfn.
  unfold ensure_seat in Hfn. destruct (seat_gained _ _) eqn:Eg; [|done]. rewrite exec_map_seat in Hfn.
  destruct (exec seat_handle _ _ (tick w)) as [[[]|e2|x] w3] eqn:Es; [done| |done]. injection Hfn as <- _.
  apply andb_prop in Eg as [Hold%negb_true_iff Hnew]. split.
  - fold (holds_seat (u_Roles (fromDBUser row))) in Hold. 
    match type of Hnew with RoleOccupiesSeat (HighestRole ?l) = true => change (holds_seat l = true) in Hnew end.
    rewrite holds_seat_exists, existsb_app in Hnew. rewrite holds_seat_exists in Hold. rewrite Hold in Hnew. simpl in Hnew.
    rewrite holds_seat_exists. apply existsb_exists in Hnew as (x & Hx & Hs). apply existsb_exists. exists x. split; [|done].
    by apply filter_In in Hx as [? _].
  - apply guard_refuses in Es as (n & m & purchased & Hn & Hm & Hlt); [|done]. exists n, m, purchased. split_and!; [simpl in Hn; lia|done|done].
Qed.

Lemma occupied_later db t0 t : t0 <= t -> occupied db t <= occupied db t0.
Proof.
  intros Hle%pg_ts_mono. unfold occupied. rewrite !(seats_filter iv_Roles).
  enough (length (List.filter (fun x => counted t x && holds_seat (iv_Roles x)) (user_invitations db)) <=
    length (List.filter (fun x => counted t0 x && holds_seat (iv_Roles x)) (user_invitations db)))%nat by lia.
  apply filter_length_mono. intros x _ [[Hpx Hx%Z.leb_le]%andb_prop ->]%andb_prop. unfold counted. rewrite Hpx, andb_true_r.
  apply Z.leb_le. lia.
Qed.

(** C15. Nobody is refused the seat that was kept for them.  While no more
    seats are taken than the license has, counting the live invitations, and the
    clock does not run backwards, claiming an invitation never fails for want of
    a seat, even when the last seat is the reserved one. *)
Theorem reserved_seat_kept cap inv uid w e w' :
  (∀ n m, (n <= m)%nat -> env_now n <= env_now m) ->
  (∀ n purchased, (cached_license n ≫= SeatsPurchased) = Some purchased -> cap <= purchased) ->
  consistent (user_invitations (w_db w)) ->
  (∀ r, r ∈ user_invitations (w_db w) -> iv_ID r = rv_ID inv -> iv_Roles r = rv_Roles inv) ->
  occupied (w_db w) (env_now (w_step w)) <= cap ->
  @ClaimForUser _ _ _ _ license_guard inv uid background w = (Err e, w') ->
  errors_Is e ErrSeatsLimitExceeded = false.
Proof.
  intros Hclock Hcap Hc Hroles Hocc Hrun. destruct (errors_Is e ErrSeatsLimitExceeded) eqn:He; [exfalso|done].
  apply (WithinTx_reports _ _ _ _ "seats limit exceeded") in Hrun as (e0 & w2 & Hrun & He0); [|done..].
  unfold claim_in_tx in Hrun. unfold mbind at 1, M_bind in Hrun.
  destruct (wrap_err _ (MarkAccepted _) _ _) as [[claimed|e1|x] w1] eqn:Em; [| |done].
  2: { injection Hrun as -> _. assert (spares "seats limit exceeded" (MarkAccepted (rv_ID inv))) as Hs.
       { unfold MarkAccepted. apply spares_bind; [done|]. intros now. apply spares_bind; [by apply spares_sql|]. intros ?. apply spares_ret. }
       apply (spares_wrap _ _ _ Hs) in Em. congruence. }
  apply wrap_err_Ok, MarkAccepted_Ok in Em as (Hdb & Hrow & Hstep). unfold reject_if in Hrun.
  destruct claimed; [|by injection Hrun as <- _]. cbn [negb] in Hrun. destruct (Hrow eq_refl) as (row & Hin & Hid & Hp & Hexp).
  unfold mbind, M_bind, mret, M_ret, wrap_err in Hrun. destruct (AssignRoles _ _ w1) as [[u|e1|x] w3] eqn:Ea; [done| |done].
  injection Hrun as <- _. rewrite Errorf_is in He0.
  apply (AssignRoles_refused _ _ _ _ (env_now (w_step w))) in Ea as (Hseat & n & m & purchased & Hn & Hm & Hlt); [|done..].
  change (S (w_step w) <= w_step w1)%nat in Hstep. change (w_step (tick w)) with (S (w_step w)) in *.
  change (w_db (tick w)) with (w_db w) in *. set (t0 := env_now (S (w_step w))) in *.
  assert (occupied (w_db w) t0 <= cap) as Hocc'.
  { etrans; [apply (occupied_later _ (env_now (w_step w))), Hclock|done]. lia. }
  assert (pg_ts t0 <= pg_ts (env_now n)) as Hlater by (apply pg_ts_mono, Hclock; lia).
  pose proof (seat_released _ row (pg_ts t0) t0 (env_now n) Hc Hin Hp Hexp) as Hrel.
  rewrite (Hroles row Hin Hid) in Hrel. specialize (Hrel Hseat ltac:(simpl in *; lia) Hlater).
  specialize (Hcap _ _ Hm). rewrite Hdb in Hlt. unfold occupied, active_roles in *. simpl in *. rewrite Hid in Hrel. lia.
Qed.
End seat.

(** ** The last seat, kept for an invitee *)

Definition ex_invitation : InvitationRow :=
  mkInvitationRow 7 "eve@example.com" [RoleEditor] (HashSha256 (bytes "link")) InvitationStatusPending 1 (at_min 5000) T0 None None T0.
Definition ex_invited_world : World :=
  mkWorld (ex_db <| users := [ex_person 1 "ann@example.com" [RoleAdmin]; ex_person 2 "eve@example.org" [RoleGuest]] |>
             <| user_invitations := [ex_invitation] |>) 0 [] [].
Definition ex_claim (uid : UUID) : outcome User * World :=
  @ClaimForUser calm_env list_goque c_collation ex_cap license_guard (mkResolved 7 [RoleEditor]) uid background ex_invited_world.
Definition ex_accept : outcome TokenPair * World :=
  @AcceptInvitationWithPassword calm_env list_goque c_collation ex_cap license_guard ex_sealer ex_draws ex_jwt ex_ozzo ex_argon2 ex_flags
    ex_jwt_cfg (Otp.NewService ex_otp_cfg) (mkAcceptWithPassword "link" "battery staple" "" "") background ex_invited_world.

Lemma ex_consistent : @consistent c_collation (user_invitations (w_db ex_invited_world)).
Proof. split; decide_now. Qed.

(** Both seats are taken, one of them by the invitation; a claim that fails
    fails for another reason. *)
Lemma reserved_seat_kept_witness :
  occupied (w_db ex_invited_world) T0 = 2 ∧ (∃ u w', ex_claim 2 = (Ok u, w') ∧ u_Roles u = [RoleGuest; RoleEditor]) ∧
  ∃ e w', ex_claim 3 = (Err e, w') ∧ errors_Is e ErrSeatsLimitExceeded = false.
Proof.
  split; [vm_compute; reflexivity|]. split; [eexists _, _; split; [vm_compute; reflexivity|reflexivity]|].
  eexists _, _. match goal with |- ?E ∧ _ => assert E as Hrun by (vm_compute; reflexivity) end. split; [exact Hrun|].
  refine (@reserved_seat_kept calm_env list_goque c_collation ex_cap 2 _ _ _ _ _ _ _ ex_consistent _ _ Hrun).
  - intros n m Hnm. unfold env_now, calm_env, Millisecond, Microsecond, Nanosecond. lia.
  - intros n purchased [= <-]. done.
  - intros r ->%list_elem_of_singleton _. reflexivity.
  - vm_compute. discriminate.
Defined.

Lemma AcceptInvitation_all_or_nothing_witness : ∃ p w',
  ex_accept = (Ok p, w') ∧ (fun r => (ur_Email r, ur_Roles r)) <$> drop 2 (users (w_db w')) =
    [("eve@example.com"%string, [RoleGuest; RoleEditor])] ∧
  ∃ row hash user, row ∈ user_invitations (w_db ex_invited_world) ∧ @accepted_by c_collation (fromDB row) hash user (w_db ex_invited_world) (w_db w').
Proof.
  eexists _, _. match goal with |- ?E ∧ _ => assert E as Hrun by (vm_compute; reflexivity) end. split; [exact Hrun|].
  split; [vm_compute; reflexivity|].
  destruct (@AcceptInvitation_all_or_nothing calm_env list_goque c_collation ex_cap license_guard _ ex_sealer ex_draws ex_jwt
    ex_ozzo ex_argon2 ex_flags ex_jwt_cfg (Otp.NewService ex_otp_cfg) _ _ _ _ Hrun) as [[_ Hno]|(row & hash & user & w1 & w2 & Hin & _ & _ & _ & Hacc)].
  - destruct (Hno _ eq_refl).
  - exists row, hash, user. split; [exact Hin|exact Hacc].
Defined.

(** A second claim of the same link, after the first. *)
Lemma invitations_refine_lifecycle_witness : ∃ u w1 w2,
  ex_claim 2 = (Ok u, w1) ∧
  @serve_invitation calm_env list_goque c_collation ex_cap license_guard ex_sealer ex_draws ex_jwt ex_ozzo ex_argon2 ex_flags
    {| unicode_ToLower := strings_ToLower; unicode_EqualFold := String.eqb |} ex_jwt_cfg (Otp.NewService ex_otp_cfg)
    (NewService 0 "https://maintmode.example.com") Hour (QRevoke (mkRevokeInvitation (Some SystemUser) 7)) background w1
    = (Err (EJoin1 ErrInvitationNotPending), w2) ∧
  iv_Status <$> user_invitations (w_db w2) = [InvitationStatusAccepted] ∧
  rtc (@table_step c_collation) (user_invitations (w_db w1)) (user_invitations (w_db w2)).
Proof.
  eexists _, _, _. split; [vm_compute; reflexivity|].
  match goal with |- ?E ∧ _ => assert E as Hrun by (vm_compute; reflexivity) end. split; [exact Hrun|].
  split; [vm_compute; reflexivity|].
  refine (proj2 (@invitations_refine_lifecycle calm_env list_goque c_collation ex_cap license_guard ex_sealer ex_draws ex_jwt
    ex_ozzo ex_argon2 ex_flags _ ex_jwt_cfg _ _ _ _ _ _ _ _ _ Hrun)). split; decide_now.
Defined.
