(* ===== verification/DanceFixtures.v ===== *)
(** * A dance for examples

    An instance that serves one OpenID Connect provider, with one user who has
    signed in through it before; a callback the instance will accept. *)
From Stdlib Require Import ZArith Lia Ascii String.
From stdpp Require Import base sorting sets strings numbers list.
From S2P Require Import Prelude Go Sha256 Entity Conflict AuditTrail Schema Logic Dbtx Interleave Crypto Like Validation MaintStore.
From S2P Require Import UserStore Credentials TokenStore InvitationStore License Fixtures Password Queue Otp OtpSpec Sessions DanceStore.
From S2P Require Import DanceSigner Kinds AuthMethods Auth SessionSpec Users Identities InvitationEmail Invitations Dance UserSpec.
Open Scope Z_scope.

Definition ex_oidc : OIDCSettings :=
  mkOIDC "" "https://accounts.example.com" "client" "secret" "https://maint.example.com/callback" ["openid"; "email"] ["example.com"].
(** The exchange answers a token, the token verifies. *)
Definition ex_idp : IdentityProviders := {|
  idp_AuthCodeURL := fun _ _ state _ => inl ("https://accounts.example.com/auth?state=" +:+ state);
  idp_Exchange := fun _ _ code _ => inl ("token for " +:+ code);
  idp_verifier := fun _ _ => None;
  idp_verify := fun _ _ _ => inl ("sub-1"%string, inl (mkIDToken "ann@example.com" (Some (JBool true)) "Ann" "example.com"));
  idp_expired := fun _ => false;
  idp_FetchIdentity := fun _ _ _ => inr (EOther "no such provider");
  mail_ParseAddress := Some |}.
Definition ex_unicode : Unicode := {| unicode_ToLower := strings_ToLower; unicode_EqualFold := String.eqb |}.
Definition ex_methods : Methods :=
  @reload ex_ozzo (inl [mkConfigured AuthMethodGoogle true (SetOIDC ex_oidc) false]) (@NewAuthMethods ex_ozzo false false []).
Definition ex_live : LiveMethods := {| live_methods := fun _ => ex_methods |}.

Definition ex_dance_key : list ascii := bytes "signing key".
Definition ex_state_ttl : Duration := 10 * Minute.
Definition ex_dance_world : World :=
  mkWorld (ex_db <| users := [mkUserRow 11 "ann@example.com" "Ann" [] T0 None None None None] |>
             <| integration_settings := [mkIntegrationRow 81 CategoryLogin true JNull JNull 0 T0 None T0 None AuthMethodGoogle false] |>
             <| user_identities := [mkIdentityRow 91 11 "sub-1" "ann@example.com" T0 81] |>) 0 [] [].
Definition ex_callback : DanceCallback :=
  mkCallback AuthMethodGoogle "" "state-1" "code-1" (Sign ex_dance_key AuthMethodGoogle "state-1" (T0 + ex_state_ttl)) "verifier-1" "" ""
    (bindingOf "browser-1").

(** The calls on this instance. *)
Definition ex_dance_handle : ∀ X, DanceOp X -> M X :=
  @dance_handle calm_env c_collation list_goque ex_cap license_guard ex_sealer ex_draws ex_jwt ex_ozzo ex_argon2 ex_flags ex_unicode
    ex_idp ex_live ex_jwt_cfg (Otp.NewService ex_otp_cfg) ex_state_ttl false.
Definition ex_complete : Prog DanceOp DanceOutcome :=
  @CompleteDance ex_jwt ex_unicode ex_jwt_cfg ex_dance_key ex_callback (clientMeta "203.0.113.7" "browser").
