(* ===== verification/DanceSpec.v ===== *)
(** * What signing in through a provider promises

    The order in which a callback may do things, what an outcome of it implies,
    that a one-time code is redeemed at most once however requests interleave,
    and what a sign-in may create. *)
From Stdlib Require Import ZArith Lia Ascii String.
From stdpp Require Import base sorting sets strings numbers list.
From S2P Require Import Prelude Go Sha256 Entity Conflict AuditTrail Schema Logic Dbtx Interleave Crypto Validation MaintStore.
From S2P Require Import UserStore Credentials TokenStore InvitationStore License Fixtures Password Queue Otp Sessions DanceStore.
From S2P Require Import DanceSigner AuthMethods Auth SessionSpec Users Identities Invitations Dance DanceFixtures.
Open Scope Z_scope.

(** ** The order of a callback *)

(** A call that neither leaves the process nor changes anything but the audit
    trail. *)
Definition harmless (X : Type) (op : DanceOp X) : Prop :=
  match op with
  | DMethods => True
  | DAuth (ATok TNow) => True
  | DAuth (APublish _) => True
  | _ => False
  end.

(** The calls of a callback that presents a link ticket. *)
Definition link_call (X : Type) (op : DanceOp X) : Prop :=
  match op with
  | DExchange _ _ _ | DAuthenticate _ _ | DConsumeLinkTicket _ | DSecret | DPutLinkCode _ _ => True
  | _ => harmless X op
  end.

Lemma harmless_link X (op : DanceOp X) : harmless X op -> link_call X op.
Proof. by destruct op. Qed.

Ltac only_step :=
  cbv zeta;
  match goal with
  | |- calls_only _ (_ ≫= _) => apply calls_only_bind; [|intros ?]
  | |- calls_only _ (mret _) => constructor
  | |- calls_only _ (PRet _) => constructor
  | |- calls_only _ (PErr _) => constructor
  | |- calls_only _ (call _) => constructor; [|intros [?|?]; constructor]
  | |- calls_only _ (call_wrap _ _) => constructor; [|intros [?|?]; constructor]
  | |- calls_only _ (try_call _) => constructor; [|intros [?|?]; constructor]
  | |- calls_only _ (prog_try _) => apply calls_only_try
  | |- calls_only _ (prog_wrap _ _) => apply calls_only_wrap
  | |- calls_only _ (match ?x with _ => _ end) => destruct x
  | |- context [DAuth _] => progress simpl
  | |- True => exact I
  end.

Section order.
Context `{Jwt} `{Unicode} (cfg : JWTConfig) (key : list ascii).

Lemma only_audit P action : (∀ X op, harmless X op -> P X op) -> calls_only P (da (auth_publishAudit action)).
Proof. intros HP. constructor; [by apply HP|]. intros [?|?]; constructor. Qed.

Lemma only_failure (P : ∀ X, DanceOp X -> Prop) u meta reason :
  (∀ X op, harmless X op -> P X op) -> calls_only P (dance_publishLoginFailure u meta reason).
Proof. apply only_audit. Qed.

Lemma only_verifyDanceOrigin cb meta : calls_only harmless (verifyDanceOrigin key cb meta).
Proof.
  unfold verifyDanceOrigin, refuseDance, time_Now. repeat first [by apply only_failure|only_step]; exact I.
Qed.

Lemma only_isOurDance cb : calls_only harmless (isOurDance key cb).
Proof. unfold isOurDance, time_Now. repeat only_step; exact I. Qed.

(** The callback carries a state this backend signed for a provider it serves,
    still in time, and the rest of what a dance brings back. *)
Definition verified (cb : DanceCallback) (es : list Event) : Prop := ∃ i j m p now,
  Ev i DMethods (Ok m) ∈ es ∧ DanceProvider m (cb_Provider cb) = Some p ∧ Ev j (DAuth (ATok TNow)) (Ok now) ∈ es ∧
  Verify key (cb_StateSignature cb) p (cb_State cb) now = true ∧
  cb_Verifier cb ≠ ""%string ∧ cb_Code cb ≠ ""%string ∧ cb_Binding cb ≠ ""%string.

Lemma verified_mono cb es es' : verified cb es -> es ⊆ es' -> verified cb es'.
Proof. intros (i & j & m & p & now & H1 & H2 & H3 & H4) Hsub. exists i, j, m, p, now. split_and!; naive_solver. Qed.

Lemma DanceProvider_same m seg p : DanceProvider m seg = Some p -> p = seg.
Proof. unfold DanceProvider. repeat case_goal; congruence. Qed.

Lemma refuse_follows {A} meta err es (a : A) : ~ follows (refuseDance meta err) es (PRet a).
Proof. unfold refuseDance. intros Hf. follow_step Hf. follow_step Hf. Qed.

Lemma origin_follows cb meta es p :
  follows (verifyDanceOrigin key cb meta) es (PRet p) -> verified cb es ∧ p = cb_Provider cb ∧ cb_StateSignature cb ≠ ""%string.
Proof.
  intros Hf. unfold verifyDanceOrigin, time_Now in Hf. follow_step Hf. destruct (DanceProvider a _) as [q|] eqn:Eq; [|follow_step Hf].
  destruct (String.eqb_spec (cb_StateSignature cb) ""); [follow_step Hf|]. follow_step Hf.
  destruct (Verify _ _ _ _ _) eqn:Ev_; cbn [negb] in Hf; [|by apply refuse_follows in Hf].
  destruct (String.eqb_spec (cb_Verifier cb) ""); [by apply refuse_follows in Hf|].
  destruct (String.eqb_spec (cb_Code cb) ""); [by apply refuse_follows in Hf|].
  destruct (String.eqb_spec (cb_Binding cb) ""); [by apply refuse_follows in Hf|]. follow_step Hf. subst.
  split; [|split; [by apply DanceProvider_same in Eq as ->|done]].
  exists i, i0, a, q, a0. split_and!; try done; set_solver.
Qed.

(** Once verified, the rest of the request may make any call. *)
Lemma hist_verified cb es {A} (p : Prog DanceOp A) :
  verified cb es -> calls_hist (fun es X op => harmless X op ∨ verified cb es) es p.
Proof.
  revert es. induction p as [a|e|X op k IH]; intros es Hv; constructor; [by right|].
  intros i r. assert (verified cb (es ++ [Ev i op r])) as Hv' by (eapply verified_mono; [exact Hv|set_solver]).
  destruct r; simpl; [by apply IH..|constructor].
Qed.

Lemma complete_in_order cb meta es : calls_hist (fun es X op => harmless X op ∨ verified cb es) es (CompleteDance cfg key cb meta).
Proof.
  unfold CompleteDance. destruct (negb _).
  - apply calls_hist_calm with harmless; [by left|].
    repeat first [by apply only_failure|apply only_isOurDance|only_step].
  - apply calls_hist_bind; [apply calls_hist_calm with harmless; [by left|apply only_verifyDanceOrigin]|].
    intros es' p (Hv & _)%origin_follows. apply hist_verified. eapply verified_mono; [exact Hv|set_solver].
Qed.

Lemma link_only cb meta : cb_LinkTicket cb ≠ ""%string -> calls_only link_call (CompleteDance cfg key cb meta).
Proof.
  intros Ht. apply String.eqb_neq in Ht. unfold CompleteDance, danceGatewayFor, issueDanceCode, verifyProviderCredential, parkLink,
    publishLinkRefused, publishLinkRefusedFor. rewrite Ht. cbn [negb].
  assert (∀ u m reason, calls_only link_call (dance_publishLoginFailure u m reason)) as Hfail
    by (intros; apply only_failure, harmless_link).
  assert (∀ action, calls_only link_call (da (auth_publishAudit action))) as Haud by (intros; apply only_audit, harmless_link).
  assert (∀ A (p : Prog DanceOp A), calls_only harmless p -> calls_only link_call p) as Hweak.
  { intros A p. induction 1 as [| |X op k Hop _ IH]; constructor; [by apply harmless_link|done]. }
  repeat first [apply Hfail|apply Haud|apply Hweak, only_isOurDance|apply Hweak, only_verifyDanceOrigin|only_step]; exact I.
Qed.


(** ** What an outcome implies *)

(** The provider vouched for these claims. *)
Definition vouched_by_provider (cb : DanceCallback) (es : list Event) (claims : OAuthIDTokenClaims) : Prop := ∃ i j m mt g credential,
  Ev i (DExchange g (cb_Code cb) (cb_Verifier cb)) (Ok credential) ∈ es ∧ Get m (cb_Provider cb) = inl mt ∧
  Ev j (DAuthenticate mt credential) (Ok claims) ∈ es.

(** The dance was a link: the ticket named this provider, and what is parked
    names the account that minted the ticket. *)
Definition parked_link (cb : DanceCallback) (es : list Event) (claims : OAuthIDTokenClaims) (o : DanceOutcome) : Prop :=
  cb_LinkTicket cb ≠ ""%string ∧ ou_Code o = ""%string ∧ ∃ i j intent,
    Ev i (DConsumeLinkTicket (cb_LinkTicket cb)) (Ok (Some intent)) ∈ es ∧ li_Provider intent = cb_Provider cb ∧
    Ev j (DPutLinkCode (ou_LinkCode o) (mkPendingLink (li_UserID intent) (cb_Provider cb) claims (cb_Binding cb))) (Ok tt) ∈ es.

(** The dance was a sign-in.  An account may only have been created for it if
    the handle redeemed an invitation for these claims, and then the invitation
    was claimed for the account of that address. *)
Definition signed_in (cb : DanceCallback) (es : list Event) (claims : OAuthIDTokenClaims) (o : DanceOutcome) : Prop :=
  cb_LinkTicket cb = ""%string ∧ ou_LinkCode o = ""%string ∧ ∃ i j user policy issued,
    Ev i (DGetOrCreate (cb_Provider cb) (mkUserInfo (oc_Subject claims) (oc_Email claims) (oc_Name claims)) policy) (Ok user) ∈ es ∧
    GrantRoles policy = [] ∧
    (AllowCreate policy = true -> ∃ k l inv claimed,
       Ev k (DResolveForIdentity (cb_InvitationHandle cb) claims) (Ok inv) ∈ es ∧
       unicode_EqualFold (u_Email user) (oc_Email claims) = true ∧ Ev l (DClaimForUser inv (u_ID user)) (Ok claimed) ∈ es) ∧
    Ev j (DPutCode (ou_Code o) (mkDanceCode (Some issued) (cb_Binding cb))) (Ok tt) ∈ es.

Lemma credential_follows p credential es claims :
  follows (verifyProviderCredential p credential) es (PRet claims) ->
  ∃ i m mt, Get m p = inl mt ∧ Ev i (DAuthenticate mt credential) (Ok claims) ∈ es.
Proof.
  intros Hf. unfold verifyProviderCredential in Hf. follow_step Hf. destruct (Get a p) as [mt|] eqn:Eg; [|follow_step Hf].
  follow_step Hf. exists i0, a, mt. split; [done|set_solver].
Qed.

Lemma parkLink_follows p ticket claims binding meta es o :
  follows (parkLink p ticket claims binding meta) es (PRet o) ->
  ou_Code o = ""%string ∧ ∃ i j intent, Ev i (DConsumeLinkTicket ticket) (Ok (Some intent)) ∈ es ∧ li_Provider intent = p ∧
    Ev j (DPutLinkCode (ou_LinkCode o) (mkPendingLink (li_UserID intent) p claims binding)) (Ok tt) ∈ es.
Proof.
  intros Hf. unfold parkLink in Hf. follow_step Hf; [|follow_step Hf; follow_step Hf].
  destruct x as [intent|]; [|follow_step Hf; follow_step Hf].
  destruct (String.eqb_spec (li_Provider intent) p) as [<-|]; cbn [negb] in Hf; [|follow_step Hf; follow_step Hf].
  follow_step Hf. follow_step Hf. follow_step Hf. subst o. destruct a0. split; [done|].
  exists i, i1, intent. split_and!; [set_solver|done|set_solver].
Qed.

Lemma parked_link_mono cb es es' claims o : parked_link cb es claims o -> es ⊆ es' -> parked_link cb es' claims o.
Proof. intros (H1 & H2 & i & j & intent & H3 & H4 & H5) Hs. split_and!; [done..|]. exists i, j, intent. split_and!; auto. Qed.

Lemma signed_in_mono cb es es' claims o : signed_in cb es claims o -> es ⊆ es' -> signed_in cb es' claims o.
Proof.
  intros (H1 & H2 & i & j & user & policy & issued & H3 & H4 & H5 & H6) Hs. split_and!; [done..|].
  exists i, j, user, policy, issued. split_and!; auto. intros (k & l & inv & claimed & H7 & H8 & H9)%H5.
  exists k, l, inv, claimed. split_and!; auto.
Qed.

Lemma invitation_follows handle claims meta es inv :
  follows (resolveInvitation handle claims meta) es (PRet inv) ->
  ∀ i, inv = Some i -> ∃ k, Ev k (DResolveForIdentity handle claims) (Ok i) ∈ es.
Proof.
  intros Hf i ->. unfold resolveInvitation in Hf. destruct (String.eqb handle ""); [by follow_step Hf|].
  follow_step Hf; [|follow_step Hf; follow_step Hf]. follow_step Hf. injection Hf as ->. exists i0. set_solver.
Qed.

Lemma user_follows p claims policy meta es user :
  follows (resolveSignInUser p claims policy meta) es (PRet user) ->
  ∃ i, Ev i (DGetOrCreate p (mkUserInfo (oc_Subject claims) (oc_Email claims) (oc_Name claims)) policy) (Ok user) ∈ es.
Proof.
  intros Hf. unfold resolveSignInUser in Hf. follow_step Hf; [|follow_step Hf; follow_step Hf]. follow_step Hf. subst.
  exists i. set_solver.
Qed.

Lemma claim_follows inv user claims meta es claimed :
  follows (claimInvitation (Some inv) user claims meta) es (PRet claimed) ->
  unicode_EqualFold (u_Email user) (oc_Email claims) = true ∧ ∃ l, Ev l (DClaimForUser inv (u_ID user)) (Ok claimed) ∈ es.
Proof.
  intros Hf. unfold claimInvitation in Hf. destruct (unicode_EqualFold _ _); cbn [negb] in Hf; [|follow_step Hf; follow_step Hf].
  follow_step Hf; [|follow_step Hf; follow_step Hf]. follow_step Hf. subst. split; [done|]. exists i. set_solver.
Qed.

Lemma issueDanceCode_follows cb meta credential es o :
  follows (issueDanceCode cfg (cb_Provider cb) credential cb meta) es (PRet o) ->
  ∃ claims, (∃ j m mt, Get m (cb_Provider cb) = inl mt ∧ Ev j (DAuthenticate mt credential) (Ok claims) ∈ es) ∧
    (parked_link cb es claims o ∨ signed_in cb es claims o).
Proof.
  intros Hf. unfold issueDanceCode in Hf. follow_step Hf; [|follow_step Hf; follow_step Hf]. rename x into claims.
  apply credential_follows in Hf0 as (j & m & mt & Hg & Hev). exists claims. split; [exists j, m, mt; split; [done|set_solver]|].
  destruct (String.eqb_spec (cb_LinkTicket cb) "") as [Ht|Ht]; cbn [negb] in Hf; last first.
  { left. split; [done|]. apply parkLink_follows in Hf as (Hc & i & k & intent & H1 & H2 & H3). split; [done|].
    exists i, k, intent. split_and!; [set_solver|done|set_solver]. }
  right. cbv zeta in Hf. follow_step Hf. pose proof (invitation_follows _ _ _ _ _ Hf0) as Hinv.
  follow_step Hf. apply follows_wrap_inv, user_follows in Hf1 as (i & Hu). follow_step Hf. follow_step Hf.
  follow_step Hf. follow_step Hf. follow_step Hf. subst o. destruct a4.
  split; [done|]. split; [done|]. exists i, i1, a0, (mkPolicy (bool_decide (is_Some a)) []), a2.
  split_and!; [set_solver|done| |set_solver].
  intros (inv & ->)%bool_decide_eq_true. destruct (Hinv _ eq_refl) as (k & Hk). apply claim_follows in Hf1 as (Hfold & l & Hl).
  exists k, l, inv, a1. split_and!; [set_solver|done|set_solver].
Qed.

(** C16. A callback does nothing before it has proved that this backend began
    the dance.  Whatever its calls are answered, every call that reaches the
    provider, the stores or the users comes after a state that verified for a
    provider the instance serves, in time, with a PKCE verifier, a code and a
    binding; a callback that carries a link ticket never signs anybody in, not
    even when it is refused.  And an outcome means that the provider vouched for
    an identity, and either a link parked for the account that minted the ticket,
    or a sign-in whose tokens wait behind the code under the binding of the
    browser; an account may be created for it only by an invitation that was
    redeemed for that identity and claimed for an account of its address. *)
Theorem dance_in_order cb meta es q :
  follows (CompleteDance cfg key cb meta) es q ->
  (∀ es1 i X (op : DanceOp X) r es2, es = es1 ++ Ev i op r :: es2 -> harmless X op ∨ verified cb es1) ∧
  (cb_LinkTicket cb ≠ ""%string -> Forall (fun e => match e with Ev _ op _ => link_call _ op end) es) ∧
  (∀ o, q = PRet o -> verified cb es ∧ ∃ claims, vouched_by_provider cb es claims ∧
     (parked_link cb es claims o ∨ signed_in cb es claims o)).
Proof.
  intros Hf. split_and!.
  - intros es1 i X op r es2 ->. exact (calls_hist_at _ _ _ _ _ _ _ _ (complete_in_order cb meta []) Hf eq_refl).
  - intros Ht. eapply calls_only_follows; [by apply link_only|exact Hf].
  - intros o ->. unfold CompleteDance in Hf. destruct (negb _).
    { follow_step Hf. follow_step Hf. destruct (String.eqb (cb_ProviderError cb) oauthErrorAccessDenied); follow_step Hf. }
    follow_step Hf. apply origin_follows in Hf0 as (Hv & -> & _). follow_step Hf. follow_step Hf; [|follow_step Hf; follow_step Hf].
    apply issueDanceCode_follows in Hf as (claims & (j & m & mt & Hg & Hev) & Hout).
    split; [eapply verified_mono; [exact Hv|set_solver]|]. exists claims. split.
    + exists i, j, m, mt, a, x. split_and!; [set_solver|done|set_solver].
    + destruct Hout; [left; eapply parked_link_mono|right; eapply signed_in_mono]; eauto; set_solver.
Qed.
End order.

Lemma dance_in_order_witness : ∃ es o,
  follows ex_complete es (PRet o) ∧ ou_Code o ≠ ""%string ∧ verified ex_dance_key ex_callback es ∧
  ∃ claims, @signed_in ex_unicode ex_callback es claims o.
Proof.
  assert (∃ o w', exec ex_dance_handle ex_complete background ex_dance_world = (Ok o, w') ∧ ou_Code o ≠ ""%string) as (o & w' & Hrun & Ho)
    by (eexists _, _; split; [vm_compute; reflexivity|discriminate]).
  apply exec_follows in Hrun as [es Hes]. exists es, o. split; [exact Hes|]. split; [exact Ho|].
  destruct (@dance_in_order ex_jwt ex_unicode ex_jwt_cfg ex_dance_key _ _ _ _ Hes) as (_ & _ & Hout).
  destruct (Hout o eq_refl) as (Hv & claims & _ & [(Hl & _)|Hin]); [by destruct Hl|]. split; [exact Hv|]. exists claims. exact Hin.
Defined.
