(* ===== verification/DanceCodes.v ===== *)
(** * One-time secrets of a dance are redeemed once

    Codes, link tickets and link codes are parked under the hash of a secret and
    taken with GETDEL.  Here: nothing else touches those entries, and however
    requests interleave, what was parked is taken at most once. *)
From Stdlib Require Import ZArith Lia Ascii String.
From stdpp Require Import base sorting sets strings numbers list.
From S2P Require Import Prelude Go Sha256 Entity Conflict AuditTrail Schema Logic Dbtx Interleave Crypto Validation MaintStore.
From S2P Require Import UserStore Credentials TokenStore InvitationStore License Password Queue Otp Sessions DanceStore.
From S2P Require Import DanceSigner AuthMethods Auth Users Identities Invitations Dance.
From S2P Require Import Like Fixtures OtpSpec SessionSpec UserSpec DanceFixtures.
Open Scope Z_scope.

(** ** The entries of secrets *)

Definition is_secret (key : string) : bool :=
  existsb (fun p => has_prefix (bytes key) (bytes p)) [codePrefix; linkPrefix; linkCodePrefix].
Definition secrets (l : list KVEntry) : list KVEntry := List.filter (fun e => is_secret (kv_Key e)) l.

(** What leaves the entries of secrets alone. *)
Definition kv_quiet {A} (m : M A) : Prop := ∀ ctx w, secrets (w_kv (snd (m ctx w))) = secrets (w_kv w).

Create HintDb kv discriminated.

Section quiet.
Context `{Env}.

Lemma kv_quiet_ret {A} (a : A) : kv_quiet (mret a).
Proof. done. Qed.
Lemma kv_quiet_raise {A} e : kv_quiet (raise (A := A) e).
Proof. done. Qed.
Lemma kv_quiet_panic {A} s : kv_quiet (panic (A := A) s).
Proof. done. Qed.
Lemma kv_quiet_lift {A} (o : outcome A) : kv_quiet (lift o).
Proof. done. Qed.
Lemma kv_quiet_in_tx : kv_quiet in_tx.
Proof. done. Qed.
Lemma kv_quiet_UTCNow : kv_quiet UTCNow.
Proof. done. Qed.
Lemma kv_quiet_at_step {A} (f : nat -> A + error) : kv_quiet (at_step f).
Proof. done. Qed.
Lemma kv_quiet_idp {A} (f : nat -> A) : kv_quiet (idp f).
Proof. done. Qed.
Lemma kv_quiet_bind {A B} (m : M A) (k : A -> M B) : kv_quiet m -> (∀ a, kv_quiet (k a)) -> kv_quiet (m ≫= k).
Proof.
  intros Hm Hk ctx w. specialize (Hm ctx w). unfold mbind, M_bind. destruct (m ctx w) as [[a|e|s] w1]; simpl in *; [|done..].
  rewrite <- Hm. apply Hk.
Qed.
Lemma kv_quiet_attempt {A} (m : M A) : kv_quiet m -> kv_quiet (attempt m).
Proof. intros Hm ctx w. specialize (Hm ctx w). unfold attempt. by destruct (m ctx w) as [[a|e|s] w1]. Qed.
Lemma kv_quiet_wrap_err {A} f (m : M A) : kv_quiet m -> kv_quiet (wrap_err f m).
Proof. intros Hm ctx w. specialize (Hm ctx w). unfold wrap_err. by destruct (m ctx w) as [[a|e|s] w1]. Qed.
Lemma kv_quiet_sql {A} (f : Stmt -> DB -> outcome (A * DB)) : kv_quiet (sql f).
Proof. intros ctx w. unfold sql. destruct (env_fault _); [done|]. by destruct (f _ _) as [[a db]|e|s]. Qed.
Lemma kv_quiet_query {A} (f : DB -> A) : kv_quiet (query f).
Proof. apply kv_quiet_sql. Qed.
Lemma kv_quiet_WithinTx {A} (m : M A) : kv_quiet m -> kv_quiet (WithinTx m).
Proof.
  intros Hm ctx w. unfold WithinTx, TxFromContext, rollback. destruct (ctx_tx ctx); [apply Hm|].
  destruct (env_fault _); [done|]. specialize (Hm (mkCtx (Some (env_now (w_step w)))) (tick w)).
  destruct (m _ (tick w)) as [[a|e|s] w1]; simpl in *; by destruct (env_fault (w_step w1)).
Qed.
Lemma kv_quiet_exec {E : Type -> Type} (h : ∀ X, E X -> M X) {A} (p : Prog E A) :
  (∀ X op, kv_quiet (h X op)) -> kv_quiet (exec h p).
Proof.
  intros Hh. induction p as [a|e|X op k IH]; intros ctx w; simpl; [done..|]. specialize (Hh X op ctx w).
  destruct (h X op ctx w) as [[a|e|s] w1]; simpl in *; [rewrite <- Hh; apply IH..|done].
Qed.

(** A write under a key of another kind. *)
Lemma secrets_put key v exp l : is_secret key = false -> secrets (kv_put key v exp l) = secrets l.
Proof.
  intros Hk. unfold secrets, kv_put. simpl. rewrite Hk. induction l as [|e l IH]; [done|]. simpl.
  destruct (String.eqb_spec (kv_Key e) key) as [Ek|_]; simpl; [|by rewrite IH]. by rewrite Ek, Hk.
Qed.
Lemma secrets_del key l : is_secret key = false -> secrets (kv_del key l) = secrets l.
Proof.
  intros Hk. unfold secrets, kv_del. induction l as [|e l IH]; [done|]. simpl.
  destruct (String.eqb_spec (kv_Key e) key) as [Ek|_]; simpl; [|by rewrite IH]. by rewrite Ek, Hk.
Qed.
Lemma kv_quiet_kv {A} (f : Time -> list KVEntry -> A * list KVEntry) :
  (∀ now l, secrets (snd (f now l)) = secrets l) -> kv_quiet (kv f).
Proof.
  intros Hf ctx w. unfold kv. destruct (env_fault _); [done|]. specialize (Hf (env_now (w_step w)) (w_kv w)).
  by destruct (f _ _).
Qed.
End quiet.

Ltac kv_step :=
  cbv zeta;
  match goal with
  | |- kv_quiet (_ ≫= _) => apply kv_quiet_bind; [|intros ?]
  | |- kv_quiet (mret _) => apply kv_quiet_ret
  | |- kv_quiet (raise _) => apply kv_quiet_raise
  | |- kv_quiet (panic _) => apply kv_quiet_panic
  | |- kv_quiet (lift _) => apply kv_quiet_lift
  | |- kv_quiet in_tx => apply kv_quiet_in_tx
  | |- kv_quiet UTCNow => apply kv_quiet_UTCNow
  | |- kv_quiet (at_step _) => apply kv_quiet_at_step
  | |- kv_quiet (idp _) => apply kv_quiet_idp
  | |- kv_quiet (attempt _) => apply kv_quiet_attempt
  | |- kv_quiet (wrap_err _ _) => apply kv_quiet_wrap_err
  | |- kv_quiet (sql _) => apply kv_quiet_sql
  | |- kv_quiet (query _) => apply kv_quiet_query
  | |- kv_quiet (WithinTx _) => apply kv_quiet_WithinTx
  | |- kv_quiet (match ?x with _ => _ end) => destruct x
  | |- kv_quiet (let '(_, _) := ?x in _) => destruct x
  | |- kv_quiet (reject_if _ _) => unfold reject_if
  | |- kv_quiet (require _ _ _) => unfold require
  | |- kv_quiet _ => solve [eauto with kv nocore]
  | |- kv_quiet (fun _ _ => _) => by intros ? ?
  end.

Section ops.
Context `{Env} `{Collation} `{Goque} `{LicenseCache} `{SeatGuard} `{Sealer} `{Entropy} `{Jwt} `{Ozzo} `{Argon2}.
Context `{AuthMethodFlags} `{Unicode} `{IdentityProviders} `{LiveMethods}.
Context (cfg : JWTConfig) (codes : Otp.Service) (danceStateTTL : Duration) (allowOpenSignup : bool).

Lemma kv_quiet_Publish action : kv_quiet (Publish action).
Proof. unfold Publish, Render, goque_NewTask, AddTaskToQueue, on_queue. repeat kv_step. Qed.
Hint Resolve kv_quiet_Publish : kv.
Lemma kv_quiet_schedule ty p key : kv_quiet (Schedule_now ty p key).
Proof. unfold Schedule_now, ScheduleDelayed, goque_NewTask, AddTaskToQueue, on_queue. repeat kv_step. Qed.
Hint Resolve kv_quiet_schedule : kv.

Lemma kv_quiet_seat X (op : SeatOp X) : kv_quiet (seat_handle X op).
Proof.
  destruct op; cbn [seat_handle]; unfold AdvisoryXactLock, ListActiveRoles, ListPendingRoles; repeat kv_step.
Qed.
Lemma kv_quiet_user X (op : UserOp X) : kv_quiet (user_handle X op).
Proof.
  destruct op; cbn [user_handle];
    unfold UserStore.GetForUpdateByID, UserStore.GetByID, UserStore.GetByEmail, UserStore.get, UserStore.Create, UserStore.Update,
      LockAdminMutations, AdvisoryXactLock, CountActiveAdmins, countList;
    repeat first [apply kv_quiet_seat|kv_step].
Qed.
Lemma kv_quiet_within {A} (p : Prog UserOp A) : kv_quiet (within p).
Proof. apply kv_quiet_WithinTx, kv_quiet_exec, kv_quiet_user. Qed.
Hint Resolve kv_quiet_within : kv.

Lemma kv_quiet_GetByID id : kv_quiet (UserStore.GetByID id).
Proof. unfold UserStore.GetByID, UserStore.get. repeat kv_step. Qed.
Lemma kv_quiet_GetForUpdate id : kv_quiet (UserStore.GetForUpdateByID id).
Proof. unfold UserStore.GetForUpdateByID, UserStore.get. repeat kv_step. Qed.
Lemma kv_quiet_GetByEmail email : kv_quiet (UserStore.GetByEmail email).
Proof. unfold UserStore.GetByEmail, UserStore.get. repeat kv_step. Qed.
Lemma kv_quiet_CreateUser u : kv_quiet (UserStore.Create u).
Proof. unfold UserStore.Create. repeat kv_step. Qed.
Hint Resolve kv_quiet_GetByID kv_quiet_GetForUpdate kv_quiet_GetByEmail kv_quiet_CreateUser : kv.

Lemma kv_quiet_AssignRoles cmd : kv_quiet (AssignRoles cmd).
Proof. unfold AssignRoles, unless_unchanged, publishUserAudit, GetByID. repeat kv_step. Qed.
Hint Resolve kv_quiet_AssignRoles : kv.

Lemma kv_quiet_integrationID m : kv_quiet (integrationID m).
Proof. unfold integrationID, ResolveID, GetByKindName, integration_fromDB. repeat kv_step. Qed.
Lemma kv_quiet_CreateIdentity i : kv_quiet (CreateIdentity i).
Proof. unfold CreateIdentity. repeat kv_step. Qed.
Lemma kv_quiet_get_identity p : kv_quiet (get_identity p).
Proof. unfold get_identity. repeat kv_step. Qed.
Hint Resolve kv_quiet_integrationID kv_quiet_CreateIdentity kv_quiet_get_identity : kv.

Lemma kv_quiet_GetOrCreate p info policy : kv_quiet (GetOrCreateByAuthInfo allowOpenSignup p info policy).
Proof.
  assert (∀ roles, kv_quiet (createWithIdentity p info roles)) as Hc by (intros; unfold createWithIdentity, createIdentity; repeat kv_step).
  assert (kv_quiet (getUserByIdentity p (pi_ID info))) as Hg by (unfold getUserByIdentity, GetByMethodSubject; repeat kv_step).
  unfold GetOrCreateByAuthInfo, get_or_create_in_tx, createByPolicy. repeat first [apply Hc|apply Hg|kv_step].
Qed.
Lemma kv_quiet_Link uid p claims : kv_quiet (LinkIdentity uid p claims).
Proof.
  unfold LinkIdentity, link_in_tx, GetByMethodSubject, GetByUserAndMethod, unlinked. repeat kv_step.
Qed.
Lemma kv_quiet_Unlink uid p keeps : kv_quiet (UnlinkIdentity uid p keeps).
Proof.
  unfold UnlinkIdentity, unlink_in_tx, CountProvidersByUserID, DeleteUserIdentityByProviderName. repeat kv_step.
Qed.
Lemma kv_quiet_Claim inv uid : kv_quiet (ClaimForUser inv uid).
Proof. unfold ClaimForUser, claim_in_tx, MarkAccepted. repeat kv_step. Qed.
Lemma kv_quiet_BreakGlass email name : kv_quiet (EnsureBreakGlassAccount email name).
Proof. unfold EnsureBreakGlassAccount. repeat kv_step. Qed.
Lemma kv_quiet_List uid : kv_quiet (ListConnectedProviders uid).
Proof. unfold ListConnectedProviders, ListMethodsByUserID, listMethods. repeat kv_step. Qed.
Lemma kv_quiet_Authenticate m credential : kv_quiet (Authenticate m credential).
Proof.
  destruct m; cbn [Authenticate]; unfold bootstrap_Authenticate, stub_Authenticate, oidc_Authenticate, oauth2_Authenticate, xuuid_NewString;
    repeat kv_step.
Qed.

(** *** The other users of the key-value server *)

Lemma kv_quiet_Add jti ttl : kv_quiet (Add jti ttl).
Proof. unfold Add. repeat kv_step. apply kv_quiet_kv. intros now l. by apply secrets_put. Qed.
Lemma secrets_sessions now ttl ids l :
  secrets (fold_left (fun l id => kv_put (sessionKeyPrefix +:+ uuid_String id) (KVText "1") (now + ttl) l) ids l) = secrets l.
Proof. revert l. induction ids as [|id ids IH]; intros l; simpl; [done|]. rewrite IH. by apply secrets_put. Qed.
Lemma kv_quiet_AddSessions ttl ids : kv_quiet (AddSessions ttl ids).
Proof. unfold AddSessions. repeat kv_step. apply kv_quiet_kv. intros now l. apply secrets_sessions. Qed.
Lemma kv_quiet_IsRevoked jti sid : kv_quiet (IsRevoked jti sid).
Proof. unfold IsRevoked. repeat kv_step. by apply kv_quiet_kv. Qed.
Lemma kv_quiet_Acquire key ttl : kv_quiet (Acquire key ttl).
Proof.
  intros ctx w. unfold Acquire. cbv zeta. set (m := _ ≫= _). assert (kv_quiet m) as Hm.
  { subst m. repeat kv_step. apply kv_quiet_kv. intros now l. case_bool_decide; [done|]. by apply secrets_put. }
  apply (Hm ctx (tick w)).
Qed.
Lemma kv_quiet_Release key token : kv_quiet (Release (mkLock (lockPrefix +:+ key) token)).
Proof.
  unfold Release. repeat kv_step. apply kv_quiet_kv. intros now l. case_bool_decide; [|done]. by apply secrets_del.
Qed.
Hint Resolve kv_quiet_Add kv_quiet_AddSessions kv_quiet_IsRevoked kv_quiet_Acquire : kv.

Lemma kv_quiet_revoke p : kv_quiet (revoke p).
Proof. unfold revoke. repeat kv_step. Qed.
Lemma kv_quiet_Save t : kv_quiet (Save t).
Proof. unfold Save. repeat kv_step. Qed.
Lemma kv_quiet_locked {A} userID (m : M A) : kv_quiet m -> kv_quiet (withUserSessionsLocked userID m).
Proof. intros Hm. unfold withUserSessionsLocked, LockUserSessions, AdvisoryXactLockOn. repeat first [apply Hm|kv_step]. Qed.
Hint Resolve kv_quiet_revoke kv_quiet_Save kv_quiet_locked : kv.

Lemma kv_quiet_token X (op : TokenOp X) : kv_quiet (token_handle cfg X op).
Proof.
  destruct op; cbn [token_handle]; unfold revoke_by_token_tx, RevokeFamily, RevokeByUserID, RevokeByUserIDExceptFamily;
    repeat first [apply kv_quiet_locked|kv_step];
    unfold TokenStore.GetByTokenHash, GetByTokenHashForUpdate, HasLiveToken, rotate_tx, PruneExpiredBefore, LockUserSessions,
      AdvisoryXactLockOn, TokenStore.Rotate, TokenStore.get, GenerateToken; repeat kv_step.
Qed.
Lemma kv_quiet_tokens {A} (p : Prog TokenOp A) : kv_quiet (exec (token_handle cfg) p).
Proof. apply kv_quiet_exec, kv_quiet_token. Qed.
Hint Resolve kv_quiet_tokens : kv.

Lemma kv_quiet_Upsert userID phc : kv_quiet (UpsertPassword userID phc).
Proof. unfold UpsertPassword. repeat kv_step. Qed.
Hint Resolve kv_quiet_Upsert : kv.
Lemma kv_quiet_otp X (op : OtpOp X) : kv_quiet (otp_handle codes X op).
Proof.
  destruct op; cbn [otp_handle]; unfold GenerateToken, GenerateOTPCode, issue_in_tx, claimSlot, sealForDelivery,
    GetUnconsumedOTPByUserIDForUpdate, GetUnconsumedOTPByUserID, ConsumeOTP, ClaimOTPAttempt, PruneOTPExpiredBefore, Credentials.Create,
    Credentials.get; repeat kv_step.
Qed.

(** Every call of the authentication service but giving back a lock, which
    deletes whatever key it is told. *)
Lemma kv_quiet_auth X (op : AuthOp X) :
  match op with ARelease _ => True | _ => kv_quiet (auth_handle cfg codes X op) end.
Proof.
  destruct op; cbn [auth_handle]; [apply kv_quiet_token|apply kv_quiet_otp|..|]; try done;
    unfold GetPasswordByUserID, Credentials.get, HashPassword, install_tx; repeat kv_step.
Qed.
End ops.

(** ** What was parked and what was taken *)

Definition put_of (e : Event) : option (string * KVValue) :=
  match e with
  | Ev _ op r =>
      match op in DanceOp X return outcome X -> option (string * KVValue) with
      | DPutCode code entry => fun r => match r with Ok _ => Some (codeKey code, KVDanceCode entry) | _ => None end
      | DPutLinkTicket ticket intent => fun r => match r with Ok _ => Some (linkKey ticket, KVLinkIntent intent) | _ => None end
      | DPutLinkCode code link => fun r => match r with Ok _ => Some (linkCodeKey code, KVPendingLink link) | _ => None end
      | _ => fun _ => None
      end r
  end.
Definition take_of (e : Event) : option (string * KVValue) :=
  match e with
  | Ev _ op r =>
      match op in DanceOp X return outcome X -> option (string * KVValue) with
      | DConsumeCode code => fun r => match r with Ok (Some c) => Some (codeKey code, KVDanceCode c) | _ => None end
      | DConsumeLinkTicket ticket => fun r => match r with Ok (Some i) => Some (linkKey ticket, KVLinkIntent i) | _ => None end
      | DConsumeLinkCode code => fun r => match r with Ok (Some l) => Some (linkCodeKey code, KVPendingLink l) | _ => None end
      | _ => fun _ => None
      end r
  end.
Definition parked (tr : list Event) : list (string * KVValue) := omap put_of tr.
Definition taken (tr : list Event) : list (string * KVValue) := omap take_of tr.
(** How many of them under one key. *)
Definition under (key : string) (l : list (string * KVValue)) : nat := length (List.filter (fun p => String.eqb (fst p) key) l).
Definition entries (key : string) (l : list KVEntry) : nat := length (List.filter (fun e => String.eqb (kv_Key e) key) l).

(** What was taken had been parked, as often as it was taken, and what is still
    there has not been taken. *)
Definition accounted (w : World) (tr : list Event) : Prop :=
  (∀ key, is_secret key = true -> (under key (taken tr) + entries key (w_kv w) <= under key (parked tr))%nat) ∧
  (∀ e, e ∈ secrets (w_kv w) -> (kv_Key e, kv_Value e) ∈ parked tr) ∧
  taken tr ⊆ parked tr.

Lemma under_app key l l' : under key (l ++ l') = (under key l + under key l')%nat.
Proof. unfold under. by rewrite List.filter_app, length_app. Qed.

Lemma entries_secrets key l : is_secret key = true -> entries key l = entries key (secrets l).
Proof.
  intros Hk. unfold entries, secrets. induction l as [|e l IH]; [done|]. simpl.
  destruct (String.eqb_spec (kv_Key e) key) as [Ee|Ne].
  - rewrite Ee, Hk. simpl. apply String.eqb_eq in Ee. rewrite Ee. simpl. by rewrite IH.
  - destruct (is_secret (kv_Key e)); [|done]. simpl. apply String.eqb_neq in Ne. by rewrite Ne.
Qed.

Lemma entries_del key key' l : entries key (kv_del key' l) = if String.eqb key key' then 0%nat else entries key l.
Proof.
  unfold entries, kv_del. destruct (String.eqb_spec key key') as [<-|Ne].
  - induction l as [|e l IH]; [done|]. simpl. destruct (String.eqb_spec (kv_Key e) key) as [Ee|Ne]; simpl; [done|].
    apply String.eqb_neq in Ne. by rewrite Ne.
  - induction l as [|e l IH]; [done|]. simpl. destruct (String.eqb_spec (kv_Key e) key') as [Ee|Nk]; simpl.
    + rewrite Ee. apply not_eq_sym, String.eqb_neq in Ne. by rewrite Ne.
    + destruct (String.eqb (kv_Key e) key); simpl; by rewrite IH.
Qed.

Lemma del_subset key l e : e ∈ kv_del key l -> e ∈ l.
Proof. by intros [? _]%elem_of_List_filter. Qed.

Lemma secrets_elem l e : e ∈ secrets l ↔ e ∈ l ∧ is_secret (kv_Key e) = true.
Proof. unfold secrets. by rewrite elem_of_List_filter. Qed.

Lemma parked_snoc tr e : parked (tr ++ [e]) = parked tr ++ option_list (put_of e).
Proof. apply omap_snoc. Qed.
Lemma taken_snoc tr e : taken (tr ++ [e]) = taken tr ++ option_list (take_of e).
Proof. apply omap_snoc. Qed.

(** A call that parks nothing, takes nothing and leaves the entries alone. *)
Lemma accounted_quiet w w' tr e :
  secrets (w_kv w') = secrets (w_kv w) -> put_of e = None -> take_of e = None -> accounted w tr -> accounted w' (tr ++ [e]).
Proof.
  intros Hs Hp Ht (H1 & H2 & H3). unfold accounted. rewrite parked_snoc, taken_snoc, Hp, Ht. simpl. rewrite !app_nil_r.
  split_and!; [|by rewrite Hs|done]. intros key Hk. rewrite entries_secrets, Hs, <- entries_secrets by done. by apply H1.
Qed.

(** SET *)
Lemma accounted_put w w' tr e key v exp :
  is_secret key = true -> w_kv w' = kv_put key v exp (w_kv w) -> put_of e = Some (key, v) -> take_of e = None ->
  accounted w tr -> accounted w' (tr ++ [e]).
Proof.
  intros Hk Hw Hp Ht (H1 & H2 & H3). unfold accounted. rewrite parked_snoc, taken_snoc, Hp, Ht, Hw. cbn [option_list]. rewrite app_nil_r.
  split_and!; [| |set_solver].
  - intros k Hks. specialize (H1 k Hks). rewrite under_app. unfold kv_put, entries in *. simpl. unfold under at 3. simpl.
    change (List.filter (fun e0 => negb (String.eqb (kv_Key e0) key)) (w_kv w)) with (kv_del key (w_kv w)).
    pose proof (entries_del k key (w_kv w)) as Hd. unfold entries in Hd.
    destruct (String.eqb_spec key k) as [->|Ne]; simpl; [rewrite String.eqb_refl in Hd; lia|].
    apply not_eq_sym, String.eqb_neq in Ne. rewrite Ne in Hd. lia.
  - intros en [He Hs]%secrets_elem. unfold kv_put in He. apply elem_of_cons in He as [->|He]; [set_solver|]. apply elem_of_app. left. apply H2, secrets_elem.
    split; [by eapply del_subset|done].
Qed.

(** GETDEL *)
Lemma accounted_take w w' tr e key :
  is_secret key = true -> w_kv w' = kv_del key (w_kv w) -> put_of e = None ->
  (∀ p, take_of e = Some p -> ∃ en, en ∈ w_kv w ∧ kv_Key en = key ∧ p = (key, kv_Value en)) ->
  accounted w tr -> accounted w' (tr ++ [e]).
Proof.
  intros Hk Hw Hp Ht (H1 & H2 & H3). unfold accounted. rewrite parked_snoc, taken_snoc, Hp, Hw. cbn [option_list]. rewrite app_nil_r.
  assert (∀ p, take_of e = Some p -> p ∈ parked tr ∧ p.1 = key ∧ (1 <= entries key (w_kv w))%nat) as Ht'.
  { intros p (en & Hin & Hke & ->)%Ht. split_and!; [|done|].
    - rewrite <- Hke. apply H2, secrets_elem. by rewrite Hke.
    - unfold entries. assert (en ∈ List.filter (fun e0 => String.eqb (kv_Key e0) key) (w_kv w)) as Hf
        by (apply elem_of_List_filter; split; [done|by apply String.eqb_eq]).
      destruct (List.filter _ _); [by apply not_elem_of_nil in Hf|simpl; lia]. }
  split_and!.
  - intros k Hks. specialize (H1 k Hks). rewrite under_app, entries_del. unfold under at 2.
    destruct (take_of e) as [p|] eqn:Et; simpl.
    + destruct (Ht' p eq_refl) as (_ & Ek & Hone). rewrite Ek. rewrite (String.eqb_sym k key).
      destruct (String.eqb_spec key k) as [<-|]; simpl; lia.
    + destruct (String.eqb k key); lia.
  - intros en [He Hs]%secrets_elem. apply H2, secrets_elem. split; [by eapply del_subset|done].
  - destruct (take_of e) as [p|]; simpl; [|by rewrite app_nil_r]. destruct (Ht' p eq_refl) as (Hin & _). set_solver.
Qed.

(** ** Requests *)

Inductive DanceRequest :=
  | QStart (provider invitationToken linkTicket binding : string)
  | QCallback (cb : DanceCallback) (meta : AuditMetadata)
  | QRedeem (code proof : string)
  | QMintTicket (userID : UUID) (provider : string)
  | QCompleteLink (cmd : CompleteLinkCmd)
  | QDisconnect (cmd : DisconnectProviderCmd)
  | QBreakGlass (cmd : LoginWithBreakGlassCmd)
  | QDevSignIn (cmd : DevSignInCmd).
Inductive DanceResult :=
  | ResStart (s : DanceStart) | ResOutcome (o : DanceOutcome) | ResRedeemed (p : option TokenPair) | ResTicket (t : string)
  | ResSession (p : TokenPair) | ResDone.

Section requests.
Context `{Jwt} `{Unicode} (cfg : JWTConfig) (key : list ascii) (danceStateTTL : Duration).

Definition serve_dance (q : DanceRequest) : Prog DanceOp DanceResult :=
  match q with
  | QStart provider token ticket binding => s ← StartDance key danceStateTTL provider token ticket binding; mret (ResStart s)
  | QCallback cb meta => o ← CompleteDance cfg key cb meta; mret (ResOutcome o)
  | QRedeem code proof => p ← RedeemDanceCode code proof; mret (ResRedeemed p)
  | QMintTicket userID provider => t ← MintLinkTicket userID provider; mret (ResTicket t)
  | QCompleteLink cmd => CompleteLink cmd;; mret ResDone
  | QDisconnect cmd => DisconnectProvider cmd;; mret ResDone
  | QBreakGlass cmd => p ← LoginWithBreakGlass cfg cmd; mret (ResSession p)
  | QDevSignIn cmd => p ← DevSignIn cfg cmd; mret (ResSession p)
  end.

(** None of them gives back a lock. *)
Definition no_release (X : Type) (op : DanceOp X) : Prop := match op with DAuth (ARelease _) => False | _ => True end.
Definition auth_no_release (X : Type) (op : AuthOp X) : Prop := match op with ARelease _ => False | _ => True end.

Ltac call_step :=
  cbv zeta;
  match goal with
  | |- calls_only _ (_ ≫= _) => apply calls_only_bind; [|intros ?]
  | |- calls_only _ (mret _) => constructor
  | |- calls_only _ (PRet _) => constructor
  | |- calls_only _ (PErr _) => constructor
  | |- calls_only _ (call _) => constructor; [exact I|intros [?|?]; constructor]
  | |- calls_only _ (call_wrap _ _) => constructor; [exact I|intros [?|?]; constructor]
  | |- calls_only _ (try_call _) => constructor; [exact I|intros [?|?]; constructor]
  | |- calls_only _ (prog_try _) => apply calls_only_try
  | |- calls_only _ (prog_wrap _ _) => apply calls_only_wrap
  | |- calls_only _ (tok _) => by apply calls_only_map
  | |- calls_only _ (da _) => apply calls_only_map_strong with auth_no_release; [by intros ? []|]
  | |- calls_only _ (match ?x with _ => _ end) => destruct x
  | |- calls_only _ (auth_publishAudit _) => unfold auth_publishAudit
  | |- calls_only _ (publishLoginFailure _ _ _) => unfold publishLoginFailure
  | |- calls_only _ (dance_publishLoginFailure _ _ _) => unfold dance_publishLoginFailure
  end.

Lemma issue_no_release user ip : calls_only auth_no_release (IssueTokenPair cfg user ip).
Proof. unfold IssueTokenPair. repeat call_step. Qed.

Lemma serve_no_release q : calls_only no_release (serve_dance q).
Proof.
  destruct q; cbn [serve_dance];
    unfold StartDance, verifyLinkTicket, danceGatewayFor, mintInvitationHandle, time_Now, CompleteDance, isOurDance, verifyDanceOrigin,
      refuseDance, issueDanceCode, verifyProviderCredential, parkLink, resolveInvitation, resolveSignInUser, claimInvitation,
      issueSignInPair, RedeemDanceCode, MintLinkTicket, CompleteLink, refuseLink, publishLinked, publishLinkRefused,
      publishLinkRefusedFor, DisconnectProvider, hasBuiltinSignIn, HasPassword, LoginWithBreakGlass, DevSignIn, SignInWithVerifiedClaims,
      resolveSignInUser, issueSignInPair;
    repeat first [apply issue_no_release|progress unfold time_Now, danceGatewayFor|call_step].
Qed.

Lemma redeemed_follows q es p :
  follows (serve_dance q) es (PRet (ResRedeemed (Some p))) ->
  ∃ code proof i b, q = QRedeem code proof ∧ Ev i (DConsumeCode code) (Ok (Some (mkDanceCode (Some p) b))) ∈ es ∧
    proof ≠ ""%string ∧ b = bindingOf proof.
Proof.
  destruct q as [| |code proof| | | | |]; cbn [serve_dance]; intros (es1 & es2 & a & -> & Hf & Hr)%follows_bind_inv;
    apply follows_ret_inv in Hr as [-> [=]]; subst. unfold RedeemDanceCode in Hf.
  apply follows_bind_inv in Hf as (es1' & es2 & [[dp b]|] & -> & (i & ->)%follows_call_wrap_inv & Hf);
    [|by apply follows_ret_inv in Hf as [_ [=]]].
  cbn [dc_Binding dc_Pair] in Hf. unfold danceBindingProven in Hf. destruct (String.eqb b "" || String.eqb proof "") eqn:Ee;
    [by apply follows_ret_inv in Hf as [_ [=]]|]. apply orb_false_iff in Ee as [_ Hne%String.eqb_neq].
  destruct (String.eqb_spec (bindingOf proof) b); cbn [negb] in Hf; apply follows_ret_inv in Hf as [-> [=]]; subst.
  exists code, proof, i, (bindingOf proof). split_and!; [done|set_solver|done|done].
Qed.
End requests.

Section interleaved.
Context `{Env} `{Collation} `{Goque} `{LicenseCache} `{SeatGuard} `{Sealer} `{Entropy} `{Jwt} `{Ozzo} `{Argon2}.
Context `{AuthMethodFlags} `{Unicode} `{IdentityProviders} `{LiveMethods}.
Context (cfg : JWTConfig) (codes : Otp.Service) (key : list ascii) (danceStateTTL : Duration) (allowOpenSignup : bool).
Notation handler := (dance_handle cfg codes danceStateTTL allowOpenSignup).

Lemma codeKey_secret c : is_secret (codeKey c) = true.
Proof. done. Qed.
Lemma linkKey_secret c : is_secret (linkKey c) = true.
Proof. done. Qed.
Lemma linkCodeKey_secret c : is_secret (linkCodeKey c) = true.
Proof. done. Qed.

(** A SET fails without effect, or parks. *)
Lemma set_run f k v ttl ctx w r w' :
  wrap_err f (kv_set k v ttl) ctx w = (r, w') ->
  (w_kv w' = w_kv w ∧ ∀ u, r ≠ Ok u) ∨ (r = Ok tt ∧ ∃ exp, w_kv w' = kv_put k v exp (w_kv w)).
Proof.
  unfold wrap_err, kv_set, kv. destruct (env_fault _); intros [= <- <-]; [by left|]. right. split; [done|]. simpl. eauto.
Qed.

(** A GETDEL fails without effect, or deletes, and answers what was there. *)
Lemma take_run {A} (read : KVValue -> option A) (inj : A -> KVValue) f what k ctx w r w' :
  (∀ v a, read v = Some a -> v = inj a) ->
  (raw ← wrap_err f (kv_getdel k); unmarshal read what raw) ctx w = (r, w') ->
  (w_kv w' = w_kv w ∧ ∀ a, r ≠ Ok (Some a)) ∨
  (w_kv w' = kv_del k (w_kv w) ∧ ∀ a, r = Ok (Some a) -> ∃ en, en ∈ w_kv w ∧ kv_Key en = k ∧ kv_Value en = inj a).
Proof.
  intros Hinj. unfold mbind, M_bind, wrap_err, kv_getdel, kv. destruct (env_fault _); [intros [= <- <-]; by left|].
  unfold unmarshal, kv_get. destruct (List.find _ _) as [en|] eqn:Ef; simpl; [|intros [= <- <-]; by right].
  apply List.find_some in Ef as [Hin%list_elem_of_In [Hk%String.eqb_eq _]%andb_prop].
  destruct (read (kv_Value en)) as [a|] eqn:Er; intros [= <- <-]; right; (split; [done|]); intros a' [= <-]; eauto.
Qed.

(** The two kinds of calls, for any of the three kinds of secrets. *)
Ltac parks :=
  match goal with Hrun : _ = (?r, _) |- _ =>
    destruct (set_run _ _ _ _ _ _ _ _ Hrun) as [[Hkv Hr]|[-> [exp Hkv]]]; [|eapply accounted_put; [|exact Hkv|reflexivity|done|done]; done];
    eapply accounted_quiet; [by rewrite Hkv| |done|done]; destruct r as [u| |]; try done; by destruct (Hr u)
  end.
Ltac takes inj secret :=
  match goal with Hrun : _ = (?r, _) |- _ =>
    eapply (take_run _ inj) in Hrun as [[Hkv Hr]|[Hkv Hr]]; [| |by intros [] ?; naive_solver];
    [ eapply accounted_quiet; [by rewrite Hkv|done| |done]; destruct r as [[c|]| |]; try done; by destruct (Hr c)
    | eapply accounted_take; [apply secret|exact Hkv|done| |done];
      let p := fresh in let Hp := fresh in intros p Hp; destruct r as [[c|]| |]; try done;
      injection Hp as <-; let E := fresh in destruct (Hr c eq_refl) as (en & ? & ? & E); exists en; split_and!; [done..|by rewrite E] ]
  end.

Lemma accounted_step w tr i X (op : DanceOp X) r w' :
  no_release X op -> accounted w tr -> handler X op background w = (r, w') -> accounted w' (tr ++ [Ev i op r]).
Proof.
  intros Hn Ha Hrun.
  assert (kv_quiet (handler X op) -> put_of (Ev i op r) = None -> take_of (Ev i op r) = None -> accounted w' (tr ++ [Ev i op r])) as Hq.
  { intros Hquiet Hp Ht. specialize (Hquiet background w). rewrite Hrun in Hquiet. by eapply accounted_quiet. }
  destruct op; cbn [dance_handle] in *.
  - apply Hq; [|done..]. pose proof (kv_quiet_auth cfg codes _ op) as Hau. by destruct op.
  - apply Hq; [|done..]. apply kv_quiet_idp.
  - by apply Hq.
  - by apply Hq.
  - by apply Hq.
  - apply Hq; [|done..]. apply kv_quiet_Authenticate.
  - parks.
  - takes KVDanceCode codeKey_secret.
  - parks.
  - apply Hq; [|done..]. unfold PeekLinkTicket, decodeLinkIntent, unmarshal, kv_read. repeat kv_step. by apply kv_quiet_kv.
  - takes KVLinkIntent linkKey_secret.
  - parks.
  - takes KVPendingLink linkCodeKey_secret.
  - apply Hq; [|done..]. unfold PrepareHandle, PutInvitationHandle, kv_set, InvitationStore.GetByTokenHash, InvitationStore.get.
    repeat kv_step. apply kv_quiet_kv. intros now l. by apply secrets_put.
  - apply Hq; [|done..]. unfold ResolveForIdentity, ConsumeInvitationHandle, kv_getdel, InvitationStore.GetByID, InvitationStore.get,
      found_or_invalid, live_or_invalid, reject_if. repeat kv_step. apply kv_quiet_kv. intros now l. by apply secrets_del.
  - apply Hq; [|done..]. apply kv_quiet_Claim.
  - apply Hq; [|done..]. apply kv_quiet_GetOrCreate.
  - apply Hq; [|done..]. apply kv_quiet_Link.
  - apply Hq; [|done..]. apply kv_quiet_Unlink.
  - apply Hq; [|done..]. apply kv_quiet_List.
  - apply Hq; [|done..]. apply kv_quiet_BreakGlass.
Qed.

(** A taken entry has been parked. *)
Lemma taken_code_parked tr i code c :
  taken tr ⊆ parked tr -> Ev i (DConsumeCode code) (Ok (Some c)) ∈ tr ->
  ∃ j code', Ev j (DPutCode code' c) (Ok tt) ∈ tr ∧ codeKey code' = codeKey code.
Proof.
  intros Hsub Hev. assert ((codeKey code, KVDanceCode c) ∈ parked tr) as Hin.
  { apply Hsub. unfold taken. apply list_elem_of_omap. eexists. split; [exact Hev|done]. }
  unfold parked in Hin. apply list_elem_of_omap in Hin as ([j X op r] & Hj & Hp). destruct op; try done; destruct r as [[]| |]; try done;
    cbn [put_of] in Hp; apply (inj Some), pair_equal_spec in Hp as [Hk Hc]; try discriminate.
  injection Hc as <-. eauto.
Qed.

(** C17. What a dance hands over is handed over once.  However the requests of
    the dances interleave, from a server that holds no codes: under every key of
    a sign-in code, a link ticket or a link code, the number of times it was
    redeemed is at most the number of times something was parked there, and what
    was redeemed is what was parked.  And whoever is answered a pair of tokens
    for a code has named a code that was parked with that very pair, and has
    shown a proof whose hash is the binding the callback saw. *)
Theorem secrets_redeemed_once w0 c :
  secrets (w_kv w0) = [] ->
  reachable handler (fun p => ∃ q, p = serve_dance cfg key danceStateTTL q) w0 c ->
  (∀ k, is_secret k = true -> (under k (taken (cf_trace c)) <= under k (parked (cf_trace c)))%nat) ∧
  taken (cf_trace c) ⊆ parked (cf_trace c) ∧
  (∀ i p, cf_threads c !! i = Some (PRet (ResRedeemed (Some p))) -> ∃ n code proof j code',
     proof ≠ ""%string ∧ Ev n (DConsumeCode code) (Ok (Some (mkDanceCode (Some p) (bindingOf proof)))) ∈ cf_trace c ∧
     Ev j (DPutCode code' (mkDanceCode (Some p) (bindingOf proof))) (Ok tt) ∈ cf_trace c ∧ codeKey code' = codeKey code).
Proof.
  intros Hempty Hr. assert (accounted (cf_world c) (cf_trace c)) as (Hle & _ & Hsub).
  { eapply (reachable_inv_calls _ _ _ no_release accounted); [exact Hr| |split_and!; simpl|].
    - intros p [q ->]. apply serve_no_release.
    - intros k Hk. by rewrite entries_secrets, Hempty.
    - rewrite Hempty. set_solver.
    - done.
    - intros w tr i X op r w' Hn Ha Hrun. by eapply accounted_step. }
  split_and!; [intros k Hk; specialize (Hle k Hk); lia|done|].
  intros i p Hi. destruct (reachable_follows _ _ _ _ Hr _ _ Hi) as (p0 & [q ->] & Hf).
  apply redeemed_follows in Hf as (code & proof & n & b & _ & Hev & Hp & ->).
  assert (Ev n (DConsumeCode code) (Ok (Some (mkDanceCode (Some p) (bindingOf proof)))) ∈ cf_trace c) as Hev'
    by (unfold thread_events in Hev; apply list_elem_of_filter in Hev; tauto).
  destruct (taken_code_parked _ _ _ _ Hsub Hev') as (j & code' & Hj & Hk). exists n, code, proof, j, code'. auto.
Qed.
End interleaved.

(** ** Two browsers with the same code *)

Definition ex_code : string := "FhYWFhYWFhYWFhYWFhYWFhYWFhYWFhYWFhYWFhYWFhY".
Definition ex_requests : list DanceRequest :=
  [QCallback ex_callback (clientMeta "203.0.113.7" "browser"); QRedeem ex_code "browser-1"; QRedeem ex_code "browser-1"].
Definition ex_redemptions : Conf :=
  run_schedule ex_dance_handle (@serve_dance ex_jwt ex_unicode ex_jwt_cfg ex_dance_key ex_state_ttl <$> ex_requests) ex_dance_world
    (repeat 0 17 ++ [2; 1])%nat.

Lemma secrets_redeemed_once_witness :
  under (codeKey ex_code) (taken (cf_trace ex_redemptions)) = 1%nat ∧
  cf_threads ex_redemptions !! 1%nat = Some (PRet (ResRedeemed None)) ∧
  ∃ p, cf_threads ex_redemptions !! 2%nat = Some (PRet (ResRedeemed (Some p))) ∧
    ∃ j code' proof, Ev j (DPutCode code' (mkDanceCode (Some p) (bindingOf proof))) (Ok tt) ∈ cf_trace ex_redemptions.
Proof.
  split; [vm_compute; reflexivity|]. split; [vm_compute; reflexivity|].
  assert (∃ p, cf_threads ex_redemptions !! 2%nat = Some (PRet (ResRedeemed (Some p)))) as [p Hp]
    by (eexists; vm_compute; reflexivity). exists p. split; [exact Hp|].
  destruct (@secrets_redeemed_once calm_env c_collation list_goque ex_cap license_guard ex_sealer ex_draws ex_jwt ex_ozzo ex_argon2
    ex_flags ex_unicode ex_idp ex_live ex_jwt_cfg (Otp.NewService ex_otp_cfg) ex_dance_key ex_state_ttl false ex_dance_world
    ex_redemptions eq_refl) as (_ & _ & Hall).
  - apply run_schedule_reachable. repeat constructor; by eexists.
  - destruct (Hall _ _ Hp) as (n & code & proof & j & code' & _ & _ & Hj & _). exists j, code', proof. exact Hj.
Defined.
