(* ===== verification/IdentitySpec.v ===== *)
(** * What provider identities promise

    Who may be given an account by signing in ([GetOrCreate_guarded]), that
    unlinking never takes the last way in ([unlink_never_strands]), and what the
    list of allowed domains does to a token. *)
From Stdlib Require Import ZArith Lia Ascii String.
From stdpp Require Import base sorting sets strings numbers list.
From S2P Require Import Prelude Go Entity Conflict AuditTrail Schema Logic Dbtx Interleave Like Validation MaintStore Fixtures.
From S2P Require Import UserStore License Queue Sessions Kinds AuthMethods SessionSpec Users Identities UserSpec BlockSpec InvitationSpec.
From S2P Require Import DanceFixtures.
Open Scope Z_scope.

(** ** The statements *)

(** The row of a login provider. *)
Definition provider_id (provider : AuthMethod) (db : DB) : option UUID :=
  is_ID <$> List.find (is_integration CategoryLogin provider) (integration_settings db).

(** The account an identity leads to. *)
Definition known (provider : AuthMethod) (subject : string) (user : User) (db : DB) : Prop := ∃ integration i row,
  provider_id provider db = Some integration ∧ i ∈ user_identities db ∧ is_subject integration subject i = true ∧
  find_user (ui_UserID i) db = Some row ∧ user = fromDBUser row.
Definition unknown (provider : AuthMethod) (subject : string) (db : DB) : Prop := ∃ integration,
  provider_id provider db = Some integration ∧ ∀ i, i ∈ user_identities db -> is_subject integration subject i = false.

Section statements.
Context `{Env}.

Lemma wrapped_unconnected s e : errors_Is (Errorf s e) ErrProviderNotConnected = errors_Is e ErrProviderNotConnected.
Proof. apply Errorf_is. Qed.

Lemma ResolveID_run name ctx w r w' :
  ResolveID name ctx w = (r, w') ->
  w_db w' = w_db w ∧
  match r with
  | Ok id => provider_id name (w_db w) = Some id
  | Err e => errors_Is e ErrProviderNotConnected = false
  | Panic _ => True
  end.
Proof.
  unfold ResolveID, GetByKindName, integration_fromDB, provider_id, mbind, M_bind, wrap_err, query, sql.
  destruct (env_fault (w_step w)) as [f|]; [intros [= <- <-]; split; [done|by destruct f]|].
  destruct (List.find _ _) as [row|]; simpl; [|by intros [= <- <-]].
  destruct (decode_secrets _); by intros [= <- <-].
Qed.

Lemma integrationID_run name ctx w r w' :
  integrationID name ctx w = (r, w') ->
  w_db w' = w_db w ∧
  match r with
  | Ok id => provider_id name (w_db w) = Some id
  | Err e => errors_Is e ErrProviderNotConnected = false
  | Panic _ => True
  end.
Proof.
  unfold integrationID, mbind, M_bind, attempt. destruct (ResolveID name ctx w) as [r0 w1] eqn:E. apply ResolveID_run in E as [Hdb Hr].
  destruct r0 as [id|e|s]; [by intros [= <- <-]| |by intros [= <- <-]].
  destruct (errors_Is e ErrIntegrationNotFound); intros [= <- <-]; (split; [done|]); [done|]. by rewrite wrapped_unconnected.
Qed.

Lemma get_identity_run where_ ctx w r w' :
  get_identity where_ ctx w = (r, w') ->
  w_db w' = w_db w ∧
  match r with
  | Ok i => ∃ row, row ∈ user_identities (w_db w) ∧ where_ row = true ∧ i = identity_fromDB row
  | Err e => errors_Is e ErrProviderNotConnected = true -> ∀ row, row ∈ user_identities (w_db w) -> where_ row = false
  | Panic _ => True
  end.
Proof.
  unfold get_identity, mbind, M_bind, query, sql.
  destruct (env_fault (w_step w)) as [f|]; [intros [= <- <-]; split; [done|by destruct f]|].
  destruct (List.find _ _) as [row|] eqn:Ef; intros [= <- <-]; (split; [done|]).
  - apply find_some in Ef as [Hin Hw]. exists row. by rewrite list_elem_of_In.
  - intros _ row Hin. rewrite list_elem_of_In in Hin. by apply (find_none _ _ Ef).
Qed.

Lemma GetByID_run id ctx w r w' :
  UserStore.GetByID id ctx w = (r, w') ->
  w_db w' = w_db w ∧
  match r with
  | Ok u => ∃ row, find_user id (w_db w) = Some row ∧ u = fromDBUser row
  | Err e => errors_Is e ErrProviderNotConnected = false
  | Panic _ => True
  end.
Proof.
  unfold UserStore.GetByID, UserStore.get, mbind, M_bind, query, sql.
  destruct (env_fault (w_step w)) as [f|]; [intros [= <- <-]; split; [done|by destruct f]|].
  destruct (find_user id (w_db w)) as [row|]; intros [= <- <-]; (split; [done|]); [eauto|done].
Qed.

Lemma getUserByIdentity_run provider subject ctx w r w' :
  getUserByIdentity provider subject ctx w = (r, w') ->
  w_db w' = w_db w ∧
  match r with
  | Ok u => known provider subject u (w_db w)
  | Err e => errors_Is e ErrProviderNotConnected = true -> unknown provider subject (w_db w)
  | Panic _ => True
  end.
Proof.
  unfold getUserByIdentity, GetByMethodSubject, mbind, M_bind, wrap_err.
  destruct (integrationID provider ctx w) as [[id|e|s] w1] eqn:E1; apply integrationID_run in E1 as [Hdb1 Hid];
    [|intros [= <- <-]; split; [done|congruence]|by intros [= <- <-]].
  destruct (get_identity _ ctx w1) as [[i|e|s] w2] eqn:E2; apply get_identity_run in E2 as [Hdb2 Hi]; rewrite Hdb1 in *;
    [|intros [= <- <-]; split; [done|]; rewrite wrapped_unconnected; intros He; exists id; by split; [|apply Hi]|by intros [= <- <-]].
  destruct Hi as (row & Hin & Hw & ->).
  destruct (UserStore.GetByID _ ctx w2) as [[u|e|s] w3] eqn:E3; apply GetByID_run in E3 as [Hdb3 Hu]; rewrite Hdb2 in *;
    intros [= <- <-]; (split; [done|]); [|rewrite wrapped_unconnected; congruence|done].
  destruct Hu as (urow & Hf & ->). by exists id, row, urow.
Qed.
End statements.

(** ** Signing in *)

(** Everything a first sign-in adds: one account, new in its id and its address,
    with the roles a newcomer has and those the policy grants; and one identity,
    that of the provider's subject, which nobody had, for this account. *)
Definition signed_up (provider : AuthMethod) (info : OAuthProviderUserInfo) (granted : list Role) (user : User) (db db' : DB) : Prop :=
  ∃ row i,
    unknown provider (pi_ID info) db ∧
    (∀ r, r ∈ users db -> ur_ID r ≠ ur_ID row ∧ ur_Email r ≠ pi_Email info) ∧
    users db' = users db ++ [row] ∧ user_identities db' = user_identities db ++ [i] ∧
    user = fromDBUser row ∧ ur_Email row = pi_Email info ∧ ur_Name row = pi_Name info ∧ ur_BlockedAt row = None ∧
    ur_Roles row = DefaultRoles ++ missing_roles granted (newUser (pi_Email info) (pi_Name info) DefaultRoles) ∧
    provider_id provider db = Some (ui_IntegrationID i) ∧ ui_UserID i = ur_ID row ∧ ui_Subject i = pi_ID info.

Section signing_in.
Context `{Env} `{Goque} `{Collation} `{LicenseCache} `{SeatGuard} `{!PlainGuard} (allowOpenSignup : bool).

Lemma CreateUser_Ok email name roles ctx w user w' :
  UserStore.Create (newUser email name roles) ctx w = (Ok user, w') ->
  ∃ row, user = fromDBUser row ∧ w_db w' = (w_db w) <| users := users (w_db w) ++ [row] |> ∧
    ur_Email row = email ∧ ur_Name row = name ∧ ur_BlockedAt row = None ∧ ur_Roles row = roles ∧
    ∀ r, r ∈ users (w_db w) -> ur_ID r ≠ ur_ID row ∧ ur_Email r ≠ email.
Proof.
  intros (db' & Hf & ->)%sql_Ok. apply require_Ok in Hf as [_ Hf]. apply require_Ok in Hf as [Hfresh%negb_true_iff Hf].
  injection Hf as <- <-. eexists. do 6 (split; [done|]). intros r Hin.
  rewrite <- not_true_iff_false, existsb_exists in Hfresh. rewrite list_elem_of_In in Hin.
  split; intros Heq; apply Hfresh; exists r; (split; [done|]); apply orb_true_iff; [left; by apply N.eqb_eq|right; by apply String.eqb_eq].
Qed.

Lemma CreateIdentity_Ok i ctx w x w' :
  CreateIdentity i ctx w = (Ok x, w') ->
  ∃ row, w_db w' = (w_db w) <| user_identities := user_identities (w_db w) ++ [row] |> ∧
    ui_UserID row = id_UserID i ∧ ui_IntegrationID row = id_IntegrationID i ∧ ui_Subject row = id_Subject i ∧
    ∀ r, r ∈ user_identities (w_db w) -> identity_clash row r = false.
Proof.
  unfold CreateIdentity. intros (r & w1 & Hc%attempt_Ok & Hrun)%bind_Ok. destruct r as [row|e]; [|by destruct (dbtx_ErrorIs _ _)].
  injection Hrun as <- <-. apply sql_Ok in Hc as (db' & Hf & ->). apply require_Ok in Hf as [Hfresh%negb_true_iff Hf].
  apply require_Ok in Hf as [_ Hf]. injection Hf as <- <-. eexists. do 4 (split; [done|]). intros r Hin.
  apply not_true_iff_false. intros Hcl. rewrite <- not_true_iff_false, existsb_exists in Hfresh. apply Hfresh.
  exists r. by rewrite <- list_elem_of_In.
Qed.

Lemma createWithIdentity_Ok provider info granted t w user w' :
  unknown provider (pi_ID info) (w_db w) ->
  createWithIdentity provider info granted (mkCtx (Some t)) w = (Ok user, w') ->
  signed_up provider info granted user (w_db w) (w_db w').
Proof.
  intros Hun. unfold createWithIdentity, createIdentity. intros (u & w1 & Hu%wrap_err_Ok & Hrun)%bind_Ok.
  apply CreateUser_Ok in Hu as (row & -> & Hdb1 & Hemail & Hname & Hblk & Hroles & Hfresh).
  apply bind_Ok in Hrun as ([] & w2 & (integ & w3 & [Hdb3 Hint]%integrationID_run & Hid)%wrap_err_Ok%bind_Ok & Hrun).
  apply bind_Ok in Hid as (x & w4 & Hid & [= <-]). apply CreateIdentity_Ok in Hid as (i & Hdb4 & Hiu & Hii & His & _). simpl in Hiu, Hii, His.
  assert (provider_id provider (w_db w) = Some (ui_IntegrationID i)) as Hp by (rewrite Hii; by rewrite Hdb1 in Hint).
  destruct (Nat.eqb_spec (length granted) 0) as [->%nil_length_inv|Hne].
  { injection Hrun as <- <-. exists row, i. rewrite Hdb4, Hdb3, Hdb1. split_and!; try done. }
  apply wrap_err_Ok in Hrun.
  assert (users_blind (fun db => user_identities db = user_identities (w_db w4))) as Hk by (split; intros ???; assumption).
  pose proof (proj1 (keeps_run _ _ _ _ _ _ _ (keeps_AssignRoles _ _ Hk) Hrun eq_refl)) as Hids. cbv beta in Hids.
  apply AssignRoles_Ok in Hrun as (urow & Hfind & Hcase). rewrite Hdb4, Hdb3, Hdb1 in *. unfold find_user in Hfind. simpl in Hfind, Hcase, Hids.
  rewrite find_user_last in Hfind by (done || intros r Hr; by apply Hfresh). injection Hfind as <-.
  assert (missing_roles granted (fromDBUser row) = missing_roles granted (newUser (pi_Email info) (pi_Name info) DefaultRoles))
    as Hm by (unfold missing_roles; simpl; by rewrite Hroles).
  destruct (granted_to_last granted row (users (w_db w)) (users (w_db w')) user Hblk ltac:(intros r Hr; by apply Hfresh))
    as (new & Hus & -> & Hnid & Hne' & Hnn & Hnb & Hnr).
  { destruct Hcase as [([= _ Hp2 _] & ? & ?)|[[= _ Hp2 _] ?]]; rewrite Hp2; [left|right]; done. }
  exists new, i. rewrite Hnid. split_and!; try done; try congruence.
  by rewrite Hnr, Hroles, Hm.
Qed.

Lemma get_or_create_Ok provider info policy t w user w' :
  get_or_create_in_tx allowOpenSignup provider info policy (mkCtx (Some t)) w = (Ok user, w') ->
  (w_db w' = w_db w ∧ known provider (pi_ID info) user (w_db w)) ∨
  ((AllowCreate policy || allowOpenSignup) = true ∧
   signed_up provider info (if AllowCreate policy then GrantRoles policy else []) user (w_db w) (w_db w')).
Proof.
  unfold get_or_create_in_tx. intros (r & w1 & Hget%attempt_Ok & Hrun)%bind_Ok.
  destruct r as [u|e]; apply getUserByIdentity_run in Hget as [Hdb Hr]; [injection Hrun as <- <-; by left|].
  destruct (errors_Is e ErrProviderNotConnected); [|done]. right. specialize (Hr eq_refl). rewrite <- Hdb in Hr.
  unfold createByPolicy in Hrun. destruct (AllowCreate policy); [|destruct allowOpenSignup; [|done]];
    (split; [done|]); rewrite <- Hdb; by apply createWithIdentity_Ok with t.
Qed.

(** Signing in through a provider creates an account only where it may.
    Either the users and the identities are as they were, and a user who is
    returned is the one to whom the provider's subject already belonged; or
    nobody had that subject, creating was allowed by an invitation or by open
    signup, and exactly one user and one identity were added: a new account, with
    an address nobody had, the roles of a newcomer plus those the policy grants
    (none without an invitation), tied to this subject.  No sign-in ties an
    identity to an account that existed, or changes one. *)
Theorem GetOrCreate_guarded provider info policy w r w' :
  GetOrCreateByAuthInfo allowOpenSignup provider info policy background w = (r, w') ->
  (users (w_db w') = users (w_db w) ∧ user_identities (w_db w') = user_identities (w_db w) ∧
   ∀ user, r = Ok user -> known provider (pi_ID info) user (w_db w)) ∨
  ∃ user, r = Ok user ∧ (AllowCreate policy || allowOpenSignup) = true ∧
    signed_up provider info (if AllowCreate policy then GrantRoles policy else []) user (w_db w) (w_db w').
Proof.
  unfold GetOrCreateByAuthInfo. intros Hrun. unfold mbind at 1, M_bind, reject_if in Hrun.
  destruct (negb _); [injection Hrun as <- <-; by left|]. cbn [mret M_ret] in Hrun. unfold mbind, M_bind, attempt in Hrun.
  destruct (WithinTx _ background w) as [rx w1] eqn:Etx.
  apply WithinTx_cases in Etx as [(e & -> & Hdb)|(user & w2 & -> & Hdb & _ & Hbody)].
  - destruct (errors_Is e ErrProviderAlreadyConnected); [|injection Hrun as <- <-; left; by rewrite Hdb].
    apply getUserByIdentity_run in Hrun as [Hdb2 Hr]. left. rewrite Hdb2, Hdb in *. split_and!; [done..|]. by intros user ->.
  - injection Hrun as <- <-. apply get_or_create_Ok in Hbody as [[Hsame Hk]|[Hallow Hup]]; rewrite Hdb; [left|right].
    + rewrite Hsame. split_and!; [done..|]. by intros ? [= <-].
    + by exists user.
Qed.
End signing_in.

(** ** Unlinking *)

(** What the constraints of the two tables say: keys and names are unique, a user
    has at most one identity of a provider, and every identity refers to a login
    provider. *)
Record identities_ok (db : DB) : Prop := {
  ok_names : ∀ r r', r ∈ integration_settings db -> r' ∈ integration_settings db ->
    is_Kind r = CategoryLogin -> is_Kind r' = CategoryLogin -> is_Name r = is_Name r' -> is_ID r = is_ID r';
  ok_keys : ∀ r r', r ∈ integration_settings db -> r' ∈ integration_settings db -> is_ID r = is_ID r' -> r = r';
  ok_methods : NoDup ((fun r => (ui_UserID r, ui_IntegrationID r)) <$> user_identities db);
  ok_refers : ∀ i, i ∈ user_identities db -> ∃ r, r ∈ integration_settings db ∧ is_ID r = ui_IntegrationID i ∧ is_Kind r = CategoryLogin }.

Definition of_owner (userID : UUID) (i : IdentityRow) : bool := N.eqb (ui_UserID i) userID.

Section unlinking.
Context `{Env}.

(** At most one identity of a user bears a name. *)
Lemma one_of_a_name db userID name i j :
  identities_ok db -> i ∈ user_identities db -> j ∈ user_identities db -> ui_UserID i = userID -> ui_UserID j = userID ->
  named_provider name db i = true -> named_provider name db j = true -> i = j.
Proof.
  intros [Hn Hk Hm Hr] Hi Hj <- Hu (r & Hir & [E1%N.eqb_eq E1'%String.eqb_eq]%andb_prop)%existsb_exists
    (s & Hjs & [E2%N.eqb_eq E2'%String.eqb_eq]%andb_prop)%existsb_exists. rewrite <- list_elem_of_In in Hir, Hjs.
  destruct (Hr i Hi) as (r' & Hr' & Ei & Ki). destruct (Hr j Hj) as (s' & Hs' & Ej & Kj).
  rewrite (Hk r' r) in * by congruence. rewrite (Hk s' s) in * by congruence.
  apply (NoDup_fmap_2_elem _ _ _ _ Hm Hi Hj). f_equal; [done|]. rewrite <- E1, <- E2. apply Hn; congruence.
Qed.

Lemma drop_one {A} (p : A -> bool) (l : list A) :
  NoDup l -> (∀ x y, x ∈ l -> y ∈ l -> p x = true -> p y = true -> x = y) ->
  (length l <= S (length (List.filter (fun x => negb (p x)) l)))%nat.
Proof.
  induction 1 as [|x l Hx Hnd IH]; intros Hone; simpl; [lia|]. destruct (p x) eqn:Ex; simpl; [|apply le_n_S, IH; set_solver].
  rewrite (proj2 (List.filter_ext_in_iff _ (fun _ => true) l)), filter_true; [done|].
  intros y Hy%list_elem_of_In. apply negb_true_iff, not_true_iff_false. intros Ey.
  destruct Hx. rewrite (Hone x y); [done|set_solver..].
Qed.

Lemma filter_split {A} (o n : A -> bool) (l : list A) :
  List.filter o (List.filter (fun x => negb (o x && n x)) l) = List.filter (fun x => negb (n x)) (List.filter o l) ∧
  List.filter (fun x => negb (o x)) (List.filter (fun x => negb (o x && n x)) l) = List.filter (fun x => negb (o x)) l.
Proof.
  split; induction l as [|x l IH]; simpl; try done; destruct (o x) eqn:Eo, (n x) eqn:En; simpl; rewrite ?Eo, ?En; simpl; by rewrite ?IH.
Qed.

(** Unlinking never strands an account.  In a database that keeps its
    constraints, whatever happens the identities of everybody else are as they
    were; a refusal or a failure changes none; a success removes those of the
    owner that bear the provider's name and no others, and unless the caller has
    found another way in for the owner, at least one identity is left. *)
Theorem unlink_never_strands userID provider keepsSignIn w r w' :
  identities_ok (w_db w) -> UnlinkIdentity userID provider keepsSignIn background w = (r, w') ->
  let mine db := List.filter (of_owner userID) (user_identities db) in
  let others db := List.filter (fun i => negb (of_owner userID i)) (user_identities db) in
  others (w_db w') = others (w_db w) ∧
  match r with
  | Ok _ => mine (w_db w') = List.filter (fun i => negb (named_provider provider (w_db w) i)) (mine (w_db w)) ∧
            (keepsSignIn = false -> mine (w_db w') ≠ [])
  | _ => user_identities (w_db w') = user_identities (w_db w)
  end.
Proof.
  intros Hok Hrun mine others. apply WithinTx_cases in Hrun as [(e & -> & Hdb)|(a & w2 & -> & Hdb & _ & Hbody)];
    [by unfold others; rewrite Hdb|].
  unfold unlink_in_tx in Hbody. apply bind_Ok in Hbody as (u & w3 & [-> _]%wrap_err_Ok%get_user_run & Hbody).
  apply bind_Ok in Hbody as (count & w4 & (-> & Hdb4 & _)%wrap_err_Ok%query_Ok & Hbody).
  apply bind_Ok in Hbody as (? & w5 & [Hrej ->]%reject_if_Ok & Hdel%wrap_err_Ok).
  apply sql_Ok in Hdel as (db' & [= <- <-] & ->). simpl in *. rewrite Hdb, Hdb4. unfold mine, others in *. simpl.
  destruct (filter_split (of_owner userID) (named_provider provider (w_db w)) (user_identities (w_db w))) as [Hmine Hothers].
  unfold of_owner in Hmine, Hothers at 1. split; [exact Hothers|]. split; [exact Hmine|]. intros ->. rewrite andb_true_r in Hrej.
  apply Z.leb_gt in Hrej. unfold of_owner at 1. rewrite Hmine. intros Hnil.
  pose proof (drop_one (named_provider provider (w_db w)) (List.filter (of_owner userID) (user_identities (w_db w)))) as Hd.
  change (fun i : IdentityRow => (ui_UserID i =? userID)%N) with (of_owner userID) in Hnil. rewrite Hnil in Hd. assert (Z.of_nat (length (List.filter (of_owner userID) (user_identities (w_db w)))) <= 1); [|unfold of_owner in *; lia].
  apply (inj_le _ 1), Hd.
  - apply NoDup_ListNoDup, List.NoDup_filter, NoDup_ListNoDup. eapply NoDup_fmap_1, Hok.
  - intros i j [Hi Oi%N.eqb_eq]%elem_of_List_filter [Hj Oj%N.eqb_eq]%elem_of_List_filter. by apply one_of_a_name with userID.
Qed.
End unlinking.

(** ** Tokens of an OpenID Connect provider *)

Section tokens.
Context `{Env} `{IdentityProviders} `{Ozzo} `{!OzzoSpec}.

(** C19. An id token signs in only an identity its issuer vouches for.  If one is
    accepted, the provider was resolved and verified the token, its address is not
    empty and the issuer asserted it as verified, and the hosted domain is one of
    the allowed ones; when none is listed, the token carries no domain at all. *)
Theorem oidc_accepts_only_vouched s idToken ctx w claims w' :
  oidc_Authenticate s idToken ctx w = (Ok claims, w') ->
  idp_verifier (w_step w) s = None ∧ ∃ subject payload,
    idp_verify (S (w_step w)) s idToken = inl (subject, inl payload) ∧
    claims = mkOAuthClaims subject (it_Email payload) (it_Name payload) true ∧ it_Email payload ≠ ""%string ∧
    emailVerified (it_EmailVerified payload) = inl true ∧
    match oi_AllowedHostedDomains s with
    | [] => it_HostedDomain payload = ""%string
    | domains => it_HostedDomain payload ∈ domains
    end.
Proof.
  unfold oidc_Authenticate. intros (r & w1 & [= <- <-] & Hrun)%bind_Ok. destruct (idp_verifier _ s); [done|]. split; [done|].
  apply bind_Ok in Hrun as (r & w2 & [= <- <-] & Hrun). simpl in Hrun.
  destruct (idp_verify _ s idToken) as [[subject [payload|e]]|e]; [|done|by destruct (idp_expired e)].
  destruct (emailVerified _) as [verified|e] eqn:Ev; [|done].
  apply bind_Ok in Hrun as (? & w3 & [Hc%negb_false_iff ->]%reject_if_Ok & Hrun).
  apply bind_Ok in Hrun as (? & w3 & [Hv%negb_false_iff ->]%reject_if_Ok & Hrun). injection Hrun as <- _. subst verified.
  exists subject, payload. unfold validateClaims in Hc.
  apply andb_prop in Hc as [[Hm Hreq]%andb_prop Hin%In_string_spec]. apply Required_string_spec in Hm.
  split_and!; try done. destruct (oi_AllowedHostedDomains s) as [|d ds]; [set_solver|].
  destruct Hin as [Hin|Hin]; [|done]. apply Required_string_spec in Hreq. done.
Qed.

(** A token with a hosted domain is refused when no domain is listed, though
    its issuer verified it and an empty list is documented to mean no
    restriction. *)
Theorem oidc_no_domains_refuses s idToken subject payload ctx w :
  oi_AllowedHostedDomains s = [] -> idp_verifier (w_step w) s = None ->
  idp_verify (S (w_step w)) s idToken = inl (subject, inl payload) ->
  emailVerified (it_EmailVerified payload) = inl true -> it_HostedDomain payload ≠ ""%string ->
  ∃ err, fst (oidc_Authenticate s idToken ctx w) = Err (refusedToken err).
Proof.
  intros Hd Hr Hv He Hne. unfold oidc_Authenticate, mbind, M_bind, idp. rewrite Hr. simpl. rewrite Hv, He, Hd.
  replace (validateClaims payload []) with false; [simpl; eauto|]. symmetry. unfold validateClaims. simpl.
  apply andb_false_iff. right. apply not_true_iff_false. rewrite In_string_spec. set_solver.
Qed.
End tokens.

(** ** Examples *)

Definition ex_info : OAuthProviderUserInfo := mkUserInfo "sub-2" "bob@example.com" "Bob".
#[local] Notation ex_sign_in invited :=
  (@GetOrCreateByAuthInfo calm_env list_goque c_collation ex_cap license_guard false AuthMethodGoogle ex_info
    (mkPolicy invited [RoleEditor]) background ex_dance_world).

Lemma GetOrCreate_guarded_witness : ∃ user w',
  ex_sign_in true = (Ok user, w') ∧ u_Roles user = [RoleGuest; RoleEditor] ∧ fst (ex_sign_in false) = Err (EJoin1 ErrSignupDisabled) ∧
  signed_up AuthMethodGoogle ex_info [RoleEditor] user (w_db ex_dance_world) (w_db w').
Proof.
  assert (∃ user w', ex_sign_in true = (Ok user, w') ∧ u_Roles user = [RoleGuest; RoleEditor] ∧ length (users (w_db w')) = 2%nat)
    as (user & w' & Hrun & Hroles & Hlen) by (eexists _, _; split_and!; (vm_compute; reflexivity)).
  exists user, w'. split; [exact Hrun|]. split; [exact Hroles|]. split; [vm_compute; reflexivity|].
  destruct (@GetOrCreate_guarded calm_env list_goque c_collation ex_cap license_guard _ false _ _ _ _ _ _ Hrun)
    as [(Hus & _)|(user' & [= <-] & _ & Hup)]; [by rewrite Hus in Hlen|exact Hup].
Defined.

(** With one identity the owner keeps it; with two, one may go. *)
Definition ex_linked_world : World :=
  ex_dance_world <| w_db := (w_db ex_dance_world)
    <| integration_settings := integration_settings (w_db ex_dance_world) ++
         [mkIntegrationRow 82 CategoryLogin true JNull JNull 0 T0 None T0 None AuthMethodGithub false] |>
    <| user_identities := user_identities (w_db ex_dance_world) ++ [mkIdentityRow 92 11 "7" "ann@example.com" T0 82] |> |>.
#[local] Notation ex_unlink := (@UnlinkIdentity calm_env 11 AuthMethodGithub false background ex_linked_world).

Lemma unlink_never_strands_witness : ∃ w',
  ex_unlink = (Ok tt, w') ∧ ui_ID <$> user_identities (w_db w') = [91%N] ∧
  fst (@UnlinkIdentity calm_env 11 AuthMethodGoogle false background w') = Err (EJoin1 ErrCannotDisconnectLastProvider) ∧
  List.filter (of_owner 11) (user_identities (w_db w')) ≠ [].
Proof.
  assert (∃ w', ex_unlink = (Ok tt, w') ∧ ui_ID <$> user_identities (w_db w') = [91%N] ∧
    fst (@UnlinkIdentity calm_env 11 AuthMethodGoogle false background w') = Err (EJoin1 ErrCannotDisconnectLastProvider))
    as (w' & Hrun & Hids & Hlast) by (exists (snd ex_unlink); split; [|split]; vm_compute; reflexivity).
  exists w'. split; [exact Hrun|]. split; [exact Hids|]. split; [exact Hlast|].
  refine (proj2 (proj2 (@unlink_never_strands calm_env _ _ _ _ _ _ _ Hrun)) eq_refl). split.
  - intros r r' Hr Hr'. cbn in Hr, Hr'. set_unfold. destruct Hr as [->|[->|[]]], Hr' as [->|[->|[]]]; done.
  - intros r r' Hr Hr'. cbn in Hr, Hr'. set_unfold. destruct Hr as [->|[->|[]]], Hr' as [->|[->|[]]]; done.
  - decide_now.
  - intros i Hi. cbn in Hi. set_unfold. destruct Hi as [->|[->|[]]]; [exists (mkIntegrationRow 81 CategoryLogin true JNull JNull 0 T0 None T0 None AuthMethodGoogle false)|
      exists (mkIntegrationRow 82 CategoryLogin true JNull JNull 0 T0 None T0 None AuthMethodGithub false)]; split_and!; set_solver.
Defined.

Lemma oidc_accepts_only_vouched_witness : ∃ claims w',
  @oidc_Authenticate ex_idp Validation.ex_ozzo ex_oidc "token" background ex_dance_world = (Ok claims, w') ∧
  oc_Email claims = "ann@example.com"%string ∧ @idp_verifier ex_idp 0 ex_oidc = None.
Proof.
  eexists _, _. match goal with |- ?E ∧ _ => assert E as Hrun by (vm_compute; reflexivity) end. split; [exact Hrun|].
  split; [reflexivity|]. exact (proj1 (@oidc_accepts_only_vouched ex_idp _ ex_ozzo_spec _ _ _ _ _ _ Hrun)).
Defined.

Lemma oidc_no_domains_refuses_witness : ∃ err,
  fst (@oidc_Authenticate ex_idp Validation.ex_ozzo
    (mkOIDC "" "https://accounts.example.com" "client" "secret" "https://maint.example.com/callback" ["openid"; "email"] [])
    "token" background ex_dance_world) = Err (refusedToken err).
Proof.
  eapply (@oidc_no_domains_refuses ex_idp _ ex_ozzo_spec); reflexivity || discriminate.
Defined.
