(* ===== verification/IntegrationStore.v ===== *)
(** * The registry's tables (internal/storages/integration, internal/storages/datakey)

    One definition per statement over integration_settings and data_keys.  The
    config and the secrets are jsonb: what is stored is [jsonb] of what was
    sent. *)
From Stdlib Require Import ZArith Lia Ascii String.
From stdpp Require Import base sorting sets strings numbers list.
From S2P Require Import Prelude Go Entity Conflict AuditTrail Schema Json Logic Dbtx MaintStore Users Identities.
Open Scope Z_scope.

(** ** apperr/integration.go, crypto.go *)

Definition ErrDataKeyNotFound := ESentinel "data key not found".
Definition ErrUnwrapDEK := ESentinel "failed to unwrap DEK".
Definition ErrIntegrationConflict := ESentinel "integration already exists for this kind and name".
Definition ErrIntegrationInUse := ESentinel "integration still has linked accounts; retry the delete".
Definition ErrIntegrationNameReserved := ESentinel "integration is managed by the config file; change it there and restart".
Definition ErrIntegrationDisabled := ESentinel "integration is disabled".
Definition ErrIntegrationNotConfigured := Errorf "not configured" ErrIntegrationDisabled.
Definition ErrIntegrationUnreadable := ESentinel "integration secrets unreadable".
Definition ErrUnknownIntegrationKind := Errorf "unknown integration kind" ErrValidation.

(** invalid_text_representation *)
Definition pgInvalidText : string := "22P02".
Definition AdvisoryLockKeyDEKRotation : Z := 3.
Definition AdvisoryLockKeyLoginProvisioning : Z := 4.

(** ** entity/data_key.go *)

Record DataKey := mkDataKey {
  key_ID : UUID; key_KEKID : string; key_EncryptedDEK : list ascii; key_Label : option string; key_CreatedAt : Time }.
Definition datakey_fromDB (r : DataKeyRow) : DataKey :=
  mkDataKey (dk_ID r) (dk_KekID r) (dk_EncryptedDek r) (dk_Label r) (dk_CreatedAt r).

(** ** mapper.go *)

(** [toDB]: nothing is the empty object. *)
Definition config_column (config : RawMessage) : option json :=
  match config with RawNone => Some (JObject []) | RawText j => Some (jsonb j) | RawBad => None end.
Definition secrets_column (secrets : list (string * string)) : json :=
  jsonb (JObject ((fun f => (f.1, JString f.2)) <$> secrets)).

Definition integration_clash (a b : IntegrationRow) : bool :=
  N.eqb (is_ID a) (is_ID b) || String.eqb (is_Kind a) (is_Kind b) && String.eqb (is_Name a) (is_Name b).
Definition find_key (id : UUID) (db : DB) : option DataKeyRow := List.find (fun k => N.eqb (dk_ID k) id) (data_keys db).
Definition key_exists (id : UUID) (db : DB) : bool := existsb (fun k => N.eqb (dk_ID k) id) (data_keys db).

Section stores.
Context `{Env}.

(** ** storages/datakey *)

Definition datakey_Create (dk : DataKey) : M DataKey :=
  row ← sql (fun s db =>
    let row := mkDataKeyRow (pg_uuid s 0) (key_KEKID dk) (key_EncryptedDEK dk) (key_Label dk) (pg_now s) in
    require (negb (key_exists (dk_ID row) db)) ErrPGUniqueViolation (Ok (row, db <| data_keys := data_keys db ++ [row] |>)));
  mret (datakey_fromDB row).
Definition datakey_GetByID (id : UUID) : M DataKey :=
  r ← query (find_key id);
  match r with
  | Some row => mret (datakey_fromDB row)
  | None => raise ErrDataKeyNotFound
  end.
Definition ListForUpdate : M (list DataKey) :=
  rows ← query data_keys;
  mret (datakey_fromDB <$> rows).
Definition LockRotation : M unit := AdvisoryXactLock AdvisoryLockKeyDEKRotation.
Definition rewrapped (encryptedDEK : list ascii) (kekID : string) (row : DataKeyRow) : DataKeyRow :=
  row <| dk_EncryptedDek := encryptedDEK |> <| dk_KekID := kekID |>.
Definition UpdateWrap (id : UUID) (encryptedDEK : list ascii) (kekID : string) : M unit :=
  affected ← sql (fun _ db =>
    Ok (key_exists id db,
        db <| data_keys := (fun r => if N.eqb (dk_ID r) id then rewrapped encryptedDEK kekID r else r) <$> data_keys db |>));
  reject_if (negb affected) ErrDataKeyNotFound.

(** ** storages/integration *)

Definition CreateSetting (s : IntegrationSetting) : M IntegrationSetting :=
  res ← attempt (sql (fun st db =>
    match config_column (in_Config s) with
    | None => Err (EPg pgInvalidText)
    | Some config =>
        let row := mkIntegrationRow (pg_uuid st 0) (in_Kind s) (in_Enabled s) config (secrets_column (in_Secrets s)) (in_DEKID s)
                     (pg_now st) (in_CreatedByUserID s) (pg_now st) (in_UpdatedByUserID s) (in_Name s) (in_Provisioned s) in
        require (negb (existsb (integration_clash row) (integration_settings db))) ErrPGUniqueViolation
          (require (key_exists (in_DEKID s) db) ErrPGForeignKeyViolation
             (Ok (row, db <| integration_settings := integration_settings db ++ [row] |>)))
    end));
  match res with
  | inl row => integration_fromDB row
  | inr err => if dbtx_ErrorIs err ErrPGUniqueViolation then raise ErrIntegrationConflict else raise err
  end.

(** GetForUpdateByKindName: the lock is the server's. *)
Definition GetForUpdateByKindName (kind name : string) : M IntegrationSetting := GetByKindName kind name.

Definition edited_setting (s : IntegrationSetting) (config : json) (at_ : Time) (row : IntegrationRow) : IntegrationRow :=
  row <| is_Enabled := in_Enabled s |> <| is_Config := config |> <| is_Secrets := secrets_column (in_Secrets s) |>
      <| is_DekID := in_DEKID s |> <| is_Provisioned := in_Provisioned s |> <| is_UpdatedAt := pg_ts at_ |>
      <| is_UpdatedByUserID := in_UpdatedByUserID s |>.
Definition UpdateSetting (s : IntegrationSetting) : M IntegrationSetting :=
  now ← UTCNow;
  r ← sql (fun _ db =>
    match config_column (in_Config s) with
    | None => Err (EPg pgInvalidText)
    | Some config =>
        match List.find (fun r => N.eqb (is_ID r) (in_ID s)) (integration_settings db) with
        | None => Ok (None, db)
        | Some old =>
            require (key_exists (in_DEKID s) db) ErrPGForeignKeyViolation
              (Ok (Some (edited_setting s config now old),
                   db <| integration_settings := (fun r => if N.eqb (is_ID r) (in_ID s) then edited_setting s config now r else r)
                           <$> integration_settings db |>))
        end
    end);
  match r with
  | Some row => integration_fromDB row
  | None => raise ErrIntegrationNotFound
  end.

(** user_identities refers to the row with ON DELETE RESTRICT. *)
Definition DeleteSetting (kind name : string) : M unit :=
  deleted ← sql (fun _ db =>
    let gone := List.filter (is_integration kind name) (integration_settings db) in
    require (negb (existsb (fun r => existsb (fun u => N.eqb (ui_IntegrationID u) (is_ID r)) (user_identities db)) gone))
      ErrPGForeignKeyViolation
      (Ok (length gone, db <| integration_settings := List.filter (fun r => negb (is_integration kind name r)) (integration_settings db) |>)));
  reject_if (Nat.eqb deleted 0) ErrIntegrationNotFound.

Definition released (at_ : Time) (row : IntegrationRow) : IntegrationRow :=
  row <| is_Provisioned := false |> <| is_Enabled := false |> <| is_UpdatedByUserID := None |> <| is_UpdatedAt := pg_ts at_ |>.
Definition ReleaseProvisioned (kind : string) (names : list string) : M unit :=
  match names with
  | [] => mret tt
  | _ =>
      now ← UTCNow;
      sql (fun _ db => Ok (tt, db <| integration_settings :=
        (fun r => if String.eqb (is_Kind r) kind && bool_decide (is_Name r ∈ names) then released now r else r)
          <$> integration_settings db |>))
  end.

(** list.go *)
Context `{Collation}.
Fixpoint from_rows (rows : list IntegrationRow) : M (list IntegrationSetting) :=
  match rows with
  | [] => mret []
  | r :: rows' => s ← integration_fromDB r; l ← from_rows rows'; mret (s :: l)
  end.
Definition ListSettings : M (list IntegrationSetting) :=
  rows ← query (fun db => sort_by (fun a b => pg_cmp (is_Kind a) (is_Kind b)) (integration_settings db));
  from_rows rows.
Definition ListByKind (kind : string) : M (list IntegrationSetting) :=
  rows ← query (fun db => sort_by (fun a b => pg_cmp (is_Name a) (is_Name b))
                            (List.filter (fun r => String.eqb (is_Kind r) kind) (integration_settings db)));
  from_rows rows.
End stores.
