(* ===== verification/Integrations.v ===== *)
(** * The registry of integrations (internal/services/integration,
      internal/services/dekrotator)

    Admins create, edit, toggle and delete connections to messengers, mail and
    login providers; the config file provisions others at startup.  Secrets are
    sealed under a data key of their row, bound to what they are the secret of;
    a rotation moves the data keys to another key of the instance. *)
From Stdlib Require Import ZArith Lia Ascii String.
From stdpp Require Import base sorting sets strings numbers list.
From S2P Require Import Prelude Go Entity Conflict AuditTrail Schema Json UrlGuard Logic Dbtx Crypto Validation MaintStore Queue Otp.
From S2P Require Import AuthMethods Kinds Secrets Users Identities IntegrationStore.
Open Scope Z_scope.

(** ** entity/integration.go *)

Record CreateIntegrationCmd := mkCreateIntegration {
  ci_Kind : string; ci_Name : string; ci_Enabled : option bool; ci_Config : RawMessage; ci_Secrets : RawMessage;
  ci_Actor : option User }.
Record UpdateIntegrationCmd := mkUpdateIntegration {
  up_Kind : string; up_Name : string; up_Enabled : option bool; up_Config : RawMessage; up_Secrets : RawMessage;
  up_Actor : option User }.
Record ToggleIntegrationCmd := mkToggleIntegration {
  ti_Kind : string; ti_Name : string; ti_Enabled : option bool; ti_Actor : option User }.
Record MaskedIntegration := mkMasked {
  mv_ID : UUID; mv_Kind : string; mv_Name : string; mv_Enabled : bool; mv_Config : RawMessage; mv_SecretsSet : list (string * bool);
  mv_Provisioned : bool; mv_CreatedAt : Time; mv_CreatedByUserID : option UUID; mv_UpdatedAt : Time; mv_UpdatedByUserID : option UUID }.
Definition Mask (s : IntegrationSetting) : MaskedIntegration :=
  mkMasked (in_ID s) (in_Kind s) (in_Name s) (in_Enabled s) (in_Config s) ((fun f => (f.1, true)) <$> in_Secrets s)
    (in_Provisioned s) (in_CreatedAt s) (in_CreatedByUserID s) (in_UpdatedAt s) (in_UpdatedByUserID s).

(** The decoding of one value: a plain secret, and a secret's intent, where a
    null is kept apart. *)
Definition intent_field (f : string * json) : option (string * option string) :=
  match f.2 with
  | JString s => Some (f.1, Some s)
  | JNull => Some (f.1, None)
  | _ => None
  end.
Definition decodeSecretsJSON {V} (field : string * json -> option (string * V)) (raw : RawMessage) : list (string * V) + error :=
  let refused err := inr (Errorf "secrets must be a JSON object" err) in
  match raw with
  | RawNone | RawText JNull => inl []
  | RawBad => refused bad_json
  | RawText (JObject fields) => match mapM field fields with
                                | Some m => inl (put_all strings_Compare m)
                                | None => refused wrong_type
                                end
  | RawText _ => refused wrong_type
  end.
Definition PlainSecrets (c : CreateIntegrationCmd) : list (string * string) + error := decodeSecretsJSON string_field (ci_Secrets c).
Definition SecretIntents (c : UpdateIntegrationCmd) : list (string * option string) + error :=
  decodeSecretsJSON intent_field (up_Secrets c).

(** ** config/login_providers.go, managed_entry.go *)

Record LoginFacts := mkFacts {
  lf_DisplayName : string; lf_IssuerURL : string; lf_AuthorizeURL : string; lf_TokenURL : string; lf_APIBaseURL : string }.
Definition Fields (f : LoginFacts) : list (string * string) :=
  List.filter (fun kv => negb (String.eqb kv.2 ""))
    [("issuer_url", lf_IssuerURL f); ("display_name", lf_DisplayName f); ("authorize_url", lf_AuthorizeURL f);
     ("token_url", lf_TokenURL f); ("api_base_url", lf_APIBaseURL f)]%string.
Definition ManagedByConfig : string := "config".
Record ManagedEntry := mkManaged {
  mg_ManagedBy : string; mg_Enabled : option bool; mg_Settings : list (string * json); mg_Secrets : list (string * string) }.
Record LoginProvider := mkLoginProvider { pv_Facts : LoginFacts; pv_Entry : ManagedEntry }.

(** ** registry.go *)

Definition Registry := list (string * Integration).
Fixpoint register (byName : Registry) (integrations : list Integration) : Registry + error :=
  match integrations with
  | [] => inl byName
  | i :: l =>
      if String.eqb (Name i) "" then inr (EOther "integration registry: empty name")
      else match go_lookup byName (Name i) with
           | Some _ => inr (EOther "integration registry: duplicate name")
           | None => register (byName ++ [(Name i, i)]) l
           end
  end.
Definition NewRegistry (integrations : list Integration) : Registry + error := register [] integrations.
Definition registry_get (r : Registry) (name : string) : Integration + error :=
  match go_lookup r name with Some i => inl i | None => inr (Errorf name ErrUnknownIntegrationKind) end.
Definition admit_pair (r : Registry) (category name : string) : unit + error :=
  match go_lookup r name with
  | None => inr (Errorf name ErrUnknownIntegrationKind)
  | Some i => if negb (String.eqb (in_Category i) category) then inr (Errorf name ErrValidation) else inl tt
  end.

Definition from_sum {A} (r : A + error) : M A := match r with inl a => mret a | inr err => raise err end.
(** [fmt.Errorf("%w: %w", apperr.ErrValidation, err)] *)
Definition invalid (err : error) : error := EJoin2 ErrValidation err.

(** ** secrets.go, settings and bindings *)
Section settings.
Context `{Ozzo} `{NetURL} (registry : Registry).

Definition rejectSecretKeysInConfig (i : Integration) (config : RawMessage) : unit + error :=
  match config with
  | RawNone => inl tt
  | RawBad => inr (Errorf "config" bad_json)
  | RawText j =>
      match unmarshal_map j with
      | None => inr (Errorf "config" wrong_type)
      | Some fields =>
          if existsb (fun key => match go_lookup (default [] fields) key with Some _ => true | None => false end) (SecretKeys i)
          then inr (EOther "config key is a secret and belongs in secrets") else inl tt
      end
  end.
Definition resolveSettings (name : string) (config : RawMessage) (plainSecrets : list (string * string)) : (Integration * Settings) + error :=
  and_then (registry_get registry name) (fun i =>
  and_then (or_wrap invalid (rejectSecretKeysInConfig i config)) (fun _ =>
  and_then (or_wrap invalid (Kinds.Parse i config plainSecrets)) (fun settings =>
  if Validate i settings then inl (i, settings) else inr (invalid validationErrors)))).

(** [secretAAD], the single path to the authenticated data. *)
Definition secretAAD (i : Integration) (settings : Settings) (key : string) : list ascii :=
  match AADBinding settings with
  | Some (issuerURL, clientID) => SecretAADForClient (Name i) key (NormalizeIssuer issuerURL) clientID
  | None => SecretAAD (Name i) key
  end.

(** [aadBindingOf]: the inputs of the AAD; the third field of the source's struct
    is read by no caller. *)
Definition aadBindingOf (i : Integration) (config : RawMessage) : option (string * string) :=
  match Kinds.Parse i config [] with
  | inr _ => None
  | inl settings => (fun b => (NormalizeIssuer b.1, b.2)) <$> AADBinding settings
  end.
Definition checkAADBindingStable (i : Integration) (current : IntegrationSetting) (cmd : UpdateIntegrationCmd)
    (incoming : list (string * option string)) : unit + error :=
  if negb (raw_present (up_Config cmd)) then inl tt
  else match aadBindingOf i (in_Config current), aadBindingOf i (up_Config cmd) with
       | Some stored, Some new =>
           if String.eqb stored.1 new.1 && String.eqb stored.2 new.2 then inl tt
           else
             let stranded key :=
               match go_lookup (in_Secrets current) key with
               | None => false
               | Some _ => match go_lookup incoming key with
                           | Some (Some v) => String.eqb v ""
                           | _ => true
                           end
               end in
             if existsb stranded (SecretKeys i) then inr (Errorf "changing issuer_url or client_id requires the secret" ErrValidation)
             else inl tt
       | _, _ => inl tt
       end.

(** ** presets.go *)
Context (loginProviders : list (string * LoginProvider)).

(** [None]: the name is not preset-backed.  The inner [None] is a nil map. *)
Definition presetAndConfig (name : string) (cfg : RawMessage) : option (LoginFacts * option (list (string * json))) + error :=
  match go_lookup registry name ≫= PresetKey with
  | None => inl None
  | Some key =>
      if String.eqb key "" then inl None
      else match go_lookup loginProviders key with
           | Some provider =>
               if Nat.eqb (length (Fields (pv_Facts provider))) 0 then inr (Errorf "no preset" ErrValidation)
               else match cfg with
                    | RawNone => inl (Some (pv_Facts provider, Some []))
                    | RawBad => inr (invalid bad_json)
                    | RawText j => match unmarshal_map j with
                                   | None => inr (invalid wrong_type)
                                   | Some None => inl (Some (pv_Facts provider, None))
                                   | Some (Some fields) => inl (Some (pv_Facts provider, Some fields))
                                   end
                    end
           | None => inr (Errorf "no preset" ErrValidation)
           end
  end.
(** The map is marshalled again. *)
Definition with_preset (preset : list (string * string)) (fields : list (string * json)) : json :=
  through_any (JObject (foldl (fun m kv => put strings_Compare kv.1 (JString kv.2) m) fields preset)).
Definition applyPreset (name : string) (cfg : RawMessage) : outcome RawMessage :=
  match presetAndConfig name cfg with
  | inr err => Err err
  | inl None => Ok cfg
  | inl (Some (_, None)) => Panic "assignment to entry in nil map"
  | inl (Some (preset, Some fields)) =>
      if existsb (fun kv => match go_lookup fields kv.1 with Some _ => true | None => false end) (Fields preset)
      then Err (Errorf "fixed by the preset and must not be supplied" ErrValidation)
      else Ok (RawText (with_preset (Fields preset) fields))
  end.
Definition enforcePreset (name : string) (cfg : RawMessage) : unit + error :=
  match presetAndConfig name cfg with
  | inr err => inr err
  | inl None => inl tt
  | inl (Some (preset, fields)) =>
      let got key := match go_lookup (default [] fields) key with Some (JString s) => s | _ => ""%string end in
      if existsb (fun kv => negb (String.eqb (got kv.1) kv.2)) (Fields preset)
      then inr (Errorf "fixed by the preset and cannot be changed" ErrValidation) else inl tt
  end.
End settings.

(** ** audit_changes.go *)

Definition configFields (config : RawMessage) : list (string * string) :=
  match config with
  | RawText j => match unmarshal_map j with
                 | Some (Some fields) =>
                     (fun f => (f.1, match f.2 with
                                     | JString s => s
                                     | JNull => ""%string
                                     | v => string_of_list_ascii (marshal v)
                                     end)) <$> fields
                 | _ => []
                 end
  | _ => []
  end.
Definition configChanges (before after : RawMessage) : list AuditFieldChange :=
  let old := configFields before in
  let neu := configFields after in
  let keys := sort_by strings_Compare (uniq (old.*1 ++ neu.*1)) in
  omap (fun key => let o := default ""%string (go_lookup old key) in
                   let n := default ""%string (go_lookup neu key) in
                   if String.eqb o n then None else Some (mkChange key o n)) keys.
Definition secretChanges (i : Integration) (intents : list (string * option string)) : list AuditFieldChange :=
  omap (fun key => (fun _ => mkChange ("secrets." +:+ key) "" "") <$> go_lookup intents key) (SecretKeys i).
Definition FormatBool (b : bool) : string := if b then "true" else "false".
Definition enabledChange (before after : bool) : list AuditFieldChange :=
  if Bool.eqb before after then [] else [mkChange "enabled" (FormatBool before) (FormatBool after)].

(** ** A call on the connection beside the transaction

    [fn] of a transaction that uses the outer context in between: what it writes
    there is committed at once, and a rollback does not take it back.  The part
    before it only reads. *)
Section beside.
Context `{Env}.

Definition tx_end {A} (saved : DB) (r : outcome A * World) : outcome A * World :=
  let fail err w := let '(err', w') := rollback saved err w in (Err err', w') in
  match r with
  | (Panic s, w) => fail (EJoin1 (EOther ("panic recovery: " +:+ s))) w
  | (Err fnErr, w) => fail (EJoin1 fnErr) w
  | (Ok a, w) =>
      match env_fault (w_step w) with
      | Some f => (Err (EJoin2 (EJoin1 (fault_error f)) ErrTxDone), tick w <| w_db := saved |>)
      | None => (Ok a, tick w)
      end
  end.
Definition WithinTx_beside {A B} (before : M A) (beside : A -> M unit) (after : A -> M B) : M B := fun ctx w =>
  match TxFromContext ctx with
  | Some _ => (a ← before; beside a;; after a) ctx w
  | None =>
      match env_fault (w_step w) with
      | Some f => (Err (fault_error f), tick w)
      | None =>
          let txCtx := mkCtx (Some (env_now (w_step w))) in
          match before txCtx (tick w) with
          | (Ok a, w1) =>
              match beside a ctx w1 with
              | (Ok _, w2) => tx_end (w_db w2) (after a txCtx w2)
              | (Err err, w2) => tx_end (w_db w2) (Err err, w2)
              | (Panic s, w2) => tx_end (w_db w2) (Panic s, w2)
              end
          | (Err err, w1) => tx_end (w_db w) (Err err, w1)
          | (Panic s, w1) => tx_end (w_db w) (Panic s, w1)
          end
      end
  end.
End beside.
#[global] Arguments tx_end : simpl never.

(** ** services/integration *)

Record provisionedEntry := mkProvisioned { pe_Enabled : bool; pe_Settings : Settings; pe_Config : RawMessage }.
Definition provisionedMap := list (Category * list (string * provisionedEntry)).
Record declaration := mkDeclaration {
  de_category : Category; de_name : string; de_entry : ManagedEntry; de_facts : list (string * string) }.

Section service.
Context `{Env} `{Collation} `{Goque} `{Ozzo} `{NetURL} `{Tink}.
Context (keyring : Keyring) (registry : Registry).
Context (loginProviders : list (string * LoginProvider)) (notifyTransports : list (string * ManagedEntry)).
Context (provisioned : provisionedMap).

(** audit_publish.go *)
Definition integration_publishAudit (action : AuditAction) : M unit := _ ← attempt (Publish action); mret tt.

(** service.go, [notifyChanged]: the listeners drop what they hold of the
    integration. *)
Definition notifyChanged (kind name : string) : M unit := emit (EvChanged kind name).

(** *** secrets.go *)

Definition newDEK : M (list ascii * UUID) :=
  dek ← at_step secrets_GenerateDEK;
  wrapped ← wrap_err (Errorf "wrap new dek") (at_step (fun n => WrapDEK keyring n dek));
  row ← datakey_Create (mkDataKey uuid_Nil wrapped.2 wrapped.1 None zeroTime);
  mret (dek, key_ID row).
Definition unwrapDEKFor (dekID : UUID) : M (list ascii) :=
  row ← wrap_err (Errorf "get dek") (datakey_GetByID dekID);
  wrap_err (EJoin2 ErrUnwrapDEK) (at_step (fun n => UnwrapDEK keyring n (key_EncryptedDEK row) (key_KEKID row))).
Definition sealSecret (i : Integration) (settings : Settings) (dek : list ascii) (key value : string) : M string :=
  envelope ← wrap_err (Errorf "encrypt secret") (at_step (fun n => Encrypt n dek (bytes value) (secretAAD i settings key)));
  mret (string_of_list_ascii (StdEncoding_EncodeToString envelope)).

Fixpoint encrypt_keys (i : Integration) (settings : Settings) (dek : list ascii) (plain : list (string * string)) (keys : list string)
    : M (list (string * string)) :=
  match keys with
  | [] => mret []
  | key :: keys' =>
      match go_lookup plain key with
      | Some v =>
          if String.eqb v "" then encrypt_keys i settings dek plain keys'
          else sealed ← sealSecret i settings dek key v;
               out ← encrypt_keys i settings dek plain keys';
               mret ((key, sealed) :: out)
      | None => encrypt_keys i settings dek plain keys'
      end
  end.
Definition encryptSecrets (i : Integration) (settings : Settings) (dek : list ascii) (plain : list (string * string))
    : M (list (string * string)) := encrypt_keys i settings dek plain (SecretKeys i).

Definition secretPresentSentinel : string := String (ascii_of_N 0) "present".

(** The loop, with the data key once it has been unwrapped; the stored map and
    the view. *)
Fixpoint merge_keys (i : Integration) (current : IntegrationSetting) (incoming : list (string * option string))
    (dek : option (list ascii)) (keys : list string) : M (list (string * string) * list (string * string)) :=
  match keys with
  | [] => mret ([], [])
  | key :: keys' =>
      match go_lookup incoming key with
      | None =>
          out ← merge_keys i current incoming dek keys';
          match go_lookup (in_Secrets current) key with
          | Some enc => mret ((key, enc) :: out.1, (key, secretPresentSentinel) :: out.2)
          | None => mret out
          end
      | Some None => merge_keys i current incoming dek keys'
      | Some (Some v) =>
          if String.eqb v "" then merge_keys i current incoming dek keys'
          else
            d ← match dek with Some d => mret d | None => unwrapDEKFor (in_DEKID current) end;
            settings ← wrap_err invalid (from_sum (Kinds.Parse i (in_Config current) []));
            sealed ← sealSecret i settings d key v;
            out ← merge_keys i current incoming (Some d) keys';
            mret ((key, sealed) :: out.1, (key, v) :: out.2)
      end
  end.
Definition mergeSecrets (i : Integration) (current : IntegrationSetting) (incoming : list (string * option string))
    : M (list (string * string) * list (string * string)) := merge_keys i current incoming None (SecretKeys i).

(** settings.go *)
Fixpoint decrypt_keys (i : Integration) (binding : Settings) (dek : list ascii) (stored : list (string * string)) (keys : list string)
    : list (string * string) + error :=
  match keys with
  | [] => inl []
  | key :: keys' =>
      match go_lookup stored key with
      | None => decrypt_keys i binding dek stored keys'
      | Some enc =>
          match StdEncoding_DecodeString (bytes enc) with
          | None => inr (Errorf "decode secret" (EOther "illegal base64 data"))
          | Some envelope =>
              and_then (or_wrap (Errorf "decrypt secret") (Decrypt dek envelope (secretAAD i binding key))) (fun value =>
              and_then (decrypt_keys i binding dek stored keys') (fun plain =>
              inl ((key, string_of_list_ascii value) :: plain)))
          end
      end
  end.
Definition decryptAllSecrets (i : Integration) (config : RawMessage) (dek : list ascii) (stored : list (string * string))
    : list (string * string) + error :=
  and_then (or_wrap (Errorf "parse config for secret binding") (Kinds.Parse i config [])) (fun binding =>
  decrypt_keys i binding dek stored (SecretKeys i)).

(** *** create.go *)

Definition validateCreateIntegrationCmd (cmd : CreateIntegrationCmd) : bool :=
  Required_string (ci_Kind cmd) && bool_decide (is_Some (ci_Enabled cmd)) && bool_decide (is_Some (ci_Actor cmd)).
Definition actor_id (actor : option User) : option UUID := u_ID <$> actor.

Definition create_in_tx (i : Integration) (settings : Settings) (cmd : CreateIntegrationCmd) (plain : list (string * string))
    : M IntegrationSetting :=
  dek ← newDEK;
  encrypted ← encryptSecrets i settings dek.1 plain;
  created ← attempt (CreateSetting (mkIntegration uuid_Nil (ci_Kind cmd) (ci_Name cmd) (default false (ci_Enabled cmd)) (ci_Config cmd)
                                      encrypted dek.2 false zeroTime (actor_id (ci_Actor cmd)) zeroTime None));
  integration_publishAudit (IntegrationCreated (ci_Actor cmd) (ci_Kind cmd) (ci_Name cmd) (default false (ci_Enabled cmd)));;
  from_sum created.
Definition Create (given : CreateIntegrationCmd) : M MaskedIntegration :=
  let cmd := mkCreateIntegration (ci_Kind given) (strings_TrimSpace (ci_Name given)) (ci_Enabled given) (ci_Config given)
               (ci_Secrets given) (ci_Actor given) in
  reject_if (negb (validateCreateIntegrationCmd cmd)) (invalid validationErrors);;
  plain ← wrap_err invalid (from_sum (PlainSecrets cmd));
  from_sum (admit_pair registry (ci_Kind cmd) (ci_Name cmd));;
  cfg ← lift (applyPreset registry loginProviders (ci_Name cmd) (ci_Config cmd));
  let cmd := mkCreateIntegration (ci_Kind cmd) (ci_Name cmd) (ci_Enabled cmd) cfg (ci_Secrets cmd) (ci_Actor cmd) in
  r ← from_sum (resolveSettings registry (ci_Name cmd) cfg plain);
  created ← WithinTx (create_in_tx r.1 r.2 cmd plain);
  notifyChanged (ci_Kind cmd) (ci_Name cmd);;
  mret (Mask created).

(** *** update.go, toggle.go *)

Definition refuseProvisioned (row : IntegrationSetting) : M unit :=
  reject_if (in_Provisioned row) (Errorf "provisioned" ErrIntegrationNameReserved).
Definition update_in_tx (kind name : string) (fn : IntegrationSetting -> M IntegrationSetting) : M IntegrationSetting :=
  current ← wrap_err (Errorf "get integration") (GetForUpdateByKindName kind name);
  refuseProvisioned current;;
  current ← wrap_err (Errorf "apply integration update") (fn current);
  wrap_err (Errorf "update integration") (UpdateSetting current).
Definition updateWithApply (kind name : string) (fn : IntegrationSetting -> M IntegrationSetting) : M IntegrationSetting :=
  integration ← WithinTx (update_in_tx kind name fn);
  notifyChanged kind name;;
  mret integration.

Definition applyUpdateIntegrationCmd (current : IntegrationSetting) (cmd : UpdateIntegrationCmd) : IntegrationSetting :=
  current <| in_Enabled := default (in_Enabled current) (up_Enabled cmd) |>
          <| in_Config := if raw_present (up_Config cmd) then up_Config cmd else in_Config current |>.
Definition validateUpdateIntegrationCmd (cmd : UpdateIntegrationCmd) : bool :=
  Required_string (up_Kind cmd) && bool_decide (is_Some (up_Actor cmd)).

Definition apply_update (i : Integration) (cmd : UpdateIntegrationCmd) (intents : list (string * option string))
    (current : IntegrationSetting) : M IntegrationSetting :=
  from_sum (if raw_present (up_Config cmd) then enforcePreset registry loginProviders (up_Name cmd) (up_Config cmd) else inl tt);;
  from_sum (checkAADBindingStable i current cmd intents);;
  let patched := applyUpdateIntegrationCmd current cmd in
  merged ← mergeSecrets i patched intents;
  let updated := patched <| in_Secrets := merged.1 |> <| in_UpdatedByUserID := actor_id (up_Actor cmd) |> in
  from_sum (resolveSettings registry (up_Name cmd) (in_Config updated) merged.2);;
  integration_publishAudit (IntegrationUpdated (up_Actor cmd) (up_Kind cmd) (up_Name cmd) (in_Enabled updated)
    (enabledChange (in_Enabled current) (in_Enabled updated) ++ configChanges (in_Config current) (in_Config updated) ++
     secretChanges i intents));;
  mret updated.
Definition Update (cmd : UpdateIntegrationCmd) : M MaskedIntegration :=
  reject_if (negb (validateUpdateIntegrationCmd cmd)) (invalid validationErrors);;
  intents ← wrap_err invalid (from_sum (SecretIntents cmd));
  i ← from_sum (registry_get registry (up_Name cmd));
  integration ← updateWithApply (up_Kind cmd) (up_Name cmd) (apply_update i cmd intents);
  mret (Mask integration).

Definition validateToggleIntegrationCmd (cmd : ToggleIntegrationCmd) : bool :=
  Required_string (ti_Kind cmd) && bool_decide (is_Some (ti_Enabled cmd)) && bool_decide (is_Some (ti_Actor cmd)).
(** The callback publishes with the context of the request, not with the
    transaction's. *)
Definition Toggle (cmd : ToggleIntegrationCmd) : M MaskedIntegration :=
  reject_if (negb (validateToggleIntegrationCmd cmd)) (invalid validationErrors);;
  integration ← WithinTx_beside
    (current ← wrap_err (Errorf "get integration") (GetForUpdateByKindName (ti_Kind cmd) (ti_Name cmd));
     refuseProvisioned current;;
     mret (current <| in_Enabled := default false (ti_Enabled cmd) |> <| in_UpdatedByUserID := actor_id (ti_Actor cmd) |>))
    (fun _ => integration_publishAudit (IntegrationUpdated (ti_Actor cmd) (ti_Kind cmd) (ti_Name cmd) (default false (ti_Enabled cmd)) []))
    (fun current => wrap_err (Errorf "update integration") (UpdateSetting current));
  notifyChanged (ti_Kind cmd) (ti_Name cmd);;
  mret (Mask integration).

(** *** delete.go *)

Definition unlinkIdentities (kind : string) (integrationID : UUID) : M Z :=
  if negb (String.eqb kind CategoryLogin) then mret 0
  else wrap_err (Errorf "unlink accounts") (DeleteByIntegrationID integrationID).
Definition delete_in_tx (kind name : string) (actor : option User) : M unit :=
  existing ← GetForUpdateByKindName kind name;
  refuseProvisioned existing;;
  unlinkIdentities kind (in_ID existing);;
  r ← attempt (DeleteSetting kind name);
  match r with
  | inr err => if dbtx_ErrorIs err ErrPGForeignKeyViolation then raise ErrIntegrationInUse else raise err
  | inl _ => integration_publishAudit (IntegrationDeleted actor kind name)
  end.
Definition Delete (kind name : string) (actor : option User) : M unit :=
  WithinTx (delete_in_tx kind name actor);;
  notifyChanged kind name.

(** *** get.go *)

Definition GetMasked (kind name : string) : M MaskedIntegration := setting ← GetByKindName kind name; mret (Mask setting).
Definition ListMasked : M (list MaskedIntegration) := settings ← ListSettings; mret (Mask <$> settings).

(** *** settings.go *)

Definition declared_entry (kind : Category) (name : string) : option provisionedEntry :=
  entries ← go_lookup provisioned kind;
  go_lookup entries name.
Definition servedFromConfig (kind : Category) (name : string) : option (Settings + error) :=
  (fun declared => if negb (pe_Enabled declared) then inr ErrIntegrationDisabled else inl (pe_Settings declared)) <$> declared_entry kind name.
Definition load_row (kind name : string) : M IntegrationSetting :=
  r ← attempt (GetByKindName kind name);
  match r with
  | inl setting => mret setting
  | inr err => if errors_Is err ErrIntegrationNotFound then raise (Errorf name ErrIntegrationNotConfigured)
               else raise (Errorf "settings" err)
  end.
Definition load_dek (dekID : UUID) : M (list ascii) :=
  wrap_err (fun err => if errors_Is err ErrDataKeyNotFound || errors_Is err ErrUnwrapDEK then EJoin2 ErrIntegrationUnreadable err
                       else Errorf "load dek" err) (unwrapDEKFor dekID).
Definition Settings_of (kind name : string) : M Settings :=
  match servedFromConfig kind name with
  | Some r => from_sum r
  | None =>
      setting ← load_row kind name;
      reject_if (negb (in_Enabled setting)) ErrIntegrationDisabled;;
      reject_if (in_Provisioned setting) (Errorf "declared in another replica's config" ErrIntegrationUnreadable);;
      i ← wrap_err (EJoin2 ErrIntegrationUnreadable) (from_sum (registry_get registry name));
      dek ← load_dek (in_DEKID setting);
      plain ← wrap_err (EJoin2 ErrIntegrationUnreadable) (from_sum (decryptAllSecrets i (in_Config setting) dek (in_Secrets setting)));
      wrap_err (EJoin2 ErrIntegrationUnreadable) (from_sum (Kinds.Parse i (in_Config setting) plain))
  end.

(** *** login_providers.go *)

Definition openSettings (i : Integration) (row : IntegrationSetting) : M Settings :=
  dek ← load_dek (in_DEKID row);
  plain ← wrap_err (EJoin2 ErrIntegrationUnreadable) (from_sum (decryptAllSecrets i (in_Config row) dek (in_Secrets row)));
  settings ← wrap_err invalid (from_sum (Kinds.Parse i (in_Config row) plain));
  reject_if (negb (Validate i settings)) (invalid validationErrors);;
  mret settings.
Definition resolveAndOpen (row : IntegrationSetting) : M Settings :=
  match go_lookup registry (in_Name row) with
  | None => raise (Errorf (in_Name row) ErrUnknownIntegrationKind)
  | Some i => openSettings i row
  end.
Definition openProvider (row : IntegrationSetting) : M ConfiguredProvider :=
  match declared_entry (in_Kind row) (in_Name row) with
  | Some declared => mret (mkConfigured (in_Name row) (pe_Enabled declared) (pe_Settings declared) false)
  | None =>
      if negb (in_Enabled row) && Nat.eqb (length (in_Secrets row)) 0 then mret (mkConfigured (in_Name row) (in_Enabled row) SetNil false)
      else
        r ← attempt (resolveAndOpen row);
        match r with
        | inl settings => mret (mkConfigured (in_Name row) (in_Enabled row) settings false)
        | inr _ => mret (mkConfigured (in_Name row) (in_Enabled row) SetNil true)
        end
  end.
Fixpoint open_all (rows : list IntegrationSetting) : M (list ConfiguredProvider) :=
  match rows with
  | [] => mret []
  | row :: rows' => p ← openProvider row; l ← open_all rows'; mret (p :: l)
  end.
Definition ListLoginProviders (kind : string) : M (list ConfiguredProvider) :=
  rows ← wrap_err (Errorf "list") (ListByKind kind);
  open_all rows.
End service.
