(* ===== verification/Provision.v ===== *)
(** * Provisioning and key rotation (internal/services/integration, provision.go;
      internal/services/dekrotator)

    At startup the config file's integrations are written into the registry,
    and the data keys are wrapped again under the active key. *)
From Stdlib Require Import ZArith Lia Ascii String.
From stdpp Require Import base sorting sets strings numbers list.
From S2P Require Import Prelude Go Entity Conflict AuditTrail Schema Json UrlGuard Logic Dbtx Crypto Validation MaintStore Queue Otp.
From S2P Require Import Kinds Secrets Users Identities IntegrationStore Integrations.
Open Scope Z_scope.

Definition provisionedCategories : list Category := [CategoryLogin; CategoryNotify].

(** ** What the file declares *)
Section declared.
Context `{Ozzo} `{NetURL} (registry : Registry).
Context (loginProviders : list (string * LoginProvider)) (notifyTransports : list (string * ManagedEntry)).

Definition declarations : list declaration :=
  ((fun p => mkDeclaration CategoryLogin p.1 (pv_Entry p.2) (Fields (pv_Facts p.2))) <$> loginProviders) ++
  ((fun t => mkDeclaration CategoryNotify t.1 t.2 []) <$> notifyTransports).

Definition refuseUnknownKeys (i : Integration) (cfg : json) : unit + error :=
  if decodes_strictly i cfg then inl tt else inr (invalid wrong_type).
(** The facts overwrite the settings of the same name. *)
Definition declared_config (decl : declaration) : json :=
  through_any (JObject (mg_Settings (de_entry decl) ++ ((fun f => (f.1, JString f.2)) <$> de_facts decl))).
Definition declaredSettings (i : Integration) (decl : declaration) : (json * list (string * string)) + error :=
  let literal key := match go_lookup (mg_Settings (de_entry decl)) key with Some _ => true | None => false end in
  if existsb literal (SecretKeys i) then inr (Errorf "must be a reference to the secrets file" ErrValidation)
  else
    let secrets := omap (fun key => (fun value => (key, value)) <$> go_lookup (mg_Secrets (de_entry decl)) key) (SecretKeys i) in
    and_then (refuseUnknownKeys i (declared_config decl)) (fun _ => inl (declared_config decl, secrets)).
Definition parseDeclaredEntry (decl : declaration) : provisionedEntry + error :=
  and_then (admit_pair registry (de_category decl) (de_name decl)) (fun _ =>
  and_then (registry_get registry (de_name decl)) (fun i =>
  and_then (declaredSettings i decl) (fun r =>
  if negb (default false (mg_Enabled (de_entry decl))) then inl (mkProvisioned false SetNil (RawText r.1))
  else and_then (resolveSettings registry (de_name decl) (RawText r.1) r.2) (fun s => inl (mkProvisioned true s.2 (RawText r.1)))))).

(** The entries of one category, and whether one of any failed. *)
Definition in_config (decl : declaration) : bool := String.eqb (mg_ManagedBy (de_entry decl)) ManagedByConfig.
Definition parsed (decls : list declaration) : list (declaration * (provisionedEntry + error)) :=
  (fun d => (d, parseDeclaredEntry d)) <$> List.filter in_config decls.
Definition join_errors (l : list (declaration * (provisionedEntry + error))) : option error :=
  foldl (fun acc p => match p.2 with
                      | inl _ => acc
                      | inr err => let e := Errorf (de_name p.1) err in
                                   Some (match acc with Some errs => EJoin2 errs e | None => EJoin1 e end)
                      end) None l.
Definition entries_of (category : Category) (l : list (declaration * (provisionedEntry + error))) : list (string * provisionedEntry) :=
  omap (fun p => match p.2 with
                 | inl e => if String.eqb (de_category p.1) category then Some (de_name p.1, e) else None
                 | inr _ => None
                 end) l.
Definition parseDeclared : provisionedMap + error :=
  let l := parsed declarations in
  match join_errors l with
  | Some errs => inr errs
  | None => inl ((fun c => (c, entries_of c l)) <$> provisionedCategories)
  end.
End declared.

(** ** Writing it *)
Section provision.
Context `{Env} `{Collation} `{Ozzo} `{NetURL} `{Tink}.
Context (keyring : Keyring) (registry : Registry).
Context (loginProviders : list (string * LoginProvider)) (notifyTransports : list (string * ManagedEntry)).

Definition insertProvisioned (category : Category) (name : string) (entry : provisionedEntry) : M unit :=
  dek ← newDEK keyring;
  _ ← CreateSetting (mkIntegration uuid_Nil category name (pe_Enabled entry) (pe_Config entry) [] dek.2 true zeroTime None zeroTime None);
  mret tt.
Definition taken_over (entry : provisionedEntry) (existing : IntegrationSetting) : IntegrationSetting :=
  existing <| in_Enabled := pe_Enabled entry |> <| in_Config := pe_Config entry |> <| in_Secrets := [] |> <| in_Provisioned := true |>
           <| in_UpdatedByUserID := None |>.
Definition provisionOne (category : Category) (name : string) (entry : provisionedEntry) : M unit :=
  r ← attempt (GetForUpdateByKindName category name);
  match r with
  | inr err => if errors_Is err ErrIntegrationNotFound then insertProvisioned category name entry else raise err
  | inl existing => _ ← UpdateSetting (taken_over entry existing); mret tt
  end.
Definition undeclared (category : Category) (declared : list (string * provisionedEntry)) (row : IntegrationSetting) : bool :=
  in_Provisioned row && negb (bool_decide (is_Some (go_lookup declared (in_Name row)))) &&
  match admit_pair registry category (in_Name row) with inl _ => true | inr _ => false end.
Definition releaseUndeclared (category : Category) (declared : list (string * provisionedEntry)) : M unit :=
  rows ← wrap_err (Errorf "list integrations") (ListByKind category);
  wrap_err (Errorf "release integrations") (ReleaseProvisioned category (in_Name <$> List.filter (undeclared category declared) rows)).
Definition provisionCategory (category : Category) (declared : list (string * provisionedEntry)) : M unit :=
  for_each (fun p => wrap_err (Errorf "provision") (provisionOne category p.1 p.2)) declared;;
  releaseUndeclared category declared.
Definition provision_in_tx (declared : provisionedMap) : M unit :=
  wrap_err (Errorf "acquire provisioning lock") (AdvisoryXactLock AdvisoryLockKeyLoginProvisioning);;
  for_each (fun category => provisionCategory category (default [] (go_lookup declared category))) provisionedCategories.
(** It returns what the process serves from then on. *)
Definition Provision : M provisionedMap :=
  declared ← from_sum (parseDeclared registry loginProviders notifyTransports);
  WithinTx (provision_in_tx declared);;
  mret declared.
End provision.

(** ** services/dekrotator *)
Section rotate.
Context `{Env} `{Tink} (keyring : Keyring).

Definition rewrapOne (dk : DataKey) : M unit :=
  dek ← wrap_err (Errorf "rotate: unwrap dek") (at_step (fun n => UnwrapDEK keyring n (key_EncryptedDEK dk) (key_KEKID dk)));
  new ← wrap_err (Errorf "rotate: wrap dek") (at_step (fun n => WrapDEK keyring n dek));
  check ← wrap_err (Errorf "rotate: verify unwrap dek") (at_step (fun n => UnwrapDEK keyring n new.1 new.2));
  wrap_err (Errorf "rotate: verify mismatch for dek") (at_step (fun n => EquivalentDEKs n dek check));;
  wrap_err (Errorf "rotate: persist dek") (UpdateWrap (key_ID dk) new.1 new.2).
Fixpoint rewrap_all (keys : list DataKey) (rewrapped skipped : Z) : M (Z * Z) :=
  match keys with
  | [] => mret (rewrapped, skipped)
  | dk :: keys' =>
      if String.eqb (key_KEKID dk) (ActiveKEKID keyring) then rewrap_all keys' rewrapped skipped
      else if negb (Knows keyring (key_KEKID dk)) then rewrap_all keys' rewrapped (skipped + 1)
      else rewrapOne dk;; rewrap_all keys' (rewrapped + 1) skipped
  end.
Definition Rotate : M (Z * Z) :=
  WithinTx (
    LockRotation;;
    keys ← ListForUpdate;
    rewrap_all keys 0 0).
End rotate.
