(* ===== verification/Deferred.v ===== *)
(** * Deferred reminders (internal/services/deferrednotifications and
      internal/storages/deferrednotifications)

    A maintenance's reminders are rows until it is approved; approval queues
    one task per reminder and records its id in the row. *)
From Stdlib Require Import ZArith Lia Ascii String.
From stdpp Require Import base sorting sets strings numbers list.
From S2P Require Import Prelude Go Sha256 Entity Conflict AuditTrail Schema Logic MaintStore Fixtures Queue.
Open Scope Z_scope.

(** ** The store *)

Definition toDB (maintID : UUID) (n : DeferredNotification) : DeferredRow :=
  mkDeferredRow uuid_Nil maintID (dn_FireAt n) (dn_GoqueTaskID n) zeroTime.
Definition fromDB (m : DeferredRow) : DeferredNotification :=
  mkDeferred (dr_ID m) (dr_MaintenanceID m) (dr_FireAt m) (dr_GoqueTaskID m).

Section deferred.
Context `{Env} `{Goque}.

Definition fill_deferred (s : Stmt) (kr : nat * DeferredRow) : DeferredRow :=
  kr.2 <| dr_ID := pg_uuid s kr.1 |> <| dr_FireAt := pg_ts (dr_FireAt kr.2) |> <| dr_CreatedAt := pg_now s |>.
Definition store_CreateMany (maintID : UUID) (notifications : list DeferredNotification)
    : M (list DeferredNotification) :=
  match notifications with
  | [] => mret []
  | _ =>
      let dbNotifications := toDB maintID <$> notifications in
      sql (fun s db =>
        let rows := fill_deferred s <$> zip (seq 0 (length dbNotifications)) dbNotifications in
        let table := maintenance_deferred_notifications db ++ rows in
        require (maint_exists maintID db) ErrPGForeignKeyViolation
          (require (bool_decide (NoDup (dr_ID <$> table))) ErrPGUniqueViolation
            (Ok (fromDB <$> rows, db <| maintenance_deferred_notifications := table |>))))
  end.

Definition store_DeleteByMaint (maintID : UUID) : M unit :=
  sql (fun _ db => Ok (tt, db <| maintenance_deferred_notifications :=
    filter (fun r => dr_MaintenanceID r ≠ maintID) (maintenance_deferred_notifications db) |>)).

Definition fire_cmp (a b : DeferredRow) : comparison :=
  cmp_then (Z.compare (dr_FireAt a) (dr_FireAt b)) (xuuid_Compare (dr_ID a) (dr_ID b)).
Definition deferred_rows (maintID : UUID) (db : DB) : list DeferredRow :=
  sort_by fire_cmp (filter (fun r => dr_MaintenanceID r = maintID) (maintenance_deferred_notifications db)).
Definition store_ListByMaint (maintID : UUID) : M (list DeferredNotification) :=
  query (fun db => fromDB <$> deferred_rows maintID db).

Definition store_SetTaskID (deferredNotificationID taskID : UUID) : M unit :=
  sql (fun _ db => Ok (tt, db <| maintenance_deferred_notifications :=
    (fun r => if N.eqb (dr_ID r) deferredNotificationID then r <| dr_GoqueTaskID := Some taskID |> else r) <$>
    maintenance_deferred_notifications db |>)).

(** ** The service *)

Definition Create (maintID : UUID) (notifications : list DeferredNotification) : M (list DeferredNotification) :=
  store_CreateMany maintID notifications.

Definition ListByMaint (maintID : UUID) : M (list DeferredNotification) := store_ListByMaint maintID.

Definition cancel_one (n : DeferredNotification) : M unit :=
  if IsScheduled n then
    wrap_err (Errorf "cancel task") (Scheduler_Cancel (FromPtr uuid_Nil (dn_GoqueTaskID n)))
  else mret tt.
Definition cancelEnqueued (maintID : UUID) : M unit :=
  notifications ← wrap_err (Errorf "list deferred notifications") (store_ListByMaint maintID);
  for_each cancel_one notifications.

Definition Cancel (maintID : UUID) : M unit := cancelEnqueued maintID.

Definition Replace (maintID : UUID) (notifications : list DeferredNotification) : M unit :=
  cancelEnqueued maintID;;
  store_DeleteByMaint maintID;;
  _ ← store_CreateMany maintID notifications;
  mret tt.

(** [fmt.Appendf(nil, "maint|reminder|%s|%s", maintID, deferredID)], hashed *)
Definition idempotencyKey (maintID deferredID : UUID) : string :=
  HashSha256 (bytes ("maint|reminder|" +:+ uuid_String maintID +:+ "|" +:+ uuid_String deferredID)).

Definition schedule_one (maintID : UUID) (now : Time) (n : DeferredNotification) : M unit :=
  let delay := Z.max (Time_Sub (dn_FireAt n) now) 0 in
  taskID ← wrap_err (Errorf "schedule reminder")
    (ScheduleDelayed ProcessorTaskMaintReminder (PayloadMaintReminder maintID (dn_ID n)) delay
       (idempotencyKey maintID (dn_ID n)));
  wrap_err (Errorf "record reminder task id") (store_SetTaskID (dn_ID n) taskID).
Definition Schedule (maintID : UUID) : M unit :=
  notifications ← wrap_err (Errorf "list deferred notifications") (store_ListByMaint maintID);
  now ← UTCNow;
  for_each (schedule_one maintID now) notifications.

(** ** Lemmas *)

(** Nothing here touches a table other than the reminders and the queue. *)
Definition deferred_blind (I : DB -> Prop) : Prop :=
  queue_blind I ∧ ∀ db l, I db -> I (db <| maintenance_deferred_notifications := l |>).

Lemma keeps_cancelEnqueued I id : queue_blind I -> keeps I (cancelEnqueued id) (fun _ => True).
Proof.
  intros HI. eapply keeps_bind; [apply keeps_wrap_err, keeps_query_any|]. intros l _.
  apply keeps_for_each. intros n _. unfold cancel_one. destruct (IsScheduled n); [|by apply keeps_ret].
  by apply keeps_wrap_err, keeps_on_queue.
Qed.

Lemma keeps_store_CreateMany I id l : deferred_blind I -> keeps I (store_CreateMany id l) (fun _ => True).
Proof.
  intros [_ HI]. unfold store_CreateMany. destruct l; [by apply keeps_ret|]. apply keeps_sql.
  intros s db a db' Hdb [_ [_ E]%require_Ok]%require_Ok. injection E as <- <-. eauto.
Qed.

Lemma keeps_Replace I id l : deferred_blind I -> keeps I (Replace id l) (fun _ => True).
Proof.
  intros HI. eapply keeps_bind; [apply keeps_cancelEnqueued, HI|]. intros _ _.
  eapply keeps_bind; [apply keeps_sql with (Q := fun _ => True)|].
  { intros s db a db' Hdb [= <- <-]. split; [by apply (proj2 HI)|done]. }
  intros _ _. eapply keeps_bind; [by apply keeps_store_CreateMany|]. intros _ _. by apply keeps_ret.
Qed.

Lemma keeps_Schedule I id : deferred_blind I -> keeps I (Schedule id) (fun _ => True).
Proof.
  intros HI. eapply keeps_bind; [apply keeps_wrap_err, keeps_query_any|]. intros l _.
  eapply keeps_bind; [by apply keeps_UTCNow with (Q := fun _ => True)|]. intros now _.
  apply keeps_for_each. intros n _. unfold schedule_one. eapply keeps_bind.
  { apply keeps_wrap_err, keeps_ScheduleDelayed, HI. }
  intros t _. apply keeps_wrap_err, keeps_sql. intros s db a db' Hdb [= <- <-]. split; [by apply (proj2 HI)|done].
Qed.

Lemma keeps_ListByMaint I id : keeps I (ListByMaint id) (fun _ => True).
Proof. apply keeps_query_any. Qed.

(** The tasks of a loop over reminders: [g] says which task each one got. *)
Definition assign (ids : list UUID) (g : UUID -> UUID) (r : DeferredRow) : DeferredRow :=
  if decide (dr_ID r ∈ ids) then r <| dr_GoqueTaskID := Some (g (dr_ID r)) |> else r.

Lemma assign_cons n ns g t r :
  n ∉ ns -> assign (n :: ns) (fun x => if decide (x = n) then t else g x) r = assign ns g (assign [n] (fun _ => t) r).
Proof.
  intros Hn. unfold assign. destruct (decide (dr_ID r = n)) as [Hr|Hr].
  - rewrite (decide_True (P := dr_ID r ∈ n :: ns)) by (rewrite Hr; set_solver).
    rewrite (decide_True (P := dr_ID r ∈ [n])) by (rewrite Hr; set_solver). simpl.
    rewrite decide_False by (by rewrite Hr). done.
  - rewrite (decide_False (P := dr_ID r ∈ [n])) by set_solver.
    destruct (decide (dr_ID r ∈ ns)); [rewrite (decide_True (P := dr_ID r ∈ n :: ns)) by set_solver|].
    + done.
    + by rewrite decide_False by set_solver.
Qed.

Definition reminder_task (maintID : UUID) (now : Time) (n : DeferredNotification) (taskID : UUID) (at_ : Time) : Task :=
  mkTask taskID ProcessorTaskMaintReminder (PayloadMaintReminder maintID (dn_ID n))
    (idempotencyKey maintID (dn_ID n)) (at_ + Z.max (Time_Sub (dn_FireAt n) now) 0).

Lemma schedule_one_Ok `{!GoqueSpec} maintID now n ctx w u w' :
  schedule_one maintID now n ctx w = (Ok u, w') ->
  ∃ t l, goque_add (reminder_task maintID now n t (env_now (w_step w))) (goque_tasks (w_db w)) = Ok l ∧
    (w_step w <= w_step w')%nat ∧ w_db w' = (w_db w) <| goque_tasks := l |> <| maintenance_deferred_notifications :=
      assign [dn_ID n] (fun _ => t) <$> maintenance_deferred_notifications (w_db w) |>.
Proof.
  unfold schedule_one. intros E. run_all. apply ScheduleDelayed_Ok in Hrun as (l & Hl & Hs & Hdb).
  sql_inv Hrun0. simplify_eq. exists a, l. rewrite Hdb. unfold reminder_task.
  replace (Z.max (Z.max (Time_Sub (dn_FireAt n) now) 0) 0) with (Z.max (Time_Sub (dn_FireAt n) now) 0) in Hl by lia.
  split; [done|]. split; [simpl; lia|]. simpl.
  match goal with |- set_field (fun _ => ?x) _ = set_field (fun _ => ?y) _ => enough (x = y) as -> by done end.
  apply list_fmap_ext. intros i r _. unfold assign. destruct (N.eqb_spec (dr_ID r) (dn_ID n)), (decide (dr_ID r ∈ [dn_ID n])) as [Hd|Hd]; try done;
    rewrite list_elem_of_singleton in Hd; done.
Qed.

Lemma schedule_loop `{!GoqueSpec} maintID now ns ctx w u w' :
  NoDup (dn_ID <$> ns) ->
  for_each (schedule_one maintID now) ns ctx w = (Ok u, w') ->
  ∃ g l, w_db w' = (w_db w) <| goque_tasks := l |> <| maintenance_deferred_notifications :=
      assign (dn_ID <$> ns) g <$> maintenance_deferred_notifications (w_db w) |> ∧
    (∀ x, x ∈ goque_tasks (w_db w) -> x ∈ l) ∧
    ∀ n, n ∈ ns -> ∃ k, (w_step w <= k)%nat ∧ reminder_task maintID now n (g (dn_ID n)) (env_now k) ∈ l.
Proof.
  revert w. induction ns as [|n ns IH]; intros w Hnd E; simpl in E; run_all.
  - exists (fun x => x), (goque_tasks (w_db w')). split_and!; [|done|by intros n ?%elem_of_nil].
    simpl. enough (assign [] (fun x => x) <$> maintenance_deferred_notifications (w_db w') =
      maintenance_deferred_notifications (w_db w')) as -> by by destruct (w_db w').
    rewrite <- (list_fmap_id (maintenance_deferred_notifications _)) at 2. by apply list_fmap_ext.
  - apply NoDup_cons in Hnd as [Hn Hnd]. apply schedule_one_Ok in Hrun as (t & l1 & Hadd & Hs & Hdb).
    apply IH in Hrun0 as (g & l & Hdb' & Hold & Hnew); [|done]. rewrite Hdb in Hdb', Hold; simpl in *.
    exists (fun x => if decide (x = dn_ID n) then t else g x), l. split_and!.
    + rewrite Hdb'. simpl.
      match goal with |- _ = set_field (fun _ => ?y) _ => enough (y = assign (dn_ID <$> ns) g <$> (assign [dn_ID n]
        (fun _ => t) <$> maintenance_deferred_notifications (w_db w))) as -> by by destruct (w_db w) end.
      rewrite <- list_fmap_compose. apply list_fmap_ext. intros i r _. simpl. by rewrite assign_cons.
    + intros x Hx. apply Hold. eapply goque_add_ok in Hadd. apply Hadd. by right.
    + intros n' [->|Hn']%elem_of_cons.
      * exists (w_step w). rewrite decide_True by done. split; [done|]. apply Hold. eapply goque_add_ok in Hadd.
        apply Hadd. by left.
      * destruct (Hnew n' Hn') as (k & Hk & Ht). exists k. split; [lia|]. rewrite decide_False; [done|].
        intros Heq. apply Hn. rewrite <- Heq. by apply list_elem_of_fmap_2.
Qed.

Lemma deferred_rows_ids maintID db :
  NoDup (dr_ID <$> maintenance_deferred_notifications db) -> NoDup (dr_ID <$> deferred_rows maintID db).
Proof.
  intros Hnd. unfold deferred_rows. rewrite sort_by_Permutation.
  by apply NoDup_fmap_filter.
Qed.

Lemma elem_of_deferred_rows maintID db r :
  r ∈ deferred_rows maintID db ↔ dr_MaintenanceID r = maintID ∧ r ∈ maintenance_deferred_notifications db.
Proof. unfold deferred_rows. rewrite elem_of_sort_by. by rewrite list_elem_of_filter. Qed.

Lemma Schedule_Ok `{!GoqueSpec} maintID ctx w u w' :
  NoDup (dr_ID <$> maintenance_deferred_notifications (w_db w)) ->
  Schedule maintID ctx w = (Ok u, w') ->
  ∃ g l k0, w_db w' = (w_db w) <| goque_tasks := l |> <| maintenance_deferred_notifications :=
      assign (dr_ID <$> deferred_rows maintID (w_db w)) g <$> maintenance_deferred_notifications (w_db w) |> ∧
    (∀ x, x ∈ goque_tasks (w_db w) -> x ∈ l) ∧
    ∀ r, r ∈ maintenance_deferred_notifications (w_db w) -> dr_MaintenanceID r = maintID ->
      ∃ k, (k0 <= k)%nat ∧ reminder_task maintID (env_now k0) (fromDB r) (g (dr_ID r)) (env_now k) ∈ l.
Proof.
  intros Hnd. unfold Schedule. intros E. run_all. apply query_Ok in Hrun as (-> & Hdb & _).
  unfold UTCNow in Hrun1. injection Hrun1 as <- <-. apply schedule_loop in Hrun2 as (g & l & Hdb' & Hold & Hnew).
  - simpl in *. rewrite Hdb in *. rewrite <- list_fmap_compose in Hdb'. exists g, l, (w_step w0).
    split_and!; [done..|]. intros r Hr Hm. edestruct (Hnew (fromDB r)) as (k & Hk & Ht); [|exists k; split; [lia|done]].
    apply list_elem_of_fmap_2, elem_of_deferred_rows. done.
  - rewrite <- list_fmap_compose. by apply deferred_rows_ids.
Qed.
End deferred.

Section properties.
Context `{Env} `{GoqueSpec}.

(** Approval schedules every reminder exactly as stored.  When [Schedule]
    succeeds, each reminder row of the maintenance names a task that is in the
    queue, of the reminder type, carrying the maintenance and the reminder, and
    (with a clock that does not run backwards and a fire time within range) due
    no earlier than the reminder's fire time; the tasks queued before are still
    there; and nothing else of the reminder rows, nor any other table, changed. *)
Theorem Schedule_correct maintID ctx w w' :
  NoDup (dr_ID <$> maintenance_deferred_notifications (w_db w)) ->
  (∀ i j, (i <= j)%nat -> env_now i <= env_now j) ->
  Schedule maintID ctx w = (Ok tt, w') ->
  (∀ x, x ∈ goque_tasks (w_db w) -> x ∈ goque_tasks (w_db w')) ∧
  Forall2 (fun old new =>
      new <| dr_GoqueTaskID := dr_GoqueTaskID old |> = old ∧
      (dr_MaintenanceID old ≠ maintID -> new = old) ∧
      (dr_MaintenanceID old = maintID -> ∃ task, dr_GoqueTaskID new = Some (tk_ID task) ∧
        task ∈ goque_tasks (w_db w') ∧ tk_Type task = ProcessorTaskMaintReminder ∧
        tk_Payload task = PayloadMaintReminder maintID (dr_ID old) ∧
        tk_ExternalID task = idempotencyKey maintID (dr_ID old) ∧
        ((∀ n, dr_FireAt old - env_now n < 2 ^ 63) -> dr_FireAt old <= tk_NextAttemptAt task)))
    (maintenance_deferred_notifications (w_db w)) (maintenance_deferred_notifications (w_db w')) ∧
  ∃ l1 l2, w_db w' = (w_db w) <| goque_tasks := l1 |> <| maintenance_deferred_notifications := l2 |>.
Proof.
  intros Hnd Hclock (g & l & k0 & Hdb & Hold & Hnew)%Schedule_Ok; [|done]. rewrite Hdb. simpl.
  split; [done|]. split; [|eauto]. rewrite Forall2_fmap_r. apply Forall_Forall2_diag, Forall_forall. intros r Hr.
  assert (dr_ID r ∈ dr_ID <$> deferred_rows maintID (w_db w) ↔ dr_MaintenanceID r = maintID) as Hiff.
  { rewrite list_elem_of_fmap. setoid_rewrite elem_of_deferred_rows. split; [|naive_solver].
    intros (r' & Heq & Hm & Hr'). by rewrite (NoDup_fmap_2_elem _ _ _ _ Hnd Hr Hr' Heq). }
  unfold compose, assign. cbv beta. case_decide as Hin; rewrite Hiff in Hin.
  - split; [by destruct r|]. split; [done|]. intros _. destruct (Hnew r Hr Hin) as (k & Hk & Ht).
    eexists. split; [|split; [exact Ht|]]; [done|]. split_and!; [done..|]. simpl. intros Hsat.
    specialize (Hsat k0). specialize (Hclock _ _ Hk). unfold Time_Sub. lia.
  - split; [by destruct r|]. split; [done|]. by intros.
Qed.
End properties.

Lemma Schedule_correct_witness :
  let '(r, w') := @Schedule calm_env list_goque 2 background ex_world in
  r = Ok tt ∧ (∀ x, x ∈ goque_tasks ex_db -> x ∈ goque_tasks (w_db w')) ∧
  tk_NextAttemptAt <$> goque_tasks (w_db w') = [at_min 30 + 1 * Millisecond] ∧
  dr_GoqueTaskID <$> maintenance_deferred_notifications (w_db w') = [Some 3000%N].
Proof.
  assert (∀ i j, (i <= j)%nat -> @env_now calm_env i <= @env_now calm_env j) as Hclock.
  { intros i j Hij. simpl. unfold Millisecond. lia. }
  pose proof (@Schedule_correct calm_env list_goque list_goque_spec 2 background ex_world) as Ht.
  evaluate (@Schedule calm_env list_goque 2 background ex_world).
  specialize (Ht _ ltac:(apply NoDup_singleton) Hclock eq_refl). split; [reflexivity|].
  split; [exact (proj1 Ht)|]. split; vm_compute; reflexivity.
Defined.
