(* ===== verification/NotifyTargets.v ===== *)
(** * Notify targets (internal/services/notifytargets,
      internal/storages/notifytargets and internal/storages/notifychannel)

    A maintenance subscribes to channels of the catalog; its rows also carry the
    root of the message thread in each channel. *)
From Stdlib Require Import ZArith Lia Ascii String.
From stdpp Require Import base sorting sets strings numbers list.
From S2P Require Import Prelude Go Entity Conflict AuditTrail Schema Logic Dbtx MaintStore.
Open Scope Z_scope.

(** ** storages/notifytargets *)

Definition toDB (maintID : UUID) (sub : NotifyTarget) : TargetRow :=
  mkTargetRow uuid_Nil maintID (nt_ChannelID sub) zeroTime None None.

Definition rootRefFromDB (m : TargetRow) : option MessageRef :=
  match tr_RootMessageID m with
  | None => None
  | Some id => if String.eqb id "" then None else Some (mkRef id)
  end.

Definition fromDB (m : TargetRow) : NotifyTarget :=
  mkTarget (tr_ID m) (tr_MaintenanceID m) (tr_ChannelID m) (tr_CreatedAt m) "" "" ""
    (rootRefFromDB m) (FromPtr EmptyString (tr_RootChannel m)).

Definition channel_exists (id : UUID) (db : DB) : bool := existsb (fun c => N.eqb (ch_ID c) id) (messenger_channels db).

Section targets.
Context `{Env}.

(** The primary key and the unique index (maintenance_id, channel_id). *)
Definition target_clash (a b : TargetRow) : bool :=
  N.eqb (tr_ID a) (tr_ID b) ||
  N.eqb (tr_MaintenanceID a) (tr_MaintenanceID b) && N.eqb (tr_ChannelID a) (tr_ChannelID b).
Fixpoint insert_targets (rows : list TargetRow) (l : list TargetRow) : outcome (list TargetRow) :=
  match rows with
  | [] => Ok l
  | r :: rows' => require (negb (existsb (target_clash r) l)) ErrPGUniqueViolation (insert_targets rows' (l ++ [r]))
  end.

Definition store_CreateMany (maintID : UUID) (targets : list NotifyTarget) : M (list NotifyTarget) :=
  match targets with
  | [] => mret []
  | _ =>
      let notifyTargets := toDB maintID <$> targets in
      result ← attempt (sql (fun s db =>
        let rows := (fun '(k, r) => r <| tr_ID := pg_uuid s k |> <| tr_CreatedAt := pg_now s |>) <$>
                    zip (seq 0 (length notifyTargets)) notifyTargets in
        require (maint_exists maintID db && forallb (fun t => channel_exists (nt_ChannelID t) db) targets)
          ErrPGForeignKeyViolation
          match insert_targets rows (maintenance_notify_targets db) with
          | Ok l => Ok (rows, db <| maintenance_notify_targets := l |>)
          | Err e => Err e
          | Panic msg => Panic msg
          end));
      match result with
      | inl rows => mret (fromDB <$> rows)
      | inr err =>
          if dbtx_ErrorIs err ErrPGUniqueViolation then raise ErrNotifyTargetsAlreadyExists else raise err
      end
  end.

Definition store_Delete (maintID : UUID) : M unit :=
  sql (fun _ db => Ok (tt, db <| maintenance_notify_targets :=
    filter (fun r => tr_MaintenanceID r ≠ maintID) (maintenance_notify_targets db) |>)).

(** The join with the catalog: the address is the channel's current one. *)
Definition target_cmp (a b : TargetRow * ChannelRow) : comparison :=
  cmp_then (Z.compare (tr_CreatedAt a.1) (tr_CreatedAt b.1)) (xuuid_Compare (tr_ChannelID a.1) (tr_ChannelID b.1)).
Definition resolved_target (rc : TargetRow * ChannelRow) : NotifyTarget :=
  let t := fromDB rc.1 in
  mkTarget (nt_ID t) (nt_MaintID t) (nt_ChannelID t) (nt_CreatedAt t)
    (ch_Transport rc.2) (ch_TransportChannelID rc.2) (ch_Name rc.2) (nt_RootRef t) (nt_RootChannel t).
Definition target_rows (maintID : UUID) (db : DB) : list (TargetRow * ChannelRow) :=
  sort_by target_cmp
    (filter (fun r => tr_MaintenanceID r = maintID) (maintenance_notify_targets db) ≫= fun r =>
     pair r <$> filter (fun c => ch_ID c = tr_ChannelID r) (messenger_channels db)).
Definition store_ListByMaint (maintID : UUID) : M (list NotifyTarget) :=
  query (fun db => resolved_target <$> target_rows maintID db).

Definition root_target (maintID channelID : UUID) (r : TargetRow) : bool :=
  N.eqb (tr_MaintenanceID r) maintID && N.eqb (tr_ChannelID r) channelID.
Definition store_SetRootRef (maintID channelID : UUID) (messageID channel : string) : M unit :=
  sql (fun _ db => Ok (tt, db <| maintenance_notify_targets :=
    (fun r => if root_target maintID channelID r
              then r <| tr_RootMessageID := Some messageID |> <| tr_RootChannel := Some channel |> else r) <$>
    maintenance_notify_targets db |>)).

(** ** storages/notifychannel *)

Definition channel_Get (channelID : UUID) : M ChannelRow :=
  r ← query (fun db => List.find (fun c => N.eqb (ch_ID c) channelID) (messenger_channels db));
  match r with
  | Some c => mret c
  | None => raise ErrNotifyChannelNotFound
  end.

(** ** services/notifytargets *)

Fixpoint ResolveNotifyTarget (maintID : UUID) (input : list NotifyTargetInput) : M (list NotifyTarget) :=
  match input with
  | [] => mret []
  | item :: input' =>
      r ← attempt (channel_Get (nti_ChannelID item));
      match r with
      | inr err =>
          if errors_Is err ErrNotifyChannelNotFound
          then raise (Errorf "unknown channel" ErrValidation) else raise err
      | inl channel =>
          rest ← ResolveNotifyTarget maintID input';
          mret (mkTarget uuid_Nil maintID (ch_ID channel) zeroTime (ch_Transport channel)
                  (ch_TransportChannelID channel) (ch_Name channel) None "" :: rest)
      end
  end.

Definition Create (maintID : UUID) (input : list NotifyTargetInput) : M (list NotifyTarget) :=
  notifyTargets ← ResolveNotifyTarget maintID input;
  wrap_err (Errorf "failed to create notify targets") (store_CreateMany maintID notifyTargets).

Definition replace_ (maint : Maintenance) : M unit :=
  store_Delete (ID maint);;
  _ ← store_CreateMany (ID maint) (NotifyTargets maint);
  mret tt.
Definition Replace (maint : Maintenance) : M unit := WithinTx (replace_ maint).

Definition ListByMaint (maintID : UUID) : M (list NotifyTarget) :=
  wrap_err (Errorf "failed to list notify targets") (store_ListByMaint maintID).

(** ** Lemmas *)

(** Nothing here touches a table other than the targets. *)
Definition targets_blind (I : DB -> Prop) : Prop := ∀ db l, I db -> I (db <| maintenance_notify_targets := l |>).

Lemma keeps_store_CreateMany_targets I id l : targets_blind I -> keeps I (store_CreateMany id l) (fun _ => True).
Proof.
  intros HI. unfold store_CreateMany. destruct l as [|t l]; [by apply keeps_ret|].
  eapply keeps_bind; [apply keeps_attempt, keeps_sql with (Q := fun _ => True)|].
  { intros s db a db' Hdb [_ E]%require_Ok. case_hyp E; simplify_eq. eauto. }
  intros [rows|err] _; [by apply keeps_ret|]. destruct (dbtx_ErrorIs _ _); apply keeps_raise.
Qed.

Lemma keeps_ResolveNotifyTarget I id l : keeps I (ResolveNotifyTarget id l) (fun _ => True).
Proof.
  induction l as [|i l IH]; simpl; [by apply keeps_ret|].
  eapply keeps_bind; [apply keeps_attempt with (Q := fun _ => True)|].
  { eapply keeps_bind; [apply keeps_query_any|]. intros [c|] _; [by apply keeps_ret|apply keeps_raise]. }
  intros [c|err] _; [|destruct (errors_Is _ _); apply keeps_raise].
  eapply keeps_bind; [apply IH|]. intros rest _. by apply keeps_ret.
Qed.

Lemma keeps_Create I id l : targets_blind I -> keeps I (Create id l) (fun _ => True).
Proof.
  intros HI. eapply keeps_bind; [apply keeps_ResolveNotifyTarget|]. intros ts _.
  by apply keeps_wrap_err, keeps_store_CreateMany_targets.
Qed.

Lemma keeps_Replace_targets I m : targets_blind I -> keeps I (Replace m) (fun _ => True).
Proof.
  intros HI. apply keeps_WithinTx. eapply keeps_bind; [apply keeps_sql with (Q := fun _ => True)|].
  { intros s db a db' Hdb [= <- <-]. eauto. }
  intros _ _. eapply keeps_bind; [by apply keeps_store_CreateMany_targets|]. intros ? _. by apply keeps_ret.
Qed.

Lemma keeps_SetRootRef I m c i a : targets_blind I -> keeps I (store_SetRootRef m c i a) (fun _ => True).
Proof. intros HI. apply keeps_sql. intros s db x db' Hdb [= <- <-]. eauto. Qed.

Lemma ListByMaint_Ok id ctx w l w' :
  store_ListByMaint id ctx w = (Ok l, w') ->
  l = resolved_target <$> target_rows id (w_db w) ∧ w_db w' = w_db w ∧ w_log w' = w_log w.
Proof. apply query_Ok. Qed.
End targets.
