(* ===== verification/Catalog.v ===== *)
(** * The catalogs of resources and of channels (internal/services/resources,
      internal/storages/resources, internal/services/notifytargets and
      internal/storages/notifychannel)

    What a maintenance may touch and where it may be announced.  An entry is
    created, edited, archived and brought back, never deleted; resources are
    unique by the lower case of their name, channels by their address. *)
From Stdlib Require Import ZArith Lia Ascii String.
From stdpp Require Import base sorting sets strings numbers list.
From S2P Require Import Prelude Go Entity Conflict AuditTrail Schema Logic Dbtx Like MaintStore Queue NotifyTargets.
Open Scope Z_scope.

(** ** entity/commands.go, entity/notifier_transport.go *)

Record CreateResourceCmd := mkCreateResource {
  xr_Name : string; xr_Description : string; xr_ExternalID : option string; xr_Actor : option User }.
Record UpdateResourceCmd := mkUpdateResource {
  yr_ID : UUID; yr_Name : option string; yr_Description : option string; yr_ExternalID : option string; yr_Actor : option User }.
(** ListResourcesCmd and ListChannelsCmd *)
Record ListCatalogCmd := mkListCatalog { lc_Name : string; lc_Limit : Z; lc_Offset : Z; lc_IncludeArchived : bool }.
Record CreateNotifyChannelCmd := mkCreateChannel {
  xc_Transport : NotifyTransport; xc_TransportChannelID : string; xc_Name : string; xc_Description : string; xc_Actor : option User }.
Record UpdateNotifyChannelCmd := mkUpdateChannel {
  yc_ID : UUID; yc_Name : option string; yc_Description : option string; yc_TransportChannelID : option string; yc_Actor : option User }.
Definition NotifyTransportSlack : NotifyTransport := "slack".
Definition NotifyTransportTelegram : NotifyTransport := "telegram".
Definition Transport_IsValid (t : NotifyTransport) : bool :=
  bool_decide (t ∈ [NotifyTransportSlack; NotifyTransportTelegram]).

(** [&user.ID]; a nil user panics. *)
Definition actorID (actor : option User) : M UUID :=
  match actor with
  | Some u => mret (u_ID u)
  | None => panic nil_dereference
  end.
(** [if p != nil { field = *p }] *)
Definition overlay {A} (p : option A) (old : A) : A := default old p.
(** The closure [add] of resourceChanges and channelChanges. *)
Definition change (field old new : string) : list AuditFieldChange :=
  if String.eqb old new then [] else [mkChange field old new].

(** ** storages/resources *)

Definition toDBResource (r : ResourceDetails) : ResourceRow :=
  mkResourceRow (res_ID r) (res_Name r) (res_Description r) (res_ExternalID r) (res_CreatedAt r) (res_UpdatedAt r) (res_Status r)
    (res_CreatedByUserID r) (res_UpdatedByUserID r).
Definition fromDBResource (r : ResourceRow) : ResourceDetails :=
  mkResource (rs_ID r) (rs_Name r) (rs_Description r) (rs_ExternalID r) (rs_Status r) (rs_CreatedAt r) (rs_CreatedByUserID r)
    (rs_UpdatedAt r) (rs_UpdatedByUserID r).
Definition find_resource (id : UUID) (db : DB) : option ResourceRow := List.find (fun r => N.eqb (rs_ID r) id) (resources db).

Section resource_store.
Context `{Env} `{Collation}.

(** The primary key and the index on lower(name). *)
Definition resource_clash (a b : ResourceRow) : bool :=
  N.eqb (rs_ID a) (rs_ID b) || String.eqb (pg_lower (rs_Name a)) (pg_lower (rs_Name b)).
Definition CreateResourceRow (r : ResourceDetails) : M ResourceDetails :=
  res ← attempt (sql (fun s db =>
    let row := (toDBResource r) <| rs_ID := pg_uuid s 0 |> <| rs_CreatedAt := pg_now s |> in
    require (negb (existsb (resource_clash row) (resources db))) ErrPGUniqueViolation
      (Ok (row, db <| resources := resources db ++ [row] |>))));
  match res with
  | inl row => mret (fromDBResource row)
  | inr err => if dbtx_ErrorIs err ErrPGUniqueViolation then raise ErrResourceAlreadyExists else raise err
  end.

Definition get_resource (find : DB -> option ResourceRow) : M ResourceDetails :=
  r ← query find;
  match r with
  | Some row => mret (fromDBResource row)
  | None => raise ErrResourceNotFound
  end.
Definition GetResourceByID (resourceID : UUID) : M ResourceDetails := get_resource (find_resource resourceID).
Definition GetResourceForUpdate (resourceID : UUID) : M ResourceDetails := get_resource (find_resource resourceID).
Definition GetResourceByName (name : string) : M ResourceDetails :=
  get_resource (fun db => List.find (fun r => String.eqb (pg_lower (rs_Name r)) (pg_lower name)) (resources db)).

Definition edited_resource (r : ResourceDetails) (at_ : Time) (row : ResourceRow) : ResourceRow :=
  row <| rs_Name := res_Name r |> <| rs_Description := res_Description r |> <| rs_ExternalID := res_ExternalID r |>
      <| rs_UpdatedAt := Some (pg_ts at_) |> <| rs_UpdatedByUserID := res_UpdatedByUserID r |>.
Definition UpdateResourceRow (r : ResourceDetails) : M ResourceDetails :=
  now ← UTCNow;
  res ← attempt (sql (fun _ db =>
    match find_resource (res_ID r) db with
    | None => Ok (None, db)
    | Some old =>
        let row := edited_resource r now old in
        require (negb (existsb (fun x => negb (N.eqb (rs_ID x) (rs_ID row)) && resource_clash row x) (resources db))) ErrPGUniqueViolation
          (Ok (Some row, db <| resources := (fun x => if N.eqb (rs_ID x) (res_ID r) then edited_resource r now x else x) <$> resources db |>))
    end));
  match res with
  | inl (Some row) => mret (fromDBResource row)
  | inl None => raise ErrResourceNotFound
  | inr err => if dbtx_ErrorIs err ErrPGUniqueViolation then raise ErrResourceAlreadyExists else raise err
  end.

(** Archive and Unarchive *)
Definition set_resource_status (status : ResourceStatus) (resourceID : UUID) : M unit :=
  sql (fun s db => Ok (tt, db <| resources :=
    (fun x => if N.eqb (rs_ID x) resourceID then x <| rs_Status := status |> <| rs_UpdatedAt := Some (pg_now s) |> else x) <$>
    resources db |>)).
Definition ArchiveRow : UUID -> M unit := set_resource_status ResourceStatusArchived.
Definition UnarchiveRow : UUID -> M unit := set_resource_status ResourceStatusActive.

(** get_list.go *)
Definition resourceListLimit : Z := 100.
Definition GetResourcesLikeName (name : string) : M (list ResourceDetails) :=
  query (fun db => fromDBResource <$> take (Z.to_nat resourceListLimit)
    (sort_by (fun a b => pg_cmp (rs_Name a) (rs_Name b))
       (List.filter (fun r => String.eqb (rs_Status r) ResourceStatusActive && search (rs_Name r) name) (resources db)))).

(** list.go *)
Definition resource_where (cmd : ListCatalogCmd) (r : ResourceRow) : bool :=
  (lc_IncludeArchived cmd || String.eqb (rs_Status r) ResourceStatusActive) &&
  (String.eqb (lc_Name cmd) "" || search (rs_Name r) (lc_Name cmd)).
Definition newest_first (a b : ResourceRow) : comparison :=
  cmp_then (Z.compare (rs_CreatedAt b) (rs_CreatedAt a)) (xuuid_Compare (rs_ID b) (rs_ID a)).
(** A page of the rows that match, in order, with their number. *)
Definition list_page {R E} (table : DB -> list R) (where_ : R -> bool) (cmp : R -> R -> comparison) (from : R -> E)
    (limit offset : Z) : M (list E * Z) :=
  total ← query (fun db => Z.of_nat (length (List.filter where_ (table db))));
  (if limit <? 0 then panic "makeslice: cap out of range" else mret tt);;
  page ← sql (fun _ db =>
    if offset <? 0 then Err (EPg "2201X")
    else Ok (from <$> take (Z.to_nat limit) (drop (Z.to_nat offset) (sort_by cmp (List.filter where_ (table db)))), db));
  mret (page, total).
Definition ListResourceRows (cmd : ListCatalogCmd) : M (list ResourceDetails * Z) :=
  list_page resources (resource_where cmd) newest_first fromDBResource (lc_Limit cmd) (lc_Offset cmd).
End resource_store.

(** ** services/resources *)

Section resource_service.
Context `{Env} `{Collation} `{Goque}.

Definition catalog_publishAudit (action : AuditAction) : M unit := _ ← attempt (Publish action); mret tt.

Definition getOrCreate (cmd : CreateResourceCmd) : M (ResourceDetails * bool) :=
  r ← attempt (GetResourceByName (xr_Name cmd));
  match r with
  | inl existing => mret (existing, false)
  | inr err =>
      if negb (errors_Is err ErrResourceNotFound) then raise (Errorf "check existing resource" err)
      else
        author ← actorID (xr_Actor cmd);
        resource ← CreateResourceRow (mkResource uuid_Nil (xr_Name cmd) (xr_Description cmd) (xr_ExternalID cmd) ResourceStatusActive
                                        zeroTime (Some author) None None);
        mret (resource, true)
  end.
Definition CreateResource (cmd : CreateResourceCmd) : M ResourceDetails :=
  r ← attempt (getOrCreate cmd);
  match r with
  | inl (resource, created) =>
      (if (created : bool) then catalog_publishAudit (ResourceCreated (xr_Actor cmd) resource) else mret tt);;
      mret resource
  | inr err =>
      if errors_Is err ErrResourceAlreadyExists
      then wrap_err (Errorf "load existing resource after race") (GetResourceByName (xr_Name cmd))
      else raise err
  end.

Definition applyResourceUpdate (resource : ResourceDetails) (cmd : UpdateResourceCmd) (editor : UUID) : ResourceDetails :=
  resource <| res_Name := overlay (yr_Name cmd) (res_Name resource) |>
           <| res_Description := overlay (yr_Description cmd) (res_Description resource) |>
           <| res_ExternalID := overlay (Some <$> yr_ExternalID cmd) (res_ExternalID resource) |>
           <| res_UpdatedByUserID := Some editor |>.
Definition resourceChanges (before after : ResourceDetails) : list AuditFieldChange :=
  change "name" (res_Name before) (res_Name after) ++
  change "description" (res_Description before) (res_Description after) ++
  change "external_id" (FromPtr EmptyString (res_ExternalID before)) (FromPtr EmptyString (res_ExternalID after)).
Definition update_resource_in_tx (cmd : UpdateResourceCmd) : M (ResourceDetails * list AuditFieldChange) :=
  before ← GetResourceForUpdate (yr_ID cmd);
  editor ← actorID (yr_Actor cmd);
  let resource := applyResourceUpdate before cmd editor in
  updated ← UpdateResourceRow resource;
  mret (updated, resourceChanges before resource).
Definition UpdateResource (cmd : UpdateResourceCmd) : M ResourceDetails :=
  r ← WithinTx (update_resource_in_tx cmd);
  catalog_publishAudit (ResourceUpdated (yr_Actor cmd) (fst r) (snd r));;
  mret (fst r).

(** archive_resource.go *)
Definition set_status_in_tx (resourceID : UUID) (status : ResourceStatus) (write : UUID -> M unit) : M (option ResourceDetails) :=
  r ← attempt (GetResourceForUpdate resourceID);
  match r with
  | inr err => if errors_Is err ErrResourceNotFound then mret None else raise err
  | inl resource =>
      if String.eqb (res_Status resource) status then mret None
      else write resourceID;; mret (Some (resource <| res_Status := status |>))
  end.
Definition setStatus (resourceID : UUID) (status : ResourceStatus) (write : UUID -> M unit) : M (option ResourceDetails) :=
  WithinTx (set_status_in_tx resourceID status write).
Definition ArchiveResource (actor : option User) (resourceID : UUID) : M unit :=
  resource ← setStatus resourceID ResourceStatusArchived ArchiveRow;
  match resource with
  | Some r => catalog_publishAudit (ResourceArchived actor r)
  | None => mret tt
  end.
Definition UnarchiveResource (actor : option User) (resourceID : UUID) : M unit :=
  resource ← setStatus resourceID ResourceStatusActive UnarchiveRow;
  match resource with
  | Some r => catalog_publishAudit (ResourceUnarchived actor r)
  | None => mret tt
  end.
Definition ListResources (cmd : ListCatalogCmd) : M (list ResourceDetails * Z) := ListResourceRows cmd.
End resource_service.

(** ** storages/notifychannel *)

Definition channel_toDB (c : NotifyChannel) : ChannelRow :=
  mkChannelRow (nc_ID c) (nc_Transport c) (nc_TransportChannelID c) (nc_Name c) (nc_Description c) zeroTime None (nc_CreatedByUserID c)
    (nc_UpdatedByUserID c) (nc_UpdatedAt c).
Definition channel_fromDB (r : ChannelRow) : NotifyChannel :=
  mkNotifyChannel (ch_ID r) (ch_Transport r) (ch_TransportChannelID r) (ch_Name r) (ch_Description r) (ch_CreatedAt r)
    (ch_CreatedByUserID r) (ch_UpdatedAt r) (ch_UpdatedByUserID r) (ch_ArchivedAt r).
Definition find_channel (id : UUID) (db : DB) : option ChannelRow := List.find (fun c => N.eqb (ch_ID c) id) (messenger_channels db).
(** The primary key and the index on (transport, transport_channel_id). *)
Definition channel_clash (a b : ChannelRow) : bool :=
  N.eqb (ch_ID a) (ch_ID b) ||
  String.eqb (ch_Transport a) (ch_Transport b) && String.eqb (ch_TransportChannelID a) (ch_TransportChannelID b).

Section channel_store.
Context `{Env} `{Collation}.

Definition CreateChannelRow (channel : NotifyChannel) : M NotifyChannel :=
  res ← attempt (sql (fun s db =>
    let row := (channel_toDB channel) <| ch_ID := pg_uuid s 0 |> <| ch_CreatedAt := pg_now s |> in
    require (negb (existsb (channel_clash row) (messenger_channels db))) ErrPGUniqueViolation
      (Ok (row, db <| messenger_channels := messenger_channels db ++ [row] |>))));
  match res with
  | inl row => mret (channel_fromDB row)
  | inr err => if dbtx_ErrorIs err ErrPGUniqueViolation then raise ErrNotifyChannelAlreadyExists else raise err
  end.
Definition GetChannelForUpdate (channelID : UUID) : M NotifyChannel := row ← channel_Get channelID; mret (channel_fromDB row).

Definition edited_channel (c : NotifyChannel) (at_ : Time) (row : ChannelRow) : ChannelRow :=
  row <| ch_Name := nc_Name c |> <| ch_Description := nc_Description c |> <| ch_TransportChannelID := nc_TransportChannelID c |>
      <| ch_UpdatedAt := Some (pg_ts at_) |> <| ch_UpdatedByUserID := nc_UpdatedByUserID c |>.
Definition UpdateChannelRow (c : NotifyChannel) : M NotifyChannel :=
  now ← UTCNow;
  res ← attempt (sql (fun _ db =>
    match find_channel (nc_ID c) db with
    | None => Ok (None, db)
    | Some old =>
        let row := edited_channel c now old in
        require (negb (existsb (fun x => negb (N.eqb (ch_ID x) (ch_ID row)) && channel_clash row x) (messenger_channels db)))
          ErrPGUniqueViolation
          (Ok (Some row, db <| messenger_channels :=
             (fun x => if N.eqb (ch_ID x) (nc_ID c) then edited_channel c now x else x) <$> messenger_channels db |>))
    end));
  match res with
  | inl (Some row) => mret (channel_fromDB row)
  | inl None => raise (Errorf (uuid_String (nc_ID c)) ErrNotifyChannelNotFound)
  | inr err => if dbtx_ErrorIs err ErrPGUniqueViolation then raise ErrNotifyChannelAlreadyExists else raise err
  end.

Definition setArchivedAt (archived : bool) (channelID : UUID) : M unit :=
  sql (fun s db => Ok (tt, db <| messenger_channels :=
    (fun x => if N.eqb (ch_ID x) channelID then x <| ch_ArchivedAt := if archived then Some (pg_now s) else None |> else x) <$>
    messenger_channels db |>)).
Definition channel_Archive : UUID -> M unit := setArchivedAt true.
Definition channel_Unarchive : UUID -> M unit := setArchivedAt false.

Definition channel_where (cmd : ListCatalogCmd) (r : ChannelRow) : bool :=
  (lc_IncludeArchived cmd || negb (bool_decide (is_Some (ch_ArchivedAt r)))) &&
  (String.eqb (lc_Name cmd) "" || search (ch_Name r) (lc_Name cmd)).
Definition channel_order (a b : ChannelRow) : comparison :=
  cmp_then (pg_cmp (ch_Transport a) (ch_Transport b)) (pg_cmp (ch_TransportChannelID a) (ch_TransportChannelID b)).
Definition ListChannelRows (cmd : ListCatalogCmd) : M (list NotifyChannel * Z) :=
  list_page messenger_channels (channel_where cmd) channel_order channel_fromDB (lc_Limit cmd) (lc_Offset cmd).
End channel_store.

(** ** services/notifytargets: the catalog *)

Section channel_service.
Context `{Env} `{Collation} `{Goque}.

Definition CreateChannel (cmd : CreateNotifyChannelCmd) : M NotifyChannel :=
  reject_if (negb (Transport_IsValid (xc_Transport cmd))) (Errorf "unsupported transport" ErrValidation);;
  author ← actorID (xc_Actor cmd);
  channel ← CreateChannelRow (mkNotifyChannel uuid_Nil (xc_Transport cmd) (xc_TransportChannelID cmd) (xc_Name cmd) (xc_Description cmd)
                                zeroTime (Some author) None None None);
  catalog_publishAudit (NotifyChannelCreated (xc_Actor cmd) channel);;
  mret channel.

Definition applyChannel (channel : NotifyChannel) (cmd : UpdateNotifyChannelCmd) (editor : UUID) : NotifyChannel :=
  channel <| nc_Name := overlay (yc_Name cmd) (nc_Name channel) |>
          <| nc_Description := overlay (yc_Description cmd) (nc_Description channel) |>
          <| nc_TransportChannelID := overlay (yc_TransportChannelID cmd) (nc_TransportChannelID channel) |>
          <| nc_UpdatedByUserID := Some editor |>.
Definition channelChanges (before after : NotifyChannel) : list AuditFieldChange :=
  change "name" (nc_Name before) (nc_Name after) ++
  change "description" (nc_Description before) (nc_Description after) ++
  change "transport_channel_id" (nc_TransportChannelID before) (nc_TransportChannelID after).
Definition update_channel_in_tx (cmd : UpdateNotifyChannelCmd) : M (NotifyChannel * list AuditFieldChange) :=
  before ← GetChannelForUpdate (yc_ID cmd);
  editor ← actorID (yc_Actor cmd);
  let channel := applyChannel before cmd editor in
  updated ← UpdateChannelRow channel;
  mret (updated, channelChanges before channel).
Definition UpdateChannel (cmd : UpdateNotifyChannelCmd) : M NotifyChannel :=
  r ← WithinTx (update_channel_in_tx cmd);
  catalog_publishAudit (NotifyChannelUpdated (yc_Actor cmd) (fst r) (snd r));;
  mret (fst r).

(** archive_channel.go *)
Definition set_archived_in_tx (channelID : UUID) (archived : bool) (write : UUID -> M unit) : M (option NotifyChannel) :=
  r ← attempt (GetChannelForUpdate channelID);
  match r with
  | inr err => if errors_Is err ErrNotifyChannelNotFound then mret None else raise err
  | inl channel =>
      if Bool.eqb (bool_decide (is_Some (nc_ArchivedAt channel))) archived then mret None
      else write channelID;; mret (Some channel)
  end.
Definition setArchived (channelID : UUID) (archived : bool) (write : UUID -> M unit) : M (option NotifyChannel) :=
  WithinTx (set_archived_in_tx channelID archived write).
Definition ArchiveChannel (actor : option User) (channelID : UUID) : M unit :=
  channel ← setArchived channelID true channel_Archive;
  match channel with
  | Some c => catalog_publishAudit (NotifyChannelArchived actor c)
  | None => mret tt
  end.
Definition UnarchiveChannel (actor : option User) (channelID : UUID) : M unit :=
  channel ← setArchived channelID false channel_Unarchive;
  match channel with
  | Some c => catalog_publishAudit (NotifyChannelUnarchived actor c)
  | None => mret tt
  end.
Definition GetChannel (channelID : UUID) : M NotifyChannel := row ← channel_Get channelID; mret (channel_fromDB row).
Definition AvailableChannels (cmd : ListCatalogCmd) : M (list NotifyChannel * Z) := ListChannelRows cmd.
End channel_service.
