(* ===== verification/CatalogSpec.v ===== *)
(** * What the catalogs promise

    Both catalogs are one kind of table: entries are added under keys nobody has,
    changed one at a time in the ways their kind allows, and never lost.  Every
    request of either service makes one such step or does nothing at all. *)
From Stdlib Require Import ZArith Lia Ascii String.
From stdpp Require Import base sorting sets strings numbers list.
From S2P Require Import Prelude Go Entity Conflict AuditTrail Schema Logic Dbtx Like MaintStore Fixtures Queue NotifyTargets Catalog.
Open Scope Z_scope.

(** ** The abstract catalog *)

Class CatalogTable (R : Type) := {
  row_id : R -> UUID;
  (** what the unique indexes keep apart *)
  clash : R -> R -> bool;
  (** what a new entry is like, and how an entry may change *)
  born : R -> Prop;
  edits : R -> R -> Prop;
  clash_sym : ∀ a b, clash a b = clash b a;
  clash_id : ∀ a b, row_id a = row_id b -> clash a b = true;
  edits_id : ∀ a b, edits a b -> row_id b = row_id a }.

Section catalog.
Context `{CatalogTable R}.

Inductive catalog_step : list R -> list R -> Prop :=
  | cat_add l row : born row -> (∀ r, r ∈ l -> clash row r = false) -> catalog_step l (l ++ [row])
  | cat_edit l i r r' : l !! i = Some r -> edits r r' -> (∀ j x, j ≠ i -> l !! j = Some x -> clash r' x = false) ->
      catalog_step l (<[i := r']> l).

Definition unique (l : list R) : Prop := ∀ i j x y, i ≠ j -> l !! i = Some x -> l !! j = Some y -> clash x y = false.

Lemma unique_ids l i j x y : unique l -> l !! i = Some x -> l !! j = Some y -> row_id x = row_id y -> i = j.
Proof.
  intros Hu Hi Hj Hid. destruct (decide (i = j)); [done|]. pose proof (Hu _ _ _ _ n Hi Hj). by rewrite (clash_id _ _ Hid) in *.
Qed.

Lemma step_unique l l' : catalog_step l l' -> unique l -> unique l'.
Proof.
  intros [l0 row _ Hf|l0 i r r' Hi _ Hf] Hu a b x y Hab Ha Hb.
  - apply lookup_app_Some in Ha as [Ha|[Hla [Ea <-]%list_lookup_singleton_Some]];
      apply lookup_app_Some in Hb as [Hb|[Hlb [Eb <-]%list_lookup_singleton_Some]].
    + by eapply Hu.
    + rewrite clash_sym. by eapply Hf, list_elem_of_lookup_2.
    + by eapply Hf, list_elem_of_lookup_2.
    + lia.
  - destruct (decide (a = i)) as [->|Na], (decide (b = i)) as [->|Nb]; [done| | |].
    + rewrite list_lookup_insert_ne in Hb by done. rewrite list_lookup_insert_eq in Ha by by eapply lookup_lt_Some.
      injection Ha as <-. by apply (Hf b).
    + rewrite list_lookup_insert_ne in Ha by done. rewrite list_lookup_insert_eq in Hb by by eapply lookup_lt_Some.
      injection Hb as <-. rewrite clash_sym. by apply (Hf a).
    + rewrite list_lookup_insert_ne in Ha, Hb by done. by apply (Hu a b).
Qed.

(** Nothing is lost, and what changed changed as its kind allows. *)
Lemma step_kept l l' : catalog_step l l' -> ∀ r, r ∈ l -> ∃ r', r' ∈ l' ∧ row_id r' = row_id r ∧ (r' = r ∨ edits r r').
Proof.
  intros [l0 row _ _|l0 i x x' Hi He _] r Hr.
  - exists r. split_and!; [set_solver|done|by left].
  - apply list_elem_of_lookup in Hr as [j Hj]. destruct (decide (j = i)) as [->|Hne].
    + rewrite Hi in Hj. injection Hj as ->. exists x'. split_and!; [|by apply edits_id|by right].
      apply list_elem_of_lookup_2 with i. apply list_lookup_insert_eq. by eapply lookup_lt_Some.
    + exists r. split_and!; [|done|by left]. apply list_elem_of_lookup_2 with j. by rewrite list_lookup_insert_ne.
Qed.

(** An UPDATE by primary key changes one row. *)
Lemma update_one l i r (f : R -> R) id :
  unique l -> l !! i = Some r -> row_id r = id -> (fun x => if N.eqb (row_id x) id then f x else x) <$> l = <[i := f r]> l.
Proof.
  intros Hu Hi <-. apply list_eq. intros j. rewrite list_lookup_fmap. destruct (decide (j = i)) as [->|Hne].
  - rewrite Hi, list_lookup_insert_eq by by eapply lookup_lt_Some. simpl. by rewrite N.eqb_refl.
  - rewrite list_lookup_insert_ne by done. destruct (l !! j) as [x|] eqn:Hj; [|done]. simpl.
    destruct (N.eqb_spec (row_id x) (row_id r)) as [E|]; [|done]. by destruct Hne; eapply unique_ids.
Qed.

Lemma find_row l id r : List.find (fun x => N.eqb (row_id x) id) l = Some r -> ∃ i, l !! i = Some r ∧ row_id r = id.
Proof.
  intros [Hin He%N.eqb_eq]%find_some. rewrite <- list_elem_of_In in Hin. apply list_elem_of_lookup in Hin as [i Hi]. eauto.
Qed.

(** The check of an UPDATE for the other rows. *)
Lemma update_free l i r r' :
  unique l -> l !! i = Some r -> row_id r' = row_id r ->
  existsb (fun x => negb (N.eqb (row_id x) (row_id r')) && clash r' x) l = false ->
  ∀ j x, j ≠ i -> l !! j = Some x -> clash r' x = false.
Proof.
  intros Hu Hi Hid Hex j x Hne Hj. apply not_true_iff_false. intros Hc. rewrite <- not_true_iff_false, existsb_exists in Hex.
  apply Hex. exists x. rewrite <- list_elem_of_In. split; [by apply list_elem_of_lookup_2 with j|]. rewrite Hc, andb_true_r.
  apply negb_true_iff, N.eqb_neq. intros E. apply Hne. eapply unique_ids; [done..|congruence].
Qed.
End catalog.

(** ** The two tables *)

(** A resource is edited by somebody, or archived or brought back; who created it
    and when never change, and an edit leaves its status alone. *)
Inductive resource_edits : ResourceRow -> ResourceRow -> Prop :=
  | resource_edited r name description external at_ editor :
      resource_edits r (r <| rs_Name := name |> <| rs_Description := description |> <| rs_ExternalID := external |>
        <| rs_UpdatedAt := Some at_ |> <| rs_UpdatedByUserID := Some editor |>)
  | resource_toggled r status at_ :
      status ∈ [ResourceStatusActive; ResourceStatusArchived] -> status ≠ rs_Status r ->
      resource_edits r (r <| rs_Status := status |> <| rs_UpdatedAt := Some at_ |>).
Definition resource_born (r : ResourceRow) : Prop :=
  rs_Status r = ResourceStatusActive ∧ is_Some (rs_CreatedByUserID r) ∧ rs_UpdatedAt r = None ∧ rs_UpdatedByUserID r = None.

#[export] Program Instance resources_table `{Collation} : CatalogTable ResourceRow := {|
  row_id := rs_ID; clash := resource_clash; born := resource_born; edits := resource_edits |}.
Next Obligation. intros ? a b. unfold resource_clash. by rewrite N.eqb_sym, String.eqb_sym. Qed.
Next Obligation. intros ? a b E. unfold resource_clash. by rewrite E, N.eqb_refl. Qed.
Next Obligation. by intros ? a b []. Qed.

(** A channel keeps its transport, its author and its date. *)
Inductive channel_edits : ChannelRow -> ChannelRow -> Prop :=
  | channel_edited r name description address at_ editor :
      channel_edits r (r <| ch_Name := name |> <| ch_Description := description |> <| ch_TransportChannelID := address |>
        <| ch_UpdatedAt := Some at_ |> <| ch_UpdatedByUserID := Some editor |>)
  | channel_toggled r archived :
      is_Some (ch_ArchivedAt r) ↔ ~ is_Some archived -> channel_edits r (r <| ch_ArchivedAt := archived |>).
Definition channel_born (r : ChannelRow) : Prop :=
  Transport_IsValid (ch_Transport r) = true ∧ ch_ArchivedAt r = None ∧ is_Some (ch_CreatedByUserID r) ∧ ch_UpdatedAt r = None ∧
  ch_UpdatedByUserID r = None.

#[export] Program Instance channels_table : CatalogTable ChannelRow := {|
  row_id := ch_ID; clash := channel_clash; born := channel_born; edits := channel_edits |}.
Next Obligation.
  intros a b. unfold channel_clash. rewrite N.eqb_sym, (String.eqb_sym (ch_Transport a)). by rewrite (String.eqb_sym (ch_TransportChannelID a)).
Qed.
Next Obligation. intros a b E. unfold channel_clash. by rewrite E, N.eqb_refl. Qed.
Next Obligation. by intros a b []. Qed.

(** ** Requests *)

Inductive CatalogRequest :=
  | QCreateResource (cmd : CreateResourceCmd) | QUpdateResource (cmd : UpdateResourceCmd)
  | QArchiveResource (actor : option User) (id : UUID) | QUnarchiveResource (actor : option User) (id : UUID)
  | QGetResource (id : UUID) | QSearchResources (name : string) | QListResources (cmd : ListCatalogCmd)
  | QCreateChannel (cmd : CreateNotifyChannelCmd) | QUpdateChannel (cmd : UpdateNotifyChannelCmd)
  | QArchiveChannel (actor : option User) (id : UUID) | QUnarchiveChannel (actor : option User) (id : UUID)
  | QGetChannel (id : UUID) | QListChannels (cmd : ListCatalogCmd).

(** What a request may do to the database: one entry of one catalog, and the
    queue of audit entries. *)
Definition moved_resources `{Collation} (db db' : DB) : Prop :=
  ∃ rs tasks, catalog_step (resources db) rs ∧ db' = db <| resources := rs |> <| goque_tasks := tasks |>.
Definition moved_channels (db db' : DB) : Prop :=
  ∃ cs tasks, catalog_step (messenger_channels db) cs ∧ db' = db <| messenger_channels := cs |> <| goque_tasks := tasks |>.
Definition catalogs_ok `{Collation} (db : DB) : Prop := unique (resources db) ∧ unique (messenger_channels db).

Section requests.
Context `{Env} `{Collation} `{Goque}.

Definition answered {A} (m : M A) : M unit := _ ← m; mret tt.
Definition serve_catalog (q : CatalogRequest) : M unit :=
  match q with
  | QCreateResource cmd => answered (CreateResource cmd)
  | QUpdateResource cmd => answered (UpdateResource cmd)
  | QArchiveResource actor id => ArchiveResource actor id
  | QUnarchiveResource actor id => UnarchiveResource actor id
  | QGetResource id => answered (GetResourceByID id)
  | QSearchResources name => answered (GetResourcesLikeName name)
  | QListResources cmd => answered (ListResources cmd)
  | QCreateChannel cmd => answered (CreateChannel cmd)
  | QUpdateChannel cmd => answered (UpdateChannel cmd)
  | QArchiveChannel actor id => ArchiveChannel actor id
  | QUnarchiveChannel actor id => UnarchiveChannel actor id
  | QGetChannel id => answered (GetChannel id)
  | QListChannels cmd => answered (AvailableChannels cmd)
  end.

(** *** Parts that only read *)

Definition still {A} (m : M A) : Prop := ∀ ctx w, w_db (snd (m ctx w)) = w_db w.
Lemma reading_run {A} (m : M A) ctx w r w' : still m -> m ctx w = (r, w') -> w_db w' = w_db w.
Proof. intros Hs E. specialize (Hs ctx w). by rewrite E in Hs. Qed.
Lemma reading_bind {A B} (m : M A) (k : A -> M B) : still m -> (∀ a, still (k a)) -> still (m ≫= k).
Proof.
  intros Hm Hk ctx w. specialize (Hm ctx w). unfold mbind, M_bind. destruct (m ctx w) as [[a|e|s] w1]; simpl in *; [|done..].
  rewrite <- Hm. apply Hk.
Qed.
Lemma reading_query {A} (f : DB -> A) : still (query f).
Proof. intros ctx w. unfold query, sql. by destruct (env_fault _). Qed.
Lemma reading_attempt {A} (m : M A) : still m -> still (attempt m).
Proof. intros Hm ctx w. specialize (Hm ctx w). unfold attempt. by destruct (m ctx w) as [[]]. Qed.

Lemma still_get_resource find : still (get_resource find).
Proof. apply reading_bind; [apply reading_query|]. by intros [row|] ctx w. Qed.
Lemma still_get_channel id : still (GetChannelForUpdate id).
Proof. repeat (apply reading_bind; [|intros ?]); [apply reading_query| |]; repeat case_goal; by intros ctx w. Qed.
Lemma still_list {R E} (table : DB -> list R) where_ cmp (from : R -> E) limit offset : still (list_page table where_ cmp from limit offset).
Proof.
  apply reading_bind; [apply reading_query|]. intros total. apply reading_bind; [by destruct (_ <? _)|]. intros _.
  apply reading_bind; [|by intros page ctx w]. intros ctx w. unfold sql. destruct (env_fault _); [done|]. by destruct (offset <? 0).
Qed.

Lemma get_resource_Ok find ctx w r w' :
  get_resource find ctx w = (Ok r, w') -> w_db w' = w_db w ∧ ∃ row, find (w_db w) = Some row ∧ r = fromDBResource row.
Proof.
  intros Hrun. split; [by eapply reading_run; [apply still_get_resource|]|]. apply bind_Ok in Hrun as (o & w1 & (-> & _ & _)%query_Ok & Hrun).
  destruct (find (w_db w)) as [row|]; [|done]. injection Hrun as <- _. eauto.
Qed.
Lemma get_channel_Ok id ctx w c w' :
  GetChannelForUpdate id ctx w = (Ok c, w') -> w_db w' = w_db w ∧ ∃ row, find_channel id (w_db w) = Some row ∧ c = channel_fromDB row.
Proof.
  intros Hrun. split; [by eapply reading_run; [apply still_get_channel|]|]. unfold GetChannelForUpdate, channel_Get in Hrun.
  apply bind_Ok in Hrun as (row & w1 & Hget & Hrun). injection Hrun as <- _.
  apply bind_Ok in Hget as (o & w2 & (-> & _ & _)%query_Ok & Hget). unfold find_channel.
  destruct (List.find _ _) as [row'|]; [|done]. injection Hget as -> _. eauto.
Qed.

(** The audit entry goes to the queue, and its failure is swallowed. *)
Lemma publish_run action ctx w r w' :
  catalog_publishAudit action ctx w = (r, w') -> (∃ tasks, w_db w' = (w_db w) <| goque_tasks := tasks |>) ∧ ∀ e, r ≠ Err e.
Proof.
  unfold catalog_publishAudit. intros Hrun. split.
  - assert (keeps (fun db => ∃ tasks, db = (w_db w) <| goque_tasks := tasks |>) (_ ← attempt (Publish action); mret tt) (fun _ => True)) as Hk.
    { apply keeps_bind with (fun _ => True); [|intros; by apply keeps_ret].
      eapply keeps_weaken; [apply keeps_attempt with (Q := fun _ => True), keeps_Publish|done]. intros db l [tasks ->]. by exists l. }
    apply (keeps_run _ _ _ _ _ _ _ Hk Hrun). exists (goque_tasks (w_db w)). by destruct (w_db w).
  - unfold mbind, M_bind, attempt in Hrun. by destruct (Publish action ctx w) as [[] w1]; injection Hrun as <- <-.
Qed.

(** The generic lemmas at the two tables. *)
Lemma find_resource_row id db row : find_resource id db = Some row -> ∃ i, resources db !! i = Some row ∧ rs_ID row = id.
Proof. exact (find_row (resources db) id row). Qed.
Lemma find_channel_row id db row : find_channel id db = Some row -> ∃ i, messenger_channels db !! i = Some row ∧ ch_ID row = id.
Proof. exact (find_row (messenger_channels db) id row). Qed.
Lemma update_resource_one l i row f id :
  unique l -> l !! i = Some row -> rs_ID row = id -> (fun x => if N.eqb (rs_ID x) id then f x else x) <$> l = <[i := f row]> l.
Proof. exact (update_one l i row f id). Qed.
Lemma update_channel_one l i row f id :
  unique l -> l !! i = Some row -> ch_ID row = id -> (fun x => if N.eqb (ch_ID x) id then f x else x) <$> l = <[i := f row]> l.
Proof. exact (update_one l i row f id). Qed.

(** *** The writes, inside a transaction or alone *)

Lemma CreateResourceRow_run r ctx w x w' :
  res_Status r = ResourceStatusActive -> is_Some (res_CreatedByUserID r) -> res_UpdatedAt r = None -> res_UpdatedByUserID r = None ->
  CreateResourceRow r ctx w = (x, w') ->
  (w_db w' = w_db w ∧ ∀ a, x ≠ Ok a) ∨
  (∃ rs a, x = Ok a ∧ catalog_step (resources (w_db w)) rs ∧ w_db w' = (w_db w) <| resources := rs |>).
Proof.
  intros Hst Hby Hat Hed. unfold CreateResourceRow, mbind, M_bind, attempt, sql. destruct (env_fault _) as [f|].
  { destruct (dbtx_ErrorIs _ _); intros [= <- <-]; by left. }
  unfold require. set (row := _ <| rs_CreatedAt := _ |>). destruct (existsb (resource_clash row) (resources (w_db w))) eqn:Ex; simpl.
  { intros [= <- <-]; by left. }
  intros [= <- <-]. right. eexists _, _. split; [done|]. split; [|done]. apply cat_add; [done|].
  intros y Hy. apply not_true_iff_false. intros Hc. rewrite <- not_true_iff_false, existsb_exists in Ex. apply Ex. exists y. by rewrite <- list_elem_of_In.
Qed.

Lemma UpdateResourceRow_Ok r editor ctx w x w' :
  unique (resources (w_db w)) -> res_UpdatedByUserID r = Some editor -> UpdateResourceRow r ctx w = (Ok x, w') ->
  ∃ rs, catalog_step (resources (w_db w)) rs ∧ w_db w' = (w_db w) <| resources := rs |>.
Proof.
  intros Hu He. unfold UpdateResourceRow. intros (now & w1 & [= <- <-] & Hrun)%bind_Ok.
  apply bind_Ok in Hrun as (res & w2 & Hsql%attempt_Ok & Hrun).
  destruct res as [[row|]|e]; [|done|by destruct (dbtx_ErrorIs _ _)]. injection Hrun as _ <-.
  apply sql_Ok in Hsql as (db' & Hf & ->). simpl in Hf.
  destruct (find_resource _ _) as [old|] eqn:Ef; [|done]. apply find_resource_row in Ef as (i & Hi & Hid).
  apply require_Ok in Hf as [Hfree%negb_true_iff Hf]. injection Hf as <- <-. eexists. split; [|done].
  rewrite (update_resource_one _ i old (edited_resource r _)) by done. apply cat_edit with old; [done| |].
  - simpl. unfold edited_resource. rewrite He. constructor.
  - by apply (update_free _ i old).
Qed.

Lemma set_resource_status_Ok status id ctx w w' row :
  unique (resources (w_db w)) -> find_resource id (w_db w) = Some row -> status ∈ [ResourceStatusActive; ResourceStatusArchived] ->
  status ≠ rs_Status row -> set_resource_status status id ctx w = (Ok tt, w') ->
  ∃ rs, catalog_step (resources (w_db w)) rs ∧ w_db w' = (w_db w) <| resources := rs |>.
Proof.
  intros Hu Hrow Hs Hne (db' & [= <-] & ->)%sql_Ok. apply find_resource_row in Hrow as (i & Hi & Hid). eexists. split; [|done].
  rewrite (update_resource_one _ i row (fun x => x <| rs_Status := status |> <| rs_UpdatedAt := Some _ |>)) by done.
  apply cat_edit with row; [done|by constructor|]. intros j y Hj Hy. change (clash row y = false). eapply Hu; [|done..]. done.
Qed.

Lemma set_status_Ok id status w o w' :
  unique (resources (w_db w)) -> status ∈ [ResourceStatusActive; ResourceStatusArchived] ->
  setStatus id status (set_resource_status status) background w = (Ok o, w') ->
  match o with
  | None => w_db w' = w_db w
  | Some _ => ∃ rs, catalog_step (resources (w_db w)) rs ∧ w_db w' = (w_db w) <| resources := rs |>
  end.
Proof.
  intros Hu Hs [(e & [=] & _)|(a & w2 & [= <-] & Hdb & _ & Hrun)]%WithinTx_cases. rewrite Hdb. unfold set_status_in_tx in Hrun.
  apply bind_Ok in Hrun as (r & w3 & Hget & Hrun).
  pose proof (reading_run _ _ _ _ _ (reading_attempt _ (still_get_resource _)) Hget) as Hdb3. apply attempt_Ok in Hget. destruct r as [r|e].
  - apply get_resource_Ok in Hget as (_ & row & Hrow & ->). destruct (String.eqb_spec (res_Status (fromDBResource row)) status) as [|Hne].
    + by injection Hrun as <- <-.
    + apply bind_Ok in Hrun as ([] & w4 & Hw & [= <- <-]). change (w_db (tick w)) with (w_db w) in Hdb3, Hrow. rewrite <- Hdb3 in *.
      eapply set_resource_status_Ok; [done|exact Hrow|done| |exact Hw]. by apply not_eq_sym.
  - destruct (errors_Is _ _); [|done]. by injection Hrun as <- <-.
Qed.

Lemma CreateChannelRow_run c ctx w x w' :
  Transport_IsValid (nc_Transport c) = true -> nc_UpdatedAt c = None -> nc_UpdatedByUserID c = None -> is_Some (nc_CreatedByUserID c) ->
  CreateChannelRow c ctx w = (x, w') ->
  (w_db w' = w_db w ∧ ∀ a, x ≠ Ok a) ∨
  (∃ cs a, x = Ok a ∧ catalog_step (messenger_channels (w_db w)) cs ∧ w_db w' = (w_db w) <| messenger_channels := cs |>).
Proof.
  intros Hv Hat Hed Hby. unfold CreateChannelRow, mbind, M_bind, attempt, sql. destruct (env_fault _) as [f|].
  { destruct (dbtx_ErrorIs _ _); intros [= <- <-]; by left. }
  unfold require. set (row := _ <| ch_CreatedAt := _ |>).
  destruct (existsb (channel_clash row) (messenger_channels (w_db w))) eqn:Ex; simpl; [intros [= <- <-]; by left|].
  intros [= <- <-]. right. eexists _, _. split; [done|]. split; [|done]. apply cat_add; [done|].
  intros y Hy. apply not_true_iff_false. intros Hc. rewrite <- not_true_iff_false, existsb_exists in Ex. apply Ex. exists y. by rewrite <- list_elem_of_In.
Qed.

Lemma UpdateChannelRow_Ok c editor ctx w x w' :
  unique (messenger_channels (w_db w)) -> nc_UpdatedByUserID c = Some editor -> UpdateChannelRow c ctx w = (Ok x, w') ->
  ∃ cs, catalog_step (messenger_channels (w_db w)) cs ∧ w_db w' = (w_db w) <| messenger_channels := cs |>.
Proof.
  intros Hu He. unfold UpdateChannelRow. intros (now & w1 & [= <- <-] & Hrun)%bind_Ok.
  apply bind_Ok in Hrun as (res & w2 & Hsql%attempt_Ok & Hrun).
  destruct res as [[row|]|e]; [|done|by destruct (dbtx_ErrorIs _ _)]. injection Hrun as _ <-.
  apply sql_Ok in Hsql as (db' & Hf & ->). simpl in Hf.
  destruct (find_channel _ _) as [old|] eqn:Ef; [|done]. apply find_channel_row in Ef as (i & Hi & Hid).
  apply require_Ok in Hf as [Hfree%negb_true_iff Hf]. injection Hf as <- <-. eexists. split; [|done].
  rewrite (update_channel_one _ i old (edited_channel c _)) by done. apply cat_edit with old; [done| |].
  - simpl. unfold edited_channel. rewrite He. constructor.
  - by apply (update_free _ i old).
Qed.

Lemma setArchivedAt_Ok archived id ctx w w' row :
  unique (messenger_channels (w_db w)) -> find_channel id (w_db w) = Some row -> bool_decide (is_Some (ch_ArchivedAt row)) ≠ archived ->
  setArchivedAt archived id ctx w = (Ok tt, w') ->
  ∃ cs, catalog_step (messenger_channels (w_db w)) cs ∧ w_db w' = (w_db w) <| messenger_channels := cs |>.
Proof.
  intros Hu Hrow Hne (db' & [= <-] & ->)%sql_Ok. apply find_channel_row in Hrow as (i & Hi & Hid). eexists. split; [|done].
  rewrite (update_channel_one _ i row (fun x => x <| ch_ArchivedAt := if archived then Some _ else None |>)) by done.
  apply cat_edit with row; [done| |].
  - constructor. destruct archived; case_bool_decide; try done.
    split; [done|]. intros Hn. by destruct Hn.
  - intros j y Hj Hy. change (clash row y = false). by apply (Hu i j).
Qed.

Lemma set_archived_Ok id archived w o w' :
  unique (messenger_channels (w_db w)) -> setArchived id archived (setArchivedAt archived) background w = (Ok o, w') ->
  match o with
  | None => w_db w' = w_db w
  | Some _ => ∃ cs, catalog_step (messenger_channels (w_db w)) cs ∧ w_db w' = (w_db w) <| messenger_channels := cs |>
  end.
Proof.
  intros Hu [(e & [=] & _)|(a & w2 & [= <-] & Hdb & _ & Hrun)]%WithinTx_cases. rewrite Hdb. unfold set_archived_in_tx in Hrun.
  apply bind_Ok in Hrun as (r & w3 & Hget & Hrun).
  pose proof (reading_run _ _ _ _ _ (reading_attempt _ (still_get_channel _)) Hget) as Hdb3. apply attempt_Ok in Hget. destruct r as [r|e].
  - apply get_channel_Ok in Hget as (_ & row & Hrow & ->).
    destruct (Bool.eqb (bool_decide (is_Some (nc_ArchivedAt (channel_fromDB row)))) archived) eqn:Ea; [by injection Hrun as <- <-|].
    apply bind_Ok in Hrun as ([] & w4 & Hw & [= <- <-]). change (w_db (tick w)) with (w_db w) in Hdb3, Hrow. rewrite <- Hdb3 in *.
    eapply setArchivedAt_Ok; [done|exact Hrow| |exact Hw]. by apply eqb_false_iff.
  - destruct (errors_Is _ _); [|done]. by injection Hrun as <- <-.
Qed.

(** *** Whole requests *)

(** After the commit only the audit entry follows. *)
Lemma resources_then_audit action ctx w w1 r w' rs :
  catalog_step (resources (w_db w)) rs -> w_db w1 = (w_db w) <| resources := rs |> ->
  catalog_publishAudit action ctx w1 = (r, w') -> moved_resources (w_db w) (w_db w') ∧ ∀ e, r ≠ Err e.
Proof. intros Hs Hdb [[tasks Hq] Hr]%publish_run. split; [|done]. exists rs, tasks. by rewrite Hq, Hdb. Qed.
Lemma channels_then_audit action ctx w w1 r w' cs :
  catalog_step (messenger_channels (w_db w)) cs -> w_db w1 = (w_db w) <| messenger_channels := cs |> ->
  catalog_publishAudit action ctx w1 = (r, w') -> moved_channels (w_db w) (w_db w') ∧ ∀ e, r ≠ Err e.
Proof. intros Hs Hdb [[tasks Hq] Hr]%publish_run. split; [|done]. exists cs, tasks. by rewrite Hq, Hdb. Qed.

(** What every request does. *)
Definition moves_once {A} (m : M A) : Prop := ∀ w r w', catalogs_ok (w_db w) -> m background w = (r, w') ->
  w_db w' = w_db w ∨ ((moved_resources (w_db w) (w_db w') ∨ moved_channels (w_db w) (w_db w')) ∧ ∀ e, r ≠ Err e).

Lemma moves_still {A} (m : M A) : still m -> moves_once m.
Proof. intros Hs w r w' _ Hrun. left. by eapply reading_run. Qed.
Lemma moves_answered {A} (m : M A) : moves_once m -> moves_once (answered m).
Proof.
  intros Hm w r w' Hok Hrun. unfold answered, mbind, M_bind in Hrun. destruct (m background w) as [r0 w1] eqn:E.
  destruct (Hm _ _ _ Hok E) as [Hdb|[Hmv Hne]]; destruct r0 as [a|e|s]; injection Hrun as <- <-; [by left..|by right| |by right].
  by destruct (Hne e).
Qed.

Lemma moves_setStatus id status (mk : ResourceDetails -> AuditAction) :
  status ∈ [ResourceStatusActive; ResourceStatusArchived] ->
  moves_once (r ← setStatus id status (set_resource_status status);
              match r with Some r => catalog_publishAudit (mk r) | None => mret tt end).
Proof.
  intros Hs w r w' [Hu _] Hrun. apply bind_inv in Hrun as [(o & w1 & Ho & Hrun)|(_ & r0 & Ho & Hno)].
  - apply set_status_Ok in Ho; [|done..]. destruct o as [x|]; [|injection Hrun as <- <-; by left].
    destruct Ho as (rs & Hstep & Hdb). destruct (resources_then_audit _ _ _ _ _ _ _ Hstep Hdb Hrun) as [Hm Hne]. right. split; [by left|done].
  - left. apply WithinTx_cases in Ho as [(e & _ & Hdb)|(a & w2 & -> & _)]; [done|]. by destruct (Hno a).
Qed.
Lemma moves_setArchived id archived (mk : NotifyChannel -> AuditAction) :
  moves_once (c ← setArchived id archived (setArchivedAt archived);
              match c with Some c => catalog_publishAudit (mk c) | None => mret tt end).
Proof.
  intros w r w' [_ Hu] Hrun. apply bind_inv in Hrun as [(o & w1 & Ho & Hrun)|(_ & r0 & Ho & Hno)].
  - apply set_archived_Ok in Ho; [|done..]. destruct o as [x|]; [|injection Hrun as <- <-; by left].
    destruct Ho as (cs & Hstep & Hdb). destruct (channels_then_audit _ _ _ _ _ _ _ Hstep Hdb Hrun) as [Hm Hne]. right. split; [by right|done].
  - left. apply WithinTx_cases in Ho as [(e & _ & Hdb)|(a & w2 & -> & _)]; [done|]. by destruct (Hno a).
Qed.

(** An answer after the audit entry. *)
Lemma then_answer {A} (m : M unit) (a : A) ctx w r w' :
  (m;; mret a) ctx w = (r, w') -> ∃ r0, m ctx w = (r0, w') ∧ ((∀ e, r0 ≠ Err e) -> ∀ e, r ≠ Err e).
Proof.
  unfold mbind, M_bind. destruct (m ctx w) as [[]]; intros [= <- <-]; eexists; (split; [done|]); [done| |done].
  intros Hne. by destruct (Hne e).
Qed.

Lemma getOrCreate_run cmd ctx w x w' :
  getOrCreate cmd ctx w = (x, w') ->
  (w_db w' = w_db w ∧ ∀ r, x ≠ Ok (r, true)) ∨
  (∃ rs r, x = Ok (r, true) ∧ catalog_step (resources (w_db w)) rs ∧ w_db w' = (w_db w) <| resources := rs |>).
Proof.
  unfold getOrCreate. intros Hrun. assert (still (attempt (GetResourceByName (xr_Name cmd)))) as Hstill by apply reading_attempt, still_get_resource.
  apply bind_inv in Hrun as [(r & w1 & Hget & Hrun)|(Hne & r0 & Hget & _)]; pose proof (reading_run _ _ _ _ _ Hstill Hget) as Hdb1; [|by left].
  destruct r as [existing|err]; [injection Hrun as <- <-; by left|].
  destruct (negb _); [injection Hrun as <- <-; by left|]. destruct (xr_Actor cmd) as [u|]; [|injection Hrun as <- <-; by left].
  change ((a ← CreateResourceRow (mkResource uuid_Nil (xr_Name cmd) (xr_Description cmd) (xr_ExternalID cmd) ResourceStatusActive zeroTime
    (Some (u_ID u)) None None); mret (a, true)) ctx w1 = (x, w')) in Hrun. rewrite <- Hdb1.
  apply bind_inv in Hrun as [(r & w2 & Hc & Hrun)|(Hne & r0 & Hc & Hno)]; apply CreateResourceRow_run in Hc; try done.
  - injection Hrun as <- <-. destruct Hc as [[_ Hno]|(rs & a & [= <-] & Hs & Hdb)]; [by destruct (Hno r)|]. right. by exists rs, r.
  - destruct Hc as [[Hdb _]|(rs & a & -> & _)]; [by left|by destruct (Hno a)].
Qed.

Lemma moves_CreateResource cmd : moves_once (CreateResource cmd).
Proof.
  intros w r w' [Hu _]. unfold CreateResource, mbind at 1, M_bind, attempt. destruct (getOrCreate cmd background w) as [x w1] eqn:E.
  apply getOrCreate_run in E as [[Hdb Hne]|(rs & x0 & -> & Hs & Hdb)].
  - destruct x as [[x0 []]|e|p]; [by destruct (Hne x0)|intros [= <- <-]; by left| |intros [= <- <-]; by left].
    destruct (errors_Is e ErrResourceAlreadyExists); [|intros [= <- <-]; by left]. intros Hrun. left. rewrite <- Hdb.
    unfold wrap_err in Hrun. destruct (GetResourceByName _ background w1) as [x w2] eqn:E.
    rewrite <- (reading_run _ _ _ _ _ (still_get_resource _) E). by destruct x; injection Hrun as <- <-.
  - intros (r0 & Hp & Hne)%then_answer. destruct (resources_then_audit _ _ _ _ _ _ _ Hs Hdb Hp) as [Hm Hno]. right. split; [by left|by apply Hne].
Qed.

Lemma moves_UpdateResource cmd : moves_once (UpdateResource cmd).
Proof.
  intros w r w' [Hu _] Hrun. unfold UpdateResource in Hrun. apply bind_inv in Hrun as [(x & w1 & Htx & Hrun)|(_ & r0 & Htx & Hno)];
    apply WithinTx_cases in Htx as [(e & Hx & Hdb)|(a & w2 & Hx & Hdb & _ & Hbody)]; [done| |by left|by destruct (Hno a)].
  injection Hx as <-. unfold update_resource_in_tx in Hbody. apply bind_Ok in Hbody as (b & w3 & [Hdb3 _]%get_resource_Ok & Hbody).
  destruct (yr_Actor cmd) as [u|]; [|done]. apply bind_Ok in Hbody as (ed & w4 & [= <- <-] & Hbody).
  apply bind_Ok in Hbody as (x' & w4 & Hup & [= _ <-]). change (w_db (tick w)) with (w_db w) in Hdb3.
  eapply UpdateResourceRow_Ok in Hup as (rs & Hs & Hdb4); [|by rewrite Hdb3|done]. rewrite Hdb3 in *. rewrite <- Hdb in Hdb4.
  apply then_answer in Hrun as (r0 & Hp & Hne). destruct (resources_then_audit _ _ _ _ _ _ _ Hs Hdb4 Hp) as [Hm Hno].
  right. split; [by left|by apply Hne].
Qed.

Lemma moves_CreateChannel cmd : moves_once (CreateChannel cmd).
Proof.
  intros w r w' [_ Hu] Hrun. unfold CreateChannel in Hrun. unfold mbind at 1, M_bind, reject_if in Hrun.
  destruct (Transport_IsValid (xc_Transport cmd)) eqn:Hv; simpl in Hrun; [|injection Hrun as <- <-; by left]. destruct (xc_Actor cmd) as [u|]; [|injection Hrun as <- <-; by left].
  change ((c ← CreateChannelRow (mkNotifyChannel uuid_Nil (xc_Transport cmd) (xc_TransportChannelID cmd) (xc_Name cmd) (xc_Description cmd)
    zeroTime (Some (u_ID u)) None None None); catalog_publishAudit (NotifyChannelCreated (Some u) c);; mret c) background w = (r, w')) in Hrun.
  apply bind_inv in Hrun as [(c & w2 & Hc & Hrun)|(Hne & r0 & Hc & Hno)]; apply CreateChannelRow_run in Hc; try done.
  - destruct Hc as [[_ Hno]|(cs & a & [= <-] & Hs & Hdb)]; [by destruct (Hno c)|].
    apply then_answer in Hrun as (r0 & Hp & Hne). destruct (channels_then_audit _ _ _ _ _ _ _ Hs Hdb Hp) as [Hm Hno].
    right. split; [by right|by apply Hne].
  - destruct Hc as [[Hdb _]|(cs & a & -> & _)]; [by left|by destruct (Hno a)].
Qed.

Lemma moves_UpdateChannel cmd : moves_once (UpdateChannel cmd).
Proof.
  intros w r w' [_ Hu] Hrun. unfold UpdateChannel in Hrun. apply bind_inv in Hrun as [(x & w1 & Htx & Hrun)|(_ & r0 & Htx & Hno)];
    apply WithinTx_cases in Htx as [(e & Hx & Hdb)|(a & w2 & Hx & Hdb & _ & Hbody)]; [done| |by left|by destruct (Hno a)].
  injection Hx as <-. unfold update_channel_in_tx in Hbody. apply bind_Ok in Hbody as (b & w3 & [Hdb3 _]%get_channel_Ok & Hbody).
  destruct (yc_Actor cmd) as [u|]; [|done]. apply bind_Ok in Hbody as (ed & w4 & [= <- <-] & Hbody).
  apply bind_Ok in Hbody as (x' & w4 & Hup & [= _ <-]). change (w_db (tick w)) with (w_db w) in Hdb3.
  eapply UpdateChannelRow_Ok in Hup as (cs & Hs & Hdb4); [|by rewrite Hdb3|done]. rewrite Hdb3 in *. rewrite <- Hdb in Hdb4.
  apply then_answer in Hrun as (r0 & Hp & Hne). destruct (channels_then_audit _ _ _ _ _ _ _ Hs Hdb4 Hp) as [Hm Hno].
  right. split; [by right|by apply Hne].
Qed.

Lemma serve_moves q : moves_once (serve_catalog q).
Proof.
  destruct q; cbn [serve_catalog]; try apply moves_answered.
  - apply moves_CreateResource.
  - apply moves_UpdateResource.
  - apply (moves_setStatus id ResourceStatusArchived (ResourceArchived actor)). set_solver.
  - apply (moves_setStatus id ResourceStatusActive (ResourceUnarchived actor)). set_solver.
  - apply moves_still, still_get_resource.
  - apply moves_still, reading_query.
  - apply moves_still, still_list.
  - apply moves_CreateChannel.
  - apply moves_UpdateChannel.
  - apply (moves_setArchived id true (NotifyChannelArchived actor)).
  - apply (moves_setArchived id false (NotifyChannelUnarchived actor)).
  - apply moves_still, still_get_channel.
  - apply moves_still, still_list.
Qed.

(** C30. The two catalogs are refined by their services.  A request, however it
    ends, leaves the database as it was, audit queue included, or makes one step
    of one catalog and touches nothing else but that queue; an error changes
    nothing.  A step adds an entry under a key nobody has, with its author, or
    changes one entry in the way its kind allows: an edit signed by its editor,
    or a real change of status; authors, dates of creation and transports never
    change, no entry is lost, and keys stay unique. *)
Theorem catalogs_refine_spec q w r w' :
  catalogs_ok (w_db w) -> serve_catalog q background w = (r, w') ->
  catalogs_ok (w_db w') ∧ (∀ e, r = Err e -> w_db w' = w_db w) ∧
  (w_db w' = w_db w ∨ moved_resources (w_db w) (w_db w') ∨ moved_channels (w_db w) (w_db w')) ∧
  (∀ x, x ∈ resources (w_db w) -> ∃ x', x' ∈ resources (w_db w') ∧ rs_ID x' = rs_ID x ∧ (x' = x ∨ resource_edits x x')) ∧
  (∀ x, x ∈ messenger_channels (w_db w) -> ∃ x', x' ∈ messenger_channels (w_db w') ∧ ch_ID x' = ch_ID x ∧ (x' = x ∨ channel_edits x x')).
Proof.
  intros Hok Hrun. destruct (serve_moves q w r w' Hok Hrun) as [Hdb|[Hm Hne]].
  - rewrite Hdb. split_and!; [done|done|by left|naive_solver..].
  - pose proof Hok as [Hr Hc]. split_and!.
    + destruct Hm as [(rs & t & Hs & ->)|(cs & t & Hs & ->)]; (split; [|done]) || (split; [done|]); by eapply step_unique.
    + intros e He. by destruct (Hne e).
    + by right.
    + destruct Hm as [(rs & t & Hs & ->)|(cs & t & Hs & ->)]; [exact (step_kept _ _ Hs)|simpl; naive_solver].
    + destruct Hm as [(rs & t & Hs & ->)|(cs & t & Hs & ->)]; [simpl; naive_solver|exact (step_kept _ _ Hs)].
Qed.
End requests.

(** Archiving a channel twice: the second time nothing happens. *)
Lemma catalogs_refine_spec_witness : ∃ w1 w2,
  @serve_catalog calm_env c_collation list_goque (QArchiveChannel (Some SystemUser) 51) background ex_world = (Ok tt, w1) ∧
  length (goque_tasks (w_db w1)) = 1%nat ∧
  @serve_catalog calm_env c_collation list_goque (QArchiveChannel (Some SystemUser) 51) background w1 = (Ok tt, w2) ∧
  length (goque_tasks (w_db w2)) = 1%nat ∧ @catalogs_ok c_collation (w_db w2).
Proof.
  assert (@catalogs_ok c_collation (w_db ex_world)) as Hok.
  { split; intros i j x y Hij Hi Hj; destruct i as [|[|i]], j as [|[|j]]; cbn in Hi, Hj; simplify_eq; reflexivity. }
  pose (run := @serve_catalog calm_env c_collation list_goque (QArchiveChannel (Some SystemUser) 51) background).
  exists (snd (run ex_world)), (snd (run (snd (run ex_world)))).
  split; [vm_compute; reflexivity|]. split; [vm_compute; reflexivity|]. split; [vm_compute; reflexivity|]. split; [vm_compute; reflexivity|].
  eapply (@catalogs_refine_spec calm_env c_collation list_goque (QArchiveChannel (Some SystemUser) 51) (snd (run ex_world)) (Ok tt));
    [|vm_compute; reflexivity].
  eapply (@catalogs_refine_spec calm_env c_collation list_goque (QArchiveChannel (Some SystemUser) 51) ex_world (Ok tt));
    [exact Hok|vm_compute; reflexivity].
Defined.
