(* ===== verification/IntegrationSpec.v ===== *)
(** * What the registry promises

    Seen from outside, the registry is a vault of plain secrets: a request
    changes one entry, or none; a key rotation changes nothing.  That what is
    stored always opens to what the vault holds is the invariant behind it. *)
From Stdlib Require Import ZArith Lia Ascii String.
From stdpp Require Import base sorting sets strings numbers list.
From S2P Require Import Prelude Go Entity Conflict AuditTrail Schema Json UrlGuard Logic Dbtx Crypto Like Validation MaintStore Fixtures.
From S2P Require Import Queue Otp Kinds Secrets Users Identities IntegrationStore Integrations Provision NotifyTargets Catalog CatalogSpec.
Open Scope Z_scope.

(** ** The vault *)

Record Entry := mkEntry {
  e_ID : UUID; e_Kind : string; e_Name : string; e_Enabled : bool; e_Config : json; e_Secrets : list (string * string);
  e_Provisioned : bool; e_CreatedBy : option UUID; e_UpdatedBy : option UUID }.
#[export] Instance eta_Entry : Eta Entry := fun e =>
  mkEntry (e_ID e) (e_Kind e) (e_Name e) (e_Enabled e) (e_Config e) (e_Secrets e) (e_Provisioned e) (e_CreatedBy e) (e_UpdatedBy e).
Definition is_entry (kind name : string) (e : Entry) : Prop := e_Kind e = kind ∧ e_Name e = name.

(** What a create keeps of the secrets it is given, and what an edit makes of
    them. *)
Definition kept_secrets (keys : list string) (plain : list (string * string)) : list (string * string) :=
  omap (fun key => match go_lookup plain key with
                   | Some v => if String.eqb v "" then None else Some (key, v)
                   | None => None
                   end) keys.
Definition merged_secrets (keys : list string) (old : list (string * string)) (intents : list (string * option string))
    : list (string * string) :=
  omap (fun key => match go_lookup intents key with
                   | None => (fun v => (key, v)) <$> go_lookup old key
                   | Some None => None
                   | Some (Some v) => if String.eqb v "" then None else Some (key, v)
                   end) keys.

(** One kind of registry row, for the lemmas on tables. *)
#[export] Program Instance integrations_table : CatalogTable IntegrationRow := {|
  row_id := is_ID; clash := integration_clash; born := fun _ => True; edits := fun a b => is_ID b = is_ID a |}.
Next Obligation.
  intros a b. unfold integration_clash. rewrite N.eqb_sym, (String.eqb_sym (is_Kind a)). by rewrite (String.eqb_sym (is_Name a)).
Qed.
Next Obligation. intros a b E. unfold integration_clash. by rewrite E, N.eqb_refl. Qed.
Next Obligation. done. Qed.

Section spec.
Context `{Env} `{Collation} `{Goque} `{Ozzo} `{NetURL} `{Tink} `{!TinkSpec}.
Context (keyring : Keyring) (registry : Registry).
Context (loginProviders : list (string * LoginProvider)) (notifyTransports : list (string * ManagedEntry)).
Context (provisioned : provisionedMap).

(** ** Rows that open *)

(** The data key of a row. *)
Definition has_key (db : DB) (id : UUID) (h : Handle) : Prop :=
  ∃ k, find_key id db = Some k ∧ wraps (kms keyring) (dk_EncryptedDek k) (dk_KekID k) h.
(** A stored secret and what it opens to, under the name and the config of its
    row. *)
Definition opens_to (h : Handle) (name : string) (config : json) (sealed plain : string * string) : Prop :=
  sealed.1 = plain.1 ∧
  ∃ i s a envelope, go_lookup registry name = Some i ∧ Kinds.Parse i (RawText config) [] = inl s ∧ aead_New h = inl a ∧
    StdEncoding_DecodeString (bytes sealed.2) = Some envelope ∧
    aead_Decrypt a envelope (secretAAD i s sealed.1) = inl (bytes plain.2).
Definition opens (db : DB) (row : IntegrationRow) (e : Entry) : Prop :=
  is_ID row = e_ID e ∧ is_Kind row = e_Kind e ∧ is_Name row = e_Name e ∧ is_Enabled row = e_Enabled e ∧ is_Config row = e_Config e ∧
  is_Provisioned row = e_Provisioned e ∧ is_CreatedByUserID row = e_CreatedBy e ∧ is_UpdatedByUserID row = e_UpdatedBy e ∧
  jsonb (is_Config row) = is_Config row ∧ (length (e_Secrets e) <= 1)%nat ∧
  ∃ h stored, has_key db (is_DekID row) h ∧ decode_secrets (is_Secrets row) = Some stored ∧
    Forall2 (opens_to h (is_Name row) (is_Config row)) stored (e_Secrets e).

Definition sound (db : DB) (st : list Entry) : Prop :=
  unique (integration_settings db) ∧ NoDup (dk_ID <$> data_keys db) ∧ Forall2 (opens db) (integration_settings db) st.

(** ** Data keys come and are wrapped again, and none is lost *)

Definition keys_kept (db db' : DB) : Prop := ∀ id h, has_key db id h -> has_key db' id h.
Lemma opens_kept db db' row e : keys_kept db db' -> opens db row e -> opens db' row e.
Proof. intros Hk (?&?&?&?&?&?&?&?&?&?&h&stored&Hh&?&?). split_and!; try done. exists h, stored. split_and!; [by apply Hk|done..]. Qed.
Lemma sound_kept db db' st :
  sound db st -> integration_settings db' = integration_settings db -> NoDup (dk_ID <$> data_keys db') -> keys_kept db db' -> sound db' st.
Proof.
  intros (Hu & _ & Hf) Es Hnd Hk. split_and!; [by rewrite Es|done|]. rewrite Es. eapply Forall2_impl; [exact Hf|].
  intros row e. by apply opens_kept.
Qed.
(** What other tables hold does not matter. *)
Lemma sound_same db db' st :
  integration_settings db' = integration_settings db -> data_keys db' = data_keys db -> sound db st -> sound db' st.
Proof.
  intros Es Ek Hs. pose proof Hs as (_ & Hnd & _). eapply sound_kept; [done|done|by rewrite Ek|].
  intros id h (k & Hk & Hw). exists k. split; [|done]. unfold find_key in *. by rewrite Ek.
Qed.

(** ** Leaves *)

Lemma from_sum_Ok {A} (r : A + error) ctx w a w' : from_sum r ctx w = (Ok a, w') -> r = inl a ∧ w' = w.
Proof. destruct r; [intros [= -> ->]|]; done. Qed.
Lemma step_sum_Ok {A} (f : nat -> A + error) ctx w a w' : at_step f ctx w = (Ok a, w') -> (∃ n, f n = inl a) ∧ w_db w' = w_db w.
Proof. unfold at_step. destruct (f (w_step w)) eqn:E; [intros [= -> <-]|]; naive_solver. Qed.

(** The audit entry is no concern of the registry. *)
Lemma audit_Ok action ctx w u w' st : integration_publishAudit action ctx w = (Ok u, w') -> sound (w_db w) st -> sound (w_db w') st.
Proof. intros [[tasks Hdb] _]%publish_run. by apply sound_same; rewrite Hdb. Qed.

Lemma find_key_app id db row k : find_key id db = Some k -> find_key id (db <| data_keys := data_keys db ++ [row] |>) = Some k.
Proof. unfold find_key. simpl. induction (data_keys db) as [|x l IH]; simpl; [done|]. by destruct (N.eqb _ _). Qed.
Lemma key_fresh id db : key_exists id db = false -> id ∉ dk_ID <$> data_keys db.
Proof.
  intros Hx (k & -> & Hk)%list_elem_of_fmap. apply not_true_iff_false in Hx. apply Hx, existsb_exists.
  exists k. rewrite <- list_elem_of_In. by rewrite N.eqb_refl.
Qed.

(** A new data key. *)
Lemma newDEK_Ok ctx w dek id w' st :
  Knows keyring (ActiveKEKID keyring) = true -> sound (w_db w) st -> newDEK keyring ctx w = (Ok (dek, id), w') ->
  sound (w_db w') st ∧ key_exists id (w_db w') = true ∧ integration_settings (w_db w') = integration_settings (w_db w) ∧
  ∃ h, has_key (w_db w') id h ∧ cleartext_Read dek = inl h.
Proof.
  intros Hact Hs. unfold newDEK. intros (d & w1 & ([n Hgen] & Hdb1)%step_sum_Ok & Hrun)%bind_Ok.
  apply bind_Ok in Hrun as ([wrapped uri] & w2 & ([n' Hwrap] & Hdb2)%wrap_err_Ok%step_sum_Ok & Hrun).
  apply bind_Ok in Hrun as (k & w3 & Hrow & [= -> <- <-]). apply GenerateDEK_reads in Hgen as [h Hh].
  eapply WrapDEK_wraps in Hwrap; [|done|done].
  apply bind_Ok in Hrow as (row & w4 & Hins & [= <- <-]). apply sql_Ok in Hins as (db' & Hins & ->). apply require_Ok in Hins as [Hfresh%negb_true_iff Hins]. injection Hins as <- <-.
  simpl in *. rewrite Hdb2, Hdb1 in *. pose proof Hs as (_ & Hnd & _).
  set (row := mkDataKeyRow _ _ _ _ _). set (db' := _ <| data_keys := _ |>).
  assert (has_key db' (dk_ID row) h) as Hkey.
  { exists row. split; [|done]. unfold find_key, db'. simpl.
    rewrite find_app_None; [simpl; by rewrite N.eqb_refl|]. destruct (List.find _ _) as [k|] eqn:Ek; [|done].
    apply find_some in Ek as [Hin He]. apply not_true_iff_false in Hfresh. destruct Hfresh. apply existsb_exists. eauto. }
  split_and!; [|..|by exists h].
  - eapply sound_kept; [done|done| |].
    + simpl. rewrite fmap_app. apply NoDup_app. split_and!; [done| |apply NoDup_singleton].
      intros x Hx. simpl. rewrite list_elem_of_singleton. intros ->. by apply (key_fresh _ _ Hfresh).
    + intros id' h' (k & Hk & Hw). exists k. split; [by apply find_key_app|done].
  - unfold key_exists. simpl. rewrite existsb_app. simpl. by rewrite N.eqb_refl, !orb_true_r.
  - done.
Qed.

(** ** Sealing *)

Definition sealed_as (h : Handle) (i : Integration) (s : Settings) (sealed plain : string * string) : Prop :=
  sealed.1 = plain.1 ∧ ∃ a envelope, aead_New h = inl a ∧ StdEncoding_DecodeString (bytes sealed.2) = Some envelope ∧
    aead_Decrypt a envelope (secretAAD i s sealed.1) = inl (bytes plain.2).
(** The authenticated data depends on the binding alone. *)
Lemma secretAAD_binding i s s' key : AADBinding s = AADBinding s' -> secretAAD i s key = secretAAD i s' key.
Proof. unfold secretAAD. by intros ->. Qed.
Lemma sealed_opens h i s name config sealed plain :
  go_lookup registry name = Some i -> (∃ s', Kinds.Parse i (RawText config) [] = inl s' ∧ AADBinding s' = AADBinding s) ->
  sealed_as h i s sealed plain -> opens_to h name config sealed plain.
Proof.
  intros Hi (s' & Hp & Hb) (Hk & a & env & Ha & He & Hd). split; [done|]. exists i, s', a, env. split_and!; [done..|].
  by rewrite (secretAAD_binding _ s' s).
Qed.

Lemma sealSecret_Ok i s dek h key v ctx w enc w' :
  cleartext_Read dek = inl h -> sealSecret i s dek key v ctx w = (Ok enc, w') ->
  w_db w' = w_db w ∧ sealed_as h i s (key, enc) (key, v).
Proof.
  intros Hh. unfold sealSecret. intros (env & w1 & ([n Henc] & Hdb)%wrap_err_Ok%step_sum_Ok & [= <- <-])%bind_Ok. split; [done|].
  split; [done|]. pose proof Henc as (a & (h' & Hh'%or_wrap_inl & Ha%or_wrap_inl)%and_then_inl & _)%or_wrap_inl%and_then_inl.
  rewrite Hh in Hh'. injection Hh' as <-. exists a, env. split_and!; [done| |].
  - simpl. unfold bytes. rewrite list_ascii_of_string_of_list_ascii. apply StdEncoding_roundtrip.
  - eapply Encrypt_Decrypt; [done|]. unfold dek_is, dekAEAD, parseDEKKeyset. rewrite Hh. simpl. by rewrite Ha.
Qed.

Lemma encrypt_keys_Ok i s dek h plain keys ctx w out w' :
  cleartext_Read dek = inl h -> encrypt_keys i s dek plain keys ctx w = (Ok out, w') ->
  w_db w' = w_db w ∧ Forall2 (sealed_as h i s) out (kept_secrets keys plain).
Proof.
  intros Hh. revert w out. induction keys as [|key keys IH]; intros w out; simpl; [intros [= <- <-]; by split|].
  unfold kept_secrets in *. simpl. destruct (go_lookup plain key) as [v|]; [|by apply IH].
  destruct (String.eqb v ""); [by apply IH|]. intros (enc & w1 & Hs & Hrun)%bind_Ok.
  apply bind_Ok in Hrun as (out' & w2 & Hrest & [= <- <-]). apply (sealSecret_Ok _ _ _ h) in Hs as [Hdb Hsealed]; [|done].
  apply IH in Hrest as [Hdb' Hf]. rewrite Hdb', Hdb. split; [done|]. by constructor.
Qed.

(** ** Columns *)

Lemma SecretKeys_one i : ∃ k, SecretKeys i = [k].
Proof. destruct i; eauto. Qed.
Lemma omap_short {A B} (f : A -> option B) x : (length (omap f [x]) <= 1)%nat.
Proof. simpl. destruct (f x); simpl; lia. Qed.
Lemma secrets_column_short l : (length l <= 1)%nat -> decode_secrets (secrets_column l) = Some l.
Proof. destruct l as [|[k v] [|? ?]]; simpl; [done|done|lia]. Qed.

Definition plain_raw (cfg : RawMessage) : Prop := match cfg with RawText c => plain_config c | _ => True end.
Lemma column_parse cfg c i secrets :
  plain_raw cfg -> config_column cfg = Some c -> Kinds.Parse i (RawText c) secrets = Kinds.Parse i cfg secrets ∧ jsonb c = c.
Proof.
  destruct cfg as [| |j]; [intros _ [= <-]; done|done|]. intros Hp [= <-]. split; [by apply Parse_jsonb|apply jsonb_jsonb].
Qed.

(** ** The statements on the registry *)

Lemma fromDB_Ok row ctx w s w' :
  integration_fromDB row ctx w = (Ok s, w') ->
  w' = w ∧ in_ID s = is_ID row ∧ in_Kind s = is_Kind row ∧ in_Name s = is_Name row ∧ in_Enabled s = is_Enabled row ∧
  in_Config s = RawText (is_Config row) ∧ decode_secrets (is_Secrets row) = Some (in_Secrets s) ∧ in_DEKID s = is_DekID row ∧
  in_Provisioned s = is_Provisioned row ∧ in_CreatedByUserID s = is_CreatedByUserID row ∧ in_UpdatedByUserID s = is_UpdatedByUserID row.
Proof. unfold integration_fromDB. destruct (decode_secrets _) as [l|]; [|done]. intros [= <- <-]. done. Qed.

Lemma CreateSetting_Ok s ctx w a w' :
  CreateSetting s ctx w = (Ok a, w') ->
  ∃ config row, config_column (in_Config s) = Some config ∧
    (∃ id now, row = mkIntegrationRow id (in_Kind s) (in_Enabled s) config (secrets_column (in_Secrets s)) (in_DEKID s)
       now (in_CreatedByUserID s) now (in_UpdatedByUserID s) (in_Name s) (in_Provisioned s)) ∧
    (∀ r, r ∈ integration_settings (w_db w) -> integration_clash row r = false) ∧
    w_db w' = (w_db w) <| integration_settings := integration_settings (w_db w) ++ [row] |>.
Proof.
  unfold CreateSetting. intros (res & w1 & Hsql%attempt_Ok & Hrun)%bind_Ok.
  destruct res as [row|e]; [|by destruct (dbtx_ErrorIs _ _)]. apply fromDB_Ok in Hrun as [-> _].
  apply sql_Ok in Hsql as (db' & Hf & ->). destruct (config_column _) as [config|]; [|done].
  apply require_Ok in Hf as [Hfresh%negb_true_iff Hf]. apply require_Ok in Hf as [_ Hf]. injection Hf as <- <-.
  eexists config, _. split_and!; [done|by eexists _, _| |done]. intros r Hr. apply not_true_iff_false. intros Hc.
  rewrite <- not_true_iff_false, existsb_exists in Hfresh. apply Hfresh. exists r. by rewrite <- list_elem_of_In.
Qed.

(** A new row that opens. *)
Lemma sound_add db db' st row e :
  sound db st -> db' = db <| integration_settings := integration_settings db ++ [row] |> ->
  (∀ r, r ∈ integration_settings db -> integration_clash row r = false) -> opens db' row e -> sound db' (st ++ [e]).
Proof.
  intros (Hu & Hnd & Hf) -> Hfresh He. split_and!; [|done|].
  - eapply (step_unique (R := IntegrationRow)); [|exact Hu]. simpl. by apply cat_add.
  - simpl. apply Forall2_app; [|by constructor]. eapply Forall2_impl; [exact Hf|]. intros r e'. apply opens_kept. intros id h Hk. exact Hk.
Qed.

Lemma find_setting kind name db st row :
  sound db st -> List.find (is_integration kind name) (integration_settings db) = Some row ->
  ∃ k e, integration_settings db !! k = Some row ∧ st !! k = Some e ∧ opens db row e ∧ is_entry kind name e.
Proof.
  intros (_ & _ & Hf) Hfind. apply find_some in Hfind as [Hin [Ek%String.eqb_eq En%String.eqb_eq]%andb_prop].
  rewrite <- list_elem_of_In in Hin. apply list_elem_of_lookup in Hin as [k Hk].
  destruct (Forall2_lookup_l _ _ _ _ _ Hf Hk) as (e & He & Ho). exists k, e. split_and!; [done..|].
  destruct Ho as (_ & Hkind & Hname & _). split; congruence.
Qed.
Lemma GetByKindName_Ok kind name ctx w s w' :
  GetByKindName kind name ctx w = (Ok s, w') ->
  w_db w' = w_db w ∧ ∃ row, List.find (is_integration kind name) (integration_settings (w_db w)) = Some row ∧
    in_ID s = is_ID row ∧ in_Kind s = is_Kind row ∧ in_Name s = is_Name row ∧ in_Enabled s = is_Enabled row ∧
    in_Config s = RawText (is_Config row) ∧ decode_secrets (is_Secrets row) = Some (in_Secrets s) ∧ in_DEKID s = is_DekID row ∧
    in_Provisioned s = is_Provisioned row ∧ in_CreatedByUserID s = is_CreatedByUserID row ∧ in_UpdatedByUserID s = is_UpdatedByUserID row.
Proof.
  unfold GetByKindName. intros (o & w1 & (-> & Hdb & _)%query_Ok & Hrun)%bind_Ok.
  destruct (List.find _ _) as [row|] eqn:Ef; [|done]. apply fromDB_Ok in Hrun as [-> Hs]. split; [done|]. by exists row.
Qed.

Lemma UpdateSetting_Ok s ctx w a w' :
  UpdateSetting s ctx w = (Ok a, w') ->
  ∃ config now, config_column (in_Config s) = Some config ∧
    w_db w' = (w_db w) <| integration_settings :=
      (fun r => if N.eqb (is_ID r) (in_ID s) then edited_setting s config now r else r) <$> integration_settings (w_db w) |>.
Proof.
  unfold UpdateSetting. intros (now & w1 & [= <- <-] & Hrun)%bind_Ok. apply bind_Ok in Hrun as (r & w2 & Hsql & Hrun).
  destruct r as [row|]; [|done]. apply fromDB_Ok in Hrun as [-> _]. apply sql_Ok in Hsql as (db' & Hf & ->).
  destruct (config_column _) as [config|]; [|done]. exists config, (env_now (w_step w)). split; [done|].
  destruct (List.find _ _); [|done]. apply require_Ok in Hf as [_ Hf]. by injection Hf as _ <-.
Qed.

(** A row that is edited and still opens. *)
Lemma sound_edit db db' st k row row' e' :
  sound db st -> integration_settings db !! k = Some row -> is_ID row' = is_ID row -> is_Kind row' = is_Kind row ->
  is_Name row' = is_Name row -> db' = db <| integration_settings := <[k := row']> (integration_settings db) |> ->
  opens db' row' e' -> sound db' (<[k := e']> st).
Proof.
  intros (Hu & Hnd & Hf) Hk Hid Hkind Hname -> He. split_and!; [|done|].
  - eapply (step_unique (R := IntegrationRow)); [|exact Hu]. simpl. apply cat_edit with row; [done..|].
    intros j x Hj Hx. unfold clash; simpl. unfold integration_clash. rewrite Hid, Hkind, Hname. by apply (Hu k j).
  - simpl. apply Forall2_insert; [|done]. eapply Forall2_impl; [exact Hf|]. intros r e. apply opens_kept. intros id h Hh. exact Hh.
Qed.

(** ** Creating *)

(** What a create does to the vault. *)
Definition creates (cmd : CreateIntegrationCmd) (st st' : list Entry) : Prop :=
  let name := strings_TrimSpace (ci_Name cmd) in
  ∃ i e plain cfg s,
    st' = st ++ [e] ∧ go_lookup registry name = Some i ∧ in_Category i = ci_Kind cmd ∧ is_entry (ci_Kind cmd) name e ∧
    (∀ e0, e0 ∈ st -> ~ is_entry (ci_Kind cmd) name e0) ∧ Some (e_Enabled e) = ci_Enabled cmd ∧
    PlainSecrets cmd = inl plain ∧ e_Secrets e = kept_secrets (SecretKeys i) plain ∧
    applyPreset registry loginProviders name (ci_Config cmd) = Ok cfg ∧ config_column cfg = Some (e_Config e) ∧
    Kinds.Parse i cfg plain = inl s ∧ Validate i s = true ∧
    e_Provisioned e = false ∧ e_CreatedBy e = actor_id (ci_Actor cmd) ∧ e_UpdatedBy e = None.

Lemma clash_entry db row st :
  sound db st -> (∀ r, r ∈ integration_settings db -> integration_clash row r = false) ->
  ∀ e, e ∈ st -> ~ is_entry (is_Kind row) (is_Name row) e.
Proof.
  intros (_ & _ & Hf) Hfresh e [k Hk]%list_elem_of_lookup [Ek En].
  destruct (Forall2_lookup_r _ _ _ _ _ Hf Hk) as (r & Hr & (_ & Hkind & Hname & _)).
  specialize (Hfresh r ltac:(by eapply list_elem_of_lookup_2)). apply orb_false_iff in Hfresh as [_ Hc].
  by rewrite Hkind, Hname, Ek, En, !String.eqb_refl in Hc.
Qed.

Lemma create_tx_opens i s cmd plain ctx w a w' st :
  Knows keyring (ActiveKEKID keyring) = true -> sound (w_db w) st -> go_lookup registry (ci_Name cmd) = Some i ->
  Kinds.Parse i (ci_Config cmd) plain = inl s -> plain_raw (ci_Config cmd) ->
  create_in_tx keyring i s cmd plain ctx w = (Ok a, w') ->
  ∃ e, sound (w_db w') (st ++ [e]) ∧ is_entry (ci_Kind cmd) (ci_Name cmd) e ∧
    (∀ e0, e0 ∈ st -> ~ is_entry (ci_Kind cmd) (ci_Name cmd) e0) ∧ e_Enabled e = default false (ci_Enabled cmd) ∧
    e_Secrets e = kept_secrets (SecretKeys i) plain ∧ config_column (ci_Config cmd) = Some (e_Config e) ∧ e_Provisioned e = false ∧
    e_CreatedBy e = actor_id (ci_Actor cmd) ∧ e_UpdatedBy e = None.
Proof.
  intros Hact Hs Hi Hp Hplain. unfold create_in_tx. intros ([dek id] & w1 & Hdek & Hrun)%bind_Ok.
  destruct (newDEK_Ok _ _ _ _ _ _ Hact Hs Hdek) as (Hs1 & _ & _ & h & Hkey & Hread).
  apply bind_Ok in Hrun as (enc & w2 & Henc & Hrun). apply (encrypt_keys_Ok _ _ _ h) in Henc as [Hdb2 Hsealed]; [|done].
  apply bind_Ok in Hrun as (r & w3 & Hc%attempt_Ok & Hrun). apply bind_Ok in Hrun as (u & w4 & Haudit & [-> ->]%from_sum_Ok).
  apply CreateSetting_Ok in Hc as (config & row & Hcol & (rid & now & ->) & Hfresh & Hdb3). simpl in *. rewrite Hdb2 in *.
  set (row := mkIntegrationRow _ _ _ _ _ _ _ _ _ _ _ _) in *.
  set (e := mkEntry rid (ci_Kind cmd) (ci_Name cmd) (default false (ci_Enabled cmd)) config (kept_secrets (SecretKeys i) plain) false
              (actor_id (ci_Actor cmd)) None).
  exists e. assert (sound (w_db w3) (st ++ [e])) as Hs3.
  { eapply sound_add; [exact Hs1|exact Hdb3|done|]. destruct (column_parse _ _ i [] Hplain Hcol) as [Hpc Hidem].
    split_and!; try done; [destruct (SecretKeys_one i) as [k Hk]; simpl; rewrite Hk; apply omap_short|].
    exists h, enc. split_and!.
    - simpl. rewrite Hdb3. exact Hkey.
    - simpl. apply secrets_column_short. rewrite (Forall2_length _ _ _ Hsealed).
      destruct (SecretKeys_one i) as [k Hk]. rewrite Hk. apply omap_short.
    - simpl. eapply Forall2_impl; [exact Hsealed|]. intros x y. apply sealed_opens; [done|]. rewrite Hpc.
      destruct (Parse_binding i _ plain [] s Hp) as (s' & ? & ?). eauto. }
  split; [by eapply audit_Ok|]. split_and!; try done. by apply (clash_entry _ row _ Hs1).
Qed.

Lemma registry_get_Ok name i : registry_get registry name = inl i -> go_lookup registry name = Some i.
Proof. unfold registry_get. destruct (go_lookup _ _); naive_solver. Qed.
Lemma resolveSettings_Ok name cfg plain i s :
  resolveSettings registry name cfg plain = inl (i, s) ->
  go_lookup registry name = Some i ∧ Kinds.Parse i cfg plain = inl s ∧ Validate i s = true.
Proof.
  unfold resolveSettings. intros (i' & Hi%registry_get_Ok & (u & _ & (s' & Hp%or_wrap_inl & Hv)%and_then_inl)%and_then_inl)%and_then_inl.
  destruct (Validate i' s') eqn:E; [|done]. injection Hv as -> ->. done.
Qed.

(** The config of a create has plain keys once the preset is in it. *)
Definition plain_create (cmd : CreateIntegrationCmd) : Prop :=
  ∀ cfg, applyPreset registry loginProviders (strings_TrimSpace (ci_Name cmd)) (ci_Config cmd) = Ok cfg -> plain_raw cfg.

Lemma lift_Ok {A} (r : outcome A) ctx w a w' : lift r ctx w = (Ok a, w') -> r = Ok a ∧ w' = w.
Proof. by intros [= -> ->]. Qed.

Lemma create_moves cmd w a w' st :
  Knows keyring (ActiveKEKID keyring) = true -> plain_create cmd -> sound (w_db w) st ->
  Integrations.Create keyring registry loginProviders cmd background w = (Ok a, w') -> ∃ st', sound (w_db w') st' ∧ creates cmd st st'.
Proof.
  intros Hact Hplain Hs. unfold Integrations.Create. intros (u & w1 & [Hval ->]%reject_if_Ok & Hrun)%bind_Ok.
  apply bind_Ok in Hrun as (plain & w2 & [Hsec ->]%wrap_err_Ok%from_sum_Ok & Hrun).
  apply bind_Ok in Hrun as (u' & w3 & [Hadm ->]%from_sum_Ok & Hrun). apply bind_Ok in Hrun as (cfg & w4 & [Hcfg ->]%lift_Ok & Hrun).
  apply bind_Ok in Hrun as ([i s] & w5 & [Hres ->]%from_sum_Ok & Hrun). apply bind_Ok in Hrun as (c & w6 & Htx & (u2 & w8 & [= _ <-] & [= _ <-])%bind_Ok).
  apply resolveSettings_Ok in Hres as (Hi & Hp & Hv). simpl in *.
  apply WithinTx_cases in Htx as [(e & [=] & _)|(c' & w7 & [= <-] & Hdb & _ & Hbody)].
  eapply create_tx_opens in Hbody as (e & Hs' & He & Hfresh & Hen & Hse & Hcol & Hpr & Hby & Hup); [|done|exact Hs|exact Hi|exact Hp|by apply Hplain].
  exists (st ++ [e]). rewrite Hdb. split; [done|]. exists i, e, plain, cfg, s. simpl in *.
  unfold admit_pair in Hadm. rewrite Hi in Hadm. destruct (String.eqb_spec (in_Category i) (ci_Kind cmd)) as [Hcat|]; [|done].
  split_and!; try done. rewrite Hen. apply negb_false_iff in Hval. unfold validateCreateIntegrationCmd in Hval. simpl in Hval.
  apply andb_prop in Hval as [Hval _]. apply andb_prop in Hval as [_ Hen'%bool_decide_eq_true]. by destruct Hen' as [b ->].
Qed.

(** ** Editing *)

Lemma opens_lookup h name config stored plain key :
  Forall2 (opens_to h name config) stored plain ->
  match go_lookup stored key with
  | Some enc => ∃ v, go_lookup plain key = Some v ∧ opens_to h name config (key, enc) (key, v)
  | None => go_lookup plain key = None
  end.
Proof.
  unfold go_lookup. induction 1 as [|[k enc] [k' v] stored plain Ho _ IH]; [done|]. pose proof Ho as [E _]. simpl in E |- *. subst k'.
  destruct (String.eqb_spec k key) as [->|]; [|done]. simpl. eauto.
Qed.

Lemma unwrapDEKFor_Ok id h ctx w dek w' :
  has_key (w_db w) id h -> unwrapDEKFor keyring id ctx w = (Ok dek, w') -> w_db w' = w_db w ∧ cleartext_Read dek = inl h.
Proof.
  intros (k & Hk & Hw). unfold unwrapDEKFor. intros (row & w1 & Hget%wrap_err_Ok & ([n Hun] & Hdb)%wrap_err_Ok%step_sum_Ok)%bind_Ok.
  unfold datakey_GetByID in Hget. apply bind_Ok in Hget as (o & w2 & (-> & Hdb2 & _)%query_Ok & Hget). rewrite Hk in Hget.
  injection Hget as <- <-. apply UnwrapDEK_wraps in Hun as (h' & Hw' & Hr). rewrite Hdb, Hdb2. split; [done|].
  by rewrite (wraps_fun _ _ _ _ _ Hw Hw').
Qed.

(** A secret that is kept has to open under the new config as it did under the
    old one. *)
Lemma merge_keys_Ok i cur incoming dek keys h s old ctx w out w' :
  (∀ key, key ∈ keys -> go_lookup incoming key = None ->
     match go_lookup (in_Secrets cur) key with
     | Some enc => ∃ v, go_lookup old key = Some v ∧ sealed_as h i s (key, enc) (key, v)
     | None => go_lookup old key = None
     end) ->
  (∀ s', Kinds.Parse i (in_Config cur) [] = inl s' -> AADBinding s' = AADBinding s) ->
  has_key (w_db w) (in_DEKID cur) h -> (∀ d, dek = Some d -> cleartext_Read d = inl h) ->
  merge_keys keyring i cur incoming dek keys ctx w = (Ok out, w') ->
  w_db w' = w_db w ∧ Forall2 (sealed_as h i s) out.1 (merged_secrets keys old incoming).
Proof.
  intros Hkeep Hbind. revert dek w out w'. induction keys as [|key keys IH]; intros dek w out w' Hkey Hdek; simpl; [intros [= <- <-]; by split|].
  assert (∀ k, k ∈ keys -> k ∈ key :: keys) as Hsub by set_solver. specialize (IH (fun k Hk => Hkeep k (Hsub k Hk))).
  unfold merged_secrets in *. simpl. destruct (go_lookup incoming key) as [[v|]|] eqn:Ein.
  - destruct (String.eqb v "") eqn:Ev; [by apply IH|]. intros (d & w1 & Hd & Hrun)%bind_Ok.
    assert (w_db w1 = w_db w ∧ cleartext_Read d = inl h) as [Hdb1 Hr].
    { destruct dek as [d'|]; [injection Hd as <- <-; eauto|by apply (unwrapDEKFor_Ok (in_DEKID cur) h) in Hd]. }
    apply bind_Ok in Hrun as (s' & w2 & [Hp ->]%wrap_err_Ok%from_sum_Ok & Hrun).
    apply bind_Ok in Hrun as (enc & w3 & Hseal & Hrun). apply (sealSecret_Ok _ _ _ h) in Hseal as [Hdb3 Hsealed]; [|done].
    apply bind_Ok in Hrun as (out' & w4 & Hrest & [= <- <-]). rewrite Hdb1 in Hdb3.
    apply IH in Hrest as [Hdb4 Hf]; [|by rewrite Hdb3|by intros d' [= <-]]. rewrite Hdb4, Hdb3. split; [done|]. constructor; [|done].
    destruct Hsealed as (_ & a & env & Ha & He & Hde). split; [done|]. exists a, env. split_and!; [done..|].
    by rewrite (secretAAD_binding _ s s') by by rewrite (Hbind s').
  - by apply IH.
  - intros (out' & w1 & Hrest & Hrun)%bind_Ok. apply IH in Hrest as [Hdb1 Hf]; [|done..].
    specialize (Hkeep key ltac:(set_solver) Ein).
    destruct (go_lookup (in_Secrets cur) key) as [enc|]; injection Hrun as <- <-; (split; [done|]).
    + destruct Hkeep as (v & -> & Hv). by constructor.
    + by rewrite Hkeep.
Qed.

(** Kinds are bound or not, whatever their config. *)
Lemma Parse_bound i c c' p p' s s' :
  Kinds.Parse i c p = inl s -> Kinds.Parse i c' p' = inl s' -> AADBinding s = None -> AADBinding s' = None.
Proof.
  assert (∀ c p s, Kinds.Parse i c p = inl s -> ∃ fs, decode_settings p fs i = Some s) as Hd.
  { clear. intros c p s. unfold Kinds.Parse, unmarshalConfig. destruct c as [| |[| | | | |fs]]; try done;
      (destruct (decode_settings p _ i) eqn:E; [|done]); intros [= ->]; eauto. }
  intros [fs Hs]%Hd [fs' Hs']%Hd. destruct i; simpl in Hs, Hs'; apply fmap_Some in Hs as (? & Hs & ->), Hs' as (? & Hs' & ->); kinds_unfold; repeat apply bind_Some in Hs as (? & _ & Hs);
    repeat apply bind_Some in Hs' as (? & _ & Hs'); injection Hs as <-; injection Hs' as <-; done.
Qed.

Lemma stable_AAD i current cmd intents old s s' key enc :
  raw_present (up_Config cmd) = true -> checkAADBindingStable i current cmd intents = inl tt -> in_Config current = RawText old ->
  Kinds.Parse i (RawText old) [] = inl s -> Kinds.Parse i (up_Config cmd) [] = inl s' ->
  go_lookup (in_Secrets current) key = Some enc -> key ∈ SecretKeys i -> go_lookup intents key = None ->
  secretAAD i s key = secretAAD i s' key.
Proof.
  unfold checkAADBindingStable, aadBindingOf. intros -> Hc Ho Hs Hs' Hst Hkey Hno. rewrite Ho, Hs, Hs' in Hc. simpl in Hc.
  destruct (AADBinding s) as [[iss cl]|] eqn:Eb, (AADBinding s') as [[iss' cl']|] eqn:Eb'; simpl in Hc.
  - destruct (String.eqb_spec (NormalizeIssuer iss) (NormalizeIssuer iss')) as [Ei|], (String.eqb_spec cl cl') as [->|]; simpl in Hc;
      [unfold secretAAD; by rewrite Eb, Eb', Ei|exfalso..];
      match type of Hc with context [existsb ?f ?l] => destruct (existsb f l) eqn:Ex; [done|] end;
      apply not_true_iff_false in Ex; apply Ex, existsb_exists; exists key; rewrite <- list_elem_of_In; by rewrite Hst, Hno.
  - by rewrite (Parse_bound _ _ _ _ _ _ _ Hs' Hs Eb') in Eb.
  - by rewrite (Parse_bound _ _ _ _ _ _ _ Hs Hs' Eb) in Eb'.
  - unfold secretAAD. by rewrite Eb, Eb'.
Qed.

Definition edits_entry (cmd : UpdateIntegrationCmd) (st st' : list Entry) : Prop :=
  ∃ k i e intents config,
    st !! k = Some e ∧ is_entry (up_Kind cmd) (up_Name cmd) e ∧ e_Provisioned e = false ∧
    go_lookup registry (up_Name cmd) = Some i ∧ SecretIntents cmd = inl intents ∧
    (if raw_present (up_Config cmd)
     then config_column (up_Config cmd) = Some config ∧ enforcePreset registry loginProviders (up_Name cmd) (up_Config cmd) = inl tt
     else config = e_Config e) ∧
    st' = <[k := e <| e_Enabled := default (e_Enabled e) (up_Enabled cmd) |> <| e_Config := config |>
                  <| e_Secrets := merged_secrets (SecretKeys i) (e_Secrets e) intents |>
                  <| e_UpdatedBy := actor_id (up_Actor cmd) |>]> st.

Lemma update_setting_one l k row f id :
  unique l -> l !! k = Some row -> is_ID row = id -> (fun x => if N.eqb (is_ID x) id then f x else x) <$> l = <[k := f row]> l.
Proof. exact (update_one l k row f id). Qed.

(** The UPDATE of a row that was read, with what opens after it. *)
Lemma update_row s ctx w a w' st k row e' :
  sound (w_db w) st -> integration_settings (w_db w) !! k = Some row -> in_ID s = is_ID row ->
  UpdateSetting s ctx w = (Ok a, w') ->
  (∀ config now db', config_column (in_Config s) = Some config -> keys_kept (w_db w) db' ->
     opens db' (edited_setting s config now row) (e' config)) ->
  ∃ config, config_column (in_Config s) = Some config ∧ sound (w_db w') (<[k := e' config]> st).
Proof.
  intros Hs Hrow Hid (config & now & Hcol & Hdb)%UpdateSetting_Ok Ho. exists config. split; [done|].
  pose proof Hs as (Hu & _). rewrite Hid in Hdb.
  rewrite (update_setting_one _ k row (edited_setting s config now)) in Hdb by done.
  eapply (sound_edit _ _ _ k row (edited_setting s config now row)); [exact Hs|exact Hrow|done..|exact Hdb|]. apply Ho; [done|]. rewrite Hdb. intros id h Hh. exact Hh.
Qed.

Lemma merged_short i old intents : (length (merged_secrets (SecretKeys i) old intents) <= 1)%nat.
Proof. destruct (SecretKeys_one i) as [k ->]. apply omap_short. Qed.

(** What the merge has of the secrets, and of the config they are bound to. *)
Lemma apply_update_Ok i cmd intents cur ctx w upd w' row e h :
  go_lookup registry (up_Name cmd) = Some i ->
  has_key (w_db w) (in_DEKID cur) h -> in_Config cur = RawText (is_Config row) -> is_Name row = up_Name cmd ->
  Forall2 (opens_to h (is_Name row) (is_Config row)) (in_Secrets cur) (e_Secrets e) ->
  apply_update keyring registry loginProviders i cmd intents cur ctx w = (Ok upd, w') ->
  (∃ tasks, w_db w' = (w_db w) <| goque_tasks := tasks |>) ∧
  (raw_present (up_Config cmd) = true -> enforcePreset registry loginProviders (up_Name cmd) (up_Config cmd) = inl tt) ∧
  ∃ sealed s, upd = (applyUpdateIntegrationCmd cur cmd) <| in_Secrets := sealed |> <| in_UpdatedByUserID := actor_id (up_Actor cmd) |> ∧
    Kinds.Parse i (in_Config upd) [] = inl s ∧ Forall2 (sealed_as h i s) sealed (merged_secrets (SecretKeys i) (e_Secrets e) intents).
Proof.
  intros Hi Hkey Hcfg Hname Hopen. unfold apply_update.
  intros ([] & w1 & [Hpre ->]%from_sum_Ok & Hrun)%bind_Ok. apply bind_Ok in Hrun as ([] & w2 & [Hst ->]%from_sum_Ok & Hrun).
  apply bind_Ok in Hrun as ([sealed view] & w3 & Hmerge & Hrun). apply bind_Ok in Hrun as ([i' s0] & w4 & [Hres ->]%from_sum_Ok & Hrun).
  apply bind_Ok in Hrun as (u3 & w5 & Haudit & [= <- <-]). apply resolveSettings_Ok in Hres as (Hi' & Hp & _).
  rewrite Hi in Hi'. injection Hi' as <-. destruct (Parse_binding i _ view [] s0 Hp) as (s & Hps & _). clear Hp.
  change (in_Config _) with (in_Config (applyUpdateIntegrationCmd cur cmd)) in Hps.
  eapply (merge_keys_Ok i _ intents None (SecretKeys i) h s (e_Secrets e)) in Hmerge as [Hdb3 Hf]; [|..|exact Hkey|done].
  - destruct (publish_run _ _ _ _ _ Haudit) as [[tasks Hq] _]. split; [exists tasks; by rewrite Hq, Hdb3|]. split; [by intros Er; rewrite Er in Hpre|]. by exists sealed, s.
  - intros key Hk Hno. change (in_Secrets (applyUpdateIntegrationCmd cur cmd)) with (in_Secrets cur).
    pose proof (opens_lookup _ _ _ _ _ key Hopen) as Hl. destruct (go_lookup (in_Secrets cur) key) as [enc|] eqn:El; [|done].
    destruct Hl as (v & Hv & (_ & i' & s' & a & env & Hi' & Hp' & Ha & He & Hd)). exists v. split; [done|]. split; [done|].
    rewrite Hname, Hi in Hi'. injection Hi' as <-. exists a, env. split_and!; [done..|]. simpl in Hd |- *. rewrite <- Hd. f_equal.
    unfold applyUpdateIntegrationCmd in Hps. simpl in Hps. destruct (raw_present (up_Config cmd)) eqn:Er.
    + symmetry. by apply (stable_AAD i cur cmd intents (is_Config row) s' s key enc).
    + rewrite Hcfg, Hp' in Hps. by injection Hps as ->.
  - intros s' Hs'. rewrite Hs' in Hps. by injection Hps as ->.
Qed.

Lemma edit_moves cmd w a w' st :
  plain_raw (up_Config cmd) -> sound (w_db w) st -> Update keyring registry loginProviders cmd background w = (Ok a, w') ->
  ∃ st', sound (w_db w') st' ∧ edits_entry cmd st st'.
Proof.
  intros Hplain Hs. unfold Update, updateWithApply. intros (u & w1 & [_ ->]%reject_if_Ok & Hrun)%bind_Ok.
  apply bind_Ok in Hrun as (intents & w2 & [Hint ->]%wrap_err_Ok%from_sum_Ok & Hrun).
  apply bind_Ok in Hrun as (i & w3 & [Hi%registry_get_Ok ->]%from_sum_Ok & Hrun). apply bind_Ok in Hrun as (c & w4 & (c2 & w10 & Htx & (u2 & w9 & [= _ <-] & [= _ <-])%bind_Ok)%bind_Ok & [= _ <-]). simpl.
  apply WithinTx_cases in Htx as [(e & [=] & _)|(c' & w5 & [= <-] & Hdb & _ & Hbody)]. rewrite Hdb.
  apply bind_Ok in Hbody as (cur & w6 & Hget%wrap_err_Ok & Hbody). apply bind_Ok in Hbody as (u1 & w7 & [Hpr ->]%reject_if_Ok & Hbody).
  apply bind_Ok in Hbody as (upd & w8 & Happ%wrap_err_Ok & Hup%wrap_err_Ok). change (w_db (tick w)) with (w_db w) in Hget.
  apply GetByKindName_Ok in Hget as (Hdb6 & row & Hfind & Hid & Hk & Hn & Hen & Hcfg & Hsec & Hdek & Hprov & Hby & _).
  simpl in Hdb6, Hfind. destruct (find_setting _ _ _ _ _ Hs Hfind) as (k & e & Hrow & He & Ho & Hent).
  pose proof Ho as (Oid & Okind & Oname & Oen & Ocfg & Oprov & Oby & _ & Oidem & _ & h & stored & Hkey & Hdec & Hopen).
  rewrite Hsec in Hdec. injection Hdec as <-. destruct Hent as [Ek En].
  rewrite <- Hdb6 in Hs, Hkey, Hrow. rewrite <- Hdek in Hkey.
  eapply apply_update_Ok in Happ as ([tasks Hq] & Hpreset & sealed & s & -> & Hps & Hf); [|exact Hi|exact Hkey|exact Hcfg|congruence|exact Hopen].
  set (upd := _ <| in_UpdatedByUserID := _ |>) in *.
  assert (sound (w_db w8) st) as Hs8 by by (eapply sound_same; [| |exact Hs]; rewrite Hq).
  assert (has_key (w_db w8) (in_DEKID cur) h) as Hkey8 by by rewrite Hq.
  assert (integration_settings (w_db w8) !! k = Some row) as Hrow8 by by rewrite Hq.
  eapply (update_row upd _ _ _ _ st k row (fun config =>
    e <| e_Enabled := default (e_Enabled e) (up_Enabled cmd) |> <| e_Config := config |>
      <| e_Secrets := merged_secrets (SecretKeys i) (e_Secrets e) intents |> <| e_UpdatedBy := actor_id (up_Actor cmd) |>)) in Hup
    as (config & Hcol & Hs5); [|done..|].
  - eexists. split; [exact Hs5|]. exists k, i, e, intents, config. split_and!; try done; [congruence|].
    unfold upd in Hcol. simpl in Hcol. destruct (raw_present _); [split; [done|by apply Hpreset]|]. rewrite Hcfg in Hcol. simpl in Hcol. congruence.
  - intros config now db' Hcol Hkept. assert (jsonb config = config ∧ Kinds.Parse i (RawText config) [] = inl s) as [Hj Hpc].
    { unfold upd in Hcol, Hps. simpl in Hcol, Hps. destruct (raw_present (up_Config cmd)).
      - destruct (column_parse _ _ i [] Hplain Hcol) as [-> ?]. done.
      - rewrite Hcfg in Hcol, Hps. simpl in Hcol. injection Hcol as <-. rewrite Oidem. done. }
    split_and!; simpl; try congruence; [apply merged_short|]. exists h, sealed. split_and!.
    + by apply Hkept.
    + apply secrets_column_short. rewrite (Forall2_length _ _ _ Hf). apply merged_short.
    + eapply Forall2_impl; [exact Hf|]. intros x y. apply sealed_opens; [congruence|]. eauto.
Qed.

(** ** Toggling and deleting *)

Definition toggles (cmd : ToggleIntegrationCmd) (st st' : list Entry) : Prop :=
  ∃ k e b, st !! k = Some e ∧ is_entry (ti_Kind cmd) (ti_Name cmd) e ∧ e_Provisioned e = false ∧ ti_Enabled cmd = Some b ∧
    st' = <[k := e <| e_Enabled := b |> <| e_UpdatedBy := actor_id (ti_Actor cmd) |>]> st.
Definition deletes (kind name : string) (st st' : list Entry) : Prop :=
  ∃ k e, st !! k = Some e ∧ is_entry kind name e ∧ e_Provisioned e = false ∧ st' = delete k st.

Lemma tx_end_cases {A} saved (r : outcome A) w0 r' w' :
  tx_end saved (r, w0) = (r', w') -> (∃ e, r' = Err e ∧ w_db w' = saved) ∨ (∃ a, r = Ok a ∧ r' = Ok a ∧ w_db w' = w_db w0).
Proof.
  unfold tx_end, rollback. destruct r as [a|e|s]; simpl; destruct (env_fault _); intros [= <- <-]; eauto.
Qed.
(** How a transaction with a call beside it ends. *)
Lemma beside_cases {A B} (before : M A) beside (after : A -> M B) w r w' :
  WithinTx_beside before beside after background w = (r, w') ->
  (∃ e, r = Err e ∧ w_db w' = w_db w) ∨
  ∃ a w1 u w2, before (mkCtx (Some (env_now (w_step w)))) (tick w) = (Ok a, w1) ∧ beside a background w1 = (u, w2) ∧
    ((∃ e, r = Err e ∧ w_db w' = w_db w2) ∨
     ∃ b w3, r = Ok b ∧ after a (mkCtx (Some (env_now (w_step w)))) w2 = (Ok b, w3) ∧ w_db w' = w_db w3).
Proof.
  unfold WithinTx_beside, TxFromContext. simpl. destruct (env_fault (w_step w)); [intros [= <- <-]; by left; eauto|].
  destruct (before _ (tick w)) as [[a|e|s] w1] eqn:Eb.
  - destruct (beside a background w1) as [u w2] eqn:Es. intros Hx. right. exists a, w1, u, w2. split_and!; [done..|].
    destruct u as [[]|e|s]; [destruct (after a _ w2) as [rb w3] eqn:Ea|..];
      apply tx_end_cases in Hx as [?|(b & Hb & -> & Hw)]; try (by left); try done.
    right. subst rb. by exists b, w3.
  - intros [?|(b & [=] & _)]%tx_end_cases. by left.
  - intros [?|(b & [=] & _)]%tx_end_cases. by left.
Qed.

Lemma toggle_moves cmd w a w' st :
  sound (w_db w) st -> Toggle cmd background w = (Ok a, w') -> ∃ st', sound (w_db w') st' ∧ toggles cmd st st'.
Proof.
  intros Hs. unfold Toggle. intros (u & w1 & [Hval ->]%reject_if_Ok & Hrun)%bind_Ok. apply bind_Ok in Hrun as (c & w2 & Htx & (u2 & w8 & [= _ <-] & [= _ <-])%bind_Ok). simpl.
  apply beside_cases in Htx as [(e & [=] & _)|(upd & w3 & u' & w4 & Hbefore & Haudit & [(e & [=] & _)|(b & w5 & [= <-] & Hup%wrap_err_Ok & Hdb)])].
  rewrite Hdb. apply bind_Ok in Hbefore as (cur & w6 & Hget%wrap_err_Ok & Hbefore).
  apply bind_Ok in Hbefore as (u1 & w7 & [Hpr ->]%reject_if_Ok & [= <- <-]).
  apply GetByKindName_Ok in Hget as (Hdb6 & row & Hfind & Hid & Hk & Hn & Hen & Hcfg & Hsec & Hdek & Hprov & Hby & _).
  simpl in Hdb6, Hfind. destruct (find_setting _ _ _ _ _ Hs Hfind) as (k & e & Hrow & He & Ho & Hent).
  pose proof Ho as (Oid & Okind & Oname & Oen & Ocfg & Oprov & Oby & _ & Oidem & Oshort & h & stored & Hkey & Hdec & Hopen).
  rewrite Hsec in Hdec. injection Hdec as <-. destruct (publish_run _ _ _ _ _ Haudit) as [[tasks Hq] _]. rewrite Hdb6 in Hq.
  assert (is_Some (ti_Enabled cmd)) as [b' Hb'].
  { apply negb_false_iff in Hval. apply andb_prop in Hval as [Hval _]. by apply andb_prop in Hval as [_ ?%bool_decide_eq_true]. }
  set (upd := _ <| in_UpdatedByUserID := _ |>) in *.
  eapply (update_row upd _ _ _ _ st k row (fun config =>
    e <| e_Enabled := b' |> <| e_UpdatedBy := actor_id (ti_Actor cmd) |> <| e_Config := config |>)) in Hup as (config & Hcol & Hs5);
    [|by (eapply sound_same; [| |exact Hs]; rewrite Hq)|by rewrite Hq|done|].
  - unfold upd in Hcol. simpl in Hcol. rewrite Hcfg in Hcol. simpl in Hcol. rewrite Oidem, Ocfg in Hcol. injection Hcol as <-.
    eexists. split; [exact Hs5|]. exists k, e, b'. split_and!; try done. congruence.
  - intros config now db' Hcol Hkept. unfold upd in Hcol. simpl in Hcol. rewrite Hcfg in Hcol. simpl in Hcol. injection Hcol as <-.
    rewrite Oidem. split_and!; simpl; try done; try congruence; [by rewrite Hb'|]. exists h, (in_Secrets cur). split_and!; [|by apply secrets_column_short; rewrite (Forall2_length _ _ _ Hopen)|done].
    apply Hkept. rewrite Hdek, Hq. exact Hkey.
Qed.

Lemma filter_delete {A} (p : A -> bool) (l : list A) k x :
  l !! k = Some x -> p x = true -> (∀ j y, j ≠ k -> l !! j = Some y -> p y = false) -> List.filter (fun y => negb (p y)) l = delete k l.
Proof.
  revert k. induction l as [|z l IH]; intros [|k] Hk Hx Hno; try done; simpl in *.
  - injection Hk as ->. rewrite Hx. simpl. clear IH Hx. assert (∀ j y, l !! j = Some y -> p y = false) as Hl by (intros j y; apply (Hno (S j)); lia).
    clear Hno. induction l as [|z l IH]; [done|]. simpl. rewrite (Hl 0%nat z) by done. simpl. f_equal. apply IH. intros j y Hj. by apply (Hl (S j)).
  - rewrite (Hno 0%nat z) by done. simpl. f_equal. apply IH; [done..|]. intros j y Hj. apply (Hno (S j)). lia.
Qed.
Lemma unique_delete (l : list IntegrationRow) k : unique l -> unique (delete k l).
Proof.
  intros Hu i j x y Hij Hi Hj. set (f n := if decide (n < k)%nat then n else S n).
  assert (∀ n, delete k l !! n = l !! f n) as Hf.
  { intros n. unfold f. case_decide; [by apply list_lookup_delete_lt|apply list_lookup_delete_ge; lia]. }
  rewrite Hf in Hi, Hj. apply (Hu (f i) (f j)); [|done..]. unfold f. repeat case_decide; lia.
Qed.

Lemma Delete_moves kind name actor w u w' st :
  sound (w_db w) st -> Delete kind name actor background w = (Ok u, w') -> ∃ st', sound (w_db w') st' ∧ deletes kind name st st'.
Proof.
  intros Hs (u3 & w7 & Htx & [= _ <-])%bind_Ok. simpl.
  apply WithinTx_cases in Htx as [(e & [=] & _)|(c' & w5 & _ & Hdb & _ & Hbody)]. rewrite Hdb. unfold delete_in_tx in Hbody.
  apply bind_Ok in Hbody as (cur & w1 & Hget & Hbody). apply bind_Ok in Hbody as (u1 & w2 & [Hpr ->]%reject_if_Ok & Hbody).
  apply GetByKindName_Ok in Hget as (Hdb1 & row & Hfind & Hid & _ & _ & _ & _ & _ & _ & Hprov & _). simpl in Hdb1, Hfind.
  destruct (find_setting _ _ _ _ _ Hs Hfind) as (k & e & Hrow & He & Ho & Hent).
  apply bind_Ok in Hbody as (n & w3 & Hunl & Hbody).
  assert (∃ ids, w_db w3 = (w_db w) <| user_identities := ids |>) as [ids Hdb3].
  { unfold unlinkIdentities in Hunl. destruct (negb _).
    - injection Hunl as _ <-. exists (user_identities (w_db w)). rewrite Hdb1. by destruct (w_db w).
    - apply wrap_err_Ok, sql_Ok in Hunl as (db' & [= _ <-] & ->). eexists. simpl. by rewrite Hdb1. }
  apply bind_Ok in Hbody as (r & w4 & Hdel%attempt_Ok & Hbody). destruct r as [u2|err]; [|by destruct (dbtx_ErrorIs _ _)].
  unfold DeleteSetting in Hdel. apply bind_Ok in Hdel as (gone & w6 & Hsql & [_ ->]%reject_if_Ok).
  apply sql_Ok in Hsql as (db' & Hf & ->). apply require_Ok in Hf as [_ Hf]. injection Hf as _ <-. simpl in Hbody.
  pose proof Hs as (Hu & Hnd & Hall). pose proof Hfind as [_ Hm]%find_some.
  assert (List.filter (fun r => negb (is_integration kind name r)) (integration_settings (w_db w3)) = delete k (integration_settings (w_db w))) as Hd.
  { rewrite Hdb3. simpl. eapply filter_delete; [exact Hrow|done|]. intros j y Hj Hy. apply not_true_iff_false. intros Hm'.
    assert (integration_clash row y = false) as Hc by by apply (Hu k j). apply orb_false_iff in Hc as [_ Hc].
    apply andb_prop in Hm as [E1%String.eqb_eq E2%String.eqb_eq]. apply andb_prop in Hm' as [E3%String.eqb_eq E4%String.eqb_eq].
    by rewrite E1, E2, E3, E4, !String.eqb_refl in Hc. }
  exists (delete k st). split; [|exists k, e; split_and!; try done; destruct Ho as (_&_&_&_&_&?&_); congruence].
  eapply audit_Ok; [exact Hbody|]. simpl. rewrite Hd, Hdb3. split_and!; [by apply unique_delete|done|].
  simpl. apply Forall2_delete. eapply Forall2_impl; [exact Hall|]. intros x y. apply opens_kept. intros id h Hh. exact Hh.
Qed.

(** ** Rotation *)

(** Every key of the list is in the table as it was read. *)
Definition as_read (db : DB) (keys : list DataKey) : Prop :=
  NoDup (key_ID <$> keys) ∧ ∀ dk, dk ∈ keys -> ∃ row, find_key (key_ID dk) db = Some row ∧ dk = datakey_fromDB row.

Lemma find_key_rewrapped id enc kek db id' :
  find_key id' (db <| data_keys := (fun r => if N.eqb (dk_ID r) id then rewrapped enc kek r else r) <$> data_keys db |>) =
  (fun r => if N.eqb (dk_ID r) id then rewrapped enc kek r else r) <$> find_key id' db.
Proof.
  unfold find_key. simpl. induction (data_keys db) as [|r l IH]; [done|]. rewrite fmap_cons. simpl.
  replace (dk_ID (if N.eqb (dk_ID r) id then rewrapped enc kek r else r)) with (dk_ID r) by by destruct (N.eqb _ _).
  by destruct (N.eqb (dk_ID r) id').
Qed.
Lemma find_key_id id db row : find_key id db = Some row -> dk_ID row = id.
Proof. by intros [_ ?%N.eqb_eq]%find_some. Qed.

Lemma rewrapOne_Ok dk keys ctx w u w' st :
  Knows keyring (ActiveKEKID keyring) = true -> sound (w_db w) st -> as_read (w_db w) (dk :: keys) ->
  rewrapOne keyring dk ctx w = (Ok u, w') -> sound (w_db w') st ∧ as_read (w_db w') keys.
Proof.
  intros Hact Hs [Hnd Hread] Hrun. destruct (Hread dk ltac:(set_solver)) as (row & Hrow & ->).
  apply bind_Ok in Hrun as (dek & w1 & ([n Hun] & Hdb1)%wrap_err_Ok%step_sum_Ok & Hrun).
  apply bind_Ok in Hrun as ([enc kek] & w2 & ([n2 Hwr] & Hdb2)%wrap_err_Ok%step_sum_Ok & Hrun).
  apply bind_Ok in Hrun as (check & w3 & (_ & Hdb3)%wrap_err_Ok%step_sum_Ok & Hrun).
  apply bind_Ok in Hrun as (u1 & w4 & (_ & Hdb4)%wrap_err_Ok%step_sum_Ok & Hrun%wrap_err_Ok).
  apply bind_Ok in Hrun as (aff & w5 & Hsql & [_ ->]%reject_if_Ok). apply sql_Ok in Hsql as (db' & [= _ <-] & ->).
  apply UnwrapDEK_wraps in Hun as (h & Hw & Hr). eapply WrapDEK_wraps in Hwr; [|done|done].
  simpl in *. rewrite Hdb4, Hdb3, Hdb2, Hdb1. split.
  - eapply sound_kept; [exact Hs|done| |].
    + simpl. pose proof Hs as (_ & Hids & _). rewrite <- list_fmap_compose. erewrite list_fmap_ext; [exact Hids|].
      intros k r _. simpl. by destruct (N.eqb _ _).
    + intros id' h' (k & Hk & Hw'). unfold has_key. rewrite find_key_rewrapped, Hk. simpl. eexists. split; [done|].
      destruct (N.eqb_spec (dk_ID k) (dk_ID row)) as [E|]; [|done]. simpl.
      assert (k = row) as -> by (apply find_key_id in Hk as Hk'; rewrite <- Hk', E in Hk; congruence).
      by rewrite (wraps_fun _ _ _ _ _ Hw' Hw).
  - apply NoDup_cons in Hnd as [Hn Hnd]. split; [done|]. intros dk' Hdk'. destruct (Hread dk' ltac:(set_solver)) as (row' & Hrow' & ->).
    exists row'. rewrite find_key_rewrapped, Hrow'. simpl. destruct (N.eqb_spec (dk_ID row') (dk_ID row)) as [E|]; [|done].
    destruct Hn. simpl. rewrite <- E. apply list_elem_of_fmap. by exists (datakey_fromDB row').
Qed.
Lemma rewrap_all_Ok keys n m ctx w r w' st :
  Knows keyring (ActiveKEKID keyring) = true -> sound (w_db w) st -> as_read (w_db w) keys ->
  rewrap_all keyring keys n m ctx w = (Ok r, w') -> sound (w_db w') st.
Proof.
  intros Hact. revert n m w. induction keys as [|dk keys IH]; intros n m w Hs Hread; simpl; [intros [= _ <-]; done|].
  assert (as_read (w_db w) keys) as Hrest.
  { destruct Hread as [Hnd Hread]. split; [by apply NoDup_cons in Hnd as [_ ?]|]. intros; apply Hread. set_solver. }
  destruct (String.eqb _ _); [by apply IH|]. destruct (negb _); [by apply IH|]. intros (u & w1 & Hone & Hrun)%bind_Ok.
  destruct (rewrapOne_Ok _ _ _ _ _ _ _ Hact Hs Hread Hone) as [Hs1 Hr1]. by eapply IH.
Qed.
Lemma rotate_moves w r w' st :
  Knows keyring (ActiveKEKID keyring) = true -> sound (w_db w) st -> Rotate keyring background w = (Ok r, w') -> sound (w_db w') st.
Proof.
  intros Hact Hs Htx. apply WithinTx_cases in Htx as [(e & [=] & _)|(c' & w1 & _ & Hdb & _ & Hbody)]. rewrite Hdb.
  apply bind_Ok in Hbody as (u & w2 & Hlock & Hbody).
  assert (w_db w2 = w_db w) as Hdb2. { apply bind_Ok in Hlock as (b & w3 & [= <- <-] & Hlock). by apply wrap_err_Ok, query_Ok in Hlock as (_ & ? & _). }
  apply bind_Ok in Hbody as (keys & w3 & Hlist & Hbody). apply bind_Ok in Hlist as (rows & w4 & (-> & Hdb4 & _)%query_Ok & [= <- <-]).
  eapply rewrap_all_Ok; [done| | |exact Hbody]; [by rewrite Hdb4, Hdb2|]. rewrite Hdb4. pose proof Hs as (_ & Hnd & _). rewrite Hdb2. split.
  - by rewrite <- list_fmap_compose.
  - intros dk (row & -> & Hrow)%list_elem_of_fmap. exists row. split; [|done]. unfold find_key. simpl.
    destruct (List.find _ _) as [row'|] eqn:Ef.
    + apply find_some in Ef as [Hin E%N.eqb_eq]. rewrite <- list_elem_of_In in Hin. f_equal. by eapply NoDup_fmap_2_elem.
    + eapply find_none in Ef; [|by apply list_elem_of_In]. by rewrite N.eqb_refl in Ef.
Qed.

(** ** Provisioning *)

(** What the file declares of one name: a new entry, or the one there taken over;
    either way without a secret. *)
Definition declares_one (category : Category) (name : string) (entry : provisionedEntry) (st st' : list Entry) : Prop :=
  ∃ config, config_column (pe_Config entry) = Some config ∧
    ((∃ e, st' = st ++ [e] ∧ (∀ e0, e0 ∈ st -> ~ is_entry category name e0) ∧ is_entry category name e ∧ e_Enabled e = pe_Enabled entry ∧
        e_Config e = config ∧ e_Secrets e = [] ∧ e_Provisioned e = true ∧ e_CreatedBy e = None ∧ e_UpdatedBy e = None) ∨
     (∃ k e, st !! k = Some e ∧ is_entry category name e ∧
        st' = <[k := e <| e_Enabled := pe_Enabled entry |> <| e_Config := config |> <| e_Secrets := [] |> <| e_Provisioned := true |>
                     <| e_UpdatedBy := None |>]> st)).
Fixpoint declares (category : Category) (entries : list (string * provisionedEntry)) (st st' : list Entry) : Prop :=
  match entries with
  | [] => st' = st
  | (name, entry) :: rest => ∃ st1, declares_one category name entry st st1 ∧ declares category rest st1 st'
  end.
(** An entry the file no longer declares goes back to the admins, switched off;
    a name this build does not know stays as it is. *)
Definition orphaned (category : Category) (entries : list (string * provisionedEntry)) (e : Entry) : bool :=
  String.eqb (e_Kind e) category && e_Provisioned e && negb (bool_decide (is_Some (go_lookup entries (e_Name e)))) &&
  match admit_pair registry category (e_Name e) with inl _ => true | inr _ => false end.
Definition released_entry (e : Entry) : Entry :=
  e <| e_Provisioned := false |> <| e_Enabled := false |> <| e_UpdatedBy := None |>.
Definition releases (category : Category) (entries : list (string * provisionedEntry)) (st : list Entry) : list Entry :=
  (fun e => if orphaned category entries e then released_entry e else e) <$> st.
Fixpoint provisions (declared : provisionedMap) (categories : list Category) (st st' : list Entry) : Prop :=
  match categories with
  | [] => st' = st
  | category :: rest =>
      let entries := default [] (go_lookup declared category) in
      ∃ st1, declares category entries st st1 ∧ provisions declared rest (releases category entries st1) st'
  end.

Lemma GetByKindName_reads kind name ctx w : w_db (snd (GetByKindName kind name ctx w)) = w_db w.
Proof.
  unfold GetByKindName, query, sql, mbind, M_bind. destruct (env_fault _); [done|]. simpl. destruct (List.find _ _) as [row|]; [|done].
  unfold integration_fromDB. by destruct (decode_secrets _).
Qed.
Lemma column_idem cfg c : config_column cfg = Some c -> jsonb c = c.
Proof. destruct cfg; [intros [= <-]; done|done|intros [= <-]; apply jsonb_jsonb]. Qed.

(** A data key and a new row of the file's. *)
Lemma insertProvisioned_Ok category name entry ctx w u w' st :
  Knows keyring (ActiveKEKID keyring) = true -> sound (w_db w) st -> insertProvisioned keyring category name entry ctx w = (Ok u, w') ->
  ∃ st', sound (w_db w') st' ∧ declares_one category name entry st st'.
Proof.
  intros Hact Hs. unfold insertProvisioned. intros ([dek id] & w1 & Hdek & Hrun)%bind_Ok.
  destruct (newDEK_Ok _ _ _ _ _ _ Hact Hs Hdek) as (Hs1 & _ & _ & h & Hkey & _).
  apply bind_Ok in Hrun as (s & w2 & Hc & [= _ <-]).
  apply CreateSetting_Ok in Hc as (config & row & Hcol & (rid & now & ->) & Hfresh & Hdb). simpl in *.
  set (e := mkEntry rid category name (pe_Enabled entry) config [] true None None).
  exists (st ++ [e]). split.
  - eapply sound_add; [exact Hs1|exact Hdb|done|]. split_and!; try done; [by eapply column_idem|simpl; lia|].
    exists h, []. split_and!; [|done|by constructor]. simpl. rewrite Hdb. exact Hkey.
  - exists config. split; [done|]. left. exists e. split_and!; try done. eapply (clash_entry _ _ _ Hs1 Hfresh).
Qed.
Lemma provisionOne_Ok category name entry ctx w u w' st :
  Knows keyring (ActiveKEKID keyring) = true -> sound (w_db w) st -> provisionOne keyring category name entry ctx w = (Ok u, w') ->
  ∃ st', sound (w_db w') st' ∧ declares_one category name entry st st'.
Proof.
  intros Hact Hs. unfold provisionOne. intros (r & w1 & Hget%attempt_Ok & Hrun)%bind_Ok. destruct r as [cur|err].
  - apply bind_Ok in Hrun as (s & w2 & Hup & [= _ <-]).
    apply GetByKindName_Ok in Hget as (Hdb & row & Hfind & Hid & Hk & Hn & _ & _ & _ & Hdek & _ & Hby & _).
    destruct (find_setting _ _ _ _ _ Hs Hfind) as (k & e & Hrow & He & Ho & Hent). rewrite <- Hdb in Hs, Hrow, Ho.
    eapply (update_row _ _ _ _ _ st k row (fun config => e <| e_Enabled := pe_Enabled entry |> <| e_Config := config |> <| e_Secrets := [] |>
      <| e_Provisioned := true |> <| e_UpdatedBy := None |>)) in Hup as (config & Hcol & Hs'); [|done..|].
    + eexists. split; [exact Hs'|]. exists config. split; [done|]. right. by exists k, e.
    + intros config now db' Hcol Hkept. destruct Ho as (Oid & Okind & Oname & _ & _ & _ & Oby & _ & _ & _ & h & stored & Hkey & _).
      split_and!; try done; [by eapply column_idem|simpl; lia|]. exists h, []. split_and!; [|done|by constructor]. simpl. rewrite Hdek. by apply Hkept.
  - destruct (errors_Is _ _); [|done]. eapply insertProvisioned_Ok; [done| |exact Hrun].
    pose proof (GetByKindName_reads category name ctx w) as Hr. unfold GetForUpdateByKindName in Hget. rewrite Hget in Hr. simpl in Hr. by rewrite Hr.
Qed.
Lemma provision_entries_Ok category entries ctx w u w' st :
  Knows keyring (ActiveKEKID keyring) = true -> sound (w_db w) st ->
  for_each (fun p => wrap_err (Errorf "provision") (provisionOne keyring category p.1 p.2)) entries ctx w = (Ok u, w') ->
  ∃ st', sound (w_db w') st' ∧ declares category entries st st'.
Proof.
  intros Hact. revert w st. induction entries as [|[name entry] rest IH]; intros w st Hs; simpl; [intros [= _ <-]; eauto|].
  intros (u1 & w1 & Hone%wrap_err_Ok & Hrest)%bind_Ok. destruct (provisionOne_Ok _ _ _ _ _ _ _ _ Hact Hs Hone) as (st1 & Hs1 & Hd1).
  destruct (IH _ _ Hs1 Hrest) as (st' & Hs' & Hd). eauto.
Qed.

(** *** What is no longer declared *)

Lemma from_rows_Ok rows ctx w l w' :
  from_rows rows ctx w = (Ok l, w') -> w' = w ∧ Forall2 (fun r s => in_Name s = is_Name r ∧ in_Provisioned s = is_Provisioned r) rows l.
Proof.
  revert l. induction rows as [|r rows IH]; intros l; simpl; [intros [= <- <-]; done|]. intros (s & w1 & Hs & Hrun)%bind_Ok.
  apply fromDB_Ok in Hs as (-> & _ & _ & Hn & _ & _ & _ & _ & Hp & _). apply bind_Ok in Hrun as (l' & w1 & Hl & [= <- <-]).
  apply IH in Hl as [-> Hf]. split; [done|]. by constructor.
Qed.
Lemma sound_map db db' st f g :
  sound db st -> (∀ r, is_ID (f r) = is_ID r ∧ is_Kind (f r) = is_Kind r ∧ is_Name (f r) = is_Name r) ->
  db' = db <| integration_settings := f <$> integration_settings db |> ->
  (∀ k r e, integration_settings db !! k = Some r -> opens db r e -> opens db (f r) (g e)) -> sound db' (g <$> st).
Proof.
  intros (Hu & Hnd & Hf) Hkeep -> Ho. split_and!; [|done|].
  - intros i j x y Hij Hx Hy. simpl in Hx, Hy. rewrite list_lookup_fmap in Hx, Hy.
    apply fmap_Some in Hx as (x' & Hx & ->), Hy as (y' & Hy & ->).
    unfold clash; simpl. unfold integration_clash. destruct (Hkeep x') as (-> & -> & ->), (Hkeep y') as (-> & -> & ->). by apply (Hu i j).
  - simpl. apply Forall2_fmap. apply Forall2_same_length_lookup. split; [by eapply Forall2_length|]. intros k r e Hr He.
    destruct (Forall2_lookup_l _ _ _ _ _ Hf Hr) as (e' & He' & Hop). rewrite He in He'. injection He' as <-.
    eapply opens_kept; [|by eapply Ho]. intros id h Hh. exact Hh.
Qed.

Lemma same_setting l k r r' :
  unique l -> l !! k = Some r -> r' ∈ l -> is_Kind r' = is_Kind r -> is_Name r' = is_Name r -> r' = r.
Proof.
  intros Hu Hk [j Hj]%list_elem_of_lookup Ek En. destruct (decide (k = j)) as [->|Hne]; [congruence|].
  pose proof (Hu k j r r' Hne Hk Hj) as Hc. unfold clash in Hc; simpl in Hc. unfold integration_clash in Hc.
  by rewrite Ek, En, !String.eqb_refl, orb_true_r in Hc.
Qed.
(** The rows an UPDATE of the collected names touches are the orphaned ones. *)
Lemma undeclared_names category entries db st rows k r e :
  sound db st -> Forall2 (fun r s => in_Name s = is_Name r ∧ in_Provisioned s = is_Provisioned r)
    (sort_by (fun a b => pg_cmp (is_Name a) (is_Name b)) (List.filter (fun r => String.eqb (is_Kind r) category) (integration_settings db))) rows ->
  integration_settings db !! k = Some r -> opens db r e ->
  String.eqb (is_Kind r) category && bool_decide (is_Name r ∈ in_Name <$> List.filter (undeclared registry category entries) rows) =
  orphaned category entries e.
Proof.
  intros (Hu & _) Hrows Hr (_ & Hkind & Hname & _ & _ & Hprov & _). unfold orphaned. rewrite <- Hkind, <- Hname, <- Hprov.
  destruct (String.eqb_spec (is_Kind r) category) as [Ec|]; [|done]. simpl.
  assert (∀ s, in_Name s = is_Name r -> in_Provisioned s = is_Provisioned r -> undeclared registry category entries s =
    is_Provisioned r && negb (bool_decide (is_Some (go_lookup entries (is_Name r)))) &&
    match admit_pair registry category (is_Name r) with inl _ => true | inr _ => false end) as Hund by by (intros s E1 E2; unfold undeclared; rewrite E1, E2).
  apply eq_true_iff_eq. rewrite bool_decide_eq_true, list_elem_of_fmap. setoid_rewrite elem_of_List_filter. split.
  - intros (s & En & Hs & Hd). apply list_elem_of_lookup in Hs as [j Hj].
    destruct (Forall2_lookup_r _ _ _ _ _ Hrows Hj) as (r' & Hr' & E1 & E2). apply list_elem_of_lookup_2, elem_of_sort_by, elem_of_List_filter in Hr' as [Hin Hk%String.eqb_eq].
    assert (r' = r) as -> by (eapply same_setting; [done..|congruence|congruence]). by rewrite <- (Hund s).
  - intros Hd. assert (r ∈ sort_by (fun a b => pg_cmp (is_Name a) (is_Name b)) (List.filter (fun r => String.eqb (is_Kind r) category) (integration_settings db))) as Hin.
    { apply elem_of_sort_by, elem_of_List_filter. split; [by eapply list_elem_of_lookup_2|by apply String.eqb_eq]. }
    apply list_elem_of_lookup in Hin as [j Hj]. destruct (Forall2_lookup_l _ _ _ _ _ Hrows Hj) as (s & Hs & E1 & E2).
    exists s. split; [done|]. split; [by eapply list_elem_of_lookup_2|by rewrite Hund].
Qed.
Lemma orphan_released db r e now :
  opens db r e -> opens db (released now r) (released_entry e).
Proof. intros (?&?&?&?&?&?&?&?&?&?&h&stored&?&?&?). split_and!; try done. by exists h, stored. Qed.

Lemma release_Ok category entries ctx w u w' st :
  sound (w_db w) st -> releaseUndeclared registry category entries ctx w = (Ok u, w') -> sound (w_db w') (releases category entries st).
Proof.
  intros Hs. unfold releaseUndeclared. intros (rows & w1 & Hlist%wrap_err_Ok & Hrel%wrap_err_Ok)%bind_Ok.
  apply bind_Ok in Hlist as (raw & w2 & (-> & Hdb & _)%query_Ok & [-> Hrows]%from_rows_Ok). rewrite <- Hdb in Hs, Hrows.
  set (names := in_Name <$> List.filter (undeclared registry category entries) rows) in *.
  assert (∃ now, w_db w' = (w_db w2) <| integration_settings :=
    (fun r => if String.eqb (is_Kind r) category && bool_decide (is_Name r ∈ names) then released now r else r)
      <$> integration_settings (w_db w2) |>) as [now Hdb'].
  { unfold ReleaseProvisioned in Hrel. destruct names as [|n names'].
    - injection Hrel as _ <-. exists zeroTime. rewrite (list_fmap_ext _ id), list_fmap_id by (intros ? r _; by rewrite andb_false_r). by destruct (w_db w2).
    - apply bind_Ok in Hrel as (now & w3 & [= <- <-] & Hrel). apply sql_Ok in Hrel as (db' & [= _ <-] & ->). by eexists. }
  eapply sound_map; [exact Hs| |exact Hdb'|].
  - intros r. simpl. by destruct (String.eqb (is_Kind r) category && bool_decide (is_Name r ∈ names)).
  - intros k r e Hr Ho. pose proof (undeclared_names _ entries _ _ _ _ _ _ Hs Hrows Hr Ho) as E. fold names in E. simpl. rewrite E. destruct (orphaned _ _ _); [by apply orphan_released|done].
Qed.

Lemma provision_categories_Ok declared categories ctx w u w' st :
  Knows keyring (ActiveKEKID keyring) = true -> sound (w_db w) st ->
  for_each (fun category => provisionCategory keyring registry category (default [] (go_lookup declared category))) categories ctx w = (Ok u, w') ->
  ∃ st', sound (w_db w') st' ∧ provisions declared categories st st'.
Proof.
  intros Hact. revert w st. induction categories as [|c rest IH]; intros w st Hs; simpl; [intros [= _ <-]; eauto|].
  intros (u1 & w1 & Hone & Hrest)%bind_Ok. apply bind_Ok in Hone as (u2 & w2 & Hent & Hrel).
  destruct (provision_entries_Ok _ _ _ _ _ _ _ Hact Hs Hent) as (st1 & Hs1 & Hd). pose proof (release_Ok _ _ _ _ _ _ _ Hs1 Hrel) as Hs2.
  destruct (IH _ _ Hs2 Hrest) as (st' & Hs' & Hp). eauto.
Qed.
Lemma provision_moves w declared w' st :
  Knows keyring (ActiveKEKID keyring) = true -> sound (w_db w) st ->
  Provision keyring registry loginProviders notifyTransports background w = (Ok declared, w') ->
  parseDeclared registry loginProviders notifyTransports = inl declared ∧
  ∃ st', sound (w_db w') st' ∧ provisions declared provisionedCategories st st'.
Proof.
  intros Hact Hs. unfold Provision. intros (d & w1 & [Hparse ->]%from_sum_Ok & Hrun)%bind_Ok.
  apply bind_Ok in Hrun as (u & w2 & Htx & [= <- <-]). split; [done|].
  apply WithinTx_cases in Htx as [(e & [=] & _)|(c' & w3 & _ & Hdb & _ & Hbody)]. rewrite Hdb.
  apply bind_Ok in Hbody as (u1 & w4 & Hlock%wrap_err_Ok & Hbody). eapply provision_categories_Ok; [done| |exact Hbody].
  assert (w_db w4 = w_db w) as ->; [|done]. apply bind_Ok in Hlock as (b & w5 & [= <- <-] & Hlock).
  by apply wrap_err_Ok, query_Ok in Hlock as (_ & ? & _).
Qed.

(** ** What fails changes nothing *)

(** [m] either returns, or leaves the vault as it was. *)
Definition undone {A} (m : M A) : Prop :=
  ∀ w r w' st, m background w = (r, w') -> (∃ a, r = Ok a) ∨ (sound (w_db w) st -> sound (w_db w') st).
Lemma undone_reads {A} (m : M A) : reads m -> undone m.
Proof. intros Hm w r w' st E. right. by destruct (reads_run _ _ _ _ _ Hm E) as [-> _]. Qed.
Lemma undone_bind {A B} (m : M A) (k : A -> M B) : reads m -> (∀ a, undone (k a)) -> undone (m ≫= k).
Proof.
  intros Hm Hk w r w' st [(a & w1 & Hrun & Hrest)|(_ & r0 & Hrun & _)]%bind_inv; destruct (reads_run _ _ _ _ _ Hm Hrun) as [Hdb _].
  - rewrite <- Hdb. by eapply Hk.
  - right. by rewrite Hdb.
Qed.
Definition answers {A} (m : M A) : Prop := ∀ ctx w, ∃ a w', m ctx w = (Ok a, w').
Lemma undone_then {A B} (m : M A) (k : A -> M B) : (∀ a, answers (k a)) -> undone m -> undone (m ≫= k).
Proof.
  intros Hk Hm w r w' st [(a & w1 & Hrun & Hk')|(_ & r0 & Hrun & Hno)]%bind_inv.
  { left. destruct (Hk a background w1) as (b & w2 & E). rewrite E in Hk'. injection Hk' as <- _. eauto. }
  destruct (Hm _ _ _ st Hrun) as [[a ->]|]; [by destruct (Hno a)|by right].
Qed.
Lemma undone_WithinTx {A} (fn : M A) : undone (WithinTx fn).
Proof. intros w r w' st [(e & -> & ->)|(a & w2 & -> & _)]%WithinTx_cases; eauto. Qed.

Lemma reads_from_sum {A} (r : A + error) : reads (from_sum r).
Proof. destruct r; [apply reads_ret|apply reads_raise]. Qed.
Lemma reads_at_step {A} (f : nat -> A + error) : reads (at_step f).
Proof. split; [intros J ctx w Hw|intros ctx w]; unfold wp, at_step; by destruct (f _). Qed.
Hint Resolve reads_from_sum reads_at_step : reads.
(** Up to the transaction the code reads; after it, it only answers. *)
Ltac undone_step := first
  [ apply undone_WithinTx
  | apply undone_then; [solve [intros ? ? ?; eexists _, _; reflexivity]|]
  | apply undone_bind; [solve [auto with reads]|intros ?] ].

Lemma undone_toggle cmd : undone (Toggle cmd).
Proof.
  unfold Toggle. undone_step. undone_step. clear a. intros w r w' st E.
  apply beside_cases in E as [(e & -> & ->)|(a & w1 & u & w2 & Hb & Haudit & [(e & -> & ->)|(b & w3 & -> & _)])]; [eauto| |by left; eauto].
  right. intros Hs. eapply reads_run in Hb as [Hdb _].
  - simpl in Hdb. destruct (publish_run _ _ _ _ _ Haudit) as [[tasks Hq] _]. eapply sound_same; [| |exact Hs]; by rewrite Hq, Hdb.
  - unfold GetForUpdateByKindName, GetByKindName, integration_fromDB, refuseProvisioned. reads_solve.
Qed.

(** ** Requests *)

(** Startup provisions and rotates; admins do the rest; the transports and the
    sign-in read settings. *)
Inductive RegistryRequest :=
| ReqCreate (cmd : CreateIntegrationCmd) | ReqUpdate (cmd : UpdateIntegrationCmd) | ReqToggle (cmd : ToggleIntegrationCmd)
| ReqDelete (kind name : string) (actor : option User) | ReqProvision | ReqRotate
| ReqGet (kind name : string) | ReqList | ReqSettings (kind name : string) | ReqLoginProviders (kind : string).
Definition serve_registry (req : RegistryRequest) : M unit :=
  match req with
  | ReqCreate cmd => _ ← Integrations.Create keyring registry loginProviders cmd; mret tt
  | ReqUpdate cmd => _ ← Update keyring registry loginProviders cmd; mret tt
  | ReqToggle cmd => _ ← Toggle cmd; mret tt
  | ReqDelete kind name actor => _ ← Delete kind name actor; mret tt
  | ReqProvision => _ ← Provision keyring registry loginProviders notifyTransports; mret tt
  | ReqRotate => _ ← Rotate keyring; mret tt
  | ReqGet kind name => _ ← GetMasked kind name; mret tt
  | ReqList => _ ← ListMasked; mret tt
  | ReqSettings kind name => _ ← Settings_of keyring registry provisioned kind name; mret tt
  | ReqLoginProviders kind => _ ← ListLoginProviders keyring registry provisioned kind; mret tt
  end.
(** Configs whose keys are told apart by the decoder. *)
Definition plain_request (req : RegistryRequest) : Prop :=
  match req with ReqCreate cmd => plain_create cmd | ReqUpdate cmd => plain_raw (up_Config cmd) | _ => True end.
Definition vault_step (req : RegistryRequest) (st st' : list Entry) : Prop :=
  match req with
  | ReqCreate cmd => creates cmd st st'
  | ReqUpdate cmd => edits_entry cmd st st'
  | ReqToggle cmd => toggles cmd st st'
  | ReqDelete kind name _ => deletes kind name st st'
  | ReqProvision => ∃ declared, parseDeclared registry loginProviders notifyTransports = inl declared ∧
                      provisions declared provisionedCategories st st'
  | _ => st' = st
  end.

Lemma reads_from_rows rows : reads (from_rows rows).
Proof. induction rows as [|r rows IH]; simpl; [apply reads_ret|]. unfold integration_fromDB. reads_solve. Qed.
Lemma reads_load_dek id : reads (load_dek keyring id).
Proof. unfold load_dek, unwrapDEKFor, datakey_GetByID. reads_solve. Qed.
Hint Resolve reads_from_rows reads_load_dek : reads.
Lemma reads_open_all rows : reads (open_all keyring registry provisioned rows).
Proof.
  induction rows as [|r rows IH]; simpl; [apply reads_ret|]. unfold openProvider, resolveAndOpen, openSettings. reads_solve.
Qed.
Hint Resolve reads_open_all : reads.
Definition is_read (req : RegistryRequest) : bool :=
  match req with ReqGet _ _ | ReqList | ReqSettings _ _ | ReqLoginProviders _ => true | _ => false end.
Lemma reads_serve req : is_read req = true -> reads (serve_registry req).
Proof.
  destruct req; try done; intros _; simpl.
  - unfold GetMasked, GetByKindName, integration_fromDB. reads_solve.
  - unfold ListMasked, ListSettings. reads_solve.
  - unfold Settings_of, load_row, GetByKindName, integration_fromDB. reads_solve.
  - unfold ListLoginProviders, ListByKind. reads_solve.
Qed.
Lemma undone_serve req : undone (serve_registry req).
Proof.
  destruct (is_read req) eqn:Er; [by apply undone_reads, reads_serve|]. destruct req; try done; simpl.
  - unfold Integrations.Create. repeat undone_step.
  - unfold Update, updateWithApply. repeat undone_step.
  - undone_step. apply undone_toggle.
  - unfold Delete. repeat undone_step.
  - unfold Provision. repeat undone_step.
  - unfold Rotate. repeat undone_step.
Qed.

(** ** Who is told *)

(** What a request that returns tells the listeners, once it is committed. *)
Definition told (req : RegistryRequest) : list Effect :=
  match req with
  | ReqCreate cmd => [EvChanged (ci_Kind cmd) (strings_TrimSpace (ci_Name cmd))]
  | ReqUpdate cmd => [EvChanged (up_Kind cmd) (up_Name cmd)]
  | ReqToggle cmd => [EvChanged (ti_Kind cmd) (ti_Name cmd)]
  | ReqDelete kind name _ => [EvChanged kind name]
  | _ => []
  end.
(** [m] says [l] if it returns, and nothing if it does not. *)
Definition tells {A} (m : M A) (l : list Effect) : Prop :=
  ∀ ctx w, w_log (snd (m ctx w)) = w_log w ++ match fst (m ctx w) with Ok _ => l | _ => [] end.
Lemma tells_quiet {A} (m : M A) : quiet m -> tells m [].
Proof. intros Hm ctx w. rewrite Hm. destruct (fst _); by rewrite app_nil_r. Qed.
Lemma tells_bind {A B} (m : M A) (k : A -> M B) l : quiet m -> (∀ a, tells (k a) l) -> tells (m ≫= k) l.
Proof.
  intros Hm Hk ctx w. unfold mbind, M_bind. specialize (Hm ctx w). destruct (m ctx w) as [[a|e|s] w1]; simpl in *; rewrite <- Hm.
  - apply Hk.
  - by rewrite app_nil_r.
  - by rewrite app_nil_r.
Qed.
Lemma tells_then {A B} (m : M A) (f : A -> B) l : tells m l -> tells (a ← m; mret (f a)) l.
Proof. intros Hm ctx w. unfold mbind, M_bind. specialize (Hm ctx w). by destruct (m ctx w) as [[a|e|s] w1]. Qed.
Lemma tells_notify kind name : tells (notifyChanged kind name) [EvChanged kind name].
Proof. done. Qed.

Lemma quiet_at_step {A} (f : nat -> A + error) : quiet (at_step f).
Proof. apply reads_at_step. Qed.
Lemma quiet_from_sum {A} (r : A + error) : quiet (from_sum r).
Proof. by destruct r. Qed.
Lemma quiet_fromDB row : quiet (integration_fromDB row).
Proof. intros ctx w. unfold integration_fromDB. by destruct (decode_secrets _). Qed.
Lemma quiet_audit action : quiet (integration_publishAudit action).
Proof. apply quiet_publishAudit. Qed.
Hint Resolve quiet_at_step quiet_from_sum quiet_fromDB quiet_audit : quiet.
Lemma quiet_GetByKindName kind name : quiet (GetByKindName kind name).
Proof. unfold GetByKindName. quiet_solve. Qed.
Lemma quiet_UpdateSetting s : quiet (UpdateSetting s).
Proof. unfold UpdateSetting. quiet_solve. Qed.
Lemma quiet_CreateSetting s : quiet (CreateSetting s).
Proof. unfold CreateSetting. quiet_solve. Qed.
Lemma quiet_newDEK : quiet (newDEK keyring).
Proof. unfold newDEK, datakey_Create. quiet_solve. Qed.
Lemma quiet_sealSecret i s dek key v : quiet (sealSecret i s dek key v).
Proof. unfold sealSecret. quiet_solve. Qed.
Lemma quiet_unwrapDEKFor id : quiet (unwrapDEKFor keyring id).
Proof. unfold unwrapDEKFor, datakey_GetByID. quiet_solve. Qed.
Hint Resolve quiet_GetByKindName quiet_UpdateSetting quiet_CreateSetting quiet_newDEK quiet_sealSecret quiet_unwrapDEKFor : quiet.
Lemma quiet_encrypt_keys i s dek plain keys : quiet (encrypt_keys i s dek plain keys).
Proof. induction keys as [|key keys IH]; simpl; quiet_solve; apply IH. Qed.
Lemma quiet_merge_keys i cur incoming dek keys : quiet (merge_keys keyring i cur incoming dek keys).
Proof. revert dek. induction keys as [|key keys IH]; intros dek; simpl; quiet_solve; apply IH. Qed.
Hint Resolve quiet_encrypt_keys quiet_merge_keys : quiet.
Lemma quiet_create i s cmd plain : quiet (create_in_tx keyring i s cmd plain).
Proof. unfold create_in_tx, encryptSecrets. quiet_solve. Qed.
Lemma quiet_update kind name i cmd intents : quiet (update_in_tx kind name (apply_update keyring registry loginProviders i cmd intents)).
Proof. unfold update_in_tx, GetForUpdateByKindName, refuseProvisioned, apply_update, mergeSecrets. quiet_solve. Qed.
Lemma quiet_delete kind name actor : quiet (delete_in_tx kind name actor).
Proof. unfold delete_in_tx, GetForUpdateByKindName, refuseProvisioned, unlinkIdentities, DeleteByIntegrationID, DeleteSetting. quiet_solve. Qed.
Lemma quiet_provision declared : quiet (provision_in_tx keyring registry declared).
Proof.
  unfold provision_in_tx, AdvisoryXactLock, provisionCategory, provisionOne, insertProvisioned, GetForUpdateByKindName, releaseUndeclared,
    ReleaseProvisioned, ListByKind. quiet_solve. all: first [apply reads_from_rows|done].
Qed.
Lemma quiet_rewrap_all keys n m : quiet (rewrap_all keyring keys n m).
Proof. revert n m. induction keys as [|k keys IH]; intros n m; simpl; unfold rewrapOne, UpdateWrap; quiet_solve; apply IH. Qed.
Hint Resolve quiet_create quiet_update quiet_delete quiet_provision quiet_rewrap_all : quiet.
Lemma quiet_toggle_tx {A B} (before : M A) beside (after : A -> M B) :
  quiet before -> (∀ a, quiet (beside a)) -> (∀ a, quiet (after a)) -> quiet (WithinTx_beside before beside after).
Proof.
  intros Hb Hs Ha ctx w. assert (∀ saved (r : outcome B * World), w_log (tx_end saved r).2 = w_log r.2) as Hend.
  { intros saved [[b|e|s] w0]; unfold tx_end, rollback; destruct (env_fault _); done. }
  unfold WithinTx_beside. destruct (TxFromContext ctx); [by apply quiet_bind; [|intros; apply quiet_bind]|]. destruct (env_fault _); [done|].
  set (tx := mkCtx _). pose proof (Hb tx (tick w)) as E1. destruct (before tx (tick w)) as [[a|e|s] w1]; simpl in E1; [|by rewrite Hend..].
  pose proof (Hs a ctx w1) as E2. destruct (beside a ctx w1) as [[u|e|s] w2]; simpl in E2; rewrite Hend; simpl; [rewrite Ha|..]; congruence.
Qed.
(** Up to the transaction and in it nothing is said. *)
Ltac tells_step := first
  [ apply tells_notify
  | apply tells_bind; [solve [quiet_solve]|intros ?]
  | apply tells_then ].
Lemma serve_tells req : tells (serve_registry req) (told req).
Proof.
  destruct (is_read req) eqn:Er.
  { assert (told req = []) as -> by by destruct req. apply tells_quiet. by apply reads_serve. }
  destruct req; try done; simpl.
  - unfold Integrations.Create. repeat tells_step.
  - unfold Update, updateWithApply. repeat tells_step.
  - unfold Toggle. apply tells_then. tells_step. apply tells_bind; [|intros ?; apply tells_then, tells_notify].
    apply quiet_toggle_tx; [|intros; apply quiet_audit|]; unfold GetForUpdateByKindName, refuseProvisioned; quiet_solve.
  - unfold Delete. repeat tells_step.
  - apply tells_quiet. unfold Provision. quiet_solve.
  - apply tells_quiet. unfold Rotate, LockRotation, AdvisoryXactLock, ListForUpdate. quiet_solve. done.
Qed.

(** A request that returns has made its step. *)
Lemma registry_moves req w u w' st :
  Knows keyring (ActiveKEKID keyring) = true -> plain_request req -> sound (w_db w) st ->
  serve_registry req background w = (Ok u, w') -> ∃ st', sound (w_db w') st' ∧ vault_step req st st'.
Proof.
  intros Hact Hplain Hs Hrun. destruct (is_read req) eqn:Er.
  { exists st. destruct (reads_run _ _ _ _ _ (reads_serve req Er) Hrun) as [-> _]. split; [done|]. by destruct req. }
  destruct req; try done; simpl in Hrun; [apply bind_Ok in Hrun as (a & w1 & Hrun & [= _ <-])..].
  - by eapply create_moves.
  - by eapply edit_moves.
  - by eapply toggle_moves.
  - by eapply Delete_moves.
  - destruct (provision_moves _ _ _ _ Hact Hs Hrun) as (Hd & st' & Hs' & Hp). simpl. eauto.
  - exists st. split; [|done]. by eapply rotate_moves.
Qed.
(** One that does not has left every row opening as it did. *)
Lemma registry_undoes req w r w' st :
  (∀ u, r ≠ Ok u) -> sound (w_db w) st -> serve_registry req background w = (r, w') -> sound (w_db w') st.
Proof. intros Hr Hs Hrun. destruct (undone_serve req w _ w' st Hrun) as [[a ->]|Hst]; [by destruct (Hr a)|by apply Hst]. Qed.

(** C20. The registry implements the vault.  The requests are those whose config,
    where they bring one, has no two keys that name the same field, and the key
    ring of the instance holds the key it is to wrap with; with two such keys a
    stored secret may be bound to another issuer than the one served, and no
    longer opens.  Of such a request, however it ends: one that returns has made the vault's
    step, every secret the vault holds then opens to its plain text, and the
    listeners were told of the change, once; one that fails, in the middle of its
    transaction too, leaves the vault as it was and tells nobody.  A rotation of
    the data keys and a read leave it as it was in any case. *)
Theorem registry_refines_vault req w r w' st :
  Knows keyring (ActiveKEKID keyring) = true -> plain_request req -> sound (w_db w) st ->
  serve_registry req background w = (r, w') ->
  match r with
  | Ok _ => w_log w' = w_log w ++ told req ∧ ∃ st', sound (w_db w') st' ∧ vault_step req st st'
  | _ => w_log w' = w_log w ∧ sound (w_db w') st
  end.
Proof.
  intros Hact Hplain Hs Hrun. pose proof (serve_tells req background w) as Hlog. rewrite Hrun in Hlog. simpl in Hlog.
  destruct r as [u|e|s]; [split; [done|by eapply registry_moves]|rewrite app_nil_r in Hlog; split; [done|by eapply registry_undoes; [|exact Hs|exact Hrun]]..].
Qed.

(** ** Reading it back *)

Lemma decrypt_opens i s h dek name config stored plain keys :
  go_lookup registry name = Some i -> Kinds.Parse i (RawText config) [] = inl s -> cleartext_Read dek = inl h ->
  Forall2 (opens_to h name config) stored plain -> decrypt_keys i s dek stored keys = inl (merged_secrets keys plain []).
Proof.
  intros Hi Hp Hr Hf. unfold merged_secrets. induction keys as [|key keys IH]; [done|]. simpl.
  pose proof (opens_lookup _ _ _ _ _ key Hf) as Hl. destruct (go_lookup stored key) as [enc|]; [|by rewrite Hl].
  destruct Hl as (v & -> & (_ & i' & s' & a & envelope & Hi' & Hp' & Ha & He & Hd)). simpl in *.
  rewrite Hi in Hi'. injection Hi' as <-. rewrite Hp in Hp'. injection Hp' as <-. rewrite He. unfold Decrypt, dekAEAD, parseDEKKeyset.
  rewrite Hr. simpl. rewrite Ha. simpl. rewrite Hd. simpl. rewrite IH. simpl. unfold bytes. by rewrite string_of_list_ascii_of_string.
Qed.
Lemma load_dek_run id h ctx w :
  (∀ n h, ∃ b, cleartext_Write n h = inl b) -> env_fault (w_step w) = None -> has_key (w_db w) id h ->
  ∃ dek w', load_dek keyring id ctx w = (Ok dek, w') ∧ cleartext_Read dek = inl h.
Proof.
  intros Htotal Hok (k & Hk & Hs & a & Ha & Hr). destruct (Htotal (S (w_step w)) h) as [dek Hdek].
  unfold load_dek, unwrapDEKFor, datakey_GetByID, wrap_err, query, sql, at_step, mbind, M_bind. rewrite Hok. simpl. rewrite Hk. simpl.
  unfold UnwrapDEK. simpl. rewrite Hs. simpl. rewrite Ha. simpl. rewrite Hr. simpl. unfold serializeDEKKeyset. rewrite Hdek. simpl.
  eexists _, _. split; [done|]. by eapply cleartext_roundtrip.
Qed.
Lemma entry_row kind name db st e :
  sound db st -> e ∈ st -> is_entry kind name e ->
  ∃ row, List.find (is_integration kind name) (integration_settings db) = Some row ∧ opens db row e.
Proof.
  intros Hs [k Hk]%list_elem_of_lookup [Ek En]. pose proof Hs as (Hu & _ & Hf).
  destruct (Forall2_lookup_r _ _ _ _ _ Hf Hk) as (row & Hrow & Ho). exists row. split; [|done].
  pose proof Ho as (_ & Hkind & Hname & _). destruct (List.find _ _) as [r|] eqn:Ef.
  - apply find_some in Ef as [Hin [E1%String.eqb_eq E2%String.eqb_eq]%andb_prop]. rewrite <- list_elem_of_In in Hin.
    f_equal. eapply same_setting; [done..|congruence|congruence].
  - eapply find_none in Ef; [|by apply list_elem_of_In; eapply list_elem_of_lookup_2]. unfold is_integration in Ef.
    by rewrite Hkind, Hname, Ek, En, !String.eqb_refl in Ef.
Qed.

(** C21. What the vault holds is what is served: with the statements of the read
    answered, an entry that is on, and not the config file's, is served with its
    config and its plain secrets; one that is off is refused as off. *)
Theorem settings_serve_vault kind name i w st e :
  sound (w_db w) st -> e ∈ st -> is_entry kind name e -> go_lookup registry name = Some i ->
  declared_entry provisioned kind name = None -> (∀ n h, ∃ b, cleartext_Write n h = inl b) ->
  env_fault (w_step w) = None -> env_fault (S (w_step w)) = None ->
  match fst (Settings_of keyring registry provisioned kind name background w) with
  | Ok s => e_Enabled e = true ∧ e_Provisioned e = false ∧
            Kinds.Parse i (RawText (e_Config e)) (merged_secrets (SecretKeys i) (e_Secrets e) []) = inl s
  | Err err => (e_Enabled e = false ∧ err = ErrIntegrationDisabled) ∨
               (e_Enabled e = true ∧ errors_Is err ErrIntegrationUnreadable = true ∧
                (e_Provisioned e = true ∨ ∃ bad, Kinds.Parse i (RawText (e_Config e)) [] = inr bad))
  | Panic _ => False
  end.
Proof.
  intros Hs He Hent Hi Hdecl Htotal Hf1 Hf2. destruct (entry_row _ _ _ _ _ Hs He Hent) as (row & Hfind & Ho).
  pose proof Ho as (_ & _ & Oname & Oen & Ocfg & Oprov & _ & _ & _ & _ & h & stored & Hkey & Hdec & Hopen). destruct Hent as [Ek En].
  unfold Settings_of, servedFromConfig, load_row, attempt, GetByKindName, query, sql, mbind, M_bind. rewrite Hdecl. simpl. rewrite Hf1. simpl. rewrite Hfind. simpl.
  unfold integration_fromDB. rewrite Hdec. simpl. rewrite Oen, Oprov, Ocfg. destruct (e_Enabled e); [|by left]. simpl.
  destruct (e_Provisioned e); simpl; [right; split_and!; [done|reflexivity|by left]|].
  unfold registry_get. rewrite Hi. simpl.
  edestruct (load_dek_run (is_DekID row) h background (tick w <| w_db := w_db w |>)) as (dek & w2 & -> & Hr); [done..|].
  unfold decryptAllSecrets. destruct (Kinds.Parse i (RawText (e_Config e)) []) as [s|bad] eqn:Ep; simpl.
  - rewrite Oname, En, Ocfg in Hopen. erewrite decrypt_opens by done. simpl.
    destruct (Parse_binding i _ _ (merged_secrets (SecretKeys i) (e_Secrets e) []) _ Ep) as (s' & -> & _). done.
  - right. split_and!; [done|reflexivity|]. eauto.
Qed.
End spec.

(** ** An instance to run *)

(** A cipher that marks what it seals with the key and the associated data. *)
Definition strip_prefix (p s : list ascii) : option (list ascii) := if has_prefix s p then Some (drop (length p) s) else None.
Definition opened {A} (f : list ascii -> A) (o : option (list ascii)) : A + error :=
  match o with Some x => inl (f x) | None => inr (EOther "decryption failed") end.
#[local] Instance marking_tink : Tink := {|
  Handle := list ascii; AEAD := list ascii; keyset_NewHandle n := inl [ascii_of_nat n]; cleartext_Write _ h := inl ("#"%char :: h);
  cleartext_Read b := opened id (strip_prefix ["#"%char] b); aead_New h := inl h;
  aead_Encrypt a _ p ad := inl ((a ++ ad) ++ p); aead_Decrypt a c ad := opened id (strip_prefix (a ++ ad) c);
  keyset_Write _ h a ad := inl ((a ++ ad) ++ h); keyset_Read b a ad := opened id (strip_prefix (a ++ ad) b);
  subtle_NewAESGCM k := inl k |}.
Lemma strip_prefix_app p s : strip_prefix p (p ++ s) = Some s.
Proof.
  unfold strip_prefix, has_prefix. rewrite take_app_length, drop_app_length. by rewrite bool_decide_eq_true_2.
Qed.
#[local] Instance marking_spec : TinkSpec.
Proof.
  split; simpl.
  - intros _ h b [= <-]. change ("#"%char :: h) with (["#"%char] ++ h). by rewrite strip_prefix_app.
  - intros a _ p ad c [= <-]. by rewrite strip_prefix_app.
  - intros _ h a ad b [= <-]. by rewrite strip_prefix_app.
Qed.

Definition ex_net : NetURL := {|
  net_url_Parse _ := Some (mkURL "https" "idp.example.com" false ""); net_url_String u := url_Scheme u +:+ "://" +:+ url_Host u;
  net_ParseIP _ := None; is_URL _ := true; time_ParseDuration _ := Some 1 |}.
Definition ex_kms : KMSClient :=
  mkKMS (fun uri => bool_decide (uri ∈ ["local-kms://a"; "local-kms://b"]%string)) (fun uri => inl (bytes uri)).
Definition ex_keyring (active : string) : Keyring := mkKeyring active ex_kms.
Definition ex_registry : Registry := (fun i => (Name i, i)) <$> [Slack; Email; Telegram; Google; Custom; GitHub].
Definition ex_config : json :=
  JObject [("display_name", JString "IdP"); ("issuer_url", JString "https://idp.example.com"); ("client_id", JString "abc");
           ("redirect_uri", JString "https://app.example.com/cb")]%string.
Definition ex_create : CreateIntegrationCmd :=
  mkCreateIntegration CategoryLogin " custom " (Some true) (RawText ex_config)
    (RawText (JObject [("client_secret", JString "s3cret")]%string)) (Some SystemUser).
Definition ex_serve (active : string) (req : RegistryRequest) : M unit :=
  @serve_registry calm_env c_collation list_goque ex_ozzo ex_net marking_tink (ex_keyring active) ex_registry [] [] [] req.

Lemma sound_ex_world keyring : @sound ex_net marking_tink keyring ex_registry (w_db ex_world) [].
Proof. split_and!; [intros i j x y _ [=]|constructor|constructor]. Qed.
Lemma plain_ex_create : plain_request ex_registry [] (ReqCreate ex_create).
Proof. intros cfg E. vm_compute in E. injection E as <-. apply (bool_decide_unpack (plain_config ex_config)). vm_compute. exact I. Qed.

(** A provider is created under one key of the instance and the keys are rotated
    to another: the vault still holds its secret, and nothing else. *)
Lemma registry_refines_vault_witness : ∃ w1 w2 st,
  ex_serve "local-kms://a" (ReqCreate ex_create) background ex_world = (Ok tt, w1) ∧
  ex_serve "local-kms://b" ReqRotate background w1 = (Ok tt, w2) ∧
  dk_KekID <$> data_keys (w_db w1) = ["local-kms://a"%string] ∧ dk_KekID <$> data_keys (w_db w2) = ["local-kms://b"%string] ∧
  @sound ex_net marking_tink (ex_keyring "local-kms://b") ex_registry (w_db w2) st ∧
  e_Secrets <$> st = [[("client_secret", "s3cret")]]%string.
Proof.
  pose (w1 := snd (ex_serve "local-kms://a" (ReqCreate ex_create) background ex_world)).
  pose (w2 := snd (ex_serve "local-kms://b" ReqRotate background w1)).
  destruct (@registry_refines_vault calm_env c_collation list_goque ex_ozzo ex_net marking_tink marking_spec (ex_keyring "local-kms://a")
    ex_registry [] [] [] (ReqCreate ex_create) ex_world (Ok tt) w1 []) as (_ & st & Hs & i & e & plain & cfg & s & -> & Hi & _ & _ & _ & _ & Hp & He & _);
    [vm_compute; reflexivity|apply plain_ex_create|apply sound_ex_world|vm_compute; reflexivity|].
  destruct (@registry_refines_vault calm_env c_collation list_goque ex_ozzo ex_net marking_tink marking_spec (ex_keyring "local-kms://b")
    ex_registry [] [] [] ReqRotate w1 (Ok tt) w2 ([] ++ [e])) as (_ & st' & Hs' & ->);
    [vm_compute; reflexivity|exact I|exact Hs|vm_compute; reflexivity|].
  exists w1, w2, [e]. split; [vm_compute; reflexivity|]. split; [vm_compute; reflexivity|]. split; [vm_compute; reflexivity|].
  split; [vm_compute; reflexivity|]. split; [exact Hs'|].
  vm_compute in Hi. injection Hi as <-. vm_compute in Hp. injection Hp as <-. simpl. rewrite He. reflexivity.
Defined.

(** The provider above is served with its secret. *)
Lemma settings_serve_vault_witness : ∃ w1 s,
  ex_serve "local-kms://a" (ReqCreate ex_create) background ex_world = (Ok tt, w1) ∧
  fst (@Settings_of calm_env ex_net marking_tink (ex_keyring "local-kms://a") ex_registry [] CategoryLogin "custom" background w1) = Ok s ∧
  s = SetOIDC (mkOIDC "IdP" "https://idp.example.com" "abc" "s3cret" "https://app.example.com/cb" [] []).
Proof.
  assert (∃ a w1, @Integrations.Create calm_env list_goque ex_ozzo ex_net marking_tink (ex_keyring "local-kms://a") ex_registry [] ex_create background
    ex_world = (Ok a, w1) ∧ ex_serve "local-kms://a" (ReqCreate ex_create) background ex_world = (Ok tt, w1)) as (a & w1 & Hrun & Hserve).
  { eexists _, _. split; vm_compute; reflexivity. }
  destruct (@create_moves calm_env list_goque ex_ozzo ex_net marking_tink marking_spec (ex_keyring "local-kms://a") ex_registry []
    ex_create ex_world a w1 []) as (st & Hs & i & e & plain & cfg & s & -> & Hi & _ & He & _ & Hen & Hp & Hsec & Hcfg & Hcol & _ & _ & Hprov & _);
    [vm_compute; reflexivity|apply plain_ex_create|apply sound_ex_world|exact Hrun|].
  change (strings_TrimSpace (ci_Name ex_create)) with "custom"%string in *. vm_compute in Hi. injection Hi as <-.
  assert (∀ n, @env_fault calm_env n = None) as Hcalm by reflexivity.
  pose proof (@settings_serve_vault calm_env ex_net marking_tink marking_spec (ex_keyring "local-kms://a") ex_registry [] CategoryLogin "custom"
    Custom w1 ([] ++ [e]) e Hs ltac:(by left) He eq_refl eq_refl ltac:(intros; eexists; reflexivity) (Hcalm _) (Hcalm _)) as Hread.
  vm_compute in Hp. injection Hp as <-. vm_compute in Hcfg. injection Hcfg as <-. injection Hcol as Hcol. injection Hen as Hen.
  rewrite Hen, Hprov, <- Hcol, Hsec in Hread.
  exists w1. setoid_rewrite Hserve. clear - Hread. match type of Hread with match ?r with _ => _ end => generalize r, Hread end.
  intros [s'|err|] Hr; [|exfalso|done].
  - exists s'. split; [reflexivity|]. split; [reflexivity|]. destruct Hr as (_ & _ & Hparse). vm_compute in Hparse. by injection Hparse.
  - destruct Hr as [[[=] _]|(_ & _ & [[=]|[bad Hbad]])]. vm_compute in Hbad. discriminate Hbad.
Defined.
