(* ===== verification/PresetSpec.v ===== *)
(** * What a preset fixes (internal/services/integration, presets.go;
      internal/integrationkinds)

    The endpoints of a well-known login provider come from the catalog of the
    config file, and no request moves them; those an operator supplies point
    nowhere internal. *)
From Stdlib Require Import ZArith Lia Ascii String.
From stdpp Require Import base sorting sets strings numbers list.
From S2P Require Import Prelude Go Entity Conflict AuditTrail Schema Json UrlGuard Logic Dbtx Crypto Like Validation MaintStore Fixtures.
From S2P Require Import Queue Kinds Secrets IntegrationStore Integrations Provision IntegrationSpec.
Open Scope Z_scope.

(** ** Decoding a key that is there once *)

Lemma names_field_refl k : names_field k k = true.
Proof. apply String.eqb_refl. Qed.
Lemma names_field_ne k k' : foldName k' ≠ foldName k -> names_field k k' = false.
Proof. apply String.eqb_neq. Qed.
Lemma string_at_plain fs k v : NoDup (foldName <$> fs.*1) -> (k, JString v) ∈ fs -> string_at k fs = Some v.
Proof.
  unfold string_at, decode_field. generalize ""%string. induction fs as [|[k' j] fs IH]; intros init; [set_solver|].
  rewrite !fmap_cons. simpl. intros [Hn Hnd]%NoDup_cons [[= <- <-]|Hin]%elem_of_cons.
  - rewrite names_field_refl. simpl. clear IH.
    induction fs as [|[k' j] fs IH]; [done|]. simpl. rewrite !fmap_cons in Hn, Hnd. simpl in Hn, Hnd. apply NoDup_cons in Hnd as [_ Hnd].
    apply not_elem_of_cons in Hn as [Hne Hn]. rewrite names_field_ne by done. by apply IH.
  - rewrite names_field_ne; [by apply IH|]. intros E. apply Hn. rewrite E. apply list_elem_of_fmap. exists k. split; [done|].
    apply list_elem_of_fmap. by exists (k, JString v).
Qed.

(** ** Where the preset's fields end up *)

Lemma put_in {V} cmp k (v : V) m : (k, v) ∈ put cmp k v m.
Proof. induction m as [|[k' v'] m IH]; simpl; [set_solver|]. destruct (cmp k k'); set_solver. Qed.
Lemma put_stays {V} k (v : V) m x : x ∈ m -> x.1 ≠ k -> x ∈ put strings_Compare k v m.
Proof.
  induction m as [|[k' v'] m IH]; simpl; [set_solver|]. intros [->|Hin]%elem_of_cons Hne; destruct (strings_Compare k k') eqn:E; try set_solver.
  apply strings_Compare_eq in E. simpl in Hne. congruence.
Qed.
Lemma put_each (preset : list (string * string)) m k v :
  NoDup preset.*1 -> (k, v) ∈ preset -> (k, JString v) ∈ foldl (fun m kv => put strings_Compare kv.1 (JString kv.2) m) m preset.
Proof.
  assert (∀ l m x, x.1 ∉ l.*1 -> x ∈ m -> x ∈ foldl (fun m (kv : string * string) => put strings_Compare kv.1 (JString kv.2) m) m l) as Hstay.
  { clear. induction l as [|[k' v'] l IH]; intros m x Hx Hm; [done|]. simpl in *. apply IH; [set_solver|]. apply put_stays; [done|set_solver]. }
  revert m. induction preset as [|[k' v'] preset IH]; intros m; [set_solver|]. simpl. intros [Hn Hnd]%NoDup_cons [[= -> ->]|Hin]%elem_of_cons.
  - apply Hstay; [done|apply put_in].
  - by apply IH.
Qed.
Lemma put_each_sorted (preset : list (string * string)) m :
  StronglySorted (key_lt strings_Compare) m ->
  StronglySorted (key_lt strings_Compare) (foldl (fun m kv => put strings_Compare kv.1 (JString kv.2) m) m preset).
Proof.
  revert m. induction preset as [|kv preset IH]; intros m Hm; [done|]. simpl. apply IH. by apply put_sorted; [apply _|apply strings_Compare_eq|].
Qed.

(** ** The theorems *)

Section preset.
Context (registry : Registry) (loginProviders : list (string * LoginProvider)).

(** A field of the settings that a preset can name. *)
Definition setting_field (key : string) (s : Settings) : option string :=
  match s with
  | SetOIDC s => if String.eqb key "display_name" then Some (oi_DisplayName s)
                 else if String.eqb key "issuer_url" then Some (oi_IssuerURL s) else None
  | SetOAuth2 s => if String.eqb key "display_name" then Some (oa_DisplayName s)
                   else if String.eqb key "authorize_url" then Some (oa_AuthorizeURL s)
                   else if String.eqb key "token_url" then Some (oa_TokenURL s)
                   else if String.eqb key "api_base_url" then Some (oa_APIBaseURL s) else None
  | _ => None
  end.

Lemma Fields_keys f : NoDup (Fields f).*1.
Proof. destruct f as [a b c d e]. unfold Fields. simpl. repeat (destruct (negb _)); simpl; by vm_compute; apply (bool_decide_unpack _). Qed.
Lemma Fields_filled f k v : (k, v) ∈ Fields f -> v ≠ ""%string.
Proof. intros [_ Hv]%elem_of_List_filter ->. discriminate Hv. Qed.

(** The config holds the fields of the preset. *)
Definition holds_preset (preset : LoginFacts) (cfg : RawMessage) : Prop :=
  ∃ fs, cfg = RawText (JObject fs) ∧ ∀ k v, (k, v) ∈ Fields preset -> (k, JString v) ∈ fs.

Lemma holds_parsed i preset cfg secrets s k v :
  holds_preset preset cfg -> plain_raw cfg -> Kinds.Parse i cfg secrets = inl s -> (k, v) ∈ Fields preset ->
  setting_field k s = None ∨ setting_field k s = Some v.
Proof.
  intros (fs & -> & Hall) [Hp _] Hs Hkv. specialize (Hall k v Hkv). pose proof (string_at_plain fs k v Hp Hall) as Hat.
  unfold Kinds.Parse, unmarshalConfig in Hs. destruct (decode_settings secrets fs i) as [s'|] eqn:Ed; [|done]. injection Hs as ->.
  destruct i; simpl in Ed; apply fmap_Some in Ed as (? & Ed & ->); kinds_unfold; repeat (apply bind_Some in Ed as (? & ? & Ed)); injection Ed as <-; simpl; try (by left);
    repeat (case_match; [right|]); try (by left); repeat match goal with E : String.eqb _ _ = true |- _ => apply String.eqb_eq in E end; congruence.
Qed.

Context (name key : string) (i : Integration) (provider : LoginProvider).
Hypothesis (Hi : go_lookup registry name = Some i) (Hkey : PresetKey i = Some key) (Hne : key ≠ ""%string).
Hypothesis Hprovider : go_lookup loginProviders key = Some provider.

Lemma presetAndConfig_Ok cfg o :
  presetAndConfig registry loginProviders name cfg = inl o ->
  ∃ fields, o = Some (pv_Facts provider, fields) ∧ Fields (pv_Facts provider) ≠ [] ∧
    match fields with
    | Some fs => StronglySorted (key_lt strings_Compare) fs ∧
                 (fs = [] ∨ ∃ fs0, cfg = RawText (JObject fs0) ∧ fs = put_all strings_Compare fs0)
    | None => True
    end.
Proof.
  unfold presetAndConfig. rewrite Hi. simpl. rewrite Hkey. apply String.eqb_neq in Hne. rewrite Hne, Hprovider.
  destruct (Nat.eqb_spec (length (Fields (pv_Facts provider))) 0) as [|Hl]; [done|].
  assert (Fields (pv_Facts provider) ≠ []) as Hf by by destruct (Fields _).
  destruct cfg as [| |[| | | | |fs]]; simpl; intros E; try done; injection E as <-; eexists; (split; [done|]); (split; [done|]); try done.
  - split; [constructor|by left].
  - split; [|by right; eauto]. apply put_all_sorted; [apply _|apply strings_Compare_eq].
Qed.

Lemma applyPreset_holds cfg cfg' : applyPreset registry loginProviders name cfg = Ok cfg' -> holds_preset (pv_Facts provider) cfg'.
Proof.
  unfold applyPreset. destruct (presetAndConfig _ _ _ _) as [o|] eqn:E; [|done]. apply presetAndConfig_Ok in E as (fields & -> & _ & Hs).
  destruct fields as [fs|]; [|done]. destruct Hs as [Hs _]. destruct (existsb _ _); [done|]. intros [= <-]. eexists. split; [done|].
  intros k v Hkv. set (m := foldl _ _ _).
  assert (StronglySorted (key_lt strings_Compare) m) as Hm by by apply put_each_sorted.
  rewrite put_all_perm; [|apply _|apply strings_Compare_eq|].
  - apply list_elem_of_fmap. exists (k, JString v). split; [done|]. by apply put_each; [apply Fields_keys|].
  - rewrite <- list_fmap_compose. by apply (sorted_NoDup strings_Compare m).
Qed.
Lemma enforcePreset_holds cfg : enforcePreset registry loginProviders name cfg = inl tt -> holds_preset (pv_Facts provider) cfg.
Proof.
  unfold enforcePreset. destruct (presetAndConfig _ _ _ _) as [o|] eqn:E; [|done]. apply presetAndConfig_Ok in E as (fields & -> & Hf & Hs).
  destruct (existsb _ _) eqn:Ex; [done|]. intros _.
  assert (∀ k v, (k, v) ∈ Fields (pv_Facts provider) -> (k, JString v) ∈ default [] fields) as Hall.
  { intros k v Hkv. pose proof (Fields_filled _ _ _ Hkv) as Hv. apply not_true_iff_false in Ex. rewrite existsb_exists in Ex.
    assert (match go_lookup (default [] fields) k with Some (JString s) => s | _ => ""%string end = v) as Hgot.
    { destruct (String.eqb_spec (match go_lookup (default [] fields) k with Some (JString s) => s | _ => ""%string end) v) as [|Hne']; [done|].
      destruct Ex. exists (k, v). split; [by apply list_elem_of_In|]. simpl. by apply negb_true_iff, String.eqb_neq. }
    destruct (go_lookup (default [] fields) k) as [[| | |x| |]|] eqn:El; try congruence. subst x.
    unfold go_lookup in El. apply fmap_Some in El as ([k' j] & Hfind & Ej). apply find_some in Hfind as [Hin Ek%String.eqb_eq].
    simpl in Ej, Ek. subst. by apply list_elem_of_In. }
  destruct (Fields (pv_Facts provider)) as [|[k0 v0] rest] eqn:Ef; [done|].
  destruct fields as [fs|]; [|specialize (Hall k0 v0); set_solver]. destruct Hs as [_ [->|(fs0 & -> & ->)]]; [specialize (Hall k0 v0); set_solver|].
  exists fs0. split; [done|]. intros k v Hkv. rewrite Ef in Hkv. eapply put_all_elem. by apply Hall.
Qed.

End preset.

(** ** What a request stores *)

Section stored.
Context `{Env} `{Collation} `{Goque} `{Ozzo} `{NetURL} `{Tink} `{!TinkSpec}.
Context (keyring : Keyring) (registry : Registry).
Context (loginProviders : list (string * LoginProvider)) (notifyTransports : list (string * ManagedEntry)).
Context (provisioned : provisionedMap).

(** A config stored under a name is served with every field the catalog fixes for
    that name as the catalog has it. *)
Definition as_catalogued (name : string) (config : json) : Prop :=
  ∀ i key provider secrets s k v, go_lookup registry name = Some i -> PresetKey i = Some key -> key ≠ ""%string ->
    go_lookup loginProviders key = Some provider -> Kinds.Parse i (RawText config) secrets = inl s ->
    (k, v) ∈ Fields (pv_Facts provider) -> setting_field k s = None ∨ setting_field k s = Some v.

Lemma column_catalogued name cfg config :
  plain_raw cfg -> config_column cfg = Some config ->
  (∃ given, applyPreset registry loginProviders name given = Ok cfg) ∨ enforcePreset registry loginProviders name cfg = inl tt ->
  as_catalogued name config.
Proof.
  intros Hplain Hcol Hpre i key provider secrets s k v Hi Hkey Hne Hprov Hs. destruct (column_parse _ _ i secrets Hplain Hcol) as [Hp _].
  rewrite Hp in Hs. apply (holds_parsed i _ cfg secrets); [|done..].
  destruct Hpre as [[given Hg]|He]; [by eapply applyPreset_holds|by eapply enforcePreset_holds].
Qed.

(** Every entry after a step has been written with the preset, or has the config
    it had. *)
Lemma vault_step_catalogued req st st' e' :
  req ≠ ReqProvision -> plain_request registry loginProviders req -> vault_step registry loginProviders notifyTransports req st st' -> e' ∈ st' ->
  as_catalogued (e_Name e') (e_Config e') ∨ ∃ e, e ∈ st ∧ e_ID e = e_ID e' ∧ e_Name e = e_Name e' ∧ e_Config e = e_Config e'.
Proof.
  assert (∀ k (e f : Entry), st !! k = Some e -> e_ID f = e_ID e -> e_Name f = e_Name e -> e_Config f = e_Config e -> e' ∈ <[k := f]> st ->
    ∃ e, e ∈ st ∧ e_ID e = e_ID e' ∧ e_Name e = e_Name e' ∧ e_Config e = e_Config e') as Hsame.
  { intros k e f Hk E1 E2 E3 [j Hj]%list_elem_of_lookup. destruct (decide (j = k)) as [->|Hjk].
    - rewrite list_lookup_insert_eq in Hj by by eapply lookup_lt_Some. injection Hj as <-. exists e. split; [by eapply list_elem_of_lookup_2|done].
    - rewrite list_lookup_insert_ne in Hj by done. exists e'. split; [by eapply list_elem_of_lookup_2|done]. }
  intros Hreq Hplain Hstep He'. destruct req; simpl in Hstep; try done; try (right; subst st'; by exists e').
  - destruct Hstep as (i & e & plain & cfg & s & -> & _ & _ & [_ Hn] & _ & _ & _ & _ & Hcfg & Hcol & _).
    apply elem_of_app in He' as [Hin| ->%list_elem_of_singleton]; [by right; exists e'|left]. rewrite Hn.
    eapply column_catalogued; [by apply Hplain|done|left; by eexists].
  - destruct Hstep as (k & i & e & intents & config & Hk & [_ Hn] & _ & _ & _ & Hc & ->).
    destruct (raw_present (up_Config cmd)); [|right; eapply Hsame; [exact Hk| | | |exact He']; by simpl].
    apply list_elem_of_lookup in He' as [j Hj]. destruct (decide (j = k)) as [->|Hjk].
    + rewrite list_lookup_insert_eq in Hj by by eapply lookup_lt_Some. injection Hj as <-. left. simpl. rewrite Hn.
      destruct Hc as [Hcol Hpre]. eapply column_catalogued; [exact Hplain|exact Hcol|by right].
    + rewrite list_lookup_insert_ne in Hj by done. right. exists e'. split; [by eapply list_elem_of_lookup_2|done].
  - destruct Hstep as (k & e & b & Hk & _ & _ & _ & ->). right. by eapply Hsame; [exact Hk| | | |exact He'].
  - destruct Hstep as (k & e & Hk & _ & _ & ->). right. exists e'. split; [by eapply list_elem_of_delete_inv|done].
Qed.

(** C22. A preset cannot be moved.  Whatever an operator asks of the registry, and
    however the request ends, every row of the table then has the config it had,
    or one that is served with every field the catalog fixes for its name as the
    catalog has it: by a create or by an edit no other config gets in.  The
    configs are those without two keys that name the same field, and the stored
    rows and the key ring are as the registry keeps them. *)
Theorem preset_fixed req w r w' st row' :
  req ≠ ReqProvision -> Knows keyring (ActiveKEKID keyring) = true -> plain_request registry loginProviders req ->
  sound keyring registry (w_db w) st ->
  serve_registry keyring registry loginProviders notifyTransports provisioned req background w = (r, w') ->
  row' ∈ integration_settings (w_db w') ->
  as_catalogued (is_Name row') (is_Config row') ∨
  ∃ row, row ∈ integration_settings (w_db w) ∧ is_ID row = is_ID row' ∧ is_Name row = is_Name row' ∧ is_Config row = is_Config row'.
Proof.
  intros Hreq Hact Hplain Hs Hrun [k Hk]%list_elem_of_lookup.
  assert (∃ st', sound keyring registry (w_db w') st' ∧ (st' = st ∨ vault_step registry loginProviders notifyTransports req st st'))
    as (st' & Hs' & Hst).
  { destruct r as [u|e|m]; [edestruct registry_moves as (st' & ? & ?); [exact Hact|exact Hplain|exact Hs|exact Hrun|]; by eauto|..];
      exists st; (split; [|by left]); (eapply registry_undoes; [|exact Hs|exact Hrun]); done. }
  pose proof Hs as (_ & _ & Hf). pose proof Hs' as (_ & _ & Hf').
  destruct (Forall2_lookup_l _ _ _ _ _ Hf' Hk) as (e' & He' & (Eid & _ & En & _ & Ec & _)). rewrite Eid, En, Ec.
  apply list_elem_of_lookup_2 in He'.
  assert (as_catalogued (e_Name e') (e_Config e') ∨ ∃ e, e ∈ st ∧ e_ID e = e_ID e' ∧ e_Name e = e_Name e' ∧ e_Config e = e_Config e')
    as [?|(e & [j Hj]%list_elem_of_lookup & E1 & E2 & E3)]; [|by left|right].
  { destruct Hst as [->|Hst]; [right; by exists e'|by eapply vault_step_catalogued]. }
  destruct (Forall2_lookup_r _ _ _ _ _ Hf Hj) as (row & Hrow & (Rid & _ & Rn & _ & Rc & _)).
  exists row. split; [by eapply list_elem_of_lookup_2|]. split_and!; congruence.
Qed.
End stored.

(** ** The catalog's own *)

Definition ex_facts : LoginFacts := mkFacts "Google" "https://accounts.google.com" "" "" "".
Definition ex_providers : list (string * LoginProvider) := [(nameGoogle, mkLoginProvider ex_facts (mkManaged "" None [] []))].
Definition ex_google : json := JObject [("redirect_uri", JString "https://app/cb"); ("client_id", JString "abc")]%string.
Definition ex_preset_serve (req : RegistryRequest) : M unit :=
  @serve_registry calm_env c_collation list_goque ex_ozzo ex_net marking_tink (ex_keyring "local-kms://a") ex_registry ex_providers [] [] req.
Definition ex_create_google : RegistryRequest :=
  ReqCreate (mkCreateIntegration CategoryLogin nameGoogle (Some true) (RawText ex_google)
    (RawText (JObject [("client_secret", JString "s3cret")]%string)) (Some SystemUser)).
Definition ex_move_google : RegistryRequest :=
  ReqUpdate (mkUpdateIntegration CategoryLogin nameGoogle None
    (RawText (JObject [("issuer_url", JString "https://elsewhere"); ("client_id", JString "abc")]%string)) RawNone (Some SystemUser)).

(** Created with a client id alone, the provider is served with the catalog's
    issuer; an edit that brings another issuer is refused. *)
Lemma preset_fixed_witness : ∃ w1 row s,
  ex_preset_serve ex_create_google background ex_world = (Ok tt, w1) ∧ integration_settings (w_db w1) = [row] ∧
  Kinds.Parse Google (RawText (is_Config row)) [] = inl s ∧
  (setting_field "issuer_url" s = None ∨ setting_field "issuer_url" s = Some "https://accounts.google.com"%string) ∧
  ∃ err, fst (ex_preset_serve ex_move_google background w1) = Err err.
Proof.
  pose (w1 := snd (ex_preset_serve ex_create_google background ex_world)).
  assert (∃ row s, integration_settings (w_db w1) = [row] ∧ is_Name row = nameGoogle ∧ Kinds.Parse Google (RawText (is_Config row)) [] = inl s)
    as (row & s & Hrow & Hn & Hs) by (eexists _, _; split_and!; vm_compute; reflexivity).
  exists w1, row, s. split; [vm_compute; reflexivity|]. split; [exact Hrow|]. split; [exact Hs|]. split; [|eexists; vm_compute; reflexivity].
  destruct (@preset_fixed calm_env c_collation list_goque ex_ozzo ex_net marking_tink marking_spec (ex_keyring "local-kms://a") ex_registry
    ex_providers [] [] ex_create_google ex_world (Ok tt) w1 [] row) as [Hfixed|(old & Hin & _)].
  - discriminate.
  - vm_compute. reflexivity.
  - intros cfg E. vm_compute in E. injection E as <-. apply (bool_decide_unpack (plain_config _)). vm_compute. exact I.
  - apply sound_ex_world.
  - vm_compute. reflexivity.
  - rewrite Hrow. by apply list_elem_of_singleton.
  - rewrite Hn in Hfixed. eapply (Hfixed Google nameGoogle (mkLoginProvider ex_facts (mkManaged "" None [] [])) []);
      [reflexivity|reflexivity|discriminate|reflexivity|exact Hs|]. apply list_elem_of_In. vm_compute. tauto.
  - vm_compute in Hin. by apply elem_of_nil in Hin.
Defined.

(** Without that the check looks elsewhere than the decoder: a key written with
    the long s is no preset field to the one and the issuer to the other. *)
Definition long_s : string := string_of_list_ascii [ascii_of_N 197; ascii_of_N 191].
Example preset_bypassed : ∃ cfg s,
  applyPreset ex_registry ex_providers nameGoogle
    (RawText (JObject [("i" +:+ long_s +:+ long_s +:+ "uer_url", JString "https://elsewhere"); ("client_id", JString "abc")]%string)) = Ok cfg ∧
  Kinds.Parse Google cfg [] = inl s ∧ setting_field "issuer_url" s = Some "https://elsewhere"%string.
Proof. eexists _, _. split; [vm_compute; reflexivity|]. split; vm_compute; reflexivity. Qed.
(** A null config is a nil map, and the preset is assigned into it. *)
Example null_config_panics :
  applyPreset ex_registry ex_providers nameGoogle (RawText JNull) = Panic "assignment to entry in nil map".
Proof. vm_compute. reflexivity. Qed.
