(* ===== verification/Cache.v ===== *)
(** * Caches with generations (internal/utils/xcache) and the transports behind
      one (internal/services/transportresolver)

    A process keeps what it built from the registry for a while, and drops it when
    the registry tells of a change.  Readers and writers run side by side; every
    operation of the cache is one step under its mutex, reading the source and
    building is slow, and a write commits before it invalidates. *)
From Stdlib Require Import ZArith Lia Ascii String.
From stdpp Require Import base sorting sets strings numbers list gmap relations.
From S2P Require Import Prelude Go Entity Conflict AuditTrail Schema UrlGuard Kinds Identities IntegrationStore Invitations Catalog IntegrationSpec.
Open Scope Z_scope.

(** ** cache.go *)
Section cache.
Context {V : Type}.

Record entry := mkCached { en_value : V; en_expiresAt : Time }.
Record Cache := mkCache { c_ttl : Duration; c_entries : gmap string entry; c_gen : gmap string Z }.
#[export] Instance eta_Cache : Eta Cache := fun c => mkCache (c_ttl c) (c_entries c) (c_gen c).

Definition cache_New (ttl : Duration) : Cache := mkCache ttl ∅ ∅.
Definition cache_Get (now : Time) (key : string) (c : Cache) : option V * Cache :=
  match c_entries c !! key with
  | None => (None, c)
  | Some e => if After now (en_expiresAt e) then (None, c <| c_entries := delete key (c_entries c) |>) else (Some (en_value e), c)
  end.
(** A key that was never invalidated reads as zero. *)
Definition cache_Generation (key : string) (c : Cache) : Z := default 0 (c_gen c !! key).
Definition cache_Set (now : Time) (key : string) (value : V) (snapshot : Z) (c : Cache) : Cache :=
  if Z.eqb (cache_Generation key c) snapshot
  then c <| c_entries := <[key := mkCached value (Time_Add now (c_ttl c))]> (c_entries c) |> else c.
(** The counter is a uint64. *)
Definition cache_Invalidate (key : string) (c : Cache) : Cache :=
  c <| c_entries := delete key (c_entries c) |> <| c_gen := <[key := (cache_Generation key c + 1) mod 2 ^ 64]> (c_gen c) |>.
End cache.
#[global] Arguments entry : clear implicits.
#[global] Arguments Cache : clear implicits.

(** ** services/transportresolver, builders.go *)

(** xtime.ParseTimeout *)
Definition ParseTimeout `{NetURL} (s : string) : Duration + error :=
  if String.eqb s "" then inl 0
  else match time_ParseDuration s with
       | Some d => inl d
       | None => inr (Errorf "timeout must be a duration" (EOther "time: invalid duration"))
       end.

(** What the clients of the messengers are made from. *)
Record MessengerParams := mkMessenger { mp_BotToken : string; mp_APIURL : string; mp_Timeout : Duration; mp_AllowInternalHosts : bool }.
Record MailParams := mkMail {
  ml_Host : string; ml_Port : Z; ml_Username : string; ml_Password : string; ml_From : string; ml_ReplyTo : string;
  ml_TLSPolicy : string; ml_Timeout : Duration; ml_AllowInternalHosts : bool }.
(** The constructors of the client libraries. *)
Class Clients := {
  Transport : Type;
  slack_New : MessengerParams -> Transport;
  telegram_New : MessengerParams -> Transport + error;
  mail_NewClient : MailParams -> Transport + error }.

Section builders.
Context `{NetURL} `{Clients} (allowInternalHosts : bool).

Definition unexpected_settings : error := EOther "unexpected settings type".
Definition buildSlack (settings : Settings) : Transport + error :=
  match settings with
  | SetSlack s =>
      match ParseTimeout (sk_Timeout s) with
      | inl timeout => inl (slack_New (mkMessenger (sk_BotToken s) (sk_APIURL s) timeout allowInternalHosts))
      | inr err => inr (Errorf "slack" err)
      end
  | _ => inr unexpected_settings
  end.
Definition buildTelegram (settings : Settings) : Transport + error :=
  match settings with
  | SetTelegram s =>
      match ParseTimeout (tg_Timeout s) with
      | inl timeout => telegram_New (mkMessenger (tg_BotToken s) (tg_APIURL s) timeout allowInternalHosts)
      | inr err => inr (Errorf "telegram" err)
      end
  | _ => inr unexpected_settings
  end.
(** [emailtransport.New]: there has to be a sender. *)
Definition email_New (p : MailParams) : Transport + error :=
  if String.eqb (ml_From p) "" then inr (EOther "email transport: from address is required")
  else match mail_NewClient p with
       | inl c => inl c
       | inr err => inr (Errorf "email client init failed" err)
       end.
Definition buildEmail (settings : Settings) : Transport + error :=
  match settings with
  | SetEmail s =>
      match ParseTimeout (em_Timeout s) with
      | inl timeout =>
          email_New (mkMail (em_Host s) (em_Port s) (em_Username s) (em_Password s) (em_From s) (em_ReplyTo s) (em_TLSPolicy s)
                       timeout allowInternalHosts)
      | inr err => inr (Errorf "email" err)
      end
  | _ => inr unexpected_settings
  end.
Definition Builders : list (string * (Settings -> Transport + error)) :=
  [(NotifyTransportSlack, buildSlack); (NotifyTransportTelegram, buildTelegram); (NotifyTransportEmail, buildEmail)].
End builders.

(** ** Readers and writers side by side *)
Section resolver.
Context `{Clients} (builders : list (string * (Settings -> Transport + error))).

(** A transport, with the number of the write it was built from; the code keeps
    the transport alone. *)
Record Built := mkBuilt { bt_version : nat; bt_transport : Transport }.
Definition Answer : Type := Built + error.

(** How a reader goes about it: [get.go] of the resolver, which takes a snapshot
    and builds for itself, or [GetOrLoad], which joins a build under way. *)
Inductive mode := Alone | Joining.

(** Where a thread is.  A reader carries what had been invalidated when it
    started, and the number of invalidations its snapshot stands for. *)
Inductive thread :=
  | AtGet (m : mode) (key : string) (floor : nat)
  | AtDo (key : string) (floor : nat)
  | AtRecheck (key : string) (floor : nat)
  | AtGeneration (m : mode) (key : string) (floor : nat)
  | AtSettings (m : mode) (key : string) (floor : nat) (gen : Z) (taken : nat)
  | AtSet (m : mode) (key : string) (floor : nat) (gen : Z) (taken : nat) (b : Built)
  | Waiting (key : string) (floor : nat)
  | Answered (joined : bool) (key : string) (floor : nat) (r : Answer)
  | AtCommit (key : string) (s : Settings + error)
  | AtInvalidate (key : string) (version : nat)
  | Written.

(** The cache, the settings of each key as they were written one after another,
    the builds under way, the clock; and, for the statements, the latest write
    whose invalidation has returned and the number of invalidations. *)
Record Shared := mkShared {
  sh_cache : Cache Built; sh_source : gmap string (list (Settings + error)); sh_flights : gset string; sh_now : Time;
  sh_done : gmap string nat; sh_count : gmap string nat }.
#[export] Instance eta_Shared : Eta Shared := fun s =>
  mkShared (sh_cache s) (sh_source s) (sh_flights s) (sh_now s) (sh_done s) (sh_count s).
Definition written (s : Shared) (key : string) : list (Settings + error) := default [] (sh_source s !! key).
Definition done_of (s : Shared) (key : string) : nat := default 0%nat (sh_done s !! key).
Definition count_of (s : Shared) (key : string) : nat := default 0%nat (sh_count s !! key).

(** The settings source at a moment: nothing written is not configured. *)
Definition current (s : Shared) (key : string) : Settings + error :=
  default (inr (Errorf key ErrIntegrationNotConfigured)) (last (written s key)).
(** [get.go] after the snapshot: the builder, the settings, the build. *)
Definition resolve (s : Shared) (key : string) : Answer :=
  match go_lookup builders key with
  | None => inr (Errorf "transport has no builder" ErrIntegrationDisabled)
  | Some build =>
      match current s key with
      | inr err => inr err
      | inl settings => match build settings with
                        | inl t => inl (mkBuilt (length (written s key)) t)
                        | inr err => inr (Errorf "build transport" err)
                        end
      end
  end.

Record Sys := mkSys { sy_threads : list thread; sy_shared : Shared }.
(** A thread ends; with a build of its own, everyone who waits for it does, with
    the same answer (singleflight's [Do]). *)
Definition shared_answer (key : string) (r : Answer) (t : thread) : thread :=
  match t with
  | Waiting k floor => if String.eqb k key then Answered true k floor r else t
  | _ => t
  end.
Definition finish (m : mode) (i : nat) (key : string) (floor : nat) (r : Answer) (s : Shared) (ts : list thread) : Sys :=
  match m with
  | Alone => mkSys (<[i := Answered false key floor r]> ts) s
  | Joining => mkSys (<[i := Answered false key floor r]> (shared_answer key r <$> ts)) (s <| sh_flights := sh_flights s ∖ {[key]} |>)
  end.

Definition with_cache {A} (s : Shared) (r : A * Cache Built) : A * Shared := (r.1, s <| sh_cache := r.2 |>).
Definition fire (i : nat) (c : Sys) : Sys :=
  let s := sy_shared c in
  let ts := sy_threads c in
  match ts !! i with
  | Some (AtGet m key floor) =>
      let '(r, s) := with_cache s (cache_Get (sh_now s) key (sh_cache s)) in
      match r, m with
      | Some b, _ => mkSys (<[i := Answered false key floor (inl b)]> ts) s
      | None, Alone => mkSys (<[i := AtGeneration Alone key floor]> ts) s
      | None, Joining => mkSys (<[i := AtDo key floor]> ts) s
      end
  | Some (AtDo key floor) =>
      if decide (key ∈ sh_flights s) then mkSys (<[i := Waiting key floor]> ts) s
      else mkSys (<[i := AtRecheck key floor]> ts) (s <| sh_flights := {[key]} ∪ sh_flights s |>)
  | Some (AtRecheck key floor) =>
      let '(r, s) := with_cache s (cache_Get (sh_now s) key (sh_cache s)) in
      match r with
      | Some b => finish Joining i key floor (inl b) s ts
      | None => mkSys (<[i := AtGeneration Joining key floor]> ts) s
      end
  | Some (AtGeneration m key floor) =>
      mkSys (<[i := AtSettings m key floor (cache_Generation key (sh_cache s)) (count_of s key)]> ts) s
  | Some (AtSettings m key floor gen taken) =>
      match resolve s key with
      | inl b => mkSys (<[i := AtSet m key floor gen taken b]> ts) s
      | inr err => finish m i key floor (inr err) s ts
      end
  | Some (AtSet m key floor gen taken b) =>
      finish m i key floor (inl b) (s <| sh_cache := cache_Set (sh_now s) key b gen (sh_cache s) |>) ts
  | Some (AtCommit key v) =>
      mkSys (<[i := AtInvalidate key (S (length (written s key)))]> ts) (s <| sh_source := <[key := written s key ++ [v]]> (sh_source s) |>)
  | Some (AtInvalidate key version) =>
      mkSys (<[i := Written]> ts)
        (s <| sh_cache := cache_Invalidate key (sh_cache s) |> <| sh_done := <[key := Nat.max (done_of s key) version]> (sh_done s) |>
           <| sh_count := <[key := S (count_of s key)]> (sh_count s) |>)
  | Some (Waiting _ _ | Answered _ _ _ _ | Written) | None => c
  end.

Inductive sys_step : Sys -> Sys -> Prop :=
  | sys_read ts s m key : sys_step (mkSys ts s) (mkSys (ts ++ [AtGet m key (done_of s key)]) s)
  | sys_write ts s key v : sys_step (mkSys ts s) (mkSys (ts ++ [AtCommit key v]) s)
  | sys_clock ts s t : sys_step (mkSys ts s) (mkSys ts (s <| sh_now := t |>))
  | sys_fire i c : sys_step c (fire i c).
Definition start (ttl : Duration) : Sys := mkSys [] (mkShared (cache_New ttl) ∅ ∅ 0 ∅ ∅).

(** ** What readers get *)

(** Built from the settings of that write. *)
Definition built (s : Shared) (key : string) (b : Built) : Prop :=
  ∃ build settings n, bt_version b = S n ∧ go_lookup builders key = Some build ∧ written s key !! n = Some (inl settings) ∧
    build settings = inl (bt_transport b).
Definition thread_ok (s : Shared) (t : thread) : Prop :=
  match t with
  | AtGet _ key floor | AtDo key floor | AtRecheck key floor | AtGeneration _ key floor | Waiting key floor => (floor <= done_of s key)%nat
  | AtSettings _ key floor gen taken => (floor <= done_of s key)%nat ∧ (taken <= count_of s key)%nat ∧ gen = Z.of_nat taken mod 2 ^ 64
  | AtSet _ key floor gen taken b =>
      (floor <= bt_version b)%nat ∧ built s key b ∧ (taken <= count_of s key)%nat ∧ gen = Z.of_nat taken mod 2 ^ 64 ∧
      (taken = count_of s key -> (done_of s key <= bt_version b)%nat)
  | Answered joined key floor (inl b) => built s key b ∧ (joined = false -> (floor <= bt_version b)%nat)
  | AtInvalidate key version => (version <= length (written s key))%nat
  | Answered _ _ _ (inr _) | AtCommit _ _ | Written => True
  end.
Definition shared_ok (s : Shared) : Prop := ∀ key,
  (done_of s key <= length (written s key))%nat ∧ cache_Generation key (sh_cache s) = Z.of_nat (count_of s key) mod 2 ^ 64 ∧
  ∀ e, c_entries (sh_cache s) !! key = Some e -> built s key (en_value e) ∧ (done_of s key <= bt_version (en_value e))%nat.
Definition sys_ok (c : Sys) : Prop := shared_ok (sy_shared c) ∧ Forall (thread_ok (sy_shared c)) (sy_threads c).
(** No counter has gone round. *)
Definition fits (s : Shared) : Prop := ∀ key, Z.of_nat (count_of s key) < 2 ^ 64.

(** Time goes one way. *)
Definition later (s s' : Shared) : Prop := ∀ key,
  (done_of s key <= done_of s' key)%nat ∧ (count_of s key <= count_of s' key)%nat ∧
  (count_of s' key = count_of s key -> done_of s' key = done_of s key) ∧ ∃ more, written s' key = written s key ++ more.
Lemma later_same s s' : sh_source s' = sh_source s -> sh_done s' = sh_done s -> sh_count s' = sh_count s -> later s s'.
Proof. intros E1 E2 E3 key. unfold done_of, count_of, written. rewrite E1, E2, E3. split_and!; try done. exists []. by rewrite app_nil_r. Qed.
Lemma built_later s s' key b : later s s' -> built s key b -> built s' key b.
Proof.
  intros Hl (build & settings & n & Hv & Hb & Hn & Ht). destruct (Hl key) as (_ & _ & _ & more & E).
  exists build, settings, n. split_and!; try done. rewrite E. by apply lookup_app_l_Some.
Qed.
Lemma thread_later s s' t : later s s' -> thread_ok s t -> thread_ok s' t.
Proof.
  intros Hl. destruct t as [m key f|key f|key f|m key f|m key f g n|m key f g n b|key f|j key f [b|e]|key v|key v|]; simpl; try done;
    try (destruct (Hl key) as (? & ? & Hd & more & E)).
  1-5, 7: intros; lia.
  - intros (? & Hb & ? & -> & Hc). split_and!; [lia|by eapply built_later|lia|done|]. intros ->. rewrite Hd by lia. apply Hc. lia.
  - intros [Hb ?]. split; [by eapply built_later|done].
  - rewrite E, length_app. lia.
Qed.
Lemma threads_later s s' ts : later s s' -> Forall (thread_ok s) ts -> Forall (thread_ok s') ts.
Proof. intros Hl Ht. eapply Forall_impl; [exact Ht|]. intros t. by apply thread_later. Qed.

(** A thread moves on, everyone else stays. *)
Lemma moves s s' ts i t : later s s' -> shared_ok s' -> Forall (thread_ok s) ts -> thread_ok s' t -> sys_ok (mkSys (<[i := t]> ts) s').
Proof. intros Hl Hs Ht Hi. split; [done|]. apply Forall_insert; [by eapply threads_later|done]. Qed.
(** A reader ends, with those who waited for it. *)
Lemma finish_ok m i key floor r s s' ts :
  later s s' -> shared_ok s' -> Forall (thread_ok s) ts ->
  match r with inl b => built s' key b ∧ (floor <= bt_version b)%nat | inr _ => True end -> sys_ok (finish m i key floor r s' ts).
Proof.
  intros Hl Hs Ht Hr. assert (thread_ok s' (Answered false key floor r)) as Hi by (destruct r; simpl; naive_solver).
  destruct m; simpl; [by eapply moves|]. set (s'' := s' <| sh_flights := _ |>). assert (later s' s'') as Hl' by by apply later_same.
  eapply (moves s'); [done|exact Hs| |by apply (thread_later s')]. apply Forall_fmap. apply (threads_later _ _ _ Hl) in Ht.
  eapply Forall_impl; [exact Ht|]. intros [] Ho; try exact Ho. simpl. destruct (String.eqb_spec key0 key) as [->|]; [|exact Ho].
  destruct r; simpl; naive_solver.
Qed.

(** Getting may drop what has expired, and no more. *)
Lemma get_ok s key r s' :
  with_cache s (cache_Get (sh_now s) key (sh_cache s)) = (r, s') -> shared_ok s ->
  later s s' ∧ shared_ok s' ∧ match r with Some b => built s' key b ∧ (done_of s key <= bt_version b)%nat | None => True end.
Proof.
  unfold with_cache, cache_Get. intros [= <- <-] Hs. destruct (c_entries (sh_cache s) !! key) as [e|] eqn:Ee; simpl.
  - destruct (After _ _); simpl.
    + split_and!; [by apply later_same| |done]. intros key'. destruct (Hs key') as (? & ? & He). split_and!; [done..|].
      simpl. intros e' [_ Hl]%lookup_delete_Some. by apply He.
    + destruct (Hs key) as (_ & _ & He). destruct (He e Ee). split_and!; [by apply later_same|exact Hs|done|done].
  - split_and!; [by apply later_same|exact Hs|done].
Qed.

Lemma resolve_built s key b : resolve s key = inl b -> built s key b ∧ bt_version b = length (written s key).
Proof.
  unfold resolve, current. destruct (go_lookup builders key) as [build|] eqn:Eb; [|done].
  destruct (last (written s key)) as [[settings|]|] eqn:El; simpl; [|done..]. destruct (build settings) as [t|] eqn:Et; [|done].
  intros [= <-]. split; [|done]. apply last_Some in El as [l El].
  exists build, settings, (length l). rewrite El. split_and!; [by rewrite length_app; simpl; lia|done|by apply list_lookup_middle|done].
Qed.
(** What is set under a snapshot that still stands is as new as what was
    invalidated. *)
Lemma set_ok s key floor gen taken b m :
  fits s -> shared_ok s -> thread_ok s (AtSet m key floor gen taken b) ->
  shared_ok (s <| sh_cache := cache_Set (sh_now s) key b gen (sh_cache s) |>).
Proof.
  intros Hfit Hs (_ & Hb & Hn & -> & Hnew). pose proof (Hs key) as (_ & Hgen & _). pose proof (Hfit key) as Hf. unfold cache_Set.
  destruct (Z.eqb_spec (cache_Generation key (sh_cache s)) (Z.of_nat taken mod 2 ^ 64)) as [E|]; [|exact Hs].
  assert (taken = count_of s key) as Ht by (rewrite Hgen, !Z.mod_small in E; lia).
  intros key'. destruct (Hs key') as (? & ? & He). split_and!; [done..|]. simpl. intros e [[<- <-]|[_ Hl]]%lookup_insert_Some; [|by apply He].
  simpl. split; [exact Hb|by apply Hnew].
Qed.
Lemma insert_default (m : gmap string nat) key key' n :
  default 0%nat (<[key := n]> m !! key') = if String.eqb key key' then n else default 0%nat (m !! key').
Proof. destruct (String.eqb_spec key key') as [->|]; [by rewrite lookup_insert_eq|by rewrite lookup_insert_ne]. Qed.
Lemma invalidate_ok s key version :
  let s' := s <| sh_cache := cache_Invalidate key (sh_cache s) |> <| sh_done := <[key := Nat.max (done_of s key) version]> (sh_done s) |>
              <| sh_count := <[key := S (count_of s key)]> (sh_count s) |> in
  shared_ok s -> (version <= length (written s key))%nat -> later s s' ∧ shared_ok s'.
Proof.
  intros s' Hs Hv. split; intros key'; destruct (Hs key') as (Hd & Hg & He); unfold done_of, count_of in *; simpl; rewrite !insert_default;
    destruct (String.eqb_spec key key') as [<-|Hne].
  - split_and!; [lia|lia|lia|exists []; by rewrite app_nil_r].
  - split_and!; [lia|lia|lia|exists []; by rewrite app_nil_r].
  - split_and!; [unfold written in *; simpl; lia| |].
    + unfold cache_Generation at 1. simpl. rewrite lookup_insert_eq. simpl. rewrite Hg, Zplus_mod_idemp_l. f_equal. lia.
    + intros e [? _]%lookup_delete_Some. done.
  - split_and!; [done| |].
    + rewrite <- Hg. unfold cache_Generation. simpl. by rewrite lookup_insert_ne.
    + intros e [_ Hl]%lookup_delete_Some. by apply He.
Qed.
Lemma commit_ok s key v :
  let s' := s <| sh_source := <[key := written s key ++ [v]]> (sh_source s) |> in shared_ok s -> later s s' ∧ shared_ok s'.
Proof.
  intros s' Hs. assert (later s s') as Hl.
  { intros key'. split_and!; try done. unfold written. simpl. destruct (decide (key = key')) as [<-|].
    - rewrite lookup_insert_eq. by exists [v].
    - rewrite lookup_insert_ne by done. exists []. by rewrite app_nil_r. }
  split; [done|]. intros key'. destruct (Hs key') as (Hd & Hg & He), (Hl key') as (_ & _ & _ & more & E).
  split_and!; [rewrite E, length_app; change (done_of s' key') with (done_of s key'); lia|done|]. intros e Hx. destruct (He e Hx). split; [by eapply built_later|done].
Qed.

Lemma step_ok c c' : sys_step c c' -> fits (sy_shared c) -> sys_ok c -> sys_ok c'.
Proof.
  intros Hstep Hfit [Hs Ht]. destruct Hstep as [ts s m key|ts s key v|ts s t|i c]; simpl in *.
  - split; [done|]. apply Forall_app. split; [done|]. constructor; [simpl; lia|done].
  - split; [done|]. apply Forall_app. split; [done|]. by constructor.
  - split; [exact Hs|]. simpl. eapply threads_later; [|exact Ht]. by apply later_same.
  - unfold fire. destruct (sy_threads c !! i) as [t|] eqn:Ei; [|by split]. pose proof (Forall_lookup_1 _ _ _ _ Ht Ei) as Hi.
    destruct t as [m key f|key f|key f|m key f|m key f g n|m key f g n b|key f|j key f r|key v|key v|]; try by split.
    + destruct (with_cache _ _) as [r s'] eqn:E. destruct (get_ok _ _ _ _ E Hs) as (Hl & Hs' & Hr). destruct (Hl key) as (? & _).
      simpl in Hi. destruct r as [b|]; [|destruct m]; (eapply moves; [done..|]); [split; [by apply Hr|intros _; destruct Hr; lia]|simpl; lia..].
    + case_decide; (eapply moves; [|exact Hs|done|exact Hi]); by apply later_same.
    + destruct (with_cache _ _) as [r s'] eqn:E. destruct (get_ok _ _ _ _ E Hs) as (Hl & Hs' & Hr). destruct (Hl key) as (? & _).
      destruct r as [b|]; [eapply finish_ok; [done..|]; split; [by apply Hr|destruct Hr; simpl in Hi; lia]|].
      eapply moves; [done..|]. simpl in *. lia.
    + eapply moves; [by apply later_same|done..|]. simpl in *. split_and!; [lia|lia|]. apply Hs.
    + destruct (resolve _ key) as [b|] eqn:Er; [|eapply finish_ok; [by apply later_same|done..]].
      apply resolve_built in Er as [Hb Hv]. destruct (Hs key) as (Hd & _). destruct Hi as (? & ? & ->).
      eapply moves; [by apply later_same|done..|]. simpl. split_and!; [lia|done|done|done|lia].
    + eapply finish_ok; [by apply later_same|by eapply set_ok|done|]. by destruct Hi as (? & ? & _).
    + destruct (commit_ok (sy_shared c) key v Hs) as [Hl Hs']. eapply moves; [exact Hl|exact Hs'|done|].
      simpl. unfold written at 2. simpl. rewrite lookup_insert_eq. simpl. rewrite length_app. simpl. lia.
    + destruct (invalidate_ok (sy_shared c) key v Hs Hi) as [Hl Hs']. by eapply moves.
Qed.

Lemma finish_count m i key floor r s ts key' : count_of (sy_shared (finish m i key floor r s ts)) key' = count_of s key'.
Proof. by destruct m. Qed.
Lemma step_count c c' key : sys_step c c' -> (count_of (sy_shared c) key <= count_of (sy_shared c') key)%nat.
Proof.
  destruct 1 as [ts s m k|ts s k v|ts s t|i c]; simpl; try done. unfold fire.
  destruct (sy_threads c !! i) as [t|]; [|done].
  destruct t as [m k f|k f|k f|m k f|m k f g n|m k f g n b|k f|j k f r|k v|k v|]; try done.
  - unfold with_cache. destruct (cache_Get _ _ _) as [[b|] c']; [|destruct m]; done.
  - by case_decide.
  - unfold with_cache. destruct (cache_Get _ _ _) as [[b|] c']; simpl; done.
  - destruct (resolve _ k); [done|by rewrite finish_count].
  - by rewrite finish_count.
  - unfold count_of. simpl. rewrite insert_default. destruct (String.eqb_spec k key) as [->|]; lia.
Qed.
Lemma reachable_ok ttl c : rtc sys_step (start ttl) c -> fits (sy_shared c) -> sys_ok c.
Proof.
  intros Hr. revert c Hr. apply (rtc_ind_r (fun c => fits (sy_shared c) -> sys_ok c)).
  - intros _. split; [|constructor]. intros key. split_and!; [done|done|]. intros e [=].
  - intros c c' _ Hstep IH Hfit. assert (fits (sy_shared c)) as Hf. { intros key. pose proof (step_count _ _ key Hstep). specialize (Hfit key). lia. }
    by eapply step_ok; [| |apply IH].
Qed.

(** C23. An invalidation that has returned is authoritative.  However readers, writers
    and the clock interleave, and until a counter has gone round: a reader that
    did not wait for another's build gets a transport that was built from the
    settings of some write, and that write is no older than any whose
    invalidation had returned when the reader started. *)
Theorem invalidation_authoritative ttl c i key floor b :
  rtc sys_step (start ttl) c -> fits (sy_shared c) -> sy_threads c !! i = Some (Answered false key floor (inl b)) ->
  (floor <= bt_version b)%nat ∧ built (sy_shared c) key b.
Proof.
  intros Hr Hfit Hi. destruct (reachable_ok _ _ Hr Hfit) as [_ Ht]. destruct (Forall_lookup_1 _ _ _ _ Ht Hi) as [Hb Hf]. split; [by apply Hf|done].
Qed.

Lemma fire_count i c key : (count_of (sy_shared (fire i c)) key <= S (count_of (sy_shared c) key))%nat.
Proof.
  unfold fire. destruct (sy_threads c !! i) as [t|]; [|lia].
  destruct t as [m k f|k f|k f|m k f|m k f g n|m k f g n b|k f|j k f r|k v|k v|]; try (simpl; lia).
  - unfold with_cache. destruct (cache_Get _ _ _) as [[b|] c']; [|destruct m]; simpl; unfold count_of; simpl; lia.
  - case_decide; simpl; unfold count_of; simpl; lia.
  - unfold with_cache. destruct (cache_Get _ _ _) as [[b|] c']; simpl; unfold count_of; simpl; lia.
  - destruct (resolve _ k); [simpl; lia|rewrite finish_count; lia].
  - rewrite finish_count. unfold count_of. simpl. lia.
  - simpl. unfold count_of. simpl. lia.
  - unfold count_of. simpl. rewrite insert_default. destruct (String.eqb_spec k key) as [->|]; lia.
Qed.
Lemma fires_count l c key : (count_of (sy_shared (foldl (fun c i => fire i c) c l)) key <= count_of (sy_shared c) key + length l)%nat.
Proof. revert c. induction l as [|i l IH]; intros c; simpl; [lia|]. etrans; [apply IH|]. pose proof (fire_count i c key). lia. Qed.
Lemma run_fires l c : rtc sys_step c (foldl (fun c i => fire i c) c l).
Proof. revert c. induction l as [|i l IH]; intros c; simpl; [apply rtc_refl|]. eapply rtc_l; [apply sys_fire|apply IH]. Qed.
End resolver.

(** ** Runs *)

Definition ex_clients : Clients := {|
  Transport := string; slack_New p := mp_BotToken p; telegram_New p := inl (mp_BotToken p); mail_NewClient p := inl (ml_Host p) |}.
Definition ex_builders : list (string * (Settings -> string + error)) := @Builders ex_net ex_clients false.
Definition token (t : string) : Settings + error := inl (SetSlack (mkSlack t "" "")).
Definition arrive (t : Shared -> thread) (c : @Sys ex_clients) : Sys := mkSys (sy_threads c ++ [t (sy_shared c)]) (sy_shared c).
Definition fires (l : list nat) (c : @Sys ex_clients) : @Sys ex_clients := foldl (fun c i => @fire ex_clients ex_builders i c) c l.

(** The old settings are read, the new ones written while the build is on; the
    next reader starts after that. *)
Definition ex_run (m : mode) : @Sys ex_clients :=
  let key := "slack"%string in
  let c := fires [0; 0]%nat (arrive (fun _ => AtCommit key (token "old")) (start 30)) in
  let c := fires (match m with Alone => [1; 1; 1] | Joining => [1; 1; 1; 1; 1] end)%nat (arrive (fun s => AtGet m key (done_of s key)) c) in
  let c := fires [2; 2]%nat (arrive (fun _ => AtCommit key (token "new")) c) in
  fires [3; 3; 1; 3; 3; 3]%nat (arrive (fun s => AtGet m key (done_of s key)) c).
(** Reached, with so many invalidations at most. *)
Definition reached (n : nat) (c : @Sys ex_clients) : Prop :=
  rtc (@sys_step ex_clients ex_builders) (start 30) c ∧ ∀ key, (count_of (sy_shared c) key <= n)%nat.
Lemma reached_fires n l c : reached n c -> reached (n + length l) (fires l c).
Proof.
  intros [Hr Hn]. split; [etrans; [exact Hr|apply run_fires]|]. intros key. etrans; [apply fires_count|]. specialize (Hn key). lia.
Qed.
Lemma reached_read n m key c : reached n c -> reached n (arrive (fun s => AtGet m key (done_of s key)) c).
Proof. intros [Hr Hn]. split; [|done]. destruct c. eapply rtc_r; [exact Hr|apply sys_read]. Qed.
Lemma reached_write n key v c : reached n c -> reached n (arrive (fun _ => AtCommit key v) c).
Proof. intros [Hr Hn]. split; [|done]. destruct c. eapply rtc_r; [exact Hr|apply sys_write]. Qed.
Lemma ex_run_reached m : reached (0 + 2 + match m with Alone => 3 | Joining => 5 end + 2 + 6) (ex_run m).
Proof.
  assert (reached 0 (start 30)) as Hs by (split; [apply rtc_refl|done]).
  apply (reached_write _ "slack" (token "old")), (reached_fires _ [0; 0]%nat), (reached_read _ m "slack") in Hs.
  apply (reached_fires _ (match m with Alone => [1; 1; 1] | Joining => [1; 1; 1; 1; 1] end)%nat), (reached_write _ "slack" (token "new")),
    (reached_fires _ [2; 2]%nat), (reached_read _ m "slack"), (reached_fires _ [3; 3; 1; 3; 3; 3]%nat) in Hs.
  by destruct m.
Qed.

(** A reader that builds for itself gets the new transport, though the old one was
    being built when it started. *)
Lemma invalidation_authoritative_witness : ∃ floor b,
  sy_threads (ex_run Alone) !! 3%nat = Some (Answered false "slack" floor (inl b)) ∧ floor = 2%nat ∧ bt_transport b = "new"%string ∧
  (floor <= bt_version b)%nat.
Proof.
  eexists _, _. split; [vm_compute; reflexivity|]. split; [reflexivity|]. split; [reflexivity|].
  destruct (ex_run_reached Alone) as [Hr Hn].
  apply (@invalidation_authoritative ex_clients ex_builders 30 (ex_run Alone) 3%nat "slack"); [exact Hr| |vm_compute; reflexivity].
  intros key. specialize (Hn key). lia.
Defined.

(** One that joins a build under way gets what that build had read before the
    write, although the write's invalidation had returned when it asked. *)
Example joined_stale : ∃ floor b,
  sy_threads (ex_run Joining) !! 3%nat = Some (Answered true "slack" floor (inl b)) ∧ bt_transport b = "old"%string ∧
  floor = 2%nat ∧ bt_version b = 1%nat.
Proof. eexists _, _. split; vm_compute; reflexivity || (split_and!; reflexivity). Qed.
