(* ===== verification/AuditLog.v ===== *)
(** * The audit log (internal/storages/audit, internal/services/auditor, the
      processors internal/goque_processors/auditprocessor and auditpruneprocessor)

    What was published to the outbox is written to the log, some time later and
    perhaps more than once; it is read by page and category, and pruned.  The
    texts of an entry come out of a task's JSON, so they are valid UTF-8. *)
From Stdlib Require Import ZArith Lia Ascii String.
From stdpp Require Import base sorting sets strings numbers list relations.
From S2P Require Import Prelude Go Entity Conflict AuditTrail Schema Json Logic Dbtx Interleave MaintStore Fixtures Queue.
From S2P Require Import Sweep Catalog.
Open Scope Z_scope.

(** ** entity/audit.go, commands.go *)

Record AuditEntry := mkEntry {
  ae_ID : UUID; ae_EventID : UUID; ae_Action : string; ae_Actor : string; ae_ActorID : string; ae_ActorDisplayName : string;
  ae_EntityID : string; ae_EntityType : string; ae_Details : DetailsLine; ae_Metadata : option AuditMetadata; ae_CreatedAt : Time }.
Definition ToAuditEntry (p : AuditPayload) : AuditEntry :=
  mkEntry (ap_EventID p) (ap_EventID p) (ap_Action p) (ap_Actor p) (ap_ActorID p) (ap_ActorDisplayName p) (ap_EntityID p)
    (ap_EntityType p) (ap_Details p) (ap_Metadata p) (ap_OccurredAt p).

Record AuditFilter := mkAuditFilter {
  af_Actions : list string; af_Actor : option string; af_CreatedFrom : option Time; af_CreatedTo : option Time }.
#[export] Instance eta_AuditFilter : Eta AuditFilter := fun f =>
  mkAuditFilter (af_Actions f) (af_Actor f) (af_CreatedFrom f) (af_CreatedTo f).
Definition WithoutActions (f : option AuditFilter) : option AuditFilter := (fun f => f <| af_Actions := [] |>) <$> f.
Record GetAuditLogsCmd := mkGetLogs { gl_Filter : option AuditFilter; gl_Limit : Z; gl_Offset : Z }.
Record AuditFacets := mkFacets { fa_All : Z; fa_SignIn : Z; fa_Users : Z; fa_Settings : Z; fa_Maintenance : Z }.
#[export] Instance eta_AuditFacets : Eta AuditFacets := fun f =>
  mkFacets (fa_All f) (fa_SignIn f) (fa_Users f) (fa_Settings f) (fa_Maintenance f).
Record AuditLogsPage := mkLogsPage { lp_Logs : list AuditEntry; lp_Total : Z; lp_Facets : AuditFacets }.

Definition auditCategoriesAction : list (string * list string) := [
  (AuditCategorySignIn, ["login.success"; "login.failed"; "logout.success"]);
  (AuditCategoryUsers,
    ["roles.changed"; "user.tags_changed"; "user.blocked"; "user.unblocked"; "password.changed"; "password.reset"; "provider.linked";
     "invitation.created"; "invitation.revoked"; "session.revoked"]);
  (AuditCategorySettings,
    ["auth_method.toggled"; "integration.created"; "integration.updated"; "integration.deleted"; "resource.created"; "resource.updated";
     "resource.archived"; "resource.unarchived"; "notify_channel.created"; "notify_channel.updated"; "notify_channel.archived";
     "notify_channel.unarchived"]);
  (AuditCategoryMaintenance,
    ["maintenance.created"; "maintenance.updated"; "maintenance.approved"; "maintenance.started"; "maintenance.completed";
     "maintenance.canceled"; "maintenance_step.started"; "maintenance_step.completed"; "maintenance_step.canceled"])].
Definition AuditCategoryAction (category : string) : list string := default [] (go_lookup auditCategoriesAction category).

(** ** storages/audit, mapper.go *)

(** json.Marshal of the metadata: the fields tagged omitempty that hold
    something. *)
Definition str_field (s : string) : option json := if String.eqb s "" then None else Some (JString s).
Definition strs_field (l : list string) : option json := match l with [] => None | _ => Some (JArray (JString <$> l)) end.
Definition present (fields : list (string * option json)) : list (string * json) :=
  omap (fun f => (pair f.1) <$> f.2) fields.
Definition change_json (c : AuditFieldChange) : json :=
  JObject (present [("field", Some (JString (fc_Field c))); ("old", str_field (fc_Old c)); ("new", str_field (fc_New c))]).
Definition changes_field (l : list AuditFieldChange) : option json :=
  match l with [] => None | _ => Some (JArray (change_json <$> l)) end.
Definition metadata_fields (m : AuditMetadata) : list (string * option json) :=
  [("ip", str_field (md_IP m)); ("user_agent", str_field (md_UserAgent m)); ("session_id", str_field (md_SessionID m));
   ("failure_reason", str_field (md_FailureReason m)); ("logout_kind", str_field (md_LogoutKind m));
   ("revoke_reason", str_field (md_RevokeReason m)); ("login_method", str_field (md_LoginMethod m));
   ("roles", strs_field (md_Roles m)); ("roles_added", strs_field (md_RolesAdded m)); ("roles_removed", strs_field (md_RolesRemoved m));
   ("target_email", str_field (md_TargetEmail m)); ("target_display_name", str_field (md_TargetDisplayName m));
   ("maint_title", str_field (md_MaintTitle m)); ("changes", changes_field (md_Changes m))].
Definition metadataToJSON (m : option AuditMetadata) : json :=
  match m with
  | None => JObject []
  | Some m => JObject (present (metadata_fields m))
  end.

(** json.Unmarshal. *)
Definition decode_change (c : AuditFieldChange) (j : json) : option AuditFieldChange :=
  decode_object (fun c fs =>
    field ← decode_field decode_string "field" (fc_Field c) fs; old ← decode_field decode_string "old" (fc_Old c) fs;
    new ← decode_field decode_string "new" (fc_New c) fs; Some (mkChange field old new)) c j.
Definition decode_changes (_ : list AuditFieldChange) (j : json) : option (list AuditFieldChange) :=
  match j with
  | JNull => Some []
  | JArray l => mapM (decode_change (mkChange "" "" "")) l
  | _ => None
  end.
Definition decode_metadata (fs : list (string * json)) : option AuditMetadata :=
  let str name := decode_field decode_string name EmptyString fs in
  let strs name := decode_field decode_strings name [] fs in
  ip ← str "ip"; ua ← str "user_agent"; sid ← str "session_id"; failure ← str "failure_reason"; logout ← str "logout_kind";
  revoke ← str "revoke_reason"; login ← str "login_method"; roles ← strs "roles"; added ← strs "roles_added";
  removed ← strs "roles_removed"; email ← str "target_email"; name ← str "target_display_name"; title ← str "maint_title";
  changes ← decode_field decode_changes "changes" [] fs;
  Some (mkMetadata ip ua sid failure logout revoke login roles added removed email name title changes).
Definition metadataFromJSON (raw : json) : option AuditMetadata :=
  match raw with
  | JObject [] => None
  | _ => decode_object (fun _ => decode_metadata) noMetadata raw
  end.

Definition eventIDToDB (id : UUID) : option UUID := if N.eqb id uuid_Nil then None else Some id.
Definition eventIDFromDB (id : option UUID) : UUID := default uuid_Nil id.
Definition toDBEntry (id : UUID) (e : AuditEntry) : AuditLogRow :=
  mkAuditLogRow id (ae_Action e) (ae_Actor e) (ae_ActorID e) (ae_ActorDisplayName e) (ae_EntityID e) (ae_EntityType e) (ae_Details e)
    (jsonb (metadataToJSON (ae_Metadata e))) (pg_ts (ae_CreatedAt e)) (eventIDToDB (ae_EventID e)).
Definition fromDBEntry (r : AuditLogRow) : AuditEntry :=
  mkEntry (al_ID r) (eventIDFromDB (al_EventID r)) (al_Action r) (al_Actor r) (al_ActorID r) (al_ActorDisplayName r) (al_EntityID r)
    (al_EntityType r) (al_Details r) (metadataFromJSON (al_Metadata r)) (al_CreatedAt r).

(** ** storages/audit, the statements *)

(** A NULL event_id equals nothing. *)
Definition same_event (a b : AuditLogRow) : bool :=
  match al_EventID a, al_EventID b with
  | Some x, Some y => N.eqb x y
  | _, _ => false
  end.
Definition filterToWhereExp (f : option AuditFilter) (r : AuditLogRow) : bool :=
  match f with
  | None => true
  | Some f =>
      (match af_Actions f with [] => true | actions => existsb (String.eqb (al_Action r)) actions end) &&
      (match af_Actor f with Some actor => String.eqb (al_Actor r) actor | None => true end) &&
      (match af_CreatedFrom f with Some t => pg_ts t <=? al_CreatedAt r | None => true end) &&
      (match af_CreatedTo f with Some t => al_CreatedAt r <=? pg_ts t | None => true end)
  end.
Definition latest_first (a b : AuditLogRow) : comparison :=
  cmp_then (Z.compare (al_CreatedAt b) (al_CreatedAt a)) (xuuid_Compare (al_ID b) (al_ID a)).
Definition oldest_first (a b : AuditLogRow) : comparison := Z.compare (al_CreatedAt a) (al_CreatedAt b).
Definition older_than (cutoff : Time) (r : AuditLogRow) : bool := al_CreatedAt r <? pg_ts cutoff.

Section store.
Context `{Env}.

(** INSERT ... ON CONFLICT (event_id) DO NOTHING; the id is the server's. *)
Definition AddLog (entry : AuditEntry) : M unit :=
  sql (fun s db =>
    let row := toDBEntry (pg_uuid s 0) entry in
    if existsb (same_event row) (audit_log db) then Ok (tt, db)
    else require (negb (existsb (fun r => N.eqb (al_ID r) (al_ID row)) (audit_log db))) ErrPGUniqueViolation
           (Ok (tt, db <| audit_log := audit_log db ++ [row] |>))).

(** The rows are counted, and then read in pages. *)
Definition store_GetLogs (cmd : GetAuditLogsCmd) : M (list AuditEntry * Z) :=
  list_page audit_log (filterToWhereExp (gl_Filter cmd)) latest_first fromDBEntry (gl_Limit cmd) (gl_Offset cmd).

Definition count_action (rows : list AuditLogRow) (action : string) : string * Z :=
  (action, Z.of_nat (length (List.filter (fun r => String.eqb (al_Action r) action) rows))).
Definition CountByAction (f : option AuditFilter) : M (list (string * Z)) :=
  query (fun db => let rows := List.filter (filterToWhereExp f) (audit_log db) in count_action rows <$> uniq (al_Action <$> rows)).

(** MAX of no rows is NULL. *)
Definition LastActivityAt : M (option Time) :=
  query (fun db =>
    let rows := List.filter (fun r => existsb (String.eqb (al_Action r)) (AuditCategoryAction AuditCategoryMaintenance)) (audit_log db) in
    match al_CreatedAt <$> rows with
    | [] => None
    | t :: ts => Some (foldl Z.max t ts)
    end).

Definition pruned_ids (cutoff : Time) (limit : Z) (l : list AuditLogRow) : list UUID :=
  al_ID <$> pg_limit limit (sort_by oldest_first (List.filter (older_than cutoff) l)).
Definition PruneOlderThan (cutoff : Time) (limit : Z) : M Z :=
  sql (fun _ db =>
    let gone r := bool_decide (al_ID r ∈ pruned_ids cutoff limit (audit_log db)) in
    Ok (Z.of_nat (length (List.filter gone (audit_log db))),
        db <| audit_log := List.filter (fun r => negb (gone r)) (audit_log db) |>)).

(** ** services/auditor *)

Definition audit_AddLog (entry : AuditEntry) : M unit := AddLog entry.

(** The counters are int64 and count rows of one table. *)
Definition add_facet (facets : AuditFacets) (c : string * Z) : AuditFacets :=
  let facets := facets <| fa_All := fa_All facets + c.2 |> in
  match AuditActionCategory c.1 with
  | None => facets
  | Some category =>
      if String.eqb category AuditCategorySignIn then facets <| fa_SignIn := fa_SignIn facets + c.2 |>
      else if String.eqb category AuditCategoryUsers then facets <| fa_Users := fa_Users facets + c.2 |>
      else if String.eqb category AuditCategorySettings then facets <| fa_Settings := fa_Settings facets + c.2 |>
      else if String.eqb category AuditCategoryMaintenance then facets <| fa_Maintenance := fa_Maintenance facets + c.2 |>
      else facets
  end.
Definition facetsFromActionCounts (counts : list (string * Z)) : AuditFacets := foldl add_facet (mkFacets 0 0 0 0 0) counts.

Definition backwards (f : AuditFilter) : bool :=
  match af_CreatedFrom f, af_CreatedTo f with
  | Some from, Some to => After from to
  | _, _ => false
  end.
Definition GetLogs (cmd : GetAuditLogsCmd) : M AuditLogsPage :=
  let filter := default (mkAuditFilter [] None None None) (gl_Filter cmd) in
  reject_if (backwards filter) (Errorf "created_from must be <= created_to" ErrValidation);;
  logs ← wrap_err (Errorf "get audit logs") (store_GetLogs (mkGetLogs (Some filter) (gl_Limit cmd) (gl_Offset cmd)));
  counts ← wrap_err (Errorf "count audit logs by action") (CountByAction (WithoutActions (Some filter)));
  mret (mkLogsPage (fst logs) (snd logs) (facetsFromActionCounts counts)).

Definition maxPruneBatches : nat := 100.
Definition defaultBatchLimit : Z := 1000.
Definition audit_Prune (retention : Duration) (batchLimit : Z) : M unit :=
  let batchLimit := if batchLimit <=? 0 then defaultBatchLimit else batchLimit in
  now ← UTCNow;
  batches maxPruneBatches (PruneOlderThan (Time_Add now (wrap64 (- retention))) batchLimit) batchLimit.

(** ** goque_processors/auditprocessor *)

Definition audit_ProcessTask (payload : AuditPayload) : M unit :=
  inside ← in_tx;
  reject_if inside (EOther "audit write processor must not run inside a DB tx");;
  wrap_err (Errorf "audit write processor: add log") (audit_AddLog (ToAuditEntry payload)).
End store.

(** ** Metadata *)

Fixpoint field_of (name : string) (fields : list (string * option json)) : option json :=
  match fields with
  | [] => None
  | (k, v) :: fields' => if names_field name k then v else field_of name fields'
  end.
Lemma present_keys fields x : x ∈ (present fields).*1 -> x ∈ fields.*1.
Proof.
  unfold present. induction fields as [|[k [v|]] fields IH]; simpl; [done| |]; rewrite ?fmap_cons; set_solver.
Qed.
Lemma present_plain fields : NoDup (foldName <$> fields.*1) -> NoDup (foldName <$> (present fields).*1).
Proof.
  unfold present. induction fields as [|[k [v|]] fields IH]; simpl; [done| |]; intros [Hk Hnd]%NoDup_cons; [|by apply IH].
  apply NoDup_cons. split; [|by apply IH]. intros (x & E & Hx)%list_elem_of_fmap. apply Hk. rewrite E.
  by apply list_elem_of_fmap_2, present_keys.
Qed.

Section decoding.
Context {T : Type} (decode : T -> json -> option T) (name : string).
Lemma decode_others acc fields :
  foldName name ∉ foldName <$> fields.*1 -> foldl (decode_step decode name) acc (present fields) = acc.
Proof.
  unfold present. revert acc. induction fields as [|[k [v|]] fields IH]; intros acc Hn; simpl; [done| |]; rewrite !fmap_cons in Hn; [|by apply IH; set_solver].
  rewrite IH by set_solver. unfold decode_step, names_field. simpl. destruct acc; [|done].
  destruct (String.eqb_spec (foldName k) (foldName name)) as [E|]; [|done]. destruct Hn. rewrite <- E. set_solver.
Qed.
Lemma decode_present init fields :
  NoDup (foldName <$> fields.*1) ->
  decode_field decode name init (present fields) = match field_of name fields with Some j => decode init j | None => Some init end.
Proof.
  intros Hnd. change (foldl (decode_step decode name) (Some init) (present fields) =
    match field_of name fields with Some j => decode init j | None => Some init end).
  induction fields as [|[k v] fields IH]; [done|]. rewrite !fmap_cons in Hnd. apply NoDup_cons in Hnd as [Hk Hnd]. simpl.
  unfold names_field. destruct (String.eqb_spec (foldName k) (foldName name)) as [E|E]; unfold present in *; destruct v as [v|]; simpl.
  - unfold names_field. rewrite E, String.eqb_refl. apply decode_others. by rewrite <- E.
  - apply decode_others. by rewrite <- E.
  - unfold names_field. apply String.eqb_neq in E. rewrite E. by apply IH.
  - by apply IH.
Qed.
(** What is stored decodes as what was sent. *)
Lemma decode_stored init fields :
  NoDup (foldName <$> fields.*1) -> (∀ t f, f ∈ present fields -> decode t (jsonb f.2) = decode t f.2) ->
  decode_field decode name init (put_all jsonb_cmp ((fun f => (f.1, jsonb f.2)) <$> present fields)) =
  match field_of name fields with Some j => decode init j | None => Some init end.
Proof.
  intros Hnd Hd. rewrite <- decode_present by done. apply decode_field_canonical; [apply _|apply jsonb_cmp_eq|exact Hd|by apply present_plain].
Qed.
End decoding.

Lemma decode_str s : match str_field s with Some j => decode_string "" j | None => Some EmptyString end = Some s.
Proof. unfold str_field. by destruct (String.eqb_spec s "") as [->|]. Qed.
Lemma mapM_strings l : mapM (decode_string "") (JString <$> l) = Some l.
Proof. induction l as [|x l IH]; [done|]. rewrite fmap_cons. cbn [mapM]. by rewrite IH. Qed.
Lemma decode_strs l : match strs_field l with Some j => decode_strings [] j | None => Some [] end = Some l.
Proof. destruct l as [|x l]; [done|]. unfold strs_field, decode_strings. by rewrite mapM_strings. Qed.

Lemma str_jsonb s j : str_field s = Some j -> jsonb j = j.
Proof. unfold str_field. destruct (String.eqb s ""); [done|]. by intros [= <-]. Qed.
Definition change_fields (c : AuditFieldChange) : list (string * option json) :=
  [("field", Some (JString (fc_Field c))); ("old", str_field (fc_Old c)); ("new", str_field (fc_New c))].
Lemma change_plain c : NoDup (foldName <$> (change_fields c).*1).
Proof. change (NoDup (foldName <$> ["field"; "old"; "new"]%string)). decide_now. Qed.
Lemma decode_change_stored c : decode_change (mkChange "" "" "") (jsonb (change_json c)) = Some c.
Proof.
  unfold change_json. fold (change_fields c). unfold jsonb, decode_change. cbn [canonical decode_object fc_Field fc_Old fc_New]. fold jsonb.
  rewrite !decode_stored by first [apply change_plain|intros; apply decode_string_canonical].
  change (field_of "field" (change_fields c)) with (Some (JString (fc_Field c))).
  change (field_of "old" (change_fields c)) with (str_field (fc_Old c)). change (field_of "new" (change_fields c)) with (str_field (fc_New c)).
  rewrite !decode_str. by destruct c.
Qed.
Lemma decode_change_sent c : decode_change (mkChange "" "" "") (change_json c) = Some c.
Proof.
  unfold change_json. fold (change_fields c). unfold decode_change. cbn [decode_object fc_Field fc_Old fc_New].
  rewrite !decode_present by apply change_plain.
  change (field_of "field" (change_fields c)) with (Some (JString (fc_Field c))).
  change (field_of "old" (change_fields c)) with (str_field (fc_Old c)). change (field_of "new" (change_fields c)) with (str_field (fc_New c)).
  rewrite !decode_str. by destruct c.
Qed.
Lemma mapM_changes (f : AuditFieldChange -> json) l :
  (∀ c, decode_change (mkChange "" "" "") (f c) = Some c) -> mapM (decode_change (mkChange "" "" "")) (f <$> l) = Some l.
Proof. intros Hf. induction l as [|c l IH]; [done|]. rewrite fmap_cons. cbn [mapM]. by rewrite Hf, IH. Qed.
Lemma decode_changes_sent l : match changes_field l with Some j => decode_changes [] j | None => Some [] end = Some l.
Proof. destruct l as [|c l]; [done|]. unfold changes_field, decode_changes. apply mapM_changes, decode_change_sent. Qed.

Lemma present_elem fields f : f ∈ present fields -> (f.1, Some f.2) ∈ fields.
Proof.
  unfold present. induction fields as [|[k [v|]] fields IH]; simpl; [by intros ?%not_elem_of_nil| |]; [|set_solver].
  intros [->|Hf]%elem_of_cons; [by left|right; by apply IH].
Qed.
Lemma strs_jsonb l j : strs_field l = Some j -> jsonb j = j.
Proof.
  destruct l as [|x l]; [done|]. intros [= <-]. unfold jsonb. simpl. do 2 f_equal. rewrite <- list_fmap_compose. by apply list_fmap_ext.
Qed.
(** The values of the fields are stored as they are sent, those of the changes
    up to the order of their keys. *)
Lemma metadata_values m k v : (k, Some v) ∈ metadata_fields m -> jsonb v = v ∨ changes_field (md_Changes m) = Some v.
Proof.
  unfold metadata_fields. rewrite !elem_of_cons, elem_of_nil. intros Hv.
  repeat (destruct Hv as [[= -> Hv]|Hv]; [first [left; by eapply str_jsonb|left; by eapply strs_jsonb|by right]|]). done.
Qed.
Lemma metadata_plain m : NoDup (foldName <$> (metadata_fields m).*1).
Proof. change (NoDup (foldName <$> (metadata_fields noMetadata).*1)). decide_now. Qed.
Lemma decode_changes_stored m t f :
  f ∈ present (metadata_fields m) -> decode_changes t (jsonb f.2) = decode_changes t f.2.
Proof.
  intros Hf%present_elem. apply metadata_values in Hf as [->|Hc]; [done|]. destruct (md_Changes m) as [|c l]; [done|].
  injection Hc as <-. set (cs := c :: l). change (mapM (decode_change (mkChange "" "" "")) (jsonb <$> (change_json <$> cs)) =
    mapM (decode_change (mkChange "" "" "")) (change_json <$> cs)).
  rewrite <- list_fmap_compose. rewrite !mapM_changes; [done|apply decode_change_sent|apply decode_change_stored].
Qed.
Lemma decode_metadata_stored m :
  decode_metadata (put_all jsonb_cmp ((fun f => (f.1, jsonb f.2)) <$> present (metadata_fields m))) = Some m.
Proof.
  set (fs := put_all _ _).
  assert (∀ name s, field_of name (metadata_fields m) = str_field s -> decode_field decode_string name "" fs = Some s) as str.
  { intros name s E. subst fs. rewrite decode_stored by first [apply metadata_plain|intros; apply decode_string_canonical]. by rewrite E, decode_str. }
  assert (∀ name l, field_of name (metadata_fields m) = strs_field l -> decode_field decode_strings name [] fs = Some l) as strs.
  { intros name l E. subst fs. rewrite decode_stored by first [apply metadata_plain|intros; apply decode_strings_canonical]. by rewrite E, decode_strs. }
  assert (decode_field decode_changes "changes" [] fs = Some (md_Changes m)) as changes.
  { subst fs. rewrite decode_stored by first [apply metadata_plain|intros; by eapply decode_changes_stored].
    change (field_of "changes" (metadata_fields m)) with (changes_field (md_Changes m)). apply decode_changes_sent. }
  unfold decode_metadata.
  rewrite (str "ip" (md_IP m)), (str "user_agent" (md_UserAgent m)), (str "session_id" (md_SessionID m)) by reflexivity. simpl.
  rewrite (str "failure_reason" (md_FailureReason m)), (str "logout_kind" (md_LogoutKind m)), (str "revoke_reason" (md_RevokeReason m)) by reflexivity.
  simpl. rewrite (str "login_method" (md_LoginMethod m)), (strs "roles" (md_Roles m)), (strs "roles_added" (md_RolesAdded m)) by reflexivity. simpl.
  rewrite (strs "roles_removed" (md_RolesRemoved m)), (str "target_email" (md_TargetEmail m)) by reflexivity. simpl.
  rewrite (str "target_display_name" (md_TargetDisplayName m)), (str "maint_title" (md_MaintTitle m)), changes by reflexivity. simpl. by destruct m.
Qed.

#[export] Instance AuditFieldChange_eq_dec : EqDecision AuditFieldChange. Proof. solve_decision. Defined.
#[export] Instance AuditMetadata_eq_dec : EqDecision AuditMetadata. Proof. solve_decision. Defined.
(** Metadata that hold nothing read back as none. *)
Definition readback (m : option AuditMetadata) : option AuditMetadata := if decide (m = Some noMetadata) then None else m.
Lemma metadata_roundtrip m : metadataFromJSON (jsonb (metadataToJSON m)) = readback m.
Proof.
  destruct m as [m|]; [|done]. pose proof (decode_metadata_stored m) as Hd. unfold readback, metadataToJSON, jsonb. cbn [canonical]. fold jsonb.
  set (fs := put_all _ _) in *. destruct fs as [|f l] eqn:E; simpl.
  - injection Hd as <-. by rewrite decide_True.
  - rewrite Hd. rewrite decide_False; [done|]. intros [= ->]. discriminate E.
Qed.

(** ** Categories and counts *)

(** The two tables of categories agree. *)
Lemma categories_agree category action :
  action ∈ AuditCategoryAction category ↔ AuditActionCategory action = Some category.
Proof.
  assert (Forall (fun '(c, actions) => Forall (fun a => AuditActionCategory a = Some c) actions) auditCategoriesAction) as H1 by decide_now.
  assert (Forall (fun '(a, c) => a ∈ AuditCategoryAction c) auditActionCategories) as H2 by decide_now. split.
  - unfold AuditCategoryAction. destruct (go_lookup auditCategoriesAction category) as [actions|] eqn:E; [|set_solver]. intros Ha.
    rewrite Forall_forall in H1. apply go_lookup_in in E. apply H1 in E. simpl in E. rewrite Forall_forall in E. by apply E.
  - intros E%go_lookup_in. rewrite Forall_forall in H2. apply (H2 _ E).
Qed.

(** The sum of the counts of the actions a condition holds of. *)
Definition tally (p : string -> bool) (l : list (string * Z)) : Z := foldr (fun c acc => (if p c.1 then c.2 else 0) + acc) 0 l.
Definition in_category (category action : string) : bool :=
  match AuditActionCategory action with Some c => String.eqb c category | None => false end.
Lemma facets_tally f l :
  foldl add_facet f l =
  mkFacets (fa_All f + tally (fun _ => true) l) (fa_SignIn f + tally (in_category AuditCategorySignIn) l)
    (fa_Users f + tally (in_category AuditCategoryUsers) l) (fa_Settings f + tally (in_category AuditCategorySettings) l)
    (fa_Maintenance f + tally (in_category AuditCategoryMaintenance) l).
Proof.
  revert f. induction l as [|[a n] l IH]; intros f; simpl; [rewrite !Z.add_0_r; by destruct f|]. rewrite IH. unfold add_facet, in_category.
  cbn [fst snd]. destruct (AuditActionCategory a) as [c|]; simpl; [|f_equal; lia].
  destruct (String.eqb_spec c AuditCategorySignIn) as [->|N1]; [simpl; f_equal; lia|].
  destruct (String.eqb_spec c AuditCategoryUsers) as [->|N2]; [simpl; f_equal; lia|].
  destruct (String.eqb_spec c AuditCategorySettings) as [->|N3]; [simpl; f_equal; lia|].
  destruct (String.eqb_spec c AuditCategoryMaintenance) as [->|N4]; simpl; f_equal; lia.
Qed.

Definition rows_of (p : string -> bool) (rows : list AuditLogRow) : Z := Z.of_nat (length (List.filter (fun r => p (al_Action r)) rows)).
Lemma tally_one p x n l :
  NoDup l -> tally p ((fun a => (a, if String.eqb x a then n else 0)) <$> l) = if bool_decide (x ∈ l) && p x then n else 0.
Proof.
  induction l as [|a l IH]; intros Hnd; [done|]. apply NoDup_cons in Hnd as [Ha Hnd]. rewrite fmap_cons. simpl. rewrite IH by done.
  destruct (String.eqb_spec x a) as [->|Hne].
  - rewrite (bool_decide_eq_false_2 (a ∈ l)), (bool_decide_eq_true_2 (a ∈ a :: l)) by set_solver. simpl. destruct (p a); lia.
  - rewrite (bool_decide_ext (x ∈ a :: l) (x ∈ l)) by set_solver. destruct (p a), (_ && _); lia.
Qed.
Lemma tally_add p (f g : string -> Z) l : tally p ((fun a => (a, f a + g a)) <$> l) = tally p ((fun a => (a, f a)) <$> l) + tally p ((fun a => (a, g a)) <$> l).
Proof. induction l as [|a l IH]; [done|]. rewrite !fmap_cons. simpl. rewrite IH. destruct (p a); lia. Qed.
(** Every row is counted once. *)
Lemma tally_counts p rows actions :
  NoDup actions -> (∀ r, r ∈ rows -> al_Action r ∈ actions) -> tally p (count_action rows <$> actions) = rows_of p rows.
Proof.
  intros Hnd. unfold count_action, rows_of. induction rows as [|r rows IH]; intros Hin; simpl.
  - clear Hin. induction actions as [|a l IH]; [done|]. rewrite fmap_cons. simpl. apply NoDup_cons in Hnd as [_ Hnd].
    rewrite IH by done. by destruct (p a).
  - transitivity (tally p ((fun a => (a, (if String.eqb (al_Action r) a then 1 else 0) +
      Z.of_nat (length (List.filter (fun r => String.eqb (al_Action r) a) rows)))) <$> actions)).
    + f_equal. apply list_fmap_ext. intros i a _. simpl. destruct (String.eqb (al_Action r) a); simpl; f_equal; lia.
    + rewrite tally_add, tally_one, bool_decide_eq_true_2 by (done || apply Hin; set_solver).
      unfold count_action in IH. rewrite IH by set_solver. simpl. destruct (p (al_Action r)); simpl; lia.
Qed.

(** ** Reading *)

Section reading.
Context `{Env}.

Lemma list_page_Ok {R E} (table : DB -> list R) where_ cmp (from : R -> E) limit offset ctx w page total w' :
  list_page table where_ cmp from limit offset ctx w = (Ok (page, total), w') ->
  let rows := List.filter where_ (table (w_db w)) in
  0 <= limit ∧ 0 <= offset ∧ total = Z.of_nat (length rows) ∧
  page = from <$> take (Z.to_nat limit) (drop (Z.to_nat offset) (sort_by cmp rows)) ∧ w_db w' = w_db w.
Proof.
  unfold list_page. intros (t & w1 & (-> & Hdb & _)%query_Ok & E1)%bind_Ok. apply bind_Ok in E1 as (u & w2 & Hcap & E2).
  destruct (Z.ltb_spec limit 0); [done|]. injection Hcap as _ <-. apply bind_Ok in E2 as (p & w3 & (db' & Hq & ->)%sql_Ok & Hret).
  destruct (Z.ltb_spec offset 0); [done|]. injection Hq as <- <-. injection Hret as <- <- <-. rewrite Hdb. simpl. by rewrite ?Hdb.
Qed.

Lemma list_page_panic {R E} (table : DB -> list R) where_ cmp (from : R -> E) limit offset ctx w s w' :
  list_page table where_ cmp from limit offset ctx w = (Panic s, w') -> limit < 0.
Proof.
  unfold list_page. intros [E1|(t & w1 & _ & E1)]%bind_Panic; [unfold query, sql in E1; by destruct (env_fault _)|].
  apply bind_Panic in E1 as [E1|(u & w2 & _ & E1)]; [destruct (Z.ltb_spec limit 0); done|].
  apply bind_Panic in E1 as [E1|(p & w3 & _ & E1)]; [|done]. unfold sql in E1. destruct (env_fault _); [done|]. by destruct (offset <? 0).
Qed.

(** The rows a filter shows, and those of its window whatever their action. *)
Definition shown (f : AuditFilter) (db : DB) : list AuditLogRow := List.filter (filterToWhereExp (Some f)) (audit_log db).
Definition window (f : AuditFilter) (db : DB) : list AuditLogRow := shown (f <| af_Actions := [] |>) db.
Definition filter_of (cmd : GetAuditLogsCmd) : AuditFilter := default (mkAuditFilter [] None None None) (gl_Filter cmd).

(** A page of the log.  A window that ends before it starts is refused;
    otherwise the page holds its part of the entries the filter shows, latest
    first, with their number; and the facets count, whichever category is
    selected, the entries of the window by category, and all of them. *)
Theorem GetLogs_correct cmd ctx w :
  let '(r, w') := GetLogs cmd ctx w in
  let f := filter_of cmd in
  w_db w' = w_db w ∧
  (backwards f = true -> ∃ e, r = Err e ∧ errors_Is e ErrValidation = true ∧ w' = w) ∧
  match r with
  | Ok page =>
      let all := window f (w_db w) in
      let facet c := rows_of (in_category c) all in
      lp_Total page = Z.of_nat (length (shown f (w_db w))) ∧
      lp_Logs page = fromDBEntry <$> take (Z.to_nat (gl_Limit cmd)) (drop (Z.to_nat (gl_Offset cmd)) (sort_by latest_first (shown f (w_db w)))) ∧
      lp_Facets page = mkFacets (Z.of_nat (length all)) (facet AuditCategorySignIn) (facet AuditCategoryUsers) (facet AuditCategorySettings)
                         (facet AuditCategoryMaintenance)
  | Err _ => True
  | Panic _ => gl_Limit cmd < 0
  end.
Proof.
  destruct (GetLogs cmd ctx w) as [r w'] eqn:E. unfold GetLogs in E. fold (filter_of cmd) in E. set (f := filter_of cmd) in *. cbv zeta.
  split. { eapply reads_run; [|exact E]. unfold GetLogs, store_GetLogs, list_page, CountByAction. reads_solve. }
  split. { intros Hb. rewrite Hb in E. injection E as <- <-. eexists. split_and!; reflexivity. }
  destruct r as [page|e|s]; [|done|].
  - run_all. destruct a0 as [logs total]. unfold store_GetLogs in *.
    match goal with Hl : list_page _ _ _ _ _ _ _ _ = _ |- _ => apply list_page_Ok in Hl as (_ & _ & -> & -> & Hdb) end.
    match goal with Hq : CountByAction _ _ _ = _ |- _ => apply query_Ok in Hq as (-> & Hdb' & _) end. simpl in *.
    split_and!; [done|done|]. rewrite Hdb. unfold facetsFromActionCounts. rewrite facets_tally. simpl.
    fold (window f (w_db w)). rewrite !tally_counts; try apply NoDup_uniq; try (intros r Hr; apply elem_of_uniq; by apply list_elem_of_fmap_2).
    unfold rows_of at 1. by rewrite filter_all.
  - apply bind_Panic in E as [E|(u & w1 & _ & E)]; [by destruct (backwards f)|].
    apply bind_Panic in E as [E|(l & w2 & _ & E)]; [|apply bind_Panic in E as [E|(c & w3 & _ & E)]; [|done]].
    + destruct (Z.ltb_spec (gl_Limit cmd) 0) as [?|?]; [done|exfalso]. unfold wrap_err, store_GetLogs in E.
      destruct (list_page _ _ _ _ _ _ _ _) as [[| |s'] w2] eqn:El; [done..|]. apply list_page_panic in El. simpl in El. lia.
    + unfold wrap_err, CountByAction, query, sql in E. by destruct (env_fault _).
Qed.
End reading.

(** ** From the outbox to the log *)

#[export] Instance sweep_log : Sweepable AuditLogRow UUID := {|
  sw_table := audit_log; sw_put l db := db <| audit_log := l |>; sw_key := al_ID; sw_order := oldest_first |}.
#[export] Instance sweep_log_laws : SweepableLaws AuditLogRow UUID.
Proof. split; [done|by intros []|done]. Qed.

Lemma render_event id now action p : render id now action = Ok p -> ap_EventID p = id.
Proof.
  unfold render. rewrite fillPayload_routed.
  destruct action; cbn [routed fillSignInPayload fillUsersPayload fillSettingsPayload fillIntegrationPayload fillCatalogPayload fillMaintPayload];
    try (destruct actor as [a|]; [|done]); intros [= <-]; try reflexivity; repeat case_match; reflexivity.
Qed.

Section trail.
Context `{Env} `{Goque}.

(** The world with what was published to the outbox, what a delivery has
    reported written, and the times pruning went back to. *)
Record Trail := mkTrail { tr_world : World; tr_published : list AuditPayload; tr_written : list AuditPayload; tr_cutoffs : list Time }.
Definition published (action : AuditAction) (w : World) (r : outcome unit) : list AuditPayload :=
  match r, render (env_uuid (w_step w) 0) (env_now (w_step w)) action with
  | Ok _, Ok p => [p]
  | _, _ => []
  end.
Definition cutoff_of (retention : Duration) (w : World) : Time := Time_Add (env_now (w_step w)) (wrap64 (- retention)).

(** Actions are published; what was published is delivered, any number of times
    and in any order; the log is pruned; and whatever else is served in between
    does not write to it. *)
Inductive trail_step : Trail -> Trail -> Prop :=
  | trail_publish action ctx w r w' pub wr cs : Publish action ctx w = (r, w') ->
      trail_step (mkTrail w pub wr cs) (mkTrail w' (published action w r ++ pub) wr cs)
  | trail_deliver p ctx w r w' pub wr cs : p ∈ pub -> audit_ProcessTask p ctx w = (r, w') ->
      trail_step (mkTrail w pub wr cs) (mkTrail w' pub (match r with Ok _ => [p] | _ => [] end ++ wr) cs)
  | trail_prune retention limit ctx w r w' pub wr cs : audit_Prune retention limit ctx w = (r, w') ->
      trail_step (mkTrail w pub wr cs) (mkTrail w' pub wr (cutoff_of retention w :: cs))
  | trail_other w w' pub wr cs : audit_log (w_db w') = audit_log (w_db w) -> (w_step w <= w_step w')%nat ->
      trail_step (mkTrail w pub wr cs) (mkTrail w' pub wr cs).

(** The row of a payload. *)
Definition row_of (p : AuditPayload) (row : AuditLogRow) : Prop := row = toDBEntry (al_ID row) (ToAuditEntry p).
Definition too_old (p : AuditPayload) (cutoff : Time) : Prop := pg_ts (ap_OccurredAt p) < pg_ts cutoff.
Record trail_ok (t : Trail) : Prop := {
  to_events : NoDup (ap_EventID <$> tr_published t);
  to_past : ∀ p, p ∈ tr_published t -> ∃ n, (n < w_step (tr_world t))%nat ∧ ap_EventID p = env_uuid n 0;
  to_written : ∀ p, p ∈ tr_written t -> p ∈ tr_published t;
  to_ids : NoDup (al_ID <$> audit_log (w_db (tr_world t)));
  to_once : NoDup (al_EventID <$> audit_log (w_db (tr_world t)));
  to_rows : ∀ row, row ∈ audit_log (w_db (tr_world t)) -> ∃ p, p ∈ tr_published t ∧ row_of p row;
  to_kept : ∀ p, p ∈ tr_written t -> (∃ row, row ∈ audit_log (w_db (tr_world t)) ∧ row_of p row) ∨ ∃ c, c ∈ tr_cutoffs t ∧ too_old p c }.

Context (uuid_inj : ∀ m k, env_uuid m 0 = env_uuid k 0 -> m = k) (uuid_some : ∀ m, env_uuid m 0 ≠ uuid_Nil).

Lemma row_event t p row : trail_ok t -> p ∈ tr_published t -> row_of p row -> al_EventID row = Some (ap_EventID p).
Proof.
  intros Ht Hp ->. simpl. unfold eventIDToDB. destruct (to_past _ Ht p Hp) as (n & _ & ->). by rewrite (proj2 (N.eqb_neq _ _) (uuid_some n)).
Qed.
Lemma same_payload t p p' : trail_ok t -> p ∈ tr_published t -> p' ∈ tr_published t -> ap_EventID p = ap_EventID p' -> p = p'.
Proof. intros Ht Hp Hp' E. by apply (NoDup_fmap_2_elem ap_EventID (tr_published t)); first apply Ht. Qed.

(** Time passes and the log stays. *)
Lemma trail_later w w' pub wr cs :
  audit_log (w_db w') = audit_log (w_db w) -> (w_step w <= w_step w')%nat -> trail_ok (mkTrail w pub wr cs) -> trail_ok (mkTrail w' pub wr cs).
Proof.
  intros Hlog Hs [H1 H2 H3 H4 H5 H6 H7]. split; simpl in *; rewrite ?Hlog; try done.
  intros p Hp. destruct (H2 p Hp) as (n & ? & ?). exists n. split; [lia|done].
Qed.
Lemma Publish_log action ctx w r w' :
  Publish action ctx w = (r, w') -> audit_log (w_db w') = audit_log (w_db w) ∧ (w_step w < w_step w')%nat.
Proof.
  assert (∀ r1 w1, wrap_err (Errorf "render audit action") (Render action) ctx w = (r1, w1) -> w1 = tick w) as Htick.
  { intros r1 w1 E. unfold wrap_err, Render in E. destruct (render _ _ _); by injection E as _ <-. }
  set (P := fun (_ : nat) (db : DB) => audit_log db = audit_log (w_db w)).
  assert (∀ p, keepsN P (task ← wrap_err (Errorf "build audit task") (goque_NewTask ProcessorTaskAuditWrite (PayloadAuditWrite p)
    (uuid_String (ap_EventID p))); wrap_err (Errorf "enqueue audit task") (AddTaskToQueue task))) as Hrest.
  { intros p. apply keepsN_bind; [by apply keepsN_wrap_err, keepsN_tick; [|intros; simpl; split; [done|lia]]|]. intros t.
    apply keepsN_wrap_err, keepsN_sql; [done|]. intros n c db u db' HP Hf. destruct (goque_add _ _); [by injection Hf as <- <-|done..]. }
  intros [(p & w1 & ->%Htick & E)|(_ & r0 & ->%Htick & _)]%bind_inv; [|simpl; split; [done|lia]].
  destruct (Hrest p _ _ _ _ E eq_refl) as [Hs Hl]. simpl in *. split; [exact Hl|lia].
Qed.

Lemma step_publish action ctx w r w' pub wr cs :
  Publish action ctx w = (r, w') -> trail_ok (mkTrail w pub wr cs) -> trail_ok (mkTrail w' (published action w r ++ pub) wr cs).
Proof.
  intros [Hlog Hs]%Publish_log Ht. unfold published. destruct r as [u|e|s]; try (simpl; eapply trail_later; [done|lia|done]).
  destruct (render _ _ _) as [p|e|s] eqn:Er; try (simpl; eapply trail_later; [done|lia|done]). apply render_event in Er.
  destruct (trail_later w w' pub wr cs) as [H1 H2 H3 H4 H5 H6 H7]; [done|lia|done|]. split; simpl in *; try done.
  - constructor; [|done]. rewrite Er. intros (p' & E & Hp')%list_elem_of_fmap. destruct (to_past _ Ht p' Hp') as (n & Hn & Hid).
    simpl in Hn. rewrite <- E in Hid. apply uuid_inj in Hid. lia.
  - intros q [->|Hq]%elem_of_cons; [|by apply H2]. exists (w_step w). split; [lia|done].
  - intros q Hq. right. by apply H3.
  - intros row Hrow. destruct (H6 row Hrow) as (q & Hq & ?). exists q. split; [by right|done].
Qed.

Lemma audit_ProcessTask_inv p ctx w r w' :
  audit_ProcessTask p ctx w = (r, w') ->
  (w_step w <= w_step w')%nat ∧
  let row := toDBEntry (env_uuid (w_step w) 0) (ToAuditEntry p) in
  (audit_log (w_db w') = audit_log (w_db w) ∧ (r = Ok tt -> ∃ x, x ∈ audit_log (w_db w) ∧ same_event row x = true)) ∨
  (audit_log (w_db w') = audit_log (w_db w) ++ [row] ∧ (∀ x, x ∈ audit_log (w_db w) -> al_ID x ≠ al_ID row ∧ same_event row x = false)).
Proof.
  unfold audit_ProcessTask, audit_AddLog, AddLog. intros E. unfold in_tx, mbind, M_bind, reject_if, raise, mret, M_ret, wrap_err, sql in E.
  destruct (ctx_tx ctx); [injection E as <- <-; split; [done|left; by split]|].
  destruct (env_fault (w_step w)); [injection E as <- <-; simpl; split; [lia|left; by split]|]. simpl in E.
  destruct (existsb _ (audit_log (w_db w))) eqn:Ex.
  - injection E as <- <-. simpl. split; [lia|]. left. split; [done|]. intros _. apply existsb_exists in Ex as (x & Hx & Hsame).
    exists x. split; [by apply list_elem_of_In|done].
  - unfold require in E. destruct (negb _) eqn:Ei; injection E as <- <-; simpl; (split; [lia|]); [right|left; by split].
    split; [done|]. intros x Hx%list_elem_of_In. split.
    + intros Eid. apply negb_true_iff in Ei. rewrite <- not_true_iff_false in Ei. apply Ei, existsb_exists. exists x. split; [done|]. by apply N.eqb_eq.
    + rewrite <- not_true_iff_false in Ex |- *. intros Hs. apply Ex, existsb_exists. by exists x.
Qed.

Lemma step_deliver p ctx w r w' pub wr cs :
  p ∈ pub -> audit_ProcessTask p ctx w = (r, w') -> trail_ok (mkTrail w pub wr cs) ->
  trail_ok (mkTrail w' pub (match r with Ok _ => [p] | _ => [] end ++ wr) cs).
Proof.
  intros Hp (Hs & Hcase)%audit_ProcessTask_inv Ht. set (row := toDBEntry (env_uuid (w_step w) 0) (ToAuditEntry p)) in *.
  assert (row_of p row) as Hof by done. clearbody row. assert (al_EventID row = Some (ap_EventID p)) as Hev by by eapply row_event.
  assert (trail_ok (mkTrail w' pub wr cs) ∧ (r = Ok tt -> ∃ x, x ∈ audit_log (w_db w') ∧ row_of p x)) as [[H1 H2 H3 H4 H5 H6 H7] Hnew].
  { destruct Hcase as [[Hlog Hin]|[Hlog Hfresh]].
    - split; [by eapply trail_later|]. intros (x & Hx & Hsame)%Hin. exists x. rewrite Hlog. split; [done|].
      destruct (to_rows _ Ht x Hx) as (q & Hq & Hrow). unfold same_event in Hsame. rewrite Hev, (row_event _ q x Ht Hq Hrow) in Hsame.
      by rewrite (same_payload _ p q Ht Hp Hq (proj1 (N.eqb_eq _ _) Hsame)).
    - destruct Ht as [H1 H2 H3 H4 H5 H6 H7]. split; [|intros _; exists row; rewrite Hlog; split; [set_solver|done]]. split; simpl in *; rewrite ?Hlog; try done.
      + intros q Hq. destruct (H2 q Hq) as (n & ? & ?). exists n. split; [lia|done].
      + rewrite fmap_app. apply NoDup_app. split_and!; [done| |apply NoDup_singleton]. intros i (x & -> & Hx)%list_elem_of_fmap Hi.
        apply list_elem_of_singleton in Hi. by destruct (Hfresh x Hx).
      + rewrite fmap_app. apply NoDup_app. split_and!; [done| |apply NoDup_singleton]. intros i (x & -> & Hx)%list_elem_of_fmap Hi.
        apply list_elem_of_singleton in Hi. destruct (Hfresh x Hx) as [_ Hn]. unfold same_event in Hn. rewrite Hi, Hev, N.eqb_refl in Hn. done.
      + intros x [Hx|Hx]%elem_of_app; [by apply H6|]. apply list_elem_of_singleton in Hx as ->. by exists p.
      + intros q Hq. destruct (H7 q Hq) as [(x & Hx & ?)|?]; [left; exists x; split; [set_solver|done]|by right]. }
  split; try done.
  - intros q [Hq|Hq]%elem_of_app; [|by apply H3]. destruct r; set_solver.
  - intros q [Hq|Hq]%elem_of_app; [|by apply H7]. destruct r as [[]|e|s]; [|set_solver..]. apply list_elem_of_singleton in Hq as ->. left. by apply Hnew.
Qed.

Lemma audit_Prune_inv retention limit ctx w r w' :
  audit_Prune retention limit ctx w = (r, w') -> NoDup (al_ID <$> audit_log (w_db w)) ->
  let limit := if limit <=? 0 then defaultBatchLimit else limit in
  (w_step w <= w_step w' <= w_step w + 101)%nat ∧ w_db w' = (w_db w) <| audit_log := audit_log (w_db w') |> ∧
  pruned (older_than (cutoff_of retention w)) 100 limit r (audit_log (w_db w)) (audit_log (w_db w')).
Proof.
  intros Hrun Hnd lim. unfold audit_Prune in Hrun. fold lim in Hrun.
  change (batches maxPruneBatches (sweep (older_than (cutoff_of retention w)) lim) lim ctx (tick w) = (r, w')) in Hrun.
  apply batches_sweep in Hrun as (Hs & Hp & Hdb); [|apply _|done]. simpl in *. unfold maxPruneBatches in Hs. split_and!; [lia|lia|done|done].
Qed.

Lemma step_prune retention limit ctx w r w' pub wr cs :
  audit_Prune retention limit ctx w = (r, w') -> trail_ok (mkTrail w pub wr cs) -> trail_ok (mkTrail w' pub wr (cutoff_of retention w :: cs)).
Proof.
  intros Hrun Ht. destruct (audit_Prune_inv _ _ _ _ _ _ Hrun (to_ids _ Ht)) as ([Hs _] & _ & [Hsub Hgone _]).
  destruct Ht as [H1 H2 H3 H4 H5 H6 H7]. split; simpl in *; try done.
  - intros p Hp. destruct (H2 p Hp) as (n & ? & ?). exists n. split; [lia|done].
  - eapply sublist_NoDup; [exact H4|by apply fmap_sublist].
  - eapply sublist_NoDup; [exact H5|by apply fmap_sublist].
  - intros row Hrow. apply H6. by eapply elem_of_sublist.
  - intros p Hp. destruct (H7 p Hp) as [(row & Hrow & Hof)|(c & ? & ?)]; [|right; exists c; split; [by right|done]].
    destruct (decide (Exists (fun x => al_ID x = al_ID row) (audit_log (w_db w')))) as [(x & Hx & Hid)%Exists_exists|Hn].
    + left. exists x. split; [done|]. assert (x ∈ audit_log (w_db w)) as Hx' by by eapply elem_of_sublist.
      by rewrite (NoDup_fmap_2_elem _ _ _ _ H4 Hx' Hrow Hid).
    + right. exists (cutoff_of retention w). split; [by left|]. assert (row ∉ audit_log (w_db w')) as Hout.
      { intros Hin. apply Hn, Exists_exists. by exists row. }
      specialize (Hgone row Hrow Hout). unfold older_than in Hgone. rewrite Hof in Hgone. by apply Z.ltb_lt in Hgone.
Qed.

Lemma trail_reached w0 t : audit_log (w_db w0) = [] -> rtc trail_step (mkTrail w0 [] [] []) t -> trail_ok t.
Proof.
  intros Hw Hr. revert t Hr. apply (rtc_ind_r trail_ok).
  - split; simpl; rewrite ?Hw; try apply NoDup_nil_2; set_solver.
  - intros t t' _ [action ctx w r w' pub wr cs E|p ctx w r w' pub wr cs Hp E|retention limit ctx w r w' pub wr cs E|w w' pub wr cs Hl Hs] Ht;
      [by eapply step_publish|by eapply step_deliver|by eapply step_prune|by eapply trail_later].
Qed.

(** What reads back of a payload. *)
Definition entry_of (id : UUID) (p : AuditPayload) : AuditEntry :=
  mkEntry id (ap_EventID p) (ap_Action p) (ap_Actor p) (ap_ActorID p) (ap_ActorDisplayName p) (ap_EntityID p) (ap_EntityType p) (ap_Details p)
    (readback (ap_Metadata p)) (pg_ts (ap_OccurredAt p)).
Lemma row_reads t p row : trail_ok t -> p ∈ tr_published t -> row_of p row -> fromDBEntry row = entry_of (al_ID row) p.
Proof.
  intros Ht Hp Hof. pose proof (row_event _ _ _ Ht Hp Hof) as Hev. unfold fromDBEntry. rewrite Hev, Hof. unfold entry_of. simpl.
  by rewrite metadata_roundtrip.
Qed.

(** C24. The log keeps every event once.  However publishing, deliveries that
    fail, come late, out of order or again and again, prunings and other requests
    follow each other: no event has two entries; every entry reads back as what
    was published under its event, its time rounded to microseconds and empty
    metadata left out; and an event whose delivery has once reported success has
    its entry, unless a pruning since went back to a time after it. *)
Theorem log_keeps_events_once w0 w pub wr cs :
  audit_log (w_db w0) = [] -> rtc trail_step (mkTrail w0 [] [] []) (mkTrail w pub wr cs) ->
  let log := audit_log (w_db w) in
  let entry_for p row := al_EventID row = Some (ap_EventID p) ∧ fromDBEntry row = entry_of (al_ID row) p in
  NoDup (al_EventID <$> log) ∧
  (∀ row, row ∈ log -> ∃ p, p ∈ pub ∧ entry_for p row) ∧
  (∀ p, p ∈ wr -> p ∈ pub ∧ ((∃ row, row ∈ log ∧ entry_for p row) ∨ ∃ c, c ∈ cs ∧ too_old p c)).
Proof.
  intros Hw Hr log entry_for. pose proof (trail_reached _ _ Hw Hr) as Ht. split; [apply (to_once _ Ht)|]. split.
  - intros row Hrow. destruct (to_rows _ Ht row Hrow) as (p & Hp & Hof). exists p.
    split; [done|split; [by eapply row_event|by eapply row_reads]].
  - intros p Hp. pose proof (to_written _ Ht p Hp) as Hpub. split; [exact Hpub|].
    destruct (to_kept _ Ht p Hp) as [(row & Hrow & Hof)|Hold]; [left|by right]. exists row.
    split; [done|split; [by eapply row_event|by eapply row_reads]].
Qed.
End trail.

(** An action is published and its task delivered twice. *)
Definition ex_action : AuditAction := LogoutSuccess SystemUser "s1".
Definition ex_published : World := snd (@Publish calm_env list_goque ex_action background ex_world).
Definition ex_payload : AuditPayload := match @published calm_env ex_action ex_world (Ok tt) with p :: _ => p | [] => mkAuditPayload 0 0 "" "" "" "" "" "" [] None end.
Definition ex_delivered (w : World) : World := snd (@audit_ProcessTask calm_env ex_payload background w).
Lemma log_keeps_events_once_witness :
  let w := ex_delivered (ex_delivered ex_published) in
  rtc (@trail_step calm_env list_goque) (mkTrail ex_world [] [] []) (mkTrail w [ex_payload] [ex_payload; ex_payload] []) ∧
  length (audit_log (w_db w)) = 1%nat ∧ NoDup (al_EventID <$> audit_log (w_db w)).
Proof.
  cbv zeta. assert (rtc (@trail_step calm_env list_goque) (mkTrail ex_world [] [] [])
    (mkTrail (ex_delivered (ex_delivered ex_published)) [ex_payload] [ex_payload; ex_payload] [])) as Hr.
  { eapply rtc_l; [apply (trail_publish ex_action background ex_world (Ok tt) ex_published [] [] []); vm_compute; reflexivity|].
    eapply rtc_l; [apply (trail_deliver ex_payload background ex_published (Ok tt) (ex_delivered ex_published) [ex_payload] [] []);
      [by left|vm_compute; reflexivity]|].
    eapply rtc_l; [apply (trail_deliver ex_payload background _ (Ok tt) (ex_delivered (ex_delivered ex_published)) [ex_payload] [ex_payload] []);
      [by left|vm_compute; reflexivity]|]. apply rtc_refl. }
  split; [exact Hr|]. split; [vm_compute; reflexivity|].
  apply (@log_keeps_events_once calm_env list_goque calm_uuid_inj (fun m => ltac:(pose proof (calm_uuid_big m); change uuid_Nil with 0%N; lia))
    ex_world _ _ _ _ eq_refl Hr).
Defined.
