(* ===== verification/Heartbeat.v ===== *)
(** * The license heartbeat (internal/services/license/refresh.go and license.go,
      internal/gateways/license, internal/storages/licensecache)

    Once a tick the instance reports its seats and its last activity to the
    license server and caches the license it is granted.  The server is a
    parameter: what it answers to a request at a moment. *)
From Stdlib Require Import ZArith Lia Ascii String.
From stdpp Require Import base sorting sets strings numbers list.
From S2P Require Import Prelude Go Entity Conflict AuditTrail Schema Json Logic Dbtx Interleave MaintStore UserStore InvitationStore License.
From S2P Require Import Fixtures AuditLog.
Open Scope Z_scope.

(** ** storages/licensecache *)

Definition ErrLicenseCacheEmpty := ESentinel "license cache is empty".
Definition license_toDB (l : License) : LicenseCacheRow := mkLicenseCacheRow (lic_Status l) (SeatsPurchased l) (pg_ts <$> lic_FetchedAt l).
Definition license_fromDB (r : LicenseCacheRow) : License := mkLicense (lc_Status r) (lc_SeatsPurchased r) (lc_FetchedAt r).

Section store.
Context `{Env}.
Definition licensecache_Get : M License :=
  rows ← query license_cache;
  match rows with
  | row :: _ => mret (license_fromDB row)
  | [] => raise ErrLicenseCacheEmpty
  end.
(** INSERT ... ON CONFLICT (id) DO UPDATE of every column, in a table whose key
    has one value. *)
Definition licensecache_Upsert (l : License) : M unit :=
  sql (fun _ db => Ok (tt, db <| license_cache := match license_cache db with
                                                   | [] => [license_toDB l]
                                                   | rows => (fun _ => license_toDB l) <$> rows
                                                   end |>)).
End store.

(** ** gateways/license *)

Record HeartbeatReport := mkReport { hr_SeatsUsed : SeatUsage; hr_LastActivityAt : option Time; hr_Version : string }.
Record heartbeatRequest := mkHeartbeat {
  hb_Admin : SeatBucket; hb_Reviewer : SeatBucket; hb_Editor : SeatBucket; hb_Guest : SeatBucket; hb_SeatsUsed : Z;
  hb_LastActivityAt : option Time; hb_Version : string }.
Definition toHeartbeatRequest (report : HeartbeatReport) : heartbeatRequest :=
  let u := hr_SeatsUsed report in
  mkHeartbeat (su_Admin u) (su_Reviewer u) (su_Editor u) (su_Guest u) (SeatsUsed u) (hr_LastActivityAt report) (hr_Version report).

(** Building the request for the configured address may fail; posting it fails,
    or gives a status and the JSON at the start of the body. *)
Class Console := {
  console_NewRequest : heartbeatRequest -> option error;
  console_Do : nat -> heartbeatRequest -> (Z * RawMessage) + error }.
Definition StatusOK : Z := 200.

(** [heartbeatResponse]: a field that is missing keeps its zero value. *)
Definition decode_response (j : json) : option License :=
  decode_object (fun _ fs =>
    status ← decode_field decode_string "status" EmptyString fs; seats ← decode_field decode_int "seats_purchased" 0 fs;
    Some (mkLicense status (Some seats) None)) (mkLicense "" (Some 0) None) j.
Definition answered (resp : (Z * RawMessage) + error) : License + error :=
  match resp with
  | inr err => inr (Errorf "send heartbeat" err)
  | inl (code, body) =>
      if negb (code =? StatusOK) then inr (EOther "heartbeat returned status")
      else match body with
           | RawText j => match decode_response j with Some l => inl l | None => inr (Errorf "decode heartbeat response" wrong_type) end
           | _ => inr (Errorf "decode heartbeat response" bad_json)
           end
  end.

Section heartbeat.
Context `{Env} `{Console}.

Definition license_Send (report : HeartbeatReport) : M License := fun _ w =>
  let req := toHeartbeatRequest report in
  match console_NewRequest req with
  | Some err => (Err (Errorf "build heartbeat request" err), w)
  | None => match answered (console_Do (w_step w) req) with
            | inl license => (Ok license, tick w)
            | inr err => (Err err, tick w)
            end
  end.

(** ** services/license *)

Definition Refresh (version : string) : M unit :=
  usage ← collectSeatUsage;
  lastActivity ← LastActivityAt;
  r ← attempt (license_Send (mkReport usage lastActivity version));
  match r with
  | inr _ => mret tt
  | inl license =>
      fetchedAt ← UTCNow;
      licensecache_Upsert (mkLicense (lic_Status license) (SeatsPurchased license) (Some fetchedAt))
  end.

(** What a miss of the cache in front of the row answers. *)
Definition License_load : M License :=
  r ← attempt licensecache_Get;
  match r with
  | inl license => mret license
  | inr _ => mret (mkLicense LicenseStatusActive None None)
  end.

(** ** What a tick does *)

(** The report of a database: the seats of its active users and of the
    invitations that stand, and its last maintenance activity. *)
Definition report_of (now : Time) (version : string) (db : DB) : HeartbeatReport :=
  let active := ur_Roles <$> List.filter (fun r => match ur_BlockedAt r with None => true | Some _ => false end) (users db) in
  let pending := iv_Roles <$> List.filter (fun r => is_pending r && (pg_ts now <=? iv_ExpiresAt r)) (user_invitations db) in
  let worked := List.filter (fun r => in_category AuditCategoryMaintenance (al_Action r)) (audit_log db) in
  mkReport (BucketSeats active pending)
    (match al_CreatedAt <$> worked with [] => None | t :: ts => Some (foldl Z.max t ts) end) version.
(** The server granted this license on that report: it answered 200, and its
    answer reads as the license. *)
Definition granted (n : nat) (report : HeartbeatReport) (l : License) : Prop :=
  console_NewRequest (toHeartbeatRequest report) = None ∧
  ∃ j, console_Do n (toHeartbeatRequest report) = inl (200, RawText j) ∧ decode_response j = Some l.

Lemma answered_inl resp l : answered resp = inl l ↔ ∃ j, resp = inl (200, RawText j) ∧ decode_response j = Some l.
Proof.
  unfold answered, StatusOK. split.
  - destruct resp as [[code [| |j]]|]; try destruct (Z.eqb_spec code 200) as [->|]; simpl; try done.
    destruct (decode_response j) as [l'|] eqn:E; [|done]. intros [= ->]. by exists j.
  - intros (j & -> & E). simpl. by rewrite E.
Qed.

Lemma existsb_category r : existsb (String.eqb (al_Action r)) (AuditCategoryAction AuditCategoryMaintenance) =
  in_category AuditCategoryMaintenance (al_Action r).
Proof.
  apply eq_true_iff_eq. rewrite existsb_exists. unfold in_category. split.
  - intros (a & Ha%list_elem_of_In & E%String.eqb_eq). subst a. apply categories_agree in Ha. by rewrite Ha, String.eqb_refl.
  - destruct (AuditActionCategory (al_Action r)) as [c|] eqn:Ec; [|done]. intros ->%String.eqb_eq. exists (al_Action r).
    split; [|apply String.eqb_refl]. by apply list_elem_of_In, categories_agree.
Qed.
Ltac failed_here := left; eexists; split; [done|split; [done|eapply fault_at; [eassumption|simpl; lia..]]].
Lemma collect_report {B} version (k : HeartbeatReport -> M B) ctx w r w' :
  (usage ← collectSeatUsage; last ← LastActivityAt; k (mkReport usage last version)) ctx w = (r, w') ->
  (∃ e, r = Err e ∧ w_db w' = w_db w ∧ faulted w w') ∨
  ∃ w2, w_db w2 = w_db w ∧ w_step w2 = (w_step w + 4)%nat ∧ k (report_of (env_now (S (w_step w))) version (w_db w)) ctx w2 = (r, w').
Proof.
  unfold collectSeatUsage, ListActiveRoles, ListPendingRoles, LastActivityAt, query, sql, UTCNow, mbind, M_bind, mret, M_ret.
  destruct (env_fault (w_step w)) eqn:F; [intros [= <- <-]; failed_here|]. simpl.
  destruct (env_fault (S (S (w_step w)))) eqn:F2; [intros [= <- <-]; failed_here|]. simpl.
  destruct (env_fault (S (S (S (w_step w))))) eqn:F3; [intros [= <- <-]; failed_here|]. simpl. intros E. right.
  eexists. split; [|split; [|unfold report_of; rewrite <- (filter_ext _ _ existsb_category); exact E]]; [done|simpl; lia].
Qed.

Lemma license_Send_inv report ctx w r w' :
  attempt (license_Send report) ctx w = (r, w') ->
  w_db w' = w_db w ∧ ((∃ e, r = Ok (inr e) ∧ ∀ l, ~ granted (w_step w) report l) ∨ ∃ l, r = Ok (inl l) ∧ granted (w_step w) report l).
Proof.
  unfold attempt, license_Send, granted. destruct (console_NewRequest _) as [e|].
  { intros [= <- <-]. split; [done|left]. eexists. split; [done|]. by intros l [? _]. }
  destruct (answered _) as [l|e] eqn:E; intros [= <- <-]; (split; [done|]).
  - right. apply answered_inl in E. by exists l.
  - left. exists e. split; [done|]. intros l [_ Hl%answered_inl]. congruence.
Qed.
Lemma Send_step report ctx w r w' :
  attempt (license_Send report) ctx w = (r, w') -> ∀ l, granted (w_step w) report l -> w_step w' = S (w_step w).
Proof. unfold attempt, license_Send. intros E l [Hn Ha%answered_inl]. rewrite Hn, Ha in E. by injection E as _ <-. Qed.
Lemma Upsert_inv l ctx w r w' :
  licensecache_Upsert l ctx w = (r, w') -> (length (license_cache (w_db w)) <= 1)%nat ->
  (∃ e, r = Err e ∧ w_db w' = w_db w ∧ faulted w w') ∨ (r = Ok tt ∧ w_db w' = (w_db w) <| license_cache := [license_toDB l] |>).
Proof.
  unfold licensecache_Upsert, sql. destruct (env_fault _) eqn:F; intros [= <- <-] Hlen; [failed_here|right; split; [done|]].
  simpl. by destruct (license_cache (w_db w)) as [|row [|]]; [..|simpl in Hlen; lia].
Qed.
Lemma License_load_row ctx w row :
  license_cache (w_db w) = [row] -> env_fault (w_step w) = None -> fst (License_load ctx w) = Ok (license_fromDB row).
Proof.
  intros Hrow Hf. unfold License_load, licensecache_Get, query, sql, attempt, mbind, M_bind. rewrite Hf. simpl. by rewrite Hrow.
Qed.

(** C29. A tick of the heartbeat.  The report is made of the tables as they are
    at the tick.  If the server does not answer, answers with another status or
    with what cannot be read, the tick succeeds and nothing changes, whatever was
    cached before; if it grants a license, the cache holds that license alone,
    with the time of the tick, and that is what the next read of it answers; an
    error changes nothing, and means that a statement of the tick on the
    instance's own database failed. *)
Theorem heartbeat_correct version ctx w :
  (length (license_cache (w_db w)) <= 1)%nat ->
  let '(r, w') := Refresh version ctx w in
  let report := report_of (env_now (S (w_step w))) version (w_db w) in
  let n := (w_step w + 4)%nat in
  match r with
  | Ok _ =>
      (w_db w' = w_db w ∧ ∀ l, ~ granted n report l) ∨
      ∃ l, granted n report l ∧
        let row := license_toDB (mkLicense (lic_Status l) (SeatsPurchased l) (Some (env_now (S n)))) in
        w_db w' = (w_db w) <| license_cache := [row] |> ∧
        (env_fault (w_step w') = None -> fst (License_load ctx w') = Ok (license_fromDB row))
  | Err _ => w_db w' = w_db w ∧ faulted w w'
  | Panic _ => False
  end.
Proof.
  intros Hlen. destruct (Refresh version ctx w) as [r w'] eqn:E. cbv zeta.
  apply (collect_report version (fun report => r ← attempt (license_Send report); match r with
    | inr _ => mret tt
    | inl license => fetchedAt ← UTCNow; licensecache_Upsert (mkLicense (lic_Status license) (SeatsPurchased license) (Some fetchedAt))
    end)) in E as [(e & -> & Hdb)|(w2 & D2 & S2 & E)]; [done|]. set (report := report_of _ _ _) in *.
  unfold mbind, M_bind in E. destruct (attempt _ ctx w2) as [ra w3] eqn:Ea. pose proof (Send_step _ _ _ _ _ Ea) as S3.
  apply license_Send_inv in Ea as [D3 [(e & -> & Hn)|(l & -> & Hg)]]; rewrite S2 in *.
  - injection E as <- <-. left. split; [congruence|done].
  - simpl in E. rewrite (S3 l Hg) in E. set (row := mkLicense _ _ _) in E.
    apply Upsert_inv in E; [|simpl; by rewrite D3, D2]. simpl in E. rewrite D3, D2 in E. destruct E as [(e & -> & Hdb & k & f & Hk & Hf)|[-> Hdb]].
    { split; [done|]. exists k, f. split; [|done]. simpl in Hk. rewrite (S3 l Hg) in Hk. lia. }
    right. exists l. split; [done|]. split; [done|]. intros Hf. apply License_load_row; [|done]. by rewrite Hdb.
Qed.
End heartbeat.

(** ** Runs *)

Definition answers (j : json) : Console := {| console_NewRequest _ := None; console_Do _ _ := inl (StatusOK, RawText j) |}.
Definition ex_answer : json := JObject [("status"%string, JString LicenseStatusActive); ("seats_purchased"%string, JNumber "5")].

Lemma heartbeat_correct_witness :
  let '(r, w') := @Refresh calm_env (answers ex_answer) "v1" background ex_world in
  r = Ok tt ∧ lc_SeatsPurchased <$> license_cache (w_db w') = [Some 5] ∧
  fst (@License_load calm_env background w') = Ok (mkLicense LicenseStatusActive (Some 5) (Some (T0 + 5 * Millisecond))).
Proof.
  pose proof (@heartbeat_correct calm_env (answers ex_answer) "v1" background ex_world ltac:(vm_compute; lia)) as Ht.
  destruct (@Refresh calm_env (answers ex_answer) "v1" background ex_world) as [r w'] eqn:E.
  assert (r = Ok tt) as -> by (vm_compute in E; by injection E as <- _).
  destruct Ht as [[_ Hn]|(l & [_ Hl] & Hdb & Hload)]; [destruct (Hn (mkLicense LicenseStatusActive (Some 5) None)); split; [done|by exists ex_answer]|].
  destruct Hl as (j & Hj & Hl). injection Hj as <-. vm_compute in Hl. injection Hl as <-. split; [done|]. split; [by rewrite Hdb|]. rewrite Hload; vm_compute; reflexivity.
Defined.

(** An answer that names no seats is a license of none, and every grant of a
    seat is refused from then on. *)
Example empty_answer_closes :
  let '(r, w') := @Refresh calm_env (answers (JObject [])) "v1" background ex_world in
  r = Ok tt ∧
  match fst (@License_load calm_env background w') with
  | Ok l => Blocked (Some l) = false ∧
      match fst (exec (@seat_handle calm_env {| cached_license := fun _ => Some l |}) license_EnsureSeatAvailable (mkCtx (Some T0)) w') with
      | Err e => errors_Is e ErrSeatsLimitExceeded = true
      | _ => False
      end
  | _ => False
  end.
Proof. vm_compute. done. Qed.
