(* ===== verification/AuthSettings.v ===== *)
(** * Sign-in switches and the gates of a request (internal/services/authsettings,
      internal/storages/authsettings, internal/services/jwtverifier, internal/services/authz)

    Which built-in sign-in methods are on, whether an access token verifies, and
    whether one of its roles may do what is asked. *)
From Stdlib Require Import ZArith Lia Ascii String.
From stdpp Require Import base sorting sets strings numbers list.
From S2P Require Import Prelude Go Entity Conflict AuditTrail Schema Logic Dbtx Interleave MaintStore Fixtures Queue Sessions Auth.
Open Scope Z_scope.

(** ** entity/auth_setting.go *)

Record AuthMethodSetting := mkAuthSetting {
  ms_ID : UUID; ms_Method : string; ms_Enabled : bool; ms_UpdatedByUserID : option UUID; ms_CreatedAt : Time; ms_UpdatedAt : Time }.
#[export] Instance eta_AuthMethodSetting : Eta AuthMethodSetting := fun s =>
  mkAuthSetting (ms_ID s) (ms_Method s) (ms_Enabled s) (ms_UpdatedByUserID s) (ms_CreatedAt s) (ms_UpdatedAt s).
Definition AuthMethodName_IsValid (m : string) : bool := String.eqb m AuthMethodNameEmailOTP || String.eqb m AuthMethodNameEmailPassword.
Definition AllAuthMethodNames : list string := [AuthMethodNameEmailOTP; AuthMethodNameEmailPassword].
Record SetAuthMethodEnabledCmd := mkSetEnabled { se_Method : string; se_Enabled : bool; se_Actor : option User }.

Definition ErrAuthMethodNotFound := ESentinel "auth method not found".
Definition ErrAuthUnavailable := ESentinel "auth unavailable".

(** ** storages/authsettings *)

Definition setting_toDB (s : AuthMethodSetting) : AuthSettingsRow :=
  mkAuthSettingsRow (ms_ID s) (ms_Method s) (ms_Enabled s) (ms_CreatedAt s) (ms_UpdatedAt s) (ms_UpdatedByUserID s).
Definition setting_fromDB (r : AuthSettingsRow) : AuthMethodSetting :=
  mkAuthSetting (as_ID r) (as_Method r) (as_Enabled r) (as_UpdatedByUserID r) (as_CreatedAt r) (as_UpdatedAt r).

Section store.
Context `{Env} `{Collation}.

Definition GetByMethod (method : string) : M AuthMethodSetting :=
  r ← query (fun db => List.find (fun r => String.eqb (as_Method r) method) (auth_settings db));
  match r with
  | Some row => mret (setting_fromDB row)
  | None => raise (Errorf "method" ErrAuthMethodNotFound)
  end.
Definition method_order (a b : AuthSettingsRow) : comparison := pg_cmp (as_Method a) (as_Method b).
Definition settings_List : M (list AuthMethodSetting) :=
  query (fun db => setting_fromDB <$> sort_by method_order (auth_settings db)).

(** UPDATE enabled, updated_at and updated_by_user_id WHERE id, RETURNING the row. *)
Definition written_setting (row r : AuthSettingsRow) : AuthSettingsRow :=
  if N.eqb (as_ID r) (as_ID row)
  then r <| as_Enabled := as_Enabled row |> <| as_UpdatedAt := pg_ts (as_UpdatedAt row) |> <| as_UpdatedByUserID := as_UpdatedByUserID row |>
  else r.
Definition settings_Update (setting : AuthMethodSetting) : M AuthMethodSetting :=
  now ← UTCNow;
  let row := setting_toDB (setting <| ms_UpdatedAt := now |>) in
  updated ← sql (fun _ db =>
    let rows := written_setting row <$> auth_settings db in
    Ok (List.find (fun r => N.eqb (as_ID r) (as_ID row)) rows, db <| auth_settings := rows |>));
  match updated with
  | Some r => mret (setting_fromDB r)
  | None => raise ErrAuthMethodNotFound
  end.
End store.

(** ** services/authsettings *)

Section service.
Context `{Env} `{Collation} `{Goque}.

Definition settings_ListAll : M (list AuthMethodSetting) := settings_List.
Definition Enabled (method : string) : M bool := found ← GetByMethod method; mret (ms_Enabled found).

Definition set_in_tx (cmd : SetAuthMethodEnabledCmd) (actor : User) : M AuthMethodSetting :=
  target ← GetByMethod (se_Method cmd);
  wrap_err (Errorf "update auth setting")
    (settings_Update (target <| ms_Enabled := se_Enabled cmd |> <| ms_UpdatedByUserID := Some (u_ID actor) |>)).
Definition SetEnabled (cmd : SetAuthMethodEnabledCmd) : M AuthMethodSetting :=
  match se_Actor cmd with
  | None => raise (Errorf "setting a sign-in method requires an actor" ErrValidation)
  | Some actor =>
      reject_if (negb (AuthMethodName_IsValid (se_Method cmd))) (Errorf "method" ErrAuthMethodNotFound);;
      updated ← WithinTx (set_in_tx cmd actor);
      publishAudit (AuthMethodToggled (Some actor) (se_Method cmd) (se_Enabled cmd));;
      mret updated
  end.
End service.

(** ** services/jwtverifier *)

(** The token library with the key of this process, the options of the verifier
    included: what it answers may depend on the moment. *)
Class AccessVerifier := {
  av_ParseWithClaims : nat -> string -> (AccessClaims * bool) + error;
  (** how many keys Storage().KeyReadAll returns *)
  av_KeyReadAll : nat -> nat + error;
  jwkset_ErrKeyNotFound : error }.

Section verifier.
Context `{Env} `{Jwt} `{AccessVerifier}.

Definition authUnavailable (lastRefreshFailedAt : Time) (verifyStartedAt : Time) : M bool := fun _ w =>
  (Ok (match av_KeyReadAll (w_step w) with
       | inr _ => true
       | inl n => Nat.eqb n 0 || (verifyStartedAt <=? lastRefreshFailedAt)
       end), tick w).
Definition VerifyAccessToken (lastRefreshFailedAt : Time) (tokenString : string) : M AccessClaims :=
  verifyStartedAt ← UTCNow;
  parsed ← (fun _ w => (Ok (av_ParseWithClaims (w_step w) tokenString), tick w)) : M _;
  match parsed with
  | inr err =>
      if errors_Is err jwt_ErrTokenExpired then raise (Errorf2 "verify" ErrTokenExpired err)
      else
        unavailable ← (if errors_Is err jwkset_ErrKeyNotFound then authUnavailable lastRefreshFailedAt verifyStartedAt else mret false);
        if (unavailable : bool) then raise ErrAuthUnavailable else raise (Errorf2 "verify" ErrInvalidAccessToken err)
  | inl (claims, valid) => if negb valid then raise ErrInvalidAccessToken else mret claims
  end.
End verifier.

(** ** services/authz *)

(** casbin's enforcer. *)
Class Enforcer := { Enforce : nat -> Role -> string -> bool + error }.

Section authz.
Context `{Env} `{Enforcer}.

Definition enforce (role : Role) (scenario : string) : M (bool + error) := fun _ w => (Ok (Enforce (w_step w) role scenario), tick w).
Fixpoint Allow (roles : list Role) (scenario : string) : M bool :=
  match roles with
  | [] => mret false
  | role :: rest =>
      if negb (Role_Valid role) then Allow rest scenario
      else
        r ← enforce role scenario;
        match r with
        | inr err => raise (Errorf "enforce policy" err)
        | inl true => mret true
        | inl false => Allow rest scenario
        end
  end.
End authz.

(** ** What a switch promises *)

Section switch.
Context `{Env} `{Collation} `{Goque}.

(** The row of the method as the command asks for, every other row as it was. *)
Definition switched (cmd : SetAuthMethodEnabledCmd) (actor : User) (now : Time) (r : AuthSettingsRow) : AuthSettingsRow :=
  if String.eqb (as_Method r) (se_Method cmd)
  then r <| as_Enabled := se_Enabled cmd |> <| as_UpdatedAt := pg_ts now |> <| as_UpdatedByUserID := Some (u_ID actor) |>
  else r.
Definition settings_keyed (db : DB) : Prop := NoDup (as_ID <$> auth_settings db) ∧ NoDup (as_Method <$> auth_settings db).

Lemma GetByMethod_Ok method ctx w s w' :
  GetByMethod method ctx w = (Ok s, w') ->
  w_db w' = w_db w ∧ ∃ row, row ∈ auth_settings (w_db w) ∧ as_Method row = method ∧ s = setting_fromDB row.
Proof.
  intros (r & w1 & (-> & Hdb & _)%query_Ok & E)%bind_Ok. destruct (List.find _ _) as [row|] eqn:Ef; [|done]. injection E as <- <-.
  apply find_some in Ef as [Hin Hm%String.eqb_eq]. split; [done|]. exists row. split; [by apply list_elem_of_In|done].
Qed.
Lemma written_switched cmd actor now (rows : list AuthSettingsRow) row :
  NoDup (as_ID <$> rows) -> NoDup (as_Method <$> rows) -> row ∈ rows -> as_Method row = se_Method cmd ->
  written_setting (setting_toDB ((setting_fromDB row) <| ms_Enabled := se_Enabled cmd |> <| ms_UpdatedByUserID := Some (u_ID actor) |> <| ms_UpdatedAt := now |>)) <$> rows
  = switched cmd actor now <$> rows.
Proof.
  intros Hid Hm Hrow Heq. apply list_fmap_ext. intros i x Hx%list_elem_of_lookup_2. unfold written_setting, switched. simpl.
  destruct (N.eqb_spec (as_ID x) (as_ID row)) as [E|E]; destruct (String.eqb_spec (as_Method x) (se_Method cmd)) as [E'|E']; try done.
  - assert (x = row) as -> by by apply (NoDup_fmap_2_elem as_ID rows). done.
  - assert (x = row) as -> by (apply (NoDup_fmap_2_elem as_Method rows); [done..|congruence]). done.
Qed.
Lemma set_in_tx_Ok cmd actor ctx w s w' :
  settings_keyed (w_db w) -> set_in_tx cmd actor ctx w = (Ok s, w') ->
  ∃ row now, row ∈ auth_settings (w_db w) ∧ as_Method row = se_Method cmd ∧ s = setting_fromDB (switched cmd actor now row) ∧
    w_db w' = (w_db w) <| auth_settings := switched cmd actor now <$> auth_settings (w_db w) |>.
Proof.
  intros [Hid Hm] (target & w1 & (Hdb & row & Hrow & Heq & ->)%GetByMethod_Ok & E%wrap_err_Ok)%bind_Ok.
  apply bind_Ok in E as (now & w2 & [= <- <-] & (r & w3 & (db & Hf & ->)%sql_Ok & E)%bind_Ok). simpl in Hf. rewrite Hdb in Hf.
  rewrite (written_switched _ _ _ _ row) in Hf by done. injection Hf as <- <-. destruct (List.find _ _) as [x|] eqn:Ef; [|done]. injection E as <- <-.
  apply find_some in Ef as [Hin Hx%N.eqb_eq]. apply list_elem_of_In, list_elem_of_fmap in Hin as (y & -> & Hy).
  assert (as_ID y = as_ID row) as Hyr by (unfold switched in Hx; by destruct (String.eqb _ _)).
  assert (y = row) as -> by by apply (NoDup_fmap_2_elem as_ID (auth_settings (w_db w))). by exists row, (env_now (w_step w1)).
Qed.

(** What the queue does not see. *)
Lemma publish_db action ctx w r w' : publishAudit action ctx w = (r, w') -> (∀ e, r ≠ Err e) ∧ ∃ l, w_db w' = (w_db w) <| goque_tasks := l |>.
Proof.
  intros E. split.
  - intros e ->. unfold publishAudit, mbind, M_bind, attempt in E. by destruct (Publish action ctx w) as [[] ?].
  - assert (keeps (fun db => ∃ l, db = (w_db w) <| goque_tasks := l |>) (publishAudit action) (fun _ => True)) as Hk.
    { apply keeps_publishAudit. intros db l (l0 & ->). by exists l. }
    apply (keeps_run _ _ _ _ _ _ _ Hk E). exists (goque_tasks (w_db w)). by destruct (w_db w).
Qed.

(** A switch is as it was set last.  A request that succeeds has set the switch
    of its method, with its author and the time, and no other row, and whoever
    asks next is told so, as long as the database answers; one that is refused or
    fails has changed nothing; and only the queue can keep the request from
    answering after the switch was set. *)
Theorem switch_as_set cmd w r w' :
  settings_keyed (w_db w) -> SetEnabled cmd background w = (r, w') ->
  let changed actor row now := se_Actor cmd = Some actor ∧ AuthMethodName_IsValid (se_Method cmd) = true ∧
    row ∈ auth_settings (w_db w) ∧ as_Method row = se_Method cmd ∧
    ∃ l, w_db w' = (w_db w) <| auth_settings := switched cmd actor now <$> auth_settings (w_db w) |> <| goque_tasks := l |> in
  match r with
  | Ok s => (∃ actor row now, changed actor row now ∧ s = setting_fromDB (switched cmd actor now row)) ∧
      ∀ ctx, env_fault (w_step w') = None -> fst (Enabled (se_Method cmd) ctx w') = Ok (se_Enabled cmd)
  | Err e => w_db w' = w_db w ∧ (se_Actor cmd = None -> errors_Is e ErrValidation = true)
  | Panic _ => ∃ actor row now, changed actor row now
  end.
Proof.
  intros Hk E changed. unfold SetEnabled in E. destruct (se_Actor cmd) as [actor|] eqn:Ea; [|by injection E as <- <-].
  unfold mbind, M_bind at 1 in E. unfold reject_if in E. destruct (AuthMethodName_IsValid (se_Method cmd)) eqn:Ev; simpl in E; [|by injection E as <- <-].
  unfold M_bind at 1 in E. destruct (WithinTx (set_in_tx cmd actor) background w) as [rt w1] eqn:Et. apply WithinTx_cases in Et as [(e & -> & Hdb)|(s & w2 & -> & Hdb & _ & Hrun)]; [by injection E as <- <-|].
  apply set_in_tx_Ok in Hrun as (row & now & Hrow & Heq & -> & Hdb2); [|done]. simpl in Hrow, Hdb2. rewrite Hdb2 in Hdb.
  unfold M_bind in E. destruct (publishAudit _ _ w1) as [rp w3] eqn:Ep. apply publish_db in Ep as [Hne (l & Hl)]. rewrite Hdb in Hl.
  destruct rp as [u|e|p]; [|by destruct (Hne e)|]; injection E as <- <-; [split|].
  - exists actor, row, now. split; [|done]. split_and!; [done..|by exists l].
  - intros ctx Hf. unfold Enabled, GetByMethod, query, sql, mbind, M_bind. rewrite Hf. simpl. rewrite Hl. simpl.
    assert (∃ x, List.find (fun r => String.eqb (as_Method r) (se_Method cmd)) (switched cmd actor now <$> auth_settings (w_db w)) = Some x) as [x Hx].
    { destruct (List.find _ _) as [x|] eqn:Ef; [by exists x|]. pose proof (find_none _ _ Ef (switched cmd actor now row)) as Hn.
      rewrite <- list_elem_of_In in Hn. specialize (Hn (list_elem_of_fmap_2 _ _ _ Hrow)). unfold switched in Hn. rewrite Heq, String.eqb_refl in Hn. simpl in Hn.
      by rewrite Heq, String.eqb_refl in Hn. }
    rewrite Hx. simpl. apply find_some in Hx as [Hx Hm%String.eqb_eq]. apply list_elem_of_In, list_elem_of_fmap in Hx as (y & -> & _).
    unfold switched in *. destruct (String.eqb_spec (as_Method y) (se_Method cmd)); [done|congruence].
  - exists actor, row, now. split_and!; [done..|by exists l].
Qed.
End switch.

(** ** What the gates let through *)

Section gates.
Context `{Env} `{Jwt} `{AccessVerifier} `{Enforcer}.

(** Claims are those the library verified; with a key in place and no failed
    refresh since, the service is never reported as unavailable. *)
Lemma verified_only since token ctx w r w' :
  VerifyAccessToken since token ctx w = (r, w') ->
  match r with
  | Ok claims => av_ParseWithClaims (S (w_step w)) token = inl (claims, true)
  | Err e => (∀ claims, av_ParseWithClaims (S (w_step w)) token ≠ inl (claims, true)) ∧
      (e = ErrAuthUnavailable -> (∃ x, av_KeyReadAll (S (S (w_step w))) = inr x) ∨ av_KeyReadAll (S (S (w_step w))) = inl 0%nat ∨ env_now (w_step w) <= since)
  | Panic _ => False
  end.
Proof.
  unfold VerifyAccessToken, UTCNow, mbind, M_bind, raise, mret, M_ret. simpl. destruct (av_ParseWithClaims _ _) as [[claims []]|err] eqn:Ep; simpl.
  - by intros [= <- <-].
  - intros [= <- <-]. split; [by intros ? [=]|done].
  - destruct (errors_Is err jwt_ErrTokenExpired); [by intros [= <- <-]|]. destruct (errors_Is err _); [|by intros [= <- <-]].
    unfold authUnavailable. simpl. destruct (av_KeyReadAll _) as [n|x] eqn:Ek.
    + destruct (Nat.eqb_spec n 0) as [->|]; simpl; [intros [= <- <-]; split; [done|by right; left]|].
      destruct (Z.leb_spec (env_now (w_step w)) since); intros [= <- <-]; (split; [done|]); [by right; right|done].
    + intros [= <- <-]. split; [done|]. left. by exists x.
Qed.

(** A scenario is allowed only on the word of the policy for a known role the user
    has, and refused only if no such role has it; a failing policy allows nothing. *)
Lemma allowed_by_policy roles scenario ctx w r w' :
  Allow roles scenario ctx w = (r, w') ->
  w_db w' = w_db w ∧
  match r with
  | Ok true => ∃ role n, role ∈ roles ∧ Role_Valid role = true ∧ Enforce n role scenario = inl true
  | Ok false => ∀ role, role ∈ roles -> Role_Valid role = true -> ∃ n, Enforce n role scenario = inl false
  | Err _ => ∃ role n err, role ∈ roles ∧ Role_Valid role = true ∧ Enforce n role scenario = inr err
  | Panic _ => False
  end.
Proof.
  revert w. induction roles as [|role rest IH]; intros w; cbn [Allow]; [intros [= <- <-]; split; [done|set_solver]|].
  destruct (Role_Valid role) eqn:Hv; simpl.
  - unfold enforce, mbind, M_bind. destruct (Enforce (w_step w) role scenario) as [[]|err] eqn:Ee; simpl.
    + intros [= <- <-]. split; [done|]. exists role, (w_step w). set_solver.
    + intros [Hdb Hr]%IH. split; [done|]. destruct r as [[]|e|s]; [| | |done].
      * destruct Hr as (x & n & ? & ?). exists x, n. set_solver.
      * intros x [->|Hx]%elem_of_cons Hxv; [by eexists|by apply Hr].
      * destruct Hr as (x & n & err & ? & ?). exists x, n, err. set_solver.
    + intros [= <- <-]. split; [done|]. exists role, (w_step w), err. set_solver.
  - intros [Hdb Hr]%IH. split; [done|]. destruct r as [[]|e|s]; [| | |done].
    + destruct Hr as (x & n & ? & ?). exists x, n. set_solver.
    + intros x [->|Hx]%elem_of_cons Hxv; [congruence|by apply Hr].
    + destruct Hr as (x & n & err & ? & ?). exists x, n, err. set_solver.
Qed.
End gates.

(** ** A run: an admin turns the codes on. *)

Definition ex_settings : DB := ex_db <| auth_settings :=
  [mkAuthSettingsRow 1 AuthMethodNameEmailOTP false T0 T0 None; mkAuthSettingsRow 2 AuthMethodNameEmailPassword true T0 T0 None] |>.
Example turned_on :
  let '(r, w') := @SetEnabled calm_env list_goque (mkSetEnabled AuthMethodNameEmailOTP true (Some SystemUser)) background (ex_world <| w_db := ex_settings |>) in
  ms_Enabled <$> (match r with Ok s => Some s | _ => None end) = Some true ∧
  fst (@Enabled calm_env AuthMethodNameEmailOTP background w') = Ok true ∧ fst (@Enabled calm_env AuthMethodNameEmailPassword background w') = Ok true ∧
  length (goque_tasks (w_db w')) = 1%nat.
Proof. vm_compute. done. Qed.
