(* ===== verification/HttpErrors.v ===== *)
(** * What a failed request is answered (internal/app/api/httperrors)

    [ToAPIError] decides the status, the code and the text of every refusal the
    handlers and the middlewares give. *)
From Stdlib Require Import ZArith Lia Ascii String.
From stdpp Require Import base sets strings list.
From S2P Require Import Prelude Go IntegrationStore AuthSettings.
Open Scope Z_scope.

Definition ErrOrganizationSuspended := ESentinel "organization suspended".
Definition ErrIntegrationProbeFailed := ESentinel "integration probe failed".

Definition StatusBadRequest : Z := 400.
Definition StatusUnauthorized : Z := 401.
Definition StatusForbidden : Z := 403.
Definition StatusNotFound : Z := 404.
Definition StatusConflict : Z := 409.
Definition StatusTooManyRequests : Z := 429.
Definition StatusInternalServerError : Z := 500.
Definition StatusBadGateway : Z := 502.
Definition StatusServiceUnavailable : Z := 503.

(** ** error_resp.go *)

Definition ErrorCode := string.
Definition CodeErrUnauthorized : ErrorCode := "unauthorized".
Definition CodeErrLockBusy : ErrorCode := "lock is already held".
Definition CodeErrForbidden : ErrorCode := "forbidden".
Definition CodeErrNotFound : ErrorCode := "not found".
Definition CodeErrInternalError : ErrorCode := "internal error".
Definition CodeErrServiceUnavailable : ErrorCode := "service unavailable".
Definition CodeErrInvalidRequest : ErrorCode := "invalid request".
Definition CodeErrConflictsChangedSincePreview : ErrorCode := "conflicts changed since preview".
Definition CodeErrMaintChangedSincePreview : ErrorCode := "maintenance changed since preview".
Definition CodeErrResourceAlreadyExists : ErrorCode := "resource already exists".
Definition CodeErrNotifyChannelAlreadyExists : ErrorCode := "notify channel already exists".
Definition CodeErrForbiddenStatusTransition : ErrorCode := "forbidden status".
Definition CodeErrStepsNotTerminal : ErrorCode := "steps not terminal".
Definition CodeErrConflict : ErrorCode := "conflict".
Definition CodeErrConcurrentModification : ErrorCode := "concurrent modification".
Definition CodeErrInvitationInvalid : ErrorCode := "invalid".
Definition CodeErrEmailMismatch : ErrorCode := "email_mismatch".
Definition CodeErrEmailNotVerified : ErrorCode := "email_not_verified".
Definition CodeErrMethodDisabled : ErrorCode := "method_disabled".
Definition CodeErrSeatsLimitExceeded : ErrorCode := "seats_limit_exceeded".
Definition CodeErrOrganizationSuspended : ErrorCode := "organization_suspended".
Definition CodeErrSignupDisabled : ErrorCode := "signup_disabled".
Definition CodeErrIntegrationProbeFailed : ErrorCode := "probe_failed".
Definition CodeErrReauthenticationRequired : ErrorCode := "reauthentication_required".
Definition CodeErrLinkInvalid : ErrorCode := "link_invalid".
Definition CodeErrInvalidClient : ErrorCode := "invalid_client".

(** The text of an answer: written out, or that of an error. *)
Inductive Wording := Fixed (s : string) | TextOf (e : error).
Record ErrorResponse := mkErrorResponse { er_Code : ErrorCode; er_Message : Wording }.
Definition NewErrorResponse (code : ErrorCode) (message : Wording) : ErrorResponse := mkErrorResponse code message.

(** ** errors.go *)

Definition errValidation (err : string) : error := Errorf err ErrValidation.
Definition ErrInvalidUUID : error := errValidation "id must be a valid UUID".
Definition ErrParseBody : error := errValidation "parse request body failed".
Definition ErrParseQuery : error := errValidation "parse request query failed".

(** ** mapper.go *)

(** [case errors.Is(err, a), errors.Is(err, b), ...] *)
Definition is_any (err : error) (sentinels : list error) : bool := existsb (errors_Is err) sentinels.

Definition unauthorizedErrors : list error :=
  [ErrTokenReuse; ErrInvalidAccessToken; ErrInvalidRefreshToken; ErrRefreshTokenNotFound; ErrTokenExpired; ErrLogoutAlready;
   ErrUserBlocked; ErrInvalidCredentials].
Definition firstMatch (err : error) (sentinels : list error) : option error := List.find (errors_Is err) sentinels.

Definition mapError (err : option error) : Z * ErrorResponse :=
  match err with
  | None => (StatusInternalServerError, NewErrorResponse CodeErrInternalError (Fixed "unknown error"))
  | Some err =>
      if is_any err [ErrMaintNotFound; ErrUserNotFound; ErrResourceNotFound; ErrNotifyChannelNotFound; ErrIntegrationNotFound]
      then (StatusNotFound, NewErrorResponse CodeErrNotFound (TextOf err))
      else if is_any err [ErrIntegrationConflict; ErrIntegrationInUse; ErrIntegrationNameReserved]
      then (StatusConflict, NewErrorResponse CodeErrConflict (TextOf err))
      else if is_any err [ErrAuthMethodNotFound] then (StatusNotFound, NewErrorResponse CodeErrNotFound (TextOf err))
      else if is_any err [ErrForbiddenMaintStatusTransition]
      then (StatusConflict, NewErrorResponse CodeErrForbiddenStatusTransition (TextOf err))
      else if is_any err [ErrConflictsChangedSincePreview]
      then (StatusConflict, NewErrorResponse CodeErrConflictsChangedSincePreview (TextOf err))
      else if is_any err [ErrMaintChangedSincePreview]
      then (StatusConflict, NewErrorResponse CodeErrMaintChangedSincePreview (TextOf err))
      else if is_any err [ErrConcurrentModification]
      then (StatusConflict, NewErrorResponse CodeErrConcurrentModification (TextOf err))
      else if is_any err [ErrResourceAlreadyExists]
      then (StatusConflict, NewErrorResponse CodeErrResourceAlreadyExists (TextOf err))
      else if is_any err [ErrNotifyChannelAlreadyExists]
      then (StatusConflict, NewErrorResponse CodeErrNotifyChannelAlreadyExists (TextOf err))
      else if is_any err [ErrStepNotFound] then (StatusNotFound, NewErrorResponse CodeErrNotFound (TextOf err))
      else if is_any err [ErrMaintenanceHasUnfinishedSteps]
      then (StatusConflict, NewErrorResponse CodeErrStepsNotTerminal (TextOf err))
      else if is_any err [ErrStepOrderViolation; ErrForbiddenStepStatusTransition]
      then (StatusConflict, NewErrorResponse CodeErrForbiddenStatusTransition (TextOf err))
      else if is_any err [ErrInvalidRole] then (StatusBadRequest, NewErrorResponse CodeErrInvalidRequest (TextOf err))
      else (StatusInternalServerError, NewErrorResponse CodeErrInternalError (Fixed "internal server error"))
  end.

Definition mapAuthError (err : option error) : Z * ErrorResponse :=
  match err with
  | None => (StatusInternalServerError, NewErrorResponse CodeErrInternalError (Fixed "unknown error"))
  | Some err =>
      match firstMatch err unauthorizedErrors with
      | Some sentinel => (StatusUnauthorized, NewErrorResponse CodeErrUnauthorized (TextOf sentinel))
      | None =>
          if is_any err [ErrLockBusy] then (StatusTooManyRequests, NewErrorResponse CodeErrLockBusy (TextOf err))
          else if is_any err [ErrAuthUnavailable]
          then (StatusServiceUnavailable, NewErrorResponse CodeErrServiceUnavailable (TextOf ErrAuthUnavailable))
          else if is_any err [ErrUnsupportedProvider; ErrCannotDisconnectLastProvider]
          then (StatusBadRequest, NewErrorResponse CodeErrInvalidRequest (TextOf err))
          else if is_any err [ErrReauthenticationRequired]
          then (StatusForbidden, NewErrorResponse CodeErrReauthenticationRequired (TextOf ErrReauthenticationRequired))
          else if is_any err [ErrLinkCodeInvalid]
          then (StatusBadRequest, NewErrorResponse CodeErrLinkInvalid (Fixed "the link could not be completed"))
          else if is_any err [ErrProviderAlreadyConnected; ErrProviderLinkedToAnotherUser]
          then (StatusConflict, NewErrorResponse CodeErrConflict (Fixed "this provider account cannot be linked to your profile"))
          else if is_any err [ErrInvitationNotFound] then (StatusNotFound, NewErrorResponse CodeErrNotFound (TextOf err))
          else if is_any err [ErrUserAlreadyExists; ErrActivePendingExists; ErrInvitationNotPending; ErrInvitationExpired]
          then (StatusConflict, NewErrorResponse CodeErrConflict (TextOf err))
          else (StatusInternalServerError, NewErrorResponse CodeErrInternalError (Fixed "internal server error"))
      end
  end.

(** The two lists of [ToAPIError]. *)
Definition maint_domain_errors : list error :=
  [ErrMaintNotFound; ErrUserNotFound; ErrResourceNotFound; ErrForbiddenMaintStatusTransition; ErrConflictsChangedSincePreview;
   ErrMaintChangedSincePreview; ErrConcurrentModification; ErrResourceAlreadyExists; ErrNotifyChannelAlreadyExists;
   ErrNotifyChannelNotFound; ErrStepNotFound; ErrStepOrderViolation; ErrForbiddenStepStatusTransition;
   ErrMaintenanceHasUnfinishedSteps; ErrInvalidRole; ErrIntegrationNotFound; ErrIntegrationConflict; ErrIntegrationInUse;
   ErrIntegrationNameReserved; ErrAuthMethodNotFound].
Definition auth_domain_errors : list error :=
  [ErrLockBusy; ErrTokenReuse; ErrRefreshTokenNotFound; ErrInvalidAccessToken; ErrInvalidRefreshToken; ErrTokenExpired;
   ErrLogoutAlready; ErrUserBlocked; ErrUnsupportedProvider; ErrAuthUnavailable; ErrProviderAlreadyConnected;
   ErrProviderLinkedToAnotherUser; ErrLinkCodeInvalid; ErrCannotDisconnectLastProvider; ErrReauthenticationRequired;
   ErrInvitationNotFound; ErrInvitationNotPending; ErrInvitationExpired; ErrUserAlreadyExists; ErrActivePendingExists;
   ErrInvalidCredentials].

Definition ToAPIError (operation : string) (err : option error) : Z * ErrorResponse :=
  match err with
  | None => (StatusInternalServerError, NewErrorResponse CodeErrInternalError (Fixed "unknown error"))
  | Some e =>
      if is_any e maint_domain_errors then mapError err
      else if is_any e auth_domain_errors then mapAuthError err
      else if errors_Is e ErrEmailNotVerified
      then (StatusBadRequest, NewErrorResponse CodeErrEmailNotVerified (Fixed "the identity provider reports this email as unverified"))
      else if errors_Is e ErrEmailMismatch then (StatusBadRequest, NewErrorResponse CodeErrEmailMismatch (Fixed ""))
      else if errors_Is e ErrInvalidInvitation then (StatusBadRequest, NewErrorResponse CodeErrInvitationInvalid (Fixed ""))
      else if errors_Is e ErrSignInMethodDisabled
      then (StatusForbidden, NewErrorResponse CodeErrMethodDisabled (Fixed "this sign-in method is disabled"))
      else if errors_Is e ErrSeatsLimitExceeded then (StatusForbidden, NewErrorResponse CodeErrSeatsLimitExceeded (TextOf e))
      else if errors_Is e ErrOrganizationSuspended then (StatusForbidden, NewErrorResponse CodeErrOrganizationSuspended (TextOf e))
      else if errors_Is e ErrIntegrationProbeFailed then (StatusBadGateway, NewErrorResponse CodeErrIntegrationProbeFailed (TextOf e))
      else if errors_Is e ErrSignupDisabled then (StatusForbidden, NewErrorResponse CodeErrSignupDisabled (Fixed "signup is disabled"))
      else if errors_Is e ErrValidation then (StatusBadRequest, NewErrorResponse CodeErrInvalidRequest (TextOf e))
      else if errors_Is e ErrForbidden then (StatusForbidden, NewErrorResponse CodeErrForbidden (TextOf e))
      else (StatusInternalServerError, NewErrorResponse CodeErrInternalError (Fixed (operation +:+ " failed")))
  end.

(** ** What the answers say *)

(** Every failure that has an answer of its own. *)
Definition answered_errors : list error :=
  maint_domain_errors ++ auth_domain_errors ++
  [ErrEmailNotVerified; ErrEmailMismatch; ErrInvalidInvitation; ErrSignInMethodDisabled; ErrSeatsLimitExceeded;
   ErrOrganizationSuspended; ErrIntegrationProbeFailed; ErrSignupDisabled; ErrValidation; ErrForbidden].

Lemma is_any_app err l1 l2 : is_any err (l1 ++ l2) = is_any err l1 || is_any err l2.
Proof. apply existsb_app. Qed.

(** The next arm of a switch is taken, or is not. *)
Ltac next_arm :=
  match goal with |- context [if is_any ?err ?l then _ else _] => destruct (is_any err l) eqn:?; [decide_now|] end.
(** All the arms of a switch failed. *)
Ltac no_arm :=
  unfold is_any, maint_domain_errors, auth_domain_errors, unauthorizedErrors in *; simpl in *;
  repeat match goal with
  | H : _ || _ = false |- _ => apply orb_false_iff in H as [? H]
  end;
  repeat match goal with
  | H : errors_Is _ _ = false |- _ => rewrite H in *; clear H
  end; done.

(** The lists and the switches agree: what is sent to a mapper has an arm there. *)
Lemma mapError_answers err : is_any err maint_domain_errors = true ->
  (mapError (Some err)).1 ∈ [StatusBadRequest; StatusNotFound; StatusConflict].
Proof.
  intros Hin. unfold mapError. repeat next_arm. exfalso. no_arm.
Qed.

Lemma firstMatch_spec err l :
  match firstMatch err l with
  | Some s => s ∈ l ∧ errors_Is err s = true
  | None => is_any err l = false
  end.
Proof.
  unfold firstMatch, is_any. destruct (List.find _ l) as [s|] eqn:Ef.
  - apply find_some in Ef as [Hin ?]. by rewrite list_elem_of_In.
  - apply not_true_is_false. intros (x & Hin & Hx)%existsb_exists. by rewrite (find_none _ _ Ef x Hin) in Hx.
Qed.

Lemma mapAuthError_answers err : is_any err auth_domain_errors = true ->
  match firstMatch err unauthorizedErrors with
  | Some s => mapAuthError (Some err) = (StatusUnauthorized, NewErrorResponse CodeErrUnauthorized (TextOf s))
  | None => (mapAuthError (Some err)).1 ∈ [StatusBadRequest; StatusForbidden; StatusNotFound; StatusConflict; StatusTooManyRequests; StatusServiceUnavailable]
  end.
Proof.
  intros Hin. unfold mapAuthError. pose proof (firstMatch_spec err unauthorizedErrors) as Hu. destruct (firstMatch _ _); [done|].
  repeat next_arm. exfalso. no_arm.
Qed.

Lemma is_any_elem err l s : s ∈ l -> errors_Is err s = true -> is_any err l = true.
Proof. intros Hin Hs. apply existsb_exists. exists s. by rewrite <- list_elem_of_In. Qed.

Lemma unauthorized_listed err : is_any err unauthorizedErrors = true -> is_any err auth_domain_errors = true.
Proof.
  intros (x & Hin & Hx)%existsb_exists. apply existsb_exists. exists x. split; [|done].
  repeat (destruct Hin as [<-|Hin]; [unfold auth_domain_errors; simpl; tauto|]). done.
Qed.

(** C36. A refusal never hides what it is and never tells more than it should.
    Every failure the program names has an answer of its own, so 500 is given to
    exactly the others, with a text that names the operation only; and 401 is
    given to exactly the failures of a credential that are no failure of the
    domain, with the text of the sentinel and never that of the chain around
    it. *)
Theorem refusals_worded op err :
  let '(status, resp) := ToAPIError op (Some err) in
  (status = StatusInternalServerError ↔ is_any err answered_errors = false) ∧
  (status = StatusInternalServerError -> resp = NewErrorResponse CodeErrInternalError (Fixed (op +:+ " failed"))) ∧
  (status = StatusUnauthorized ↔ is_any err maint_domain_errors = false ∧ is_any err unauthorizedErrors = true) ∧
  (status = StatusUnauthorized -> ∃ s, s ∈ unauthorizedErrors ∧ errors_Is err s = true ∧
     resp = NewErrorResponse CodeErrUnauthorized (TextOf s)).
Proof.
  unfold ToAPIError, answered_errors. rewrite !is_any_app.
  destruct (is_any err maint_domain_errors) eqn:Em.
  { pose proof (mapError_answers err Em) as Hs. destruct (mapError _) as [st r]. simpl in *.
    rewrite !list_elem_of_In in Hs; simpl in Hs; naive_solver. }
  destruct (is_any err auth_domain_errors) eqn:Ea.
  { pose proof (mapAuthError_answers err Ea) as Hs. pose proof (firstMatch_spec err unauthorizedErrors) as Hu.
    destruct (firstMatch _ _) as [s|]; [rewrite Hs; destruct Hu as [Hin Hx]|].
    - split_and!; try naive_solver. split; [|done]. intros _. split; [done|]. by eapply is_any_elem.
    - destruct (mapAuthError _) as [st r]. simpl in *. rewrite Hu. rewrite !list_elem_of_In in Hs; simpl in Hs; naive_solver. }
  assert (is_any err unauthorizedErrors = false) as ->.
  { apply not_true_is_false. intros Hx%unauthorized_listed. congruence. }
  simpl. repeat match goal with |- context [if errors_Is err ?t then _ else _] => destruct (errors_Is err t); [simpl; naive_solver|] end.
  simpl. naive_solver.
Qed.
