(* ===== verification/Notify.v ===== *)
(** * Lifecycle notifications (internal/services/maintnotify,
      internal/services/messaging/sender/send.go and
      internal/goque_processors/reminderprocessor)

    The fan-out of an event to the notify targets of a maintenance, with its
    threads.  The renderer, the resolvers of user names and the transports are
    interfaces of this code: they are parameters, about which nothing is
    assumed. *)
From Stdlib Require Import ZArith Lia Ascii String.
From stdpp Require Import base sorting sets strings numbers list.
From S2P Require Import Prelude Go Entity Conflict AuditTrail Schema Logic Dbtx MaintStore Fixtures NotifyTargets.
Open Scope Z_scope.

(** ** entity/notifier.go *)

Definition NotifyEventKind := string.
Definition NotifyEventMaintStarted : NotifyEventKind := "maint.started".
Definition NotifyEventMaintCompleted : NotifyEventKind := "maint.completed".
Definition NotifyEventMaintCancelled : NotifyEventKind := "maint.cancelled".
Definition NotifyEventMaintReminder : NotifyEventKind := "maint.reminder".
Definition NotifyEventStepStarted : NotifyEventKind := "step.started".
Definition NotifyEventStepCompleted : NotifyEventKind := "step.completed".
Definition NotifyEventStepCancelled : NotifyEventKind := "step.cancelled".

Definition IsStep (k : NotifyEventKind) : bool :=
  String.eqb k NotifyEventStepStarted || String.eqb k NotifyEventStepCompleted ||
  String.eqb k NotifyEventStepCancelled.

Record UserMention := mkMention { um_Name : string; um_TelegramTag : option string; um_SlackTag : option string }.

Record NotifyEvent := mkEvent {
  ev_Kind : NotifyEventKind; ev_OccurredAt : Time; ev_FrontendURL : string; ev_MaintID : UUID;
  ev_MaintTitle : string; ev_PlannedStart : Time; ev_TaskTrackerURL : string; ev_CreatedByUserID : UUID;
  ev_OwnerMention : option UserMention; ev_Mentions : list UserMention; ev_StepID : UUID; ev_StepOrder : Z;
  ev_StepDescription : string; ev_CancelReason : MaintenanceCancelReason; ev_CancelReasonComment : string }.
#[export] Instance eta_NotifyEvent : Eta NotifyEvent := fun e =>
  mkEvent (ev_Kind e) (ev_OccurredAt e) (ev_FrontendURL e) (ev_MaintID e) (ev_MaintTitle e) (ev_PlannedStart e)
    (ev_TaskTrackerURL e) (ev_CreatedByUserID e) (ev_OwnerMention e) (ev_Mentions e) (ev_StepID e)
    (ev_StepOrder e) (ev_StepDescription e) (ev_CancelReason e) (ev_CancelReasonComment e).
Definition zeroEvent : NotifyEvent :=
  mkEvent "" zeroTime "" uuid_Nil "" zeroTime "" uuid_Nil None [] uuid_Nil 0 "" "" "".

Record SendResult := mkSendResult { res_Ref : option MessageRef; res_RootReplaced : bool }.

(** ** The interfaces of the notifier; each call may answer differently *)
Class Messenger := {
  (** EventRenderer.Render *)
  renderer_Render : nat -> NotifyTransport -> NotifyEvent -> NotifyMessage + error;
  (** OwnerResolver and MentionResolver, which cannot fail *)
  ResolveOwner : nat -> UUID -> option UserMention;
  ResolveMentions : nat -> list UUID -> list UserMention;
  (** notifytransport.TransportResolver.Get, as its error *)
  registry_Get : nat -> NotifyTransport -> option error;
  (** Transport.Send *)
  transport_Send : nat -> NotifyTransport -> string -> NotifyMessage -> option MessageRef -> SendResult + error;
  (** cfg.App.FrontendURL *)
  frontendURL : string }.

Section notify.
Context `{Env} `{Messenger}.

(** A call of an interface: a question with its own number. *)
Definition ask {A} (f : nat -> A) : M A := fun _ w => (Ok (f (w_step w)), tick w).

(** ** messaging/sender/send.go *)

Definition Send (trName : NotifyTransport) (target : string) (msg : NotifyMessage) (replyTo : option MessageRef)
    : M SendResult :=
  tx ← in_tx;
  reject_if tx (EOther "not allowed calling inside DB tx. use SendAsync instead");;
  tr ← ask (fun n => registry_Get n trName);
  match tr with
  | Some err => raise (Errorf "no transport" err)
  | None =>
      emit (EvSend trName target msg replyTo);;
      res ← ask (fun n => transport_Send n trName target msg replyTo);
      match res with
      | inl res => mret res
      | inr err => raise err
      end
  end.

(** ** maintnotify/dispatch.go *)

Definition fillEvent (evt : NotifyEvent) : M NotifyEvent :=
  now ← UTCNow;
  let evt := if IsZero (ev_OccurredAt evt) then evt <| ev_OccurredAt := now |> else evt in
  mret (if String.eqb (ev_FrontendURL evt) "" then evt <| ev_FrontendURL := frontendURL |> else evt).

Definition replyTo (event : NotifyEvent) (target : NotifyTarget) : option MessageRef :=
  if String.eqb (ev_Kind event) NotifyEventMaintStarted || String.eqb (ev_Kind event) NotifyEventMaintReminder
  then None
  else
    match nt_RootRef target with
    | None => None
    | Some ref =>
        if negb (String.eqb (nt_RootChannel target) "") &&
           negb (String.eqb (nt_RootChannel target) (nt_TransportChannelID target))
        then None else Some ref
    end.

Definition recordRoot (event : NotifyEvent) (target : NotifyTarget) (res : SendResult) : M unit :=
  let isNewRoot := String.eqb (ev_Kind event) NotifyEventMaintStarted || res_RootReplaced res in
  match isNewRoot, res_Ref res with
  | true, Some ref =>
      _ ← attempt (store_SetRootRef (ev_MaintID event) (nt_ChannelID target) (MessageID ref)
                     (nt_TransportChannelID target));
      mret tt
  | _, _ => mret tt
  end.

Definition resolveMentions (event : NotifyEvent) : M (list UserMention) :=
  if IsStep (ev_Kind event) then mret []
  else
    ids ← attempt (GetMaintMentions (ev_MaintID event));
    match ids with
    | inr _ => mret []
    | inl ids =>
        match List.filter (fun id => negb (N.eqb id (ev_CreatedByUserID event))) ids with
        | [] => mret []
        | ids => ask (fun n => ResolveMentions n ids)
        end
    end.

(** The messages rendered so far, by transport. *)
Definition Messages := list (NotifyTransport * NotifyMessage).
Fixpoint renderPerTransport (event : NotifyEvent) (messages : Messages) (targets : list NotifyTarget) : M Messages :=
  match targets with
  | [] => mret messages
  | t :: targets' =>
      match go_lookup messages (nt_Transport t) with
      | Some _ => renderPerTransport event messages targets'
      | None =>
          msg ← ask (fun n => renderer_Render n (nt_Transport t) event);
          match msg with
          | inr err => raise err
          | inl msg => renderPerTransport event (messages ++ [(nt_Transport t, msg)]) targets'
          end
      end
  end.

Definition zeroMessage : NotifyMessage := mkMessage "" "" "".
Definition deliver (event : NotifyEvent) (messages : Messages) (target : NotifyTarget) : M unit :=
  res ← attempt (Send (nt_Transport target) (nt_TransportChannelID target)
                   (FromPtr zeroMessage (go_lookup messages (nt_Transport target))) (replyTo event target));
  match res with
  | inr _ => mret tt
  | inl res => recordRoot event target res
  end.

(** dispatchSync: dispatch with sender.Send *)
Definition dispatch (event : NotifyEvent) : M unit :=
  notifyTargets ← wrap_err (Errorf "failed to list notify targets") (store_ListByMaint (ev_MaintID event));
  match notifyTargets with
  | [] => mret tt
  | _ =>
      event ← fillEvent event;
      owner ← ask (fun n => if negb (N.eqb (ev_CreatedByUserID event) uuid_Nil)
                            then ResolveOwner n (ev_CreatedByUserID event) else None);
      let event := event <| ev_OwnerMention := owner |> in
      mentions ← resolveMentions event;
      let event := event <| ev_Mentions := mentions |> in
      messages ← wrap_err (Errorf "render") (renderPerTransport event [] notifyTargets);
      for_each (deliver event messages) notifyTargets
  end.

(** A failed dispatch is logged. *)
Definition dispatch_logged (event : NotifyEvent) : M unit := _ ← attempt (dispatch event); mret tt.

Definition NotifyMaintLifecycle (kind : NotifyEventKind) (maint : Maintenance) : M unit :=
  let event := zeroEvent <| ev_Kind := kind |> <| ev_MaintID := ID maint |> <| ev_MaintTitle := Title maint |>
    <| ev_TaskTrackerURL := TaskTrackerURL maint |> <| ev_CreatedByUserID := CreatedByUserID maint |>
    <| ev_CancelReason := CancelReason maint |> <| ev_CancelReasonComment := CancelReasonComment maint |> in
  if IsStep kind then mret tt else dispatch_logged event.

Definition NotifyMaintReminder (maint : Maintenance) : M unit :=
  dispatch (zeroEvent <| ev_Kind := NotifyEventMaintReminder |> <| ev_MaintID := ID maint |>
    <| ev_MaintTitle := Title maint |> <| ev_PlannedStart := Start (PlannedPeriod maint) |>
    <| ev_TaskTrackerURL := TaskTrackerURL maint |> <| ev_CreatedByUserID := CreatedByUserID maint |>).

Definition NotifyStepLifecycle (kind : NotifyEventKind) (maint : Maintenance) (step : MaintenanceStep) : M unit :=
  let event := zeroEvent <| ev_Kind := kind |> <| ev_MaintID := ID maint |> <| ev_MaintTitle := Title maint |>
    <| ev_StepID := st_ID step |> <| ev_StepOrder := st_Order step |> <| ev_StepDescription := st_Description step |> in
  if negb (IsStep kind) then mret tt else dispatch_logged event.

(** ** reminderprocessor *)

Definition shouldRemind (maint : Maintenance) : bool := String.eqb (Status maint) MaintenanceStatusPlanned.
Definition ReminderProcessor_ProcessTask (maintID : UUID) : M unit :=
  r ← attempt (GetMaint maintID);
  match r with
  | inr err =>
      if errors_Is err ErrMaintNotFound then mret tt else raise (Errorf "reminder processor: load maint" err)
  | inl maint => if shouldRemind maint then NotifyMaintReminder maint else mret tt
  end.

(** ** Lemmas *)

Lemma quiet_ask {A} (f : nat -> A) : quiet (ask f).
Proof. done. Qed.

Lemma keeps_ask {A} I (f : nat -> A) : keeps I (ask f) (fun _ => True).
Proof. intros ctx w Hw. by split. Qed.

Lemma quiet_resolveMentions event : quiet (resolveMentions event).
Proof.
  unfold resolveMentions. destruct (IsStep _); [done|]. apply quiet_bind; [apply quiet_attempt, quiet_query|].
  intros [ids|err]; [|done]. by destruct (List.filter _ ids).
Qed.

Lemma quiet_renderPerTransport event messages targets : quiet (renderPerTransport event messages targets).
Proof.
  revert messages. induction targets as [|t targets IH]; intros messages; simpl; [done|].
  destruct (go_lookup _ _); [apply IH|]. apply quiet_bind; [done|]. intros [msg|err]; [apply IH|done].
Qed.

(** Rendering and resolving never write. *)
Lemma db_still_resolveMentions event : db_still (resolveMentions event).
Proof.
  intros J. unfold resolveMentions. destruct (IsStep _); [by apply keeps_ret|].
  eapply keeps_bind; [apply keeps_attempt, keeps_query_any|]. intros [ids|err] _; [|by apply keeps_ret].
  destruct (List.filter _ ids); [by apply keeps_ret|apply keeps_ask].
Qed.

Lemma db_still_renderPerTransport event messages targets : db_still (renderPerTransport event messages targets).
Proof.
  intros J. revert messages. induction targets as [|t targets IH]; intros messages; simpl; [by apply keeps_ret|].
  destruct (go_lookup _ _); [apply IH|]. eapply keeps_bind; [apply keeps_ask|].
  intros [msg|err] _; [apply IH|apply keeps_raise].
Qed.

(** Rendering covers every transport among the targets, with what the renderer
    answered for it. *)
Lemma renderPerTransport_Ok event messages targets ctx w l w' :
  renderPerTransport event messages targets ctx w = (Ok l, w') ->
  (∀ tr msg, go_lookup messages tr = Some msg -> ∃ n, renderer_Render n tr event = inl msg) ->
  (∀ tr msg, go_lookup l tr = Some msg -> ∃ n, renderer_Render n tr event = inl msg) ∧
  (∀ tr msg, go_lookup messages tr = Some msg -> go_lookup l tr = Some msg) ∧
  ∀ t, t ∈ targets -> is_Some (go_lookup l (nt_Transport t)).
Proof.
  revert messages w. induction targets as [|t targets IH]; intros messages w; simpl.
  - intros E Hm. run_all. split_and!; [done..|]. by intros t ?%elem_of_nil.
  - destruct (go_lookup messages (nt_Transport t)) as [msg|] eqn:El; intros E Hm.
    + apply IH in E as (H1 & H2 & H3); [|done]. split_and!; [done..|].
      intros t' [->|Ht]%elem_of_cons; [by rewrite (H2 _ _ El)|by apply H3].
    + run_all. unfold ask in Hrun. injection Hrun as Hr <-. destruct a as [msg|err]; [|run_all].
      assert (∀ tr, go_lookup (messages ++ [(nt_Transport t, msg)]) tr =
        match go_lookup messages tr with Some x => Some x | None =>
          if String.eqb (nt_Transport t) tr then Some msg else None end) as Happ.
      { intros tr. clear. induction messages as [|[k v] l IH]; simpl app; rewrite !go_lookup_cons.
        - by rewrite go_lookup_nil.
        - by destruct (String.eqb k tr). }
      apply IH in Hrun0 as (H1 & H2 & H3).
      * split_and!; [done| |].
        -- intros tr m Hl. apply H2. rewrite Happ. by rewrite Hl.
        -- intros t' [->|Ht]%elem_of_cons; [|by apply H3]. exists msg. apply H2. rewrite Happ, El.
           by rewrite String.eqb_refl.
      * intros tr m. rewrite Happ. destruct (go_lookup messages tr) eqn:E2; [intros [= ->]; by apply Hm|].
        destruct (String.eqb_spec (nt_Transport t) tr) as [<-|]; [|done]. intros [= <-]. eauto.
Qed.

(** The message a target is sent. *)
Definition sent (event : NotifyEvent) (messages : Messages) (t : NotifyTarget) : Effect :=
  EvSend (nt_Transport t) (nt_TransportChannelID t) (FromPtr zeroMessage (go_lookup messages (nt_Transport t)))
    (replyTo event t).

(** Delivery to one target never fails the caller, and contacts it at most once:
    not inside a transaction, and only if its transport is configured. *)
Lemma deliver_run event messages t ctx w :
  ∃ w', deliver event messages t ctx w = (Ok tt, w') ∧
    w_log w' = w_log w ++ (if ctx_tx ctx then [] else
                           if registry_Get (w_step w) (nt_Transport t) then [] else [sent event messages t]).
Proof.
  unfold deliver, attempt, Send, in_tx, reject_if, mbind, M_bind, ask. simpl.
  destruct (ctx_tx ctx); simpl; [eexists; split; [done|]; by rewrite app_nil_r|].
  destruct (registry_Get _ _); simpl; [eexists; split; [done|]; by rewrite app_nil_r|].
  destruct (transport_Send _ _ _ _ _) as [res|err]; simpl; [|eexists; by split].
  unfold recordRoot. destruct (_ || _), (res_Ref res) as [ref|]; simpl; try (eexists; by split).
  unfold mbind, M_bind, attempt, store_SetRootRef, sql. destruct (env_fault _); eexists; by split.
Qed.

Lemma deliver_all event messages l ctx w :
  ∃ w' sub, for_each (deliver event messages) l ctx w = (Ok tt, w') ∧ sub `sublist_of` l ∧
    w_log w' = w_log w ++ (sent event messages <$> sub) ∧
    (is_Some (ctx_tx ctx) -> sub = []) ∧
    (ctx_tx ctx = None -> (∀ t n, t ∈ l -> registry_Get n (nt_Transport t) = None) -> sub = l).
Proof.
  revert w. induction l as [|t l IH]; intros w.
  { exists w, []. simpl. rewrite app_nil_r. by split_and!. }
  destruct (deliver_run event messages t ctx w) as (w1 & Hd & Hl).
  destruct (IH w1) as (w' & sub & Hr & Hs & Hl' & Htx & Hall). simpl. unfold mbind, M_bind. rewrite Hd.
  rewrite Hl in Hl'. rewrite <- app_assoc in Hl'. exists w'.
  destruct (ctx_tx ctx) as [tx|].
  { exists sub. split_and!; [done|by apply sublist_cons|done|done|done]. }
  destruct (registry_Get (w_step w) (nt_Transport t)) eqn:Eg.
  - exists sub. split_and!; [done|by apply sublist_cons|done|by intros [? [=]]|].
    intros _ Hg. by rewrite Hg in Eg by set_solver.
  - exists (t :: sub). split_and!; [done|by apply sublist_skip|done|by intros [? [=]]|].
    intros _ Hg. f_equal. apply Hall; [done|]. set_solver.
Qed.

Lemma fillEvent_Ok event ctx w e w' :
  fillEvent event ctx w = (Ok e, w') ->
  ev_Kind e = ev_Kind event ∧ ev_MaintID e = ev_MaintID event ∧ w_db w' = w_db w ∧ w_log w' = w_log w.
Proof.
  unfold fillEvent. intros E. run_all. unfold UTCNow in Hrun. injection Hrun as <- <-.
  destruct (IsZero _), (String.eqb _ _); done.
Qed.

Lemma quiet_fillEvent event : quiet (fillEvent event).
Proof. apply quiet_bind; done. Qed.

Lemma db_still_fillEvent event : db_still (fillEvent event).
Proof.
  intros J. eapply keeps_bind; [by apply keeps_UTCNow with (Q := fun _ => True)|]. intros ? _. by apply keeps_ret.
Qed.

Lemma db_still_query {A} (f : DB -> A) : db_still (query f).
Proof. intros J. apply keeps_query_any. Qed.

Lemma replyTo_event e e' t : ev_Kind e = ev_Kind e' -> replyTo e t = replyTo e' t.
Proof. intros E. unfold replyTo. by rewrite E. Qed.

Lemma keeps_deliver I event messages t : targets_blind I -> keeps I (deliver event messages t) (fun _ => True).
Proof.
  intros HI. eapply keeps_bind; [apply keeps_attempt with (Q := fun _ => True)|].
  - eapply keeps_bind; [apply keeps_in_tx|]. intros tx _. eapply keeps_bind; [apply keeps_reject_if|]. intros _ _.
    eapply keeps_bind; [apply keeps_ask|]. intros [err|] _; [apply keeps_raise|].
    eapply keeps_bind; [apply keeps_emit|]. intros _ _. eapply keeps_bind; [apply keeps_ask|].
    intros [res|err] _; [by apply keeps_ret|apply keeps_raise].
  - intros [res|err] _; [|by apply keeps_ret]. unfold recordRoot.
    destruct (_ || _), (res_Ref res); try by apply keeps_ret.
    eapply keeps_bind; [by apply keeps_attempt, keeps_SetRootRef|]. intros ??. by apply keeps_ret.
Qed.

Lemma keeps_dispatch I event : targets_blind I -> keeps I (dispatch event) (fun _ => True).
Proof.
  intros HI. eapply keeps_bind; [apply keeps_wrap_err, keeps_query_any|]. intros ts _.
  destruct ts as [|t0 ts0] eqn:Ets; [by apply keeps_ret|]. rewrite <- Ets. clear Ets.
  eapply keeps_bind; [apply db_still_fillEvent|]. intros e _. eapply keeps_bind; [apply keeps_ask|]. intros o _.
  eapply keeps_bind; [apply db_still_resolveMentions|]. intros ms _.
  eapply keeps_bind; [apply keeps_wrap_err, db_still_renderPerTransport|]. intros msgs _.
  apply keeps_for_each. intros t _. by apply keeps_deliver.
Qed.

Lemma keeps_dispatch_logged I event : targets_blind I -> keeps I (dispatch_logged event) (fun _ => True).
Proof.
  intros HI. eapply keeps_bind; [by apply keeps_attempt, keeps_dispatch|]. intros ??. by apply keeps_ret.
Qed.

Lemma keeps_NotifyMaintLifecycle I k m : targets_blind I -> keeps I (NotifyMaintLifecycle k m) (fun _ => True).
Proof. intros HI. unfold NotifyMaintLifecycle. destruct (IsStep k); [by apply keeps_ret|by apply keeps_dispatch_logged]. Qed.

Lemma keeps_NotifyStepLifecycle I k m s : targets_blind I -> keeps I (NotifyStepLifecycle k m s) (fun _ => True).
Proof. intros HI. unfold NotifyStepLifecycle. destruct (IsStep k); [by apply keeps_dispatch_logged|by apply keeps_ret]. Qed.

(** Before the first target is contacted, every failure leaves no trace. *)
Lemma dispatch_cases event ctx w r w' :
  dispatch event ctx w = (r, w') ->
  let targets := resolved_target <$> target_rows (ev_MaintID event) (w_db w) in
  ((∀ u, r ≠ Ok u) ∧ w_log w' = w_log w ∧ w_db w' = w_db w) ∨
  (r = Ok tt ∧ ∃ event' messages sub,
    ev_Kind event' = ev_Kind event ∧ ev_MaintID event' = ev_MaintID event ∧
    (∀ t, t ∈ targets -> ∃ n msg, go_lookup messages (nt_Transport t) = Some msg ∧
                                  renderer_Render n (nt_Transport t) event' = inl msg) ∧
    sub `sublist_of` targets ∧ w_log w' = w_log w ++ (sent event' messages <$> sub) ∧
    (is_Some (ctx_tx ctx) -> sub = []) ∧
    (ctx_tx ctx = None -> (∀ t n, t ∈ targets -> registry_Get n (nt_Transport t) = None) -> sub = targets)).
Proof.
  intros E. cbv zeta. apply bind_inv in E as [(ts & w1 & H1 & E)|(Hr & r0 & H1 & _)].
  2: { left. split; [done|]. split; [eapply quiet_run; [|exact H1]; apply quiet_wrap_err, quiet_query|].
       eapply db_still_run; [|exact H1]. intros J. apply keeps_wrap_err, keeps_query_any. }
  apply wrap_err_Ok, ListByMaint_Ok in H1 as (Hts & Hdb1 & Hl1). rewrite <- Hts.
  destruct ts as [|t0 ts0] eqn:Ets.
  { unfold mret, M_ret in E. simplify_eq. right. split; [done|]. exists event, [], []. rewrite Hl1, app_nil_r.
    split_and!; try done. by intros t ?%elem_of_nil. }
  rewrite <- Ets in *. clear Ets.
  apply bind_inv in E as [(e1 & w2 & H2 & E)|(Hr & r0 & H2 & _)].
  2: { left. split; [done|]. rewrite <- Hl1, <- Hdb1.
       split; [by eapply quiet_run, H2; apply quiet_fillEvent|by eapply db_still_run, H2; apply db_still_fillEvent]. }
  apply fillEvent_Ok in H2 as (Hk & Hid & Hdb2 & Hl2).
  apply bind_inv in E as [(own & w3 & H3 & E)|(Hr & r0 & H3 & Hn)]; [|by injection H3 as <- _; destruct (Hn _ eq_refl)].
  injection H3 as _ <-.
  apply bind_inv in E as [(ms & w4 & H4 & E)|(Hr & r0 & H4 & _)].
  all: pose proof (quiet_run _ _ _ _ _ (quiet_resolveMentions _) H4) as Hl4;
       pose proof (db_still_run _ _ _ _ _ (db_still_resolveMentions _) H4) as Hdb4; simpl in Hl4, Hdb4.
  2: { left. split; [done|]. split; congruence. }
  apply bind_inv in E as [(msgs & w5 & H5 & E)|(Hr & r0 & H5 & _)].
  2: { left. split; [done|]. rewrite <- Hl1, <- Hdb1, <- Hl2, <- Hdb2, <- Hl4, <- Hdb4.
       split; [eapply quiet_run, H5; apply quiet_wrap_err, quiet_renderPerTransport|].
       eapply db_still_run, H5. intros J. apply keeps_wrap_err, db_still_renderPerTransport. }
  apply wrap_err_Ok in H5. pose proof (quiet_run _ _ _ _ _ (quiet_renderPerTransport _ _ _) H5) as Hl5.
  apply renderPerTransport_Ok in H5 as (Hren & _ & Hcov); [|by intros ??].
  edestruct deliver_all as (w6 & sub & Hd & Hsub & Hl6 & Htx & Hall). rewrite Hd in E. injection E as <- <-.
  right. split; [done|].
  exists (e1 <| ev_OwnerMention := own |> <| ev_Mentions := ms |>), msgs, sub. split_and!; [exact Hk|exact Hid| |exact Hsub| |exact Htx|exact Hall].
  - intros t Ht. destruct (Hcov t Ht) as [msg Hmsg]. destruct (Hren _ _ Hmsg) as [n Hn].
    by exists n, msg.
  - rewrite Hl6. f_equal. congruence.
Qed.
End notify.

Section properties.
Context `{Env} `{Messenger}.

(** A notification fans out to the notify targets of its maintenance, each
    at most once and in listing order, with the message rendered for its
    transport; inside a transaction nothing is sent; with every transport
    configured everyone is contacted; and when the call returns an error (which
    makes a queued reminder run again) nobody was contacted and nothing was
    written, so that a retry repeats nothing. *)
Theorem dispatch_correct event ctx w :
  let '(r, w') := dispatch event ctx w in
  let targets := resolved_target <$> target_rows (ev_MaintID event) (w_db w) in
  match r with
  | Ok _ => ∃ event' messages sub,
      ev_Kind event' = ev_Kind event ∧
      (∀ t, t ∈ targets -> ∃ n msg, go_lookup messages (nt_Transport t) = Some msg ∧
                                    renderer_Render n (nt_Transport t) event' = inl msg) ∧
      sub `sublist_of` targets ∧ w_log w' = w_log w ++ (sent event' messages <$> sub) ∧
      (is_Some (ctx_tx ctx) -> sub = []) ∧
      (ctx_tx ctx = None -> (∀ t n, t ∈ targets -> registry_Get n (nt_Transport t) = None) -> sub = targets)
  | _ => w_log w' = w_log w ∧ w_db w' = w_db w
  end.
Proof.
  destruct (dispatch event ctx w) as [r w'] eqn:E. apply dispatch_cases in E as [(Hr & Hl & Hdb)|(-> & Hok)].
  - destruct r; [by edestruct Hr|done..].
  - destruct Hok as (e & ms & sub & ? & _ & ?). by exists e, ms, sub.
Qed.

(** Threads never cross.  A reply goes out only for a kind of event that has
    a root to answer, and answers exactly the root recorded for that channel,
    recorded at the address the message is sent to (or before addresses were
    recorded); the message that starts a maintenance and its reminders are
    always top-level. *)
Theorem replies_to_own_root event ctx w tr target msg ref :
  EvSend tr target msg (Some ref) ∉ w_log w ->
  EvSend tr target msg (Some ref) ∈ w_log (snd (dispatch event ctx w)) ->
  ev_Kind event ≠ NotifyEventMaintStarted ∧ ev_Kind event ≠ NotifyEventMaintReminder ∧
  ∃ row ch, row ∈ maintenance_notify_targets (w_db w) ∧ ch ∈ messenger_channels (w_db w) ∧
    tr_MaintenanceID row = ev_MaintID event ∧ ch_ID ch = tr_ChannelID row ∧
    ch_Transport ch = tr ∧ ch_TransportChannelID ch = target ∧
    tr_RootMessageID row = Some (MessageID ref) ∧ MessageID ref ≠ ""%string ∧
    (tr_RootChannel row = Some target ∨ FromPtr EmptyString (tr_RootChannel row) = ""%string).
Proof.
  intros Hold Hin. destruct (dispatch event ctx w) as [r w'] eqn:E. simpl in Hin.
  apply dispatch_cases in E as [(_ & Hl & _)|(_ & e & ms & sub & Hk & _ & _ & Hsub & Hl & _)]; [by rewrite Hl in Hin|].
  rewrite Hl in Hin. apply elem_of_app in Hin as [?|(t & Hsent & Ht)%list_elem_of_fmap]; [done|].
  apply (sublist_subseteq _ _ Hsub) in Ht. apply list_elem_of_fmap in Ht as ([row ch] & -> & Hrow).
  unfold target_rows in Hrow. apply elem_of_sort_by, list_elem_of_bind in Hrow as (row' & Hp & Hr').
  apply list_elem_of_fmap in Hp as (ch' & [= -> ->] & [Hc Hch]%list_elem_of_filter).
  apply list_elem_of_filter in Hr' as [Hm Hrow]. unfold sent, replyTo in Hsent. rewrite Hk in Hsent.
  destruct (String.eqb_spec (ev_Kind event) NotifyEventMaintStarted); [done|].
  destruct (String.eqb_spec (ev_Kind event) NotifyEventMaintReminder); [done|]. split; [done|]. split; [done|].
  exists row', ch'. simpl in Hsent. unfold rootRefFromDB in Hsent.
  destruct (tr_RootMessageID row') as [mid|]; [|done]. destruct (String.eqb_spec mid ""); [done|].
  destruct (String.eqb_spec (FromPtr EmptyString (tr_RootChannel row')) "") as [Hroot|Hroot]; simpl in Hsent.
  { injection Hsent as -> -> _ ->. split_and!; try done. by right. }
  destruct (String.eqb_spec (FromPtr EmptyString (tr_RootChannel row')) (ch_TransportChannelID ch')) as [Ha|Ha];
    simpl in Hsent; [|done].
  injection Hsent as -> -> _ ->. split_and!; try done. left. destruct (tr_RootChannel row'); simpl in *; congruence.
Qed.

(** A reminder that fires late is harmless: unless the maintenance is still
    planned, the processor contacts nobody, and it asks for a retry only when
    the maintenance could not be read. *)
Theorem reminder_only_when_planned maintID w r w' :
  ReminderProcessor_ProcessTask maintID background w = (r, w') ->
  w_log w' ≠ w_log w ->
  r = Ok tt ∧ ∃ row, find_maint maintID (w_db w) = Some row ∧ mr_Status row = MaintenanceStatusPlanned ∧
    ∃ sent_, w_log w' = w_log w ++ sent_ ∧
      Forall (fun e => match e with EvSend _ _ _ reply => reply = None | _ => False end) sent_.
Proof.
  unfold ReminderProcessor_ProcessTask. intros E Hlog.
  assert (quiet (GetMaint maintID)) as Hq.
  { apply quiet_bind; [apply quiet_query|]. by intros [row|]. }
  apply bind_inv in E as [(res & w1 & H1 & E)|(_ & r0 & H1 & _)].
  2: { exfalso. apply Hlog. eapply quiet_run, H1. by apply quiet_attempt. }
  pose proof (quiet_run _ _ _ _ _ (quiet_attempt _ Hq) H1) as Hl1. apply attempt_Ok in H1.
  destruct res as [maint|err].
  2: { exfalso. apply Hlog. rewrite <- Hl1. by destruct (errors_Is err _); injection E as <- <-. }
  apply getMaint_Ok in H1 as (row & Hf & -> & Hdb & _). unfold shouldRemind in E. simpl in E.
  destruct (String.eqb_spec (mr_Status row) MaintenanceStatusPlanned) as [Hs|]; [|by injection E as <- <-].
  unfold NotifyMaintReminder in E.
  apply dispatch_cases in E as [(_ & Hl & _)|(-> & e & ms & sub & Hk & _ & _ & _ & Hl & _)]; [congruence|].
  split; [done|]. exists row. split_and!; [done..|]. exists (sent e ms <$> sub). rewrite Hl, Hl1. split; [done|].
  apply Forall_forall. intros x (t & -> & _)%list_elem_of_fmap. simpl. unfold replyTo. rewrite Hk. done.
Qed.
End properties.

(** A messenger on which everything is delivered. *)
Definition ex_messenger : Messenger := {|
  renderer_Render := fun _ _ e => inl (mkMessage (ev_Kind e) (ev_MaintTitle e) "text/plain");
  ResolveOwner := fun _ _ => None; ResolveMentions := fun _ _ => []; registry_Get := fun _ _ => None;
  transport_Send := fun _ _ _ _ _ => inl (mkSendResult (Some (mkRef "99")) false); frontendURL := "" |}.
Definition ex_step_event : NotifyEvent := zeroEvent <| ev_Kind := NotifyEventStepStarted |> <| ev_MaintID := 3%N |>.
Definition ex_reply : Effect := EvSend "slack" "#ops" (mkMessage "step.started" "" "text/plain") (Some (mkRef "42")).

Lemma replies_to_own_root_witness :
  w_log (snd (@dispatch calm_env ex_messenger ex_step_event background ex_world)) = [ex_reply] ∧
  ∃ row, row ∈ maintenance_notify_targets ex_db ∧ tr_RootMessageID row = Some "42"%string ∧
    tr_RootChannel row = Some "#ops"%string.
Proof.
  split; [vm_compute; reflexivity|].
  destruct (@replies_to_own_root calm_env ex_messenger ex_step_event background ex_world "slack" "#ops"
    (mkMessage "step.started" "" "text/plain") (mkRef "42")) as (_ & _ & row & ch & Hr & _ & _ & _ & _ & _ & Hm & _ & Ha).
  - apply not_elem_of_nil.
  - evaluate (@dispatch calm_env ex_messenger ex_step_event background ex_world). apply list_elem_of_here.
  - exists row. split; [exact Hr|]. split; [exact Hm|].
    destruct Ha as [Ha|Ha]; [exact Ha|exfalso].
    repeat (apply elem_of_cons in Hr as [->|Hr]; [discriminate|]). by apply not_elem_of_nil in Hr.
Defined.

Lemma reminder_only_when_planned_witness :
  ∃ w', @ReminderProcessor_ProcessTask calm_env ex_messenger 1 background ex_world = (Ok tt, w') ∧
    length (w_log w') = 1%nat ∧
    ∃ row, find_maint 1 ex_db = Some row ∧ mr_Status row = MaintenanceStatusPlanned.
Proof.
  pose proof (@reminder_only_when_planned calm_env ex_messenger 1 ex_world) as Ht.
  evaluate (@ReminderProcessor_ProcessTask calm_env ex_messenger 1 background ex_world).
  eexists. split; [reflexivity|]. split; [reflexivity|].
  destruct (Ht _ _ eq_refl ltac:(discriminate)) as (_ & row & Hf & Hs & _).
  exists row. split; [exact Hf|exact Hs].
Defined.
