(* ===== verification/UserSummary.v ===== *)
(** * User summaries and pickers (internal/services/usersummary, internal/services/userpicker)

    Authors, owners and mentioned users are named from the users table through a
    cache that drops what was not asked for during its time to live; a user who
    cannot be resolved is named as unknown, and nothing fails.  The picker is the
    user list without the blocked ones. *)
From Stdlib Require Import ZArith Lia Ascii String.
From stdpp Require Import base gmap sorting sets strings numbers list.
From S2P Require Import Prelude Go Entity Conflict AuditTrail Schema Logic MaintStore UserStore Like Fixtures Identities Notify.
Open Scope Z_scope.

(** ** entity/user.go *)

Definition UnknownUserName : string := "Unknown user".
Record UserSummary := mkSummary { us_ID : UUID; us_Name : string; us_Email : string }.
Definition ToUserSummary (u : User) : UserSummary := mkSummary (u_ID u) (u_Name u) (u_Email u).
Definition NewUnknownUserSummary (id : UUID) : UserSummary := mkSummary id UnknownUserName "".

(** The ttlcache library, with a time to live and a capacity. *)
Class TTLCache := {
  tcache : Type;
  tc_New : Duration -> Z -> tcache;
  tc_Get : Time -> UUID -> tcache -> option User * tcache;
  tc_Set : Time -> UUID -> User -> tcache -> tcache }.
(** What it documents.  It holds, by key, what was set last and when it was last
    set or asked for; it may drop anything; it answers only what it holds and what
    was set or asked for within the time to live, and answering counts as asking. *)
Class TTLCacheSpec `{TTLCache} := {
  tc_held : tcache -> gmap UUID (User * Time);
  tc_ttl : tcache -> Duration;
  tc_New_held ttl n : tc_held (tc_New ttl n) = ∅;
  tc_New_ttl ttl n : tc_ttl (tc_New ttl n) = ttl;
  tc_Get_ttl now id c : tc_ttl (snd (tc_Get now id c)) = tc_ttl c;
  tc_Set_ttl now id u c : tc_ttl (tc_Set now id u c) = tc_ttl c;
  tc_Get_None now id c : fst (tc_Get now id c) = None -> tc_held (snd (tc_Get now id c)) ⊆ tc_held c;
  tc_Get_Some now id c u : fst (tc_Get now id c) = Some u ->
    (∃ t, tc_held c !! id = Some (u, t) ∧ now <= t + tc_ttl c) ∧
    tc_held (snd (tc_Get now id c)) ⊆ <[id := (u, now)]> (tc_held c);
  tc_Set_held now id u c : tc_held (tc_Set now id u c) ⊆ <[id := (u, now)]> (tc_held c) }.

(** ** services/usersummary *)

Definition defaultTTL : Duration := Minute.
Definition defaultCapacity : Z := 10000.
Definition blockedNameSuffix : string := " [blocked]".

Section resolver.
Context `{Env} `{Collation} `{TTLCache}.

Definition NewService : tcache := tc_New defaultTTL defaultCapacity.

(** A call of the cache reads the clock. *)
Definition cache_Get (id : UUID) (c : tcache) : M (option User * tcache) := fun _ w => (Ok (tc_Get (env_now (w_step w)) id c), tick w).
Definition cache_Set (id : UUID) (u : User) (c : tcache) : M tcache := fun _ w => (Ok (tc_Set (env_now (w_step w)) id u c), tick w).

(** *** resolve.go *)

Definition getUsersByIDs (ids : list UUID) : M (gmap UUID User) :=
  if Nat.eqb (length ids) 0 then mret ∅
  else
    res ← wrap_err (Errorf "list users by ids") (ListUsers (mkListUsers "" false [] ids (Z.of_nat (length ids)) 0 false));
    mret (foldl (fun byID u => <[u_ID u := u]> byID) ∅ (lr_Users res)).

(** The two loops over the ids: the cache first, then what was fetched. *)
Fixpoint serve_hits (ids : list UUID) (out : gmap UUID (option User)) (c : tcache)
    : M (gmap UUID (option User) * list UUID * tcache) :=
  match ids with
  | [] => mret (out, [], c)
  | id :: rest =>
      got ← cache_Get id c;
      match fst got with
      | Some u => serve_hits rest (<[id := Some u]> out) (snd got)
      | None => r ← serve_hits rest out (snd got); mret (fst (fst r), id :: snd (fst r), snd r)
      end
  end.
Fixpoint keep_misses (resolved : gmap UUID User) (misses : list UUID) (out : gmap UUID (option User)) (c : tcache)
    : M (gmap UUID (option User) * tcache) :=
  match misses with
  | [] => mret (out, c)
  | id :: rest =>
      match resolved !! id with
      | None => keep_misses resolved rest (<[id := None]> out) c
      | Some user => c ← cache_Set id user c; keep_misses resolved rest (<[id := Some user]> out) c
      end
  end.
Definition named (ids : list UUID) : list UUID := List.filter (fun id => negb (N.eqb id uuid_Nil)) (uniq ids).
Definition resolveUsers (ids : list UUID) (c : tcache) : M (gmap UUID (option User) * tcache) :=
  let uniqIDs := named ids in
  if Nat.eqb (length uniqIDs) 0 then mret (∅, c)
  else
    r ← serve_hits uniqIDs ∅ c;
    let '(out, misses, c) := r in
    if Nat.eqb (length misses) 0 then mret (out, c)
    else
      fetched ← attempt (getUsersByIDs misses);
      keep_misses (match fetched with inl resolved => resolved | inr _ => ∅ end) misses out c.

Definition ResolveMany (ids : list UUID) (c : tcache) : M (gmap UUID UserSummary * tcache) :=
  r ← resolveUsers ids c;
  mret (map_imap (fun id user => Some (match user with Some u => ToUserSummary u | None => NewUnknownUserSummary id end)) (fst r), snd r).
Definition ResolveOne (id : UUID) (c : tcache) : M (option UserSummary * tcache) :=
  if N.eqb id uuid_Nil then mret (None, c)
  else r ← ResolveMany [id] c; mret (fst r !! id, snd r).

(** *** resolve_owner.go and resolve_mentions.go *)

Definition mention_of (u : User) : UserMention := mkMention (u_Name u) (u_TelegramTag u) (u_SlackTag u).
Definition owner_mention (user : option User) : UserMention :=
  match user with
  | None => mkMention UnknownUserName None None
  | Some u => if IsBlocked u then mkMention (u_Name u +:+ blockedNameSuffix) None None else mention_of u
  end.
Definition ResolveOwner (id : UUID) (c : tcache) : M (option UserMention * tcache) :=
  if N.eqb id uuid_Nil then mret (None, c)
  else r ← resolveUsers [id] c; mret (Some (owner_mention (mjoin (fst r !! id))), snd r).
Definition ResolveMentions (ids : list UUID) (c : tcache) : M (list UserMention * tcache) :=
  let uniqIDs := named ids in
  if Nat.eqb (length uniqIDs) 0 then mret ([], c)
  else
    r ← resolveUsers uniqIDs c;
    mret (omap (fun id => match mjoin (fst r !! id) with
                          | Some u => if IsBlocked u then None else Some (mention_of u)
                          | None => None
                          end) uniqIDs, snd r).

(** ** services/userpicker *)

Record ListAssignableUsersQuery := mkAssignable { aq_Search : string; aq_Roles : list Role; aq_Limit : Z; aq_Offset : Z }.
Record ListAssignableUsersResult := mkAssignableResult { ar_Users : list User; ar_Total : Z; ar_Limit : Z; ar_Offset : Z }.
Definition ListAssignable (q : ListAssignableUsersQuery) : M ListAssignableUsersResult :=
  res ← ListUsers (mkListUsers (aq_Search q) false (aq_Roles q) [] (aq_Limit q) (aq_Offset q) true);
  mret (mkAssignableResult (lr_Users res) (lr_Total res) (aq_Limit q) (aq_Offset q)).
End resolver.

(** ** What is shown *)

(** A user as the table has it. *)
Definition stored (db : DB) (id : UUID) (u : User) : Prop := ∃ row, row ∈ users db ∧ ur_ID row = id ∧ u = fromDBUser row.
(** A reading of the clock between two points. *)
Definition between `{Env} (w w' : World) (t : Time) : Prop := ∃ k, (w_step w <= k < w_step w')%nat ∧ t = env_now k.

Section facts.
Context `{Env} `{Collation} `{TTLCacheSpec}.

Lemma between_mono (w w' v v' : World) t : between w w' t -> (w_step v <= w_step w)%nat -> (w_step w' <= w_step v')%nat -> between v v' t.
Proof. intros (k & Hk & ->) ? ?. exists k. split; [lia|done]. Qed.

Lemma List_faulting cmd : 0 <= lu_Limit cmd -> 0 <= lu_Offset cmd -> faulting (UserStore.List_ cmd).
Proof.
  intros Hl Ho. unfold List_. apply faulting_bind; [apply faulting_query|intros total]. destruct (Z.ltb_spec (lu_Limit cmd) 0); [lia|].
  apply faulting_bind; [apply faulting_ret|intros _]. apply faulting_bind; [|intros; apply faulting_ret].
  apply faulting_sql. intros. destruct (Z.ltb_spec (lu_Offset cmd) 0); [lia|by eexists].
Qed.
Lemma ListUsers_faulting cmd : 0 <= lu_Limit cmd -> 0 <= lu_Offset cmd -> faulting (ListUsers cmd).
Proof.
  intros Hl Ho. apply faulting_bind; [by apply List_faulting|intros listed]. apply faulting_bind; [apply faulting_query|intros admins].
  apply faulting_bind; [|intros; apply faulting_ret]. unfold ListMethodsByUserIDs. destruct (Nat.eqb _ 0); [apply faulting_ret|].
  apply faulting_bind; [apply faulting_query|intros; apply faulting_ret].
Qed.
Lemma getUsersByIDs_faulting ids : faulting (getUsersByIDs ids).
Proof.
  unfold getUsersByIDs. destruct (Nat.eqb _ 0); [apply faulting_ret|].
  apply faulting_bind; [|intros; apply faulting_ret]. apply faulting_wrap_err, ListUsers_faulting; simpl; lia.
Qed.

Lemma reads_ListUsers cmd : reads (ListUsers cmd).
Proof.
  unfold ListUsers, List_, countList, CountActiveAdmins, countList, ListMethodsByUserIDs, listMethods. reads_solve.
Qed.
Lemma reads_getUsersByIDs ids : reads (getUsersByIDs ids).
Proof. unfold getUsersByIDs. destruct (Nat.eqb _ 0); [apply reads_ret|]. apply reads_bind; [apply reads_wrap_err, reads_ListUsers|intros; apply reads_ret]. Qed.

(** The page of a listing. *)
Lemma ListUsers_Ok cmd ctx w res w' :
  ListUsers cmd ctx w = (Ok res, w') ->
  lr_Users res = fromDBUser <$> take (Z.to_nat (lu_Limit cmd)) (drop (Z.to_nat (lu_Offset cmd))
    (sort_by name_cmp (List.filter (listWhereExpr cmd) (users (w_db w))))) ∧
  lr_Total res = Z.of_nat (length (List.filter (listWhereExpr cmd) (users (w_db w)))).
Proof.
  unfold ListUsers. intros (listed & w1 & Hl & (admins & w2 & _ & (provs & w3 & _ & [= <- _])%bind_Ok)%bind_Ok)%bind_Ok. simpl.
  unfold List_ in Hl. apply bind_Ok in Hl as (total & w4 & (-> & Hdb & _)%query_Ok & (u & w5 & Hu & (l & w6 & (db & Hl & ->)%sql_Ok & [= <- _])%bind_Ok)%bind_Ok).
  assert (w5 = w4) as -> by (destruct (lu_Limit cmd <? 0); by injection Hu as _ <-). simpl. rewrite Hdb in Hl.
  destruct (lu_Offset cmd <? 0); [done|]. by injection Hl as <- _.
Qed.

(** The users by their ids. *)
Lemma byID_Some l (m : gmap UUID User) id u :
  foldl (fun byID u => <[u_ID u := u]> byID) m l !! id = Some u -> m !! id = Some u ∨ (u ∈ l ∧ u_ID u = id).
Proof.
  revert m. induction l as [|x l IH]; intros m; simpl; [by left|]. intros [Hm|[Hin Hid]]%IH; [|right; split; [set_solver|done]].
  destruct (decide (u_ID x = id)) as [<-|Hne]; [rewrite lookup_insert_eq in Hm; injection Hm as <-; right; set_solver|].
  rewrite lookup_insert_ne in Hm by done. by left.
Qed.
Lemma byID_elem l (m : gmap UUID User) u : NoDup (u_ID <$> l) -> u ∈ l -> foldl (fun byID u => <[u_ID u := u]> byID) m l !! u_ID u = Some u.
Proof.
  revert m. induction l as [|x l IH]; intros m; [set_solver|]. rewrite fmap_cons. intros [Hx Hnd]%NoDup_cons [->|Hin]%elem_of_cons; simpl; [|by apply IH].
  assert (∀ m' : gmap UUID User, m' !! u_ID x = Some x -> foldl (fun byID u => <[u_ID u := u]> byID) m' l !! u_ID x = Some x) as Hkeep; [|apply Hkeep, lookup_insert_eq].
  clear IH Hnd. induction l as [|y l IH]; intros m' Hm; simpl; [done|]. rewrite fmap_cons in Hx. apply not_elem_of_cons in Hx as [Hne Hx].
  apply IH; [done|]. by rewrite lookup_insert_ne.
Qed.

(** The rows with these ids are as many as the ids at most, so that the limit
    cuts none off. *)
Lemma ids_page ids (rows : list UserRow) :
  NoDup (ur_ID <$> rows) -> ids ≠ [] ->
  let cmd := mkListUsers "" false [] ids (Z.of_nat (length ids)) 0 false in
  take (length ids) (sort_by name_cmp (List.filter (listWhereExpr cmd) rows)) ≡ₚ List.filter (fun r => bool_decide (ur_ID r ∈ ids)) rows.
Proof.
  intros Hnd Hne cmd. assert (List.filter (listWhereExpr cmd) rows = List.filter (fun r => bool_decide (ur_ID r ∈ ids)) rows) as ->.
  { apply filter_ext. intros r. unfold listWhereExpr, cmd. simpl. rewrite (bool_decide_eq_false_2 (ids = [])) by done. simpl. by rewrite !andb_true_r. }
  rewrite take_ge; [apply sort_by_Permutation|]. rewrite (Permutation_length (sort_by_Permutation _ _)).
  rewrite <- (length_fmap ur_ID). apply submseteq_length, NoDup_submseteq; [by apply NoDup_fmap_List_filter|].
  intros id (r & -> & [_ Hr]%elem_of_List_filter)%list_elem_of_fmap. by apply bool_decide_eq_true in Hr.
Qed.
Lemma getUsersByIDs_Ok ids ctx w m w' :
  NoDup (ur_ID <$> users (w_db w)) -> getUsersByIDs ids ctx w = (Ok m, w') ->
  ∀ id u, m !! id = Some u ↔ id ∈ ids ∧ stored (w_db w) id u.
Proof.
  intros Hnd E id u. unfold getUsersByIDs in E. destruct (Nat.eqb_spec (length ids) 0) as [Hl|Hl].
  { injection E as <- _. apply nil_length_inv in Hl as ->. rewrite lookup_empty. set_solver. }
  assert (ids ≠ []) as Hne by by intros ->. run_all. match goal with Hr : ListUsers _ _ _ = _ |- _ => apply ListUsers_Ok in Hr as [Hu _] end.
  pose proof (ids_page ids _ Hnd Hne) as Hp. cbv zeta in Hp. cbn [lu_Limit lu_Offset] in Hu. rewrite Nat2Z.id in Hu. change (Z.to_nat 0) with 0%nat in Hu.
  rewrite drop_0 in Hu. rewrite Hu. set (page := take _ _) in *. clearbody page.
  assert (∀ x, x ∈ fromDBUser <$> page ↔ u_ID x ∈ ids ∧ stored (w_db w) (u_ID x) x) as Hx.
  { intros x. rewrite list_elem_of_fmap. split.
    - intros (r & -> & Hr). rewrite Hp in Hr. apply elem_of_List_filter in Hr as [Hr Hid%bool_decide_eq_true]. split; [done|by exists r].
    - intros [Hid (r & Hr & Heq & Hxr)]. exists r. split; [done|]. rewrite Hp. apply elem_of_List_filter. split; [done|].
      apply bool_decide_eq_true. by rewrite Heq. }
  split.
  - intros [Hm|[Hin <-]]%byID_Some; [by rewrite lookup_empty in Hm|by apply Hx].
  - intros [Hid Hs]. assert (u_ID u = id) as <- by (by destruct Hs as (r & _ & <- & ->)). apply byID_elem; [|by apply Hx].
    rewrite <- list_fmap_compose. change (u_ID ∘ fromDBUser) with ur_ID. rewrite Hp. by apply NoDup_fmap_List_filter.
Qed.

(** What a cache may hold after a run: what it held, with the same time or one of
    the run, or what the run put there. *)
Definition refreshed (ids : list UUID) (new : UUID -> User -> Prop) (c c' : tcache) (w w' : World) : Prop :=
  tc_ttl c' = tc_ttl c ∧
  ∀ id u t, tc_held c' !! id = Some (u, t) ->
    tc_held c !! id = Some (u, t) ∨ (id ∈ ids ∧ between w w' t ∧ (new id u ∨ ∃ t0, tc_held c !! id = Some (u, t0))).

Lemma held_sub (m : gmap UUID (User * Time)) c' id u t :
  tc_held c' ⊆ m -> tc_held c' !! id = Some (u, t) -> m !! id = Some (u, t).
Proof. intros Hs Hc. by eapply lookup_weaken. Qed.

Lemma serve_hits_Ok ids out c ctx w : NoDup ids -> ∃ out' misses c' w',
  serve_hits ids out c ctx w = (Ok (out', misses, c'), w') ∧ w_db w' = w_db w ∧ (w_step w <= w_step w')%nat ∧
  refreshed ids (fun _ _ => False) c c' w w' ∧ misses ⊆ ids ∧ NoDup misses ∧
  (∀ id, id ∉ ids ∨ id ∈ misses -> out' !! id = out !! id) ∧
  (∀ id, id ∈ ids -> id ∉ misses -> ∃ u t now, out' !! id = Some (Some u) ∧ tc_held c !! id = Some (u, t) ∧ between w w' now ∧ now <= t + tc_ttl c).
Proof.
  revert out c w. induction ids as [|id ids IH]; intros out c w Hnd.
  { exists out, [], c, w. split_and!; [done..| |set_solver|constructor|done|set_solver]. split; [done|]. intros; by left. }
  apply NoDup_cons in Hnd as [Hid Hnd]. set (now := env_now (w_step w)). set (c1 := snd (tc_Get now id c)).
  pose proof (tc_Get_ttl now id c) as Ht1. fold c1 in Ht1.
  assert (∀ x u t, x ≠ id -> tc_held c1 !! x = Some (u, t) -> tc_held c !! x = Some (u, t)) as Hold.
  { intros x u t Hx Hh. destruct (fst (tc_Get now id c)) as [v|] eqn:Eg.
    - pose proof (held_sub _ _ _ _ _ (proj2 (tc_Get_Some _ _ _ _ Eg)) Hh) as Hc. by rewrite lookup_insert_ne in Hc.
    - exact (held_sub _ _ _ _ _ (tc_Get_None _ _ _ Eg) Hh). }
  set (out1 := match fst (tc_Get now id c) with Some u => <[id := Some u]> out | None => out end).
  destruct (IH out1 c1 (tick w) Hnd) as (out' & misses & c' & w' & E & Hdb & Hle & [Ht Hr] & Hsub & Hmn & Hout & Hhit).
  assert (refreshed (id :: ids) (fun _ _ => False) c c' w w') as Href.
  { split; [congruence|]. intros x u t Hh. destruct (Hr x u t Hh) as [H1x|(Hin & Hb & [[]|(t0 & H1x)])].
    - destruct (decide (x = id)) as [->|Hx]; [|left; by apply Hold]. destruct (fst (tc_Get now id c)) as [v|] eqn:Eg.
      + destruct (tc_Get_Some _ _ _ _ Eg) as [(t1 & Hc & _) Hs]. pose proof (held_sub _ _ _ _ _ Hs H1x) as Hi. rewrite lookup_insert_eq in Hi.
        injection Hi as <- <-. right. split; [set_solver|]. split; [|right; by exists t1]. exists (w_step w). split; [simpl in Hle; lia|done].
      + left. exact (held_sub _ _ _ _ _ (tc_Get_None _ _ _ Eg) H1x).
    - right. split; [set_solver|]. split; [eapply between_mono; [exact Hb|simpl; lia..]|right]. exists t0. apply Hold; [set_solver|done]. }
  assert (∀ x, x ∈ ids -> x ∉ misses -> ∃ u t now, out' !! x = Some (Some u) ∧ tc_held c !! x = Some (u, t) ∧ between w w' now ∧ now <= t + tc_ttl c) as Hhit'.
  { intros x Hx Hm. destruct (Hhit x Hx Hm) as (u & t & n & Ho & Hc & Hb & Hn). exists u, t, n. rewrite Ht1 in Hn. split_and!; [done| | |done].
    - apply Hold; [set_solver|done].
    - eapply between_mono; [exact Hb|simpl; lia..]. }
  cbn [serve_hits]. unfold cache_Get, mbind, M_bind. fold now c1. destruct (fst (tc_Get now id c)) as [v|] eqn:Eg.
  - exists out', misses, c', w'. split; [exact E|]. split_and!; [done|simpl in Hle; lia|done|set_solver|done| |].
    + intros x Hx. rewrite Hout by set_solver. unfold out1. apply lookup_insert_ne. intros <-. destruct Hx; set_solver.
    + intros x [->|Hx]%elem_of_cons Hm; [|by apply Hhit']. destruct (tc_Get_Some _ _ _ _ Eg) as [(t & Hc & Hn) _]. exists v, t, now.
      split_and!; [rewrite Hout by (by left); apply lookup_insert_eq|done| |done]. exists (w_step w). split; [simpl in Hle; lia|done].
  - exists out', (id :: misses), c', w'. unfold out1 in E. rewrite E. split; [done|]. split_and!; [done|simpl in Hle; lia|done|set_solver| | |].
    + apply NoDup_cons. split; [set_solver|done].
    + intros x Hx. destruct (decide (x = id)) as [->|]; [rewrite Hout by (by left); done|]. apply Hout. set_solver.
    + intros x Hx Hm. apply Hhit'; set_solver.
Qed.

Lemma keep_misses_Ok resolved misses out c ctx w : ∃ out' c' w',
  keep_misses resolved misses out c ctx w = (Ok (out', c'), w') ∧ w_db w' = w_db w ∧ (w_step w <= w_step w')%nat ∧
  refreshed misses (fun id u => resolved !! id = Some u) c c' w w' ∧
  (∀ id, id ∈ misses -> out' !! id = Some (resolved !! id)) ∧ (∀ id, id ∉ misses -> out' !! id = out !! id).
Proof.
  revert out c w. induction misses as [|id misses IH]; intros out c w.
  { exists out, c, w. split_and!; [done..| |set_solver|done]. split; [done|]. intros; by left. }
  cbn [keep_misses]. destruct (resolved !! id) as [v|] eqn:Ev.
  - unfold cache_Set, mbind, M_bind. set (c1 := tc_Set _ _ _ _).
    destruct (IH (<[id := Some v]> out) c1 (tick w)) as (out' & c' & w' & E & Hdb & Hle & [Ht Hr] & Hin & Hout). exists out', c', w'. split; [done|].
    simpl in Hle. assert (∀ x u t, tc_held c1 !! x = Some (u, t) -> tc_held c !! x = Some (u, t) ∨ (x = id ∧ u = v ∧ t = env_now (w_step w))) as Hc1.
    { intros x u t Hh. apply (held_sub _ _ _ _ _ (tc_Set_held _ _ _ _)) in Hh. apply lookup_insert_Some in Hh as [[-> [= <- <-]]|[_ Hh]]; [by right|by left]. }
    split_and!; [done|lia| | |].
    + split; [by rewrite Ht; apply tc_Set_ttl|]. intros x u t Hh. destruct (Hr x u t Hh) as [[Hc|(-> & -> & ->)]%Hc1|(Hx & Hb & Hnew)]; [by left|right..].
      * split; [set_solver|]. split; [exists (w_step w); split; [lia|done]|by left].
      * split; [set_solver|]. split; [eapply between_mono; [exact Hb|simpl; lia..]|]. destruct Hnew as [Hnew|(t0 & [Hc|(-> & -> & _)]%Hc1)]; [by left|right; by exists t0|by left].
    + intros x Hx. destruct (decide (x ∈ misses)) as [Hm|Hm]; [by apply Hin|]. assert (x = id) as -> by set_solver. rewrite Hout by done. by rewrite lookup_insert_eq, Ev.
    + intros x Hx. rewrite Hout by set_solver. apply lookup_insert_ne. set_solver.
  - destruct (IH (<[id := None]> out) c w) as (out' & c' & w' & E & Hdb & Hle & [Ht Hr] & Hin & Hout). exists out', c', w'. split; [done|].
    split_and!; [done|lia| | |].
    + split; [done|]. intros x u t Hh. destruct (Hr x u t Hh) as [|(Hx & Hb & Hnew)]; [by left|right]. split; [set_solver|done].
    + intros x Hx. destruct (decide (x ∈ misses)) as [Hm|Hm]; [by apply Hin|]. assert (x = id) as -> by set_solver. rewrite Hout by done. by rewrite lookup_insert_eq, Ev.
    + intros x Hx. rewrite Hout by set_solver. apply lookup_insert_ne. set_solver.
Qed.

Lemma elem_of_named ids id : id ∈ named ids ↔ id ∈ ids ∧ id ≠ uuid_Nil.
Proof. unfold named. rewrite elem_of_List_filter, elem_of_uniq, negb_true_iff, N.eqb_neq. done. Qed.
Lemma NoDup_named ids : NoDup (named ids).
Proof. rewrite <- (list_fmap_id (named ids)). apply NoDup_fmap_List_filter. rewrite list_fmap_id. apply NoDup_uniq. Qed.

(** How a user was found: in the table now, or in the cache. *)
Definition found (w w' : World) (c : tcache) (id : UUID) (u : User) : Prop :=
  stored (w_db w) id u ∨ ∃ t now, tc_held c !! id = Some (u, t) ∧ between w w' now ∧ now <= t + tc_ttl c.
Definition missing (w w' : World) (id : UUID) : Prop := (∀ u, ~ stored (w_db w) id u) ∨ faulted w w'.

Lemma found_mono (w w1 w' : World) c id u : found w w1 c id u -> (w_step w1 <= w_step w')%nat -> found w w' c id u.
Proof. intros [Hs|(t & now & Hc & Hb & Hn)] Hle; [by left|right]. exists t, now. split_and!; [done|by eapply between_mono|done]. Qed.
Lemma refreshed_trans ids ids' new c c1 c' (w w1 w' : World) :
  refreshed ids (fun _ _ => False) c c1 w w1 -> refreshed ids' new c1 c' w1 w' -> ids' ⊆ ids -> (w_step w <= w_step w1 <= w_step w')%nat -> refreshed ids new c c' w w'.
Proof.
  intros [Ht H1r] [Ht' H2r] Hsub Hle. split; [congruence|]. intros id u t [H1x|(Hin & Hb & Hx)]%H2r.
  - apply H1r in H1x as [|(Hin & Hb & [[]|Hx])]; [by left|right]. split_and!; [done|eapply between_mono; [exact Hb|lia..]|by right].
  - right. split_and!; [by apply Hsub|eapply between_mono; [exact Hb|lia..]|]. destruct Hx as [|(t0 & [|(_ & _ & [[]|])]%H1r)]; [by left|right; by eexists|by right].
Qed.

Lemma missing_mono (w w' v v' : World) id :
  missing w w' id -> w_db w = w_db v -> (w_step v <= w_step w)%nat -> (w_step w' <= w_step v')%nat -> missing v v' id.
Proof. unfold missing. intros [Hs|Hf] Hdb ? ?; [left; by rewrite <- Hdb|right; by eapply faulted_mono]. Qed.
Lemma fetch_Ok misses ctx w : NoDup (ur_ID <$> users (w_db w)) -> ∃ (fetched : gmap UUID User + error) w',
  attempt (getUsersByIDs misses) ctx w = (Ok fetched, w') ∧ w_db w' = w_db w ∧ (w_step w <= w_step w')%nat ∧
  ∀ id, id ∈ misses ->
    match (match fetched with inl m => m | inr _ => ∅ end) !! id with Some u => stored (w_db w) id u | None => missing w w' id end.
Proof.
  intros Hnd. unfold attempt. destruct (getUsersByIDs misses ctx w) as [r w'] eqn:E.
  destruct (getUsersByIDs_faulting misses _ _ _ _ E) as [Hle Hf]. destruct (reads_run _ _ _ _ _ (reads_getUsersByIDs misses) E) as [Hdb _].
  destruct r as [m|e|s]; [..|done]; eexists _, w'; (split_and!; [done..|]); intros id Hid.
  - pose proof (getUsersByIDs_Ok _ _ _ _ _ Hnd E id) as Hm. destruct (m !! id) as [u|]; [by apply Hm|].
    left. intros u Hs. by assert (None = Some u) by by apply Hm.
  - cbv beta iota. replace ((∅ : gmap UUID User) !! id) with (@None User) by (by rewrite lookup_empty). by right.
Qed.

Lemma resolveUsers_Ok ids c ctx w : NoDup (ur_ID <$> users (w_db w)) -> ∃ out c' w',
  resolveUsers ids c ctx w = (Ok (out, c'), w') ∧ w_db w' = w_db w ∧ (w_step w <= w_step w')%nat ∧
  refreshed (named ids) (stored (w_db w)) c c' w w' ∧
  ∀ id, match out !! id with
        | None => id ∉ named ids
        | Some (Some u) => id ∈ named ids ∧ found w w' c id u
        | Some None => id ∈ named ids ∧ missing w w' id
        end.
Proof.
  intros Hnd. unfold resolveUsers. destruct (Nat.eqb_spec (length (named ids)) 0) as [Hl|_].
  { apply nil_length_inv in Hl. exists ∅, c, w. split_and!; [done..| |]; [split; [done|intros; by left]|]. intros id. rewrite lookup_empty, Hl. set_solver. }
  destruct (serve_hits_Ok (named ids) ∅ c ctx w (NoDup_named ids)) as (out & misses & c1 & w1 & E & Hdb & Hle & Href & Hsub & Hmn & Hout & Hhit).
  unfold mbind, M_bind. rewrite E.
  assert (∀ id, match out !! id with None => id ∉ named ids ∨ id ∈ misses | Some None => False | Some (Some u) => id ∈ named ids ∧ id ∉ misses ∧ found w w1 c id u end) as Hserved.
  { intros id. destruct (decide (id ∈ named ids ∧ id ∉ misses)) as [[Hin Hm]|Hno].
    - destruct (Hhit id Hin Hm) as (u & t & now & -> & Hc & Hb & Hn). split_and!; [done..|]. right. by exists t, now.
    - assert (id ∉ named ids ∨ id ∈ misses) as Ho by (destruct (decide (id ∈ misses)); [by right|left; naive_solver]). by rewrite Hout, lookup_empty. }
  destruct (Nat.eqb_spec (length misses) 0) as [Hl|_].
  { apply nil_length_inv in Hl as ->. exists out, c1, w1. split_and!; [done|done|done| |].
    - destruct Href as [Ht Hr]. split; [done|]. intros id u t [|(Hin & Hb & [[]|Hx])]%Hr; [by left|right; split_and!; [done..|by right]].
    - intros id. specialize (Hserved id). destruct (out !! id) as [[u|]|]; [naive_solver|done|]. destruct Hserved; [done|set_solver]. }
  destruct (fetch_Ok misses ctx w1 ltac:(by rewrite Hdb)) as (fetched & w2 & Ef & Hdb2 & Hle2 & Hfetched). rewrite Ef. rewrite Hdb in *.
  destruct (keep_misses_Ok (match fetched with inl m => m | inr _ => ∅ end) misses out c1 ctx w2) as (out' & c' & w' & Ek & Hdb3 & Hle3 & Href3 & Hin3 & Hout3).
  exists out', c', w'. split_and!; [exact Ek|congruence|lia| |].
  - eapply (refreshed_trans _ misses _ _ _ _ _ w1); [exact Href| |done|lia]. destruct Href3 as [Ht3 Hr3]. split; [done|].
    intros id u t [|(Hid & Hb & Hx)]%Hr3; [by left|right]. split_and!; [done|eapply between_mono; [exact Hb|lia..]|].
    destruct Hx as [Hx|]; [left|by right]. specialize (Hfetched id Hid). by rewrite Hx in Hfetched.
  - intros id. destruct (decide (id ∈ misses)) as [Hm|Hm].
    + rewrite Hin3 by done. specialize (Hfetched id Hm). destruct (_ !! id) as [u|]; (split; [by apply Hsub|]); [by left|].
      eapply missing_mono; [exact Hfetched|done|lia..].
    + rewrite Hout3 by done. specialize (Hserved id). destruct (out !! id) as [[u|]|]; [|done|naive_solver].
      destruct Hserved as (? & _ & ?). split; [done|]. eapply found_mono; [done|lia].
Qed.

(** *** Requests and changes, one after another *)

(** The desk: the world, the cache, the databases summaries were resolved from,
    and when which id was asked for. *)
Record Desk := mkDesk { dk_world : World; dk_cache : tcache; dk_past : list DB; dk_asked : list (UUID * Time) }.
Definition keyed (w : World) : Prop := NoDup (ur_ID <$> users (w_db w)).
Definition asked_in (ids : list UUID) (w w' : World) : list (UUID * Time) :=
  ids ≫= fun id => (fun k => (id, env_now k)) <$> seq (w_step w) (w_step w' - w_step w).
(** Users are resolved, or the database changes in any way that keeps the
    primary key of users. *)
Inductive desk_step : Desk -> Desk -> Prop :=
  | desk_resolve ids ctx w c out c' w' past asked :
      resolveUsers ids c ctx w = (Ok (out, c'), w') ->
      desk_step (mkDesk w c past asked) (mkDesk w' c' (w_db w :: past) (asked_in ids w w' ++ asked))
  | desk_change w w' c past asked :
      keyed w' -> (w_step w <= w_step w')%nat -> desk_step (mkDesk w c past asked) (mkDesk w' c past asked).

Record desk_ok (d : Desk) : Prop := {
  do_keyed : keyed (dk_world d);
  do_ttl : tc_ttl (dk_cache d) = Minute;
  do_held id u t : tc_held (dk_cache d) !! id = Some (u, t) -> (∃ db, db ∈ dk_past d ∧ stored db id u) ∧ (id, t) ∈ dk_asked d }.

Lemma elem_of_asked_in ids w w' id t : (id, t) ∈ asked_in ids w w' ↔ id ∈ ids ∧ between w w' t.
Proof.
  unfold asked_in, between. rewrite list_elem_of_bind. split.
  - intros (x & (k & [= -> ->] & Hk%elem_of_seq)%list_elem_of_fmap & Hx). split; [done|]. exists k. split; [lia|done].
  - intros [Hid (k & Hk & ->)]. exists id. split; [|done]. apply list_elem_of_fmap. exists k. split; [done|]. apply elem_of_seq. lia.
Qed.
Lemma desk_reached w0 d : keyed w0 -> rtc desk_step (mkDesk w0 NewService [] []) d -> desk_ok d.
Proof.
  intros Hk. apply (rtc_ind_r desk_ok).
  { split; [done|apply tc_New_ttl|]. simpl. intros id u t Hh. unfold NewService in Hh. by rewrite tc_New_held, lookup_empty in Hh. }
  intros d1 d2 _ [ids ctx w c out c' w' past asked E|w w' c past asked Hw Hle] [Hkd Ht Hh]; [|by split].
  simpl in *. destruct (resolveUsers_Ok ids c ctx w Hkd) as (out1 & c1 & w1 & E1 & Hdb & _ & [Ht1 Hr] & _). rewrite E in E1. injection E1 as <- <- <-.
  split; simpl; [unfold keyed; by rewrite Hdb|congruence|]. intros id u t [Hc|(Hin & Hb & Hx)]%Hr.
  - destruct (Hh _ _ _ Hc) as [(db & ? & ?) ?]. split; [exists db; set_solver|set_solver].
  - apply elem_of_named in Hin as [Hin _]. split; [|apply elem_of_app; left; by apply elem_of_asked_in].
    destruct Hx as [Hs|(t0 & Hc)]; [exists (w_db w); set_solver|]. destruct (Hh _ _ _ Hc) as [(db & ? & ?) _]. exists db. set_solver.
Qed.

(** Where a user that is shown comes from. *)
Definition shown_user (d : Desk) (w' : World) (id : UUID) (u : User) : Prop :=
  stored (w_db (dk_world d)) id u ∨
  ((∃ db, db ∈ dk_past d ∧ stored db id u) ∧ ∃ t now, (id, t) ∈ dk_asked d ∧ between (dk_world d) w' now ∧ now <= t + Minute).
Lemma found_shown d w' id u : desk_ok d -> found (dk_world d) w' (dk_cache d) id u -> shown_user d w' id u.
Proof.
  intros [_ Ht Hh] [Hs|(t & now & Hc & Hb & Hn)]; [by left|right]. destruct (Hh _ _ _ Hc) as [Hp Ha]. split; [done|]. exists t, now.
  split_and!; [done..|]. by rewrite <- Ht.
Qed.

(** C28. Names are resolved and nothing fails.  However resolutions and changes
    of the users follow each other: resolving succeeds, changes no table, and
    answers for exactly the ids that were asked for and are not nil.  A summary is
    that of the user as the table has it, or had it when it was read for an
    earlier request, and then the id was last asked for at most a minute ago; or
    it is the unknown user, and then the table has no such user or a statement
    failed.  Mentions are of users that were found in that way, and none was blocked
    when it was read. *)
Theorem summaries_resolved w0 d ids ctx :
  keyed w0 -> rtc desk_step (mkDesk w0 NewService [] []) d ->
  let w := dk_world d in
  (∃ out c' w', ResolveMany ids (dk_cache d) ctx w = (Ok (out, c'), w') ∧ w_db w' = w_db w ∧
     (∀ id, is_Some (out !! id) ↔ id ∈ ids ∧ id ≠ uuid_Nil) ∧
     ∀ id s, out !! id = Some s ->
       (∃ u, s = ToUserSummary u ∧ u_ID u = id ∧ shown_user d w' id u) ∨ (s = NewUnknownUserSummary id ∧ missing w w' id)) ∧
  (∃ mentions c' w', ResolveMentions ids (dk_cache d) ctx w = (Ok (mentions, c'), w') ∧ w_db w' = w_db w ∧
     ∀ m, m ∈ mentions -> ∃ id u, id ∈ ids ∧ shown_user d w' id u ∧ IsBlocked u = false ∧ m = mention_of u).
Proof.
  intros Hk Hr w. pose proof (desk_reached _ _ Hk Hr) as Hd. split.
  - destruct (resolveUsers_Ok ids (dk_cache d) ctx w (do_keyed _ Hd)) as (out & c' & w' & E & Hdb & _ & _ & Hout).
    eexists _, c', w'. split; [unfold ResolveMany, mbind, M_bind; rewrite E; reflexivity|]. split; [done|]. cbn [fst]. split.
    + intros id. rewrite map_lookup_imap, <- elem_of_named. specialize (Hout id). destruct (out !! id) as [[u|]|]; simpl; [split; [naive_solver|by eexists]..|]. split; [by intros [? ?]|done].
    + intros id s. rewrite map_lookup_imap. specialize (Hout id). destruct (out !! id) as [[u|]|]; simpl; intros [= <-]; [left|right; naive_solver].
      destruct Hout as [_ Hf%found_shown]; [|done]. exists u. split_and!; [done| |done].
      destruct Hf as [(r & _ & <- & ->)|[(db & _ & r & _ & <- & ->) _]]; done.
  - unfold ResolveMentions. destruct (Nat.eqb _ 0); [exists [], (dk_cache d), w; split_and!; [done..|set_solver]|].
    destruct (resolveUsers_Ok (named ids) (dk_cache d) ctx w (do_keyed _ Hd)) as (out & c' & w' & E & Hdb & _ & _ & Hout).
    eexists _, c', w'. split; [unfold mbind, M_bind; rewrite E; reflexivity|]. split; [done|]. cbn [fst].
    intros m (id & Hid & Hm)%list_elem_of_omap. apply elem_of_named in Hid as [Hid _]. specialize (Hout id).
    destruct (out !! id) as [[u|]|]; simpl in Hm; [|done..]. destruct (IsBlocked u) eqn:Eb; [done|]. injection Hm as <-.
    destruct Hout as [_ Hf%found_shown]; [|done]. by exists id, u.
Qed.
End facts.

(** ** The picker *)

Lemma filter_and {A} (p q : A -> bool) (l : list A) : List.filter p (List.filter q l) = List.filter (fun x => q x && p x) l.
Proof. induction l as [|x l IH]; simpl; [done|]. destruct (q x); simpl; [by rewrite IH|done]. Qed.

Section picker.
Context `{Env} `{Collation}.

(** Nobody who is blocked is offered: the page is a page of the active users that
    match the search and have one of the roles, and the total counts them. *)
Lemma ListAssignable_active q ctx w res w' :
  ListAssignable q ctx w = (Ok res, w') ->
  let matching := List.filter (listWhereExpr (mkListUsers (aq_Search q) false (aq_Roles q) [] 0 0 false)) (users (w_db w)) in
  let active := List.filter (fun r => negb (IsBlocked (fromDBUser r))) matching in
  w_db w' = w_db w ∧ ar_Total res = Z.of_nat (length active) ∧
  ar_Users res = fromDBUser <$> take (Z.to_nat (aq_Limit q)) (drop (Z.to_nat (aq_Offset q)) (sort_by name_cmp active)) ∧
  ∀ u, u ∈ ar_Users res -> IsBlocked u = false.
Proof.
  intros Hl matching active. unfold ListAssignable in Hl. apply bind_Ok in Hl as (l & w1 & E & Hl). injection Hl as <- <-.
  assert (List.filter (listWhereExpr (mkListUsers (aq_Search q) false (aq_Roles q) [] (aq_Limit q) (aq_Offset q) true)) (users (w_db w)) = active) as Ha.
  { unfold active, matching. rewrite filter_and. apply filter_ext. intros r. unfold listWhereExpr, user_matches, IsBlocked. simpl.
    by destruct (ur_BlockedAt r); simpl; rewrite ?andb_true_r, ?andb_false_r. }
  destruct (reads_run _ _ _ _ _ (reads_ListUsers _) E) as [Hdb _]. apply ListUsers_Ok in E as [Hu Ht]. simpl in *. rewrite Ha in Hu, Ht.
  split_and!; [done..|]. rewrite Hu. intros u (r & -> & Hr)%list_elem_of_fmap. 
  apply subseteq_take, subseteq_drop in Hr.
  rewrite elem_of_sort_by in Hr. apply elem_of_List_filter in Hr as [_ Hr]. by apply negb_true_iff in Hr.
Qed.
End picker.

(** ** Runs *)

(** A cache without a bound on its size. *)
Definition map_cache : TTLCache := {|
  tcache := Duration * gmap UUID (User * Time);
  tc_New := fun ttl _ => (ttl, ∅);
  tc_Get := fun now id c => match c.2 !! id with
    | Some (u, t) => if now <=? t + c.1 then (Some u, (c.1, <[id := (u, now)]> c.2)) else (None, c)
    | None => (None, c)
    end;
  tc_Set := fun now id u c => (c.1, <[id := (u, now)]> c.2) |}.
#[export] Instance map_cache_spec : @TTLCacheSpec map_cache.
Proof.
  refine (@Build_TTLCacheSpec map_cache (fun c : Duration * gmap UUID (User * Time) => c.2) (fun c : Duration * gmap UUID (User * Time) => c.1) _ _ _ _ _ _ _);
    simpl; [done|done| |done| | |done].
  - intros now id [ttl m]. simpl. destruct (m !! id) as [[u t]|]; [|done]. by destruct (now <=? t + ttl).
  - intros now id [ttl m]. simpl. destruct (m !! id) as [[u t]|]; [|done]. by destruct (now <=? t + ttl).
  - intros now id [ttl m] u. simpl. destruct (m !! id) as [[v t]|] eqn:E; [|done]. destruct (Z.leb_spec now (t + ttl)); [|done].
    intros [= ->]. split; [by exists t|done].
Defined.

(** Every question takes fifty seconds. *)
Definition slow_env : Env := {|
  env_now := fun n => T0 + Z.of_nat n * (50 * Second); env_fault := fun _ => None; env_rand := fun _ => 0;
  env_uuid := fun n k => N.of_nat (1000 * S n + k); env_ctx_err := fun _ => None |}.
Definition ex_ann (name : string) (blocked : option Time) : UserRow := mkUserRow 11 "ann@example.org" name [RoleEditor] T0 blocked None (Some "ann"%string) None.
Definition with_ann (name : string) (blocked : option Time) (w : World) : World := w <| w_db := (w_db w) <| users := [ex_ann name blocked] |> |>.
Definition summaries (ids : list UUID) (c : Duration * gmap UUID (User * Time)) (w : World) :=
  @ResolveMany slow_env c_collation map_cache ids c background w.
Definition read_once : outcome (gmap UUID UserSummary * (Duration * gmap UUID (User * Time))) * World :=
  summaries [11%N; 0%N; 12%N] (@NewService map_cache) (with_ann "Ann" None ex_world).

Lemma summaries_resolved_witness :
  let w0 := with_ann "Ann" None ex_world in
  keyed w0 ∧ (∃ out c' w', summaries [11%N; 0%N; 12%N] (@NewService map_cache) w0 = (Ok (out, c'), w') ∧
    (∀ id, is_Some (out !! id) ↔ id ∈ [11%N; 0%N; 12%N] ∧ id ≠ uuid_Nil)) ∧
  match fst read_once with
  | Ok (out, _) => out !! 11%N = Some (mkSummary 11 "Ann" "ann@example.org") ∧ out !! 12%N = Some (mkSummary 12 "Unknown user" "")
  | _ => False
  end.
Proof.
  intros w0. assert (keyed w0) as Hk by (apply NoDup_singleton). split; [done|]. split; [|vm_compute; done].
  destruct (@summaries_resolved slow_env c_collation map_cache map_cache_spec w0 (mkDesk w0 (@NewService map_cache) [] []) [11%N; 0%N; 12%N] background Hk
    (rtc_refl _ _)) as [(out & c' & w' & E & _ & Hs & _) _].
  exists out, c', w'. by split.
Defined.

(** Answering counts as asking, so a minute does not bound how old a summary is:
    Ann is renamed and blocked after she was read once, and an hour later, asked
    for every fifty seconds, she still appears under the old name and is mentioned
    with her handle. *)
Fixpoint ask_again (n : nat) (c : Duration * gmap UUID (User * Time)) (w : World) : outcome (list UserMention * (Duration * gmap UUID (User * Time))) * World :=
  match n with
  | O => @ResolveMentions slow_env c_collation map_cache [11%N] c background w
  | S n => match @ResolveMentions slow_env c_collation map_cache [11%N] c background w with
           | (Ok (_, c'), w') => ask_again n c' w'
           | r => r
           end
  end.
Example stale_while_asked :
  match @ResolveMentions slow_env c_collation map_cache [11%N] (@NewService map_cache) background (with_ann "Ann" None ex_world) with
  | (Ok (_, c), w) =>
      match ask_again 72 c (with_ann "Zoe" (Some T0) w) with
      | (Ok (mentions, _), w') => mentions = [mkMention "Ann" (Some "ann"%string) None] ∧ @env_now slow_env (w_step w') - T0 > 60 * Minute
      | _ => False
      end
  | _ => False
  end.
Proof. vm_compute. done. Qed.
