(* ===== verification/CodeMail.v ===== *)
(** * The mail of a one-time code (internal/services/otp/email.go,
      internal/goque_processors/otpemailprocessor)

    A code leaves its request sealed under a data key, waits in the queue, and is
    opened and rendered when its task is processed. *)
From Stdlib Require Import ZArith Lia Ascii String SpecFloat.
From stdpp Require Import base sorting sets strings numbers list.
From S2P Require Import Prelude Go Entity Conflict AuditTrail Schema Logic Dbtx MaintStore Fixtures Crypto Password Queue Credentials Otp Secrets Auth.
From S2P Require Import InvitationEmail Invitations Notify IntegrationSpec.
Open Scope Z_scope.

(** ** services/otp/email.go *)

Definition OTPPurposeSignIn : string := "sign_in".

(** [time.Duration.Minutes] *)
Definition Minutes (d : Duration) : spec_float :=
  f64_add (float64_of (Z.quot d Minute)) (f64_div (float64_of (Z.rem d Minute)) (float64_of Minute)).
Definition otp_expiresInPhrase (ttl : Duration) : string :=
  let minutes := Z.max (int_Ceil (Minutes ttl)) 1 in
  if minutes =? 1 then "1 minute" else string_of_list_ascii (decimal minutes ++ bytes " minutes").

(** The templates: what is said before the code and after the line of its
    lifetime. *)
Definition code_template (intro outro : string) (code expiresIn : list ascii) : list ascii :=
  bytes ("<p>" +:+ intro +:+ " <strong>") ++ htmlReplacer code ++ bytes ("</strong>.</p>" +:+ newline +:+ "<p>It expires in ") ++
  htmlReplacer expiresIn ++
  bytes (". If you requested another code after this one, use the newest one.</p>" +:+ newline +:+ "<p>" +:+ outro +:+ "</p>" +:+ newline).
Definition otp_email : list ascii -> list ascii -> list ascii :=
  code_template "Your MaintMode sign-in code is"
    "If you didn't try to sign in, you can safely ignore this email — the code is useless without access to your browser session.".
Definition password_reset_email : list ascii -> list ascii -> list ascii :=
  code_template "Your MaintMode password reset code is"
    "If you didn't ask to reset your password, you can ignore this email — your password has not changed, and the code is useless without access to the browser session that requested it.".
Definition codeEmails : list (string * (string * (list ascii -> list ascii -> list ascii))) :=
  [(OTPPurposeSignIn, ("Your MaintMode sign-in code"%string, otp_email));
   (OTPPurposePasswordReset, ("Your MaintMode password reset code"%string, password_reset_email))].
Definition RenderOTPEmail (purpose code : string) (ttl : Duration) : (string * string) + error :=
  let purpose := if String.eqb purpose "" then OTPPurposeSignIn else purpose in
  match go_lookup codeEmails purpose with
  | None => inr (EOther "render otp email: unknown purpose")
  | Some (subject, template) =>
      inl (subject, string_of_list_ascii (trim_space (template (bytes code) (bytes (otp_expiresInPhrase ttl)))))
  end.

(** ** goque_processors/otpemailprocessor *)

(** [goque.ErrTaskCancel] *)
Definition ErrTaskCancel := ESentinel "goque: task canceled".
Definition settle {A} (x : A + error) : outcome A := match x with inl a => Ok a | inr e => Err e end.
Section processor.
Context `{Env} `{Messenger} `{Tink}.

Definition OTPEmail_ProcessTask (keyring : Keyring) (ttl : Duration) (payload : OTPEmailPayload) : M unit :=
  now ← UTCNow;
  reject_if (negb (Before now (oe_ExpiresAt payload))) (Errorf "otp code expired before delivery" ErrTaskCancel);;
  dek ← wrap_err (Errorf "unwrap otp dek") (at_step (fun n => UnwrapDEK keyring n (oe_DEK payload) (oe_KEKURI payload)));
  code ← wrap_err (Errorf "decrypt otp code")
    (lift (settle (Decrypt dek (oe_Code payload) (OTPCodeAAD (uuid_String (oe_CredentialID payload))))));
  mail ← wrap_err (Errorf "render otp email") (lift (settle (RenderOTPEmail (oe_Purpose payload) (string_of_list_ascii code) ttl)));
  _ ← wrap_err (Errorf "send otp email")
    (Send NotifyTransportEmail (oe_Target payload) (mkMessage mail.1 mail.2 HTMLMessageMIME) None);
  mret tt.

(** ** What is mailed *)

(** A step that asks. *)
Lemma at_step_val {A} (f : nat -> A + error) ctx w a w' : at_step f ctx w = (Ok a, w') -> f (w_step w) = inl a.
Proof. unfold at_step. destruct (f (w_step w)); by intros [= <- <-]. Qed.

(** What was sealed for a code: its credential, where it goes and until when, and
    a key and a text that open to it. *)
Record seals (c : KMSClient) (cred : AuthCredential) (target code : string) (p : OTPEmailPayload) : Prop := {
  sl_fields : oe_CredentialID p = c_ID cred ∧ oe_Target p = target ∧ c_ExpiresAt cred = Some (oe_ExpiresAt p);
  sl_opens : ∃ h a, wraps c (oe_DEK p) (oe_KEKURI p) h ∧ aead_New h = inl a ∧
    aead_Decrypt a (oe_Code p) (OTPCodeAAD (uuid_String (c_ID cred))) = inl (bytes code) }.

Context `{!TinkSpec}.

Lemma dekAEAD_read dek a : dekAEAD dek = inl a -> ∃ h, cleartext_Read dek = inl h ∧ aead_New h = inl a.
Proof. intros (h & Hh%or_wrap_inl & Ha%or_wrap_inl)%and_then_inl. by exists h. Qed.
Lemma dekAEAD_of dek h a : cleartext_Read dek = inl h -> aead_New h = inl a -> dekAEAD dek = inl a.
Proof. intros Hh Ha. unfold dekAEAD, parseDEKKeyset. by rewrite Hh; simpl; rewrite Ha. Qed.

Lemma sealForDelivery_seals k cred target code ctx w p w' :
  kms_Supported (kms k) (activeKEKURI k) = true ->
  @sealForDelivery (keyring_sealer k) cred target code ctx w = (Ok p, w') -> seals (kms k) cred target code p.
Proof.
  intros Hs. unfold sealForDelivery. intros E. run_all.
  apply at_step_val in Hrun as Eg. apply at_step_val in Hrun1 as Ee. apply at_step_val in Hrun0 as Ew. destruct a1 as [wrapped uri].
  destruct (c_ExpiresAt cred) as [t|] eqn:Et; [|done]. run_all. split; [done|]. simpl.
  destruct (GenerateDEK_reads _ _ Eg) as [h Hh]. exists h.
  pose proof Ee as (aead & Ha & _)%or_wrap_inl%and_then_inl. exists aead.
  destruct (dekAEAD_read _ _ Ha) as (h' & Hh' & Hn). rewrite Hh in Hh'. injection Hh' as <-.
  split_and!; [exact (WrapDEK_wraps k _ _ _ _ _ Hs Ew Hh)|done|exact (Encrypt_Decrypt _ _ _ _ _ _ Ee Ha)].
Qed.

(** Opening gives the code, on every instance that holds the keys. *)
Lemma opens_to k c cred target code p n dek text :
  kms k = c -> seals c cred target code p -> UnwrapDEK k n (oe_DEK p) (oe_KEKURI p) = inl dek ->
  Decrypt dek (oe_Code p) (OTPCodeAAD (uuid_String (oe_CredentialID p))) = inl text -> text = bytes code.
Proof.
  intros <- [(-> & _ & _) (h & a & Hw & Ha & Hd)] (h' & Hw' & Hr)%UnwrapDEK_wraps (a' & Ha' & Hd')%or_wrap_inl%and_then_inl.
  rewrite (wraps_fun _ _ _ _ _ Hw' Hw) in Hr. rewrite (dekAEAD_of _ _ _ Hr Ha) in Ha'. congruence.
Qed.

Lemma Send_log name target msg reply ctx w r w' :
  Send name target msg reply ctx w = (r, w') ->
  w_db w' = w_db w ∧ ((w_log w' = w_log w ∧ ∃ e, r = Err e) ∨ w_log w' = w_log w ++ [EvSend name target msg reply]).
Proof.
  unfold Send, in_tx, ask, emit, mbind, M_bind, reject_if, raise, mret, M_ret. destruct (ctx_tx ctx); [intros [= <- <-]; split; [done|left; eauto]|].
  simpl. destruct (registry_Get _ _); [intros [= <- <-]; split; [done|left; eauto]|]. simpl.
  destruct (transport_Send _ _ _ _ _); intros [= <- <-]; split; (done || by right).
Qed.

(** The message of a code. *)
Definition mail_of (purpose code : string) (ttl : Duration) (m : NotifyMessage) : Prop :=
  ∃ subject body, RenderOTPEmail purpose code ttl = inl (subject, body) ∧ m = mkMessage subject body HTMLMessageMIME.

(** C5. The code that was issued is the code that is mailed.  Whatever happens
    between the request and the processing of its task - other keys may have
    become the active ones, as long as the old ones are held - processing changes
    no table and sends at most one message: to the address the code was sealed
    for, carrying that code and no other, and only while the code is alive.  A
    code that is dead is not mailed and its task is cancelled; success means
    that the message was handed over. *)
Theorem code_mailed_as_issued k cred target code ctx w p w' purpose k' ttl w2 r w3 :
  kms_Supported (kms k) (activeKEKURI k) = true -> @sealForDelivery (keyring_sealer k) cred target code ctx w = (Ok p, w') -> kms k' = kms k ->
  OTPEmail_ProcessTask k' ttl (p <| oe_Purpose := purpose |>) background w2 = (r, w3) ->
  let now := env_now (w_step w2) in
  w_db w3 = w_db w2 ∧
  match c_ExpiresAt cred with
  | None => False
  | Some expires =>
      (expires <= now -> w_log w3 = w_log w2 ∧ ∃ e, r = Err e ∧ errors_Is e ErrTaskCancel = true) ∧
      (now < expires -> (w_log w3 = w_log w2 ∧ ∃ e, r = Err e) ∨
        ∃ m, mail_of purpose code ttl m ∧ w_log w3 = w_log w2 ++ [EvSend NotifyTransportEmail target m None])
  end.
Proof.
  intros Hs Hseal%sealForDelivery_seals Hk E; [|done]. pose proof Hseal as [(Hid & Ht & He) _]. rewrite He. cbv zeta.
  unfold OTPEmail_ProcessTask, UTCNow, wrap_err, at_step, lift, reject_if, raise, mbind, M_bind, mret, M_ret, Before in E. simpl in E.
  destruct (Z.ltb_spec (env_now (w_step w2)) (oe_ExpiresAt p)) as [Hlt|Hge]; simpl in E.
  2: { injection E as <- <-. split; [done|]. split; [|lia]. intros _. split; [done|]. eexists. split; [done|]. reflexivity. }
  destruct (UnwrapDEK _ _ _ _) as [dek|e] eqn:Eu; [|injection E as <- <-; split; [done|split; [lia|left; eauto]]].
  destruct (Decrypt _ _ _) as [text|e] eqn:Ed; [|injection E as <- <-; split; [done|split; [lia|left; eauto]]].
  rewrite (opens_to _ _ _ _ _ _ _ _ _ Hk Hseal Eu Ed) in E. cbn [settle] in E. unfold bytes in E. rewrite string_of_list_ascii_of_string in E. simpl in E.
  destruct (RenderOTPEmail _ _ _) as [[subject body]|e] eqn:Er; [|injection E as <- <-; split; [done|split; [lia|left; eauto]]]. simpl in E.
  destruct (Send _ _ _ _ _ _) as [rs w4] eqn:Es. apply Send_log in Es as [Hdb Hlog].
  assert (w3 = w4 ∧ ∀ e, rs = Err e -> ∃ e', r = Err e') as [-> Herr] by (destruct rs; injection E as <- <-; split; eauto; by intros).
  split; [done|]. split; [lia|]. intros _. destruct Hlog as [[Hl (e & ->)]|Hl]; [left; split; [done|by eapply Herr]|right].
  exists (mkMessage subject body HTMLMessageMIME). split; [by exists subject, body|]. by rewrite <- Ht.
Qed.
End processor.

(** ** A run *)

Definition ex_cred : AuthCredential :=
  mkCredential 7 11 AuthCredentialKindOTP "h" (Some (at_min 5)) None 0 (Some "nonce"%string) T0 T0.
Definition ex_sealed : outcome OTPEmailPayload * World :=
  @sealForDelivery (@keyring_sealer marking_tink (ex_keyring "local-kms://a")) ex_cred "ann@example.com" "123456" background ex_world.

(** Sealed under one key and opened when another is the active one; five minutes
    later it is not sent. *)
Lemma code_mailed_as_issued_witness : ∃ p w' w3 m,
  ex_sealed = (Ok p, w') ∧
  @OTPEmail_ProcessTask calm_env ex_messenger marking_tink (ex_keyring "local-kms://b") (5 * Minute) (p <| oe_Purpose := OTPPurposeSignIn |>)
    background w' = (Ok tt, w3) ∧
  mail_of OTPPurposeSignIn "123456" (5 * Minute) m ∧ w_log w3 = w_log w' ++ [EvSend NotifyTransportEmail "ann@example.com" m None].
Proof.
  destruct ex_sealed as [[p|e|s] w'] eqn:Es; [|by vm_compute in Es..]. 
  destruct (@OTPEmail_ProcessTask calm_env ex_messenger marking_tink (ex_keyring "local-kms://b") (5 * Minute) (p <| oe_Purpose := OTPPurposeSignIn |>)
    background w') as [r w3] eqn:Ep.
  assert (r = Ok tt) as ->. { vm_compute in Es. injection Es as <- <-. vm_compute in Ep. by injection Ep as <- _. }
  pose proof (@code_mailed_as_issued calm_env ex_messenger marking_tink marking_spec (ex_keyring "local-kms://a") ex_cred "ann@example.com" "123456"
    background ex_world p w' OTPPurposeSignIn (ex_keyring "local-kms://b") (5 * Minute) w' (Ok tt) w3 eq_refl Es eq_refl Ep) as [_ [_ Hsend]].
  assert (w_step w' = 3%nat) as Hw by (vm_compute in Es; by injection Es as _ <-). rewrite Hw in Hsend.
  destruct (Hsend ltac:(vm_compute; reflexivity)) as [[_ (e & [=])]|(m & Hm & Hl)]. exists p, w', w3, m. by split_and!.
Defined.
