(* ===== verification/MaintService.v ===== *)
(** * The maintenance service (internal/services/maint)

    Every operation of the lifecycle, composed from the stores and services the
    way the code composes them: the mutation in a transaction, then, after the
    commit, the notification and the audit entry. *)
From Stdlib Require Import ZArith Lia Ascii String.
From stdpp Require Import base sorting sets strings numbers list.
From S2P Require Import Prelude Go Entity Conflict AuditTrail Schema Logic Dbtx MaintStore ConflictStore Queue.
From S2P Require Import Deferred NotifyTargets Notify Validation.
Open Scope Z_scope.

(** ** Commands and collaborators *)

Record ApproveMaintenanceCmd := mkApproveCmd {
  av_MaintID : UUID; av_ObservedMaintRevision : Z; av_ConflictSnapshot : ConflictsSnapshot;
  av_ActorUserID : UUID; av_Actor : option User }.

Record ListUsersCmd := mkListUsers {
  lu_IDs : list UUID; lu_Roles : list Role; lu_ExcludeBlocked : bool; lu_Limit : Z }.
(** UserLister, the interface of the auth user service. *)
Class UserLister := { ListUsers : nat -> ListUsersCmd -> list User + error }.

Definition errSkipUpdate : error := ESentinel "maint update skipped: precondition not met".

Section service.
Context `{Env} `{Goque} `{Messenger} `{Ozzo} `{UserLister}.

(** ** mapper.go *)

Definition stepsFromCmd (inputs : list MaintenanceStepInput) (status : MaintenanceStepStatus) : list MaintenanceStep :=
  (fun i => mkStep uuid_Nil (si_Order i) (si_Description i) (si_RollbackDescription i) (si_DurationMinutes i) status
              None None zeroTime None) <$> inputs.
Definition deferredNotificationsFromCmd (maintID : UUID) (inputs : list DeferredNotificationInput)
    : list DeferredNotification :=
  (fun i => mkDeferred uuid_Nil maintID (di_FireAt i) None) <$> inputs.

(** ** validate_approver.go *)

Definition validateApprover (approverID : UUID) : M unit :=
  res ← ask (fun n => ListUsers n (mkListUsers [approverID] ApproverEligibleRoles true 1));
  match res with
  | inr err => raise err
  | inl users => reject_if (bool_decide (users = [])) (Errorf (uuid_String approverID) ErrApproverNotEligible)
  end.

(** ** create_draft.go *)

Definition draft_of (cmd : CreateMaintenanceCmd) : Maintenance :=
  zeroMaint <| Title := cc_Title cmd |> <| Description := cc_Description cmd |>
    <| PlannedPeriod := cc_PlannedPeriod cmd |> <| Scope := cc_Scope cmd |> <| Impact := cc_Impact cmd |>
    <| Status := MaintenanceStatusDraft |> <| ApproverUserID := cc_ApproverUserID cmd |>
    <| CreatedByUserID := cc_CreatedByUserID cmd |> <| TaskTrackerURL := cc_TaskTrackerURL cmd |>.
(** The body of the transaction. *)
Definition create_in_tx (cmd : CreateMaintenanceCmd) : M Maintenance :=
  maint ← CreateMaint (draft_of cmd);
  let maint := Normalize (maint <| Resources := cc_Resources cmd |>) in
  (match Resources maint with [] => mret tt | _ => AddResources (ID maint) (Resources maint) end);;
  steps ← AddSteps (ID maint) (stepsFromCmd (cc_Steps cmd) MaintenanceStepStatusPlanned);
  let maint := maint <| Steps := steps |> in
  notifyTargets ← NotifyTargets.Create (ID maint) (cc_NotifyTargets cmd);
  let maint := maint <| Entity.NotifyTargets := notifyTargets |> in
  deferred ← Deferred.Create (ID maint) (deferredNotificationsFromCmd (ID maint) (cc_DeferredNotifications cmd));
  let maint := maint <| DeferredNotifications := deferred |> in
  let mentions := uniq (mi_UserID <$> cc_Mentions cmd) in
  AddMentions (ID maint) mentions;;
  mret (maint <| Mentions := mentions |>).
Definition CreateDraft (cmd : CreateMaintenanceCmd) : M Maintenance :=
  validateCreate cmd;;
  validateApprover (cc_ApproverUserID cmd);;
  maint ← WithinTx (create_in_tx cmd);
  publishAudit (MaintCreated (cc_Actor cmd) maint);;
  mret maint.

(** [lo.SumBy] over [time.Duration]: both the product and the sum wrap. *)
Definition total_duration (steps : list MaintenanceStep) : Duration :=
  fold_left (fun acc s => wrap64 (acc + wrap64 (st_DurationMinutes s * Minute))) steps 0.
Definition recalculatePlannedPeriod (plannedPeriodStart : Time) (steps : list MaintenanceStep) : Period :=
  let totalDuration := total_duration steps in
  if totalDuration =? 0 then NewOpenEndedPeriod plannedPeriodStart
  else NewPeriod plannedPeriodStart (Time_Add plannedPeriodStart totalDuration).

(** ** update_maint.go: the transactional helper *)

Definition maintLifecycleEvent (from to : MaintenanceStatus) : option NotifyEventKind :=
  if String.eqb from MaintenanceStatusPlanned && String.eqb to MaintenanceStatusInProgress
  then Some NotifyEventMaintStarted
  else if String.eqb from MaintenanceStatusPlanned && String.eqb to MaintenanceStatusCancelled
  then Some NotifyEventMaintCancelled
  else if String.eqb from MaintenanceStatusInProgress && String.eqb to MaintenanceStatusCancelled
  then Some NotifyEventMaintCancelled
  else if String.eqb from MaintenanceStatusInProgress && String.eqb to MaintenanceStatusCompleted
  then Some NotifyEventMaintCompleted
  else None.

Definition dispatchMaintLifecycle (prev current : Maintenance) : M unit :=
  match maintLifecycleEvent (Status prev) (Status current) with
  | None => mret tt
  | Some eventType =>
      (if String.eqb eventType NotifyEventMaintCancelled
       then _ ← attempt (Deferred.Cancel (ID current)); mret tt else mret tt);;
      NotifyMaintLifecycle eventType current
  end.

(** The body of the transaction; [apply] also returns what its closure captured. *)
Definition apply_in_tx {B} (maintID : UUID) (apply : Maintenance -> M (Maintenance * B)) : M (Maintenance * Maintenance * B) :=
  maint ← GetMaintForUpdate maintID;
  '(maint', captured) ← apply maint;
  current ← MaintStore.UpdateMaint maint';
  mret (maint, current, captured).

Definition runUpdateWithApply {B} (withinTx : M (Maintenance * Maintenance * B) -> M (Maintenance * Maintenance * B))
    (maintID : UUID) (apply : Maintenance -> M (Maintenance * B)) : M (Maintenance * Maintenance * B) :=
  '(prev, current, captured) ← withinTx (apply_in_tx maintID apply);
  dispatchMaintLifecycle prev current;;
  mret (prev, current, captured).
Definition updateWithApply {B} (maintID : UUID) (apply : Maintenance -> M (Maintenance * B)) :=
  runUpdateWithApply WithinTx maintID apply.
Definition updateWithApplySerializable {B} (maintID : UUID) (apply : Maintenance -> M (Maintenance * B)) :=
  runUpdateWithApply WithinSerializableTx maintID apply.

(** ** update_maint.go: editing a draft *)

Definition set_opt {A} (o : option A) (f : A -> Maintenance -> Maintenance) (m : Maintenance) : Maintenance :=
  match o with Some a => f a m | None => m end.

(** The assignments after the planned period. *)
Definition assign_rest (notifyTargets : list NotifyTarget) (cmd : UpdateMaintenanceCmd) (maint : Maintenance) : Maintenance :=
  let maint := set_opt (uc_Scope cmd) (fun v m => m <| Scope := v |>) maint in
  let maint := set_opt (uc_Impact cmd) (fun v m => m <| Impact := v |>) maint in
  let maint := set_opt (uc_ApproverUserID cmd) (fun v m => m <| ApproverUserID := v |>) maint in
  let maint := match uc_Resources cmd with [] => maint | rs => maint <| Resources := rs |> end in
  let maint := match notifyTargets with [] => maint | ts => maint <| Entity.NotifyTargets := ts |> end in
  let maint := set_opt (uc_DeferredNotifications cmd)
    (fun v m => m <| DeferredNotifications := deferredNotificationsFromCmd (uc_MaintID cmd) v |>) maint in
  let maint := set_opt (uc_Mentions cmd) (fun v m => m <| Mentions := uniq (mi_UserID <$> v) |>) maint in
  Normalize maint.
(** [maint.PlannedPeriod.Duration()] panics on an open period. *)
Definition applyValuesFromUpdateCmd (maint : Maintenance) (notifyTargets : list NotifyTarget)
    (cmd : UpdateMaintenanceCmd) : outcome Maintenance :=
  let maint := set_opt (uc_Title cmd) (fun v m => m <| Title := v |>) maint in
  let maint := set_opt (uc_Description cmd) (fun v m => m <| Description := v |>) maint in
  let maint := set_opt (uc_TaskTrackerURL cmd) (fun v m => m <| TaskTrackerURL := v |>) maint in
  let maint :=
    match uc_Steps cmd with
    | [] => maint
    | inputs =>
        let steps := stepsFromCmd inputs MaintenanceStepStatusPlanned in
        maint <| Steps := steps |> <| PlannedPeriod := recalculatePlannedPeriod (Start (PlannedPeriod maint)) steps |>
    end in
  let rest := assign_rest notifyTargets cmd in
  match uc_PlannedStart cmd with
  | None => Ok (rest maint)
  | Some newStart =>
      match Period_Duration (PlannedPeriod maint) with
      | Ok currentDuration =>
          Ok (rest (maint <| PlannedPeriod := NewPeriod newStart (Time_Add newStart currentDuration) |>))
      | Err e => Err e
      | Panic s => Panic s
      end
  end.

Definition replaceSteps (maint : Maintenance) : M unit :=
  DeleteSteps (ID maint);;
  _ ← AddSteps (ID maint) (Steps maint);
  mret tt.
Definition replaceResources (maint : Maintenance) : M unit :=
  DeleteResources (ID maint);;
  AddResources (ID maint) (Resources maint).
Definition replaceMentions (maint : Maintenance) : M unit :=
  DeleteMentions (ID maint);;
  AddMentions (ID maint) (Mentions maint).

(** [if cond { ... }] *)
Definition when (cond : bool) (m : M unit) : M unit := if cond then m else mret tt.
Definition supplied {A} (l : list A) : bool := match l with [] => false | _ => true end.
Definition is_some {A} (o : option A) : bool := match o with Some _ => true | None => false end.
Definition resources_replaced (cmd : UpdateMaintenanceCmd) : bool :=
  supplied (uc_Resources cmd) || String.eqb (FromPtr EmptyString (uc_Scope cmd)) MaintenanceScopeGlobal.

Definition applyUpdate (maint : Maintenance) (notifyTargets : list NotifyTarget) (cmd : UpdateMaintenanceCmd)
    : M Maintenance :=
  reject_if (negb (String.eqb (Status maint) MaintenanceStatusDraft))
    (ForbiddenMaintStatusTransition (Status maint) MaintenanceStatusDraft);;
  maint ← lift (applyValuesFromUpdateCmd maint notifyTargets cmd);
  when (supplied (uc_Steps cmd)) (replaceSteps maint);;
  when (resources_replaced cmd) (replaceResources maint);;
  when (supplied (uc_NotifyTargets cmd)) (NotifyTargets.Replace maint);;
  when (is_some (uc_DeferredNotifications cmd)) (Deferred.Replace (ID maint) (DeferredNotifications maint));;
  when (is_some (uc_Mentions cmd)) (replaceMentions maint);;
  mret maint.

Definition scalar_change (field old new : string) : list AuditFieldChange :=
  if String.eqb old new then [] else [mkChange field old new].
Definition collection_change (field : string) (changed : bool) : list AuditFieldChange :=
  if changed then [mkChange field "" ""] else [].
Definition maintUpdateChanges (prev current : Maintenance) (cmd : UpdateMaintenanceCmd) : list AuditFieldChange :=
  scalar_change "title" (Title prev) (Title current) ++
  scalar_change "description" (Description prev) (Description current) ++
  scalar_change "planned_period" (Period_String (PlannedPeriod prev)) (Period_String (PlannedPeriod current)) ++
  scalar_change "scope" (Scope prev) (Scope current) ++
  scalar_change "impact" (Impact prev) (Impact current) ++
  scalar_change "approver" (uuid_String (ApproverUserID prev)) (uuid_String (ApproverUserID current)) ++
  scalar_change "task_tracker_url" (TaskTrackerURL prev) (TaskTrackerURL current) ++
  collection_change "steps" (supplied (uc_Steps cmd)) ++
  collection_change "resources" (resources_replaced cmd) ++
  collection_change "notify_targets" (supplied (uc_NotifyTargets cmd)) ++
  collection_change "deferred_notifications" (is_some (uc_DeferredNotifications cmd)) ++
  collection_change "mentions" (is_some (uc_Mentions cmd)).

Definition UpdateMaint (cmd : UpdateMaintenanceCmd) : M unit :=
  validateUpdate cmd;;
  (match uc_ApproverUserID cmd with Some id => validateApprover id | None => mret tt end);;
  notifyTargets ← NotifyTargets.ResolveNotifyTarget (uc_MaintID cmd) (uc_NotifyTargets cmd);
  '(prev, current, _) ← updateWithApply (uc_MaintID cmd)
    (fun maint => m ← applyUpdate maint notifyTargets cmd; mret (m, tt));
  match maintUpdateChanges prev current cmd with
  | [] => mret tt
  | changes => publishAudit (MaintUpdated (uc_Actor cmd) current changes)
  end.

(** ** appove_maint.go *)

Definition loadResources (maint : Maintenance) : M Maintenance :=
  rs ← GetMaintResources [ID maint];
  mret (maint <| Resources := rs_ID <$> rs (ID maint) |>).

Definition checkConflicts (maint : Maintenance) (snapshot : ConflictsSnapshot) : M unit :=
  conflicts ← GetConflicts (mkConflictQuery (ID maint) (PlannedPeriod maint) (Scope maint) (Resources maint));
  let conflictsFingerprint := ConflictFingerprintFor (Some <$> conflicts) (Resources maint) in
  let actualFingerprint := ConflictFingerprintFor (Some <$> snapshot) (Resources maint) in
  reject_if (negb (String.eqb actualFingerprint conflictsFingerprint))
    (Errorf ("preview " +:+ actualFingerprint +:+ ", actual " +:+ conflictsFingerprint)
       ErrConflictsChangedSincePreview).

Definition apply_approve (cmd : ApproveMaintenanceCmd) (actor : User) (maint : Maintenance) : M (Maintenance * unit) :=
  reject_if (negb (CanMaintTransition (Status maint) MaintenanceStatusPlanned))
    (ForbiddenMaintStatusTransition (Status maint) MaintenanceStatusPlanned);;
  reject_if (negb (N.eqb (ApproverUserID maint) (av_ActorUserID cmd)) && negb (IsActiveAdmin actor))
    ErrApproverMismatch;;
  reject_if (negb (Revision maint =? av_ObservedMaintRevision cmd))
    (Errorf "revision" ErrMaintChangedSincePreview);;
  maint ← loadResources maint;
  checkConflicts maint (av_ConflictSnapshot cmd);;
  wrap_err (Errorf "bulk insert conflict snapshots")
    (SaveSnapshot (mkSaveSnapshot (av_MaintID cmd) (av_ConflictSnapshot cmd)));;
  let maint := maint <| Status := MaintenanceStatusPlanned |> in
  wrap_err (Errorf "enqueue deferred reminders") (Deferred.Schedule (av_MaintID cmd));;
  mret (maint, tt).

Definition ApproveMaint (cmd : ApproveMaintenanceCmd) : M unit :=
  match av_Actor cmd with
  | None => raise ErrNilActor
  | Some actor =>
      r ← attempt (updateWithApplySerializable (av_MaintID cmd) (apply_approve cmd actor));
      match r with
      | inr err =>
          if dbtx_ErrorIs err ErrPGSerializationFailure then raise ErrConcurrentModification else raise err
      | inl (_, current, _) => publishAudit (MaintApproved (av_Actor cmd) current)
      end
  end.

(** ** start_maint.go *)

Definition apply_start (maint : Maintenance) : M (Maintenance * unit) :=
  reject_if (negb (CanMaintTransition (Status maint) MaintenanceStatusInProgress))
    (ForbiddenMaintStatusTransition (Status maint) MaintenanceStatusInProgress);;
  now ← UTCNow;
  mret (maint <| ActualPeriod := Some (NewOpenEndedPeriod now) |> <| Status := MaintenanceStatusInProgress |>, tt).
Definition StartMaint (cmd : StartMaintenanceCmd) : M unit :=
  '(_, current, _) ← updateWithApply (sc_MaintID cmd) apply_start;
  publishAudit (MaintStarted (sc_Actor cmd) current).

(** ** cancel_maint.go *)

Definition apply_cancel (cmd : CancelMaintenanceCmd) (canMaintCancel : Maintenance -> outcome unit)
    (maint : Maintenance) : M (Maintenance * unit) :=
  reject_if (String.eqb (Status maint) MaintenanceStatusCancelled) errSkipUpdate;;
  lift (canMaintCancel maint);;
  now ← UTCNow;
  mret ((CloseActualPeriod now maint) <| Status := MaintenanceStatusCancelled |>
          <| CancelReason := ca_Reason cmd |> <| CancelReasonComment := ca_ReasonComment cmd |>, tt).
Definition cancelMaint (cmd : CancelMaintenanceCmd) (canMaintCancel : Maintenance -> outcome unit) : M unit :=
  r ← attempt (updateWithApply (ca_MaintID cmd) (apply_cancel cmd canMaintCancel));
  match r with
  | inr err => if errors_Is err errSkipUpdate then mret tt else raise err
  | inl (_, current, _) => publishAudit (MaintCancelled (ca_Actor cmd) current)
  end.
Definition can_cancel (maint : Maintenance) : outcome unit :=
  if CanMaintTransition (Status maint) MaintenanceStatusCancelled then Ok tt
  else Err (ForbiddenMaintStatusTransition (Status maint) MaintenanceStatusCancelled).
Definition CancelMaint (cmd : CancelMaintenanceCmd) : M unit := cancelMaint cmd can_cancel.

(** ** cancel_unstarted.go *)

Definition cancelUnStartedReasonComment : string :=
  "Automatically canceled: maintenance was not started within the grace period after its planned start".
Definition still_unstarted (maint : Maintenance) : outcome unit :=
  if negb (String.eqb (Status maint) MaintenanceStatusDraft) && negb (String.eqb (Status maint) MaintenanceStatusPlanned)
  then Err errSkipUpdate else Ok tt.
Definition unstarted_cmd (maint : Maintenance) : CancelMaintenanceCmd :=
  mkCancelCmd (ID maint) MaintenanceCancelReasonNotStarted cancelUnStartedReasonComment (Some SystemUser).
(** [errs = errors.Join(errs, cancelErr)] *)
Definition join_err (errs : option error) (e : error) : error :=
  match errs with None => EJoin1 e | Some e0 => EJoin2 e0 e end.
Fixpoint cancel_each (overdue : list Maintenance) (errs : option error) : M unit :=
  match overdue with
  | [] => match errs with None => mret tt | Some e => raise e end
  | maint :: rest =>
      r ← attempt (cancelMaint (unstarted_cmd maint) still_unstarted);
      cancel_each rest (match r with inl _ => errs | inr e => Some (join_err errs e) end)
  end.
Definition CancelUnStarted (cutoff : Time) (limit : Z) : M unit :=
  overdue ← ListOverdueNotStarted cutoff limit;
  match overdue with
  | [] => mret tt
  | _ => cancel_each overdue None
  end.

(** goque_processors/autocancelprocessor *)
Definition AutoCancel_ProcessTask (threshold : Duration) (limit : Z) : M unit :=
  now ← UTCNow;
  CancelUnStarted (Time_Add now (wrap64 (- threshold))) limit.

(** ** complete_maint.go *)

Definition allStepsTerminal (steps : list MaintenanceStep) : bool :=
  forallb (fun s => MaintenanceStepStatus_IsTerminal (st_Status s)) steps.
(** [maint.ActualPeriod = cmp.Or(maint.ActualPeriod, &maint.PlannedPeriod)] and
    the close after it: with no actual period, both fields name one value, and
    its end is written through the pointer. *)
Definition close_or_planned (now : Time) (maint : Maintenance) : Maintenance :=
  match ActualPeriod maint with
  | Some _ => CloseActualPeriod now maint
  | None =>
      let m := CloseActualPeriod now (maint <| ActualPeriod := Some (PlannedPeriod maint) |>) in
      match ActualPeriod m with
      | Some p => m <| PlannedPeriod := p |>
      | None => m
      end
  end.
Definition apply_complete (maint : Maintenance) : M (Maintenance * unit) :=
  reject_if (String.eqb (Status maint) MaintenanceStatusCompleted) errSkipUpdate;;
  reject_if (negb (CanMaintTransition (Status maint) MaintenanceStatusCompleted))
    (ForbiddenMaintStatusTransition (Status maint) MaintenanceStatusCompleted);;
  steps ← GetMaintSteps (ID maint);
  reject_if (negb (allStepsTerminal steps)) ErrMaintenanceHasUnfinishedSteps;;
  now ← UTCNow;
  mret ((close_or_planned now maint) <| Status := MaintenanceStatusCompleted |>, tt).
Definition CompleteMaint (cmd : CompleteMaintenanceCmd) : M unit :=
  r ← attempt (updateWithApply (co_MaintID cmd) apply_complete);
  match r with
  | inr err => if errors_Is err errSkipUpdate then mret tt else raise err
  | inl (_, current, _) => publishAudit (MaintCompleted (co_Actor cmd) current)
  end.

(** ** step_lifecycle.go *)

Definition canChangeStepStatusTo (steps : list MaintenanceStep) (stepID : UUID) (newStatus : MaintenanceStepStatus)
    : MaintenanceStep + error :=
  let sorted := sort_by (fun s1 s2 => Z.compare (st_Order s1) (st_Order s2)) steps in
  match find_index (fun item => N.eqb (st_ID item) stepID) sorted with
  | None => inr ErrStepNotFound
  | Some (step, stepIdx) =>
      if match stepIdx with
         | O => false
         | S prev => match sorted !! prev with
                     | Some prevStep => negb (MaintenanceStepStatus_IsTerminal (st_Status prevStep))
                     | None => false
                     end
         end
      then inr ErrStepOrderViolation
      else if negb (CanMainStepTransition (st_Status step) newStatus)
      then inr (ForbiddenStepStatusTransition (st_Status step) newStatus)
      else inl step
  end.

Definition lift_sum {A} (r : A + error) : M A := match r with inl a => mret a | inr e => raise e end.
Definition apply_start_step (stepID : UUID) (steps : list MaintenanceStep) : M (list MaintenanceStep) :=
  step ← lift_sum (canChangeStepStatusTo steps stepID MaintenanceStepStatusStarted);
  now ← UTCNow;
  mret [step <| st_ActualStartedAt := Some now |> <| st_Status := MaintenanceStepStatusStarted |>].
(** CompleteStep and CancelStep differ in the status they set. *)
Definition apply_finish_step (status : MaintenanceStepStatus) (stepID : UUID) (steps : list MaintenanceStep)
    : M (list MaintenanceStep) :=
  step ← lift_sum (canChangeStepStatusTo steps stepID status);
  now ← UTCNow;
  mret [step <| st_ActualCompletedAt := Some now |> <| st_Status := status |>].

Fixpoint update_steps (maintID : UUID) (steps : list MaintenanceStep) : M (list MaintenanceStep) :=
  match steps with
  | [] => mret []
  | step :: rest =>
      s ← UpdateStep maintID step;
      l ← update_steps maintID rest;
      mret (s :: l)
  end.

Definition dispatchStepLifecycle (maint : Maintenance) (step : MaintenanceStep) : M unit :=
  if String.eqb (Status maint) MaintenanceStatusInProgress then
    if String.eqb (st_Status step) MaintenanceStepStatusStarted then NotifyStepLifecycle NotifyEventStepStarted maint step
    else if String.eqb (st_Status step) MaintenanceStepStatusCompleted then NotifyStepLifecycle NotifyEventStepCompleted maint step
    else if String.eqb (st_Status step) MaintenanceStepStatusCanceled then NotifyStepLifecycle NotifyEventStepCancelled maint step
    else mret tt
  else mret tt.

Definition apply_steps (maintID : UUID) (applyF : list MaintenanceStep -> M (list MaintenanceStep))
    (maint : Maintenance) : M (Maintenance * list MaintenanceStep) :=
  reject_if (negb (String.eqb (Status maint) MaintenanceStatusInProgress))
    (Errorf "maint is not in in_progress status" ErrForbiddenStepStatusTransition);;
  steps ← GetMaintStepsForUpdate maintID;
  stepsForUpdate ← applyF steps;
  currSteps ← update_steps maintID stepsForUpdate;
  mret (maint, currSteps).
Definition updateStepWithApply (maintID : UUID) (applyF : list MaintenanceStep -> M (list MaintenanceStep))
    : M (Maintenance * list MaintenanceStep) :=
  '(_, current, currSteps) ← updateWithApply maintID (apply_steps maintID applyF);
  for_each (dispatchStepLifecycle current) currSteps;;
  mret (current, currSteps).

Definition StartStep (cmd : StepCmd) : M unit :=
  '(maint, curr) ← updateStepWithApply (sp_MaintID cmd) (apply_start_step (sp_StepID cmd));
  for_each (fun item => publishAudit (MaintStepStarted (sp_Actor cmd) maint item)) curr.
Definition CompleteStep (cmd : StepCmd) : M unit :=
  '(maint, curr) ← updateStepWithApply (sp_MaintID cmd) (apply_finish_step MaintenanceStepStatusCompleted (sp_StepID cmd));
  for_each (fun item => publishAudit (MaintStepCompleted (sp_Actor cmd) maint item)) curr.
Definition CancelStep (cmd : StepCmd) : M unit :=
  '(maint, curr) ← updateStepWithApply (sp_MaintID cmd) (apply_finish_step MaintenanceStepStatusCanceled (sp_StepID cmd));
  for_each (fun item => publishAudit (MaintStepCancelled (sp_Actor cmd) maint item)) curr.

(** ** get_maint.go *)

Definition GetMaint (maintID : UUID) : M Maintenance :=
  maint ← MaintStore.GetMaint maintID;
  rs ← GetMaintResources [ID maint];
  let maint := maint <| Resources := rs_ID <$> rs (ID maint) |> in
  steps ← GetMaintSteps maintID;
  targets ← NotifyTargets.ListByMaint maintID;
  deferred ← Deferred.ListByMaint maintID;
  mentions ← GetMaintMentions maintID;
  mret (maint <| Steps := steps |> <| Entity.NotifyTargets := targets |>
          <| DeferredNotifications := deferred |> <| Mentions := mentions |>).
End service.
