(* ===== verification/Processors.v ===== *)
(** * The queue's processors (internal/goque_processors, internal/app/bootstrap/processors.go
      and processor_registrar.go, internal/entity/goque_processors_task.go)

    Which task types there are, who processes them, and the periodic jobs that
    enqueue the sweeps, one task per day or minute however many replicas tick. *)
From Stdlib Require Import ZArith Lia Ascii String DecimalZ DecimalFacts.
From stdpp Require Import base sorting sets strings numbers list.
From S2P Require Import Prelude Go Entity Conflict AuditTrail Schema Logic Dbtx Interleave MaintStore Sweep TokenStore InvitationStore Fixtures Queue Crypto Credentials Otp Secrets Sessions.
From S2P Require Import UserStore Like License Invitations OtpSpec SessionSpec IntegrationSpec Notify MaintService AuditLog Heartbeat CodeMail.
Open Scope Z_scope.

(** ** entity/goque_processors_task.go *)

Definition ProcessorTaskMaintAutoCancel : string := "maint.auto.cancel".
Definition ProcessorTaskMaintAutoCancelCron : string := "maint.auto.cancel.cron".
Definition ProcessorTaskAuditPrune : string := "audit.prune".
Definition ProcessorTaskAuditPruneCron : string := "audit.prune.cron".
Definition ProcessorTaskLicenseHeartbeat : string := "license.heartbeat".
Definition ProcessorTaskLicenseHeartbeatCron : string := "license.heartbeat.cron".
Definition ProcessorTaskInvitationRotate : string := "invitation.rotate".
Definition ProcessorTaskInvitationRotateCron : string := "invitation.rotate.cron".
Definition ProcessorTaskInvitationPrune : string := "invitation.prune".
Definition ProcessorTaskInvitationPruneCron : string := "invitation.prune.cron".
Definition ProcessorTaskOTPPrune : string := "otp.prune".
Definition ProcessorTaskOTPPruneCron : string := "otp.prune.cron".
Definition ProcessorTaskRefreshTokenPrune : string := "refresh_token.prune".
Definition ProcessorTaskRefreshTokenPruneCron : string := "refresh_token.prune.cron".
Definition ActiveProcessorTaskTypes : list string :=
  [ProcessorTaskMaintReminder; ProcessorTaskMaintAutoCancel; ProcessorTaskMaintAutoCancelCron; ProcessorTaskInvitationEmailSend;
   ProcessorTaskAuditWrite; ProcessorTaskAuditPrune; ProcessorTaskAuditPruneCron; ProcessorTaskInvitationRotate;
   ProcessorTaskInvitationRotateCron; ProcessorTaskInvitationPrune; ProcessorTaskInvitationPruneCron; ProcessorTaskOTPEmailSend;
   ProcessorTaskOTPPrune; ProcessorTaskOTPPruneCron; ProcessorTaskRefreshTokenPrune; ProcessorTaskRefreshTokenPruneCron].
Definition ExpectedProcessorTaskTypes (licenseEnabled : bool) : list string :=
  ActiveProcessorTaskTypes ++ (if licenseEnabled then [ProcessorTaskLicenseHeartbeat; ProcessorTaskLicenseHeartbeatCron] else []).

(** ** External ids *)

(** [cmp.Or] of two numbers *)
Definition cmp_Or (v d : Z) : Z := if v =? 0 then d else v.
(** [t.UTC().Format("2006-01-02")] and [("2006-01-02T15:04")] *)
Definition date_text (days : Z) : list ascii :=
  let '(y, m, d) := civil days in padded 4 y ++ bytes "-" ++ padded 2 m ++ bytes "-" ++ padded 2 d.
Definition Format_date (t : Time) : string := string_of_list_ascii (date_text (Unix t / 86400)).
Definition Format_minute (t : Time) : string :=
  let r := Unix t mod 86400 in
  string_of_list_ascii (date_text (Unix t / 86400) ++ bytes "T" ++ padded 2 (r / 3600) ++ bytes ":" ++ padded 2 (r / 60 mod 60)).

Definition auditPruneExternalID (now : Time) : string := "audit-prune-" +:+ Format_date now.
Definition invitationPruneExternalID (now : Time) : string := "invitation-prune-" +:+ Format_date now.
Definition invitationRotateExternalID (now : Time) : string := "invitation-rotate-" +:+ Format_date now.
Definition otpPruneExternalID (now : Time) : string := "otp-prune-" +:+ Format_date now.
Definition refreshTokenPruneExternalID (now : Time) : string := "refresh-token-prune-" +:+ Format_date now.
Definition licenseHeartbeatExternalID (now : Time) : string := "license-heartbeat-" +:+ Format_minute now.
(** [now.Truncate(time.Minute).Unix()]; the zero time is a whole minute. *)
Definition autoCancelExternalID (now : Time) : string :=
  "maint-auto-cancel-" +:+ string_of_list_ascii (decimal (Unix (now / Minute * Minute))).

(** ** The factories of the periodic jobs *)

Section factories.
Context `{Env} `{Goque}.

Definition factory (taskType : string) (payload : TaskPayload) (externalID : Time -> string) : M Task :=
  now ← UTCNow;
  goque_NewTask taskType payload (externalID now).

Definition autocancel_defaultThreshold : Duration := 15 * Minute.
Definition autocancel_defaultLimit : Z := 100.
Definition autocancel_NewTaskFactory (threshold : Duration) (limit : Z) : M Task :=
  factory ProcessorTaskMaintAutoCancel
    (PayloadMaintAutoCancel (cmp_Or threshold autocancel_defaultThreshold) (cmp_Or limit autocancel_defaultLimit)) autoCancelExternalID.
Definition prune_defaultBatchLimit : Z := 1000.
Definition auditprune_defaultRetention : Duration := 365 * 24 * Hour.
Definition auditprune_NewTaskFactory (retention : Duration) (batchLimit : Z) : M Task :=
  factory ProcessorTaskAuditPrune
    (PayloadAuditPrune (cmp_Or retention auditprune_defaultRetention) (cmp_Or batchLimit prune_defaultBatchLimit)) auditPruneExternalID.
Definition invitationrotate_NewTaskFactory (batchLimit : Z) : M Task :=
  factory ProcessorTaskInvitationRotate (PayloadInvitationRotate (cmp_Or batchLimit prune_defaultBatchLimit)) invitationRotateExternalID.
Definition invitationprune_defaultRetention : Duration := 365 * 24 * Hour.
Definition invitationprune_NewTaskFactory (retention : Duration) (batchLimit : Z) : M Task :=
  factory ProcessorTaskInvitationPrune
    (PayloadInvitationPrune (cmp_Or retention invitationprune_defaultRetention) (cmp_Or batchLimit prune_defaultBatchLimit)) invitationPruneExternalID.
Definition otpprune_defaultRetention : Duration := 24 * Hour.
Definition otpprune_NewTaskFactory (retention : Duration) (batchLimit : Z) : M Task :=
  factory ProcessorTaskOTPPrune
    (PayloadOTPPrune (cmp_Or retention otpprune_defaultRetention) (cmp_Or batchLimit prune_defaultBatchLimit)) otpPruneExternalID.
Definition refreshtokenprune_defaultRetention : Duration := 24 * Hour.
Definition refreshtokenprune_NewTaskFactory (retention : Duration) (batchLimit : Z) : M Task :=
  factory ProcessorTaskRefreshTokenPrune
    (PayloadRefreshTokenPrune (cmp_Or retention refreshtokenprune_defaultRetention) (cmp_Or batchLimit prune_defaultBatchLimit))
    refreshTokenPruneExternalID.
Definition licenseheartbeat_NewTaskFactory : M Task := factory ProcessorTaskLicenseHeartbeat PayloadLicenseHeartbeat licenseHeartbeatExternalID.

(** What the library does with a factory when its schedule ticks. *)
Definition tick_job (f : M Task) : M unit := task ← f; AddTaskToQueue task.
End factories.

(** ** The processors *)

(** What a task of a type does; a payload of another shape does not decode, and
    its task is cancelled by the library. *)
Definition Processor := TaskPayload -> option (M unit).

Section processors.
Context `{Env} `{Goque} `{Messenger} `{Collation} `{Tink} `{Entropy} `{Jwt} `{Console}.
Context (keyring : Keyring) (otp : Otp.Service) (jwtCfg : JWTConfig) (version : string).

Definition asyncsender_ProcessTask (p : EventNotifyPayload) : M unit :=
  _ ← Send (en_TransportName p) (en_Target p) (mkMessage (en_Subject p) (en_Body p) (en_MessageMIME p)) (en_ReplyTo p);
  mret tt.

Definition reminder_processor : Processor := fun p =>
  match p with PayloadMaintReminder maintID _ => Some (ReminderProcessor_ProcessTask maintID) | _ => None end.
Definition autocancel_processor : Processor := fun p =>
  match p with PayloadMaintAutoCancel threshold limit => Some (AutoCancel_ProcessTask threshold limit) | _ => None end.
Definition asyncsender_processor : Processor := fun p => match p with PayloadEventNotify e => Some (asyncsender_ProcessTask e) | _ => None end.
Definition otpemail_processor (ttl : Duration) : Processor := fun p =>
  match p with PayloadOTPEmail e => Some (OTPEmail_ProcessTask keyring ttl e) | _ => None end.
Definition audit_processor : Processor := fun p => match p with PayloadAuditWrite e => Some (audit_ProcessTask e) | _ => None end.
Definition auditprune_processor : Processor := fun p =>
  match p with PayloadAuditPrune retention batchLimit => Some (audit_Prune retention batchLimit) | _ => None end.
Definition invitationrotate_processor : Processor := fun p =>
  match p with PayloadInvitationRotate batchLimit => Some (Invitations.Rotate batchLimit) | _ => None end.
Definition invitationprune_processor : Processor := fun p =>
  match p with PayloadInvitationPrune retention batchLimit => Some (Invitations.Prune retention batchLimit) | _ => None end.
Definition otpprune_processor : Processor := fun p =>
  match p with
  | PayloadOTPPrune retention batchLimit => Some (exec (@otp_handle _ _ _ (keyring_sealer keyring) _ otp) (Otp.Prune retention batchLimit))
  | _ => None
  end.
Definition refreshtokenprune_processor : Processor := fun p =>
  match p with PayloadRefreshTokenPrune retention batchLimit => Some (exec (token_handle jwtCfg) (PruneRefreshTokens retention batchLimit)) | _ => None end.
Definition licenseheartbeat_processor : Processor := fun p => match p with PayloadLicenseHeartbeat => Some (Refresh version) | _ => None end.

(** ** app/bootstrap *)

(** The processors by type, and the periodic jobs by name. *)
Record Registrar := mkRegistrar { rg_processors : list (string * Processor); rg_jobs : list (string * M Task) }.
Definition registered (r : Registrar) : list string := (rg_processors r).*1 ++ (rg_jobs r).*1.
Definition RegisterProcessor (taskType : string) (p : Processor) (r : Registrar) : Registrar :=
  mkRegistrar (rg_processors r ++ [(taskType, p)]) (rg_jobs r).
Definition RegisterPeriodicJob (name : string) (f : M Task) (r : Registrar) : Registrar :=
  mkRegistrar (rg_processors r) (rg_jobs r ++ [(name, f)]).
Definition verify (expected : list string) (r : Registrar) : unit + error :=
  let missing := List.filter (fun t => negb (bool_decide (t ∈ registered r))) expected in
  let unexpected := List.filter (fun t => negb (bool_decide (t ∈ expected))) (registered r) in
  match missing, unexpected with
  | [], [] => inl tt
  | _, _ => inr (EOther "goque processor coverage mismatch")
  end.

(** config.TaskProcessorConfig and LicenseConfig, as far as they are read here; the
    threshold of the auto-cancel sweep is its retention. *)
Record SweepConfig := mkSweepCfg { sc_CronSpec : string; sc_Retention : Duration; sc_BatchLimit : Z }.
Record ProcessorsConfig := mkProcessorsCfg {
  pc_MaintAutoCancel : SweepConfig; pc_AuditPrune : SweepConfig; pc_InvitationRotate : SweepConfig; pc_InvitationPrune : SweepConfig;
  pc_OTPPrune : SweepConfig; pc_RefreshTokenPrune : SweepConfig; pc_LicenseEnabled : bool; pc_LicenseCronSpec : string }.
Definition DefaultCronSpec : string := "30 3 * * *".

(** [goque.NewCronJob]: a schedule it cannot parse is an error. *)
Context (cron_Parse : string -> option error).
Definition with_job (what name spec : string) (f : M Task) (r : Registrar) : Registrar + error :=
  match cron_Parse spec with
  | Some err => inr (Errorf ("failed to build " +:+ what +:+ " cron job") err)
  | None => inl (RegisterPeriodicJob name f r)
  end.
Definition or_spec (spec def : string) : string := if String.eqb spec "" then def else spec.

Definition registerInvitationRotation (cfg : ProcessorsConfig) (r : Registrar) : Registrar + error :=
  let rotateCfg := pc_InvitationRotate cfg in
  let pruneCfg := pc_InvitationPrune cfg in
  let r := RegisterProcessor ProcessorTaskInvitationRotate invitationrotate_processor r in
  and_then (with_job "invitation-rotate" ProcessorTaskInvitationRotateCron (sc_CronSpec rotateCfg)
              (invitationrotate_NewTaskFactory (sc_BatchLimit rotateCfg)) r) (fun r =>
  let r := RegisterProcessor ProcessorTaskInvitationPrune invitationprune_processor r in
  with_job "invitation-prune" ProcessorTaskInvitationPruneCron (sc_CronSpec pruneCfg)
    (invitationprune_NewTaskFactory (sc_Retention pruneCfg) (sc_BatchLimit pruneCfg)) r).
Definition registerOTPPrune (cfg : ProcessorsConfig) (r : Registrar) : Registrar + error :=
  let pruneCfg := pc_OTPPrune cfg in
  with_job "otp-prune" ProcessorTaskOTPPruneCron (sc_CronSpec pruneCfg) (otpprune_NewTaskFactory (sc_Retention pruneCfg) (sc_BatchLimit pruneCfg))
    (RegisterProcessor ProcessorTaskOTPPrune otpprune_processor r).
Definition registerRefreshTokenPrune (cfg : ProcessorsConfig) (r : Registrar) : Registrar + error :=
  let pruneCfg := pc_RefreshTokenPrune cfg in
  with_job "refresh-token-prune" ProcessorTaskRefreshTokenPruneCron (or_spec (sc_CronSpec pruneCfg) DefaultCronSpec)
    (refreshtokenprune_NewTaskFactory (sc_Retention pruneCfg) (sc_BatchLimit pruneCfg))
    (RegisterProcessor ProcessorTaskRefreshTokenPrune refreshtokenprune_processor r).
Definition registerHeartbeat (cfg : ProcessorsConfig) (r : Registrar) : Registrar + error :=
  if pc_LicenseEnabled cfg
  then with_job "license-heartbeat" ProcessorTaskLicenseHeartbeatCron (or_spec (pc_LicenseCronSpec cfg) "* * * * *") licenseheartbeat_NewTaskFactory
         (RegisterProcessor ProcessorTaskLicenseHeartbeat licenseheartbeat_processor r)
  else inl r.
Definition NewTaskProcessors (cfg : ProcessorsConfig) : Registrar + error :=
  let autoCancelCfg := pc_MaintAutoCancel cfg in
  let auditPruneCfg := pc_AuditPrune cfg in
  let r := RegisterProcessor ProcessorTaskMaintReminder reminder_processor (mkRegistrar [] []) in
  let r := RegisterProcessor ProcessorTaskMaintAutoCancel autocancel_processor r in
  and_then (with_job "maint-auto-cancel" ProcessorTaskMaintAutoCancelCron (sc_CronSpec autoCancelCfg)
              (autocancel_NewTaskFactory (sc_Retention autoCancelCfg) (sc_BatchLimit autoCancelCfg)) r) (fun r =>
  let r := RegisterProcessor ProcessorTaskInvitationEmailSend asyncsender_processor r in
  let r := RegisterProcessor ProcessorTaskOTPEmailSend (otpemail_processor (Otp.ttl otp)) r in
  let r := RegisterProcessor ProcessorTaskAuditWrite audit_processor r in
  let r := RegisterProcessor ProcessorTaskAuditPrune auditprune_processor r in
  and_then (with_job "audit-prune" ProcessorTaskAuditPruneCron (sc_CronSpec auditPruneCfg)
              (auditprune_NewTaskFactory (sc_Retention auditPruneCfg) (sc_BatchLimit auditPruneCfg)) r) (fun r =>
  and_then (registerInvitationRotation cfg r) (fun r =>
  and_then (registerHeartbeat cfg r) (fun r =>
  and_then (registerOTPPrune cfg r) (fun r =>
  and_then (registerRefreshTokenPrune cfg r) (fun r =>
  and_then (verify (ExpectedProcessorTaskTypes (pc_LicenseEnabled cfg)) r) (fun _ => inl r))))))).
End processors.

(** ** Dates *)

(** The day a civil date is. *)
Definition days_of (c : Z * Z * Z) : Z :=
  let '(y, m, d) := c in
  let y := if m <=? 2 then y - 1 else y in
  let yoe := y mod 400 in
  let mp := if 2 <? m then m - 3 else m + 9 in
  y / 400 * 146097 + (yoe * 365 + yoe / 4 - yoe / 100 + ((153 * mp + 2) / 5 + d - 1)) - 719468.
Lemma yoe_bounds doe :
  0 <= doe < 146097 -> let yoe := (doe - doe / 1460 + doe / 36524 - doe / 146096) / 365 in
  0 <= yoe < 400 ∧ 0 <= doe - (365 * yoe + yoe / 4 - yoe / 100) <= 365.
Proof. intros Hd yoe. subst yoe. Z.to_euclidean_division_equations. lia. Qed.
Lemma month_bounds doy : 0 <= doy <= 365 -> 0 <= (5 * doy + 2) / 153 <= 11 ∧ 0 <= doy - (153 * ((5 * doy + 2) / 153) + 2) / 5 <= 30.
Proof. intros Hd. Z.to_euclidean_division_equations. lia. Qed.

Lemma days_of_civil days : days_of (civil days) = days.
Proof.
  unfold civil, days_of. set (z := days + 719468).
  pose proof (Z.div_mod z 146097 ltac:(lia)) as Hz. pose proof (Z.mod_pos_bound z 146097 ltac:(lia)) as Hb.
  set (era := z / 146097) in *. set (doe := z mod 146097) in *. clearbody era doe.
  destruct (yoe_bounds doe Hb) as [Hy Hd]. set (yoe := (doe - doe / 1460 + doe / 36524 - doe / 146096) / 365) in *. clearbody yoe.
  remember (doe - (365 * yoe + yoe / 4 - yoe / 100)) as doy eqn:Edoy. destruct (month_bounds doy Hd) as [Hmp _].
  set (mp := (5 * doy + 2) / 153) in *. clearbody mp.
  assert (∀ y, y = yoe + era * 400 -> y / 400 = era ∧ y mod 400 = yoe) as Hcut.
  { intros y ->. rewrite Z.div_add, Z.mod_add by lia. rewrite Z.div_small, Z.mod_small by lia. lia. }
  destruct (Z.ltb_spec mp 10).
  - destruct (Z.leb_spec (mp + 3) 2); [lia|]. destruct (Z.ltb_spec 2 (mp + 3)); [|lia].
    rewrite Z.add_0_r. destruct (Hcut _ eq_refl) as [-> ->]. replace (mp + 3 - 3) with mp by lia. lia.
  - destruct (Z.leb_spec (mp - 9) 2); [|lia]. destruct (Z.ltb_spec 2 (mp - 9)); [lia|].
    replace (yoe + era * 400 + 1 - 1) with (yoe + era * 400) by lia. destruct (Hcut _ eq_refl) as [-> ->].
    replace (mp - 9 + 9) with mp by lia. lia.
Qed.
Lemma civil_bounds days : 0 <= days -> let '(y, m, d) := civil days in 0 <= y ∧ 0 <= m ∧ 0 <= d.
Proof.
  intros H0. unfold civil. set (z := days + 719468).
  pose proof (Z.div_mod z 146097 ltac:(lia)) as Hz. pose proof (Z.mod_pos_bound z 146097 ltac:(lia)) as Hb.
  set (era := z / 146097) in *. set (doe := z mod 146097) in *. clearbody era doe.
  destruct (yoe_bounds doe Hb) as [Hy Hd]. set (yoe := (doe - doe / 1460 + doe / 36524 - doe / 146096) / 365) in *. clearbody yoe.
  remember (doe - (365 * yoe + yoe / 4 - yoe / 100)) as doy eqn:Edoy. destruct (month_bounds doy Hd) as [Hmp Hday].
  set (mp := (5 * doy + 2) / 153) in *. clearbody mp.
  split_and!; [destruct (_ <=? 2); lia|destruct (Z.ltb_spec mp 10); lia|lia].
Qed.

Definition digit (c : ascii) : Prop := (48 <= N_of_ascii c < 58)%N.
Lemma padded_digits k n : 0 <= n -> Forall digit (padded k n).
Proof.
  intros Hn. unfold padded. apply Forall_app. split; [apply Forall_replicate; unfold digit; simpl; lia|].
  apply Forall_forall. intros c. by apply decimal_digits.
Qed.
Lemma zeros_decimal a b n n' : replicate a "0"%char ++ decimal n = replicate b "0"%char ++ decimal n' -> (a <= b)%nat -> n = n'.
Proof.
  revert b. induction a as [|a IH]; intros b E Hab; simpl in E.
  - destruct b as [|b]; [by apply decimal_inj|]. simpl in E. pose proof (decimal_zero _ _ E) as ->.
    change (decimal 0) with ["0"%char] in E. injection E as E. symmetry in E. apply app_eq_nil in E as [_ E]. by apply decimal_nonempty in E.
  - destruct b as [|b]; [lia|]. simpl in E. injection E as E. apply (IH b); [done|lia].
Qed.
Lemma padded_inj k n n' : padded k n = padded k n' -> n = n'.
Proof.
  unfold padded. set (a := (k - length (decimal n))%nat). set (b := (k - length (decimal n'))%nat). intros E.
  destruct (le_ge_dec a b); [by eapply zeros_decimal|]. symmetry in E |- *. eapply zeros_decimal; [exact E|lia].
Qed.
Lemma not_digit c l : ~ digit c -> Forall digit l -> c ∉ l.
Proof. intros Hc Hl Hin. rewrite Forall_forall in Hl. by apply Hc, Hl. Qed.

Ltac no_delim := apply not_digit; [unfold digit; simpl; lia|apply padded_digits; lia].

Lemma date_text_inj days days' : 0 <= days -> 0 <= days' -> date_text days = date_text days' -> days = days'.
Proof.
  intros H0 H0' E. pose proof (civil_bounds days H0) as Hb. pose proof (civil_bounds days' H0') as Hb'. unfold date_text in E.
  rewrite <- (days_of_civil days), <- (days_of_civil days'). destruct (civil days) as [[y m] d], (civil days') as [[y' m'] d'].
  destruct Hb as (? & ? & ?), Hb' as (? & ? & ?). f_equal.
  apply (app_inj_delim "-"%char) in E as [Ey E]; [|no_delim..].
  apply (app_inj_delim "-"%char) in E as [Em Ed]; [|no_delim..].
  apply padded_inj in Ey, Em, Ed. by subst.
Qed.

Lemma date_no_T days : 0 <= days -> "T"%char ∉ date_text days.
Proof.
  intros H0. pose proof (civil_bounds days H0) as Hb. unfold date_text. destruct (civil days) as [[y m] d], Hb as (? & ? & ?).
  rewrite !elem_of_app. intros [Hin|[Hin|[Hin|[Hin|Hin]]]]; try (by apply list_elem_of_singleton in Hin); revert Hin; no_delim.
Qed.

(** ** One task per bucket *)

Lemma days_bucket t : Unix t / 86400 = t / Day.
Proof. unfold Unix. rewrite Z.div_div by done. done. Qed.
Lemma string_of_bytes_inj l l' : string_of_list_ascii l = string_of_list_ascii l' -> l = l'.
Proof. intros E. by rewrite <- (list_ascii_of_string_of_list_ascii l), E, list_ascii_of_string_of_list_ascii. Qed.
Lemma Format_date_bucket t t' : 0 <= t -> 0 <= t' -> Format_date t = Format_date t' ↔ t / Day = t' / Day.
Proof.
  intros H0 H0'. unfold Format_date. rewrite !days_bucket. split; [|by intros ->]. intros E%string_of_bytes_inj.
  apply date_text_inj in E; [done|by apply Z.div_pos..].
Qed.
(** The minute of a time, from its day, hour and minute of the hour. *)
Lemma minute_split t : t / Minute = Unix t / 86400 * 1440 + Unix t mod 86400 / 3600 * 60 + Unix t mod 86400 / 60 mod 60.
Proof.
  assert (t / Minute = Unix t / 60) as -> by (unfold Unix; by rewrite Z.div_div). generalize (Unix t). intros s.
  Z.to_euclidean_division_equations. lia.
Qed.
Lemma Format_minute_bucket t t' : 0 <= t -> 0 <= t' -> Format_minute t = Format_minute t' ↔ t / Minute = t' / Minute.
Proof.
  intros H0 H0'. unfold Format_minute. rewrite !minute_split.
  assert (∀ s, 0 <= s -> 0 <= Unix s / 86400) as Hd by (intros s Hs; rewrite days_bucket; by apply Z.div_pos).
  assert (∀ s, 0 <= Unix s mod 86400 / 3600 < 24 ∧ 0 <= Unix s mod 86400 / 60 mod 60 < 60) as Hr.
  { intros s. generalize (Unix s). intros z. Z.to_euclidean_division_equations. lia. }
  pose proof (Hr t) as [Hh Hm]. pose proof (Hr t') as [Hh' Hm']. split.
  - intros E%string_of_bytes_inj. apply (app_inj_delim "T"%char) in E as [Ed E]; [|by apply date_no_T, Hd..].
    apply date_text_inj in Ed; [|by apply Hd..]. apply (app_inj_delim ":"%char) in E as [Eh Em]; [|no_delim..].
    apply padded_inj in Eh, Em. congruence.
  - intros E. assert (Unix t / 86400 = Unix t' / 86400) as -> by lia.
    assert (Unix t mod 86400 / 3600 = Unix t' mod 86400 / 3600) as -> by lia.
    assert (Unix t mod 86400 / 60 mod 60 = Unix t' mod 86400 / 60 mod 60) as -> by lia. done.
Qed.
Lemma autoCancel_bucket t t' : autoCancelExternalID t = autoCancelExternalID t' ↔ t / Minute = t' / Minute.
Proof.
  assert (∀ s, Unix (s / Minute * Minute) = s / Minute * 60) as Hu.
  { intros s. unfold Unix. change Minute with (60 * Second) at 2. rewrite Z.mul_assoc. by rewrite Z.div_mul. }
  unfold autoCancelExternalID. rewrite !Hu. split; [|by intros ->].
  intros E%(inj (String.app _))%string_of_bytes_inj%decimal_inj. lia.
Qed.

Section jobs.
Context `{Env} `{Goque} `{!GoqueSpec} `{Messenger} `{Collation} `{Tink} `{Entropy} `{Jwt} `{Console}.
Context (keyring : Keyring) (otp : Otp.Service) (jwtCfg : JWTConfig) (version : string) (cron_Parse : string -> option error).
Notation NewTaskProcessors := (NewTaskProcessors keyring otp jwtCfg version cron_Parse).

(** Somebody processes a task, and can read its payload. *)
Definition handled (r : Registrar) (t : Task) : Prop := ∃ proc, go_lookup (rg_processors r) (tk_Type t) = Some proc ∧ is_Some (proc (tk_Payload t)).
(** The span one task stands for. *)
Definition bucket_of (name : string) : Duration :=
  if String.eqb name ProcessorTaskMaintAutoCancelCron || String.eqb name ProcessorTaskLicenseHeartbeatCron then Minute else Day.
(** A job whose tasks are of one kind, processed, and named by their bucket. *)
Record sound_job (r : Registrar) (name : string) (f : M Task) : Prop := {
  sj_kind : ∃ ty payload ext, f = factory ty payload ext ∧ (∀ id e n, handled r (mkTask id ty payload e n)) ∧
    ∀ t t', 0 <= t -> 0 <= t' -> ext t = ext t' ↔ t / bucket_of name = t' / bucket_of name }.

Lemma prefix_inj (p a b : string) : p +:+ a = p +:+ b ↔ a = b.
Proof. split; [apply (inj (String.app p))|by intros ->]. Qed.

Ltac job ext_bucket := split; eexists _, _, _; split; [reflexivity|]; split; [intros; eexists; split; [reflexivity|eexists; reflexivity]|];
  let t := fresh in let t' := fresh in intros t t' ? ?; unfold bucket_of; simpl;
  unfold auditPruneExternalID, invitationPruneExternalID, invitationRotateExternalID, otpPruneExternalID, refreshTokenPruneExternalID,
    licenseHeartbeatExternalID; rewrite ?prefix_inj; by apply ext_bucket.
Lemma jobs_sound cfg r name f : NewTaskProcessors cfg = inl r -> (name, f) ∈ rg_jobs r -> sound_job r name f.
Proof.
  unfold NewTaskProcessors, with_job, registerInvitationRotation, registerHeartbeat, registerOTPPrune, registerRefreshTokenPrune, with_job.
  destruct (cron_Parse (sc_CronSpec (pc_MaintAutoCancel cfg))); [done|]. cbn [and_then].
  destruct (cron_Parse (sc_CronSpec (pc_AuditPrune cfg))); [done|]. cbn [and_then].
  destruct (cron_Parse (sc_CronSpec (pc_InvitationRotate cfg))); [done|]. cbn [and_then].
  destruct (cron_Parse (sc_CronSpec (pc_InvitationPrune cfg))); [done|]. cbn [and_then].
  destruct (pc_LicenseEnabled cfg); [destruct (cron_Parse (or_spec (pc_LicenseCronSpec cfg) _)); [done|]|]; cbn [and_then];
    (destruct (cron_Parse (sc_CronSpec (pc_OTPPrune cfg))); [done|]); cbn [and_then];
    (destruct (cron_Parse (or_spec (sc_CronSpec (pc_RefreshTokenPrune cfg)) _)); [done|]); cbn [and_then].
  all: unfold verify; match goal with |- and_then ?v _ = _ -> _ => destruct v as [[]|]; [|done] end; intros [= <-]; cbn [rg_jobs RegisterPeriodicJob RegisterProcessor app].
  all: rewrite !elem_of_cons, elem_of_nil; intros Hf.
  all: repeat (destruct Hf as [[= -> ->]|Hf]; [first [job Format_date_bucket|job Format_minute_bucket|job autoCancel_bucket]|]); done.
Qed.

Lemma factory_Ok ty payload ext ctx w t w' :
  factory ty payload ext ctx w = (Ok t, w') ->
  tk_Type t = ty ∧ tk_Payload t = payload ∧ tk_ExternalID t = ext (env_now (w_step w)) ∧ w_db w' = w_db w.
Proof.
  unfold factory, UTCNow, goque_NewTask, mbind, M_bind. simpl. intros [= Hn <-]. by apply goque_new_ok in Hn as ->.
Qed.
Lemma tick_Ok ty payload ext ctx w w' :
  tick_job (factory ty payload ext) ctx w = (Ok tt, w') ->
  ∃ t, t ∈ goque_tasks (w_db w') ∧ tk_Type t = ty ∧ tk_Payload t = payload ∧ tk_ExternalID t = ext (env_now (w_step w)) ∧
    ∀ x, x ∈ goque_tasks (w_db w) -> tk_Type x = ty -> tk_ExternalID x ≠ ext (env_now (w_step w)).
Proof.
  intros (t & w1 & (Hty & Hp & He & Hdb)%factory_Ok & (l & Hl & Hdb' & _)%on_queue_Ok)%bind_Ok. rewrite Hdb in *.
  exists t. split; [rewrite Hdb'; apply (goque_add_ok _ _ _ Hl); by left|]. split_and!; [done..|].
  intros x Hx Hxt Hxe. apply (goque_add_unique _ _ _ Hl x Hx). split; congruence.
Qed.

(** C25. One task per bucket.  Whatever schedule and settings they run with, and
    however many replicas tick: the task a periodic job enqueues has a processor
    that reads it; while it is in the queue, a second tick of the job within the
    same day - within the same minute, for the heartbeat and the auto-cancel sweep
    - is refused; and a tick in another one asks for a name of its own, so that
    it does not collide with this one. *)
Theorem one_task_per_bucket cfg r name f ctx1 w1 w1' ctx2 w2 :
  NewTaskProcessors cfg = inl r -> (name, f) ∈ rg_jobs r -> (∀ n, 0 <= env_now n) ->
  tick_job f ctx1 w1 = (Ok tt, w1') -> (∀ t, t ∈ goque_tasks (w_db w1') -> t ∈ goque_tasks (w_db w2)) ->
  let same := env_now (w_step w1) / bucket_of name = env_now (w_step w2) / bucket_of name in
  ∃ t1, t1 ∈ goque_tasks (w_db w1') ∧ handled r t1 ∧
    (same -> fst (tick_job f ctx2 w2) ≠ Ok tt) ∧
    (∀ t2 w3, f ctx2 w2 = (Ok t2, w3) -> tk_Type t2 = tk_Type t1 ∧ (tk_ExternalID t2 = tk_ExternalID t1 ↔ same)).
Proof.
  intros Hr Hf Hpos Hfirst Hkept same. destruct (jobs_sound _ _ _ _ Hr Hf) as [(ty & payload & ext & -> & Hh & Hb)].
  apply tick_Ok in Hfirst as (t1 & Hin & Hty & Hp & He & _). exists t1. split; [done|]. split.
  { destruct t1 as [id ty1 p1 e1 n1]. simpl in *. subst. apply Hh. }
  split.
  - intros Hsame Hok. destruct (tick_job _ ctx2 w2) as [r2 w2'] eqn:E2. simpl in Hok. subst r2. apply tick_Ok in E2 as (t2 & _ & _ & _ & _ & Hnone).
    apply (Hnone t1 (Hkept _ Hin) Hty). rewrite He. by apply Hb.
  - intros t2 w3 (Hty2 & _ & He2 & _)%factory_Ok. split; [congruence|]. rewrite He, He2. rewrite Hb by done. unfold same. by split; intros ->.
Qed.

(** The set that is registered is the set that is expected: with schedules that
    parse, the process starts. *)
Lemma processors_start cfg : (∀ spec, cron_Parse spec = None) -> ∃ r, NewTaskProcessors cfg = inl r.
Proof.
  intros Hc. unfold NewTaskProcessors, with_job, registerInvitationRotation, registerHeartbeat, registerOTPPrune, registerRefreshTokenPrune, with_job.
  rewrite !Hc. destruct (pc_LicenseEnabled cfg); cbn [and_then]; eexists; reflexivity.
Qed.
End jobs.

(** ** The retention sweeps *)

#[export] Instance sweep_invitations : Sweepable InvitationRow UUID := {|
  sw_table := user_invitations; sw_put l db := db <| user_invitations := l |>; sw_key := iv_ID; sw_order := InvitationStore.created_cmp |}.
#[export] Instance sweep_invitations_laws : SweepableLaws InvitationRow UUID.
Proof. split; [done|by intros []|done]. Qed.
#[export] Instance sweep_tokens : Sweepable TokenRow string := {|
  sw_table := refresh_tokens; sw_put l db := db <| refresh_tokens := l |>; sw_key := rt_TokenHash; sw_order := token_expiry_cmp |}.
#[export] Instance sweep_tokens_laws : SweepableLaws TokenRow string.
Proof. split; [done|by intros []|done]. Qed.

Section sweeps.
Context `{Env} `{Goque} `{Collation} `{Tink} `{Entropy} `{Jwt} (keyring : Keyring) (otp : Otp.Service) (jwtCfg : JWTConfig).

(** A sweep of a table: it reads the clock once, runs at most a hundred
    statements, and leaves the table pruned of rows that had run out at its
    cutoff, and every other table alone. *)
Definition sweeps `{Sweepable R K} (m : option (M unit)) (gone : Time -> R -> bool) (retention : Duration) (limit : Z) : Prop :=
  ∃ run, m = Some run ∧ ∀ ctx w r w', run ctx w = (r, w') -> NoDup (sw_key <$> sw_table (w_db w)) ->
    (w_step w' <= w_step w + 101)%nat ∧
    pruned (gone (Time_Add (env_now (w_step w)) (- retention))) 100 limit r (sw_table (w_db w)) (sw_table (w_db w')) ∧
    w_db w' = sw_put (sw_table (w_db w')) (w_db w).

Lemma sweeps_intro `{Sweepable R K} `{!SweepableLaws R K} (run : M unit) gone retention limit :
  (∀ ctx w, run ctx w = batches 100 (sweep (gone (Time_Add (env_now (w_step w)) (- retention))) limit) limit ctx (tick w)) ->
  sweeps (Some run) gone retention limit.
Proof.
  intros Hrun. exists run. split; [done|]. intros ctx w r w' E Hnd. rewrite Hrun in E.
  apply batches_sweep in E as ([_ Hs] & Hp & Hdb); [|done..]. simpl in *. split_and!; [lia|done|done].
Qed.
Lemma prune_tokens_run n cutoff limit ctx w :
  exec (token_handle jwtCfg) (prune_tokens n cutoff limit) ctx w = batches n (sweep (fun r => rt_ExpiresAt r <? pg_ts cutoff) limit) limit ctx w.
Proof.
  revert w. induction n as [|n IH]; intros w; [done|]. cbn [prune_tokens batches]. unfold call, mbind, Prog_bind, M_bind. simpl.
  unfold PruneExpiredBefore, sweep, sql. destruct (env_fault (w_step w)); [done|]. simpl. unfold swept, picked. simpl.
  destruct (_ <? limit); [done|apply IH].
Qed.

Definition or_default (v def : Z) : Z := if v <=? 0 then def else v.
Lemma refreshtokenprune_sweeps retention batchLimit :
  sweeps (refreshtokenprune_processor jwtCfg (PayloadRefreshTokenPrune retention batchLimit)) (fun cutoff r => rt_ExpiresAt r <? pg_ts cutoff)
    (or_default retention (24 * Hour)) (or_default batchLimit 1000).
Proof. apply sweeps_intro. intros ctx w. rewrite <- prune_tokens_run. reflexivity. Qed.
(** C26. Retention.  Each of the four sweeps, whatever tunables its task
    carries, ends after at most a hundred statements and one reading of the
    clock; it removes only one-time codes and refresh tokens that expired, and
    invitations that ended and audit entries that were written, before the
    retention, keeps every other row as it was and in its place, touches no other
    table, and on success leaves no row that was to go, or has removed a hundred
    full batches.  A retention that is not positive falls back to the default,
    except for the audit log. *)
Theorem retention_sweeps_bounded retention batchLimit :
  let limit := or_default batchLimit 1000 in
  in_int64 (- retention) ->
  sweeps (otpprune_processor keyring otp (PayloadOTPPrune retention batchLimit)) expired_before (or_default retention (24 * Hour)) limit ∧
  sweeps (refreshtokenprune_processor jwtCfg (PayloadRefreshTokenPrune retention batchLimit)) (fun cutoff r => rt_ExpiresAt r <? pg_ts cutoff)
    (or_default retention (24 * Hour)) limit ∧
  sweeps (invitationprune_processor (PayloadInvitationPrune retention batchLimit))
    (fun cutoff r => InvitationStore.is_terminal r && (iv_CreatedAt r <? pg_ts cutoff)) (or_default retention (365 * 24 * Hour)) limit ∧
  sweeps (auditprune_processor (PayloadAuditPrune retention batchLimit)) older_than retention limit.
Proof.
  intros limit Hr. split_and!; [|apply refreshtokenprune_sweeps|..]; apply sweeps_intro; intros ctx w.
  - rewrite <- (@prune_batches_run _ _ _ (keyring_sealer keyring) _ otp). reflexivity.
  - reflexivity.
  - unfold audit_Prune. rewrite wrap64_id by done. reflexivity.
Qed.
End sweeps.

(** ** A run *)

Definition ex_sweep_cfg : SweepConfig := mkSweepCfg "0 3 * * *" 0 0.
Definition ex_processors_cfg : ProcessorsConfig :=
  mkProcessorsCfg ex_sweep_cfg ex_sweep_cfg ex_sweep_cfg ex_sweep_cfg ex_sweep_cfg ex_sweep_cfg true "".
Definition ex_processors : Registrar + error :=
  @NewTaskProcessors calm_env list_goque ex_messenger c_collation marking_tink ex_entropy ex_jwt (answers ex_answer) (ex_keyring "local-kms://a")
    (Otp.NewService ex_otp_cfg) ex_jwt_cfg "v1" (fun _ => None) ex_processors_cfg.
Definition ex_job : M Task := @auditprune_NewTaskFactory calm_env list_goque 0 0.

Lemma one_task_per_bucket_witness : ∃ r w1,
  ex_processors = inl r ∧ (ProcessorTaskAuditPruneCron, ex_job) ∈ rg_jobs r ∧
  @tick_job calm_env list_goque ex_job background ex_world = (Ok tt, w1) ∧ fst (@tick_job calm_env list_goque ex_job background w1) ≠ Ok tt.
Proof.
  eexists _, _. split; [reflexivity|]. assert ((ProcessorTaskAuditPruneCron, ex_job) ∈ rg_jobs (match ex_processors with inl r => r | inr _ => mkRegistrar [] [] end)) as Hin
    by (right; left; reflexivity).
  split; [exact Hin|]. split; [vm_compute; reflexivity|].
  edestruct (@one_task_per_bucket calm_env list_goque list_goque_spec ex_messenger c_collation marking_tink ex_entropy ex_jwt (answers ex_answer)
    (ex_keyring "local-kms://a") (Otp.NewService ex_otp_cfg) ex_jwt_cfg "v1" (fun _ => None) ex_processors_cfg
    (match ex_processors with inl r => r | inr _ => mkRegistrar [] [] end) ProcessorTaskAuditPruneCron ex_job background ex_world
    (snd (@tick_job calm_env list_goque ex_job background ex_world)) background
    (snd (@tick_job calm_env list_goque ex_job background ex_world))) as (t1 & _ & _ & Hsame & _).
  - reflexivity.
  - exact Hin.
  - intros n. unfold env_now, calm_env, T0, Millisecond, Second. lia.
  - vm_compute. reflexivity.
  - done.
  - apply Hsame. vm_compute. reflexivity.
Defined.

Lemma retention_sweeps_bounded_witness : ∃ w',
  @audit_Prune calm_env Hour 0 background
    (ex_world <| w_db := ex_db <| audit_log := [mkAuditLogRow 1 "login.success" "" "" "" "" "" [] (JObject []) (at_min (-90)) None;
                                                mkAuditLogRow 2 "login.failed" "" "" "" "" "" [] (JObject []) (at_min (-30)) None] |> |>) = (Ok tt, w') ∧
  al_ID <$> audit_log (w_db w') = [2%N] ∧ (w_step w' <= 101)%nat.
Proof.
  eexists. match goal with |- ?E ∧ _ => assert E as Hrun by (vm_compute; reflexivity) end. split; [exact Hrun|]. split; [vm_compute; reflexivity|].
  destruct (@retention_sweeps_bounded calm_env list_goque c_collation marking_tink ex_entropy ex_jwt (ex_keyring "local-kms://a")
    (Otp.NewService ex_otp_cfg) ex_jwt_cfg Hour 0 ltac:(unfold in_int64, Hour, Minute, Second; lia)) as (_ & _ & _ & run & [= <-] & Hsweep).
  destruct (Hsweep _ _ _ _ Hrun ltac:(decide_now)) as [Hs _]. exact Hs.
Defined.

(** A negative retention of the audit log goes back to a time that has not come
    yet: everything is deleted. *)
Example negative_retention_deletes_all :
  audit_log (w_db (snd (@audit_Prune calm_env (- Hour) 0 background
    (ex_world <| w_db := ex_db <| audit_log := [mkAuditLogRow 1 "login.success" "" "" "" "" "" [] (JObject []) T0 None] |> |>)))) = [].
Proof. vm_compute. reflexivity. Qed.
