(* ===== verification/Config.v ===== *)
(** * The configuration of an instance (internal/config)

    What the two files may say: the sections that name integrations are prepared,
    references to the secrets file are resolved, and the rest is checked before
    anything starts.  Reading the files is the library's. *)
From Stdlib Require Import ZArith Lia Ascii String.
From stdpp Require Import base sorting sets strings numbers list.
From S2P Require Import Prelude Go Entity Conflict AuditTrail Schema Json Logic Interleave Validation Kinds MaintStore Sweep TokenStore Fixtures Queue Crypto Password Otp Secrets Sessions Auth.
From S2P Require Import Like OtpSpec SessionSpec Integrations Notify Processors.
Open Scope Z_scope.

(** ** environment.go *)

Definition ProdEnvironment : string := "prod".
Definition DevEnvironment : string := "dev".
Definition LocalEnvironment : string := "local".
Definition PerformanceTestEnvironment : string := "performance_test".
Definition IsProd (e : string) : bool := String.eqb e ProdEnvironment.
Definition IsLocal (e : string) : bool := String.eqb e LocalEnvironment.
Definition IsPerformanceTest (e : string) : bool := String.eqb e PerformanceTestEnvironment.
Definition IsDev (e : string) : bool := String.eqb e DevEnvironment || IsLocal e || IsPerformanceTest e.
(** The value a context carries: none, one of another type, or an environment. *)
Definition EnvFromContext (val : option (option string)) : string :=
  match val with
  | Some (Some env) => env
  | _ => ProdEnvironment
  end.

(** ** The sections that are read here *)

Record ServerTimeouts := mkTimeouts { to_ReadHeader : Duration; to_Read : Duration; to_Write : Duration; to_Idle : Duration }.
Definition defaultReadHeaderTimeout : Duration := 10 * Second.
Definition defaultReadTimeout : Duration := 30 * Second.
Definition defaultWriteTimeout : Duration := 30 * Second.
Definition defaultIdleTimeout : Duration := 75 * Second.
Definition TimeoutsOrDefault (t : ServerTimeouts) : ServerTimeouts :=
  mkTimeouts (OrDefaultDuration (to_ReadHeader t) defaultReadHeaderTimeout) (OrDefaultDuration (to_Read t) defaultReadTimeout)
    (OrDefaultDuration (to_Write t) defaultWriteTimeout) (OrDefaultDuration (to_Idle t) defaultIdleTimeout).
Definition InfraServerTimeouts (t : ServerTimeouts) : ServerTimeouts :=
  mkTimeouts (OrDefaultDuration (to_ReadHeader t) defaultReadHeaderTimeout) (OrDefaultDuration (to_Read t) defaultReadTimeout)
    (OrDefaultDuration (to_Write t) 0) (OrDefaultDuration (to_Idle t) defaultIdleTimeout).
Definition defaultDrainTimeout : Duration := 6 * Second.
Definition DrainTimeoutOrDefault (drainTimeout : Duration) : Duration := if drainTimeout <=? 0 then defaultDrainTimeout else drainTimeout.
Definition DefaultDanceStateTTL : Duration := 10 * Minute.
Definition DanceStateTTL (oauthDanceStateTTL : Duration) : Duration := if oauthDanceStateTTL <=? 0 then DefaultDanceStateTTL else oauthDanceStateTTL.
Definition defaultUserEmailFetchTick : Duration := Second.
Definition UserEmailFetchTickOrDefault (fetchTick userEmailFetchTick : Duration) : Duration :=
  if 0 <? userEmailFetchTick then userEmailFetchTick
  else if (0 <? fetchTick) && (fetchTick <? defaultUserEmailFetchTick) then fetchTick
  else defaultUserEmailFetchTick.

Record S2S := mkS2S { s2_Secret : string; s2_AvailableAPI : list string }.
Record TracerConfig := mkTracer { tc_Enabled : bool; tc_CollectorHost : string; tc_CollectorPort : Z }.
Record AppConfig := mkAppConfig {
  ac_FrontendURL : string; ac_OAuthCallbackPath : string; ac_OAuthCookiePath : string;
  ac_Environment : string; ac_JWTIssuer : string; ac_Tracer : TracerConfig; ac_ValkeyAddress : string;
  ac_OauthUseStub : bool; ac_Providers : list (string * LoginProvider);
  ac_PrivateKey : string; ac_JWT : JWTConfig;
  ac_NotifyUseStub : bool; ac_Transports : list (string * ManagedEntry);
  ac_TaskProcessor : ProcessorsConfig; ac_LicenseURL : string; ac_LicenseToken : string;
  ac_BootstrapPassword : string; ac_S2S : list (string * S2S) }.
#[export] Instance eta_AppConfig : Eta AppConfig := fun c =>
  mkAppConfig (ac_FrontendURL c) (ac_OAuthCallbackPath c) (ac_OAuthCookiePath c) (ac_Environment c) (ac_JWTIssuer c) (ac_Tracer c)
    (ac_ValkeyAddress c) (ac_OauthUseStub c) (ac_Providers c) (ac_PrivateKey c) (ac_JWT c) (ac_NotifyUseStub c) (ac_Transports c)
    (ac_TaskProcessor c) (ac_LicenseURL c) (ac_LicenseToken c) (ac_BootstrapPassword c) (ac_S2S c).

Definition License_Enabled (c : AppConfig) : bool := negb (String.eqb (ac_LicenseURL c) "") && negb (String.eqb (ac_LicenseToken c) "").
Definition OAuthDanceEnabled (c : AppConfig) : bool :=
  negb (String.eqb (ac_FrontendURL c) "") && negb (String.eqb (ac_OAuthCallbackPath c) "") && negb (String.eqb (ac_OAuthCookiePath c) "").
Definition DevLoginEnabled (c : AppConfig) : bool := IsDev (ac_Environment c) && ac_OauthUseStub c.

(** ** app_secrets.go *)

(** [^<secret:(.+)>$], as what its group matches. *)
Definition secret_ref (s : string) : option string :=
  let text := bytes s in
  let inner := drop (length (bytes "<secret:")) text in
  let key := take (length inner - 1) inner in
  if has_prefix text (bytes "<secret:") && bool_decide (drop (length inner - 1) inner = bytes ">") && negb (Nat.eqb (length key) 0) &&
     forallb (fun c => negb (N.eqb (N_of_ascii c) 10)) key
  then Some (string_of_list_ascii key) else None.
Definition secretStore : Type := list (string * string).
(** What resolving a text leaves, and why it fails. *)
Definition resolveSecret (secrets : secretStore) (s : string) : string + error :=
  match secret_ref s with
  | None => inl s
  | Some key => match go_lookup secrets key with
                | Some secret => inl secret
                | None => inr (EOther ("secret not found: " +:+ key))
                end
  end.
Definition errors_Join (errs : list (option error)) : option error :=
  foldl (fun acc e => match e with
                      | None => acc
                      | Some err => Some (match acc with Some a => EJoin2 a err | None => EJoin1 err end)
                      end) None errs.

(** ** managed_entry.go *)

Definition ManagedByUI : string := "ui".
Definition checkMode (e : ManagedEntry) : option error :=
  if String.eqb (mg_ManagedBy e) ManagedByConfig
  then match mg_Enabled e with None => Some (EOther "enabled must be set when managed_by is config") | Some _ => None end
  else if String.eqb (mg_ManagedBy e) ManagedByUI then None
  else Some (EOther "managed_by must be config or ui").
Definition setting_ref (kv : string * json) : option (string * string) :=
  match kv.2 with
  | JString ref => match secret_ref ref with Some _ => Some (kv.1, ref) | None => None end
  | _ => None
  end.
Definition moveSecrets (e : ManagedEntry) : ManagedEntry :=
  mkManaged (mg_ManagedBy e) (mg_Enabled e)
    (List.filter (fun kv => match setting_ref kv with Some _ => false | None => true end) (mg_Settings e))
    (mg_Secrets e ++ omap setting_ref (mg_Settings e)).
Definition prepare (e : ManagedEntry) : ManagedEntry + error :=
  match checkMode e with
  | Some err => inr err
  | None => if negb (String.eqb (mg_ManagedBy e) ManagedByConfig) then inl (mkManaged (mg_ManagedBy e) (mg_Enabled e) [] [])
            else inl (moveSecrets e)
  end.
(** The entries of a section, and the failures joined. *)
Definition prepareEntries {E} (get : E -> ManagedEntry) (put : E -> ManagedEntry -> E) (entries : list (string * E))
    : list (string * E) * option error :=
  (((fun ne => (ne.1, match prepare (get ne.2) with inl m => put ne.2 m | inr _ => ne.2 end)) <$> entries),
   errors_Join ((fun ne => match prepare (get ne.2) with inl _ => None | inr err => Some (Errorf ne.1 err) end) <$> entries)).
Definition prepareProviders (c : AppConfig) : list (string * LoginProvider) * option error :=
  prepareEntries pv_Entry (fun p m => mkLoginProvider (pv_Facts p) m) (ac_Providers c).
Definition prepareTransports (c : AppConfig) : list (string * ManagedEntry) * option error :=
  prepareEntries (fun m => m) (fun _ m => m) (ac_Transports c).

(** ** app_config.go: the secrets *)

Fixpoint json_texts (j : json) : list string :=
  match j with
  | JString s => [s]
  | JArray l => List.flat_map json_texts l
  | JObject fields => List.flat_map (fun kv => json_texts kv.2) fields
  | _ => []
  end.
Definition facts_texts (f : LoginFacts) : list string := [lf_DisplayName f; lf_IssuerURL f; lf_AuthorizeURL f; lf_TokenURL f; lf_APIBaseURL f].
Definition entry_texts (e : ManagedEntry) : list string :=
  mg_ManagedBy e :: (mg_Settings e ≫= fun kv => json_texts kv.2) ++ (mg_Secrets e).*2.
Definition sweep_texts (c : ProcessorsConfig) : list string :=
  sc_CronSpec <$> [pc_MaintAutoCancel c; pc_AuditPrune c; pc_InvitationRotate c; pc_InvitationPrune c; pc_OTPPrune c; pc_RefreshTokenPrune c].
(** Every text the resolver comes to. *)
Definition config_texts (c : AppConfig) : list string :=
  [ac_FrontendURL c; ac_OAuthCallbackPath c; ac_OAuthCookiePath c; ac_Environment c; ac_JWTIssuer c; tc_CollectorHost (ac_Tracer c);
   ac_ValkeyAddress c; ac_PrivateKey c; Issuer (ac_JWT c); Kid (ac_JWT c); pc_LicenseCronSpec (ac_TaskProcessor c); ac_LicenseURL c;
   ac_LicenseToken c; ac_BootstrapPassword c] ++
  (ac_Providers c ≫= fun p => facts_texts (pv_Facts p.2) ++ entry_texts (pv_Entry p.2)) ++ (ac_Transports c ≫= fun t => entry_texts t.2) ++
  sweep_texts (ac_TaskProcessor c) ++ (ac_S2S c ≫= fun s => s2_Secret s.2 :: s2_AvailableAPI s.2).

(** And what it writes: it cannot reach into the values of [Settings], which are
    interfaces. *)
Section rewrite.
Context (f : string -> string).

Definition facts_map (x : LoginFacts) : LoginFacts :=
  Integrations.mkFacts (f (lf_DisplayName x)) (f (lf_IssuerURL x)) (f (lf_AuthorizeURL x)) (f (lf_TokenURL x)) (f (lf_APIBaseURL x)).
Definition entry_map (e : ManagedEntry) : ManagedEntry :=
  mkManaged (f (mg_ManagedBy e)) (mg_Enabled e) (mg_Settings e) (prod_map id f <$> mg_Secrets e).
Definition sweep_map (c : SweepConfig) : SweepConfig := mkSweepCfg (f (sc_CronSpec c)) (sc_Retention c) (sc_BatchLimit c).
Definition processors_map (c : ProcessorsConfig) : ProcessorsConfig :=
  mkProcessorsCfg (sweep_map (pc_MaintAutoCancel c)) (sweep_map (pc_AuditPrune c)) (sweep_map (pc_InvitationRotate c))
    (sweep_map (pc_InvitationPrune c)) (sweep_map (pc_OTPPrune c)) (sweep_map (pc_RefreshTokenPrune c)) (pc_LicenseEnabled c)
    (f (pc_LicenseCronSpec c)).
Definition jwt_map (c : JWTConfig) : JWTConfig :=
  mkJWTConfig (f (Issuer c)) (f (Kid c)) (AccessTokenTTL c) (SessionInactiveLifetime c) (SessionMaxLifetime c) (RefreshTokenTTL c)
    (RefreshTokenGracePeriod c) (RefreshTokenrDistributedLockTTL c).
Definition config_map (c : AppConfig) : AppConfig :=
  mkAppConfig (f (ac_FrontendURL c)) (f (ac_OAuthCallbackPath c)) (f (ac_OAuthCookiePath c)) (f (ac_Environment c)) (f (ac_JWTIssuer c))
    (mkTracer (tc_Enabled (ac_Tracer c)) (f (tc_CollectorHost (ac_Tracer c))) (tc_CollectorPort (ac_Tracer c))) (f (ac_ValkeyAddress c))
    (ac_OauthUseStub c) (prod_map id (fun p => mkLoginProvider (facts_map (pv_Facts p)) (entry_map (pv_Entry p))) <$> ac_Providers c)
    (f (ac_PrivateKey c)) (jwt_map (ac_JWT c)) (ac_NotifyUseStub c) (prod_map id entry_map <$> ac_Transports c)
    (processors_map (ac_TaskProcessor c)) (f (ac_LicenseURL c)) (f (ac_LicenseToken c)) (f (ac_BootstrapPassword c))
    (prod_map id (fun s => mkS2S (f (s2_Secret s)) (f <$> s2_AvailableAPI s)) <$> ac_S2S c).
End rewrite.

Definition applySecrets (secrets : secretStore) (c : AppConfig) : AppConfig + error :=
  let failure s := match resolveSecret secrets s with inl _ => None | inr err => Some err end in
  match errors_Join (failure <$> config_texts c) with
  | Some errs => inr errs
  | None => inl (config_map (fun s => match resolveSecret secrets s with inl v => v | inr _ => s end) c)
  end.

(** ** app_config.go and s2s.go: the checks *)

Definition refuse (cond : bool) (text : string) : option error := if cond then Some (EOther text) else None.
(** [if ...; return err }] one after another: the first that fails. *)
Fixpoint first_error (checks : list (option error)) : option error :=
  match checks with
  | [] => None
  | Some err :: _ => Some err
  | None :: rest => first_error rest
  end.

Definition validateEnvironment (c : AppConfig) : option error :=
  refuse (negb (existsb (String.eqb (ac_Environment c)) [ProdEnvironment; DevEnvironment; LocalEnvironment; PerformanceTestEnvironment]))
    "unknown environment".
Definition validateUseStubInDev (c : AppConfig) : option error :=
  if IsDev (ac_Environment c) then None
  else first_error [refuse (ac_NotifyUseStub c) "notify_transport.use_stub is only valid in a dev environment";
                    refuse (ac_OauthUseStub c) "oauth_providers.use_stub is only valid in a dev environment"].

(** [ecdsa.ParseRawPrivateKey] on P-256: 32 bytes, a scalar below the order and
    not zero; [Bytes] gives them back. *)
Definition p256_order : Z := 115792089210356248762697446949407573529996955224135760342422259061068512044369.
Definition scalar_of (raw : list ascii) : Z := foldl (fun acc c => acc * 256 + Z.of_N (N_of_ascii c)) 0 raw.
Definition ParsePrivateKey (privateKey : string) : list ascii + error :=
  match hex_decode (bytes privateKey) with
  | None => inr (Errorf "failed to decode private key" (EOther "encoding/hex"))
  | Some raw =>
      if Nat.eqb (length raw) 32 && (0 <? scalar_of raw) && (scalar_of raw <? p256_order) then inl raw
      else inr (Errorf "failed to parse private key" (EOther "ecdsa: invalid private key"))
  end.
Definition minSigningKeyBits : Z := 128.
Definition signingKeyBytes : nat := 32.
Definition BitLen (z : Z) : Z := if z =? 0 then 0 else Z.log2 z + 1.
Definition validateJWTKey (c : AppConfig) : option error :=
  match ParsePrivateKey (ac_PrivateKey c) with
  | inr err => Some (Errorf "jwt.issuer_private_key is unusable" err)
  | inl raw =>
      first_error [refuse (BitLen (scalar_of raw) <? minSigningKeyBits) "jwt.issuer_private_key is a placeholder: bits";
                   refuse (Nat.eqb (length (List.filter (fun b => bool_decide (Some b = head raw)) raw)) signingKeyBytes)
                     "jwt.issuer_private_key is a placeholder: one byte repeated"]
  end.
Definition validateIssuerConfig (c : AppConfig) : option error := refuse (String.eqb (ac_JWTIssuer c) "") "jwtverifier.jwt_issuer must be set".
Definition validateSessionLifetimes (c : AppConfig) : option error :=
  let j := ac_JWT c in
  first_error [refuse (SessionInactiveLifetime j <=? 0) "jwt.session_inactive_lifetime must be positive";
               refuse (SessionInactiveLifetime j <=? AccessTokenTTL j) "jwt.session_inactive_lifetime must be greater than access_token_ttl";
               refuse (SessionMaxLifetime j <=? 0) "jwt.session_max_lifetime must be positive";
               refuse (SessionMaxLifetime j <? SessionInactiveLifetime j) "jwt.session_max_lifetime must be at least session_inactive_lifetime";
               refuse (RefreshTokenTTL j <? SessionMaxLifetime j) "jwt.refresh_token_ttl must be at least session_max_lifetime"].
Definition validateInvitationRetention (c : AppConfig) : option error :=
  refuse (sc_Retention (pc_InvitationPrune (ac_TaskProcessor c)) <? 0) "task_processor.invitation_prune.retention must not be negative".
Definition validateOTPRetention (c : AppConfig) : option error :=
  refuse (sc_Retention (pc_OTPPrune (ac_TaskProcessor c)) <? 0) "task_processor.otp_prune.retention must not be negative".
Definition validateRefreshTokenPrune (c : AppConfig) : option error :=
  let pruneCfg := pc_RefreshTokenPrune (ac_TaskProcessor c) in
  first_error [refuse (sc_Retention pruneCfg <? 0) "task_processor.refresh_token_prune.retention must not be negative";
               refuse (sc_BatchLimit pruneCfg <? 0) "task_processor.refresh_token_prune.batch_limit must not be negative"].
Definition validateSweeps (c : AppConfig) : option error :=
  errors_Join [validateInvitationRetention c; validateOTPRetention c; validateRefreshTokenPrune c].
Definition validateValkeyConfig (c : AppConfig) : option error := refuse (String.eqb (ac_ValkeyAddress c) "") "valkey.addr must not be empty".
Definition validateTracerConfig (c : AppConfig) : option error :=
  let t := ac_Tracer c in
  if negb (tc_Enabled t) then None
  else first_error [refuse (String.eqb (tc_CollectorHost t) "") "tracer.collector_host must not be empty";
                    refuse ((tc_CollectorPort t <=? 0) || (65535 <? tc_CollectorPort t)) "tracer.collector_port must be in 1..65535"].

(** [strings.Contains] *)
Fixpoint contains (s part : list ascii) : bool :=
  has_prefix s part || match s with [] => false | _ :: s' => contains s' part end.
Definition secretPlaceholderMarker : string := "replace-me".
Definition placeholder (s : string) : bool := contains (bytes s) (bytes secretPlaceholderMarker).
Definition minBootstrapPasswordLen : nat := 20.
Definition validateBootstrapConfig (c : AppConfig) : option error :=
  let password := ac_BootstrapPassword c in
  if String.eqb password "" then None
  else first_error [refuse (Nat.ltb (length (bytes password)) minBootstrapPasswordLen) "bootstrap.password is too short";
                    refuse (placeholder password) "bootstrap.password is a placeholder"].

Definition minS2SSecretLen : nat := 32.
Definition publishedS2SSecret : string := "local-bff-s2s-token-not-a-secret-0123456789".
Definition s2s_errors (c : AppConfig) (client : S2S) : list (option error) :=
  [first_error [refuse (Nat.ltb (length (bytes (s2_Secret client))) minS2SSecretLen) "secret is too short";
                refuse (placeholder (s2_Secret client)) "secret is a placeholder";
                refuse (IsProd (ac_Environment c) && String.eqb (s2_Secret client) publishedS2SSecret) "secret is the value published in this repository";
                refuse (negb (String.eqb (strings_TrimSpace (s2_Secret client)) (s2_Secret client))) "secret has leading or trailing whitespace"];
   refuse (match s2_AvailableAPI client with [] => true | _ => false end) "available_api is empty"].
(** The clients in the order of their names. *)
Definition by_name (a b : string * S2S) : comparison := strings_Compare a.1 b.1.
Definition validateS2SConfig (c : AppConfig) : option error :=
  match ac_S2S c with
  | [] => Some (EOther "s2s: no client configured")
  | _ => errors_Join (sort_by by_name (ac_S2S c) ≫= fun s => s2s_errors c s.2)
  end.

(** What starts, of what the files hold: every failure is a panic. *)
Definition initConfig (raw : AppConfig) (secrets : secretStore) : AppConfig + error :=
  let providers := prepareProviders raw in
  let transports := prepareTransports raw in
  match errors_Join [providers.2; transports.2] with
  | Some err => inr err
  | None =>
      and_then (applySecrets secrets (raw <| ac_Providers := providers.1 |> <| ac_Transports := transports.1 |>)) (fun cfg =>
      match first_error [validateEnvironment cfg; validateUseStubInDev cfg; validateJWTKey cfg; validateIssuerConfig cfg;
                         validateSessionLifetimes cfg; validateSweeps cfg; validateValkeyConfig cfg; validateTracerConfig cfg;
                         validateBootstrapConfig cfg; validateS2SConfig cfg] with
      | Some err => inr err
      | None => inl cfg
      end)
  end.

(** ** What starts *)

Lemma refuse_None cond text : refuse cond text = None ↔ cond = false.
Proof. unfold refuse. by destruct cond. Qed.
Lemma first_error_None checks : first_error checks = None ↔ Forall (.= None) checks.
Proof. induction checks as [|[e|] l IH]; simpl; rewrite ?Forall_nil, ?Forall_cons; naive_solver. Qed.
Lemma errors_Join_None errs : errors_Join errs = None ↔ Forall (.= None) errs.
Proof.
  unfold errors_Join. assert (∀ acc, foldl (fun acc e => match e with None => acc | Some err => Some (match acc with Some a => EJoin2 a err | None => EJoin1 err end) end) acc errs
    = None ↔ acc = None ∧ Forall (.= None) errs) as Hacc; [|rewrite Hacc; naive_solver].
  induction errs as [|[e|] l IH]; intros acc; simpl; rewrite ?IH, ?Forall_cons, ?Forall_nil; naive_solver.
Qed.

Definition checks (c : AppConfig) : list (option error) :=
  [validateEnvironment c; validateUseStubInDev c; validateJWTKey c; validateIssuerConfig c; validateSessionLifetimes c; validateSweeps c;
   validateValkeyConfig c; validateTracerConfig c; validateBootstrapConfig c; validateS2SConfig c].
Lemma initConfig_inv raw secrets cfg :
  initConfig raw secrets = inl cfg ->
  (prepareProviders raw).2 = None ∧ (prepareTransports raw).2 = None ∧
  applySecrets secrets (raw <| ac_Providers := (prepareProviders raw).1 |> <| ac_Transports := (prepareTransports raw).1 |>) = inl cfg ∧
  Forall (.= None) (checks cfg).
Proof.
  unfold initConfig. destruct (errors_Join _) eqn:Ej; [done|]. apply errors_Join_None in Ej. apply Forall_cons in Ej as [Hp [Ht _]%Forall_cons].
  destruct (applySecrets _ _) as [c|e]; [|done]. cbn [and_then]. fold (checks c). destruct (first_error (checks c)) eqn:Ef; [done|]. intros [= ->]. by apply first_error_None in Ef.
Qed.
Ltac the_check H := unfold checks in H; rewrite !Forall_cons in H.

(** The limits of a session. *)
Lemma booted_lifetimes raw secrets cfg :
  initConfig raw secrets = inl cfg ->
  let j := ac_JWT cfg in
  0 < SessionInactiveLifetime j ∧ AccessTokenTTL j < SessionInactiveLifetime j <= SessionMaxLifetime j ∧ SessionMaxLifetime j <= RefreshTokenTTL j.
Proof.
  intros (_ & _ & _ & Hc)%initConfig_inv. the_check Hc. destruct Hc as (_ & _ & _ & _ & Hc & _). unfold validateSessionLifetimes in Hc.
  rewrite first_error_None, !Forall_cons, !refuse_None in Hc. cbv zeta. lia.
Qed.
(** The retention of refresh tokens. *)
Lemma booted_retentions raw secrets cfg :
  initConfig raw secrets = inl cfg ->
  let t := ac_TaskProcessor cfg in
  0 <= sc_Retention (pc_InvitationPrune t) ∧ 0 <= sc_Retention (pc_OTPPrune t) ∧ 0 <= sc_Retention (pc_RefreshTokenPrune t) ∧
  0 <= sc_BatchLimit (pc_RefreshTokenPrune t).
Proof.
  intros (_ & _ & _ & Hc)%initConfig_inv. the_check Hc. destruct Hc as (_ & _ & _ & _ & _ & Hc & _). unfold validateSweeps in Hc.
  rewrite errors_Join_None, !Forall_cons in Hc. unfold validateInvitationRetention, validateOTPRetention, validateRefreshTokenPrune in Hc.
  rewrite first_error_None, !Forall_cons, !refuse_None in Hc. cbv zeta. lia.
Qed.

Section sessions.
Context `{Env} `{Collation} `{Goque} `{!GoqueSpec} `{Sealer} `{Entropy} `{Jwt} `{Argon2} `{AuthMethodFlags} `{Ozzo}.

(** The gap between the end of a token and the end of the longest session. *)
Lemma swept_too_late cfg raw secrets row issued now ret user later :
  initConfig raw secrets = inl cfg -> issued_at (ac_JWT cfg) row issued -> 2 * Microsecond <= ret ->
  rt_ExpiresAt row < pg_ts (now + - ret) -> now <= later ->
  maxLifetime (sessionTTLs (ac_JWT cfg) user) < later - rt_SessionStartedAt row.
Proof.
  intros Hboot [He Hs] Hret Hgone Hl. pose proof (booted_lifetimes _ _ _ Hboot) as Hlife. cbv zeta in Hlife. rewrite He in Hgone.
  pose proof (pg_ts_bounds (issued + RefreshTokenTTL (ac_JWT cfg))). pose proof (pg_ts_bounds (now + - ret)).
  assert (maxLifetime (sessionTTLs (ac_JWT cfg) user) <= SessionMaxLifetime (ac_JWT cfg)) by (unfold sessionTTLs; destruct (negb _); simpl; lia).
  lia.
Qed.

(** C27. The sweep spares the sessions.  Take a configuration that starts, whose
    retention of refresh tokens is left at its default or is two microseconds or
    more, and let the service run with it from an empty table of tokens, whatever
    refreshes, sign-ins, sign-outs, password changes and prunings interleave: the
    limits are those of this configuration all the time, and a client shows a
    token only after the session it is of has begun.  Then a refresh token that
    the sweep of expired tokens removes - with the task its periodic job makes of
    the configuration - belongs to a session that is over by the policy: whoever
    its user is, and whenever one tries from then on, it is past the maximum
    lifetime for which a refresh is refused, so that no token a session needs, and
    none by which a reuse would be detected while the session lives, is lost. *)
Theorem booted_sweep_spares_sessions raw secrets cfg codes decoy w0 c ctx1 w1 task w2 ctx r w' run row :
  initConfig raw secrets = inl cfg ->
  let pruneCfg := pc_RefreshTokenPrune (ac_TaskProcessor cfg) in
  sc_Retention pruneCfg = 0 ∨ 2 * Microsecond <= sc_Retention pruneCfg ->
  refresh_tokens (w_db w0) = [] ->
  reachable (auth_handle (ac_JWT cfg) codes) (auth_arrives (ac_JWT cfg) codes decoy) w0 c -> causal (cf_trace c) ->
  refreshtokenprune_NewTaskFactory (sc_Retention pruneCfg) (sc_BatchLimit pruneCfg) ctx1 w1 = (Ok task, w2) ->
  refreshtokenprune_processor (ac_JWT cfg) (tk_Payload task) = Some run -> run ctx (cf_world c) = (r, w') ->
  row ∈ refresh_tokens (w_db (cf_world c)) -> row ∉ refresh_tokens (w_db w') ->
  ∀ user later, env_now (w_step (cf_world c)) <= later -> maxLifetime (sessionTTLs (ac_JWT cfg) user) < later - rt_SessionStartedAt row.
Proof.
  intros Hboot pruneCfg Hret Hempty Hreach Hca Hfac Hrun E Hin Hout user later Hl.
  destruct (tokens_issued _ _ _ _ _ Hempty Hreach Hca) as [Hnd Hissued _]. destruct (Hissued row Hin) as [_ [issued Hi]].
  unfold refreshtokenprune_NewTaskFactory in Hfac. apply factory_Ok in Hfac as (_ & Hp & _). rewrite Hp in Hrun.
  pose proof (booted_retentions _ _ _ Hboot) as Hr. cbv zeta in Hr. fold pruneCfg in Hr.
  destruct (refreshtokenprune_sweeps (ac_JWT cfg) (cmp_Or (sc_Retention pruneCfg) refreshtokenprune_defaultRetention)
    (cmp_Or (sc_BatchLimit pruneCfg) prune_defaultBatchLimit)) as (run' & Hrun' & Hsweep). rewrite Hrun in Hrun'. injection Hrun' as <-.
  destruct (Hsweep _ _ _ _ E Hnd) as (_ & [_ Hgone _] & _). apply Hgone in Hin; [|done]. apply Z.ltb_lt in Hin.
  eapply swept_too_late; [exact Hboot|exact Hi| |exact Hin|exact Hl].
  unfold or_default, cmp_Or. destruct (Z.eqb_spec (sc_Retention pruneCfg) 0) as [E0|E0]; [vm_compute; congruence|].
  destruct (Z.leb_spec (sc_Retention pruneCfg) 0); [lia|]. destruct Hret; [done|lia].
Qed.
End sessions.

(** *** The sections of the integrations *)

(** What becomes of an entry of the file: one the UI runs is emptied; one the file
    runs says whether it is on, keeps its settings but the references, and its
    secrets are what the secrets file holds under these. *)
Definition entry_from (secrets : secretStore) (e0 e : ManagedEntry) : Prop :=
  mg_ManagedBy e = mg_ManagedBy e0 ∧ mg_Enabled e = mg_Enabled e0 ∧
  ((mg_ManagedBy e0 = ManagedByUI ∧ mg_Settings e = [] ∧ mg_Secrets e = []) ∨
   (mg_ManagedBy e0 = ManagedByConfig ∧ is_Some (mg_Enabled e0) ∧
    (∀ kv, kv ∈ mg_Settings e ↔ kv ∈ mg_Settings e0 ∧ setting_ref kv = None) ∧
    ∀ k v, (k, v) ∈ mg_Secrets e ↔
      ∃ ref key, (k, JString ref) ∈ mg_Settings e0 ∧ secret_ref ref = Some key ∧ go_lookup secrets key = Some v)).

Lemma setting_ref_Some kv k ref : setting_ref kv = Some (k, ref) ↔ kv = (k, JString ref) ∧ is_Some (secret_ref ref).
Proof.
  destruct kv as [k' j]. unfold setting_ref. destruct j as [| | |s| |]; simpl; try (split; [done|by intros [[=] _]]).
  destruct (secret_ref s) eqn:E; split; try done.
  - intros [= -> ->]. rewrite E. split; [done|by eexists].
  - by intros [[= -> ->] _].
  - intros [[= -> ->] [x Hx]]. congruence.
Qed.
Lemma moved_refs e k ref : mg_Secrets e = [] -> (k, ref) ∈ mg_Secrets (moveSecrets e) ↔ (k, JString ref) ∈ mg_Settings e ∧ is_Some (secret_ref ref).
Proof.
  intros E. unfold moveSecrets. simpl. rewrite E, app_nil_l, list_elem_of_omap. split.
  - by intros (kv & Hkv & [-> Hs]%setting_ref_Some).
  - intros [Hkv Hs]. exists (k, JString ref). split; [done|]. by apply setting_ref_Some.
Qed.
Lemma mode_kept secrets f e mode :
  (∀ s, s ∈ entry_texts e -> resolveSecret secrets s = inl (f s)) -> mg_ManagedBy e = mode -> secret_ref mode = None -> f mode = mode.
Proof. intros Hf <- Hn. pose proof (Hf (mg_ManagedBy e) ltac:(by left)) as Hb. unfold resolveSecret in Hb. rewrite Hn in Hb. by injection Hb. Qed.

Lemma prepare_entry secrets f e0 e :
  prepare e0 = inl e -> mg_Secrets e0 = [] -> (∀ s, s ∈ entry_texts e -> resolveSecret secrets s = inl (f s)) ->
  entry_from secrets e0 (entry_map f e).
Proof.
  unfold prepare, checkMode, entry_from, entry_map. intros Hp H0 Hf. cbn [mg_ManagedBy mg_Enabled mg_Settings mg_Secrets].
  destruct (String.eqb_spec (mg_ManagedBy e0) ManagedByConfig) as [Ec|Ec]; simpl in Hp.
  - destruct (mg_Enabled e0) as [on|] eqn:Eon; [|done]. injection Hp as <-.
    assert (∀ k ref, (k, ref) ∈ mg_Secrets (moveSecrets e0) -> resolveSecret secrets ref = inl (f ref)) as Hs.
    { intros k ref Hk. apply Hf. unfold entry_texts. right. apply elem_of_app. right. apply list_elem_of_fmap. by exists (k, ref). }
    change (mg_ManagedBy (moveSecrets e0)) with (mg_ManagedBy e0). change (mg_Enabled (moveSecrets e0)) with (mg_Enabled e0).
    rewrite (mode_kept _ _ _ (mg_ManagedBy e0) Hf eq_refl) by by rewrite Ec. split_and!; [done..|]. right. split_and!; [done|by eexists| |].
    + intros kv. unfold moveSecrets. simpl. rewrite elem_of_List_filter. destruct (setting_ref kv); naive_solver.
    + intros k v. rewrite list_elem_of_fmap. split.
      * intros ([k' ref] & [= -> ->] & Hk). pose proof (Hs _ _ Hk) as Hv. apply moved_refs in Hk as [Hk [key Hkey]]; [|done].
        exists ref, key. split_and!; [done..|]. unfold resolveSecret in Hv. rewrite Hkey in Hv. by destruct (go_lookup secrets key); [injection Hv as ->|].
      * intros (ref & key & Hk & Hkey & Hv). assert ((k, ref) ∈ mg_Secrets (moveSecrets e0)) as Hm by (apply moved_refs; [done|split; [done|by eexists]]).
        exists (k, ref). split; [|done]. pose proof (Hs _ _ Hm) as Hr. unfold resolveSecret in Hr. rewrite Hkey, Hv in Hr. injection Hr as ->. done.
  - destruct (String.eqb_spec (mg_ManagedBy e0) ManagedByUI) as [Eu|]; [|done]. injection Hp as <-. simpl.
    rewrite (mode_kept _ _ _ (mg_ManagedBy e0) Hf eq_refl) by by rewrite Eu. split_and!; [done..|]. by left.
Qed.

Lemma prepareEntries_elem {E} (get : E -> ManagedEntry) put (entries : list (string * E)) :
  (prepareEntries get put entries).2 = None -> ∀ name e, (name, e) ∈ (prepareEntries get put entries).1 ->
  ∃ e0 m, (name, e0) ∈ entries ∧ prepare (get e0) = inl m ∧ e = put e0 m.
Proof.
  unfold prepareEntries. simpl. intros Hall%errors_Join_None name e ([n e0] & [= -> ->] & Hin)%list_elem_of_fmap.
  rewrite Forall_fmap, Forall_forall in Hall. specialize (Hall _ Hin). simpl in Hall. destruct (prepare (get e0)) as [m|] eqn:Em; [|done]. by exists e0, m.
Qed.
Lemma applySecrets_inv secrets c c' :
  applySecrets secrets c = inl c' -> ∃ f, c' = config_map f c ∧ ∀ s, s ∈ config_texts c -> resolveSecret secrets s = inl (f s).
Proof.
  unfold applySecrets. destruct (errors_Join _) eqn:Ej; [done|]. intros [= <-]. apply errors_Join_None in Ej. rewrite Forall_fmap, Forall_forall in Ej.
  eexists. split; [reflexivity|]. intros s Hs. specialize (Ej s Hs). simpl in *. by destruct (resolveSecret secrets s).
Qed.

(** The secrets an integration of the file starts with are those of the secrets
    file, and of no other key; what the UI runs takes nothing from the files; and
    nothing of a section is left that would name a secret. *)
Theorem secrets_from_file raw secrets cfg :
  (∀ name p, (name, p) ∈ ac_Providers raw -> mg_Secrets (pv_Entry p) = []) -> (∀ name e, (name, e) ∈ ac_Transports raw -> mg_Secrets e = []) ->
  initConfig raw secrets = inl cfg ->
  (∀ name p, (name, p) ∈ ac_Providers cfg -> ∃ p0, (name, p0) ∈ ac_Providers raw ∧ entry_from secrets (pv_Entry p0) (pv_Entry p)) ∧
  (∀ name e, (name, e) ∈ ac_Transports cfg -> ∃ e0, (name, e0) ∈ ac_Transports raw ∧ entry_from secrets e0 e).
Proof.
  intros Hp0 Ht0 (Hp & Ht & (f & -> & Hf)%applySecrets_inv & _)%initConfig_inv. split; intros name x.
  - simpl. intros ([n p] & [= -> ->] & Hin)%list_elem_of_fmap. destruct (prepareEntries_elem _ _ _ Hp _ _ Hin) as (p0 & m & Hin0 & Hm & ->).
    exists p0. split; [done|]. simpl. apply prepare_entry; [done|by eapply Hp0|]. intros s Hs. apply Hf. unfold config_texts. simpl. rewrite !elem_of_cons, !elem_of_app.
    do 14 right. left. apply list_elem_of_bind. eexists. split; [|exact Hin]. simpl. by do 5 right.
  - simpl. intros ([n e] & [= -> ->] & Hin)%list_elem_of_fmap. destruct (prepareEntries_elem _ _ _ Ht _ _ Hin) as (e0 & m & Hin0 & Hm & ->).
    exists e0. split; [done|]. apply prepare_entry; [done|by eapply Ht0|]. intros s Hs. apply Hf. unfold config_texts. simpl. rewrite !elem_of_cons, !elem_of_app.
    do 15 right. left. apply list_elem_of_bind. eexists. by split; [|exact Hin].
Qed.

(** *** The rest of what is checked *)

Lemma contains_app s part : contains s part = true ↔ ∃ a b, s = a ++ part ++ b.
Proof.
  induction s as [|c s IH]; simpl.
  - rewrite orb_false_r. unfold has_prefix. rewrite bool_decide_eq_true, take_nil. split.
    + intros <-. by exists [], [].
    + intros (a & b & E). symmetry in E. apply app_nil in E as [_ [-> _]%app_nil]. done.
  - rewrite orb_true_iff, IH. unfold has_prefix. rewrite bool_decide_eq_true. split.
    + intros [Ht|(a & b & ->)]; [|by exists (c :: a), b]. exists [], (drop (length part) (c :: s)). simpl. rewrite <- Ht at 1. by rewrite take_drop.
    + intros ([|x a] & b & E); simpl in E; [left|right; injection E as _ ->; by exists a, b]. rewrite E. by rewrite take_app_length.
Qed.

(** A client that may ask for tokens. *)
Definition sound_client (c : AppConfig) (s : S2S) : Prop :=
  (32 <= length (bytes (s2_Secret s)))%nat ∧ (~ ∃ a b, bytes (s2_Secret s) = a ++ bytes "replace-me" ++ b) ∧
  (ac_Environment c = ProdEnvironment -> s2_Secret s ≠ publishedS2SSecret) ∧ strings_TrimSpace (s2_Secret s) = s2_Secret s ∧ s2_AvailableAPI s ≠ [].
Lemma booted_clients raw secrets cfg :
  initConfig raw secrets = inl cfg -> ac_S2S cfg ≠ [] ∧ ∀ name s, (name, s) ∈ ac_S2S cfg -> sound_client cfg s.
Proof.
  intros (_ & _ & _ & Hc)%initConfig_inv. the_check Hc. destruct Hc as (_ & _ & _ & _ & _ & _ & _ & _ & _ & Hc & _). unfold validateS2SConfig in Hc.
  destruct (ac_S2S cfg) as [|x l]; [done|]. split; [done|]. intros name s Hin. rewrite errors_Join_None, Forall_forall in Hc.
  assert (∀ e, e ∈ s2s_errors cfg s -> e = None) as Hs.
  { intros e He. apply Hc. apply list_elem_of_bind. exists (name, s). split; [done|]. by rewrite elem_of_sort_by. }
  pose proof (Hs _ ltac:(by left)) as Hf. pose proof (Hs _ ltac:(by right; left)) as Ha. rewrite first_error_None, !Forall_cons, !refuse_None in Hf.
  destruct Hf as (Hlen%Nat.ltb_ge & Hph & Hpub & Htrim & _). apply negb_false_iff, String.eqb_eq in Htrim. apply refuse_None in Ha. split_and!; [done| | |done|by intros Hx; rewrite Hx in Ha].
  - intros Hx. apply contains_app in Hx. unfold placeholder, secretPlaceholderMarker in Hph. by rewrite Hx in Hph.
  - intros He Heq. unfold IsProd in Hpub. by rewrite He, Heq in Hpub.
Qed.
(** The key tokens are signed with. *)
Lemma booted_key raw secrets cfg :
  initConfig raw secrets = inl cfg ->
  ∃ key, ParsePrivateKey (ac_PrivateKey cfg) = inl key ∧ length key = 32%nat ∧ 2 ^ 127 <= scalar_of key < p256_order ∧ ∃ a b, a ∈ key ∧ b ∈ key ∧ a ≠ b.
Proof.
  intros (_ & _ & _ & Hc)%initConfig_inv. the_check Hc. destruct Hc as (_ & _ & Hc & _). unfold validateJWTKey in Hc.
  destruct (ParsePrivateKey _) as [key|] eqn:Ep; [|done]. exists key. split; [done|]. unfold ParsePrivateKey in Ep. destruct (hex_decode _) as [raw'|]; [|done].
  destruct (Nat.eqb_spec (length raw') 32) as [Hlen|]; [|done]. destruct (Z.ltb_spec 0 (scalar_of raw')) as [Hpos|]; [|done].
  destruct (Z.ltb_spec (scalar_of raw') p256_order) as [Hord|]; [|done]. injection Ep as <-. rewrite first_error_None, !Forall_cons, !refuse_None in Hc.
  destruct Hc as (Hbits & Hrep & _). split; [done|]. split.
  - unfold BitLen, minSigningKeyBits in Hbits. destruct (Z.eqb_spec (scalar_of raw') 0); [lia|]. apply Z.ltb_ge in Hbits. split; [|done].
    apply Z.log2_le_pow2; lia.
  - destruct raw' as [|a rest]; [done|]. assert (∃ b, b ∈ rest ∧ a ≠ b) as (b & Hb & Hne); [|exists a, b; split_and!; [by left|by right|done]].
    destruct (decide (Exists (fun b => a ≠ b) rest)) as [He|Hno]; [by apply Exists_exists in He|].
    apply Nat.eqb_neq in Hrep. destruct Hrep. unfold signingKeyBytes. rewrite <- Hlen. f_equal. rewrite <- (filter_all (a :: rest)) at 2.
    apply filter_ext_in. intros b Hb%list_elem_of_In. apply bool_decide_eq_true. simpl. f_equal. apply elem_of_cons in Hb as [->|Hb]; [done|].
    destruct (decide (b = a)) as [->|Hba]; [done|]. destruct Hno. apply Exists_exists. by exists b.
Qed.
(** The stubs, and the sign-in without credentials, are for development. *)
Lemma booted_stubs raw secrets cfg :
  initConfig raw secrets = inl cfg ->
  ac_Environment cfg ∈ [ProdEnvironment; DevEnvironment; LocalEnvironment; PerformanceTestEnvironment] ∧
  (ac_Environment cfg = ProdEnvironment -> ac_NotifyUseStub cfg = false ∧ ac_OauthUseStub cfg = false ∧ DevLoginEnabled cfg = false).
Proof.
  intros (_ & _ & _ & Hc)%initConfig_inv. the_check Hc. destruct Hc as (He & Hs & _). unfold validateEnvironment in He. apply refuse_None, negb_false_iff in He.
  apply existsb_exists in He as (e & Hin%list_elem_of_In & Heq%String.eqb_eq). split; [by rewrite Heq|]. intros Hprod. unfold validateUseStubInDev, DevLoginEnabled in *.
  rewrite Hprod in *. simpl in *. destruct (ac_NotifyUseStub cfg); [done|]. by destruct (ac_OauthUseStub cfg).
Qed.

(** ** A run *)

Definition ex_jwt_policy : JWTConfig := mkJWTConfig "maintmode" "k1" (15 * Minute) (24 * Hour) (30 * 24 * Hour) (30 * 24 * Hour) (10 * Second) (5 * Second).
Definition ex_secrets : secretStore :=
  [("jwt/key", "0102030405060708090a0b0c0d0e0f101112131415161718191a1b1c1d1e1f20"); ("bff", "5f2d0c9a7be14c36a8d1f0e3b7c65d42"); ("slack", "xoxb-1")]%string.
Definition ex_raw : AppConfig :=
  mkAppConfig "https://maint.example.org" "/oauth/callback" "/auth" ProdEnvironment "maintmode" (mkTracer false "" 0) "valkey:6379" false []
    "<secret:jwt/key>" ex_jwt_policy false
    [("slack"%string, mkManaged ManagedByConfig (Some true) [("bot_token"%string, JString "<secret:slack>"); ("timeout"%string, JString "5s")] []);
     ("telegram"%string, mkManaged ManagedByUI None [("bot_token"%string, JString "<secret:gone>")] [])]
    ex_processors_cfg "" "" "" [("bff"%string, mkS2S "<secret:bff>" ["/api/v1/refresh"%string])].
Definition ex_cfg : AppConfig := match initConfig ex_raw ex_secrets with inl c => c | inr _ => ex_raw end.
Example boots :
  initConfig ex_raw ex_secrets = inl ex_cfg ∧
  (fun t => (mg_Settings t.2, mg_Secrets t.2)) <$> ac_Transports ex_cfg = [([("timeout"%string, JString "5s")], [("bot_token"%string, "xoxb-1"%string)]); ([], [])].
Proof. vm_compute. done. Qed.

(** A sign-in, and the sweep of sixty-one days later. *)
Definition later_env : Env := {|
  env_now := fun k => if Nat.leb 14 k then T0 + 61 * Day else T0; env_fault := @env_fault calm_env;
  env_rand := @env_rand calm_env; env_uuid := @env_uuid calm_env; env_ctx_err := @env_ctx_err calm_env |}.
Definition ex_sign_in_world : World := ex_password_world <| w_db := (w_db ex_password_world) <| refresh_tokens := [] |> |>.
Definition ex_signed_in : Conf :=
  run_schedule (@auth_handle later_env c_collation list_goque ex_sealer ex_draws ex_jwt ex_argon2 ex_flags (ac_JWT ex_cfg) (NewService ex_otp_cfg))
    [@auth_program ex_jwt ex_ozzo (ac_JWT ex_cfg) (NewService ex_otp_cfg) "" (LoginPasswordReq (mkLoginWithPassword "ann@example.com" "correct horse" "" ""))]
    ex_sign_in_world (repeat 0 30)%nat.
Definition ex_prune_task : outcome Task * World := @refreshtokenprune_NewTaskFactory later_env list_goque 0 0 background ex_world.
Definition ex_prune : M unit :=
  match fst ex_prune_task with
  | Ok t => default (mret tt) (@refreshtokenprune_processor later_env ex_draws ex_jwt (ac_JWT ex_cfg) (tk_Payload t))
  | _ => mret tt
  end.

Lemma ex_signed_in_reachable :
  reachable (@auth_handle later_env c_collation list_goque ex_sealer ex_draws ex_jwt ex_argon2 ex_flags (ac_JWT ex_cfg) (NewService ex_otp_cfg))
    (@auth_arrives ex_jwt ex_ozzo (ac_JWT ex_cfg) (NewService ex_otp_cfg) "") ex_sign_in_world ex_signed_in.
Proof. apply run_schedule_reachable. repeat constructor. by eexists. Qed.

Lemma booted_sweep_spares_sessions_witness : ∃ row,
  refresh_tokens (w_db (cf_world ex_signed_in)) = [row] ∧ fst (ex_prune background (cf_world ex_signed_in)) = Ok tt ∧
  refresh_tokens (w_db (snd (ex_prune background (cf_world ex_signed_in)))) = [] ∧
  ∀ user, maxLifetime (sessionTTLs (ac_JWT ex_cfg) user) < @env_now later_env 14 - rt_SessionStartedAt row.
Proof.
  assert (∃ row, refresh_tokens (w_db (cf_world ex_signed_in)) = [row]) as [row Hrow] by (eexists; vm_compute; reflexivity).
  assert (refresh_tokens (w_db (snd (ex_prune background (cf_world ex_signed_in)))) = []) as Hgone by (vm_compute; reflexivity).
  exists row. split; [exact Hrow|]. split; [vm_compute; reflexivity|]. split; [exact Hgone|]. intros user.
  apply (@booted_sweep_spares_sessions later_env c_collation list_goque list_goque_spec ex_sealer ex_draws ex_jwt ex_argon2 ex_flags ex_ozzo
    ex_raw ex_secrets ex_cfg (NewService ex_otp_cfg) "" ex_sign_in_world ex_signed_in background ex_world
    (match fst ex_prune_task with Ok t => t | _ => mkTask 0 "" PayloadLicenseHeartbeat "" 0 end) (snd ex_prune_task) background
    (fst (ex_prune background (cf_world ex_signed_in))) (snd (ex_prune background (cf_world ex_signed_in))) ex_prune row).
  - apply boots.
  - left. reflexivity.
  - reflexivity.
  - exact ex_signed_in_reachable.
  - assert (reads (cf_trace ex_signed_in) = []) as Hreads by (vm_compute; reflexivity).
    intros i now h t _ Hin. rewrite Hreads in Hin. destruct (not_elem_of_nil _ Hin).
  - vm_compute. reflexivity.
  - reflexivity.
  - apply surjective_pairing.
  - rewrite Hrow. apply list_elem_of_singleton. reflexivity.
  - rewrite Hgone. apply not_elem_of_nil.
  - vm_compute. congruence.
Defined.

(** The retention of the audit log is not among what is checked. *)
Example negative_audit_retention_starts :
  let audit := mkSweepCfg "0 3 * * *" (- Hour) 0 in
  let raw := ex_raw <| ac_TaskProcessor := mkProcessorsCfg ex_sweep_cfg audit ex_sweep_cfg ex_sweep_cfg ex_sweep_cfg ex_sweep_cfg false "" |> in
  match initConfig raw ex_secrets with inl c => sc_Retention (pc_AuditPrune (ac_TaskProcessor c)) = - Hour | inr _ => False end.
Proof. vm_compute. reflexivity. Qed.
