(* ===== verification/Middlewares.v ===== *)
(** * The middlewares of the API server (internal/server/middlewares,
      internal/server/ratelimiter.go, internal/utils/xecho)

    What stands between a request and its handler: the token is verified and
    checked against the server's own state, the roles are held against the
    policy, a suspended organization changes nothing, the frontend's server proves
    who it is, and the limiters count.  A middleware takes the handler it guards. *)
From Stdlib Require Import ZArith Lia Ascii String.
From stdpp Require Import base sets strings numbers list.
From S2P Require Import Prelude Go Entity Conflict AuditTrail Schema Json Logic Dbtx Interleave Validation MaintStore UserStore TokenStore License Crypto Queue Password Otp Sessions Auth.
From S2P Require Import Invitations AuthSettings HttpErrors Processors Config.
Open Scope Z_scope.

(** ** A request *)

(** What the code reads of it.  The body is the bytes that arrive and how the
    connection ends them. *)
Record Request := mkRequest {
  rq_Method : string; rq_Header : string -> string; rq_Param : string -> string; rq_RealIP : string; rq_Body : list ascii * option error }.
#[export] Instance eta_Request : Eta Request := fun r =>
  mkRequest (rq_Method r) (rq_Header r) (rq_Param r) (rq_RealIP r) (rq_Body r).
(** [echo.Context]: the request, the route it was sent to, and the user
    [UserToEchoCtx] left there. *)
Record Context_ := mkContext { cx_Request : Request; cx_Path : string; cx_User : option User }.
#[export] Instance eta_Context : Eta Context_ := fun c => mkContext (cx_Request c) (cx_Path c) (cx_User c).

(** [c.JSON(status, errResp)], or whatever else was answered. *)
Inductive Response (A : Type) := JSON (status : Z) (resp : ErrorResponse) | Answered (a : A).
Arguments JSON {A}. Arguments Answered {A}.
Definition HandlerFunc (A : Type) := Context_ -> M (Response A).
Definition MiddlewareFunc (A : Type) := HandlerFunc A -> HandlerFunc A.

Definition MethodGet : string := "GET".
Definition MethodHead : string := "HEAD".
Definition MethodOptions : string := "OPTIONS".
Definition MethodPost : string := "POST".
Definition MethodPatch : string := "PATCH".
Definition MethodDelete : string := "DELETE".

(** ** utils/xecho *)

Definition bearerHeader : string := "Bearer ".
Definition ExtractBearerToken (req : Request) : string :=
  let authHeader := rq_Header req "Authorization" in
  if has_prefix (bytes authHeader) (bytes bearerHeader) then strings_TrimPrefix authHeader bearerHeader else "".
Definition UserToEchoCtx (c : Context_) (user : User) : Context_ := c <| cx_User := Some user |>.
Definition UserFromEchoCtx (c : Context_) : option User := cx_User c.

(** ** What the server is given (api_server.go, [APIServerSecurity]) *)

Record APIServerSecurity := mkSecurity {
  TokenVerifier : string -> M AccessClaims;
  (** the two methods of the active-token checker *)
  TokenChecker_EnsureActiveToken : string -> M (list Role);
  TokenChecker_EnsureNotRevoked : string -> M unit;
  Authorizer_Allow : list Role -> string -> M bool;
  LicenseProvider : M (option License.License);
  sec_S2S : list (string * S2S);
  sec_DevLoginEnabled : bool }.

Section middlewares.
Context {A : Type} `{Ozzo} `{Jwt}.
Implicit Types next : HandlerFunc A.

Definition ToAPIError_ (op : string) (err : error) : M (Response A) :=
  let '(status, resp) := ToAPIError op (Some err) in mret (JSON status resp).

(** auth.go *)
Definition userFromAccessClaims (claims : AccessClaims) : User + error :=
  if negb (Required_string (cl_Subject claims) && negb (String.eqb (cl_Subject claims) (uuid_String uuid_Nil)) &&
           Required_string (cl_UserName claims) && Required_string (cl_UserEmail claims) &&
           Required_slice (length (cl_UserRoles claims)) && forallb Required_string (cl_UserRoles claims))
  then inr (EOther "validation")
  else
    match uuid_Parse (cl_Subject claims) with
    | inr err => inr err
    | inl userID =>
        inl (mkUser userID (cl_UserEmail claims) (cl_UserName claims) (cl_UserRoles claims) zeroTime None None None None)
    end.
Definition RequireAccessToken (sec : APIServerSecurity) : MiddlewareFunc A := fun next c =>
  let authToken := ExtractBearerToken (cx_Request c) in
  if String.eqb authToken "" then ToAPIError_ "authenticate" ErrInvalidAccessToken
  else
    r ← attempt (TokenVerifier sec authToken);
    match r with
    | inr err => ToAPIError_ "authenticate" err
    | inl claims =>
        match userFromAccessClaims claims with
        | inr _ => ToAPIError_ "authenticate" ErrInvalidAccessToken
        | inl user => next (UserToEchoCtx c user)
        end
    end.

(** active_token.go *)
Definition isSafeMethod (method : string) : bool :=
  String.eqb method MethodGet || String.eqb method MethodHead || String.eqb method MethodOptions.
Definition RequireActiveToken (sec : APIServerSecurity) : MiddlewareFunc A := fun next c =>
  let token := ExtractBearerToken (cx_Request c) in
  if String.eqb token "" then ToAPIError_ "introspect" ErrInvalidAccessToken
  else
    match UserFromEchoCtx c with
    | None => ToAPIError_ "introspect" ErrInvalidAccessToken
    | Some user =>
        if isSafeMethod (rq_Method (cx_Request c)) then
          r ← attempt (TokenChecker_EnsureNotRevoked sec token);
          match r with
          | inr err => ToAPIError_ "introspect" err
          | inl _ => next c
          end
        else
          r ← attempt (TokenChecker_EnsureActiveToken sec token);
          match r with
          | inr err => ToAPIError_ "introspect" err
          | inl roles => next (UserToEchoCtx c (user <| u_Roles := roles |>))
          end
    end.

(** license_suspend.go *)
Definition isMutating (method : string) : bool :=
  negb (String.eqb method MethodGet || String.eqb method MethodHead || String.eqb method MethodOptions).
Definition RequireLicenseNotSuspended (sec : APIServerSecurity) : MiddlewareFunc A := fun next c =>
  if isMutating (rq_Method (cx_Request c)) then
    license ← (fun _ => LicenseProvider sec background) : M _;
    if Blocked license then ToAPIError_ "license block gate" ErrOrganizationSuspended else next c
  else next c.

(** rbac.go *)
Definition RequireScenario (sec : APIServerSecurity) (scenario : string) : MiddlewareFunc A := fun next c =>
  match UserFromEchoCtx c with
  | None => ToAPIError_ "authorize" ErrInvalidAccessToken
  | Some user =>
      r ← attempt (Authorizer_Allow sec (u_Roles user) scenario);
      match r with
      | inr err => ToAPIError_ "authorize" err
      | inl allowed => if negb allowed then ToAPIError_ "authorize" ErrForbidden else next c
      end
  end.
Definition RequireScenarioUnlessSelf (sec : APIServerSecurity) (scenario param : string) : MiddlewareFunc A := fun next c =>
  let guarded := RequireScenario sec scenario next in
  match UserFromEchoCtx c with
  | Some user => if String.eqb (rq_Param (cx_Request c) param) (uuid_String (u_ID user)) then next c else guarded c
  | None => guarded c
  end.

(** s2s.go *)
Definition XS2STokenAppNameHeader : string := "X-S2S-APPNAME".
Definition XS2STokenHeader : string := "X-S2S-TOKEN".
Definition rejectS2SClient : M (Response A) :=
  mret (JSON StatusUnauthorized (NewErrorResponse CodeErrInvalidClient (Fixed "client authentication failed"))).
Definition RequireS2SToken (s2s : list (string * S2S)) : MiddlewareFunc A := fun next c =>
  let appName := rq_Header (cx_Request c) XS2STokenAppNameHeader in
  let token := rq_Header (cx_Request c) XS2STokenHeader in
  if String.eqb token "" || String.eqb appName "" then rejectS2SClient
  else
    match go_lookup s2s appName with
    | None => rejectS2SClient
    | Some client =>
        if negb (bool_decide (cx_Path c ∈ s2_AvailableAPI client)) then rejectS2SClient
        else if negb (String.eqb token (s2_Secret client)) then rejectS2SClient
        else next c
    end.
End middlewares.

(** ** The limiters *)

Record RateLimiterConfig := mkLimiterConfig {
  rl_RequestsPerMinute : Z; rl_Burst : Z; rl_ExpiresIn : Duration; rl_Timeout : Duration }.
(** Of echo's in-memory store: requests a minute (the code divides by 60), depth
    and lifetime of a bucket. *)
Record MemoryStoreConfig := mkMemoryStore { mm_PerMinute : Z; mm_Burst : Z; mm_ExpiresIn : Duration }.

(** redis_rate, and echo's in-memory store. *)
Class Rates := {
  Limit : Type;
  PerMinute : Z -> Limit;
  PerSecond : Z -> Limit;
  limit_Rate : Limit -> Z;
  limit_Burst : Limit -> Z;
  (** how many requests are let through, within the deadline *)
  rate_Allow : nat -> Duration -> string -> Limit -> Z + error;
  memory_Allow : nat -> MemoryStoreConfig -> string -> bool + error }.
(** Characters of a text, each with its bytes; the classes Space and Cf. *)
Class Runes := { runes : string -> list (N * string); unicode_IsSpace : N -> bool; unicode_Cf : N -> bool }.
(** [json.Unmarshal] up to the value. *)
Class JsonText := { json_text : list ascii -> RawMessage }.

Section limiters.
Context `{Env} `{Rates} `{Runes} `{Unicode} `{JsonText}.

(** ratelimiter/valkeyratelimiter *)
Definition defaultRate : Z := 30.
Definition WithWindowMinute (rate : Z) (limit : Limit) : Limit := if rate <=? 0 then limit else PerMinute rate.
Definition WithWindowSecond (rate : Z) (limit : Limit) : Limit := if rate <=? 0 then limit else PerSecond rate.
Definition NewValkeyLimiter (opts : list (Limit -> Limit)) : Limit := foldl (fun l opt => opt l) (PerMinute defaultRate) opts.
Definition ValkeyLimiter_Allow (timeout : Duration) (limit : Limit) (key : string) : M bool :=
  allowed ← wrap_err (Errorf "failed to bump rate limiter") (at_step (fun n => rate_Allow n timeout key limit));
  mret (0 <? allowed).

(** ratelimiter/hybrid_ratelimiter.go, hybrid_ratelimiter_opts.go, limiter.go *)
Definition limiterKeyPrefix : string := "ratelimit:".
Definition defaultTimeout : Duration := 200 * Millisecond.
Record HybridRateLimiter := mkHybrid {
  appNamePrefix : string; baseLimiter : Duration -> string -> M bool; fallbackLimiter : string -> M bool; timeout : Duration }.
#[export] Instance eta_Hybrid : Eta HybridRateLimiter := fun s =>
  mkHybrid (appNamePrefix s) (baseLimiter s) (fallbackLimiter s) (timeout s).
Definition NoopLimiter (_ : string) : M bool := mret true.
Definition WithTimeout (d : Duration) (s : HybridRateLimiter) : HybridRateLimiter := if 0 <? d then s <| timeout := d |> else s.
Definition WithFallbackLimiter (fl : string -> M bool) (s : HybridRateLimiter) : HybridRateLimiter := s <| fallbackLimiter := fl |>.
Definition NewHybridRateLimiter (appName : string) (limiter : Duration -> string -> M bool)
    (opts : list (HybridRateLimiter -> HybridRateLimiter)) : HybridRateLimiter :=
  foldl (fun s opt => opt s) (mkHybrid (appName +:+ ":") limiter NoopLimiter defaultTimeout) opts.
Definition Hybrid_Allow (s : HybridRateLimiter) (identifier : string) : M bool :=
  r ← attempt (baseLimiter s (timeout s) (limiterKeyPrefix +:+ appNamePrefix s +:+ identifier));
  match r with
  | inr _ => fallbackLimiter s identifier
  | inl allow => mret allow
  end.

Definition memoryStore (cfg : MemoryStoreConfig) (identifier : string) : M bool := at_step (fun n => memory_Allow n cfg identifier).

(** server/ratelimiter.go *)
Definition NewRateLimiter (appName : string) (cfg : RateLimiterConfig) : HybridRateLimiter :=
  let fallback := memoryStore (mkMemoryStore (rl_RequestsPerMinute cfg) (rl_Burst cfg) (rl_ExpiresIn cfg)) in
  NewHybridRateLimiter appName
    (fun d => ValkeyLimiter_Allow d (NewValkeyLimiter [WithWindowMinute (rl_RequestsPerMinute cfg)]))
    [WithTimeout (rl_Timeout cfg); WithFallbackLimiter fallback].
(** [keyedRateLimiter], the store *)
Definition keyedStore (appName : string) (cfg : RateLimiterConfig) (defaultPerMinute : Z) : HybridRateLimiter :=
  let limiter := NewValkeyLimiter [WithWindowMinute defaultPerMinute; WithWindowMinute (rl_RequestsPerMinute cfg)] in
  let fallback := memoryStore (mkMemoryStore (limit_Rate limiter) (limit_Burst limiter) (rl_ExpiresIn cfg)) in
  NewHybridRateLimiter appName (fun d => ValkeyLimiter_Allow d limiter) [WithTimeout (rl_Timeout cfg); WithFallbackLimiter fallback].
Definition defaultUIRequestsPerMinute : Z := 300.
Definition defaultOTPEmailRequestsPerMinute : Z := 20.
Definition defaultOTPGlobalRequestsPerMinute : Z := 600.
Definition globalStore (appName : string) (cfg : RateLimiterConfig) : HybridRateLimiter :=
  let limiter := NewValkeyLimiter [WithWindowMinute defaultOTPGlobalRequestsPerMinute; WithWindowMinute (rl_RequestsPerMinute cfg)] in
  NewHybridRateLimiter appName (fun d => ValkeyLimiter_Allow d limiter) [WithTimeout (rl_Timeout cfg)].

(** utils/xemail *)
Definition isTrimmable (r : N * string) : bool := unicode_IsSpace r.1 || unicode_Cf r.1.
Fixpoint trim_while (l : list (N * string)) : list (N * string) :=
  match l with
  | r :: rest => if isTrimmable r then trim_while rest else l
  | [] => []
  end.
Definition xemail_Normalize (s : string) : string :=
  unicode_ToLower (String.concat "" (snd <$> rev (trim_while (rev (trim_while (runes s)))))).

Definition uiRateLimitKey (c : Context_) : string * Context_ :=
  (match UserFromEchoCtx c with
   | Some user => "user:" +:+ uuid_String (u_ID user)
   | None => "ip:" +:+ rq_RealIP (cx_Request c)
   end, c).
Definition otpGlobalRateLimitKey (c : Context_) : string * Context_ := ("otp-global", c).
Definition otpUnparseableKey : string := "otp-email:unparseable".
Definition otpBodyLimitBytes : nat := 4096.
(** [io.ReadAll(io.LimitReader(body, n))]: what comes after the limit is not
    looked at, its error included. *)
Definition read_limited (n : nat) (body : list ascii * option error) : list ascii + error :=
  if Nat.leb n (length body.1) then inl (take n body.1)
  else match body.2 with Some err => inr err | None => inl body.1 end.
Definition payload_email (j : json) : option string :=
  decode_object (fun email fs => Json.decode_field Json.decode_string "email" email fs) EmptyString j.
Definition otpEmailRateLimitKey (c : Context_) : string * Context_ :=
  match read_limited otpBodyLimitBytes (rq_Body (cx_Request c)) with
  | inr err => (otpUnparseableKey, c <| cx_Request := (cx_Request c) <| rq_Body := ([], Some err) |> |>)
  | inl body =>
      let c := c <| cx_Request := (cx_Request c) <| rq_Body := (body, None) |> |> in
      (match json_text body with
       | RawText j =>
           match payload_email j with
           | None => otpUnparseableKey
           | Some email =>
               if String.eqb (xemail_Normalize email) "" then otpUnparseableKey else "otp-email:" +:+ xemail_Normalize email
           end
       | _ => otpUnparseableKey
       end, c)
  end.
(** echo's default for a limiter: [c.RealIP()] *)
Definition realIPKey (c : Context_) : string * Context_ := (rq_RealIP (cx_Request c), c).
End limiters.

(** ** Gates

    A middleware is a gate when it either answers by itself, whatever it guards,
    or hands the request on, once, and what it has seen then holds: of the context
    and the world before and of those the handler is given. *)
Section gates.
Context {A : Type}.
Implicit Types (m : MiddlewareFunc A) (c : Context_) (w : World).

Definition seen := Context_ -> Ctx -> World -> Context_ -> World -> Prop.
Definition answers m c (ctx : Ctx) w : Prop := ∃ r w', ∀ next, m next c ctx w = (r, w').
Definition passes m c (ctx : Ctx) w c1 w1 : Prop := ∀ next, m next c ctx w = next c1 ctx w1.
Definition gate m (P : seen) : Prop := ∀ c ctx w, answers m c ctx w ∨ ∃ c1 w1, passes m c ctx w c1 w1 ∧ P c ctx w c1 w1.
Definition seen_both (P Q : seen) : seen := fun c ctx w c2 w2 => ∃ c1 w1, P c ctx w c1 w1 ∧ Q c1 ctx w1 c2 w2.

Lemma gate_comp m1 m2 (P Q : seen) : gate m1 P -> gate m2 Q -> gate (fun next => m1 (m2 next)) (seen_both P Q).
Proof.
  intros H1 H2 c ctx w. destruct (H1 c ctx w) as [(r & w' & Ha)|(c1 & w1 & Hp & HP)]; [left; exists r, w'; intros next; apply Ha|].
  destruct (H2 c1 ctx w1) as [(r & w' & Ha)|(c2 & w2 & Hp2 & HQ)].
  - left. exists r, w'. intros next. by rewrite Hp.
  - right. exists c2, w2. split; [intros next; by rewrite Hp|]. by exists c1, w1.
Qed.

Lemma gate_weaken m (P Q : seen) : gate m P -> (∀ c ctx w c1 w1, P c ctx w c1 w1 -> Q c ctx w c1 w1) -> gate m Q.
Proof. intros Hg HPQ c ctx w. destruct (Hg c ctx w) as [?|(c1 & w1 & ? & ?)]; [by left|right; eauto 10]. Qed.
End gates.

(** The middlewares of echo, and how it runs a route: the middlewares of its
    groups, outermost first, then its own; what it calls the path of a route. *)
Class Echo (A : Type) := {
  RateLimiterWithConfig : (string -> M bool) -> (Context_ -> string * Context_) -> MiddlewareFunc A;
  BodyLimit : Z -> MiddlewareFunc A;
  echo_chain : list (list (MiddlewareFunc A)) -> list (MiddlewareFunc A) -> HandlerFunc A -> HandlerFunc A;
  echo_path : list string -> string -> string }.
(** What echo documents of them.  A limiter hands on what its store allows under
    the key of the request; the body limit changes nothing but how much of the
    body can be read. *)
Class EchoSpec (A : Type) `{Echo A} : Prop := {
  RateLimiter_gate : ∀ store key, gate (RateLimiterWithConfig store key)
    (fun c _ w c1 w1 => store (key c).1 background w = (Ok true, w1) ∧ c1 = (key c).2);
  BodyLimit_gate : ∀ n, gate (BodyLimit n)
    (fun c _ w c1 w1 => w1 = w ∧ ∃ b, c1 = c <| cx_Request := (cx_Request c) <| rq_Body := b |> |>);
  echo_chain_spec : ∀ groups own h, echo_chain groups own h = foldr (fun m next => m next) h (mjoin groups ++ own) }.

Section seen.
Context {A : Type} `{Ozzo} `{Jwt} (sec : APIServerSecurity).

Definition authenticated : seen := fun c ctx w c1 w1 =>
  ExtractBearerToken (cx_Request c) ≠ ""%string ∧ ∃ claims user,
    TokenVerifier sec (ExtractBearerToken (cx_Request c)) ctx w = (Ok claims, w1) ∧
    userFromAccessClaims claims = inl user ∧ c1 = UserToEchoCtx c user.
Definition active : seen := fun c ctx w c1 w1 => ∃ user, cx_User c = Some user ∧
  if isSafeMethod (rq_Method (cx_Request c))
  then TokenChecker_EnsureNotRevoked sec (ExtractBearerToken (cx_Request c)) ctx w = (Ok tt, w1) ∧ c1 = c
  else ∃ roles, TokenChecker_EnsureActiveToken sec (ExtractBearerToken (cx_Request c)) ctx w = (Ok roles, w1) ∧
    c1 = UserToEchoCtx c (user <| u_Roles := roles |>).
Definition not_suspended : seen := fun c _ w c1 w1 => c1 = c ∧
  if isMutating (rq_Method (cx_Request c)) then ∃ license, LicenseProvider sec background w = (Ok license, w1) ∧ Blocked license = false
  else w1 = w.
Definition permitted (scenario : string) : seen := fun c ctx w c1 w1 => c1 = c ∧ ∃ user, cx_User c = Some user ∧
  Authorizer_Allow sec (u_Roles user) scenario ctx w = (Ok true, w1).
Definition permitted_or_self (scenario param : string) : seen := fun c ctx w c1 w1 =>
  permitted scenario c ctx w c1 w1 ∨
  c1 = c ∧ w1 = w ∧ ∃ user, cx_User c = Some user ∧ rq_Param (cx_Request c) param = uuid_String (u_ID user).
Definition known_client (s2s : list (string * S2S)) : seen := fun c _ w c1 w1 => c1 = c ∧ w1 = w ∧ ∃ name client,
  rq_Header (cx_Request c) XS2STokenAppNameHeader = name ∧ name ≠ ""%string ∧ go_lookup s2s name = Some client ∧
  cx_Path c ∈ s2_AvailableAPI client ∧ rq_Header (cx_Request c) XS2STokenHeader = s2_Secret client ∧ s2_Secret client ≠ ""%string.

Ltac gate_cases := unfold ToAPIError_, rejectS2SClient, mbind, M_bind, attempt, mret, M_ret in *.
Ltac refused := left; eexists _, _; intros next; reflexivity.

Lemma RequireAccessToken_gate : gate (A := A) (RequireAccessToken sec) authenticated.
Proof.
  intros c ctx w. unfold answers, passes, authenticated, RequireAccessToken. gate_cases.
  destruct (String.eqb_spec (ExtractBearerToken (cx_Request c)) ""); [destruct (ToAPIError _ _); refused|].
  destruct (TokenVerifier sec _ ctx w) as [[claims|err|s] w1] eqn:Ev; [|destruct (ToAPIError _ _); refused|refused].
  destruct (userFromAccessClaims claims) as [user|] eqn:Eu; [|destruct (ToAPIError _ _); refused].
  right. eexists _, w1. split; [done|]. split; [done|]. exists claims, user. by split_and!.
Qed.

Lemma RequireActiveToken_gate : gate (A := A) (RequireActiveToken sec) active.
Proof.
  intros c ctx w. unfold answers, passes, active, RequireActiveToken, UserFromEchoCtx. gate_cases.
  destruct (String.eqb_spec (ExtractBearerToken (cx_Request c)) ""); [destruct (ToAPIError _ _); refused|].
  destruct (cx_User c) as [user|]; [|destruct (ToAPIError _ _); refused].
  destruct (isSafeMethod _).
  - destruct (TokenChecker_EnsureNotRevoked sec _ ctx w) as [[[]|err|s] w1] eqn:Ev; [|destruct (ToAPIError _ _); refused|refused].
    right. exists c, w1. split; [done|]. by exists user.
  - destruct (TokenChecker_EnsureActiveToken sec _ ctx w) as [[roles|err|s] w1] eqn:Ev; [|destruct (ToAPIError _ _); refused|refused].
    right. eexists _, w1. split; [done|]. exists user. split; [done|]. by exists roles.
Qed.

Lemma RequireLicenseNotSuspended_gate : gate (A := A) (RequireLicenseNotSuspended sec) not_suspended.
Proof.
  intros c ctx w. unfold answers, passes, not_suspended, RequireLicenseNotSuspended. gate_cases.
  destruct (isMutating _); [|right; exists c, w; by split_and!].
  destruct (LicenseProvider sec background w) as [[license|err|s] w1] eqn:Ev; [|refused..].
  destruct (Blocked license) eqn:Eb; [destruct (ToAPIError _ _); refused|].
  right. exists c, w1. split; [done|]. split; [done|]. by exists license.
Qed.

Lemma RequireScenario_gate scenario : gate (A := A) (RequireScenario sec scenario) (permitted scenario).
Proof.
  intros c ctx w. unfold answers, passes, permitted, RequireScenario, UserFromEchoCtx. gate_cases.
  destruct (cx_User c) as [user|]; [|destruct (ToAPIError _ _); refused].
  destruct (Authorizer_Allow sec _ _ ctx w) as [[[]|err|s] w1] eqn:Ev; cbn [negb]; [|destruct (ToAPIError _ _); refused..|refused].
  right. exists c, w1. split; [done|]. split; [done|]. by exists user.
Qed.

Lemma RequireScenarioUnlessSelf_gate scenario param :
  gate (A := A) (RequireScenarioUnlessSelf sec scenario param) (permitted_or_self scenario param).
Proof.
  intros c ctx w. pose proof (RequireScenario_gate scenario c ctx w) as Hg.
  assert (Hs : (∀ next : HandlerFunc A, RequireScenarioUnlessSelf sec scenario param next c = RequireScenario sec scenario next c) ->
    answers (A := A) (RequireScenarioUnlessSelf sec scenario param) c ctx w ∨ ∃ c1 w1,
      passes (A := A) (RequireScenarioUnlessSelf sec scenario param) c ctx w c1 w1 ∧ permitted_or_self scenario param c ctx w c1 w1).
  { intros He. destruct Hg as [(r & w' & Ha)|(c1 & w1 & Hp & HP)].
    - left. exists r, w'. intros next. by rewrite He.
    - right. exists c1, w1. split; [intros next; by rewrite He|by left]. }
  unfold RequireScenarioUnlessSelf, UserFromEchoCtx in *. destruct (cx_User c) as [user|] eqn:Eu; [|by apply Hs].
  destruct (String.eqb_spec (rq_Param (cx_Request c) param) (uuid_String (u_ID user))) as [E|]; [|by apply Hs].
  right. exists c, w. split; [intros next; by rewrite Eu, E, String.eqb_refl|]. right. by eauto.
Qed.

Lemma RequireS2SToken_gate s2s : gate (A := A) (RequireS2SToken s2s) (known_client s2s).
Proof.
  intros c ctx w. unfold answers, passes, known_client, RequireS2SToken. gate_cases.
  destruct (String.eqb_spec (rq_Header (cx_Request c) XS2STokenHeader) ""); [refused|].
  destruct (String.eqb_spec (rq_Header (cx_Request c) XS2STokenAppNameHeader) ""); [refused|]. simpl.
  destruct (go_lookup s2s _) as [client|] eqn:El; [|refused].
  case_bool_decide; simpl; [|refused]. destruct (String.eqb_spec (rq_Header (cx_Request c) XS2STokenHeader) (s2_Secret client)) as [E|]; [|refused].
  right. exists c, w. split; [done|]. split_and!; [done..|]. eexists _, client. split_and!; [done..|]. congruence.
Qed.
End seen.
