(* ===== verification/Gateway.v ===== *)
(** * The routes of the API server and who reaches their handlers
      (internal/server/api_server.go, cmd/maintmode/main.go)

    Every route the server registers, with its middlewares, and what is known of a
    request by the time a handler runs. *)
From Stdlib Require Import ZArith Lia Ascii String.
From stdpp Require Import base sets strings numbers list.
From S2P Require Import Prelude Go Entity Conflict AuditTrail Schema Json Logic Dbtx Interleave Validation MaintStore UserStore TokenStore License Fixtures Crypto Queue Password Otp OtpSpec Sessions Auth SessionSpec.
From S2P Require Import Like BlockSpec Invitations IdentitySpec AuthSettings HttpErrors Processors Config Middlewares.
Open Scope Z_scope.

(** ** entity/authz.go *)

Definition AuthzScenarioMaintenanceRead : string := "maintenance.read".
Definition AuthzScenarioMaintenanceCreate : string := "maintenance.create".
Definition AuthzScenarioMaintenanceEdit : string := "maintenance.edit".
Definition AuthzScenarioMaintenanceStart : string := "maintenance.start".
Definition AuthzScenarioMaintenanceComplete : string := "maintenance.complete".
Definition AuthzScenarioMaintenanceCancel : string := "maintenance.cancel".
Definition AuthzScenarioMaintenanceApprove : string := "maintenance.approve".
Definition AuthzScenarioMaintenanceStepStart : string := "maintenance.step.start".
Definition AuthzScenarioMaintenanceStepComplete : string := "maintenance.step.complete".
Definition AuthzScenarioMaintenanceStepCancel : string := "maintenance.step.cancel".
Definition AuthzScenarioCalendarRead : string := "calendar.read".
Definition AuthzScenarioResourceRead : string := "resource.read".
Definition AuthzScenarioResourceCreate : string := "resource.create".
Definition AuthzScenarioResourceEdit : string := "resource.edit".
Definition AuthzScenarioResourceArchive : string := "resource.archive".
Definition AuthzScenarioResourceUnarchive : string := "resource.unarchive".
Definition AuthzScenarioNotificationChannelCreate : string := "notification.channel.create".
Definition AuthzScenarioNotificationChannelEdit : string := "notification.channel.edit".
Definition AuthzScenarioNotificationChannelArchive : string := "notification.channel.archive".
Definition AuthzScenarioNotificationChannelUnarchive : string := "notification.channel.unarchive".
Definition AuthzScenarioIntegrationRead : string := "integration.read".
Definition AuthzScenarioIntegrationManage : string := "integration.manage".
Definition AuthzScenarioAuthRolesRead : string := "auth.roles.read".
Definition AuthzScenarioAuthRolesManage : string := "auth.roles.manage".
Definition AuthzScenarioAuthUserRolesRead : string := "auth.user_roles.read".
Definition AuthzScenarioAuthAuditRead : string := "auth.audit.read".
Definition AuthzScenarioAuthUsersRead : string := "auth.users.read".
Definition AuthzScenarioAuthUsersManage : string := "auth.users.manage".

(** ** The handlers *)

(** [APIServerHandlers]: the methods that are registered, by the field of the
    record they are of. *)
Inductive Handlers :=
  | CreateDraftMaint | UpdateDraftMaint | StartMaint | CancelMaint | CompleteMaint | ApproveMaint | StartStep | CompleteStep
  | CancelStep | GetMaint | CancelMaintReasons
  | SearchResources | ListResources | CreateResource | ArchiveResource | UnarchiveResource | GetResource | UpdateResource
  | Calendar_CalendarView | Calendar_MaintView | ListApprovals
  | GetTransports | GetChannels | GetChannel | CreateChannel | UpdateChannel | ArchiveChannel | UnarchiveChannel
  | Integrations_List | Integrations_Create | Integrations_Get | Integrations_Update | Integrations_Delete | Integrations_Toggle
  | Integrations_TestEmail
  | ListAssignableUsers
  | JWKS | LoginWithPassword | LoginWithBreakGlass | DevLogin | Auth_Refresh | AcceptInvitationWithPassword | StartOAuthDance
  | OAuthDanceCallback | ExchangeOAuthDanceCode | RequestOTP | VerifyOTP | RequestPasswordReset | Auth_ResetPassword | ListAuthMethods
  | Auth_Logout | Auth_LogoutAll | Me | Auth_ChangePassword | UpdateMe | ConnectProvider | CompleteLink | DisconnectProvider
  | AuthSettings_List | AuthSettings_SetEnabled
  | AvailableRoles | Roles_Assign | Roles_Revoke | ListRoles
  | ListUsers | BlockUser | UnblockUser | UpdateUserTags | GetSeats
  | PreviewInvitation | Invite | ListInvitations | RevokeInvitation | ResendInvitation
  | Audit_AuditLog.
#[export] Instance Handlers_eq_dec : EqDecision Handlers.
Proof. solve_decision. Defined.

(** The middlewares a route or a group is given. *)
Inductive Mw :=
  | MwAccessToken | MwActiveUser | MwLicense | MwScenario (scenario : string) | MwUnlessSelf (scenario param : string)
  | MwS2S | MwIPLimit | MwUILimit | MwOTPEmailLimit | MwOTPGlobalLimit | MwBodyLimit (n : Z).
#[export] Instance Mw_eq_dec : EqDecision Mw.
Proof. solve_decision. Defined.

(** A group: the calls of [Group] that made it.  A route: [Add] on a group. *)
Definition Group := list (string * list Mw).
Definition sub (gr : Group) (prefix : string) (mws : list Mw) : Group := gr ++ [(prefix, mws)].
Record Route := mkRoute { ro_Group : list (string * list Mw); ro_Method : string; ro_Path : string; ro_Handler : Handlers; ro_Mws : list Mw }.
#[export] Instance Route_eq_dec : EqDecision Route.
Proof. solve_decision. Defined.
Definition add (gr : Group) (method path : string) (h : Handlers) (mws : list Mw) : Route := mkRoute gr method path h mws.

(** ** api_server.go *)

Record APIServer := mkServer { oauthDanceEnabled : bool; devLoginEnabled : bool }.
Definition integrationBodyLimitBytes : Z := 64 * 1024.

Definition oauthDanceRoutes (s : APIServer) (loginOAuthGr : Group) : list Route :=
  [add loginOAuthGr MethodGet "/:provider/start" StartOAuthDance [];
   add loginOAuthGr MethodGet "/:provider/callback" OAuthDanceCallback []] ++
  (if oauthDanceEnabled s then [add loginOAuthGr MethodPost "/code/exchange" ExchangeOAuthDanceCode [MwS2S]] else []).
Definition otpRoutes (gr : Group) : list Route :=
  let loginOTPGr := sub gr "/login/otp" [MwIPLimit; MwOTPEmailLimit; MwOTPGlobalLimit] in
  [add loginOTPGr MethodPost "/request" RequestOTP []; add loginOTPGr MethodPost "/verify" VerifyOTP [MwS2S]].
Definition passwordResetRoutes (gr : Group) : list Route :=
  let resetGr := sub gr "/password/reset" [MwIPLimit; MwOTPEmailLimit; MwOTPGlobalLimit] in
  [add resetGr MethodPost "/request" RequestPasswordReset []; add resetGr MethodPost "/confirm" Auth_ResetPassword []].
Definition providersRoute (gr : Group) : list Route :=
  let providersGr := sub gr "/auth/providers" [MwIPLimit] in [add providersGr MethodGet "" ListAuthMethods []].
Definition authPublicV1Group (s : APIServer) (gr : Group) : list Route :=
  let loginOAuthGr := sub gr "/login/oauth" [MwIPLimit] in
  let loginPasswordGr := sub gr "/login" [MwIPLimit] in
  let invitesGr := sub gr "/users/invitations" [MwIPLimit] in
  [add gr MethodGet "/.well-known/jwks.json" JWKS []] ++
  oauthDanceRoutes s loginOAuthGr ++
  [add loginPasswordGr MethodPost "/password" LoginWithPassword [MwS2S; MwOTPEmailLimit];
   add loginPasswordGr MethodPost "/break-glass" LoginWithBreakGlass [MwS2S]] ++
  (if devLoginEnabled s then [add loginPasswordGr MethodPost "/dev" DevLogin [MwS2S]] else []) ++
  otpRoutes gr ++ providersRoute gr ++ passwordResetRoutes gr ++
  [add gr MethodPost "/refresh" Auth_Refresh [MwS2S];
   add invitesGr MethodGet "/preview" PreviewInvitation [];
   add invitesGr MethodPost "/accept/password" AcceptInvitationWithPassword [MwS2S]].

Definition apiV1Group (gr0 : Group) : list Route :=
  let gr := sub gr0 "" [MwLicense] in
  let maintAPI := sub gr "/maintenances" [MwActiveUser] in
  let resourcesAPI := sub gr "/resources" [MwActiveUser] in
  let resourceAPI := sub gr "/resource" [MwActiveUser] in
  let integrationAPI := sub gr "/integrations" [MwActiveUser; MwBodyLimit integrationBodyLimitBytes] in
  let authSettingsAPI := sub gr "/auth/settings" [MwActiveUser] in
  let notifAPI := sub gr "/notifications" [MwActiveUser] in
  let usersAPI := sub gr "/users" [MwActiveUser] in
  [add maintAPI MethodPost "/create" CreateDraftMaint [MwScenario AuthzScenarioMaintenanceCreate];
   add maintAPI MethodPost "/:id/edit" UpdateDraftMaint [MwScenario AuthzScenarioMaintenanceEdit];
   add maintAPI MethodPost "/:id/start" StartMaint [MwScenario AuthzScenarioMaintenanceStart];
   add maintAPI MethodPost "/:id/cancel" CancelMaint [MwScenario AuthzScenarioMaintenanceCancel];
   add maintAPI MethodPost "/:id/complete" CompleteMaint [MwScenario AuthzScenarioMaintenanceComplete];
   add maintAPI MethodPost "/:id/approve" ApproveMaint [MwScenario AuthzScenarioMaintenanceApprove];
   add maintAPI MethodPost "/:id/steps/:step_id/start" StartStep [MwScenario AuthzScenarioMaintenanceStepStart];
   add maintAPI MethodPost "/:id/steps/:step_id/complete" CompleteStep [MwScenario AuthzScenarioMaintenanceStepComplete];
   add maintAPI MethodPost "/:id/steps/:step_id/cancel" CancelStep [MwScenario AuthzScenarioMaintenanceStepCancel];
   add maintAPI MethodGet "/:id" GetMaint [MwScenario AuthzScenarioMaintenanceRead];
   add maintAPI MethodGet "/cancel-reasons" CancelMaintReasons [MwScenario AuthzScenarioMaintenanceRead];
   add resourcesAPI MethodGet "" SearchResources [MwScenario AuthzScenarioResourceRead];
   add resourcesAPI MethodGet "/list" ListResources [MwScenario AuthzScenarioResourceRead];
   add resourceAPI MethodPost "/create" CreateResource [MwScenario AuthzScenarioResourceCreate];
   add resourceAPI MethodPost "/:id/archive" ArchiveResource [MwScenario AuthzScenarioResourceArchive];
   add resourceAPI MethodPost "/:id/unarchive" UnarchiveResource [MwScenario AuthzScenarioResourceUnarchive];
   add resourceAPI MethodGet "/:id" GetResource [MwScenario AuthzScenarioResourceRead];
   add resourceAPI MethodPatch "/:id" UpdateResource [MwScenario AuthzScenarioResourceEdit];
   add integrationAPI MethodGet "" Integrations_List [MwScenario AuthzScenarioIntegrationRead];
   add integrationAPI MethodPost "" Integrations_Create [MwScenario AuthzScenarioIntegrationManage];
   add integrationAPI MethodGet "/:kind/:name" Integrations_Get [MwScenario AuthzScenarioIntegrationRead];
   add integrationAPI MethodPatch "/:kind/:name" Integrations_Update [MwScenario AuthzScenarioIntegrationManage];
   add integrationAPI MethodDelete "/:kind/:name" Integrations_Delete [MwScenario AuthzScenarioIntegrationManage];
   add integrationAPI MethodPost "/:kind/:name/toggle" Integrations_Toggle [MwScenario AuthzScenarioIntegrationManage];
   add integrationAPI MethodPost "/notify/email/test" Integrations_TestEmail [MwScenario AuthzScenarioIntegrationManage];
   add authSettingsAPI MethodGet "" AuthSettings_List [MwScenario AuthzScenarioIntegrationRead];
   add authSettingsAPI MethodPatch "/:method" AuthSettings_SetEnabled [MwScenario AuthzScenarioIntegrationManage];
   add notifAPI MethodGet "/transports" GetTransports [MwScenario AuthzScenarioMaintenanceRead];
   add notifAPI MethodGet "/channels" GetChannels [MwScenario AuthzScenarioMaintenanceRead];
   add notifAPI MethodGet "/channels/:id" GetChannel [MwScenario AuthzScenarioMaintenanceRead];
   add notifAPI MethodPost "/channels" CreateChannel [MwScenario AuthzScenarioNotificationChannelCreate];
   add notifAPI MethodPatch "/channels/:id" UpdateChannel [MwScenario AuthzScenarioNotificationChannelEdit];
   add notifAPI MethodPost "/channels/:id/archive" ArchiveChannel [MwScenario AuthzScenarioNotificationChannelArchive];
   add notifAPI MethodPost "/channels/:id/unarchive" UnarchiveChannel [MwScenario AuthzScenarioNotificationChannelUnarchive];
   add usersAPI MethodGet "/assignable" ListAssignableUsers [MwScenario AuthzScenarioMaintenanceCreate]].

Definition authProtectedV1Group (gr : Group) : list Route :=
  let session := sub gr "" [MwAccessToken] in
  let withAuthorize := sub gr "" [MwActiveUser] in
  [add session MethodPost "/logout" Auth_Logout [];
   add withAuthorize MethodPost "/logout/all" Auth_LogoutAll [];
   add withAuthorize MethodGet "/me" Me [];
   add withAuthorize MethodPost "/me/password" Auth_ChangePassword [];
   add withAuthorize MethodPatch "/me" UpdateMe [];
   add withAuthorize MethodPost "/me/providers/:provider/connect" ConnectProvider [];
   add withAuthorize MethodPost "/me/providers/link/complete" CompleteLink [];
   add withAuthorize MethodDelete "/me/providers/:provider/disconnect" DisconnectProvider [];
   add withAuthorize MethodGet "/roles" AvailableRoles [MwScenario AuthzScenarioAuthRolesRead];
   add withAuthorize MethodPost "/roles/assign" Roles_Assign [MwScenario AuthzScenarioAuthRolesManage];
   add withAuthorize MethodPost "/roles/revoke" Roles_Revoke [MwScenario AuthzScenarioAuthRolesManage];
   add withAuthorize MethodGet "/user/:id/roles" ListRoles
     [MwScenario AuthzScenarioAuthUserRolesRead; MwUnlessSelf AuthzScenarioAuthUsersRead "id"];
   add withAuthorize MethodGet "/users/list" ListUsers [MwScenario AuthzScenarioAuthUsersRead];
   add withAuthorize MethodPost "/users/invite" Invite [MwScenario AuthzScenarioAuthUsersManage];
   add withAuthorize MethodGet "/users/invitations" ListInvitations [MwScenario AuthzScenarioAuthUsersRead];
   add withAuthorize MethodPost "/users/invitations/:id/revoke" RevokeInvitation [MwScenario AuthzScenarioAuthUsersManage];
   add withAuthorize MethodPost "/users/invitations/:id/resend" ResendInvitation [MwScenario AuthzScenarioAuthUsersManage];
   add withAuthorize MethodPost "/users/:id/block" BlockUser [MwScenario AuthzScenarioAuthUsersManage];
   add withAuthorize MethodPost "/users/:id/unblock" UnblockUser [MwScenario AuthzScenarioAuthUsersManage];
   add withAuthorize MethodPatch "/users/:id" UpdateUserTags [MwScenario AuthzScenarioAuthUsersManage];
   add withAuthorize MethodGet "/license/seats" GetSeats [MwScenario AuthzScenarioAuthUsersRead];
   add withAuthorize MethodGet "/audit/log" Audit_AuditLog [MwScenario AuthzScenarioAuthAuditRead]].

Definition uiV1Middlewares : list Mw := [MwActiveUser; MwLicense; MwUILimit].
Definition uiV1Group (gr : Group) : list Route :=
  [add gr MethodGet "/calendar" Calendar_CalendarView [MwScenario AuthzScenarioCalendarRead];
   add gr MethodGet "/maintenances/:id" Calendar_MaintView [MwScenario AuthzScenarioMaintenanceRead];
   add gr MethodGet "/approvals" ListApprovals [MwScenario AuthzScenarioMaintenanceApprove]].

(** [BindRouters], after the base middlewares of the root group. *)
Definition BindRouters (s : APIServer) : list Route :=
  let rootGr := [] in
  let apiV1 := sub rootGr "/api/v1" [] in
  authPublicV1Group s apiV1 ++ apiV1Group apiV1 ++ authProtectedV1Group apiV1 ++ uiV1Group (sub rootGr "/ui/v1" uiV1Middlewares).

(** ** Serving *)

(** The limiters' part of config.HTTPServer. *)
Record HTTPServer := mkHTTPServer {
  hs_RateLimiter : RateLimiterConfig; hs_UIRateLimiter : RateLimiterConfig; hs_OTPEmailRateLimiter : RateLimiterConfig;
  hs_OTPGlobalRateLimiter : RateLimiterConfig }.

Section server.
Context {A : Type} `{Echo A} `{Env} `{Rates} `{Runes} `{Unicode} `{JsonText} `{Ozzo} `{Jwt}.
Context (appName : string) (cfg : HTTPServer) (sec : APIServerSecurity).

Definition NewIPRateLimiter (c : RateLimiterConfig) : MiddlewareFunc A :=
  RateLimiterWithConfig (Hybrid_Allow (NewRateLimiter appName c)) realIPKey.
Definition NewUIRateLimiter (c : RateLimiterConfig) : MiddlewareFunc A :=
  RateLimiterWithConfig (Hybrid_Allow (keyedStore appName c defaultUIRequestsPerMinute)) uiRateLimitKey.
Definition NewOTPEmailRateLimiter (c : RateLimiterConfig) : MiddlewareFunc A :=
  RateLimiterWithConfig (Hybrid_Allow (keyedStore appName c defaultOTPEmailRequestsPerMinute)) otpEmailRateLimitKey.
Definition NewOTPGlobalRateLimiter (c : RateLimiterConfig) : MiddlewareFunc A :=
  RateLimiterWithConfig (Hybrid_Allow (globalStore appName c)) otpGlobalRateLimitKey.
Definition requireActiveUser : MiddlewareFunc A := fun next => RequireAccessToken sec (RequireActiveToken sec next).

Definition middleware (m : Mw) : MiddlewareFunc A :=
  match m with
  | MwAccessToken => RequireAccessToken sec
  | MwActiveUser => requireActiveUser
  | MwLicense => RequireLicenseNotSuspended sec
  | MwScenario scenario => RequireScenario sec scenario
  | MwUnlessSelf scenario param => RequireScenarioUnlessSelf sec scenario param
  | MwS2S => RequireS2SToken (sec_S2S sec)
  | MwIPLimit => NewIPRateLimiter (hs_RateLimiter cfg)
  | MwUILimit => NewUIRateLimiter (hs_UIRateLimiter cfg)
  | MwOTPEmailLimit => NewOTPEmailRateLimiter (hs_OTPEmailRateLimiter cfg)
  | MwOTPGlobalLimit => NewOTPGlobalRateLimiter (hs_OTPGlobalRateLimiter cfg)
  | MwBodyLimit n => BodyLimit n
  end.

(** The middlewares of a route, outermost first. *)
Definition route_mws (r : Route) : list Mw := mjoin (snd <$> ro_Group r) ++ ro_Mws r.
Definition route_path (r : Route) : string := echo_path (fst <$> ro_Group r) (ro_Path r).
(** A request the router has sent to a route. *)
Definition serve (r : Route) (handler : HandlerFunc A) (req : Request) : M (Response A) :=
  echo_chain ((fun g : string * list Mw => middleware <$> g.2) <$> ro_Group r) (middleware <$> ro_Mws r) handler (mkContext req (route_path r) None).

(** *** What a middleware has seen of a request it hands on *)

Definition counted (limiter : HybridRateLimiter) (key : Context_ -> string * Context_) : seen := fun c _ w c1 w1 =>
  Hybrid_Allow limiter (key c).1 background w = (Ok true, w1) ∧ c1 = (key c).2.
Definition passed (m : Mw) : seen :=
  match m with
  | MwAccessToken => authenticated sec
  | MwActiveUser => seen_both (authenticated sec) (active sec)
  | MwLicense => not_suspended sec
  | MwScenario scenario => permitted sec scenario
  | MwUnlessSelf scenario param => permitted_or_self sec scenario param
  | MwS2S => known_client (sec_S2S sec)
  | MwIPLimit => counted (NewRateLimiter appName (hs_RateLimiter cfg)) realIPKey
  | MwUILimit => counted (keyedStore appName (hs_UIRateLimiter cfg) defaultUIRequestsPerMinute) uiRateLimitKey
  | MwOTPEmailLimit => counted (keyedStore appName (hs_OTPEmailRateLimiter cfg) defaultOTPEmailRequestsPerMinute) otpEmailRateLimitKey
  | MwOTPGlobalLimit => counted (globalStore appName (hs_OTPGlobalRateLimiter cfg)) otpGlobalRateLimitKey
  | MwBodyLimit _ => fun c _ w c1 w1 => w1 = w ∧ ∃ b, c1 = c <| cx_Request := (cx_Request c) <| rq_Body := b |> |>
  end.
Fixpoint passed_all (ms : list Mw) : seen :=
  match ms with
  | [] => fun c _ w c1 w1 => c1 = c ∧ w1 = w
  | m :: ms => seen_both (passed m) (passed_all ms)
  end.

Context `{!EchoSpec A}.

Lemma middleware_gate m : gate (middleware m) (passed m).
Proof.
  destruct m; [apply RequireAccessToken_gate|apply (gate_comp (RequireAccessToken sec) (RequireActiveToken sec)); [apply RequireAccessToken_gate|apply RequireActiveToken_gate]
    |apply RequireLicenseNotSuspended_gate|apply RequireScenario_gate|apply RequireScenarioUnlessSelf_gate|apply RequireS2SToken_gate
    |apply RateLimiter_gate..|apply BodyLimit_gate].
Qed.

Lemma chain_gate ms : gate (fun h => foldr (fun m next => m next) h (middleware <$> ms)) (passed_all ms).
Proof.
  induction ms as [|m ms IH]; simpl; [|apply (gate_comp (middleware m)); [apply middleware_gate|exact IH]].
  intros c ctx w. right. exists c, w. by split.
Qed.

Lemma fmap_groups (g : list (string * list Mw)) :
  middleware <$> mjoin (snd <$> g) = mjoin ((fun x : string * list Mw => middleware <$> x.2) <$> g).
Proof. induction g as [|x g IH]; [done|]. cbn. rewrite fmap_app. f_equal. exact IH. Qed.

(** A request is answered by one of the middlewares, whatever the handler, or the
    handler answers it, run once on what has passed all of them. *)
Lemma serve_gate r req ctx w :
  (∃ resp w', ∀ handler, serve r handler req ctx w = (resp, w')) ∨
  ∃ c1 w1, (∀ handler, serve r handler req ctx w = handler c1 ctx w1) ∧
    passed_all (route_mws r) (mkContext req (route_path r) None) ctx w c1 w1.
Proof.
  assert (∀ handler, serve r handler req =
    foldr (fun m next => m next) handler (middleware <$> route_mws r) (mkContext req (route_path r) None)) as Hs.
  { intros handler. unfold serve. rewrite echo_chain_spec. unfold route_mws. rewrite fmap_app. by rewrite fmap_groups. }
  destruct (chain_gate (route_mws r) (mkContext req (route_path r) None) ctx w) as [(resp & w' & Ha)|(c1 & w1 & Hp & HP)].
  - left. exists resp, w'. intros handler. rewrite Hs. apply Ha.
  - right. exists c1, w1. split; [|done]. intros handler. rewrite Hs. apply Hp.
Qed.
End server.

(** ** The services behind the gates (cmd/maintmode/main.go) *)

Lemma exec_map {E F : Type -> Type} (f : ∀ X, E X -> F X) (h : ∀ X, E X -> M X) (h' : ∀ X, F X -> M X) {A} (p : Prog E A) ctx w :
  (∀ X (op : E X), h' X (f X op) = h X op) -> exec h' (prog_map f p) ctx w = exec h p ctx w.
Proof.
  intros Hf. revert w. induction p as [a|e|X op k IH]; intros w; [done..|]. simpl. rewrite Hf.
  destruct (h X op ctx w) as [[x|e|s] w1]; [apply IH..|done].
Qed.

(** Neither the database nor the key-value server changed while time passed. *)
Definition still (w w' : World) : Prop := w_db w' = w_db w ∧ w_kv w' = w_kv w ∧ (w_step w <= w_step w')%nat.
Lemma still_refl w : still w w.
Proof. done. Qed.
Lemma still_tick w : still w (tick w).
Proof. split_and!; [done..|]. simpl. lia. Qed.
Lemma still_trans w1 w2 w3 : still w1 w2 -> still w2 w3 -> still w1 w3.
Proof. intros (? & ? & ?) (? & ? & ?). split_and!; [congruence..|lia]. Qed.
#[local] Hint Resolve still_refl still_tick : core.
Ltac stands := solve [split_and!; [done|done|simpl; lia]].

Section services.
Context `{Env} `{Collation} `{Goque} `{Sealer} `{Entropy} `{Jwt} `{Argon2} `{AuthMethodFlags} `{AccessVerifier} `{Enforcer} `{LicenseCache}.
Context (jwt : JWTConfig) (codes : Otp.Service).

(** What main gives the server; [lastRefreshFailedAt] is the verifier's. *)
Definition newSecurity (lastRefreshFailedAt : Time) (s2s : list (string * S2S)) (devLogin : bool) : APIServerSecurity :=
  mkSecurity (AuthSettings.VerifyAccessToken lastRefreshFailedAt)
    (fun token => exec (auth_handle jwt codes) (EnsureActiveToken token))
    (fun token => exec (auth_handle jwt codes) (EnsureNotRevoked token))
    Allow (seat_handle _ SLicense) s2s devLogin.

(** Neither the token nor its session was marked revoked at a moment between [w]
    and [w'], by the clock of the key-value server then. *)
Definition unrevoked (claims : AccessClaims) (w w' : World) : Prop := ∃ k, (w_step w <= k < w_step w')%nat ∧
  kv_get (env_now k) (keyPrefix +:+ cl_ID claims) (w_kv w) = None ∧
  (cl_SessionID claims ≠ ""%string -> kv_get (env_now k) (sessionKeyPrefix +:+ cl_SessionID claims) (w_kv w) = None).

Lemma IsRevoked_false claims ctx w w' :
  IsRevoked (cl_ID claims) (cl_SessionID claims) ctx w = (Ok false, w') -> unrevoked claims w w' ∧ still w w'.
Proof.
  unfold IsRevoked, wrap_err, kv. destruct (env_fault _); [done|]. intros [= Hex <-]. split; [|stands].
  exists (w_step w). split; [simpl; lia|]. apply orb_false_iff in Hex as [Hj Hs].
  split; [by apply bool_decide_eq_false_1, eq_None_not_Some in Hj|]. intros Hn. apply String.eqb_neq in Hn. rewrite Hn in Hs.
  simpl in Hs. rewrite orb_false_r in Hs. by apply bool_decide_eq_false_1, eq_None_not_Some in Hs.
Qed.

Lemma Verify_run token ctx w claims w' :
  exec (auth_handle jwt codes) (tok (Sessions.VerifyAccessToken token)) ctx w = (Ok claims, w') ->
  (∃ n, jwt_ParseWithClaims n (Issuer jwt) token = inl (claims, true)) ∧ still w w'.
Proof.
  unfold tok. rewrite (exec_map _ (token_handle jwt)) by done. unfold Sessions.VerifyAccessToken, try_call. cbn.
  unfold at_step. destruct (jwt_ParseWithClaims (w_step w) (Issuer jwt) token) as [[c []]|err] eqn:Ep; cbn;
    [intros [= <- <-]; split; [by eexists|done]|done|by destruct (errors_Is _ _)].
Qed.

(** What the checks of a token have seen of it. *)
Definition token_live (token : string) (claims : AccessClaims) (w w' : World) : Prop :=
  (∃ n, jwt_ParseWithClaims n (Issuer jwt) token = inl (claims, true)) ∧ cl_ID claims ≠ ""%string ∧ unrevoked claims w w'.

(** A moment within a stretch of time is within a longer one. *)
Lemma unrevoked_still claims w0 w w' w1 : still w0 w -> still w' w1 -> unrevoked claims w w' -> unrevoked claims w0 w1.
Proof. intros (_ & Hk & ?) (_ & _ & ?) (k & ? & Hn). exists k. rewrite <- Hk. split; [lia|done]. Qed.

Lemma EnsureNotRevoked_run token ctx w w' :
  exec (auth_handle jwt codes) (EnsureNotRevoked token) ctx w = (Ok tt, w') -> (∃ claims, token_live token claims w w') ∧ still w w'.
Proof.
  unfold EnsureNotRevoked. rewrite exec_bind. intros (claims & w1 & (Hp & Hs)%Verify_run & Hrun)%bind_Ok.
  destruct (String.eqb_spec (cl_ID claims) "") as [|Hid]; [done|]. rewrite exec_bind in Hrun.
  apply bind_Ok in Hrun as (revoked & w2 & Hr & Hrun). unfold isRevoked in Hr. rewrite exec_call_wrap in Hr. apply wrap_err_Ok in Hr.
  destruct revoked; [done|]. apply IsRevoked_false in Hr as [Hu Hs2]. injection Hrun as <-.
  split; [exists claims; split_and!; [done..|exact (unrevoked_still _ _ _ _ _ Hs (still_refl _) Hu)]|exact (still_trans _ _ _ Hs Hs2)].
Qed.

Lemma activeSubject_run subject ctx w u w' :
  exec (auth_handle jwt codes) (activeSubject subject) ctx w = (Ok (Some u), w') ->
  ∃ userID row, uuid_Parse subject = inl userID ∧ find_user userID (w_db w) = Some row ∧ u = fromDBUser row ∧ IsBlocked u = false ∧ still w w'.
Proof.
  unfold activeSubject. destruct (uuid_Parse subject) as [userID|]; [|done]. cbn.
  unfold UserStore.GetByID, UserStore.get, mbind, M_bind, query, sql.
  destruct (env_fault (w_step w)) as [f|]; [cbn; by destruct (errors_Is _ _)|].
  destruct (find_user userID (w_db w)) as [row|] eqn:Ef; [|done]. cbn. destruct (IsBlocked (fromDBUser row)) eqn:Eb; [done|].
  intros [= <- <-]. exists userID, row. split_and!; [done..|stands].
Qed.

Lemma EnsureActiveToken_run token ctx w roles w' :
  exec (auth_handle jwt codes) (EnsureActiveToken token) ctx w = (Ok roles, w') ->
  (∃ claims userID row, token_live token claims w w' ∧ uuid_Parse (cl_Subject claims) = inl userID ∧
     find_user userID (w_db w) = Some row ∧ IsBlocked (fromDBUser row) = false ∧ roles = u_Roles (fromDBUser row)) ∧ still w w'.
Proof.
  unfold EnsureActiveToken. rewrite exec_bind. intros (report & w1 & Hi & Hrun)%bind_Ok.
  destruct (ir_Active report) eqn:Ea; [|done]. injection Hrun as <- <-. unfold Introspect in Hi. rewrite exec_bind in Hi.
  apply bind_Ok in Hi as (r & w2 & Hv & Hi). rewrite exec_try in Hv. apply attempt_Ok in Hv.
  destruct r as [claims|]; [|by injection Hi as <- _]. apply Verify_run in Hv as [Hp Hs].
  destruct (String.eqb_spec (cl_ID claims) "") as [|Hid]; [by injection Hi as <- _|]. rewrite exec_bind in Hi.
  apply bind_Ok in Hi as (revoked & w3 & Hr & Hi). unfold isRevoked in Hr. rewrite exec_call_wrap in Hr. apply wrap_err_Ok in Hr.
  destruct revoked; [by injection Hi as <- _|]. apply IsRevoked_false in Hr as [Hu Hs2]. rewrite exec_bind in Hi.
  apply bind_Ok in Hi as (subject & w4 & Hsub & Hi). destruct subject as [u|]; [|by injection Hi as <- _].
  destruct (activeSubject_run _ _ _ _ _ Hsub) as (userID & row & Hparse & Hf & -> & Hb & Hs3).
  destruct (cl_ExpiresAt claims) as [exp|]; [|done]. injection Hi as <- <-.
  pose proof (still_trans _ _ _ Hs Hs2) as Hs13. split; [|exact (still_trans _ _ _ Hs13 Hs3)].
  exists claims, userID, row. unfold token_live. split_and!; try done.
  - exact (unrevoked_still _ _ _ _ _ Hs Hs3 Hu).
  - by rewrite <- (proj1 Hs13).
Qed.
End services.

(** ** Who reaches a handler *)

(** Sign-in, refresh and the public lists, and signing out: no active token is
    asked for. *)
Definition open_handlers : list Handlers :=
  [JWKS; StartOAuthDance; OAuthDanceCallback; ExchangeOAuthDanceCode; LoginWithPassword; LoginWithBreakGlass; DevLogin; RequestOTP;
   VerifyOTP; ListAuthMethods; RequestPasswordReset; Auth_ResetPassword; Auth_Refresh; PreviewInvitation;
   AcceptInvitationWithPassword; Auth_Logout].
(** What everyone may do to the account they are signed in to. *)
Definition own_account : list Handlers :=
  [Auth_LogoutAll; Me; Auth_ChangePassword; UpdateMe; ConnectProvider; CompleteLink; DisconnectProvider].
(** What answers with a pair of tokens, or takes one of them, without a session. *)
Definition pair_handlers : list Handlers :=
  [ExchangeOAuthDanceCode; LoginWithPassword; LoginWithBreakGlass; DevLogin; VerifyOTP; Auth_Refresh; AcceptInvitationWithPassword].

Definition authenticates (m : Mw) : bool := match m with MwAccessToken | MwActiveUser => true | _ => false end.
Definition is_scenario (m : Mw) : bool := match m with MwScenario _ => true | _ => false end.
Fixpoint after_active (ms : list Mw) : option (list Mw * list Mw) :=
  match ms with
  | [] => None
  | MwActiveUser :: post => Some ([], post)
  | m :: ms => (fun p => (m :: p.1, p.2)) <$> after_active ms
  end.
(** The user is established once, and before the policy is asked. *)
Definition well_gated (ms : list Mw) : bool :=
  match after_active ms with
  | Some (pre, post) => forallb (fun m => negb (authenticates m) && negb (is_scenario m)) pre && forallb (fun m => negb (authenticates m)) post
  | None => false
  end.

Lemma after_active_eq ms pre post : after_active ms = Some (pre, post) -> ms = pre ++ MwActiveUser :: post.
Proof.
  revert pre post. induction ms as [|m ms IH]; intros pre post; [done|]. cbn [after_active].
  destruct (decide (m = MwActiveUser)) as [->|Hm]; [by intros [= <- <-]|].
  assert ((fun p => (m :: p.1, p.2)) <$> after_active ms = Some (pre, post) -> m :: ms = pre ++ MwActiveUser :: post) as Hg.
  { destruct (after_active ms) as [[pre' post']|]; [|done]. intros [= <- <-]. simpl. by rewrite (IH _ _ eq_refl). }
  by destruct m.
Qed.

(** The table of routes. *)
Definition route_ok (r : Route) : bool :=
  (bool_decide (ro_Handler r ∈ open_handlers) || well_gated (route_mws r)) &&
  (bool_decide (ro_Handler r ∈ open_handlers ++ own_account) || existsb is_scenario (route_mws r)) &&
  (negb (bool_decide (r ∈ apiV1Group (sub [] "/api/v1" []))) || bool_decide (MwLicense ∈ route_mws r)) &&
  (negb (bool_decide (ro_Handler r ∈ pair_handlers)) || bool_decide (MwS2S ∈ route_mws r)).
Lemma routes_ok s r : r ∈ BindRouters s -> route_ok r = true.
Proof.
  intros Hin. assert (forallb route_ok (BindRouters s) = true) as Hall by (by destruct s as [[] []]; vm_compute).
  rewrite forallb_forall in Hall. apply Hall. by apply list_elem_of_In.
Qed.

(** The same text, parsed with the same key, has the same claims. *)
Class SameClaims `{Jwt} `{AccessVerifier} (issuer : string) : Prop := {
  same_claims : ∀ n m token c1 c2, av_ParseWithClaims n token = inl (c1, true) -> jwt_ParseWithClaims m issuer token = inl (c2, true) -> c2 = c1 }.

Section promises.
Context {A : Type} `{Echo A} `{!EchoSpec A} `{Env} `{Rates} `{Runes} `{Unicode} `{JsonText} `{Ozzo} `{Collation} `{Goque} `{Sealer} `{Entropy} `{Jwt}
  `{Argon2} `{AuthMethodFlags} `{AccessVerifier} `{Enforcer} `{LicenseCache}.
Context (jwt : JWTConfig) (codes : Otp.Service) (lastRefreshFailedAt : Time) (s2s : list (string * S2S)) (devLogin : bool).
Context (appName : string) (cfg : HTTPServer).
Let sec : APIServerSecurity := newSecurity jwt codes lastRefreshFailedAt s2s devLogin.

(** The parts of a request no middleware changes. *)
Definition same_request (c c1 : Context_) : Prop :=
  rq_Method (cx_Request c1) = rq_Method (cx_Request c) ∧ rq_Header (cx_Request c1) = rq_Header (cx_Request c) ∧
  rq_Param (cx_Request c1) = rq_Param (cx_Request c) ∧ cx_Path c1 = cx_Path c.
Lemma same_request_refl c : same_request c c.
Proof. done. Qed.
Lemma same_request_trans c1 c2 c3 : same_request c1 c2 -> same_request c2 c3 -> same_request c1 c3.
Proof. intros (? & ? & ? & ?) (? & ? & ? & ?). split_and!; congruence. Qed.
Lemma same_token c c1 : same_request c c1 -> ExtractBearerToken (cx_Request c1) = ExtractBearerToken (cx_Request c).
Proof. intros (_ & Hh & _). unfold ExtractBearerToken. by rewrite Hh. Qed.

Lemma verifier_run token ctx w claims w' :
  AuthSettings.VerifyAccessToken lastRefreshFailedAt token ctx w = (Ok claims, w') ->
  (∃ n, av_ParseWithClaims n token = inl (claims, true)) ∧ still w w'.
Proof.
  unfold AuthSettings.VerifyAccessToken, UTCNow, mbind, M_bind, raise, mret, M_ret. simpl.
  destruct (av_ParseWithClaims _ _) as [[c []]|err] eqn:Ep; simpl; [intros [= <- <-]; split; [by eexists|stands]|done|].
  destruct (errors_Is err jwt_ErrTokenExpired); [done|]. destruct (errors_Is err _); [|done].
  unfold authUnavailable. by destruct (match av_KeyReadAll _ with inr _ => _ | inl _ => _ end).
Qed.
Lemma Allow_run roles scenario ctx w w' :
  Allow roles scenario ctx w = (Ok true, w') ->
  (∃ role n, role ∈ roles ∧ Role_Valid role = true ∧ Enforce n role scenario = inl true) ∧ still w w'.
Proof.
  intros Hrun. pose proof (allowed_by_policy _ _ _ _ _ _ Hrun) as [_ Hp]. split; [exact Hp|]. clear Hp.
  revert w Hrun. induction roles as [|role rest IH]; intros w; cbn [Allow]; [done|].
  destruct (Role_Valid role); simpl; [|apply IH]. unfold enforce, mbind, M_bind.
  destruct (Enforce (w_step w) role scenario) as [[]|err]; simpl; [by intros [= <-]| |done].
  intros Hrun. eapply still_trans; [|by apply IH]. done.
Qed.
Lemma limiter_run limiter id w b w1 :
  limiter ∈ [NewRateLimiter appName (hs_RateLimiter cfg); keyedStore appName (hs_UIRateLimiter cfg) defaultUIRequestsPerMinute;
             keyedStore appName (hs_OTPEmailRateLimiter cfg) defaultOTPEmailRequestsPerMinute; globalStore appName (hs_OTPGlobalRateLimiter cfg)] ->
  Hybrid_Allow limiter id background w = (Ok b, w1) -> still w w1.
Proof.
  assert (∀ d l k ctx w r w1, ValkeyLimiter_Allow d l k ctx w = (r, w1) -> still w w1) as Hv.
  { intros d l k ctx w0 r w2. unfold ValkeyLimiter_Allow, wrap_err, at_step, mbind, M_bind. destruct (rate_Allow _ _ _ _); intros [= _ <-]; stands. }
  assert (∀ s, (∃ l, baseLimiter s = fun d => ValkeyLimiter_Allow d l) ->
    (∀ ctx w r w1, fallbackLimiter s id ctx w = (r, w1) -> still w w1) -> Hybrid_Allow s id background w = (Ok b, w1) -> still w w1) as Hs.
  { intros s [l Hb] Hf Hrun. unfold Hybrid_Allow in Hrun. rewrite Hb in Hrun. apply bind_Ok in Hrun as (r & w2 & Ha & Hrun).
    apply attempt_Ok in Ha. destruct r; apply Hv in Ha; [by injection Hrun as _ <-|]. eapply still_trans; [exact Ha|by eapply Hf]. }
  intros Hin. apply Hs; unfold NewRateLimiter, keyedStore, globalStore, NewHybridRateLimiter, WithTimeout in Hin;
    rewrite list_elem_of_In in Hin; simpl in Hin; destruct Hin as [<-|[<-|[<-|[<-|[]]]]]; destruct (0 <? rl_Timeout _); simpl; eauto;
    unfold NoopLimiter, memoryStore, at_step; intros ? w0 ? ?; try (intros [= _ <-]; stands).
Qed.

Definition passed_ : Mw -> seen := passed appName cfg sec.
Definition passed_all_ : list Mw -> seen := passed_all appName cfg sec.

Lemma access_frame c ctx w c1 w1 : authenticated sec c ctx w c1 w1 -> same_request c c1 ∧ still w w1.
Proof. intros (_ & claims & user & (_ & Hs)%verifier_run & _ & ->). done. Qed.
Lemma active_frame c ctx w c1 w1 : active sec c ctx w c1 w1 -> same_request c c1 ∧ still w w1.
Proof.
  intros (user & _ & Ha). destruct (isSafeMethod _); [destruct Ha as [(_ & Hs)%EnsureNotRevoked_run ->]|]; [done|].
  destruct Ha as (roles & (_ & Hs)%EnsureActiveToken_run & ->). done.
Qed.
Lemma permitted_frame scenario c ctx w c1 w1 : permitted sec scenario c ctx w c1 w1 -> c1 = c ∧ still w w1.
Proof. intros (-> & user & _ & (_ & Hs)%Allow_run). done. Qed.
Lemma otp_key_frame c : same_request c (otpEmailRateLimitKey c).2 ∧ cx_User (otpEmailRateLimitKey c).2 = cx_User c.
Proof. unfold otpEmailRateLimitKey. by destruct (read_limited _ _). Qed.

(** What a middleware leaves as it was. *)
Lemma passed_frame m c ctx w c1 w1 : passed_ m c ctx w c1 w1 ->
  same_request c c1 ∧ still w w1 ∧ (authenticates m = false -> cx_User c1 = cx_User c).
Proof.
  destruct m; unfold passed_; cbn [passed authenticates].
  - intros [??]%access_frame. done.
  - intros (c2 & w2 & [??]%access_frame & [??]%active_frame). split_and!; [by eapply same_request_trans|by eapply still_trans|done].
  - intros [-> Hl]. destruct (isMutating _); [destruct Hl as (l & [= <- <-] & _)|subst w1]; done.
  - intros [-> ?]%permitted_frame. done.
  - intros [[-> ?]%permitted_frame|(-> & -> & _)]; done.
  - intros (-> & -> & _). done.
  - intros [Hr ->]. apply limiter_run in Hr; [done|set_solver].
  - intros [Hr ->]. apply limiter_run in Hr; [done|set_solver].
  - intros [Hr ->]. apply limiter_run in Hr; [|set_solver]. destruct (otp_key_frame c). done.
  - intros [Hr ->]. apply limiter_run in Hr; [done|set_solver].
  - intros (-> & b & ->). done.
Qed.
Lemma passed_all_frame ms c ctx w c1 w1 : passed_all_ ms c ctx w c1 w1 ->
  same_request c c1 ∧ still w w1 ∧ (forallb (fun m => negb (authenticates m)) ms = true -> cx_User c1 = cx_User c).
Proof.
  revert c w. induction ms as [|m ms IH]; intros c w; [by intros [-> ->]|].
  intros (c2 & w2 & (Hr & Hs & Hu)%passed_frame & (Hr2 & Hs2 & Hu2)%IH).
  split_and!; [by eapply same_request_trans|by eapply still_trans|].
  cbn [forallb]. intros [Hn Hall]%andb_prop. rewrite Hu2 by done. apply Hu. by destruct (authenticates m).
Qed.
Lemma passed_all_app l1 l2 c ctx w c2 w2 : passed_all_ (l1 ++ l2) c ctx w c2 w2 ->
  ∃ c1 w1, passed_all_ l1 c ctx w c1 w1 ∧ passed_all_ l2 c1 ctx w1 c2 w2.
Proof.
  revert c w. induction l1 as [|m l1 IH]; intros c w; [intros Hp; exists c, w; by split|].
  intros (c3 & w3 & Hm & (c1 & w1 & Hl & Hr)%IH). exists c1, w1. split; [by exists c3, w3|done].
Qed.
(** One of several, among what came before it and after it. *)
Lemma passed_all_elem m ms c ctx w c1 w1 : m ∈ ms -> passed_all_ ms c ctx w c1 w1 ->
  ∃ c2 w2 c3 w3, passed_ m c2 ctx w2 c3 w3 ∧ same_request c c2 ∧ still w w2 ∧
    (forallb (fun m => negb (authenticates m)) ms = true -> cx_User c2 = cx_User c1).
Proof.
  intros (l1 & l2 & ->)%list_elem_of_split (c2 & w2 & Hl & (c3 & w3 & Hm & Hr2))%passed_all_app.
  destruct (passed_all_frame _ _ _ _ _ _ Hl) as (Hr & Hs & Hu), (passed_frame _ _ _ _ _ _ Hm) as (_ & _ & Hum),
    (passed_all_frame _ _ _ _ _ _ Hr2) as (_ & _ & Hu3).
  exists c2, w2, c3, w3. split_and!; [done..|]. rewrite forallb_app. cbn [forallb]. intros [_ [Hn Hq]%andb_prop]%andb_prop.
  rewrite Hu3 by done. symmetry. apply Hum. by destruct (authenticates m).
Qed.

(** The user a handler is given: whoever a verified token that has not been
    revoked names; for a change, with the roles stored now, and not blocked. *)
Definition admitted (req : Request) (w w' : World) (user : User) : Prop :=
  ExtractBearerToken req ≠ ""%string ∧ ∃ n claims named,
    av_ParseWithClaims n (ExtractBearerToken req) = inl (claims, true) ∧ userFromAccessClaims claims = inl named ∧
    token_live jwt (ExtractBearerToken req) claims w w' ∧
    if isSafeMethod (rq_Method req) then user = named
    else ∃ row, find_user (u_ID named) (w_db w) = Some row ∧ IsBlocked (fromDBUser row) = false ∧
      user = named <| u_Roles := u_Roles (fromDBUser row) |>.
(** One of the user's roles is allowed the scenario by the policy. *)
Definition policy_allows (user : User) (scenario : string) : Prop :=
  ∃ role n, role ∈ u_Roles user ∧ Role_Valid role = true ∧ Enforce n role scenario = inl true.

Lemma userFromAccessClaims_ID claims named userID :
  userFromAccessClaims claims = inl named -> uuid_Parse (cl_Subject claims) = inl userID -> u_ID named = userID.
Proof. unfold userFromAccessClaims. destruct (negb _); [done|]. intros Hn Hp. rewrite Hp in Hn. by injection Hn as <-. Qed.

(** The token gate, passed. *)
Lemma active_user_admits `{!SameClaims (Issuer jwt)} c ctx w c1 w1 :
  passed_ MwActiveUser c ctx w c1 w1 -> ∃ user, cx_User c1 = Some user ∧ admitted (cx_Request c) w w1 user.
Proof.
  intros (c2 & w2 & Hau & (named' & Hn & Hac)).
  destruct (access_frame _ _ _ _ _ Hau) as [Hreq Hs]. destruct Hau as (Ht & claims & named & ([n Hp] & _)%verifier_run & Hu & ->).
  simpl in Hn, Hac. injection Hn as <-. unfold admitted.
  destruct (isSafeMethod (rq_Method (cx_Request c))).
  - destruct Hac as [((claims' & Hp' & Hid & Hrev) & _)%EnsureNotRevoked_run ->]. exists named. split; [done|]. split; [done|].
    pose proof Hp' as [m Hm]. pose proof (same_claims _ _ _ _ _ Hp Hm) as ->.
    exists n, claims, named. split_and!; [done|done|split_and!; [done..|exact (unrevoked_still _ _ _ _ _ Hs (still_refl _) Hrev)]|done].
  - destruct Hac as (roles & ((claims' & userID & row & (Hp' & Hid & Hrev) & Hid' & Hrow & Hb & ->) & _)%EnsureActiveToken_run & ->).
    eexists. split; [done|]. split; [done|]. pose proof Hp' as [m Hm]. pose proof (same_claims _ _ _ _ _ Hp Hm) as ->.
    exists n, claims, named. split_and!; [done|done|split_and!; [done..|exact (unrevoked_still _ _ _ _ _ Hs (still_refl _) Hrev)]|]. exists row.
    rewrite (userFromAccessClaims_ID _ _ _ Hu Hid'), <- (proj1 Hs). done.
Qed.

(** What was seen earlier or later in a request is seen in the request. *)
Lemma admitted_still c c1 w0 w w' w1 user : same_request c c1 -> still w0 w -> still w' w1 ->
  admitted (cx_Request c1) w w' user -> admitted (cx_Request c) w0 w1 user.
Proof.
  intros Hreq Hs Hs2 (Ht & n & claims & named & Hp & Hn & (Hj & Hid & Hu) & Huser). rewrite (same_token _ _ Hreq) in *.
  split; [done|]. exists n, claims, named. split_and!; [done|done|split_and!; [done..|exact (unrevoked_still _ _ _ _ _ Hs Hs2 Hu)]|].
  destruct Hreq as (Hm & _), Hs as (Hdb & _). by rewrite Hm, Hdb in Huser.
Qed.

(** Everything a gated route has seen. *)
Lemma gated_admits `{!SameClaims (Issuer jwt)} ms c ctx w c1 w1 :
  well_gated ms = true -> passed_all_ ms c ctx w c1 w1 ->
  ∃ user, cx_User c1 = Some user ∧ admitted (cx_Request c) w w1 user ∧
    ∀ scenario, MwScenario scenario ∈ ms -> policy_allows user scenario.
Proof.
  unfold well_gated. destruct (after_active ms) as [[pre post]|] eqn:Ea; [|done]. apply after_active_eq in Ea as ->.
  intros [Hpre Hpost]%andb_prop (c2 & w2 & Hp & (c3 & w3 & Ha & Hq))%passed_all_app.
  destruct (passed_all_frame _ _ _ _ _ _ Hp) as (Hreq & Hs & _), (passed_all_frame _ _ _ _ _ _ Hq) as (_ & Hs2 & Hu).
  apply active_user_admits in Ha as (user & Hu3 & Hadm). exists user. split; [by rewrite (Hu Hpost)|]. split.
  { exact (admitted_still _ _ _ _ _ _ _ Hreq Hs Hs2 Hadm). }
  intros scenario [Hin|[?|Hin]%elem_of_cons]%elem_of_app; [|done|].
  - rewrite forallb_forall in Hpre. apply list_elem_of_In, Hpre in Hin. done.
  - destruct (passed_all_elem _ _ _ _ _ _ _ Hin Hq) as (c4 & w4 & c5 & w5 & (_ & user' & Hu4 & Hal) & _ & _ & Hsame).
    rewrite (Hsame Hpost), (Hu Hpost), Hu3 in Hu4. injection Hu4 as <-. by apply Allow_run in Hal as [? _].
Qed.

(** C9. A handler runs only for those who may run it.  Whatever the request, a route
    other than sign-in, refresh, the public lists and sign-out either answers it
    by itself, the same for every handler it could have, or runs its handler once,
    on a database and a key-value server still untouched, for the user named by a
    token that verified and that, at a moment after the request came in and before
    the handler runs, was marked revoked neither by itself nor through its session.
    If the method changes anything, that user is stored, is not blocked, and is
    given to the handler with the stored roles, not those of the token.  The
    policy allows one of these roles every scenario of the route, which has one
    unless it is about the user's own account; and on a business route no change
    passes while the license is blocked. *)
Theorem requests_guarded `{!SameClaims (Issuer jwt)} s r req ctx w :
  r ∈ BindRouters s -> ro_Handler r ∉ open_handlers ->
  (∃ resp w', ∀ handler, serve appName cfg sec r handler req ctx w = (resp, w')) ∨
  ∃ c1 w1 user, (∀ handler, serve appName cfg sec r handler req ctx w = handler c1 ctx w1) ∧ still w w1 ∧
    cx_User c1 = Some user ∧ admitted req w w1 user ∧
    (∀ scenario, MwScenario scenario ∈ route_mws r -> policy_allows user scenario) ∧
    (ro_Handler r ∉ own_account -> ∃ scenario, MwScenario scenario ∈ route_mws r) ∧
    (r ∈ apiV1Group (sub [] "/api/v1" []) -> isMutating (rq_Method req) = true -> ∃ n, Blocked (cached_license n) = false).
Proof.
  intros Hok%routes_ok Ho. unfold route_ok in Hok. apply andb_prop in Hok as [[[Hg Hsc]%andb_prop Hli]%andb_prop _].
  destruct (serve_gate appName cfg sec r req ctx w) as [?|(c1 & w1 & Hrun & Hp)]; [by left|right].
  rewrite bool_decide_eq_false_2 in Hg by done. destruct (gated_admits _ _ _ _ _ _ Hg Hp) as (user & Hu & Hadm & Hpol).
  destruct (passed_all_frame _ _ _ _ _ _ Hp) as (_ & Hs & _). exists c1, w1, user. split_and!; [done..| |].
  - intros Hown. rewrite bool_decide_eq_false_2 in Hsc by (rewrite elem_of_app; tauto).
    apply existsb_exists in Hsc as (m & Hin & Hm). destruct m as [| | |scenario| | | | | | |]; try done. exists scenario. by apply list_elem_of_In.
  - intros Hin Hmut. rewrite bool_decide_eq_true_2 in Hli by done. apply bool_decide_eq_true_1 in Hli.
    destruct (passed_all_elem _ _ _ _ _ _ _ Hli Hp) as (c2 & w2 & c3 & w3 & [_ Hl] & (Hm & _) & _).
    rewrite Hm in Hl. simpl in Hl. rewrite Hmut in Hl. destruct Hl as (license & [= <- <-] & Hb). by eexists.
Qed.

(** Nothing answers with a pair of tokens but to a service that is configured for
    that route and proved it with its secret. *)
Lemma pairs_need_client s r req ctx w :
  r ∈ BindRouters s -> ro_Handler r ∈ pair_handlers ->
  (∃ resp w', ∀ handler, serve appName cfg sec r handler req ctx w = (resp, w')) ∨
  ∃ c1 w1 client, (∀ handler, serve appName cfg sec r handler req ctx w = handler c1 ctx w1) ∧
    go_lookup s2s (rq_Header req XS2STokenAppNameHeader) = Some client ∧ route_path r ∈ s2_AvailableAPI client ∧
    rq_Header req XS2STokenHeader = s2_Secret client ∧ s2_Secret client ≠ ""%string.
Proof.
  intros Hok%routes_ok Ho. unfold route_ok in Hok. apply andb_prop in Hok as [_ Hs2s].
  destruct (serve_gate appName cfg sec r req ctx w) as [?|(c1 & w1 & Hrun & Hp)]; [by left|right].
  rewrite bool_decide_eq_true_2 in Hs2s by done. apply bool_decide_eq_true_1 in Hs2s.
  destruct (passed_all_elem _ _ _ _ _ _ _ Hs2s Hp) as (c2 & w2 & c3 & w3 & (_ & _ & name & client & <- & _ & Hl & Hpath & Ht & Hn) & (_ & Hh & _ & Hpt) & _).
  rewrite Hh in Hl, Ht. rewrite Hpt in Hpath. by exists c1, w1, client.
Qed.
End promises.

(** ** An instance *)

Definition ex_echo : Echo bool := {|
  RateLimiterWithConfig := fun store key next c ctx w =>
    match store (key c).1 background w with
    | (Ok true, w1) => next (key c).2 ctx w1
    | (_, w1) => (Ok (JSON StatusTooManyRequests (NewErrorResponse "rate limit exceeded" (Fixed ""))), w1)
    end;
  BodyLimit := fun _ next => next;
  echo_chain := fun groups own h => foldr (fun m next => m next) h (mjoin groups ++ own);
  echo_path := fun prefixes path => String.concat "" (prefixes ++ [path]) |}.
Lemma ex_echo_spec : @EchoSpec bool ex_echo.
Proof.
  split; [|intros n c ctx w; right; exists c, w; split_and!; [done..|by exists (rq_Body (cx_Request c)); destruct c as [[]]]|done].
  intros store key c ctx w. unfold answers, passes. simpl. destruct (store (key c).1 background w) as [[[]| |] w1];
    [right; by exists (key c).2, w1|left; by eexists _, _..].
Qed.
Definition ex_rates : Rates := {|
  Limit := Z; PerMinute := id; PerSecond := id; limit_Rate := id; limit_Burst := id; rate_Allow := fun _ _ _ n => inl n;
  memory_Allow := fun _ _ _ => inl true |}.
Definition ex_runes : Runes := {| runes := fun s => (fun c => (N_of_ascii c, String c "")) <$> bytes s; unicode_IsSpace := N.eqb 32; unicode_Cf := fun _ => false |}.
Definition ex_unicode : Unicode := {| unicode_ToLower := strings_ToLower; unicode_EqualFold := String.eqb |}.
Definition ex_text : JsonText := {| json_text := fun _ => RawBad |}.
Definition ex_access : AccessVerifier := {|
  av_ParseWithClaims := fun n token => @jwt_ParseWithClaims ex_jwt n "maintmode" token; av_KeyReadAll := fun _ => inl 1%nat;
  jwkset_ErrKeyNotFound := EOther "key not found" |}.
Definition ex_policy : Enforcer := {| Enforce := fun _ role _ => inl (String.eqb role RoleEditor) |}.
Definition ex_unlicensed : LicenseCache := {| cached_license := fun _ => None |}.
Lemma ex_same_claims : @SameClaims ex_jwt ex_access "maintmode".
Proof. split. intros n m token c1 c2 [= <-] [= <-]. done. Qed.
Definition ex_gate_world : World :=
  ex_session_world <| w_db := (w_db ex_session_world) <| users := [mkUserRow 11 "ann@example.com" "Ann" [RoleEditor] T0 None None None None] |> |>.
Definition ex_create : Route := mkRoute [("/api/v1", []); ("", [MwLicense]); ("/maintenances", [MwActiveUser])]%string
  MethodPost "/create" CreateDraftMaint [MwScenario AuthzScenarioMaintenanceCreate].
Definition ex_request : Request :=
  mkRequest MethodPost (fun name => if String.eqb name "Authorization" then "Bearer access" else "") (fun _ => "") "10.0.0.1" ([], None).
Definition ex_limits : HTTPServer := let l := mkLimiterConfig 0 0 0 0 in mkHTTPServer l l l l.
Definition ex_security : APIServerSecurity :=
  @newSecurity calm_env c_collation list_goque ex_sealer ex_draws ex_jwt ex_argon2 ex_flags ex_access ex_policy ex_unlicensed
    ex_jwt_cfg (Otp.NewService ex_otp_cfg) zeroTime [] false.
Definition ex_serve (handler : HandlerFunc bool) : outcome (Response bool) * World :=
  @serve bool ex_echo ex_rates ex_runes ex_unicode ex_text ex_ozzo ex_jwt "maintmode" ex_limits ex_security
    ex_create handler ex_request background ex_gate_world.

Lemma requests_guarded_witness : ∃ c1 w1 user, (∀ handler, ex_serve handler = handler c1 background w1) ∧ cx_User c1 = Some user ∧
  @policy_allows ex_policy user AuthzScenarioMaintenanceCreate.
Proof.
  destruct (@requests_guarded bool ex_echo ex_echo_spec calm_env ex_rates ex_runes ex_unicode ex_text ex_ozzo c_collation list_goque ex_sealer
    ex_draws ex_jwt ex_argon2 ex_flags ex_access ex_policy ex_unlicensed ex_jwt_cfg (Otp.NewService ex_otp_cfg) zeroTime [] false "maintmode"
    ex_limits ex_same_claims (mkServer true false) ex_create ex_request background ex_gate_world)
    as [(resp & w' & Ha)|(c1 & w1 & user & Hrun & _ & Hu & _ & Hpol & _)].
  - decide_now.
  - decide_now.
  - exfalso. pose proof (Ha (fun _ => mret (Answered true))) as H1. pose proof (Ha (fun _ => mret (Answered false))) as H2.
    vm_compute in H1, H2. congruence.
  - exists c1, w1, user. split; [exact Hrun|]. split; [exact Hu|]. apply Hpol. decide_now.
Defined.

(** A blocked user's change is refused before the handler, though the token still
    verifies; a read with the same token is served. *)
Definition ex_blocked_world : World :=
  ex_session_world <| w_db := (w_db ex_session_world) <| users := [mkUserRow 11 "ann@example.com" "Ann" [RoleEditor] T0 (Some T0) None None None] |> |>.
Example blocked_user_refused :
  fst (@serve bool ex_echo ex_rates ex_runes ex_unicode ex_text ex_ozzo ex_jwt "maintmode" ex_limits ex_security
    ex_create (fun _ => mret (Answered true)) ex_request background ex_blocked_world) =
  Ok (JSON StatusUnauthorized (NewErrorResponse CodeErrUnauthorized (TextOf ErrInvalidAccessToken))).
Proof. vm_compute. reflexivity. Qed.
