(* ===== verification/Mask.v ===== *)
(** * What the logs do not show (internal/utils/xsanitize,
      internal/server/middlewares/request_sanitizer.go)

    Headers, query parameters and JSON bodies are logged with the values of the
    credentials they carry replaced. *)
From Stdlib Require Import ZArith Lia Ascii String.
From stdpp Require Import base sets strings numbers list.
From S2P Require Import Prelude Go Entity Conflict AuditTrail Schema Json Middlewares.
Open Scope Z_scope.

Definition redacted : string := "[REDACTED]".

(** ** Headers *)

(** [http.CanonicalHeaderKey]: a name with a byte no header name has is left as
    it is. *)
Definition tchar (c : ascii) : bool :=
  let n := N_of_ascii c in
  ((48 <=? n)%N && (n <=? 57)%N) || ((65 <=? n)%N && (n <=? 90)%N) || ((97 <=? n)%N && (n <=? 122)%N) ||
  bool_decide (c ∈ bytes "!#$%&'*+-.^_`|~").
Fixpoint canonical_bytes (upper : bool) (s : list ascii) : list ascii :=
  match s with
  | [] => []
  | c :: s => (if upper then upper_byte c else lower_byte c) :: canonical_bytes (bool_decide (c = "-"%char)) s
  end.
Definition CanonicalHeaderKey (s : string) : string :=
  if forallb tchar (bytes s) then string_of_list_ascii (canonical_bytes true (bytes s)) else s.

Definition sensitiveHeaders : list string :=
  CanonicalHeaderKey <$> ["Authorization"; "Proxy-Authorization"; "Cookie"; "Set-Cookie"; "WWW-Authenticate"; "Proxy-Authenticate"; "X-S2S-TOKEN"]%string.
(** A map: its pairs in the order it is walked. *)
Definition set_header (k : string) (v : list string) (h : list (string * list string)) : list (string * list string) :=
  (k, v) :: List.filter (fun f => negb (String.eqb f.1 k)) h.
Definition SanitizeHeaders (h : list (string * list string)) : list (string * list string) :=
  foldl (fun out f =>
    let canonical := CanonicalHeaderKey f.1 in
    set_header canonical (if bool_decide (canonical ∈ sensitiveHeaders) then [redacted] else f.2) out) [] h.

(** ** Addresses *)

(** net/url, as far as it is used. *)
Class URLText := {
  URL : Type;
  url_parse : string -> URL + error;
  url_hasUser : URL -> bool;
  url_noUser : URL -> URL;
  url_RawQuery : URL -> string;
  url_withQuery : string -> URL -> URL;
  url_String : URL -> string;
  (** what was read up to an error, and the error *)
  url_ParseQuery : string -> list (string * list string) * option error;
  url_Encode : list (string * list string) -> string }.

Definition sensitiveQueryParams : list string :=
  ["code"; "state"; "id_token"; "code_verifier"; "invitation"; "token"; "link"; "link_code"]%string.
Definition sensitiveBodyFields : list string :=
  ["access_token"; "refresh_token"; "id_token"; "code"; "password"; "session_nonce"; "client_secret"; "bot_token"; "invitation_token";
   "current_password"; "new_password"; "link_url"; "link_code"; "binding_proof"]%string.
Definition sensitive_param (name : string) : bool := bool_decide (strings_ToLower name ∈ sensitiveQueryParams).
Definition sensitive_field (name : string) : bool := bool_decide (strings_ToLower name ∈ sensitiveBodyFields).

Definition mask_query (q : list (string * list string)) : list (string * list string) :=
  (fun f => if sensitive_param f.1 then (f.1, [redacted]) else f) <$> q.

Section addresses.
Context `{URLText}.

(** xsanitize *)
Definition base_SanitizeURL (rawURL : string) : string :=
  if String.eqb rawURL "" then ""
  else match url_parse rawURL with
       | inr _ => redacted
       | inl u => if url_hasUser u then url_String (url_noUser u) else rawURL
       end.
Definition has_query (s : string) : bool := bool_decide ("?"%char ∈ bytes s).
Definition SanitizeURL (rawURL : string) : string :=
  let base := base_SanitizeURL rawURL in
  if String.eqb base redacted || negb (has_query base) then base
  else match url_parse base with
       | inr _ => redacted
       | inl u =>
           match url_ParseQuery (url_RawQuery u) with
           | (_, Some _) => url_String (url_withQuery redacted u)
           | (q, None) =>
               if negb (existsb (fun f => sensitive_param f.1) q) then base
               else url_String (url_withQuery (url_Encode (mask_query q)) u)
           end
       end.
End addresses.

(** ** Bodies *)

Fixpoint maskSensitive (node : json) : json * bool :=
  match node with
  | JObject fields =>
      let masked := (fun f => if sensitive_field f.1 then ((f.1, JString redacted), true)
                              else ((f.1, (maskSensitive f.2).1), (maskSensitive f.2).2)) <$> fields in
      (JObject (fst <$> masked), existsb snd masked)
  | JArray l => let masked := maskSensitive <$> l in (JArray (fst <$> masked), existsb snd masked)
  | _ => (node, false)
  end.

Section bodies.
Context `{JsonText}.

(** Decoded into an [any]: of equal keys the last one is kept. *)
Definition SanitizeBody (b : list ascii) : list ascii :=
  if Nat.eqb (length b) 0 then b
  else match json_text b with
       | RawText j =>
           let '(decoded, masked) := maskSensitive (through_any j) in
           if negb masked then b else marshal decoded
       | _ => b
       end.
End bodies.

(** ** Nothing under a sensitive name is shown *)

(** Induction through what is in arrays and in objects. *)
Lemma json_under_ind (P : json -> Prop) :
  P JNull -> (∀ b, P (JBool b)) -> (∀ t, P (JNumber t)) -> (∀ s, P (JString s)) ->
  (∀ l, (∀ j, j ∈ l -> P j) -> P (JArray l)) -> (∀ fs, (∀ k j, (k, j) ∈ fs -> P j) -> P (JObject fs)) -> ∀ j, P j.
Proof.
  intros Hn Hb Ht Hs Ha Ho. apply json_nested_ind; [done..| |]; intros l; rewrite Forall_forall; [apply Ha|].
  intros Hl. apply Ho. intros k j. apply (Hl (k, j)).
Qed.

(** A value somewhere inside another one, and the name it has there. *)
Inductive under : json -> string -> json -> Prop :=
  | under_field fs k v : (k, v) ∈ fs -> under (JObject fs) k v
  | under_object fs k' v' k v : (k', v') ∈ fs -> under v' k v -> under (JObject fs) k v
  | under_array l v' k v : v' ∈ l -> under v' k v -> under (JArray l) k v.
(** ... reached through no sensitive name. *)
Inductive shown : json -> string -> json -> Prop :=
  | shown_field fs k v : (k, v) ∈ fs -> sensitive_field k = false -> shown (JObject fs) k v
  | shown_object fs k' v' k v : (k', v') ∈ fs -> sensitive_field k' = false -> shown v' k v -> shown (JObject fs) k v
  | shown_array l v' k v : v' ∈ l -> shown v' k v -> shown (JArray l) k v.

Definition mask_field (f : string * json) : string * json :=
  (f.1, if sensitive_field f.1 then JString redacted else (maskSensitive f.2).1).
Lemma mask_object fs : (maskSensitive (JObject fs)).1 = JObject (mask_field <$> fs).
Proof.
  cbn [maskSensitive fst]. f_equal. rewrite <- list_fmap_compose. apply list_fmap_ext. intros i f _. unfold mask_field. simpl.
  by destruct (sensitive_field f.1).
Qed.
Lemma mask_array l : (maskSensitive (JArray l)).1 = JArray (fst ∘ maskSensitive <$> l).
Proof. cbn [maskSensitive fst]. f_equal. by rewrite <- list_fmap_compose. Qed.

Lemma mask_hides j k v : under (maskSensitive j).1 k v -> sensitive_field k = true -> v = JString redacted.
Proof.
  revert k v. induction j as [| | | |l IH|fs IH] using json_under_ind; intros k v; [by inversion 1..| |].
  - rewrite mask_array. intros Hu Hk. inversion Hu as [| |? v' ? ? Hin Hv]; subst.
    apply list_elem_of_fmap in Hin as (x & -> & Hx). by apply (IH x Hx k).
  - rewrite mask_object. intros Hu Hk. inversion Hu as [? ? ? Hin|? k' v' ? ? Hin Hv|]; subst;
      apply list_elem_of_fmap in Hin as ([k0 x] & [= -> ->] & Hx); simpl in *; [by rewrite Hk|].
    destruct (sensitive_field k0); [by inversion Hv|]. by apply (IH k0 x Hx k).
Qed.

Lemma mask_shows j k v : shown j k v -> shown (maskSensitive j).1 k (maskSensitive v).1.
Proof.
  induction 1 as [fs k v Hin Hk|fs k' v' k v Hin Hk _ IH|l v' k v Hin _ IH]; rewrite ?mask_object, ?mask_array.
  - apply shown_field; [|done]. apply list_elem_of_fmap. exists (k, v). unfold mask_field. simpl. by rewrite Hk.
  - apply (shown_object _ k' (maskSensitive v').1); [|done|done]. apply list_elem_of_fmap. exists (k', v'). unfold mask_field. simpl. by rewrite Hk.
  - apply (shown_array _ (maskSensitive v').1); [|done]. apply list_elem_of_fmap. by exists v'.
Qed.

Lemma mask_untouched j : (maskSensitive j).2 = false -> (maskSensitive j).1 = j ∧ ∀ k v, under j k v -> sensitive_field k = false.
Proof.
  induction j as [| | | |l IH|fs IH] using json_under_ind; [split; [done|by inversion 1]..| |].
  - intros Hm. cbn [maskSensitive snd] in Hm.
    assert (∀ x, x ∈ l -> (maskSensitive x).2 = false) as Hall.
    { intros x Hx. apply not_true_is_false. intros Ht. rewrite <- not_true_iff_false in Hm. apply Hm, existsb_exists.
      exists (maskSensitive x). by rewrite <- list_elem_of_In; split; [apply list_elem_of_fmap_2|]. }
    split.
    + rewrite mask_array. f_equal. rewrite <- (list_fmap_id l) at 2. apply list_fmap_ext. intros i x Hx. apply list_elem_of_lookup_2 in Hx.
      by apply IH; [|apply Hall].
    + intros k v Hu. inversion Hu as [| |? v' ? ? Hin Hv]; subst. by apply (IH v' Hin (Hall v' Hin)) in Hv.
  - intros Hm. cbn [maskSensitive snd] in Hm.
    assert (∀ k x, (k, x) ∈ fs -> sensitive_field k = false ∧ (maskSensitive x).2 = false) as Hall.
    { intros k x Hx. rewrite <- !not_true_iff_false. rewrite <- not_true_iff_false in Hm. split; intros Ht; apply Hm, existsb_exists;
        (eexists; split; [apply list_elem_of_In, list_elem_of_fmap_2, Hx|simpl]); [by rewrite Ht|].
      by destruct (sensitive_field k). }
    split.
    + rewrite mask_object. f_equal. rewrite <- (list_fmap_id fs) at 2. apply list_fmap_ext. intros i [k x] Hx. apply list_elem_of_lookup_2 in Hx.
      unfold mask_field. simpl. destruct (Hall k x Hx) as [-> Hx2]. by rewrite (proj1 (IH k x Hx Hx2)).
    + intros k v Hu. inversion Hu as [? ? ? Hin|? k' v' ? ? Hin Hv|]; subst; [by apply Hall in Hin as [? _]|].
      destruct (Hall k' v' Hin) as [_ Hx2]. by apply (IH k' v' Hin Hx2) in Hv.
Qed.

(** A body is logged as it came, when it is no JSON or has no field with a
    sensitive name; else with every value under such a name replaced, wherever it
    is, and with everything that is under none of them. *)
Theorem logged_body_masked `{JsonText} b :
  SanitizeBody b = b ∧ (∀ j k v, json_text b = RawText j -> b ≠ [] -> under (through_any j) k v -> sensitive_field k = false) ∨
  ∃ j shownj, json_text b = RawText j ∧ SanitizeBody b = marshal shownj ∧
    (∀ k v, under shownj k v -> sensitive_field k = true -> v = JString redacted) ∧
    (∀ k v, shown (through_any j) k v -> shown shownj k (maskSensitive v).1).
Proof.
  unfold SanitizeBody. destruct b as [|c b]; [by left|]. simpl Nat.eqb. cbv iota.
  destruct (json_text (c :: b)) as [| |j] eqn:Ej; [left; by split..|].
  pose proof (mask_untouched (through_any j)) as Hu. pose proof (mask_hides (through_any j)) as Hh. pose proof (mask_shows (through_any j)) as Hs.
  destruct (maskSensitive (through_any j)) as [decoded []]; simpl in *.
  - right. by exists j, decoded.
  - left. split; [done|]. intros j' k v [= <-] _. by apply Hu.
Qed.

(** A header under a sensitive name, however it is spelled, is never shown; what
    is shown was sent under that name. *)
Theorem logged_headers_masked h k v : (k, v) ∈ SanitizeHeaders h ->
  (k ∈ sensitiveHeaders ∧ v = [redacted]) ∨ (k ∉ sensitiveHeaders ∧ ∃ name, (name, v) ∈ h ∧ CanonicalHeaderKey name = k).
Proof.
  unfold SanitizeHeaders. set (P := fun (h' : list (string * list string)) (f : string * list string) =>
    (f.1 ∈ sensitiveHeaders ∧ f.2 = [redacted]) ∨ (f.1 ∉ sensitiveHeaders ∧ ∃ name, (name, f.2) ∈ h' ∧ CanonicalHeaderKey name = f.1)).
  change (_ ∨ _) with (P h (k, v)).
  assert (∀ out, (∀ f, f ∈ out -> P h f) -> ∀ l, l ⊆ h -> ∀ f, f ∈ foldl (fun out f => set_header (CanonicalHeaderKey f.1)
    (if bool_decide (CanonicalHeaderKey f.1 ∈ sensitiveHeaders) then [redacted] else f.2) out) out l -> P h f) as Hl.
  { intros out Hout l. revert out Hout. induction l as [|[name vals] l IH]; intros out Hout Hsub f; simpl; [apply Hout|].
    apply IH; [|set_solver]. intros f' [->|Hin]%elem_of_cons; [|apply list_elem_of_In, filter_In in Hin as [Hin _]; by apply Hout, list_elem_of_In].
    unfold P. simpl. case_bool_decide; [by left|right]. split; [done|]. exists name. set_solver. }
  apply (Hl []); [set_solver|done].
Qed.

(** A key twice: the decoder keeps the second, so the secret under the first is
    not found, and the text is logged as it came. *)
Example duplicate_key_escapes : ∀ text j, let body := JObject [("data", JObject [("password", JString "secret")]); ("data", JNull)]%string in
  j = body -> under body "password" (JString "secret") ∧ @SanitizeBody {| json_text := fun _ => RawText j |} ("x"%char :: text) = ("x"%char :: text).
Proof.
  intros text j body ->. split; [|vm_compute; reflexivity].
  apply (under_object _ "data"%string (JObject [("password", JString "secret")])%string); [set_solver|]. apply under_field. set_solver.
Qed.
Example spelled_otherwise :
  SanitizeHeaders [("authorization", ["Bearer x"]); ("X-s2s-token", ["s"]); ("Accept", ["text/html"])]%string =
  [("Accept", ["text/html"]); ("X-S2s-Token", [redacted]); ("Authorization", [redacted])]%string.
Proof. vm_compute. reflexivity. Qed.

(** An address is logged without the values of the sensitive parameters: as it is
    when it has none, with them replaced, or not at all when it cannot be read. *)
Lemma logged_url_masked `{URLText} rawURL :
  let base := base_SanitizeURL rawURL in
  let logged := SanitizeURL rawURL in
  logged = redacted ∨
  (logged = base ∧ (has_query base = false ∨ ∃ u q, url_parse base = inl u ∧ url_ParseQuery (url_RawQuery u) = (q, None) ∧
     ∀ name values, (name, values) ∈ q -> sensitive_param name = false)) ∨
  ∃ u query, url_parse base = inl u ∧ logged = url_String (url_withQuery query u) ∧
    (query = redacted ∨ ∃ q, query = url_Encode q ∧ ∀ name values, (name, values) ∈ q -> sensitive_param name = true -> values = [redacted]).
Proof.
  intros base logged. unfold logged, SanitizeURL. fold base.
  destruct (String.eqb_spec base redacted) as [->|]; [by left|]. destruct (has_query base) eqn:Eq; [|by right; left; split; [|left]]. simpl.
  destruct (url_parse base) as [u|] eqn:Eu; [right|by left]. destruct (url_ParseQuery (url_RawQuery u)) as [q [err|]] eqn:Ep.
  - right. exists u, redacted. by split_and!; [| |left].
  - destruct (existsb _ q) eqn:Ex; simpl; [right; exists u, (url_Encode (mask_query q)); split_and!; [done..|right]|left].
    + exists (mask_query q). split; [done|]. intros name values Hin Hn. apply list_elem_of_fmap in Hin as ([k v] & E & _). simpl in E.
      destruct (sensitive_param k) eqn:Ek; injection E as -> ->; [done|congruence].
    + split; [done|]. right. exists u, q. split_and!; [done..|]. intros name values Hin. apply not_true_is_false. intros Hn.
      rewrite <- not_true_iff_false in Ex. apply Ex, existsb_exists. exists (name, values). by rewrite <- list_elem_of_In.
Qed.
