(* ===== verification/Lifecycle.v ===== *)
(** * The maintenance lifecycle, abstractly

    A state machine over the three tables that carry a maintenance's state (its
    row, its steps and its resource links), one constructor per kind of change
    the service promises to make and nothing else; its invariant, and what it
    does to the status of a maintenance.  Refine.v shows that the service
    implements it. *)
From Stdlib Require Import ZArith Lia Ascii String.
From stdpp Require Import base sorting sets strings numbers list relations.
From S2P Require Import Prelude Go Entity Conflict AuditTrail Schema Logic MaintStore Fixtures ConflictStore MaintService.
Open Scope Z_scope.

(** ** States *)

Record Core := mkCore {
  c_maints : list MaintRow; c_steps : list StepRow; c_links : list MaintResourceRow }.
Definition core (db : DB) : Core :=
  mkCore (maintenances db) (maintenance_steps db) (maintenance_resources db).

Definition row_of (id : UUID) (c : Core) : option MaintRow := List.find (fun r => N.eqb (mr_ID r) id) (c_maints c).
Definition steps_of (id : UUID) (c : Core) : list StepRow :=
  sort_by step_order_cmp (filter (fun r => sr_MaintenanceID r = id) (c_steps c)).

Definition set_row (row : MaintRow) (l : list MaintRow) : list MaintRow :=
  (fun r => if N.eqb (mr_ID r) (mr_ID row) then row else r) <$> l.
(** The row an entity is stored as. *)
Definition stored (m : Maintenance) : MaintRow := pg_maint_row (toDBMaintenance m).

Definition unique_steps (l : list StepRow) : Prop :=
  NoDup (sr_ID <$> l) ∧ NoDup ((fun r => (sr_MaintenanceID r, sr_StepOrder r)) <$> l).
Definition new_steps (id : UUID) (l : list StepRow) : Prop :=
  Forall (fun r => sr_MaintenanceID r = id ∧ sr_Status r = MaintenanceStepStatusPlanned) l.
Definition links_of (id : UUID) (l : list MaintResourceRow) : Prop := Forall (fun r => mrr_MaintenanceID r = id) l.

(** ** Moves of one maintenance row; [steps] are its steps *)

Inductive move (steps : list StepRow) (m : Maintenance) : Maintenance -> Prop :=
  | move_approve rs : Status m = MaintenanceStatusDraft ->
      move steps m (m <| Resources := rs |> <| Status := MaintenanceStatusPlanned |>)
  | move_start now : Status m = MaintenanceStatusPlanned ->
      move steps m (m <| ActualPeriod := Some (NewOpenEndedPeriod now) |> <| Status := MaintenanceStatusInProgress |>)
  | move_cancel now reason comment :
      Status m = MaintenanceStatusDraft ∨ Status m = MaintenanceStatusPlanned ∨ Status m = MaintenanceStatusInProgress ->
      move steps m ((CloseActualPeriod now m) <| Status := MaintenanceStatusCancelled |>
        <| CancelReason := reason |> <| CancelReasonComment := comment |>)
  | move_complete now : Status m = MaintenanceStatusInProgress ->
      Forall (fun s => MaintenanceStepStatus_IsTerminal (sr_Status s) = true) steps ->
      move steps m ((close_or_planned now m) <| Status := MaintenanceStatusCompleted |>).

(** ** Steps of the machine *)

Inductive lifecycle (c : Core) : Core -> Prop :=
  | L_create m steps links :
      Status m = MaintenanceStatusDraft -> ActualPeriod m = None ->
      check_maint_row (stored m) = None -> row_of (ID m) c = None ->
      new_steps (ID m) steps -> (unique_steps (c_steps c) -> unique_steps (c_steps c ++ steps)) ->
      links_of (ID m) links -> (Scope m = MaintenanceScopeGlobal -> links = []) ->
      lifecycle c (mkCore (c_maints c ++ [stored m]) (c_steps c ++ steps) (c_links c ++ links))
  | L_edit row m steps links :
      row_of (ID m) c = Some row -> mr_Status row = MaintenanceStatusDraft ->
      Status m = MaintenanceStatusDraft -> ActualPeriod m = FromPgRange <$> mr_ActualPeriod row ->
      check_maint_row (stored m) = None ->
      (steps = c_steps c ∨ ∃ new, new_steps (ID m) new ∧ (unique_steps (c_steps c) -> unique_steps steps) ∧
         steps = filter (fun r => sr_MaintenanceID r ≠ ID m) (c_steps c) ++ new) ->
      (links = c_links c ∧ (Scope m = MaintenanceScopeGlobal -> mr_Scope row = MaintenanceScopeGlobal) ∨
       ∃ new, links_of (ID m) new ∧ (Scope m = MaintenanceScopeGlobal -> new = []) ∧
         links = filter (fun r => mrr_MaintenanceID r ≠ ID m) (c_links c) ++ new) ->
      lifecycle c (mkCore (set_row (stored m) (c_maints c)) steps links)
  | L_move row m updated :
      row_of (mr_ID row) c = Some row ->
      move (steps_of (mr_ID row) c) (fromDBMaintenance row) m ->
      check_maint_row (stored (m <| UpdatedAt := updated |>)) = None ->
      lifecycle c (mkCore (set_row (stored (m <| UpdatedAt := updated |>)) (c_maints c)) (c_steps c) (c_links c))
  | L_step row sid status step started completed updated :
      let id := mr_ID row in
      let m := fromDBMaintenance row in
      let step' := step <| st_ActualStartedAt := started |> <| st_ActualCompletedAt := completed |>
                        <| st_Status := status |> in
      let srow := (pg_step_row (toDBMaintenanceStep id step')) <| sr_ID := sid |> in
      row_of id c = Some row -> mr_Status row = MaintenanceStatusInProgress ->
      canChangeStepStatusTo (fromDBMaintenanceStep <$> steps_of id c) sid status = inl step ->
      check_maint_row (stored (m <| UpdatedAt := updated |>)) = None ->
      lifecycle c (mkCore (set_row (stored (m <| UpdatedAt := updated |>)) (c_maints c))
        ((fun r => if step_target id sid r then srow else r) <$> c_steps c) (c_links c)).

(** ** The invariant *)

Definition closed_range (r : Tstzrange) : Prop :=
  plain_range r ∧ tz_Status (r_Upper r) = pgPresent ∧ tz_Time (r_Lower r) < tz_Time (r_Upper r).
Definition open_range (r : Tstzrange) : Prop := plain_range r ∧ tz_Status (r_Upper r) ≠ pgPresent.

(** What the status of a row says about its actual period. *)
Definition actual_ok (r : MaintRow) : Prop :=
  ((mr_Status r = MaintenanceStatusDraft ∨ mr_Status r = MaintenanceStatusPlanned) ∧ mr_ActualPeriod r = None) ∨
  (mr_Status r = MaintenanceStatusInProgress ∧ ∃ p, mr_ActualPeriod r = Some p ∧ open_range p) ∨
  ((mr_Status r = MaintenanceStatusCompleted ∨ mr_Status r = MaintenanceStatusCancelled) ∧
   ∀ p, mr_ActualPeriod r = Some p -> closed_range p).

(** What it says about its steps: none begun before the start, all finished at
    completion; and at every moment a step that has begun has only finished
    steps before it. *)
Definition steps_ok (c : Core) (r : MaintRow) : Prop :=
  let mine s := s ∈ c_steps c ∧ sr_MaintenanceID s = mr_ID r in
  ((mr_Status r = MaintenanceStatusDraft ∨ mr_Status r = MaintenanceStatusPlanned) ->
    ∀ s, mine s -> sr_Status s = MaintenanceStepStatusPlanned) ∧
  (mr_Status r = MaintenanceStatusCompleted -> ∀ s, mine s -> MaintenanceStepStatus_IsTerminal (sr_Status s) = true) ∧
  (∀ s1 s2, mine s1 -> mine s2 -> sr_StepOrder s1 < sr_StepOrder s2 ->
    sr_Status s2 ≠ MaintenanceStepStatusPlanned -> MaintenanceStepStatus_IsTerminal (sr_Status s1) = true).

Record row_ok (c : Core) (r : MaintRow) : Prop := mkRowOk {
  ok_whole : pg_maint_row r = r;
  ok_planned : planned_ok r;
  ok_actual : actual_ok r;
  ok_steps : steps_ok c r;
  ok_scope : mr_Scope r = MaintenanceScopeGlobal -> ∀ l, l ∈ c_links c -> mrr_MaintenanceID l ≠ mr_ID r }.

Record core_ok (c : Core) : Prop := mkCoreOk {
  ok_ids : NoDup (mr_ID <$> c_maints c);
  ok_unique : unique_steps (c_steps c);
  ok_step_refs : ∀ s, s ∈ c_steps c -> is_Some (row_of (sr_MaintenanceID s) c);
  ok_link_refs : ∀ l, l ∈ c_links c -> is_Some (row_of (mrr_MaintenanceID l) c);
  ok_rows : Forall (row_ok c) (c_maints c) }.

(** ** Lemmas on rows *)

Lemma row_of_Some id c r : row_of id c = Some r -> r ∈ c_maints c ∧ mr_ID r = id.
Proof. intros [Hin ?%N.eqb_eq]%find_some. by rewrite list_elem_of_In. Qed.

Lemma row_of_elem id c : is_Some (row_of id c) ↔ id ∈ mr_ID <$> c_maints c.
Proof.
  rewrite list_elem_of_fmap. split.
  - intros [r Hr]. apply row_of_Some in Hr as [? <-]. eauto.
  - intros (r & -> & Hr). unfold row_of. destruct (List.find _ _) eqn:E; [eauto|].
    apply list_elem_of_In in Hr. apply (find_none _ _ E) in Hr. by rewrite N.eqb_refl in Hr.
Qed.

Lemma set_row_ids row l : mr_ID <$> set_row row l = mr_ID <$> l.
Proof.
  unfold set_row. rewrite <- list_fmap_compose. apply list_fmap_ext. intros i r _. simpl.
  by destruct (N.eqb_spec (mr_ID r) (mr_ID row)).
Qed.

Lemma elem_of_set_row row l r : r ∈ set_row row l -> r = row ∨ r ∈ l ∧ mr_ID r ≠ mr_ID row.
Proof.
  intros (r' & -> & Hr)%list_elem_of_fmap. destruct (N.eqb_spec (mr_ID r') (mr_ID row)); [by left|by right].
Qed.

Lemma row_of_set_row id row c steps links :
  row_of id (mkCore (set_row row (c_maints c)) steps links) =
    if N.eqb id (mr_ID row) then const row <$> row_of id c else row_of id c.
Proof.
  unfold row_of. simpl. induction (c_maints c) as [|r l IH]; simpl; [by destruct (N.eqb id _)|].
  destruct (N.eqb_spec (mr_ID r) (mr_ID row)) as [Er|Er], (N.eqb_spec id (mr_ID row)) as [Ei|Ei].
  - subst id. by rewrite Er, N.eqb_refl.
  - rewrite Er. by destruct (N.eqb_spec (mr_ID row) id); [congruence|].
  - subst id. by destruct (N.eqb_spec (mr_ID r) (mr_ID row)); [congruence|].
  - by destruct (N.eqb (mr_ID r) id).
Qed.

(** A stored row holds times as the server rounds them. *)
Lemma pg_range_idem r : pg_range (pg_range r) = pg_range r.
Proof. unfold pg_range, pg_tstz. simpl. by rewrite !pg_ts_idem. Qed.
Lemma pg_maint_row_idem r : pg_maint_row (pg_maint_row r) = pg_maint_row r.
Proof.
  destruct r as [id ti de pl ac im st sc rc cm cr up ap cb tu].
  change (mkMaintRow id ti de (pg_range (pg_range pl)) (pg_range <$> (pg_range <$> ac)) im st sc rc cm
            (pg_ts (pg_ts cr)) (pg_ts <$> (pg_ts <$> up)) ap cb tu =
          mkMaintRow id ti de (pg_range pl) (pg_range <$> ac) im st sc rc cm (pg_ts cr) (pg_ts <$> up) ap cb tu).
  rewrite pg_range_idem, pg_ts_idem. f_equal.
  - destruct ac; simpl; by rewrite ?pg_range_idem.
  - destruct up; simpl; by rewrite ?pg_ts_idem.
Qed.
Lemma stored_whole m : pg_maint_row (stored m) = stored m.
Proof. apply pg_maint_row_idem. Qed.

Lemma planned_of_check m : check_maint_row (stored m) = None -> planned_ok (stored m).
Proof.
  unfold check_maint_row, planned_ok. intros E. split; [apply plain_pg_range|].
  destruct (check_range false _) eqn:Ec; [done|]. unfold check_range in Ec.
  destruct (tz_Status (r_Upper (mr_PlannedPeriod (stored m)))) eqn:Eu; [done..|]. split; [done|].
  destruct (Z.ltb_spec (tz_Time (r_Upper (mr_PlannedPeriod (stored m)))) (tz_Time (r_Lower (mr_PlannedPeriod (stored m)))));
    [done|].
  destruct (Z.eqb_spec (tz_Time (r_Upper (mr_PlannedPeriod (stored m)))) (tz_Time (r_Lower (mr_PlannedPeriod (stored m)))));
    [done|]. lia.
Qed.

Lemma actual_of_check m p :
  check_maint_row (stored m) = None -> ActualPeriod m = Some p ->
  match End_ p with
  | None => open_range (pg_range (ToPgRange p))
  | Some _ => closed_range (pg_range (ToPgRange p))
  end.
Proof.
  unfold check_maint_row. intros E Hp. destruct (check_range false _); [done|]. simpl in E. rewrite Hp in E. simpl in E.
  destruct p as [st [e|]]; simpl in *; [|by split].
  split; [done|]. split; [done|]. unfold check_range in E. simpl in *.
  destruct (Z.ltb_spec (pg_ts e) (pg_ts st)); [done|]. destruct (Z.eqb_spec (pg_ts e) (pg_ts st)); [done|]. lia.
Qed.

(** The invariant of a row only reads the steps and links that name it. *)
Lemma row_ok_mono c c' r :
  (∀ s, s ∈ c_steps c' -> sr_MaintenanceID s = mr_ID r -> s ∈ c_steps c) ->
  (∀ l, l ∈ c_links c' -> mrr_MaintenanceID l = mr_ID r -> l ∈ c_links c) ->
  row_ok c r -> row_ok c' r.
Proof.
  intros Hs Hl [Hw Hp Ha (H1 & H2 & H3) Hsc]. split; [done|done|done| |].
  - split_and!; [naive_solver..|]. intros s1 s2 [] [] ??. eapply H3; naive_solver.
  - intros Hg l Hin Heq. eapply Hsc; eauto.
Qed.

(** Replacing one row: the others keep their invariant, the new one needs its own. *)
Lemma core_ok_set_row c row steps links :
  core_ok c -> is_Some (row_of (mr_ID row) c) ->
  unique_steps steps ->
  (∀ s, s ∈ steps -> sr_MaintenanceID s = mr_ID row ∨ s ∈ c_steps c) ->
  (∀ l, l ∈ links -> mrr_MaintenanceID l = mr_ID row ∨ l ∈ c_links c) ->
  row_ok (mkCore (set_row row (c_maints c)) steps links) row ->
  core_ok (mkCore (set_row row (c_maints c)) steps links).
Proof.
  intros [Hids Hu Hsr Hlr Hrows] Hrow Hu' Hs Hl Hok.
  assert (∀ id, is_Some (row_of id c) -> is_Some (row_of id (mkCore (set_row row (c_maints c)) steps links))) as Hkeep.
  { intros id. rewrite !row_of_elem. simpl. by rewrite set_row_ids. }
  split; simpl.
  - by rewrite set_row_ids.
  - done.
  - intros s [->|Hin]%Hs; apply Hkeep; [done|]. by apply Hsr.
  - intros l [->|Hin]%Hl; apply Hkeep; [done|]. by apply Hlr.
  - apply Forall_forall. intros r [->|[Hr Hne]]%elem_of_set_row; [done|].
    rewrite Forall_forall in Hrows. eapply row_ok_mono; [| |by apply Hrows]; simpl.
    + intros s [?|?]%Hs ?; congruence || done.
    + intros l [?|?]%Hl ?; congruence || done.
Qed.

(** ** The step order *)

#[export] Instance step_order_order : CmpOrder step_order_cmp.
Proof. apply (cmp_on_order sr_StepOrder), _. Qed.
#[export] Instance st_order_order : CmpOrder (fun s1 s2 => Z.compare (st_Order s1) (st_Order s2)).
Proof. apply (cmp_on_order st_Order), _. Qed.

Lemma canChange_spec steps sid status step :
  NoDup (st_Order <$> steps) ->
  canChangeStepStatusTo steps sid status = inl step ->
  step ∈ steps ∧ st_ID step = sid ∧ CanMainStepTransition (st_Status step) status = true ∧
  ∀ s, s ∈ steps -> st_Order s < st_Order step ->
    ∃ prev, prev ∈ steps ∧ MaintenanceStepStatus_IsTerminal (st_Status prev) = true ∧
      st_Order s <= st_Order prev < st_Order step.
Proof.
  intros Hnd. unfold canChangeStepStatusTo. set (cmp := fun s1 s2 => _). set (l := sort_by cmp steps).
  assert (Permutation l steps) as Hperm by apply sort_by_Permutation.
  assert (∀ i j x y, (i < j)%nat -> l !! i = Some x -> l !! j = Some y -> st_Order x < st_Order y) as Hlt.
  { intros i j x y Hij Hx Hy.
    pose proof (StronglySorted_lookup_lt _ _ (sort_by_sorted cmp steps) i j x y Hij Hx Hy) as Hle.
    unfold cmp_le, cmp in Hle. rewrite Z.compare_gt_iff in Hle.
    assert (st_Order x ≠ st_Order y); [|lia]. intros Heq. assert (i = j); [|lia].
    rewrite <- Hperm in Hnd.
    apply (NoDup_lookup _ i j (st_Order x) Hnd); rewrite list_lookup_fmap; fold l; [by rewrite Hx|by rewrite Hy, Heq]. }
  destruct (find_index _ l) as [[st k]|] eqn:Ef; [|done]. apply find_index_Some in Ef as (Hk & Hid%N.eqb_eq & _).
  destruct (match k with O => _ | S _ => _ end) eqn:Eprev; [done|].
  destruct (CanMainStepTransition (st_Status st) status) eqn:Et; [|done]. simpl. intros [= <-].
  split_and!; [rewrite <- Hperm; by eapply list_elem_of_lookup_2|done..|].
  intros s Hs Hord. rewrite <- Hperm in Hs. apply list_elem_of_lookup in Hs as [i Hi].
  assert (i < k)%nat as Hik.
  { destruct (Nat.lt_trichotomy i k) as [|[->|]]; [done|simplify_eq; lia|].
    pose proof (Hlt k i st s ltac:(lia) Hk Hi). lia. }
  destruct k as [|k]; [lia|]. destruct (l !! k) as [prev|] eqn:Ep.
  2: { apply lookup_ge_None in Ep. apply lookup_lt_Some in Hk. lia. }
  exists prev. split_and!; [rewrite <- Hperm; by eapply list_elem_of_lookup_2| | |].
  - by apply negb_false_iff.
  - destruct (decide (i = k)) as [->|]; [simplify_eq; lia|]. pose proof (Hlt i k s prev ltac:(lia) Hi Ep). lia.
  - apply (Hlt k (S k)); [lia|done..].
Qed.

Lemma elem_of_steps_of id c s : s ∈ steps_of id c ↔ sr_MaintenanceID s = id ∧ s ∈ c_steps c.
Proof. unfold steps_of. by rewrite elem_of_sort_by, list_elem_of_filter. Qed.

Lemma steps_of_orders id c :
  unique_steps (c_steps c) -> NoDup (st_Order <$> (fromDBMaintenanceStep <$> steps_of id c)).
Proof.
  intros [_ Hnd]. rewrite <- list_fmap_compose. unfold steps_of. rewrite sort_by_Permutation.
  apply (NoDup_fmap_filter _ (fun r => sr_MaintenanceID r = id)) in Hnd.
  apply (NoDup_fmap_1 (pair id)). rewrite <- list_fmap_compose.
  erewrite list_fmap_ext; [exact Hnd|]. intros i r Hr. simpl.
  apply list_elem_of_lookup_2, list_elem_of_filter in Hr as [-> _]. done.
Qed.

(** ** Preservation *)

Lemma CloseActualPeriod_frame now m :
  ID (CloseActualPeriod now m) = ID m ∧ Scope (CloseActualPeriod now m) = Scope m ∧
  PlannedPeriod (CloseActualPeriod now m) = PlannedPeriod m.
Proof. unfold CloseActualPeriod. destruct (ActualPeriod m); [|done]. by destruct (negb _). Qed.

(** Closing leaves no period, or one with an end. *)
Lemma CloseActualPeriod_closed now m p :
  ActualPeriod (CloseActualPeriod now m) = Some p -> End_ p = Some now ∧ is_Some (ActualPeriod m).
Proof.
  unfold CloseActualPeriod. destruct (ActualPeriod m) eqn:E; [|congruence].
  destruct (negb _); simpl; [done|]. intros [= <-]. simpl. eauto.
Qed.

Lemma close_or_planned_Some now m :
  is_Some (ActualPeriod m) -> close_or_planned now m = CloseActualPeriod now m.
Proof. unfold close_or_planned. by intros [p ->]. Qed.

Lemma close_or_planned_frame now m :
  ID (close_or_planned now m) = ID m ∧ Scope (close_or_planned now m) = Scope m.
Proof.
  unfold close_or_planned. destruct (ActualPeriod m); [split; apply CloseActualPeriod_frame|].
  unfold CloseActualPeriod; simpl. by destruct (negb _).
Qed.

Lemma move_frame steps m m' : move steps m m' -> ID m' = ID m ∧ Scope m' = Scope m.
Proof.
  intros [rs Hs|now Hs|now reason comment Hs|now Hs Hst]; simpl; try done.
  - split; apply CloseActualPeriod_frame.
  - apply close_or_planned_frame.
Qed.

Lemma in_progress_actual r :
  actual_ok r -> is_Some (ActualPeriod (fromDBMaintenance r)) ∨ Status (fromDBMaintenance r) ≠ MaintenanceStatusInProgress.
Proof.
  intros [[[Hs|Hs] _]|[(_ & p & Hp & _)|[[Hs|Hs] _]]]; simpl;
    try (right; rewrite Hs; discriminate). left. rewrite Hp. by eexists.
Qed.

(** An ended period is stored as a closed range. *)
Lemma terminal_actual_ok m :
  check_maint_row (stored m) = None ->
  Status m = MaintenanceStatusCompleted ∨ Status m = MaintenanceStatusCancelled ->
  (∀ p, ActualPeriod m = Some p -> is_Some (End_ p)) -> actual_ok (stored m).
Proof.
  intros Hc Hs Hp. right; right. split; [done|]. intros r Hr. simpl in Hr.
  destruct (ActualPeriod m) as [p|] eqn:Ep; simplify_eq/=.
  pose proof (actual_of_check m p Hc Ep) as Hch. destruct (Hp p eq_refl) as [e He]. by rewrite He in Hch.
Qed.

Lemma move_actual_ok steps row m u :
  actual_ok row -> move steps (fromDBMaintenance row) m ->
  check_maint_row (stored (m <| UpdatedAt := u |>)) = None -> actual_ok (stored (m <| UpdatedAt := u |>)).
Proof.
  intros Hok Hm Hc. pose proof (in_progress_actual _ Hok) as Hip.
  destruct Hm as [rs Hs|now Hs|now reason comment Hs|now Hs Hst].
  - left. simpl in *. split; [by right|]. destruct Hok as [[_ ->]|[[Hs' _]|[Hs' _]]]; [done|..];
      exfalso; status_unfold; naive_solver congruence.
  - right; left. split; [done|]. eexists. split; [done|].
    apply (actual_of_check _ (NewOpenEndedPeriod now) Hc). done.
  - apply terminal_actual_ok; [done|by right|]. simpl. intros p [-> _]%CloseActualPeriod_closed. by eexists.
  - destruct Hip as [Hip|]; [|done]. rewrite close_or_planned_Some in * by done.
    apply terminal_actual_ok; [done|by left|]. simpl. intros p [-> _]%CloseActualPeriod_closed. by eexists.
Qed.

Lemma move_steps_ok c c' row m u :
  c_steps c' = c_steps c -> steps_ok c row -> ID m = mr_ID row ->
  move (steps_of (mr_ID row) c) (fromDBMaintenance row) m -> steps_ok c' (stored (m <| UpdatedAt := u |>)).
Proof.
  intros Hst (H1 & H2 & H3) Hid Hm. unfold steps_ok. simpl. rewrite Hst, Hid.
  split_and!; [| |exact H3]; destruct Hm as [rs Hs|now Hs|now reason comment Hs|now Hs Hfin]; simpl in *;
    try (status_unfold; naive_solver congruence).
  intros _ s [Hs1 Hs2]. rewrite Forall_forall in Hfin. apply Hfin. by apply elem_of_steps_of.
Qed.

Lemma lifecycle_move c row m u :
  core_ok c -> row_of (mr_ID row) c = Some row -> move (steps_of (mr_ID row) c) (fromDBMaintenance row) m ->
  check_maint_row (stored (m <| UpdatedAt := u |>)) = None ->
  core_ok (mkCore (set_row (stored (m <| UpdatedAt := u |>)) (c_maints c)) (c_steps c) (c_links c)).
Proof.
  intros Hok Hrow Hm Hc. pose proof (row_of_Some _ _ _ Hrow) as [Hin _].
  pose proof (proj1 (Forall_forall _ _) (ok_rows _ Hok) _ Hin) as [Hw Hp Ha Hs Hg].
  destruct (move_frame _ _ _ Hm) as [Hid Hsc]. simpl in Hid, Hsc.
  apply core_ok_set_row; simpl; try done; [by rewrite Hid|apply Hok|by right|by right|].
  split.
  - apply stored_whole.
  - by apply planned_of_check.
  - by eapply move_actual_ok.
  - by eapply move_steps_ok.
  - simpl. rewrite Hsc, Hid. done.
Qed.

Lemma new_steps_ok c r :
  (∀ s, s ∈ c_steps c -> sr_MaintenanceID s = mr_ID r -> sr_Status s = MaintenanceStepStatusPlanned) ->
  mr_Status r ≠ MaintenanceStatusCompleted -> steps_ok c r.
Proof.
  intros Hs Hc. split_and!; [intros _ s [Hin Hid]; by apply Hs|done|]. intros s1 s2 _ [Hin Hid] _ Hne. destruct Hne. by apply Hs.
Qed.

Lemma draft_actual_ok m : Status m = MaintenanceStatusDraft -> ActualPeriod m = None -> actual_ok (stored m).
Proof. intros Hs Ha. left. simpl. rewrite Ha. split; [by left|done]. Qed.

Lemma lifecycle_create c m steps links :
  core_ok c -> Status m = MaintenanceStatusDraft -> ActualPeriod m = None ->
  check_maint_row (stored m) = None -> row_of (ID m) c = None ->
  new_steps (ID m) steps -> (unique_steps (c_steps c) -> unique_steps (c_steps c ++ steps)) ->
  links_of (ID m) links -> (Scope m = MaintenanceScopeGlobal -> links = []) ->
  core_ok (mkCore (c_maints c ++ [stored m]) (c_steps c ++ steps) (c_links c ++ links)).
Proof.
  intros [Hids Hu Hsr Hlr Hrows] Hs Ha Hc Hnone Hnew Hu' Hlinks Hg. unfold new_steps, links_of in *.
  rewrite Forall_forall in Hnew. rewrite Forall_forall in Hlinks. rewrite Forall_forall in Hrows.
  assert (ID m ∉ mr_ID <$> c_maints c) as Hfresh.
  { rewrite <- row_of_elem, Hnone. by intros []. }
  assert (∀ id, is_Some (row_of id c) ∨ id = ID m ->
    is_Some (row_of id (mkCore (c_maints c ++ [stored m]) (c_steps c ++ steps) (c_links c ++ links)))) as Hkeep.
  { intros id. rewrite !row_of_elem. simpl. rewrite fmap_app. simpl. set_solver. }
  split; simpl.
  - rewrite fmap_app. apply NoDup_app. split_and!; [done| |apply NoDup_singleton]. set_solver.
  - by apply Hu'.
  - intros s [Hin|Hin]%elem_of_app; apply Hkeep; [left; by apply Hsr|right; by apply Hnew].
  - intros l [Hin|Hin]%elem_of_app; apply Hkeep; [left; by apply Hlr|right; by apply Hlinks].
  - apply Forall_app. split; [|apply Forall_singleton].
    + apply Forall_forall. intros r Hr. assert (mr_ID r ≠ ID m) as Hne by (intros Heq; apply Hfresh; rewrite <- Heq; by apply list_elem_of_fmap_2).
      eapply row_ok_mono; [| |by apply Hrows]; simpl.
      * intros s [?|[? _]%Hnew]%elem_of_app ?; congruence || done.
      * intros l [?|?%Hlinks]%elem_of_app ?; congruence || done.
    + split; [apply stored_whole|by apply planned_of_check|by apply draft_actual_ok| |].
      * apply new_steps_ok; [|simpl; rewrite Hs; discriminate]. simpl.
        intros s [Hin|Hin]%elem_of_app Hid; [|by apply Hnew].
        apply Hsr in Hin. rewrite Hid, Hnone in Hin. by destruct Hin.
      * simpl. intros ->%Hg l. rewrite app_nil_r. intros Hin%Hlr Heq. rewrite Heq, Hnone in Hin. by destruct Hin.
Qed.

Lemma lifecycle_edit c row m steps links :
  core_ok c -> row_of (ID m) c = Some row -> mr_Status row = MaintenanceStatusDraft ->
  Status m = MaintenanceStatusDraft -> ActualPeriod m = FromPgRange <$> mr_ActualPeriod row ->
  check_maint_row (stored m) = None ->
  (steps = c_steps c ∨ ∃ new, new_steps (ID m) new ∧ (unique_steps (c_steps c) -> unique_steps steps) ∧
     steps = filter (fun r => sr_MaintenanceID r ≠ ID m) (c_steps c) ++ new) ->
  (links = c_links c ∧ (Scope m = MaintenanceScopeGlobal -> mr_Scope row = MaintenanceScopeGlobal) ∨
   ∃ new, links_of (ID m) new ∧ (Scope m = MaintenanceScopeGlobal -> new = []) ∧
     links = filter (fun r => mrr_MaintenanceID r ≠ ID m) (c_links c) ++ new) ->
  core_ok (mkCore (set_row (stored m) (c_maints c)) steps links).
Proof.
  intros Hok Hrow Hdr Hs Ha Hc Hsteps Hlinks. pose proof (row_of_Some _ _ _ Hrow) as [Hin Hid].
  pose proof (proj1 (Forall_forall _ _) (ok_rows _ Hok) _ Hin) as [Hw Hp Hact Hst Hg]. unfold new_steps, links_of in *.
  assert (mr_ActualPeriod row = None) as Hnone.
  { destruct Hact as [[_ ?]|[[? _]|[[?|?] _]]]; [done|exfalso; status_unfold; congruence..]. }
  rewrite Hnone in Ha.
  apply core_ok_set_row; simpl; [done|rewrite Hrow; by eexists| | | |].
  - destruct Hsteps as [->|(new & _ & Hu & ->)]; [apply Hok|apply Hu, Hok].
  - destruct Hsteps as [->|(new & Hn & _ & ->)]; [by right|]. rewrite Forall_forall in Hn.
    intros s [[_ ?]%list_elem_of_filter|[? _]%Hn]%elem_of_app; [by right|by left].
  - destruct Hlinks as [[-> _]|(new & Hn & _ & ->)]; [by right|]. rewrite Forall_forall in Hn.
    intros l [[_ ?]%list_elem_of_filter|?%Hn]%elem_of_app; [by right|by left].
  - split; [apply stored_whole|by apply planned_of_check|by apply draft_actual_ok| |].
    + apply new_steps_ok; [|simpl; rewrite Hs; discriminate]. simpl.
      destruct Hsteps as [->|(new & Hn & _ & ->)].
      * intros s ? ?. apply (proj1 Hst); [by left|split; congruence].
      * rewrite Forall_forall in Hn. intros s [[? _]%list_elem_of_filter|?]%elem_of_app ?; [done|by apply Hn].
    + simpl. intros Hglobal. destruct Hlinks as [[-> Hkeep]|(new & _ & Hnil & ->)].
      * rewrite <- Hid. by apply Hg, Hkeep.
      * rewrite (Hnil Hglobal), app_nil_r. by intros l [? _]%list_elem_of_filter.
Qed.

Section one_step.
Context (c : Core) (id sid : UUID) (status : MaintenanceStepStatus) (step : MaintenanceStep) (srow : StepRow).
Hypothesis Hunique : unique_steps (c_steps c).
Hypothesis Hcan : canChangeStepStatusTo (fromDBMaintenanceStep <$> steps_of id c) sid status = inl step.
Hypothesis Hsrow : sr_ID srow = sid ∧ sr_MaintenanceID srow = id ∧ sr_StepOrder srow = st_Order step.

(** The row the step was read from. *)
Lemma step_source : ∃ r0, r0 ∈ c_steps c ∧ sr_MaintenanceID r0 = id ∧ sr_ID r0 = sid ∧ step = fromDBMaintenanceStep r0 ∧
  CanMainStepTransition (sr_Status r0) status = true ∧
  (∀ r, r ∈ c_steps c -> sr_MaintenanceID r = id -> sr_StepOrder r < sr_StepOrder r0 ->
    ∃ p, p ∈ c_steps c ∧ sr_MaintenanceID p = id ∧ MaintenanceStepStatus_IsTerminal (sr_Status p) = true ∧
      sr_StepOrder r <= sr_StepOrder p < sr_StepOrder r0).
Proof.
  apply canChange_spec in Hcan as (Hin & Hid & Ht & Hprev); [|by apply steps_of_orders].
  apply list_elem_of_fmap in Hin as (r0 & -> & [Hm Hr0]%elem_of_steps_of). exists r0. split_and!; try done.
  intros r Hr Hrm Hlt. destruct (Hprev (fromDBMaintenanceStep r)) as (p & Hp & Hpt & Hpo); [|done|].
  - apply list_elem_of_fmap_2. by apply elem_of_steps_of.
  - apply list_elem_of_fmap in Hp as (p0 & -> & [? ?]%elem_of_steps_of). by exists p0.
Qed.

Lemma step_key r : r ∈ c_steps c -> step_target id sid r = true ->
  sr_ID r = sid ∧ sr_MaintenanceID r = id ∧ sr_StepOrder r = st_Order step.
Proof.
  intros Hr [Hi%N.eqb_eq Hm%N.eqb_eq]%andb_true_iff. destruct step_source as (r0 & Hr0 & _ & Hi0 & -> & _).
  split_and!; [done..|]. rewrite (NoDup_fmap_2_elem sr_ID (c_steps c) r r0); [done|apply Hunique|done..|congruence].
Qed.

Lemma stepped_unique : unique_steps ((fun r => if step_target id sid r then srow else r) <$> c_steps c).
Proof.
  destruct Hunique as [H1 H2]. unfold unique_steps. rewrite <- !list_fmap_compose.
  assert (∀ i r, c_steps c !! i = Some r -> step_target id sid r = true ->
    sr_ID srow = sr_ID r ∧ sr_MaintenanceID srow = sr_MaintenanceID r ∧ sr_StepOrder srow = sr_StepOrder r) as Hk.
  { intros i r Hr Ht. apply list_elem_of_lookup_2 in Hr. destruct (step_key r Hr Ht) as (-> & -> & ->). done. }
  split; (erewrite list_fmap_ext; [eassumption|]); intros i r Hr; simpl;
    (destruct (step_target id sid r) eqn:Et; [|done]); destruct (Hk i r Hr Et) as (? & ? & ?); congruence.
Qed.

Lemma stepped_elem s :
  s ∈ (fun r => if step_target id sid r then srow else r) <$> c_steps c -> s = srow ∨ s ∈ c_steps c ∧ sr_ID s ≠ sid ∨
    s ∈ c_steps c ∧ sr_MaintenanceID s ≠ id.
Proof.
  intros (r & -> & Hr)%list_elem_of_fmap. unfold step_target.
  destruct (N.eqb_spec (sr_ID r) sid), (N.eqb_spec (sr_MaintenanceID r) id); simpl; auto.
Qed.

(** The order discipline survives the change of a step. *)
Lemma stepped_order :
  (∀ s1 s2, s1 ∈ c_steps c ∧ sr_MaintenanceID s1 = id -> s2 ∈ c_steps c ∧ sr_MaintenanceID s2 = id ->
    sr_StepOrder s1 < sr_StepOrder s2 ->
    sr_Status s2 ≠ MaintenanceStepStatusPlanned -> MaintenanceStepStatus_IsTerminal (sr_Status s1) = true) ->
  let of' s := s ∈ ((fun r => if step_target id sid r then srow else r) <$> c_steps c) ∧ sr_MaintenanceID s = id in
  ∀ s1 s2, of' s1 -> of' s2 -> sr_StepOrder s1 < sr_StepOrder s2 ->
    sr_Status s2 ≠ MaintenanceStepStatusPlanned -> MaintenanceStepStatus_IsTerminal (sr_Status s1) = true.
Proof.
  intros Hold of' s1 s2 [[->|Hs1]%stepped_elem Hm1] [[->|Hs2]%stepped_elem Hm2] Hlt Hne; [lia|..];
    destruct step_source as (r0 & Hr0 & Hrm & Hri & Hst & Htr & Hprev); destruct Hsrow as (_ & _ & Hord);
    rewrite Hst in Hord; simpl in Hord.
  - exfalso. assert (MaintenanceStepStatus_IsTerminal (sr_Status r0) = true) as Hterm.
    { apply (Hold r0 s2); [done|naive_solver|lia|done]. }
    apply CanMainStepTransition_iff in Htr as [[E _]|[E _]]; by rewrite E in Hterm.
  - assert (s1 ∈ c_steps c) as Hin1 by naive_solver.
    destruct (Hprev s1 Hin1 Hm1 ltac:(lia)) as (p & Hp & Hpm & Hpt & Hpo).
    destruct (decide (sr_StepOrder s1 = sr_StepOrder p)) as [Heq|Hneq].
    + rewrite (NoDup_fmap_2_elem _ _ s1 p (proj2 Hunique) Hin1 Hp); [done|congruence].
    + apply (Hold s1 p); [done..|lia|]. intros E. by rewrite E in Hpt.
  - apply (Hold s1 s2); naive_solver.
Qed.
End one_step.

Lemma lifecycle_step c row sid status step step' u :
  let id := mr_ID row in
  let m := fromDBMaintenance row in
  let srow := (pg_step_row (toDBMaintenanceStep id step')) <| sr_ID := sid |> in
  core_ok c -> row_of id c = Some row -> mr_Status row = MaintenanceStatusInProgress ->
  canChangeStepStatusTo (fromDBMaintenanceStep <$> steps_of id c) sid status = inl step ->
  st_Order step' = st_Order step ->
  check_maint_row (stored (m <| UpdatedAt := u |>)) = None ->
  core_ok (mkCore (set_row (stored (m <| UpdatedAt := u |>)) (c_maints c))
    ((fun r => if step_target id sid r then srow else r) <$> c_steps c) (c_links c)).
Proof.
  intros id m srow Hok Hrow Hip Hcan Hord Hc. pose proof (row_of_Some _ _ _ Hrow) as [Hin _].
  pose proof (proj1 (Forall_forall _ _) (ok_rows _ Hok) _ Hin) as [Hw Hp Ha (_ & _ & Hst) Hg].
  assert (sr_ID srow = sid ∧ sr_MaintenanceID srow = id ∧ sr_StepOrder srow = st_Order step) as Hsrow by done.
  apply core_ok_set_row; simpl; [done|by eexists; exact Hrow| | |by right|].
  - eapply stepped_unique; [apply Hok|done..].
  - intros s [->|Hs]%stepped_elem; [by left|right; naive_solver].
  - split; simpl.
    + apply stored_whole.
    + by apply planned_of_check.
    + destruct Ha as [[[?|?] _]|[(_ & p & Hpp & Hopen)|[[?|?] _]]]; try (exfalso; status_unfold; congruence).
      right; left. split; [done|]. simpl. rewrite Hpp. eexists. split; [done|].
      pose proof (actual_of_check _ (FromPgRange p) Hc ltac:(simpl; by rewrite Hpp)) as Hcheck.
      destruct Hopen as [[Hpr _] Hup]. unfold FromPgRange in Hcheck at 1. rewrite Hpr in Hcheck. simpl in Hcheck.
      by destruct (tz_Status (r_Upper p)).
    + split_and!; simpl; [status_unfold; intros [?|?]; congruence|status_unfold; intros ?; congruence|].
      eapply stepped_order; [apply Hok|done..].
    + done.
Qed.

(** ** What a step does to the maintenances *)

Definition view (id : UUID) (c : Core) : option MaintRow * list StepRow * list MaintResourceRow :=
  (row_of id c, steps_of id c, filter (fun r => mrr_MaintenanceID r = id) (c_links c)).

Lemma filter_app_other {A} (key : A -> UUID) (id id0 : UUID) (l new : list A) :
  id ≠ id0 -> Forall (fun x => key x = id0) new ->
  filter (fun x => key x = id) (l ++ new) = filter (fun x => key x = id) l.
Proof.
  intros Hne Hnew. rewrite filter_app. rewrite <- (app_nil_r (filter _ l)) at 2. f_equal.
  induction Hnew as [|x new Hx _ IH]; [done|]. rewrite filter_cons_False; [done|congruence].
Qed.

Lemma filter_drop_other {A} (key : A -> UUID) (id id0 : UUID) (l new : list A) :
  id ≠ id0 -> Forall (fun x => key x = id0) new ->
  filter (fun x => key x = id) (filter (fun x => key x ≠ id0) l ++ new) = filter (fun x => key x = id) l.
Proof.
  intros Hne Hnew. rewrite (filter_app_other key id id0) by done.
  apply list_filter_filter_l. intros x ->. done.
Qed.

Lemma filter_map_other {A} (key : A -> UUID) (id : UUID) (p : A -> bool) (y : A) (l : list A) :
  key y ≠ id -> (∀ x, p x = true -> key x ≠ id) ->
  filter (fun x => key x = id) ((fun x => if p x then y else x) <$> l) = filter (fun x => key x = id) l.
Proof.
  intros Hy Hp. induction l as [|x l IH]; [done|]. rewrite fmap_cons. destruct (p x) eqn:E.
  - rewrite !filter_cons_False; [done|by apply Hp|done].
  - rewrite !filter_cons. destruct (decide _); [by f_equal|done].
Qed.

Lemma row_of_snoc id c row steps links :
  mr_ID row ≠ id -> row_of id (mkCore (c_maints c ++ [row]) steps links) = row_of id c.
Proof.
  intros Hne. unfold row_of; simpl. induction (c_maints c) as [|r l IH]; simpl; [|by destruct (N.eqb _ _)].
  by destruct (N.eqb_spec (mr_ID row) id).
Qed.

Lemma row_of_set_other id row c steps links :
  id ≠ mr_ID row -> row_of id (mkCore (set_row row (c_maints c)) steps links) = row_of id c.
Proof. intros Hne. rewrite row_of_set_row. by destruct (N.eqb_spec id (mr_ID row)). Qed.
Lemma row_of_set_same id row0 row c steps links :
  mr_ID row = id -> row_of id c = Some row0 ->
  row_of id (mkCore (set_row row (c_maints c)) steps links) = Some row.
Proof. intros <- E. by rewrite row_of_set_row, N.eqb_refl, E. Qed.

Definition status_step (r r' : MaintRow) : Prop :=
  mr_Status r' = mr_Status r ∨ CanMaintTransition (mr_Status r) (mr_Status r') = true.

(** Every step is about one maintenance, which had not ended. *)
Definition about_one (c c' : Core) (id0 : UUID) : Prop :=
  (∀ id, id ≠ id0 -> view id c' = view id c) ∧
  (row_of id0 c = None ∨ ∃ r r', row_of id0 c = Some r ∧ row_of id0 c' = Some r' ∧
     MaintenanceStatus_IsTerminal (mr_Status r) = false ∧ status_step r r').

Lemma move_status steps m m' : move steps m m' ->
  MaintenanceStatus_IsTerminal (Status m) = false ∧ CanMaintTransition (Status m) (Status m') = true.
Proof. intros [rs Hs|now Hs|now reason comment [Hs|[Hs|Hs]]|now Hs Hst]; simpl; by rewrite Hs. Qed.

Lemma lifecycle_about_one c c' : lifecycle c c' -> ∃ id0, about_one c c' id0.
Proof.
  intros [m steps links Hs Ha Hc Hnone Hnew Hu Hl Hg|row m steps links Hrow Hdr Hs Ha Hc Hst Hl|
    row m u Hrow Hm Hc|row sid status step st co u id m step' srow Hrow Hip Hcan Hc].
  - exists (ID m). split; [|by left]. intros id Hid. unfold view, steps_of. simpl.
    rewrite row_of_snoc by done. rewrite (filter_app_other sr_MaintenanceID id (ID m) _ steps Hid), (filter_app_other _ id (ID m) _ links Hid); [done|..].
    + done.
    + eapply Forall_impl; [exact Hnew|]. by intros ? [].
  - exists (ID m). split.
    + intros id Hid. unfold view, steps_of. simpl. rewrite row_of_set_other by done. f_equal; [f_equal; f_equal|].
      * destruct Hst as [->|(new & Hn & _ & ->)]; [done|]. apply filter_drop_other; [done|].
        eapply Forall_impl; [exact Hn|]. by intros ? [].
      * destruct Hl as [[-> _]|(new & Hn & _ & ->)]; [done|]. by apply filter_drop_other.
    + right. exists row, (stored m). split_and!; [done|by eapply row_of_set_same|by rewrite Hdr|].
      left. simpl. congruence.
  - destruct (move_frame _ _ _ Hm) as [Hid _]. simpl in Hid. exists (mr_ID row). split.
    + intros id Hne. unfold view. by rewrite row_of_set_other by (simpl; congruence).
    + right. exists row, (stored (m <| UpdatedAt := u |>)). split; [done|]. split.
      { by eapply row_of_set_same. }
      destruct (move_status _ _ _ Hm) as [? ?]. split; [done|]. by right.
  - exists (mr_ID row). split.
    + intros id' Hne. unfold view, steps_of. simpl. rewrite row_of_set_other by done.
      rewrite filter_map_other; [done|by apply not_eq_sym|]. intros x [_ Hx%N.eqb_eq]%andb_true_iff. unfold id in Hx. congruence.
    + right. exists row, (stored (m <| UpdatedAt := u |>)). split; [done|]. split.
      { by eapply row_of_set_same. }
      split; [by rewrite Hip|]. by left.
Qed.

Lemma lifecycle_keeps c c' : core_ok c -> lifecycle c c' -> core_ok c'.
Proof.
  intros Hok [m steps links|row m steps links|row m u|row sid status step st co u id m step' srow].
  - by apply lifecycle_create.
  - intros. by eapply lifecycle_edit.
  - intros. by apply (lifecycle_move c row).
  - intros. by eapply lifecycle_step.
Qed.

(** A maintenance that ended is frozen, and the others follow the table. *)
Lemma lifecycle_history c c' id r :
  rtc lifecycle c c' -> row_of id c = Some r ->
  (MaintenanceStatus_IsTerminal (mr_Status r) = true -> view id c' = view id c) ∧
  ∃ r', row_of id c' = Some r' ∧ rtc (fun s t => CanMaintTransition s t = true) (mr_Status r) (mr_Status r').
Proof.
  intros Hsteps. revert r. induction Hsteps as [c|c c1 c' H1 Hrest IH]; intros r Hr; [by eauto using rtc_refl|].
  destruct (lifecycle_about_one _ _ H1) as (id0 & Hother & Hone). destruct (decide (id = id0)) as [->|Hne].
  - destruct Hone as [Hn|(r0 & r1 & E0 & E1 & Hterm & Hst)]; [congruence|]. simplify_eq.
    split; [congruence|]. destruct (IH r1 E1) as (_ & r' & Hr' & Hpath). exists r'. split; [done|].
    destruct Hst as [<-|Hst]; [done|]. by eapply rtc_l.
  - pose proof (Hother id Hne) as Hview. assert (row_of id c1 = Some r) as Hr1 by (injection Hview; congruence).
    destruct (IH r Hr1) as (Hfrozen & r' & Hr' & Hpath). split; [|eauto].
    intros Ht. by rewrite (Hfrozen Ht), Hview.
Qed.

(** ** An example: a consistent database *)

Ltac in_list H :=
  repeat (apply elem_of_cons in H as [H|H]; [subst|]); [..|by apply elem_of_nil in H].

Lemma ex_core_ok : core_ok (core ex_db).
Proof.
  split.
  - decide_now.
  - split; decide_now.
  - intros s Hs. simpl in Hs. in_list Hs; apply row_of_elem; decide_now.
  - intros l Hl. simpl in Hl. in_list Hl; apply row_of_elem; decide_now.
  - assert (∀ r, r ∈ maintenances ex_db -> (pg_maint_row r = r ∧ planned_ok r) ∧ actual_ok r) as Hrow.
    { intros r Hr. simpl in Hr. in_list Hr; (split; [split; [by vm_compute|]; split; [done|split; [done|vm_compute; reflexivity]]|]).
      - left. split; [by right|done].
      - left. split; [by left|done].
      - right; left. split; [done|]. eexists. split; [done|]. by split. }
    apply Forall_forall. intros r Hr. destruct (Hrow r Hr) as [[Hw Hp] Ha]. split; [done|done|done|..]; simpl in Hr.
    + split_and!; [intros Hd s [Hs Hm]|intros Hd s [Hs Hm]|intros s1 s2 [Hs1 _] [Hs2 _]]; simpl in *.
      * in_list Hr; in_list Hs; try discriminate Hm; status_unfold; destruct Hd; discriminate.
      * in_list Hr; discriminate Hd.
      * in_list Hs1; in_list Hs2; done.
    + intros Hg l Hl. simpl in Hl. in_list Hr; in_list Hl; discriminate.
Qed.
