(* ===== verification/Refine.v ===== *)
(** * The service implements the lifecycle

    Every operation of the maintenance service, run to whatever end it comes to
    (a result, an error of any kind, a panic after the commit), leaves the
    maintenances, steps and resource links as they were or makes one step of the
    abstract lifecycle; so every database the service can reach satisfies the
    invariant. *)
From Stdlib Require Import ZArith Lia Ascii String.
From stdpp Require Import base sorting sets strings numbers list relations.
From S2P Require Import Prelude Go Entity Conflict AuditTrail Schema Logic Dbtx MaintStore Fixtures ConflictStore Queue.
From S2P Require Import Deferred NotifyTargets Notify Validation MaintService Lifecycle.
Open Scope Z_scope.

(** ** Computations that leave the core alone *)

Definition still {A} (m : M A) : Prop := ∀ c, keeps (fun db => core db = c) m (fun _ => True).
Definition maybe (R : relation Core) : relation Core := fun c c' => c' = c ∨ R c c'.
Definition refines {A} (R : relation Core) (m : M A) : Prop :=
  ∀ w r w', m background w = (r, w') -> R (core (w_db w)) (core (w_db w')).
(** What the body of a transaction did, when it returned a value. *)
Definition body_does {A} (R : relation Core) (m : M A) : Prop :=
  ∀ t w a w', m (mkCtx (Some t)) w = (Ok a, w') -> R (core (w_db w)) (core (w_db w')).

Section rules.
Context `{Env}.

Lemma still_run {A} (m : M A) ctx w r w' : still m -> m ctx w = (r, w') -> core (w_db w') = core (w_db w).
Proof. intros Hm E. by destruct (keeps_run _ _ _ _ _ _ _ (Hm _) E eq_refl). Qed.

Lemma still_ret {A} (a : A) : still (mret a).
Proof. intros c. by apply keeps_ret. Qed.
Lemma still_raise {A} e : still (raise (A := A) e).
Proof. intros c. apply keeps_raise. Qed.
Lemma still_lift {A} (r : outcome A) : still (lift r).
Proof. intros c. by apply keeps_lift. Qed.
Lemma still_bind {A B} (m : M A) (k : A -> M B) : still m -> (∀ a, still (k a)) -> still (m ≫= k).
Proof. intros Hm Hk c. eapply keeps_bind; [apply Hm|]. intros a _. apply Hk. Qed.
Lemma still_attempt {A} (m : M A) : still m -> still (attempt m).
Proof. intros Hm c. eapply keeps_weaken; [apply keeps_attempt, Hm|done]. Qed.
Lemma still_wrap_err {A} f (m : M A) : still m -> still (wrap_err f m).
Proof. intros Hm c. apply keeps_wrap_err, Hm. Qed.
Lemma still_reject_if cond e : still (reject_if cond e).
Proof. intros c. eapply keeps_weaken; [apply keeps_reject_if|done]. Qed.
Lemma still_query {A} (f : DB -> A) : still (query f).
Proof. intros c. apply keeps_query_any. Qed.
Lemma still_UTCNow : still UTCNow.
Proof. intros c. by apply keeps_UTCNow. Qed.
Lemma still_ask {A} (f : nat -> A) : still (ask f).
Proof. intros c. apply keeps_ask. Qed.
Lemma still_sql {A} (f : Stmt -> DB -> outcome (A * DB)) :
  (∀ s db a db', f s db = Ok (a, db') -> core db' = core db) -> still (sql f).
Proof. intros Hf c. apply keeps_sql. intros s db a db' <- E. by erewrite Hf. Qed.
Lemma still_for_each {A} (f : A -> M unit) l : (∀ x, still (f x)) -> still (for_each f l).
Proof. intros Hf c. apply keeps_for_each. intros x _. apply Hf. Qed.
Lemma still_WithinTx {A} (m : M A) : still m -> still (WithinTx m).
Proof. intros Hm c. apply keeps_WithinTx, Hm. Qed.

Lemma refines_still {A} R `{!Reflexive R} (m : M A) : still m -> refines R m.
Proof. intros Hm w r w' E. by rewrite (still_run _ _ _ _ _ Hm E). Qed.
Lemma refines_then {A B} R (m : M A) (k : A -> M B) : refines R m -> (∀ a, still (k a)) -> refines R (m ≫= k).
Proof.
  intros Hm Hk w r w' [(a & w1 & E1 & E2)|(_ & r0 & E & _)]%bind_inv; [|by eapply Hm].
  rewrite (still_run _ _ _ _ _ (Hk a) E2). by eapply Hm.
Qed.
Lemma refines_after {A B} R `{!Reflexive R} (m : M A) (k : A -> M B) :
  still m -> (∀ a, refines R (k a)) -> refines R (m ≫= k).
Proof.
  intros Hm Hk w r w' [(a & w1 & E1 & E2)|(_ & r0 & E & _)]%bind_inv.
  - rewrite <- (still_run _ _ _ _ _ Hm E1). by eapply Hk.
  - by rewrite (still_run _ _ _ _ _ Hm E).
Qed.
Lemma refines_attempt {A} R (m : M A) : refines R m -> refines R (attempt m).
Proof. intros Hm w r w'. unfold attempt. destruct (m background w) as [[] ?] eqn:E; intros; simplify_eq; by eapply Hm. Qed.
Lemma refines_WithinTx {A} R (m : M A) : body_does R m -> refines (maybe R) (WithinTx m).
Proof.
  intros Hm w r w' [(e & -> & Hdb)|(a & w2 & -> & Hdb & _ & E)]%WithinTx_cases; rewrite Hdb; [by left|].
  right. by apply (Hm _ (tick w) _ _ E).
Qed.
Lemma refines_WithinSerializableTx {A} R (m : M A) : body_does R m -> refines (maybe R) (WithinSerializableTx m).
Proof.
  intros Hm w r w' [(e & -> & Hdb)|(a & t & w1 & w2 & -> & Hdb & <- & E)]%serializable_attempts_cases;
    rewrite Hdb; [by left|]. right. by eapply Hm.
Qed.
#[global] Instance maybe_reflexive R : Reflexive (maybe R).
Proof. by left. Qed.
End rules.

Create HintDb still.
#[export] Hint Resolve still_ret still_raise still_lift still_bind still_attempt still_wrap_err still_reject_if
  still_query still_UTCNow still_ask still_for_each still_WithinTx : still.
(** Follow the code; the tables that are not part of the core take care of themselves. *)
Ltac still_solve :=
  repeat first
    [ progress intros
    | solve [auto with still nocore]
    | apply still_bind
    | match goal with |- still (match ?x with _ => _ end) => destruct x end
    | match goal with |- still (if ?x then _ else _) => destruct x end ].

(** ** The parts of the service that leave the core alone *)

Section parts.
Context `{Env} `{Goque} `{Messenger} `{Ozzo} `{UserLister}.

Lemma core_queue_blind c : queue_blind (fun db => core db = c).
Proof. by intros db l. Qed.
Lemma core_deferred_blind c : deferred_blind (fun db => core db = c).
Proof. split; [apply core_queue_blind|by intros db l]. Qed.
Lemma core_targets_blind c : targets_blind (fun db => core db = c).
Proof. by intros db l. Qed.

Lemma still_publishAudit a : still (publishAudit a).
Proof. intros c. apply keeps_publishAudit, core_queue_blind. Qed.
Lemma still_Deferred_Cancel id : still (Deferred.Cancel id).
Proof. intros c. apply keeps_cancelEnqueued, core_queue_blind. Qed.
Lemma still_Deferred_Create id l : still (Deferred.Create id l).
Proof. intros c. apply Deferred.keeps_store_CreateMany, core_deferred_blind. Qed.
Lemma still_Deferred_Replace id l : still (Deferred.Replace id l).
Proof. intros c. apply Deferred.keeps_Replace, core_deferred_blind. Qed.
Lemma still_Schedule id : still (Deferred.Schedule id).
Proof. intros c. apply keeps_Schedule, core_deferred_blind. Qed.
Lemma still_NotifyTargets_Create id l : still (NotifyTargets.Create id l).
Proof. intros c. apply NotifyTargets.keeps_Create, core_targets_blind. Qed.
Lemma still_NotifyTargets_Replace m : still (NotifyTargets.Replace m).
Proof. intros c. apply NotifyTargets.keeps_Replace_targets, core_targets_blind. Qed.
Lemma still_ResolveNotifyTarget id l : still (NotifyTargets.ResolveNotifyTarget id l).
Proof. intros c. apply keeps_ResolveNotifyTarget. Qed.
Lemma still_NotifyMaintLifecycle k m : still (NotifyMaintLifecycle k m).
Proof. intros c. apply keeps_NotifyMaintLifecycle, core_targets_blind. Qed.
Lemma still_NotifyStepLifecycle k m s : still (NotifyStepLifecycle k m s).
Proof. intros c. apply keeps_NotifyStepLifecycle, core_targets_blind. Qed.
Lemma still_GetMaintResources ids : still (GetMaintResources ids).
Proof. unfold GetMaintResources. destruct ids; [apply still_ret|apply still_query]. Qed.
Lemma still_AddMentions id l : still (AddMentions id l).
Proof. unfold AddMentions. destruct l; [apply still_ret|]. apply still_sql. by intros s db a db' [= <- <-]. Qed.
Lemma still_DeleteMentions id : still (DeleteMentions id).
Proof. apply still_sql. by intros s db a db' [= <- <-]. Qed.
Lemma still_getSteps id : still (getSteps id).
Proof. apply still_query. Qed.
Lemma still_getMaint id : still (getMaint id).
Proof. apply still_bind; [apply still_query|]. intros [r|]; [apply still_ret|apply still_raise]. Qed.
Lemma still_GetConflicts cmd : still (GetConflicts cmd).
Proof.
  apply still_bind.
  - apply still_bind; [|intros; apply still_ret]. apply still_sql. intros s db a db' [_ E]%require_Ok. by injection E as <- <-.
  - intros cs. apply still_bind; [|intros; apply still_ret]. unfold ConflictedResources, ConflictedResources_store.
    destruct (_ <$> _); [apply still_ret|apply still_query].
Qed.
Lemma still_SaveSnapshot cmd : still (SaveSnapshot cmd).
Proof.
  apply still_wrap_err. unfold Save. destruct (ss_ConflictSnapshot cmd); [apply still_ret|]. apply still_sql.
  intros s db a db' [_ [_ E]%require_Ok]%require_Ok. by injection E as <- <-.
Qed.
Hint Resolve still_publishAudit still_Deferred_Cancel still_Deferred_Create still_Deferred_Replace still_Schedule
  still_NotifyTargets_Create still_NotifyTargets_Replace still_ResolveNotifyTarget still_NotifyMaintLifecycle
  still_NotifyStepLifecycle still_GetMaintResources still_AddMentions still_DeleteMentions still_getSteps
  still_getMaint still_GetConflicts still_SaveSnapshot : still.

Lemma still_validateApprover id : still (validateApprover id).
Proof. unfold validateApprover. still_solve. Qed.
Lemma still_validateCreate cmd : still (validateCreate cmd).
Proof. unfold validateCreate. still_solve. Qed.
Lemma still_validateUpdate cmd : still (validateUpdate cmd).
Proof. unfold validateUpdate. still_solve. Qed.
Lemma still_dispatchMaintLifecycle m m' : still (dispatchMaintLifecycle m m').
Proof. unfold dispatchMaintLifecycle. still_solve. Qed.
Lemma still_dispatchStepLifecycle m s : still (dispatchStepLifecycle m s).
Proof. unfold dispatchStepLifecycle. still_solve. Qed.
Lemma still_apply_approve cmd actor m : still (apply_approve cmd actor m).
Proof. unfold apply_approve, loadResources, checkConflicts. still_solve. Qed.
Lemma still_apply_start m : still (apply_start m).
Proof. unfold apply_start. still_solve. Qed.
Lemma still_apply_cancel cmd can m : still (apply_cancel cmd can m).
Proof. unfold apply_cancel. still_solve. Qed.
Lemma still_apply_complete m : still (apply_complete m).
Proof. unfold apply_complete, GetMaintSteps. still_solve. Qed.
End parts.

#[export] Hint Resolve still_publishAudit still_validateApprover still_validateCreate still_validateUpdate
  still_ResolveNotifyTarget still_dispatchMaintLifecycle still_dispatchStepLifecycle still_apply_approve
  still_apply_start still_apply_cancel still_apply_complete : still.

(** ** The changes a transaction makes *)

Lemma maint_exists_row id db : maint_exists id db = true ↔ is_Some (row_of id (core db)).
Proof.
  unfold maint_exists. rewrite existsb_exists, row_of_elem, list_elem_of_fmap. simpl.
  split; intros (r & H1 & H2); exists r; rewrite list_elem_of_In, N.eqb_eq in *; done.
Qed.

Section moves.
Context `{Env} `{Goque} `{Messenger} `{Ozzo} `{UserLister}.

Lemma apply_in_tx_Ok {B} id (apply : Maintenance -> M (Maintenance * B)) ctx w prev current (b : B) w' :
  apply_in_tx id apply ctx w = (Ok (prev, current, b), w') ->
  ∃ row w1 m w2 now, row_of id (core (w_db w)) = Some row ∧ prev = fromDBMaintenance row ∧ w_db w1 = w_db w ∧
    apply prev ctx w1 = (Ok (m, b), w2) ∧ current = m <| UpdatedAt := Some now |> ∧
    (maint_exists (ID m) (w_db w2) = true -> check_maint_row (stored current) = None) ∧
    core (w_db w') = mkCore (set_row (stored current) (c_maints (core (w_db w2))))
                       (c_steps (core (w_db w2))) (c_links (core (w_db w2))).
Proof.
  unfold apply_in_tx. intros E. run_all. apply getMaint_Ok in Hrun as (row & Hrow & -> & Hdb & _).
  destruct a0 as [m b']. run_all. apply UpdateMaint_Ok in Hrun as (now & -> & Hc & Hdb').
  exists row, w0, m, w1, now. split_and!; try done. by rewrite Hdb'.
Qed.

Definition updates_by {B} (apply : Maintenance -> M (Maintenance * B)) : Prop :=
  ∀ m ctx w m' b w', apply m ctx w = (Ok (m', b), w') -> move (steps_of (ID m) (core (w_db w))) m m'.

(** A still change of the entity that is a move of the lifecycle. *)
Lemma apply_in_tx_move {B} id (apply : Maintenance -> M (Maintenance * B)) :
  (∀ m, still (apply m)) -> updates_by apply -> body_does lifecycle (apply_in_tx id apply).
Proof.
  intros Hst Hmove t w [[prev current] b] w' (row & w1 & m & w2 & now & Hrow & -> & Hdb1 & Happly & -> & Hc & ->)%apply_in_tx_Ok.
  pose proof (still_run _ _ _ _ _ (Hst _) Happly) as Hcore. rewrite Hdb1 in Hcore. rewrite Hcore.
  apply Hmove in Happly. rewrite Hdb1 in Happly. destruct (move_frame _ _ _ Happly) as [Hid _].
  destruct (row_of_Some _ _ _ Hrow) as [_ Hrid]. simpl in Hid, Happly.
  apply (L_move _ row m (Some now)); [by rewrite Hrid|done|].
  apply Hc. apply maint_exists_row. rewrite Hcore, Hid, Hrid, Hrow. by eexists.
Qed.

Lemma refines_updateWithApply {B} R id (apply : Maintenance -> M (Maintenance * B)) :
  body_does R (apply_in_tx id apply) -> refines (maybe R) (updateWithApply id apply).
Proof.
  intros Hb. apply refines_then; [by apply refines_WithinTx|]. intros [[prev current] b]. still_solve.
Qed.
Lemma refines_updateWithApplySerializable {B} R id (apply : Maintenance -> M (Maintenance * B)) :
  body_does R (apply_in_tx id apply) -> refines (maybe R) (updateWithApplySerializable id apply).
Proof.
  intros Hb. apply refines_then; [by apply refines_WithinSerializableTx|]. intros [[prev current] b]. still_solve.
Qed.

(** *** The moves *)

Lemma apply_approve_Ok cmd actor m ctx w m' b w' :
  apply_approve cmd actor m ctx w = (Ok (m', b), w') ->
  let rs := rs_ID <$> resource_rows (ID m) (w_db w) in
  CanMaintTransition (Status m) MaintenanceStatusPlanned = true ∧
  (ApproverUserID m = av_ActorUserID cmd ∨ IsActiveAdmin actor = true) ∧
  Revision m = av_ObservedMaintRevision cmd ∧
  m' = m <| Resources := rs |> <| Status := MaintenanceStatusPlanned |> ∧
  ∃ conflicts w1 w2 w3, w_db w1 = w_db w ∧
    GetConflicts (mkConflictQuery (ID m) (PlannedPeriod m) (Scope m) rs) ctx w1 = (Ok conflicts, w2) ∧
    ConflictFingerprintFor (Some <$> av_ConflictSnapshot cmd) rs = ConflictFingerprintFor (Some <$> conflicts) rs ∧
    Save (av_MaintID cmd) (av_ConflictSnapshot cmd) ctx w2 = (Ok tt, w3) ∧
    Deferred.Schedule (av_MaintID cmd) ctx w3 = (Ok tt, w').
Proof.
  unfold apply_approve, loadResources, checkConflicts, SaveSnapshot. intros E. run_all.
  match goal with Hr : GetMaintResources _ _ _ = _ |- _ => apply GetMaintResources_Ok in Hr as (Hdb & _ & Hrs) end.
  specialize (Hrs (ID m) ltac:(set_solver)).
  rewrite Hrs in *. simpl in *. split; [by apply negb_false_iff|]. split.
  { match goal with Ha : negb _ && negb _ = false |- _ => apply andb_false_iff in Ha as [Ha|Ha]; apply negb_false_iff in Ha end;
      [left; by apply N.eqb_eq|by right]. }
  split.
  { match goal with Ha : negb (_ =? _) = false |- _ => apply negb_false_iff, Z.eqb_eq in Ha; done end. }
  split; [done|]. eexists _, _, _, _. split_and!; [exact Hdb|done| |..];
    [|match goal with Hr : _ = (Ok ?u, _) |- _ = (Ok tt, _) => destruct u; exact Hr end..].
  match goal with Ha : negb (String.eqb _ _) = false |- _ => apply negb_false_iff, String.eqb_eq in Ha; done end.
Qed.

Lemma can_plan_draft s : CanMaintTransition s MaintenanceStatusPlanned = true -> s = MaintenanceStatusDraft.
Proof. intros Hcan%CanMaintTransition_iff. status_unfold. naive_solver congruence. Qed.
Lemma moves_approve cmd actor : updates_by (apply_approve cmd actor).
Proof.
  intros m ctx w m' b w' (Hcan & _ & _ & -> & _)%apply_approve_Ok. by apply move_approve, can_plan_draft.
Qed.
Lemma moves_start : updates_by apply_start.
Proof.
  intros m ctx w m' b w' E. unfold apply_start in E. run_all. unfold UTCNow in *. simplify_eq. apply move_start.
  match goal with Hc : negb _ = false |- _ => apply negb_false_iff, CanMaintTransition_iff in Hc end.
  status_unfold. naive_solver congruence.
Qed.

(** The two checks a cancellation goes through both let only live maintenances pass. *)
Definition only_live (can : Maintenance -> outcome unit) : Prop := ∀ m, can m = Ok tt ->
  Status m = MaintenanceStatusDraft ∨ Status m = MaintenanceStatusPlanned ∨ Status m = MaintenanceStatusInProgress.
Lemma can_cancel_live : only_live can_cancel.
Proof.
  intros m. unfold can_cancel. destruct (CanMaintTransition _ _) eqn:E; [|done]. intros _.
  apply CanMaintTransition_iff in E. status_unfold. naive_solver congruence.
Qed.
Lemma still_unstarted_live : only_live still_unstarted.
Proof.
  intros m. unfold still_unstarted. destruct (String.eqb_spec (Status m) MaintenanceStatusDraft); [by left|].
  destruct (String.eqb_spec (Status m) MaintenanceStatusPlanned); [by right; left|]. done.
Qed.
Lemma moves_cancel cmd can : only_live can -> updates_by (apply_cancel cmd can).
Proof.
  intros Hcan m ctx w m' b w' E. unfold apply_cancel in E. run_all. unfold UTCNow, lift in *. simplify_eq.
  apply move_cancel, Hcan. by destruct a0.
Qed.
Lemma moves_complete : updates_by apply_complete.
Proof.
  intros m ctx w m' b w' E. unfold apply_complete in E. run_all. unfold UTCNow in *. simplify_eq.
  match goal with Hs : GetMaintSteps _ _ _ = _ |- _ => apply getSteps_Ok in Hs as (-> & Hdb & _) end.
  repeat match goal with Hc : negb _ = false |- _ => apply negb_false_iff in Hc end.
  apply move_complete.
  - match goal with Hc : CanMaintTransition _ _ = true |- _ => apply CanMaintTransition_iff in Hc end.
    status_unfold. naive_solver congruence.
  - apply Forall_forall. intros s Hs. match goal with Ht : allStepsTerminal _ = true |- _ => unfold allStepsTerminal in Ht;
      rewrite forallb_forall in Ht; apply (Ht (fromDBMaintenanceStep s)) end.
    apply list_elem_of_In, list_elem_of_fmap_2, Hs.
Qed.
End moves.

Section steps.
Context `{Env} `{Goque} `{Messenger} `{Ozzo} `{UserLister}.

Lemma canChange_ID steps sid status step : canChangeStepStatusTo steps sid status = inl step -> st_ID step = sid.
Proof.
  unfold canChangeStepStatusTo. destruct (find_index _ _) as [[st k]|] eqn:Ef; [|done].
  apply find_index_Some in Ef as (_ & Hid%N.eqb_eq & _).
  destruct (match k with O => _ | S _ => _ end); [done|]. destruct (negb _); [done|]. by intros [= <-].
Qed.

(** The functions the three step operations apply. *)
Definition changes_step (sid : UUID) (status : MaintenanceStepStatus)
    (applyF : list MaintenanceStep -> M (list MaintenanceStep)) : Prop :=
  (∀ steps, still (applyF steps)) ∧
  ∀ steps ctx w l w', applyF steps ctx w = (Ok l, w') -> ∃ step started completed,
    canChangeStepStatusTo steps sid status = inl step ∧
    l = [step <| st_ActualStartedAt := started |> <| st_ActualCompletedAt := completed |> <| st_Status := status |>].

Lemma changes_start_step sid : changes_step sid MaintenanceStepStatusStarted (apply_start_step sid).
Proof.
  split; intros steps; unfold apply_start_step, lift_sum; [still_solve|].
  intros ctx w l w' E. destruct (canChangeStepStatusTo _ _ _) as [step|e] eqn:Ec; run_all.
  eexists _, _, _. split; [reflexivity|]. reflexivity.
Qed.
Lemma changes_finish_step sid status : changes_step sid status (apply_finish_step status sid).
Proof.
  split; intros steps; unfold apply_finish_step, lift_sum; [still_solve|].
  intros ctx w l w' E. destruct (canChangeStepStatusTo _ _ _) as [step|e] eqn:Ec; run_all.
  eexists _, _, _. split; [reflexivity|]. reflexivity.
Qed.

Lemma apply_steps_Ok id applyF sid status m ctx w m' l w' :
  changes_step sid status applyF ->
  apply_steps id applyF m ctx w = (Ok (m', l), w') ->
  ∃ step started completed,
    let step' := step <| st_ActualStartedAt := started |> <| st_ActualCompletedAt := completed |> <| st_Status := status |> in
    m' = m ∧ Status m = MaintenanceStatusInProgress ∧
    canChangeStepStatusTo (fromDBMaintenanceStep <$> steps_of id (core (w_db w))) sid status = inl step ∧
    core (w_db w') = mkCore (c_maints (core (w_db w)))
      ((fun r => if step_target id sid r then (pg_step_row (toDBMaintenanceStep id step')) <| sr_ID := sid |> else r) <$>
        c_steps (core (w_db w))) (c_links (core (w_db w))).
Proof.
  intros [Hst Hch] E. unfold apply_steps in E. run_all.
  match goal with Hs : GetMaintStepsForUpdate _ _ _ = _ |- _ => apply getSteps_Ok in Hs as (-> & Hdb & _) end.
  match goal with Hs : applyF _ _ _ = _ |- _ => pose proof (still_run _ _ _ _ _ (Hst _) Hs) as Hcore;
    apply Hch in Hs as (step & started & completed & Hcan & ->) end.
  pose proof (canChange_ID _ _ _ _ Hcan) as Hsid. rewrite Hdb in Hcore. exists step, started, completed.
  split; [done|]. split; [by apply String.eqb_eq, negb_false_iff|]. split; [exact Hcan|]. rewrite <- Hcore.
  clear Hcore Hcan Hdb. cbn [update_steps] in *. run_all.
  match goal with Hs : UpdateStep _ _ _ _ = _ |- _ => apply UpdateStep_Ok in Hs as (now' & _ & _ & Hdb2) end.
  rewrite Hdb2. reflexivity.
Qed.

Lemma apply_in_tx_steps id sid status applyF :
  changes_step sid status applyF -> body_does lifecycle (apply_in_tx id (apply_steps id applyF)).
Proof.
  intros Hch t w [[prev current] b] w' (row & w1 & m & w2 & now & Hrow & -> & Hdb1 & Happly & -> & Hc & ->)%apply_in_tx_Ok.
  destruct (row_of_Some _ _ _ Hrow) as [_ Hid]. subst id.
  apply (apply_steps_Ok _ _ sid status) in Happly as (step & started & completed & -> & Hip & Hcan & Hcore); [|done].
  rewrite Hdb1 in *. rewrite Hcore.
  apply (L_step (core (w_db w)) row sid status step started completed (Some now)); [done|done|done|].
  apply Hc, maint_exists_row. rewrite Hcore. exists row. exact Hrow.
Qed.
End steps.

Section editing.
Context `{Env} `{Goque} `{Messenger} `{Ozzo} `{UserLister}.

Lemma insert_steps_unique l rows :
  unique_steps l ->
  (∀ pre r post, rows = pre ++ r :: post -> existsb (step_clash r) (l ++ pre) = false) -> unique_steps (l ++ rows).
Proof.
  revert l. induction rows as [|r rows IH]; intros l [Hu1 Hu2] Hcl; [by rewrite app_nil_r|].
  rewrite cons_middle, app_assoc. apply IH.
  - specialize (Hcl [] r rows eq_refl). rewrite app_nil_r in Hcl.
    assert (∀ x, x ∈ l -> step_clash r x = false) as Hx.
    { intros x Hx%list_elem_of_In. destruct (step_clash r x) eqn:E; [|done].
      assert (existsb (step_clash r) l = true) as E'; [apply existsb_exists; by exists x|congruence]. }
    unfold step_clash in Hx. split; rewrite fmap_app; apply NoDup_app; (split; [done|]); (split; [|apply NoDup_singleton]);
      intros y (x & -> & Hin)%list_elem_of_fmap Hy%list_elem_of_singleton; specialize (Hx x Hin);
      apply orb_false_iff in Hx as [Hn1 Hn2].
    + rewrite Hy, N.eqb_refl in Hn1. done.
    + injection Hy as Hy1 Hy2. rewrite Hy1, Hy2, N.eqb_refl, Z.eqb_refl in Hn2. done.
  - intros pre r1 post ->. rewrite <- app_assoc. by apply (Hcl (r :: pre) r1 post).
Qed.

Lemma unique_steps_filter (P : StepRow -> Prop) `{!∀ x, Decision (P x)} l : unique_steps l -> unique_steps (filter P l).
Proof. intros [Hu1 Hu2]. split; by apply NoDup_fmap_filter. Qed.

(** Steps built from a command are planned. *)
Lemma created_steps_new id inputs rows :
  Forall2 (fun s r => ∃ sid now, r = (pg_step_row (toDBMaintenanceStep id s)) <| sr_ID := sid |> <| sr_CreatedAt := now |>)
    (stepsFromCmd inputs MaintenanceStepStatusPlanned) rows -> new_steps id rows.
Proof.
  unfold new_steps, stepsFromCmd. intros Hrows%Forall2_fmap_l.
  induction Hrows as [|i r inputs rows (sid & now & ->) _ IH]; constructor; done.
Qed.

Lemma AddSteps_new id inputs ctx w steps w' :
  AddSteps id (stepsFromCmd inputs MaintenanceStepStatusPlanned) ctx w = (Ok steps, w') ->
  ∃ new, new_steps id new ∧
    (unique_steps (maintenance_steps (w_db w)) -> unique_steps (maintenance_steps (w_db w) ++ new)) ∧
    w_db w' = (w_db w) <| maintenance_steps := maintenance_steps (w_db w) ++ new |>.
Proof.
  intros (rows & _ & Hrows & Hcl & Hdb)%AddSteps_Ok. exists rows. split_and!; [| |done].
  - by eapply created_steps_new.
  - intros Hu. by apply insert_steps_unique.
Qed.

Lemma insert_resources_new id ids l : ∃ new, links_of id new ∧ (ids = [] -> new = []) ∧
  foldl (fun l r => insert_resource r l) l (mkMaintResourceRow id <$> ids) = l ++ new.
Proof.
  revert l. induction ids as [|i ids IH]; intros l.
  - exists []. rewrite app_nil_r. split_and!; [constructor|done..].
  - rewrite fmap_cons. cbn [foldl]. destruct (IH (insert_resource (mkMaintResourceRow id i) l)) as (new & Hn & _ & ->). unfold insert_resource.
    destruct (decide _); [by exists new|]. exists (mkMaintResourceRow id i :: new). rewrite <- app_assoc.
    split_and!; [by constructor|done..].
Qed.
Lemma AddResources_new id ids ctx w u w' :
  AddResources id ids ctx w = (Ok u, w') ->
  ∃ new, links_of id new ∧ (ids = [] -> new = []) ∧
    w_db w' = (w_db w) <| maintenance_resources := maintenance_resources (w_db w) ++ new |>.
Proof.
  intros [_ Hdb]%AddResources_Ok. destruct (insert_resources_new id ids (maintenance_resources (w_db w))) as (new & Hn & Hnil & E).
  exists new. rewrite E in Hdb. done.
Qed.

Lemma set_opt_proj {A T} (p : Maintenance -> T) (o : option A) f m :
  (∀ a m, p (f a m) = p m) -> p (set_opt o f m) = p m.
Proof. intros Hp. by destruct o; simpl. Qed.

Lemma Normalize_frame m : ID (Normalize m) = ID m ∧ Status (Normalize m) = Status m ∧
  ActualPeriod (Normalize m) = ActualPeriod m ∧ Steps (Normalize m) = Steps m ∧ Scope (Normalize m) = Scope m ∧
  (Scope m = MaintenanceScopeGlobal -> Resources (Normalize m) = []).
Proof. unfold Normalize. destruct (String.eqb_spec (Scope m) MaintenanceScopeGlobal); [done|by split_and!]. Qed.

Lemma applyValues_Ok m ts cmd m' :
  applyValuesFromUpdateCmd m ts cmd = Ok m' ->
  ID m' = ID m ∧ Status m' = Status m ∧ ActualPeriod m' = ActualPeriod m ∧
  (supplied (uc_Steps cmd) = true -> Steps m' = stepsFromCmd (uc_Steps cmd) MaintenanceStepStatusPlanned) ∧
  (Scope m' = MaintenanceScopeGlobal -> Resources m' = []) ∧ Scope m' = FromPtr (Scope m) (uc_Scope cmd).
Proof.
  unfold applyValuesFromUpdateCmd, assign_rest. intros E.
  assert (∃ m1, m' = Normalize m1 ∧ ID m1 = ID m ∧ Status m1 = Status m ∧ ActualPeriod m1 = ActualPeriod m ∧
    (supplied (uc_Steps cmd) = true -> Steps m1 = stepsFromCmd (uc_Steps cmd) MaintenanceStepStatusPlanned) ∧
    Scope m1 = FromPtr (Scope m) (uc_Scope cmd)) as (m1 & -> & Hid & Hs & Ha & Hst & Hsc).
  { destruct (uc_PlannedStart cmd); [destruct (Period_Duration _); [|done..]|]; injection E as <-;
      (eexists; split; [reflexivity|]); (split_and!; [..|intros Hsup|]);
      rewrite ?set_opt_proj by done; destruct (uc_Resources cmd), ts; simpl; rewrite ?set_opt_proj by done;
      destruct (uc_Scope cmd); simpl; rewrite ?set_opt_proj by done;
      destruct (uc_Steps cmd); simpl; rewrite ?set_opt_proj by done; done. }
  destruct (Normalize_frame m1) as (-> & -> & -> & -> & -> & Hr). split_and!; done.
Qed.

Lemma replaceSteps_Ok m inputs ctx w u w' :
  Steps m = stepsFromCmd inputs MaintenanceStepStatusPlanned -> replaceSteps m ctx w = (Ok u, w') ->
  ∃ new, new_steps (ID m) new ∧
    let steps := filter (fun r => sr_MaintenanceID r ≠ ID m) (c_steps (core (w_db w))) ++ new in
    (unique_steps (c_steps (core (w_db w))) -> unique_steps steps) ∧
    core (w_db w') = mkCore (c_maints (core (w_db w))) steps (c_links (core (w_db w))).
Proof.
  intros Hst. unfold replaceSteps. rewrite Hst. intros E. run_all.
  match goal with Hd : DeleteSteps _ _ _ = _ |- _ => apply DeleteSteps_Ok in Hd as Hdb end.
  match goal with Hd : AddSteps _ _ _ _ = _ |- _ => apply AddSteps_new in Hd as (new & Hnew & Hu & Hdb') end.
  rewrite Hdb in *. simpl in *. exists new. split; [done|]. split; [|by rewrite Hdb'].
  intros Hold. by apply Hu, unique_steps_filter.
Qed.

Lemma replaceResources_Ok m ctx w u w' :
  replaceResources m ctx w = (Ok u, w') ->
  ∃ new, links_of (ID m) new ∧ (Resources m = [] -> new = []) ∧
    core (w_db w') = mkCore (c_maints (core (w_db w))) (c_steps (core (w_db w)))
      (filter (fun r => mrr_MaintenanceID r ≠ ID m) (c_links (core (w_db w))) ++ new).
Proof.
  unfold replaceResources. intros E. run_all.
  match goal with Hd : DeleteResources _ _ _ = _ |- _ => apply DeleteResources_Ok in Hd as Hdb end.
  match goal with Hd : AddResources _ _ _ _ = _ |- _ => apply AddResources_new in Hd as (new & Hnew & Hnil & Hdb') end.
  rewrite Hdb in *. exists new. split; [done|]. split; [done|]. by rewrite Hdb'.
Qed.

Lemma still_when cond m : still m -> still (when cond m).
Proof. intros Hm. unfold when. destruct cond; [done|apply still_ret]. Qed.
Lemma when_run cond m ctx w u w' :
  when cond m ctx w = (Ok u, w') -> (cond = true ∧ m ctx w = (Ok u, w')) ∨ (cond = false ∧ w' = w).
Proof. unfold when. destruct cond; intros E; [by left|right]. by run_all. Qed.

Definition edited_steps (id : UUID) (old steps : list StepRow) : Prop :=
  steps = old ∨ ∃ new, new_steps id new ∧ (unique_steps old -> unique_steps steps) ∧
    steps = filter (fun r => sr_MaintenanceID r ≠ id) old ++ new.
Definition edited_links (id : UUID) (global was_global : Prop) (old links : list MaintResourceRow) : Prop :=
  links = old ∧ (global -> was_global) ∨
  ∃ new, links_of id new ∧ (global -> new = []) ∧ links = filter (fun r => mrr_MaintenanceID r ≠ id) old ++ new.

Lemma edited_steps_run cmd m ctx w u w' :
  (supplied (uc_Steps cmd) = true -> Steps m = stepsFromCmd (uc_Steps cmd) MaintenanceStepStatusPlanned) ->
  when (supplied (uc_Steps cmd)) (replaceSteps m) ctx w = (Ok u, w') ->
  ∃ steps, core (w_db w') = mkCore (c_maints (core (w_db w))) steps (c_links (core (w_db w))) ∧
    edited_steps (ID m) (c_steps (core (w_db w))) steps.
Proof.
  intros Hst [[Hsup Hrun]|[_ ->]]%when_run.
  - eapply replaceSteps_Ok in Hrun as (new & Hn & Hu & ->); [|by apply Hst]. eexists. split; [done|]. right. by exists new.
  - exists (c_steps (core (w_db w))). split; [done|by left].
Qed.

Lemma edited_links_run old cmd m ctx w u w' :
  (Scope m = MaintenanceScopeGlobal -> Resources m = []) -> Scope m = FromPtr (Scope old) (uc_Scope cmd) ->
  when (resources_replaced cmd) (replaceResources m) ctx w = (Ok u, w') ->
  ∃ links, core (w_db w') = mkCore (c_maints (core (w_db w))) (c_steps (core (w_db w))) links ∧
    edited_links (ID m) (Scope m = MaintenanceScopeGlobal) (Scope old = MaintenanceScopeGlobal)
      (c_links (core (w_db w))) links.
Proof.
  intros Hg Hsc [[_ Hrun]|[Hno ->]]%when_run.
  - apply replaceResources_Ok in Hrun as (new & Hn & Hnil & ->). eexists. split; [done|]. right. exists new. eauto.
  - exists (c_links (core (w_db w))). split; [done|]. left. split; [done|]. intros Hm.
    apply orb_false_iff in Hno as [_ Hno]. rewrite Hm in Hsc.
    destruct (uc_Scope cmd); simpl in *; [|done]. by rewrite <- Hsc in Hno.
Qed.

Lemma applyUpdate_Ok m ts cmd ctx w m' w' :
  applyUpdate m ts cmd ctx w = (Ok m', w') ->
  Status m = MaintenanceStatusDraft ∧ applyValuesFromUpdateCmd m ts cmd = Ok m' ∧
  ∃ steps links, core (w_db w') = mkCore (c_maints (core (w_db w))) steps links ∧
    edited_steps (ID m') (c_steps (core (w_db w))) steps ∧
    edited_links (ID m') (Scope m' = MaintenanceScopeGlobal) (Scope m = MaintenanceScopeGlobal)
      (c_links (core (w_db w))) links.
Proof.
  unfold applyUpdate. intros E. run_all. unfold lift in *.
  match goal with Hv : (applyValuesFromUpdateCmd _ _ _, _) = _ |- _ => injection Hv as Hv ->;
    pose proof (applyValues_Ok _ _ _ _ Hv) as (Hid & _ & _ & Hst & Hg & Hsc); rename Hv into Hval end.
  split; [by apply String.eqb_eq, negb_false_iff|]. split; [done|].
  match goal with Hw : when _ (replaceMentions _) _ _ = _ |- _ => eapply still_run in Hw as Hc5;
    [|apply still_when; apply still_bind; [apply still_DeleteMentions|intros; apply still_AddMentions]] end.
  match goal with Hw : when _ (Deferred.Replace _ _) _ _ = _ |- _ => eapply still_run in Hw as Hc4;
    [|apply still_when, still_Deferred_Replace] end.
  match goal with Hw : when _ (NotifyTargets.Replace _) _ _ = _ |- _ => eapply still_run in Hw as Hc3;
    [|apply still_when, still_NotifyTargets_Replace] end.
  rewrite Hc5, Hc4, Hc3. clear Hc5 Hc4 Hc3.
  match goal with Hw : when _ (replaceSteps _) _ _ = _ |- _ =>
    apply (edited_steps_run _ _ _ _ _ _ Hst) in Hw as (steps & Hc1 & Hsteps) end.
  match goal with Hw : when _ (replaceResources _) _ _ = _ |- _ =>
    apply (edited_links_run m) in Hw as (links & Hc2 & Hlinks); [|done..] end.
  rewrite Hc2, Hc1 in *. exists steps, links. split_and!; [done|exact Hsteps|exact Hlinks].
Qed.

(** Editing a draft. *)
Lemma apply_in_tx_update id ts cmd :
  body_does lifecycle (apply_in_tx id (fun maint => m ← applyUpdate maint ts cmd; mret (m, tt))).
Proof.
  intros t w [[prev current] b] w' (row & w1 & m & w2 & now & Hrow & -> & Hdb1 & Happly & -> & Hc & ->)%apply_in_tx_Ok.
  apply bind_Ok in Happly as (m1 & w3 & Happly & Hret). unfold mret, M_ret in Hret. injection Hret; intros; subst.
  apply applyUpdate_Ok in Happly as (Hdr & Hval & steps & links & Hcore & Hsteps & Hlinks).
  apply applyValues_Ok in Hval as (Hid & Hs & Ha & _). destruct (row_of_Some _ _ _ Hrow) as [_ Hrid].
  rewrite Hdb1 in *. rewrite Hcore. assert (row_of (ID m) (core (w_db w)) = Some row) as Hrow'.
  { rewrite Hid. simpl. by rewrite Hrid. }
  apply (L_edit (core (w_db w)) row (m <| UpdatedAt := Some now |>)); [done|done|by rewrite <- Hdr|done| |done|done].
  apply Hc, maint_exists_row. rewrite Hcore. exists row. exact Hrow'.
Qed.

Lemma AddResources_if m ctx w u w' :
  (match Resources m with [] => mret tt | _ => AddResources (ID m) (Resources m) end) ctx w = (Ok u, w') ->
  w_db w' = (w_db w) <| maintenance_resources :=
    foldl (fun l r => insert_resource r l) (maintenance_resources (w_db w)) (mkMaintResourceRow (ID m) <$> Resources m) |>.
Proof.
  destruct (Resources m) as [|r rs] eqn:Er; [|by intros [_ ?]%AddResources_Ok]. intros E. run_all. by destruct (w_db w').
Qed.

(** Creating a draft. *)
Definition created_resources (cmd : CreateMaintenanceCmd) : list UUID :=
  if String.eqb (cc_Scope cmd) MaintenanceScopeGlobal then [] else cc_Resources cmd.

Lemma create_in_tx_Ok cmd ctx w m w' :
  create_in_tx cmd ctx w = (Ok m, w') ->
  ∃ now rows,
    let m0 := (draft_of cmd) <| ID := ID m |> <| CreatedAt := now |> in
    check_maint_row (stored m0) = None ∧ maint_exists (ID m) (w_db w) = false ∧
    Forall2 (fun s r => ∃ sid now, r = (pg_step_row (toDBMaintenanceStep (ID m) s)) <| sr_ID := sid |> <| sr_CreatedAt := now |>)
      (stepsFromCmd (cc_Steps cmd) MaintenanceStepStatusPlanned) rows ∧
    (∀ pre r post, rows = pre ++ r :: post -> existsb (step_clash r) (c_steps (core (w_db w)) ++ pre) = false) ∧
    core (w_db w') = mkCore (c_maints (core (w_db w)) ++ [stored m0]) (c_steps (core (w_db w)) ++ rows)
      (foldl (fun l r => insert_resource r l) (c_links (core (w_db w)))
         (mkMaintResourceRow (ID m) <$> created_resources cmd)).
Proof.
  intros E. unfold create_in_tx in E. apply bind_Ok in E as (m1 & w1 & Hcreate & E).
  apply CreateMaint_Ok in Hcreate as (id & now & Hnow & Hc & Hex & Hm1 & Hdb1).
  assert ((pg_maint_row (toDBMaintenance (draft_of cmd))) <| mr_ID := id |> <| mr_CreatedAt := now |> =
    stored ((draft_of cmd) <| ID := id |> <| CreatedAt := now |>)) as Hrow.
  { unfold stored, pg_maint_row, toDBMaintenance. simpl. by rewrite Hnow. }
  rewrite Hrow in *. clear Hrow.
  set (m2 := Normalize (m1 <| Resources := cc_Resources cmd |>)) in E.
  assert (ID m2 = id ∧ Resources m2 = created_resources cmd) as [Hid Hr].
  { subst m2. rewrite Hm1. unfold Normalize, created_resources. simpl. by destruct (String.eqb _ _). }
  clearbody m2. clear Hm1. run_all. simpl.
  match goal with Hl : (match Resources m2 with [] => _ | _ => _ end) _ _ = _ |- _ => apply AddResources_if in Hl as Hdb2 end.
  match goal with Hl : AddSteps _ _ _ _ = _ |- _ => apply AddSteps_Ok in Hl as (rows & _ & Hsteps & Hcl & Hdb3) end.
  match goal with Hl : AddMentions _ _ _ _ = _ |- _ => apply still_run in Hl as Hc6; [|apply still_AddMentions] end.
  match goal with Hl : Deferred.Create _ _ _ _ = _ |- _ => apply still_run in Hl as Hc5; [|apply still_Deferred_Create] end.
  match goal with Hl : NotifyTargets.Create _ _ _ _ = _ |- _ => apply still_run in Hl as Hc4; [|apply still_NotifyTargets_Create] end.
  exists now, rows. rewrite Hdb2, Hdb1 in Hcl. rewrite Hr in Hdb2.
  split; [done|]. split; [done|]. split; [done|]. split; [exact Hcl|].
  rewrite Hc6, Hc5, Hc4, Hdb3, Hdb2, Hdb1. reflexivity.
Qed.

Lemma create_in_tx_lifecycle cmd : body_does lifecycle (create_in_tx cmd).
Proof.
  intros t w m w' (now & rows & Hc & Hex & Hsteps & Hcl & ->)%create_in_tx_Ok.
  destruct (insert_resources_new (ID m) (created_resources cmd) (c_links (core (w_db w)))) as (links & Hl & Hnil & ->).
  apply (L_create (core (w_db w)) ((draft_of cmd) <| ID := ID m |> <| CreatedAt := now |>) rows links); try done.
  - destruct (row_of _ _) as [r|] eqn:Er; [|done].
    assert (maint_exists (ID m) (w_db w) = true) as Hex' by (apply maint_exists_row; exists r; exact Er). congruence.
  - by eapply created_steps_new.
  - intros Hu. by apply insert_steps_unique.
  - intros Hg. apply Hnil. unfold created_resources. simpl in Hg. by rewrite Hg.
Qed.
End editing.

(** ** The operations *)

Section operations.
Context `{Env} `{Goque} `{Messenger} `{Ozzo} `{UserLister}.

Lemma refines_CreateDraft cmd : refines (maybe lifecycle) (CreateDraft cmd).
Proof.
  apply refines_after; [apply _|auto with still|intros _]. apply refines_after; [apply _|auto with still|intros _].
  apply refines_then; [apply refines_WithinTx, create_in_tx_lifecycle|]. still_solve.
Qed.

Lemma refines_UpdateMaint cmd : refines (maybe lifecycle) (UpdateMaint cmd).
Proof.
  apply refines_after; [apply _|auto with still|intros _].
  apply refines_after; [apply _|destruct (uc_ApproverUserID cmd); auto with still|intros _].
  apply refines_after; [apply _|auto with still|intros ts].
  apply refines_then; [apply refines_updateWithApply, apply_in_tx_update|]. intros [[prev current] b]. still_solve.
Qed.

Lemma refines_ApproveMaint cmd : refines (maybe lifecycle) (ApproveMaint cmd).
Proof.
  unfold ApproveMaint. destruct (av_Actor cmd); [|apply refines_still; [apply _|auto with still]].
  apply refines_then.
  - apply refines_attempt, refines_updateWithApplySerializable, apply_in_tx_move; [auto with still|apply moves_approve].
  - still_solve.
Qed.

Lemma refines_StartMaint cmd : refines (maybe lifecycle) (StartMaint cmd).
Proof.
  apply refines_then; [|still_solve].
  apply refines_updateWithApply, apply_in_tx_move; [auto with still|apply moves_start].
Qed.

Lemma refines_cancelMaint cmd can : only_live can -> refines (maybe lifecycle) (cancelMaint cmd can).
Proof.
  intros Hcan. apply refines_then; [|still_solve].
  apply refines_attempt, refines_updateWithApply, apply_in_tx_move; [auto with still|by apply moves_cancel].
Qed.

Lemma refines_CompleteMaint cmd : refines (maybe lifecycle) (CompleteMaint cmd).
Proof.
  apply refines_then; [|still_solve].
  apply refines_attempt, refines_updateWithApply, apply_in_tx_move; [auto with still|apply moves_complete].
Qed.

Lemma refines_updateStepWithApply id sid status applyF :
  changes_step sid status applyF -> refines (maybe lifecycle) (updateStepWithApply id applyF).
Proof.
  intros Hch. apply refines_then; [by eapply refines_updateWithApply, apply_in_tx_steps|].
  intros [[prev current] b]. still_solve.
Qed.

Lemma maybe_rtc (R : relation Core) c c' : maybe R c c' -> rtc R c c'.
Proof. intros [->|HR]; [done|by apply rtc_once]. Qed.

Lemma refines_cancel_each l errs : refines (rtc lifecycle) (cancel_each l errs).
Proof.
  revert errs. induction l as [|m l IH]; intros errs; simpl.
  - apply refines_still; [apply _|]. destruct errs; auto with still.
  - intros w r w' [(a & w1 & E1 & E2)|(_ & r0 & E & _)]%bind_inv.
    + etrans; [|by eapply IH]. eapply maybe_rtc, refines_attempt, E1. apply refines_cancelMaint, still_unstarted_live.
    + eapply maybe_rtc, refines_attempt, E. apply refines_cancelMaint, still_unstarted_live.
Qed.

Lemma refines_CancelUnStarted cutoff limit : refines (rtc lifecycle) (CancelUnStarted cutoff limit).
Proof.
  apply refines_after; [apply _| |].
  - unfold ListOverdueNotStarted, make_cap. destruct (limit <? 0).
    + apply still_bind; [intros c; apply keeps_panic|intros; apply still_query].
    + still_solve.
  - intros [|m l]; [apply refines_still; [apply _|auto with still]|apply refines_cancel_each].
Qed.

(** What the API handlers and the task processors call. *)
Inductive request :=
  | ReqCreate (cmd : CreateMaintenanceCmd)
  | ReqUpdate (cmd : UpdateMaintenanceCmd)
  | ReqApprove (cmd : ApproveMaintenanceCmd)
  | ReqStart (cmd : StartMaintenanceCmd)
  | ReqCancel (cmd : CancelMaintenanceCmd)
  | ReqComplete (cmd : CompleteMaintenanceCmd)
  | ReqStartStep (cmd : StepCmd)
  | ReqCompleteStep (cmd : StepCmd)
  | ReqCancelStep (cmd : StepCmd)
  | ReqAutoCancel (threshold : Duration) (limit : Z).

Definition serve (r : request) : M unit :=
  match r with
  | ReqCreate cmd => _ ← CreateDraft cmd; mret tt
  | ReqUpdate cmd => UpdateMaint cmd
  | ReqApprove cmd => ApproveMaint cmd
  | ReqStart cmd => StartMaint cmd
  | ReqCancel cmd => CancelMaint cmd
  | ReqComplete cmd => CompleteMaint cmd
  | ReqStartStep cmd => StartStep cmd
  | ReqCompleteStep cmd => CompleteStep cmd
  | ReqCancelStep cmd => CancelStep cmd
  | ReqAutoCancel threshold limit => AutoCancel_ProcessTask threshold limit
  end.
(** The world after a sequence of requests, whatever each of them answered. *)
Definition serve_all (rs : list request) (w : World) : World :=
  fold_left (fun w r => snd (serve r background w)) rs w.

(** The auto-cancel sweep makes a step per maintenance it cancels, every other
    request at most one. *)
Definition promise (r : request) : relation Core :=
  match r with ReqAutoCancel _ _ => rtc lifecycle | _ => maybe lifecycle end.

Lemma refines_serve r : refines (promise r) (serve r).
Proof.
  destruct r; simpl.
  - apply refines_then; [apply refines_CreateDraft|auto with still].
  - apply refines_UpdateMaint.
  - apply refines_ApproveMaint.
  - apply refines_StartMaint.
  - apply refines_cancelMaint, can_cancel_live.
  - apply refines_CompleteMaint.
  - apply refines_then; [eapply refines_updateStepWithApply, changes_start_step|]. intros [m l]. still_solve.
  - apply refines_then; [eapply refines_updateStepWithApply, changes_finish_step|]. intros [m l]. still_solve.
  - apply refines_then; [eapply refines_updateStepWithApply, changes_finish_step|]. intros [m l]. still_solve.
  - apply refines_after; [apply _|auto with still|]. intros now. apply refines_CancelUnStarted.
Qed.

Lemma serve_all_lifecycle rs w : rtc lifecycle (core (w_db w)) (core (w_db (serve_all rs w))).
Proof.
  revert w. induction rs as [|r rs IH]; intros w; simpl; [done|]. etrans; [|apply IH].
  destruct (serve r background w) as [a w'] eqn:E. apply refines_serve in E. simpl.
  destruct r; simpl in E; first [exact E|exact (maybe_rtc _ _ _ E)].
Qed.

Lemma core_ok_rtc c c' : rtc lifecycle c c' -> core_ok c -> core_ok c'.
Proof. induction 1 as [|c c1 c' Hstep _ IH]; [done|]. intros Hok. by apply IH, (lifecycle_keeps c). Qed.
End operations.


Section properties.
Context `{Env} `{Goque} `{Messenger} `{Ozzo} `{UserLister}.

(** C1. The service refines the lifecycle.  However a request ends, whatever
    the database, the clock, the messengers and the queue did meanwhile, the
    maintenances, steps and links are what they were or one step of the
    abstract machine further; the sweep over overdue maintenances makes a
    sequence of such steps. *)
Theorem service_refines_lifecycle r w :
  promise r (core (w_db w)) (core (w_db (snd (serve r background w)))).
Proof. destruct (serve r background w) as [a w'] eqn:E. by apply refines_serve in E. Qed.

(** C2. Every database the service can reach is consistent: after any sequence
    of requests, each ending in any way, the invariant of the lifecycle holds
    of the stored maintenances. *)
Theorem service_invariant rs w :
  core_ok (core (w_db w)) -> core_ok (core (w_db (serve_all rs w))).
Proof. apply core_ok_rtc, serve_all_lifecycle. Qed.

End properties.

(** ** An example: a working day *)

Definition ex_admin : User := (newUser "admin@example.org" "Admin" [RoleAdmin]) <| u_ID := 15%N |>.
Definition ex_users : UserLister := {| ListUsers := fun _ cmd => inl ((fun id => (newUser "user@example.org" "User" [RoleAdmin]) <| u_ID := id |>) <$> lu_IDs cmd) |}.
Definition ex_day : list request :=
  [ReqStart (mkStartCmd 1 (Some ex_admin)); ReqComplete (mkCompleteCmd 3 (Some ex_admin));
   ReqStartStep (mkStepCmd 3 32 (Some ex_admin)); ReqCompleteStep (mkStepCmd 3 32 (Some ex_admin));
   ReqComplete (mkCompleteCmd 3 (Some ex_admin)); ReqCancel (mkCancelCmd 3 "other" "" (Some ex_admin))].

(** The first attempt to complete comes too early, and the last request finds
    the maintenance already completed. *)
Lemma service_invariant_witness :
  let w := @serve_all calm_env list_goque ex_messenger ex_ozzo ex_users ex_day ex_world in
  core_ok (core (w_db w)) ∧ mr_Status <$> maintenances (w_db w) = ["in_progress"; "draft"; "completed"] ∧
  sr_Status <$> maintenance_steps (w_db w) = ["completed"; "completed"].
Proof.
  split; [exact (@service_invariant calm_env list_goque ex_messenger ex_ozzo ex_users ex_day ex_world ex_core_ok)|].
  split; vm_compute; reflexivity.
Defined.

