(* ===== verification/MaintSpec.v ===== *)
(** * What the operations promise

    Functional specifications of single operations of the maintenance service:
    the approve gate, creation and its validation, the sweep that cancels
    overdue maintenances, and the planned period of a list of steps. *)
From Stdlib Require Import ZArith Lia Ascii String.
From stdpp Require Import base sorting sets strings numbers list relations.
From S2P Require Import Prelude Go Entity Conflict AuditTrail Schema Logic Dbtx MaintStore Fixtures ConflictStore Queue.
From S2P Require Import Deferred NotifyTargets Notify Validation MaintService Lifecycle Refine.
Open Scope Z_scope.

(** ** The approve gate *)

Section approve.
Context `{Env} `{Goque} `{Messenger} `{Ozzo} `{UserLister}.

(** A successful run of the serializable helper: its body, in a transaction,
    from the database the call began in; what follows the commit leaves the
    core alone. *)
Lemma updateWithApplySerializable_Ok {B} id (apply : Maintenance -> M (Maintenance * B)) w prev current (b : B) w' :
  updateWithApplySerializable id apply background w = (Ok (prev, current, b), w') ->
  ∃ t w1 w2, w_db w1 = w_db w ∧ apply_in_tx id apply (mkCtx (Some t)) w1 = (Ok (prev, current, b), w2) ∧
    core (w_db w') = core (w_db w2).
Proof.
  unfold updateWithApplySerializable, runUpdateWithApply. intros ([[p c] b'] & w0 & Htx & E)%bind_Ok.
  apply WithinSerializableTx_Ok in Htx as (t & w1 & w2 & Hbody & Hdb1 & Hdb2).
  apply bind_Ok in E as (u & w3 & Hd & Hret). unfold mret, M_ret in Hret. injection Hret; intros; subst.
  exists t, w1, w2. split_and!; [done..|]. rewrite (still_run _ _ _ _ _ (still_dispatchMaintLifecycle _ _) Hd). by rewrite Hdb2.
Qed.

(** Resources are not a column of the row. *)
Lemma stored_resources m rs s u :
  stored (m <| Resources := rs |> <| Status := s |> <| UpdatedAt := u |>) = stored (m <| Status := s |> <| UpdatedAt := u |>).
Proof. reflexivity. Qed.

Definition approve_query (row : MaintRow) (rs : list UUID) : ConflictQueryCmd :=
  mkConflictQuery (mr_ID row) (FromPgRange (mr_PlannedPeriod row)) (mr_Scope row) rs.

(** C3. Approval is a gate.  When [ApproveMaint] succeeds, the maintenance was
    a draft; the actor was its approver or an active administrator; its
    revision was the one the approver had seen; the fingerprint of the conflicts
    the approver had reviewed is the fingerprint of the conflicts live at that
    moment, both seen through the maintenance's own resources; and the draft
    became planned, with no other row, step or link touched. *)
Theorem approve_gate cmd w w' :
  ApproveMaint cmd background w = (Ok tt, w') ->
  ∃ row actor now,
    let c := core (w_db w) in
    let rs := rs_ID <$> resource_rows (av_MaintID cmd) (w_db w) in
    row_of (av_MaintID cmd) c = Some row ∧ mr_Status row = MaintenanceStatusDraft ∧
    av_Actor cmd = Some actor ∧ (mr_ApproverUserID row = av_ActorUserID cmd ∨ IsActiveAdmin actor = true) ∧
    Revision (fromDBMaintenance row) = av_ObservedMaintRevision cmd ∧
    ConflictFingerprintFor (Some <$> av_ConflictSnapshot cmd) rs =
      ConflictFingerprintFor (Some <$> live_conflicts (w_db w) (approve_query row rs)) rs ∧
    core (w_db w') = mkCore (set_row (stored ((fromDBMaintenance row) <| Status := MaintenanceStatusPlanned |>
                              <| UpdatedAt := Some now |>)) (c_maints c)) (c_steps c) (c_links c).
Proof.
  unfold ApproveMaint. destruct (av_Actor cmd) as [actor|]; [|done].
  intros ([[[prev current] b]|err] & w1 & Hatt & E)%bind_Ok; apply attempt_Ok in Hatt.
  2: { by destruct (dbtx_ErrorIs _ _). }
  apply updateWithApplySerializable_Ok in Hatt as (t & w2 & w3 & Hdb2 & Hbody & Hc1).
  pose proof (still_run _ _ _ _ _ (still_publishAudit _) E) as Hc2. rewrite Hc2, Hc1. clear Hc1 Hc2 E.
  apply apply_in_tx_Ok in Hbody as (row & w4 & m & w5 & now & Hrow & -> & Hdb4 & Happly & -> & _ & ->).
  pose proof (still_run _ _ _ _ _ (still_apply_approve _ _ _) Happly) as ->.
  destruct (row_of_Some _ _ _ Hrow) as [_ Hid].
  apply apply_approve_Ok in Happly as (Hcan & Hwho & Hrev & -> & cs & w6 & w7 & w8 & Hdb6 & Hcs & Hfp & _).
  apply GetConflicts_Ok in Hcs as (-> & _ & _). simpl in *. rewrite Hdb6, Hdb4, Hdb2, Hid in *.
  exists row, actor, now. split; [exact Hrow|]. split.
  { exact (can_plan_draft _ Hcan). }
  split; [reflexivity|]. split; [exact Hwho|]. split; [exact Hrev|]. split.
  - unfold approve_query. rewrite Hid. exact Hfp.
  - rewrite stored_resources. reflexivity.
Qed.
End approve.

Definition ex_approve : ApproveMaintenanceCmd :=
  mkApproveCmd 2 (UnixMicro (at_min (-1000)))
    [mkCWR (mkConflict 1 "renamed since" (at_min 90) (at_min 120) "resource") [71%N] false] 11 (Some ex_admin).

Lemma approve_gate_witness :
  ∃ w', @ApproveMaint calm_env list_goque ex_messenger ex_approve background ex_world = (Ok tt, w') ∧
    mr_Status <$> maintenances (w_db w') = ["planned"; "planned"; "in_progress"] ∧
    ∃ row, row_of 2 (core ex_db) = Some row ∧ mr_Status row = MaintenanceStatusDraft.
Proof.
  assert (fst (@ApproveMaint calm_env list_goque ex_messenger ex_approve background ex_world) = Ok tt) as Hok
    by by vm_compute.
  destruct (@ApproveMaint calm_env list_goque ex_messenger ex_approve background ex_world) as [r w'] eqn:E.
  simpl in Hok. subst r. exists w'. split; [reflexivity|]. split.
  - apply (f_equal snd) in E. simpl in E. rewrite <- E. vm_compute. reflexivity.
  - destruct (@approve_gate calm_env list_goque ex_messenger _ _ _ E) as (row & _ & _ & Hrow & Hdr & _).
    exists row. exact (conj Hrow Hdr).
Defined.

(** ** Creating a draft *)

Section create.
Context `{Env} `{Goque} `{Messenger} `{Ozzo} `{UserLister}.

(** What the rules make sure of. *)
Record valid_draft (now : Time) (cmd : CreateMaintenanceCmd) : Prop := mkValidDraft {
  vd_title : cc_Title cmd ≠ ""%string;
  vd_steps : 1 <= Z.of_nat (length (cc_Steps cmd)) <= 100;
  vd_each_step : ∀ s, s ∈ cc_Steps cmd ->
    1 <= si_Order s ∧ 5 <= si_DurationMinutes s ∧ si_Description s ≠ ""%string ∧ si_RollbackDescription s ≠ ""%string;
  vd_period : ∃ e, End_ (cc_PlannedPeriod cmd) = Some e ∧ now <= Start (cc_PlannedPeriod cmd) < e;
  vd_targets : 1 <= Z.of_nat (length (cc_NotifyTargets cmd)) <= 10;
  vd_resources : cc_Scope cmd = MaintenanceScopeResources -> cc_Resources cmd ≠ [];
  vd_no_nil : ∀ r, r ∈ cc_Resources cmd -> r ≠ uuid_Nil }.

Lemma Min_Required `{!OzzoSpec} k n : Required_int n = true -> Min k n = true -> k <= n.
Proof. intros Hr Hm. eapply Min_spec; [done|]. by apply Required_int_spec. Qed.
Lemma Length_Required `{!OzzoSpec} lo hi n :
  Required_slice n = true -> Length lo hi n = true -> lo <= Z.of_nat n <= hi.
Proof. intros Hr Hl. eapply Length_spec; [done|]. by apply Required_slice_spec. Qed.

Lemma valid_step `{!OzzoSpec} s : validateStepInput s = true ->
  1 <= si_Order s ∧ 5 <= si_DurationMinutes s ∧ si_Description s ≠ ""%string ∧ si_RollbackDescription s ≠ ""%string.
Proof.
  unfold validateStepInput. rewrite !andb_true_iff. intros [[[[[Ho1 Ho2] Hd] Hr] Hm1] Hm2].
  split_and!; [by apply Min_Required|by eapply Min_Required|by apply Required_string_spec..].
Qed.

Lemma valid_period now p : passes (validatePlanedPeriod now p) = true -> ∃ e, End_ p = Some e ∧ now <= Start p < e.
Proof.
  unfold validatePlanedPeriod. destruct (End_ p) as [e|]; simpl.
  - unfold IsZero, After, Before. intros E. exists e. split; [done|].
    repeat case_hyp E; simpl in E; try done; lia.
  - by rewrite orb_true_r.
Qed.

Lemma create_valid_draft `{!OzzoSpec} now cmd : create_valid now cmd = true -> valid_draft now cmd.
Proof.
  unfold create_valid. intros Hv. repeat rewrite andb_true_iff in Hv. destruct_and? Hv.
  split.
  - by apply Required_string_spec.
  - by apply (Length_Required minSteps maxSteps).
  - intros s Hs. apply valid_step.
    match goal with Hf : forallb validateStepInput _ = true |- _ => rewrite forallb_forall in Hf; apply Hf end.
    by apply list_elem_of_In.
  - by apply valid_period.
  - by apply (Length_Required minNotifyTargets maxNotifyTargets).
  - intros Hs. match goal with Hi : (if String.eqb _ _ then _ else _) = true |- _ => rewrite Hs in Hi; simpl in Hi;
      apply Required_slice_spec in Hi end. intros Hn. by rewrite Hn in *.
  - intros r Hr ->. match goal with Hf : forallb UUIDNotNil _ = true |- _ => rewrite forallb_forall in Hf;
      specialize (Hf uuid_Nil ltac:(by apply list_elem_of_In)) end.
    match goal with Hf : UUIDNotNil _ = true |- _ => unfold UUIDNotNil in Hf; by rewrite String.eqb_refl in Hf end.
Qed.

Lemma CreateDraft_Ok `{!OzzoSpec} cmd ctx w m w' :
  CreateDraft cmd ctx w = (Ok m, w') ->
  valid_draft (env_now (w_step w)) cmd ∧
  ∃ t w1 w2, create_in_tx cmd (mkCtx (Some t)) w1 = (Ok m, w2) ∧ w_db w1 = w_db w ∧
    core (w_db w') = core (w_db w2).
Proof.
  unfold CreateDraft, validateCreate. intros E. run_all. unfold UTCNow in *.
  match goal with Hu : (Ok _, tick _) = _ |- _ => injection Hu as <- <- end. split.
  - apply create_valid_draft. by apply negb_false_iff.
  - match goal with Hv : validateApprover _ _ _ = _ |- _ => rename Hv into Hval end.
    match goal with Hp : publishAudit _ _ _ = _ |- _ => pose proof (still_run _ _ _ _ _ (still_publishAudit _) Hp) as -> end.
    match goal with Ht : WithinTx _ _ _ = _ |- _ => apply WithinTx_Ok in Ht as (t & w1' & w2' & Hbody & Hdb1 & Hdb2 & _) end.
    exists t, w1', w2'. split_and!; [done| |by rewrite Hdb2]. rewrite Hdb1.
    assert (∀ J, keeps J (validateApprover (cc_ApproverUserID cmd)) (fun _ => True)) as Hstill.
    { intros J. eapply keeps_bind; [apply keeps_ask|]. intros [us|e] _; [|apply keeps_raise].
      eapply keeps_weaken; [apply keeps_reject_if|done]. }
    by destruct (keeps_run (fun db => db = w_db w) _ _ _ _ _ _ (Hstill _) Hval eq_refl).
Qed.

(** The columns of a step that come from the command. *)
Definition step_content (r : StepRow) : Z * string * string * Z * MaintenanceStepStatus :=
  (sr_StepOrder r, sr_Description r, sr_Rollback r, sr_DurationMinutes r, sr_Status r).
Definition input_content (i : MaintenanceStepInput) : Z * string * string * Z * MaintenanceStepStatus :=
  (si_Order i, si_Description i, si_RollbackDescription i, si_DurationMinutes i, MaintenanceStepStatusPlanned).

Lemma created_steps_content id inputs rows :
  Forall2 (fun s r => ∃ sid now, r = (pg_step_row (toDBMaintenanceStep id s)) <| sr_ID := sid |> <| sr_CreatedAt := now |>)
    (stepsFromCmd inputs MaintenanceStepStatusPlanned) rows -> step_content <$> rows = input_content <$> inputs.
Proof.
  unfold stepsFromCmd. intros Hrows%Forall2_fmap_l.
  induction Hrows as [|i r inputs rows (sid & now & ->) _ IH]; [done|]. rewrite !fmap_cons. f_equal. exact IH.
Qed.

Lemma elem_of_inserted_resources id ids l x :
  x ∈ foldl (fun l r => insert_resource r l) l (mkMaintResourceRow id <$> ids) ↔
  x ∈ l ∨ ∃ r, r ∈ ids ∧ x = mkMaintResourceRow id r.
Proof.
  revert l. induction ids as [|i ids IH]; intros l; [set_solver|]. rewrite fmap_cons. cbn [foldl]. rewrite IH.
  unfold insert_resource. destruct (decide _); set_solver.
Qed.

(** The steps of a maintenance that had none are the ones added. *)
Lemma steps_of_fresh id maints steps links l :
  (∀ s, s ∈ l -> sr_MaintenanceID s ≠ id) -> new_steps id steps -> steps_of id (mkCore maints (l ++ steps) links) ≡ₚ steps.
Proof.
  intros Hold Hnew. unfold steps_of. rewrite sort_by_Permutation. cbn [c_steps]. rewrite filter_app.
  assert (filter (fun r => sr_MaintenanceID r = id) l = []) as ->.
  { induction l as [|s l IH]; [done|]. rewrite filter_cons_False; [apply IH; set_solver|apply Hold; set_solver]. }
  simpl. induction Hnew as [|s steps [Hs _] _ IH]; [done|]. rewrite filter_cons_True by done. by rewrite IH.
Qed.

(** A created draft is the one that was asked for.  When [CreateDraft]
    succeeds the command was valid (a title; one to a hundred steps, each at
    least five minutes long; a start that is not past and precedes the end; one
    to ten targets; resources when the scope asks for them), the maintenance
    returned is new, and what is stored under its id is exactly the command: a
    draft row with its columns, its steps, all planned, and its resources
    unless it is global.  No other maintenance changed. *)
Theorem create_correct `{!OzzoSpec} cmd w m w' :
  core_ok (core (w_db w)) -> CreateDraft cmd background w = (Ok m, w') ->
  let c := core (w_db w) in
  let c' := core (w_db w') in
  valid_draft (env_now (w_step w)) cmd ∧ row_of (ID m) c = None ∧
  (∃ now, row_of (ID m) c' = Some (stored ((draft_of cmd) <| ID := ID m |> <| CreatedAt := now |>))) ∧
  step_content <$> steps_of (ID m) c' ≡ₚ input_content <$> cc_Steps cmd ∧
  (∀ r, mkMaintResourceRow (ID m) r ∈ c_links c' ↔ cc_Scope cmd ≠ MaintenanceScopeGlobal ∧ r ∈ cc_Resources cmd) ∧
  ∀ id, id ≠ ID m -> view id c' = view id c.
Proof.
  intros Hok (Hvalid & t & w1 & w2 & Hbody & Hdb & Hc)%CreateDraft_Ok. cbv zeta. rewrite Hc. clear Hc.
  apply create_in_tx_Ok in Hbody as (now & rows & Hcheck & Hex & Hsteps & _ & Hcore). rewrite Hdb in *. clear Hdb.
  assert (row_of (ID m) (core (w_db w)) = None) as Hnone.
  { destruct (row_of _ _) as [r|] eqn:Er; [|done].
    assert (maint_exists (ID m) (w_db w) = true) as Hex' by (apply maint_exists_row; exists r; exact Er). congruence. }
  rewrite Hcore. clear Hcore Hex. split; [done|]. split; [done|]. split_and!.
  - exists now. unfold row_of. cbn [c_maints]. unfold row_of in Hnone.
    rewrite find_app_None by exact Hnone. simpl. by rewrite N.eqb_refl.
  - rewrite steps_of_fresh; [by erewrite created_steps_content| |by eapply created_steps_new].
    intros s Hs Heq. apply (ok_step_refs _ Hok) in Hs. rewrite Heq, Hnone in Hs. by destruct Hs.
  - intros r. cbn [c_links]. rewrite elem_of_inserted_resources. unfold created_resources.
    assert (mkMaintResourceRow (ID m) r ∉ c_links (core (w_db w))) as Hno.
    { intros Hl%(ok_link_refs _ Hok). simpl in Hl. rewrite Hnone in Hl. by destruct Hl. }
    destruct (String.eqb_spec (cc_Scope cmd) MaintenanceScopeGlobal) as [->|Hne]; set_solver.
  - intros id Hne. destruct (insert_resources_new (ID m) (created_resources cmd) (c_links (core (w_db w)))) as (links & Hl & _ & ->).
    unfold view, steps_of. cbn [c_steps c_links]. rewrite row_of_snoc by (by apply not_eq_sym).
    rewrite !(filter_app_other _ id (ID m)); [done|done|done|done|].
    apply created_steps_new in Hsteps. eapply Forall_impl; [exact Hsteps|]. by intros ? [].
Qed.
End create.

Definition ex_create : CreateMaintenanceCmd :=
  mkCreateCmd "switch upgrade" "firmware" (NewPeriod (at_min 200) (at_min 260)) "resource" "partial" [72%N]
    [mkStepInput 2 "reboot" "power off" 30; mkStepInput 1 "upload" "delete" 30] [mkTargetInput 51] [] [] 11 12 "" (Some ex_admin).

Lemma create_correct_witness :
  let '(r, w') := @CreateDraft calm_env list_goque ex_ozzo ex_users ex_create background ex_world in
  match r with
  | Ok m => row_of (ID m) (core ex_db) = None ∧
            step_content <$> steps_of (ID m) (core (w_db w')) ≡ₚ input_content <$> cc_Steps ex_create
  | _ => False
  end ∧ mr_Status <$> maintenances (w_db w') = ["planned"; "draft"; "in_progress"; "draft"].
Proof.
  pose proof (@create_correct calm_env list_goque ex_ozzo ex_users ex_ozzo_spec ex_create ex_world) as Ht.
  evaluate (@CreateDraft calm_env list_goque ex_ozzo ex_users ex_create background ex_world).
  destruct (Ht _ _ ex_core_ok eq_refl) as (_ & Hnone & _ & Hsteps & _).
  split; [exact (conj Hnone Hsteps)|]. vm_compute. reflexivity.
Defined.

(** ** The sweep over overdue maintenances *)

Section sweep.
Context `{Env} `{Goque} `{Messenger} `{Ozzo} `{UserLister}.

Definition unstarted (s : MaintenanceStatus) : Prop := s = MaintenanceStatusDraft ∨ s = MaintenanceStatusPlanned.
Definition auto_cancelled (r : MaintRow) : Prop :=
  mr_Status r = MaintenanceStatusCancelled ∧ mr_CanceledReasonCode r = Some MaintenanceCancelReasonNotStarted.

(** Only rows of [ids] changed, from not started to cancelled. *)
Definition swept (ids : list UUID) (c c' : Core) : Prop :=
  c_steps c' = c_steps c ∧ c_links c' = c_links c ∧
  ∀ id, row_of id c' = row_of id c ∨
    id ∈ ids ∧ ∃ r r', row_of id c = Some r ∧ unstarted (mr_Status r) ∧ row_of id c' = Some r' ∧ auto_cancelled r'.

#[local] Instance swept_reflexive ids : Reflexive (swept ids).
Proof. intros c. split_and!; [done..|]. intros id. by left. Qed.
#[local] Instance swept_transitive ids : Transitive (swept ids).
Proof.
  intros c1 c2 c3 (Hs1 & Hl1 & Hr1) (Hs2 & Hl2 & Hr2). split_and!; [congruence..|]. intros id.
  destruct (Hr1 id) as [E1|(Hin & r & r' & E & Hu & E' & Hc)], (Hr2 id) as [E2|(Hin2 & q & q' & F & Hq & F' & Hqc)].
  - left. congruence.
  - right. split; [done|]. exists q, q'. split_and!; [congruence|done..].
  - right. split; [done|]. exists r, r'. split_and!; [done..|congruence|done].
  - exfalso. simplify_eq. destruct Hc as [Hc _], Hq as [Hq|Hq]; rewrite Hc in Hq; discriminate.
Qed.
Lemma swept_mono ids ids' c c' : ids ⊆ ids' -> swept ids c c' -> swept ids' c c'.
Proof. intros Hi (Hs & Hl & Hr). split_and!; [done..|]. intros id. destruct (Hr id) as [|[??]]; [by left|right]. set_solver. Qed.

Lemma still_unstarted_spec m u : still_unstarted m = Ok u -> unstarted (Status m).
Proof.
  unfold still_unstarted, unstarted. destruct (String.eqb_spec (Status m) MaintenanceStatusDraft); [by left|].
  destruct (String.eqb_spec (Status m) MaintenanceStatusPlanned); [by right|]. done.
Qed.

Lemma apply_cancel_Ok cmd can m ctx w m' b w' :
  apply_cancel cmd can m ctx w = (Ok (m', b), w') ->
  can m = Ok tt ∧ ∃ now, m' = (CloseActualPeriod now m) <| Status := MaintenanceStatusCancelled |>
    <| CancelReason := ca_Reason cmd |> <| CancelReasonComment := ca_ReasonComment cmd |>.
Proof.
  unfold apply_cancel. intros E. run_all. unfold lift in *.
  match goal with Hl : (can m, _) = (Ok ?u, _) |- _ => injection Hl as Hl _; destruct u end. eauto.
Qed.

(** One maintenance, which is cancelled. *)
Definition sweeps (id : UUID) (c c' : Core) : Prop :=
  swept [id] c c' ∧ ∃ r, row_of id c' = Some r ∧ auto_cancelled r.

Lemma cancelled_row_of id now row m cmd u c :
  ID m = id -> row_of id c = Some row ->
  let m' := (CloseActualPeriod now m) <| Status := MaintenanceStatusCancelled |>
    <| CancelReason := ca_Reason cmd |> <| CancelReasonComment := ca_ReasonComment cmd |> <| UpdatedAt := u |> in
  ca_Reason cmd = MaintenanceCancelReasonNotStarted -> unstarted (mr_Status row) ->
  sweeps id c (mkCore (set_row (stored m') (c_maints c)) (c_steps c) (c_links c)).
Proof.
  intros Hid Hrow m' Hreason Hu.
  assert (mr_ID (stored m') = id ∧ auto_cancelled (stored m')) as [Hid' Hc].
  { unfold auto_cancelled, m'. simpl. rewrite Hreason. by destruct (CloseActualPeriod_frame now m) as [-> _]. }
  clearbody m'. split; [split_and!; [done..|]|].
  - intros i. rewrite row_of_set_row, Hid'. destruct (N.eqb_spec i id) as [->|]; [|by left]. right. rewrite Hrow.
    split; [set_solver|]. by exists row, (stored m').
  - exists (stored m'). split; [|done]. by eapply row_of_set_same.
Qed.

Lemma cancel_body m : body_does (sweeps (ID m)) (apply_in_tx (ID m) (apply_cancel (unstarted_cmd m) still_unstarted)).
Proof.
  intros t w [[prev current] b] w' (row & w1 & m' & w2 & now & Hrow & -> & Hdb1 & Happly & -> & _ & ->)%apply_in_tx_Ok.
  pose proof (still_run _ _ _ _ _ (still_apply_cancel _ _ _) Happly) as Hcore. rewrite Hdb1 in Hcore. rewrite Hcore.
  apply apply_cancel_Ok in Happly as [Hu%still_unstarted_spec (now' & ->)].
  destruct (row_of_Some _ _ _ Hrow) as [_ Hid].
  by apply (cancelled_row_of (ID m) now' row (fromDBMaintenance row) (unstarted_cmd m)).
Qed.

(** Where the error that stands for "nothing to do" comes from. *)
Definition skips (e : error) : bool := errors_Is e errSkipUpdate.

Lemma fault_skips f : skips (fault_error f) = false.
Proof. by destruct f. Qed.
Lemma sql_Err {A} (f : Stmt -> DB -> outcome (A * DB)) ctx w e w' :
  sql f ctx w = (Err e, w') -> (∃ ft, e = fault_error ft) ∨ ∃ s, f s (w_db w) = Err e.
Proof.
  unfold sql. destruct (env_fault _); [naive_solver|]. destruct (f _ _) as [[]| |] eqn:E; naive_solver.
Qed.

Lemma bind_Err {A B} (m : M A) (k : A -> M B) ctx w e w' :
  (m ≫= k) ctx w = (Err e, w') -> m ctx w = (Err e, w') ∨ ∃ a w1, m ctx w = (Ok a, w1) ∧ k a ctx w1 = (Err e, w').
Proof. unfold mbind, M_bind. destruct (m ctx w) as [[] ?]; naive_solver. Qed.

Lemma getMaint_skips id ctx w e w' : getMaint id ctx w = (Err e, w') -> skips e = false.
Proof.
  intros [[(ft & ->)|(s & [=])]%sql_Err|(r & w1 & _ & E)]%bind_Err; [apply fault_skips|].
  destruct r; [done|]. injection E as <- _. reflexivity.
Qed.
Lemma UpdateMaint_skips m ctx w e w' : MaintStore.UpdateMaint m ctx w = (Err e, w') -> skips e = false.
Proof.
  intros [E|(now & w1 & _ & [(ft & ->)|(s & E)]%sql_Err)]%bind_Err; [done|apply fault_skips|].
  cbv zeta in E. destruct (maint_exists _ _); [|done]. destruct (check_maint_row _); [|done]. injection E as <-. reflexivity.
Qed.
Lemma apply_cancel_Err cmd m ctx w e w' :
  apply_cancel cmd still_unstarted m ctx w = (Err e, w') -> ~ unstarted (Status m).
Proof.
  intros [E|(u & w1 & _ & [E|(u' & w2 & _ & E)]%bind_Err)]%bind_Err; [| |done].
  - unfold reject_if in E. destruct (String.eqb_spec (Status m) MaintenanceStatusCancelled) as [->|]; [|done].
    intros [?|?]; discriminate.
  - unfold lift, still_unstarted in E. destruct (String.eqb_spec (Status m) MaintenanceStatusDraft); [done|].
    destruct (String.eqb_spec (Status m) MaintenanceStatusPlanned); [done|]. by intros [?|?].
Qed.

Lemma cancel_body_skips m ctx w e w' :
  apply_in_tx (ID m) (apply_cancel (unstarted_cmd m) still_unstarted) ctx w = (Err e, w') -> skips e = true ->
  ∃ r, row_of (ID m) (core (w_db w)) = Some r ∧ ~ unstarted (mr_Status r).
Proof.
  intros [E%getMaint_skips|(m0 & w1 & Hget & E)]%bind_Err Hsk; [congruence|].
  apply getMaint_Ok in Hget as (row & Hrow & -> & _).
  apply bind_Err in E as [E%apply_cancel_Err|([m' b] & w2 & _ & E)]; [by exists row|].
  apply bind_Err in E as [E%UpdateMaint_skips|(c & w3 & _ & E)]; [congruence|done].
Qed.

Lemma WithinTx_skips {A} (fn : M A) w e w' :
  WithinTx fn background w = (Err e, w') -> skips e = true ->
  ∃ t w1 e0 w2, w_db w1 = w_db w ∧ w_db w' = w_db w ∧ fn (mkCtx (Some t)) w1 = (Err e0, w2) ∧ skips e0 = true.
Proof.
  intros E Hsk. destruct (WithinTx_cases _ _ _ _ E) as [(e' & _ & Hdb)|(a & w2 & [=] & _)]. revert E.
  unfold WithinTx, TxFromContext, rollback. simpl. destruct (env_fault (w_step w)) as [f|].
  { intros [= <- _]. by rewrite fault_skips in Hsk. }
  destruct (fn _ (tick w)) as [[a|fnErr|s] w2] eqn:Hfn.
  - destruct (env_fault (w_step w2)) as [f|]; intros E; [|discriminate E]. injection E as <- _.
    unfold skips in Hsk. simpl in Hsk. pose proof (fault_skips f) as Hf. unfold skips in Hf. by rewrite Hf in Hsk.
  - intros E. exists (env_now (w_step w)), (tick w), fnErr, w2. split; [reflexivity|]. split; [exact Hdb|]. split; [exact Hfn|].
    destruct (env_fault (w_step w2)) as [f|]; injection E as <- _; unfold skips in *; simpl in Hsk.
    + pose proof (fault_skips f) as Hf. unfold skips in Hf. rewrite Hf in Hsk. by rewrite orb_false_r in Hsk.
    + done.
  - destruct (env_fault (w_step w2)) as [f|]; intros E; injection E as <- _; unfold skips in Hsk; simpl in Hsk; [|done].
    pose proof (fault_skips f) as Hf. unfold skips in Hf. by rewrite Hf in Hsk.
Qed.

Lemma dispatchMaintLifecycle_never_fails m m' ctx w e w' : dispatchMaintLifecycle m m' ctx w ≠ (Err e, w').
Proof.
  unfold dispatchMaintLifecycle. destruct (maintLifecycleEvent _ _) as [k|]; [|done].
  intros [E|(u & w1 & _ & E)]%bind_Err.
  - destruct (String.eqb _ _); [|done]. apply bind_Err in E as [E|(r & w2 & _ & E)]; [|done].
    unfold attempt in E. by destruct (Deferred.Cancel _ _ _) as [[] ?].
  - unfold NotifyMaintLifecycle, dispatch_logged in E. destruct (IsStep k); [done|]. apply bind_Err in E as [E|(r & w2 & _ & E)]; [|done].
    unfold attempt in E. by destruct (dispatch _ _ _) as [[] ?].
Qed.

Lemma updateWithApply_Err {B} id (apply : Maintenance -> M (Maintenance * B)) ctx w e w' :
  updateWithApply id apply ctx w = (Err e, w') -> WithinTx (apply_in_tx id apply) ctx w = (Err e, w').
Proof.
  intros [E|([[p c] b] & w1 & _ & E)]%bind_Err; [done|].
  apply bind_Err in E as [E%dispatchMaintLifecycle_never_fails|(u & w2 & _ & E)]; done.
Qed.

(** A cancellation that reports success leaves the maintenance not waiting. *)
Lemma cancelMaint_Ok m w u w' :
  cancelMaint (unstarted_cmd m) still_unstarted background w = (Ok u, w') ->
  maybe (swept [ID m]) (core (w_db w)) (core (w_db w')) ∧
  ∃ r, row_of (ID m) (core (w_db w')) = Some r ∧ ~ unstarted (mr_Status r).
Proof.
  unfold cancelMaint. intros ([[[prev current] b]|err] & w1 & Hatt & E)%bind_Ok; apply attempt_Ok in Hatt.
  - pose proof (still_run _ _ _ _ _ (still_publishAudit _) E) as ->. unfold updateWithApply, runUpdateWithApply in Hatt.
    apply bind_Ok in Hatt as ([[p c] b'] & w2 & Htx & Hatt). apply bind_Ok in Hatt as (u' & w3 & Hd & Hret).
    unfold mret, M_ret in Hret. assert (w3 = w1) as -> by by injection Hret.
    rewrite (still_run _ _ _ _ _ (still_dispatchMaintLifecycle _ _) Hd).
    apply WithinTx_Ok in Htx as (t & w4 & w5 & Hbody & Hdb4 & Hdb5 & _).
    apply cancel_body in Hbody as [Hsw (r & Hr & Hc)]. rewrite Hdb4 in Hsw. rewrite Hdb5. split; [by right|].
    exists r. split; [done|]. destruct Hc as [Hc _]. intros [Hu|Hu]; rewrite Hc in Hu; discriminate.
  - destruct (errors_Is err errSkipUpdate) eqn:Hsk; [|done]. assert (w1 = w') as -> by by injection E.
    apply updateWithApply_Err in Hatt. apply WithinTx_skips in Hatt as (t & w2 & e0 & w3 & Hdb2 & Hdb' & Hbody & Hsk'); [|done].
    apply cancel_body_skips in Hbody; [|done]. rewrite Hdb'. rewrite Hdb2 in Hbody. split; [by left|done].
Qed.

Lemma refines_swept m : refines (maybe (swept [ID m])) (cancelMaint (unstarted_cmd m) still_unstarted).
Proof.
  apply refines_then; [|still_solve]. apply refines_attempt, refines_updateWithApply.
  intros t w a w' [E _]%cancel_body. exact E.
Qed.
Lemma maybe_swept ids id c c' : id ∈ ids -> maybe (swept [id]) c c' -> swept ids c c'.
Proof. intros Hid [->|E]; [done|]. eapply swept_mono; [|exact E]. set_solver. Qed.

Lemma cancel_each_swept ids l errs : (∀ m, m ∈ l -> ID m ∈ ids) -> refines (swept ids) (cancel_each l errs).
Proof.
  revert errs. induction l as [|m l IH]; intros errs Hl; simpl.
  - apply refines_still; [apply _|]. destruct errs; auto with still.
  - assert (refines (swept ids) (attempt (cancelMaint (unstarted_cmd m) still_unstarted))) as Hm.
    { intros w r w' E. apply (maybe_swept ids (ID m)); [apply Hl; set_solver|]. by eapply (refines_attempt _ _ (refines_swept m)), E. }
    intros w r w' [(a & w1 & E1 & E2)|(_ & r0 & E & _)]%bind_inv; [|by eapply Hm].
    etrans; [by eapply Hm|]. eapply IH; [set_solver|done].
Qed.

Lemma swept_settled ids c c' id r :
  swept ids c c' -> row_of id c = Some r -> ~ unstarted (mr_Status r) -> row_of id c' = Some r.
Proof. intros (_ & _ & Hr) E Hu. destruct (Hr id) as [->|(_ & q & q' & F & Hq & _)]; [done|]. by simplify_eq. Qed.

Lemma cancel_each_fails l e w u w' : cancel_each l (Some e) background w ≠ (Ok u, w').
Proof.
  revert e w. induction l as [|m l IH]; intros e w; simpl; [done|].
  intros ([x|e'] & w1 & _ & E)%bind_Ok; by apply IH in E.
Qed.

Lemma cancel_each_Ok l w u w' : cancel_each l None background w = (Ok u, w') ->
  ∀ m, m ∈ l -> ∃ r, row_of (ID m) (core (w_db w')) = Some r ∧ ~ unstarted (mr_Status r).
Proof.
  revert w. induction l as [|m0 l IH]; intros w E m Hm; [by apply elem_of_nil in Hm|]. simpl in E.
  apply bind_Ok in E as ([x|e] & w1 & Hatt & E); [|by apply cancel_each_fails in E].
  apply attempt_Ok, cancelMaint_Ok in Hatt as [_ (r & Hr & Hu)].
  apply elem_of_cons in Hm as [->|Hm]; [|by apply (IH w1)]. exists r. split; [|done].
  eapply swept_settled; [|exact Hr|done]. eapply (cancel_each_swept (ID <$> l)); [|exact E].
  intros m. by apply list_elem_of_fmap_2.
Qed.

(** The rows a sweep looks at. *)
Definition overdue_rows (cutoff : Time) (limit : Z) (db : DB) : list MaintRow :=
  pg_limit limit (sort_by (fun a b => Z.compare (lower_bound a) (lower_bound b))
    (List.filter (overdue cutoff) (maintenances db))).

Lemma overdue_rows_spec cutoff limit db r :
  NoDup (mr_ID <$> maintenances db) -> r ∈ overdue_rows cutoff limit db ->
  row_of (mr_ID r) (core db) = Some r ∧ overdue cutoff r = true.
Proof.
  intros Hnd Hr%elem_of_take. destruct Hr as (i & Hr%list_elem_of_lookup_2 & _).
  rewrite elem_of_sort_by, list_elem_of_In, filter_In, <- list_elem_of_In in Hr. destruct Hr as [Hr Ho]. split; [|done].
  destruct (row_of (mr_ID r) (core db)) as [r'|] eqn:E.
  - apply row_of_Some in E as [Hr' Hid]. f_equal. by apply (NoDup_fmap_2_elem mr_ID (maintenances db)).
  - assert (is_Some (row_of (mr_ID r) (core db))) as Hs by (apply row_of_elem, list_elem_of_fmap_2, Hr).
    rewrite E in Hs. by destruct Hs.
Qed.

Lemma CancelUnStarted_swept cutoff limit w r w' :
  CancelUnStarted cutoff limit background w = (r, w') ->
  let ids := mr_ID <$> overdue_rows cutoff limit (w_db w) in
  swept ids (core (w_db w)) (core (w_db w')) ∧
  (r = Ok tt -> ∀ id, id ∈ ids -> ∃ q, row_of id (core (w_db w')) = Some q ∧ ~ unstarted (mr_Status q)).
Proof.
  assert (∀ J, keeps J (ListOverdueNotStarted cutoff limit) (fun _ => True)) as Hlist.
  { intros J. unfold ListOverdueNotStarted, make_cap. eapply keeps_bind; [|intros; apply keeps_query_any].
    destruct (limit <? 0); [apply keeps_panic with (Q := fun _ => True)|by apply keeps_ret]. }
  intros [(l & w1 & E1 & E2)|(Hr & r0 & E & _)]%bind_inv.
  - destruct (keeps_run (fun db => db = w_db w) _ _ _ _ _ _ (Hlist _) E1 eq_refl) as [Hdb _].
    unfold ListOverdueNotStarted, make_cap in E1. apply bind_Ok in E1 as (u & w2 & Hcap & Hq). apply query_Ok in Hq as [-> _].
    assert (w_db w2 = w_db w) as Hdb2 by (destruct (limit <? 0); by injection Hcap as _ <-).
    rewrite Hdb2 in E2. fold (overdue_rows cutoff limit (w_db w)) in E2.
    assert (cancel_each (fromDBMaintenance <$> overdue_rows cutoff limit (w_db w)) None background w1 = (r, w')) as E3.
    { destruct (fromDBMaintenance <$> _); [|done]. exact E2. }
    rewrite <- Hdb. split.
    + eapply cancel_each_swept; [|exact E3]. intros m (x & -> & Hx)%list_elem_of_fmap. rewrite Hdb. by apply (list_elem_of_fmap_2 mr_ID).
    + intros -> id (x & -> & Hx)%list_elem_of_fmap. rewrite Hdb in Hx.
      by apply (cancel_each_Ok _ _ _ _ E3 (fromDBMaintenance x)), list_elem_of_fmap_2.
  - destruct (keeps_run (fun db => db = w_db w) _ _ _ _ _ _ (Hlist _) E eq_refl) as [-> _]. split; [done|].
    intros ->. by destruct (Hr tt).
Qed.

(** C35. The sweep cancels the overdue maintenances and nothing else.  However
    [CancelUnStarted] ends, steps and links are untouched, and a row that
    changed belonged to one of the at most [limit] drafts or planned
    maintenances whose planned start lies before the cutoff, and is now
    cancelled with the reason "not started"; when it reports success, every one
    of those is.  A maintenance that was started is never touched. *)
Theorem sweep_correct cutoff limit w :
  NoDup (mr_ID <$> maintenances (w_db w)) ->
  let '(r, w') := CancelUnStarted cutoff limit background w in
  let rows := overdue_rows cutoff limit (w_db w) in
  let cancelled row := ∃ row', row_of (mr_ID row) (core (w_db w')) = Some row' ∧ auto_cancelled row' in
  (length rows <= Z.to_nat limit)%nat ∧ Forall (fun row => overdue cutoff row = true) rows ∧
  c_steps (core (w_db w')) = c_steps (core (w_db w)) ∧ c_links (core (w_db w')) = c_links (core (w_db w)) ∧
  (∀ id, row_of id (core (w_db w')) = row_of id (core (w_db w)) ∨ ∃ row, row ∈ rows ∧ mr_ID row = id ∧ cancelled row) ∧
  (r = Ok tt -> ∀ row, row ∈ rows -> cancelled row).
Proof.
  intros Hnd. destruct (CancelUnStarted cutoff limit background w) as [r w'] eqn:E.
  apply CancelUnStarted_swept in E as [(Hs & Hl & Hr) Hok]. cbv zeta. split_and!; [|..|].
  - unfold overdue_rows, pg_limit. rewrite length_take. lia.
  - apply Forall_forall. intros row Hrow. by eapply overdue_rows_spec.
  - done.
  - done.
  - intros id. destruct (Hr id) as [|(Hin & q & q' & Eq & _ & Eq' & Hc)]; [by left|right].
    apply list_elem_of_fmap in Hin as (row & -> & Hrow). exists row. eauto.
  - intros ->. intros row Hrow. destruct (Hok eq_refl (mr_ID row)) as (q & Eq & Hu); [by apply list_elem_of_fmap_2|].
    destruct (Hr (mr_ID row)) as [Esame|(_ & _ & q' & _ & _ & Eq' & Hc)]; [|by exists q'].
    destruct (overdue_rows_spec _ _ _ _ Hnd Hrow) as [Erow Ho]. exfalso. apply Hu.
    rewrite Eq, Erow in Esame. injection Esame as ->. unfold overdue in Ho. apply andb_true_iff in Ho as [Ho _].
    rewrite orb_true_iff, !String.eqb_eq in Ho. exact Ho.
Qed.
End sweep.

Lemma sweep_correct_witness :
  let '(r, w') := @CancelUnStarted calm_env list_goque ex_messenger (at_min 91) 5 background ex_world in
  r = Ok tt ∧ mr_Status <$> maintenances (w_db w') = ["canceled"; "canceled"; "in_progress"] ∧
  length (overdue_rows (at_min 91) 5 ex_db) = 2%nat ∧
  c_steps (core (w_db w')) = maintenance_steps ex_db.
Proof.
  pose proof (@sweep_correct calm_env list_goque ex_messenger (at_min 91) 5 ex_world (ok_ids _ ex_core_ok)) as Ht.
  evaluate (@CancelUnStarted calm_env list_goque ex_messenger (at_min 91) 5 background ex_world).
  destruct Ht as (_ & _ & Hs & _). split; [reflexivity|]. split; [vm_compute; reflexivity|].
  split; [vm_compute; reflexivity|]. exact Hs.
Defined.

(** ** The planned period of a list of steps *)

Definition total_minutes (steps : list MaintenanceStep) : Z := foldr (fun s acc => st_DurationMinutes s + acc) 0 steps.

Lemma total_minutes_nonneg steps : Forall (fun s => 0 <= st_DurationMinutes s) steps -> 0 <= total_minutes steps.
Proof. induction 1 as [|s l Hs _ IH]; simpl; [done|]. lia. Qed.

Lemma total_duration_acc steps acc :
  Forall (fun s => 0 <= st_DurationMinutes s) steps -> 0 <= acc -> acc + total_minutes steps * Minute < 2 ^ 63 ->
  fold_left (fun acc s => wrap64 (acc + wrap64 (st_DurationMinutes s * Minute))) steps acc = acc + total_minutes steps * Minute.
Proof.
  intros Hpos. revert acc. induction Hpos as [|s l Hs Hl IH]; intros acc Hacc Hlt; cbn [fold_left total_minutes foldr] in *.
  - lia.
  - fold (total_minutes l) in *. pose proof (total_minutes_nonneg l Hl).
    assert (0 < Minute) by reflexivity.
    rewrite (wrap64_id (st_DurationMinutes s * Minute)) by (unfold in_int64; nia).
    rewrite wrap64_id by (unfold in_int64; nia). rewrite IH by nia. nia.
Qed.

Lemma recalculated_exact start steps :
  steps ≠ [] -> Forall (fun s => 0 < st_DurationMinutes s) steps -> total_minutes steps * Minute < 2 ^ 63 ->
  recalculatePlannedPeriod start steps = NewPeriod start (start + total_minutes steps * Minute).
Proof.
  intros Hne Hpos Hlt. unfold recalculatePlannedPeriod, total_duration.
  rewrite total_duration_acc; [|eapply Forall_impl; [exact Hpos|simpl; lia]|lia|lia].
  destruct steps as [|s l]; [done|]. apply Forall_cons in Hpos as [Hs Hl].
  assert (0 <= total_minutes l) by (apply total_minutes_nonneg; eapply Forall_impl; [exact Hl|simpl; lia]).
  cbn [total_minutes foldr] in *. fold (total_minutes l) in *.
  assert (0 < Minute) by reflexivity. rewrite Z.add_0_l. destruct (Z.eqb_spec ((st_DurationMinutes s + total_minutes l) * Minute) 0); [nia|done].
Qed.

Definition ex_steps : list MaintenanceStep :=
  stepsFromCmd [mkStepInput 1 "upload" "delete" 30; mkStepInput 2 "reboot" "power off" 45] MaintenanceStepStatusPlanned.

(** Two steps of 190 years each. *)
Definition long_steps : list MaintenanceStepInput :=
  [mkStepInput 1 "copy" "drop the copy" 100000000; mkStepInput 2 "switch over" "switch back" 100000000].

(** C37. The planned period of a draft covers its steps: as long as the step
    durations add up to less than the range of a [time.Duration] (292 years),
    the period recalculated from a start and a non-empty list of steps with
    positive durations runs from that start for exactly their sum.  Without the
    bound, which no validation enforces, the sum wraps: two steps that each pass
    validation give a period that ends before it starts. *)
Theorem recalculatePlannedPeriod_range :
  (∀ start steps, steps ≠ [] -> Forall (fun s => 0 < st_DurationMinutes s) steps -> total_minutes steps * Minute < 2 ^ 63 ->
     recalculatePlannedPeriod start steps = NewPeriod start (start + total_minutes steps * Minute)) ∧
  forallb (@validateStepInput ex_ozzo) long_steps = true ∧
  ∃ e, recalculatePlannedPeriod T0 (stepsFromCmd long_steps MaintenanceStepStatusPlanned) = NewPeriod T0 e ∧ e < T0.
Proof.
  split; [exact recalculated_exact|]. split; [by vm_compute|]. exists (T0 - 6446744073709551616). split; vm_compute; reflexivity.
Qed.

Lemma recalculatePlannedPeriod_range_witness :
  recalculatePlannedPeriod T0 ex_steps = NewPeriod T0 (T0 + 75 * Minute).
Proof.
  rewrite (proj1 recalculatePlannedPeriod_range T0 ex_steps); [reflexivity|discriminate| |reflexivity].
  repeat constructor.
Defined.

(** ** What a step loses when it moves on *)

(** What is read back of a step after an update. *)
Definition read_back (s : MaintenanceStep) : MaintenanceStep :=
  s <| st_ActualStartedAt := pg_ts <$> st_ActualStartedAt s |>
    <| st_ActualCompletedAt := pg_ts <$> st_ActualCompletedAt s |>
    <| st_CreatedAt := pg_ts zeroTime |> <| st_UpdatedAt := None |>.

(** C38. Storing a step and reading it back gives the step that was stored, its
    times rounded as PostgreSQL rounds them, except for its bookkeeping: the
    creation time becomes the zero time and the update time is lost.  The other
    steps, and every other table, are untouched. *)
Theorem UpdateStep_roundtrip `{Env} id s ctx w s' w' :
  UpdateStep id s ctx w = (Ok s', w') ->
  ∃ l, w_db w' = (w_db w) <| maintenance_steps := l |> ∧
    Forall2 (fun old new =>
      if step_target id (st_ID s) old then fromDBMaintenanceStep new = read_back s else new = old) (maintenance_steps (w_db w)) l.
Proof.
  intros (now & _ & _ & Hdb)%UpdateStep_Ok. eexists. split; [exact Hdb|].
  apply Forall2_fmap_r. clear. induction (maintenance_steps (w_db w)) as [|r rows IH]; constructor; [simpl|done].
  destruct (step_target id (st_ID s) r); [|done]. by destruct s.
Qed.

Lemma UpdateStep_roundtrip_witness :
  ∃ l, Forall2 (fun old new => if step_target 3 31 old then sr_CreatedAt new = pg_ts zeroTime else new = old)
         (maintenance_steps ex_db) l.
Proof.
  destruct (@UpdateStep_roundtrip calm_env 3 (fromDBMaintenanceStep (ex_step 31 1 "completed")) background ex_world
              _ _ ltac:(vm_compute; reflexivity)) as (l & _ & Hl).
  exists l. eapply Forall2_impl; [exact Hl|]. intros old new. simpl.
  destruct (step_target 3 31 old); [|done]. intros E. exact (f_equal st_CreatedAt E).
Defined.

(** ** Editing a draft *)

Section edit.
Context `{Env} `{Goque} `{Messenger} `{Ozzo} `{UserLister}.

Definition edited_period (old : Period) (cmd : UpdateMaintenanceCmd) (new : Period) : Prop :=
  let base := match uc_Steps cmd with
              | [] => old
              | inputs => recalculatePlannedPeriod (Start old) (stepsFromCmd inputs MaintenanceStepStatusPlanned)
              end in
  match uc_PlannedStart cmd with
  | None => new = base
  | Some s => ∃ e, End_ base = Some e ∧ new = NewPeriod s (Time_Add s (Time_Sub e (Start base)))
  end.

(** Every column is the command's value, or the old one where the command has none. *)
Record edited (old new : Maintenance) (cmd : UpdateMaintenanceCmd) : Prop := mkEdited {
  ed_id : ID new = ID old;
  ed_status : Status new = Status old;
  ed_title : Title new = FromPtr (Title old) (uc_Title cmd);
  ed_description : Description new = FromPtr (Description old) (uc_Description cmd);
  ed_scope : Scope new = FromPtr (Scope old) (uc_Scope cmd);
  ed_impact : Impact new = FromPtr (Impact old) (uc_Impact cmd);
  ed_approver : ApproverUserID new = FromPtr (ApproverUserID old) (uc_ApproverUserID cmd);
  ed_url : TaskTrackerURL new = FromPtr (TaskTrackerURL old) (uc_TaskTrackerURL cmd);
  ed_created : CreatedAt new = CreatedAt old ∧ CreatedByUserID new = CreatedByUserID old;
  ed_actual : ActualPeriod new = ActualPeriod old;
  ed_period : edited_period (PlannedPeriod old) cmd (PlannedPeriod new) }.

Lemma set_opt_same {A T} (p : Maintenance -> T) (o : option A) (g : A -> T) f m :
  (∀ a m, p (f a m) = g a) -> p (set_opt o f m) = match o with Some a => g a | None => p m end.
Proof. intros Hp. by destruct o; simpl. Qed.

Lemma Normalize_other {T} (p : Maintenance -> T) m :
  (∀ m rs, p (m <| Resources := rs |>) = p m) -> p (Normalize m) = p m.
Proof. intros Hp. unfold Normalize. by destruct (String.eqb _ _). Qed.

(** The second half of the assignments. *)
Lemma rest_edited (m1 : Maintenance) ts cmd :
  let m2 := assign_rest ts cmd m1 in
  ID m2 = ID m1 ∧ Status m2 = Status m1 ∧ Title m2 = Title m1 ∧ Description m2 = Description m1 ∧
  Scope m2 = FromPtr (Scope m1) (uc_Scope cmd) ∧ Impact m2 = FromPtr (Impact m1) (uc_Impact cmd) ∧
  ApproverUserID m2 = FromPtr (ApproverUserID m1) (uc_ApproverUserID cmd) ∧ TaskTrackerURL m2 = TaskTrackerURL m1 ∧
  CreatedAt m2 = CreatedAt m1 ∧ CreatedByUserID m2 = CreatedByUserID m1 ∧ ActualPeriod m2 = ActualPeriod m1 ∧
  PlannedPeriod m2 = PlannedPeriod m1.
Proof.
  unfold assign_rest. cbv zeta. destruct (uc_Resources cmd), ts; split_and!;
    rewrite Normalize_other by done; rewrite ?set_opt_proj by done; simpl; rewrite ?set_opt_proj by done; try done.
  all: destruct (uc_Scope cmd), (uc_Impact cmd), (uc_ApproverUserID cmd); done.
Qed.

Lemma applyValues_edited m ts cmd m' : applyValuesFromUpdateCmd m ts cmd = Ok m' -> edited m m' cmd.
Proof.
  unfold applyValuesFromUpdateCmd. cbv zeta. set (m1 := match uc_Steps cmd with [] => _ | _ => _ end). intros E.
  assert (ID m1 = ID m ∧ Status m1 = Status m ∧ Title m1 = FromPtr (Title m) (uc_Title cmd) ∧
    Description m1 = FromPtr (Description m) (uc_Description cmd) ∧ Scope m1 = Scope m ∧ Impact m1 = Impact m ∧
    ApproverUserID m1 = ApproverUserID m ∧ TaskTrackerURL m1 = FromPtr (TaskTrackerURL m) (uc_TaskTrackerURL cmd) ∧
    CreatedAt m1 = CreatedAt m ∧ CreatedByUserID m1 = CreatedByUserID m ∧ ActualPeriod m1 = ActualPeriod m ∧
    PlannedPeriod m1 = match uc_Steps cmd with
      | [] => PlannedPeriod m
      | inputs => recalculatePlannedPeriod (Start (PlannedPeriod m)) (stepsFromCmd inputs MaintenanceStepStatusPlanned)
      end) as (F1 & F2 & F3 & F4 & F5 & F6 & F7 & F8 & F9 & F10 & F11 & F12).
  { subst m1. destruct (uc_Steps cmd), (uc_Title cmd), (uc_Description cmd), (uc_TaskTrackerURL cmd); done. }
  clearbody m1. destruct (uc_PlannedStart cmd) as [s|] eqn:Es.
  - unfold Period_Duration in E. destruct (End_ (PlannedPeriod m1)) as [e|] eqn:Ee; [|done]. injection E as <-.
    destruct (rest_edited (m1 <| PlannedPeriod := NewPeriod s (Time_Add s (Time_Sub e (Start (PlannedPeriod m1)))) |>) ts cmd)
      as (G1 & G2 & G3 & G4 & G5 & G6 & G7 & G8 & G9 & G10 & G11 & G12).
    split; rewrite ?G1, ?G2, ?G3, ?G4, ?G5, ?G6, ?G7, ?G8, ?G9, ?G10, ?G11, ?G12; simpl;
      rewrite ?F1, ?F2, ?F3, ?F4, ?F5, ?F6, ?F7, ?F8, ?F9, ?F10, ?F11; try done.
    unfold edited_period. rewrite Es, <- F12. eauto.
  - injection E as <-. destruct (rest_edited m1 ts cmd) as (G1 & G2 & G3 & G4 & G5 & G6 & G7 & G8 & G9 & G10 & G11 & G12).
    split; rewrite ?G1, ?G2, ?G3, ?G4, ?G5, ?G6, ?G7, ?G8, ?G9, ?G10, ?G11, ?G12; simpl;
      rewrite ?F1, ?F2, ?F3, ?F4, ?F5, ?F6, ?F7, ?F8, ?F9, ?F10, ?F11; try done.
    unfold edited_period. rewrite Es, <- F12. done.
Qed.

(** Only drafts are edited, and only where the command says so.  When
    [UpdateMaint] succeeds the maintenance was a draft and still is; every
    column of its row is the command's value, or the old one where the command
    gives none; the planned period follows the new steps and the new start; its
    steps are left alone or replaced as a whole by planned ones, and so are its
    resource links, of which a global maintenance keeps none. *)
Theorem update_correct cmd w w' :
  UpdateMaint cmd background w = (Ok tt, w') ->
  ∃ row new now,
    row_of (uc_MaintID cmd) (core (w_db w)) = Some row ∧ mr_Status row = MaintenanceStatusDraft ∧
    edited (fromDBMaintenance row) new cmd ∧
    row_of (uc_MaintID cmd) (core (w_db w')) = Some (stored (new <| UpdatedAt := Some now |>)) ∧
    edited_steps (uc_MaintID cmd) (c_steps (core (w_db w))) (c_steps (core (w_db w'))) ∧
    edited_links (uc_MaintID cmd) (Scope new = MaintenanceScopeGlobal) (mr_Scope row = MaintenanceScopeGlobal)
      (c_links (core (w_db w))) (c_links (core (w_db w'))).
Proof.
  unfold UpdateMaint. intros (u & w1 & Hval & E)%bind_Ok. apply reject_if_Ok in Hval as [_ ->].
  apply bind_Ok in E as (u2 & w2 & Happ & E).
  assert (∀ J, keeps J (match uc_ApproverUserID cmd with Some id => validateApprover id | None => mret tt end) (fun _ => True)) as Hk.
  { intros J. destruct (uc_ApproverUserID cmd); [|by apply keeps_ret]. eapply keeps_bind; [apply keeps_ask|].
    intros [us|e] _; [|apply keeps_raise]. eapply keeps_weaken; [apply keeps_reject_if|done]. }
  destruct (keeps_run (fun db => db = w_db w) _ _ _ _ _ _ (Hk _) Happ eq_refl) as [Hdb2 _].
  apply bind_Ok in E as (ts & w3 & Hres & E).
  destruct (keeps_run (fun db => db = w_db w) _ _ _ _ _ _ (keeps_ResolveNotifyTarget _ _ _) Hres Hdb2) as [Hdb3 _].
  apply bind_Ok in E as ([[prev current] b] & w4 & Hupd & E).
  assert (core (w_db w') = core (w_db w4)) as ->.
  { destruct (maintUpdateChanges _ _ _); [by injection E as <-|].
    by rewrite (still_run _ _ _ _ _ (still_publishAudit _) E). }
  unfold updateWithApply, runUpdateWithApply in Hupd. apply bind_Ok in Hupd as ([[p c] b'] & w5 & Htx & Hupd).
  apply bind_Ok in Hupd as (u5 & w6 & Hd & Hret). assert (w6 = w4) as -> by by injection Hret.
  rewrite (still_run _ _ _ _ _ (still_dispatchMaintLifecycle _ _) Hd).
  apply WithinTx_Ok in Htx as (t & w7 & w8 & Hbody & Hdb7 & Hdb8 & _). rewrite Hdb8.
  apply apply_in_tx_Ok in Hbody as (row & w9 & m & w10 & now & Hrow & -> & Hdb9 & Happly & -> & _ & ->).
  rewrite Hdb7, Hdb3 in Hrow. rewrite Hdb7, Hdb3 in Hdb9. clear Hdb7 Hdb8 Hdb3 Hdb2.
  apply bind_Ok in Happly as (m1 & w11 & Happly & Hret'). assert (m1 = m ∧ w11 = w10) as [-> ->] by by injection Hret'.
  apply applyUpdate_Ok in Happly as (Hdr & Hvals & steps & links & Hcore & Hsteps & Hlinks). rewrite Hdb9 in *.
  pose proof (applyValues_edited _ _ _ _ Hvals) as Hed. destruct (row_of_Some _ _ _ Hrow) as [_ Hrid].
  assert (ID m = uc_MaintID cmd) as Hid by (rewrite (ed_id _ _ _ Hed); exact Hrid).
  exists row, m, now. rewrite Hcore. cbn [c_maints c_steps c_links]. rewrite Hid in Hsteps, Hlinks.
  split; [done|]. split; [exact Hdr|]. split; [done|]. split; [|split; [exact Hsteps|exact Hlinks]].
  eapply row_of_set_same; [exact Hid|exact Hrow].
Qed.
End edit.

Definition ex_update : UpdateMaintenanceCmd :=
  mkUpdateCmd 2 (Some "renamed") None (Some (at_min 300)) None None [] [] [] None None None None (Some ex_admin).

Lemma update_correct_witness :
  let '(r, w') := @UpdateMaint calm_env list_goque ex_messenger ex_ozzo ex_users ex_update background ex_world in
  r = Ok tt ∧ mr_Title <$> maintenances (w_db w') = ["maintenance"; "renamed"; "maintenance"] ∧
  (FromPgRange ∘ mr_PlannedPeriod <$> maintenances (w_db w')) !! 1%nat = Some (NewPeriod (at_min 300) (at_min 360)) ∧
  ∃ row, row_of 2 (core ex_db) = Some row ∧ mr_Status row = MaintenanceStatusDraft.
Proof.
  pose proof (@update_correct calm_env list_goque ex_messenger ex_ozzo ex_users ex_update ex_world) as Ht.
  evaluate (@UpdateMaint calm_env list_goque ex_messenger ex_ozzo ex_users ex_update background ex_world).
  destruct (Ht _ eq_refl) as (row & _ & _ & Hrow & Hdr & _). split; [reflexivity|].
  split; [vm_compute; reflexivity|]. split; [vm_compute; reflexivity|]. exists row. exact (conj Hrow Hdr).
Defined.
