(* ===== verification/Ordering.v ===== *)
(** * Commit first, then tell

    No message leaves before the change it reports is committed: the bodies of
    the transactions hand nothing to a transport, so a request that leaves the
    maintenances as they were has sent nothing. *)
From Stdlib Require Import ZArith Lia Ascii String.
From stdpp Require Import base sorting sets strings numbers list relations.
From S2P Require Import Prelude Go Entity Conflict AuditTrail Schema Logic Dbtx MaintStore Fixtures ConflictStore Queue.
From S2P Require Import Deferred NotifyTargets Notify Validation MaintService Lifecycle Refine.
Open Scope Z_scope.

(** The messages of a log. *)
Definition is_send (e : Effect) : bool := match e with EvSend _ _ _ _ => true | _ => false end.
Definition sends (l : list Effect) : list Effect := List.filter is_send l.

Section silent.
Context `{Env} `{Goque} `{Messenger} `{Ozzo} `{UserLister}.

Hint Resolve quiet_ask : quiet.

Lemma quiet_cancelEnqueued id : quiet (cancelEnqueued id).
Proof. unfold cancelEnqueued, cancel_one, Deferred.store_ListByMaint, Scheduler_Cancel, CancelTask. quiet_solve. Qed.
Lemma quiet_Deferred_CreateMany id l : quiet (Deferred.store_CreateMany id l).
Proof. unfold Deferred.store_CreateMany. quiet_solve. Qed.
Lemma quiet_Schedule id : quiet (Deferred.Schedule id).
Proof.
  unfold Deferred.Schedule, Deferred.store_ListByMaint, schedule_one, ScheduleDelayed, AddTaskToQueue, store_SetTaskID.
  quiet_solve.
Qed.
Lemma quiet_Resolve id l : quiet (ResolveNotifyTarget id l).
Proof. induction l as [|i l IH]; simpl; [done|]. unfold channel_Get. quiet_solve. Qed.
Lemma quiet_targets_CreateMany id l : quiet (NotifyTargets.store_CreateMany id l).
Proof. unfold NotifyTargets.store_CreateMany. quiet_solve. Qed.
Hint Resolve quiet_cancelEnqueued quiet_Deferred_CreateMany quiet_Schedule quiet_Resolve quiet_targets_CreateMany : quiet.

Lemma quiet_AddResources id l : quiet (AddResources id l).
Proof. unfold AddResources. quiet_solve. Qed.
Lemma quiet_AddSteps id l : quiet (AddSteps id l).
Proof. unfold AddSteps. quiet_solve. Qed.
Lemma quiet_AddMentions id l : quiet (AddMentions id l).
Proof. unfold AddMentions. quiet_solve. Qed.
Lemma quiet_GetMaintResources ids : quiet (GetMaintResources ids).
Proof. unfold GetMaintResources. quiet_solve. Qed.
Lemma quiet_Save id l : quiet (Save id l).
Proof. unfold Save. quiet_solve. Qed.
Lemma quiet_GetConflicts cmd : quiet (GetConflicts cmd).
Proof. unfold GetConflicts, ConflictedMaints, attachResources, ConflictedResources, ConflictedResources_store. quiet_solve. Qed.
Lemma quiet_update_steps id l : quiet (update_steps id l).
Proof. induction l as [|s l IH]; simpl; [done|]. unfold UpdateStep. quiet_solve. Qed.
Hint Resolve quiet_AddResources quiet_AddSteps quiet_AddMentions quiet_GetMaintResources quiet_Save quiet_GetConflicts
  quiet_update_steps : quiet.

Lemma quiet_create_in_tx cmd : quiet (create_in_tx cmd).
Proof. unfold create_in_tx, CreateMaint, NotifyTargets.Create, Deferred.Create. quiet_solve. Qed.
Lemma quiet_applyUpdate m ts cmd : quiet (applyUpdate m ts cmd).
Proof.
  unfold applyUpdate, when, replaceSteps, replaceResources, replaceMentions, NotifyTargets.Replace, replace_, Deferred.Replace,
    DeleteSteps, DeleteResources, DeleteMentions, store_Delete, store_DeleteByMaint. quiet_solve.
Qed.
Lemma quiet_apply_approve cmd actor m : quiet (apply_approve cmd actor m).
Proof. unfold apply_approve, loadResources, checkConflicts, SaveSnapshot. quiet_solve. Qed.
Lemma quiet_apply_start m : quiet (apply_start m).
Proof. unfold apply_start. quiet_solve. Qed.
Lemma quiet_apply_cancel cmd can m : quiet (apply_cancel cmd can m).
Proof. unfold apply_cancel. quiet_solve. Qed.
Lemma quiet_apply_complete m : quiet (apply_complete m).
Proof. unfold apply_complete, GetMaintSteps, getSteps. quiet_solve. Qed.
Lemma quiet_apply_steps id applyF m : (∀ l, quiet (applyF l)) -> quiet (apply_steps id applyF m).
Proof. unfold apply_steps, GetMaintStepsForUpdate, getSteps. quiet_solve. Qed.
Lemma quiet_start_step sid l : quiet (apply_start_step sid l).
Proof. unfold apply_start_step, lift_sum. quiet_solve. Qed.
Lemma quiet_finish_step status sid l : quiet (apply_finish_step status sid l).
Proof. unfold apply_finish_step, lift_sum. quiet_solve. Qed.
Lemma quiet_apply_in_tx {B} id (apply : Maintenance -> M (Maintenance * B)) :
  (∀ m, quiet (apply m)) -> quiet (apply_in_tx id apply).
Proof. unfold apply_in_tx, GetMaintForUpdate, getMaint, MaintStore.UpdateMaint. quiet_solve. Qed.
Lemma quiet_validateCreate cmd : quiet (validateCreate cmd).
Proof. unfold validateCreate. quiet_solve. Qed.
Lemma quiet_validateApprover id : quiet (validateApprover id).
Proof. unfold validateApprover. quiet_solve. Qed.
End silent.

(** ** Either a change was committed, or nothing was said *)

Section ordering.
Context `{Env} `{Goque} `{Messenger} `{Ozzo} `{UserLister}.

(** [m] made the change, or it failed without a message. *)
Definition commits {A} (R : relation Core) (m : M A) : Prop :=
  ∀ w r w', m background w = (r, w') ->
    R (core (w_db w)) (core (w_db w')) ∨ (∀ a, r ≠ Ok a) ∧ sends (w_log w') = sends (w_log w).
(** [m] made the change, or it sent no message. *)
Definition tells_after {A} (R : relation Core) (m : M A) : Prop :=
  ∀ w r w', m background w = (r, w') -> R (core (w_db w)) (core (w_db w')) ∨ sends (w_log w') = sends (w_log w).

Lemma quiet_sends {A} (m : M A) ctx w r w' : quiet m -> m ctx w = (r, w') -> sends (w_log w') = sends (w_log w).
Proof. intros Hq E. by rewrite (quiet_run _ _ _ _ _ Hq E). Qed.

Lemma commits_WithinTx {A} R (m : M A) : quiet m -> body_does R m -> commits R (WithinTx m).
Proof.
  intros Hq Hm w r w' E. destruct (WithinTx_cases _ _ _ _ E) as [(e & -> & _)|(a & w2 & -> & Hdb & _ & Hrun)].
  - right. split; [done|]. by eapply quiet_sends, E; apply WithinTx_quiet.
  - left. rewrite Hdb. by apply (Hm _ (tick w) _ _ Hrun).
Qed.

Lemma sends_sleep attempt w : sends (w_log (sleep attempt w)) = sends (w_log w).
Proof. unfold sends, sleep. simpl. rewrite List.filter_app. simpl. by rewrite app_nil_r. Qed.

Lemma serializable_attempts_sends {A} left attempt (m : M A) w :
  quiet m -> sends (w_log (snd (serializable_attempts left attempt m background w))) = sends (w_log w).
Proof.
  intros Hq. revert attempt w. induction left as [|left IH]; intros attempt w; simpl;
    destruct (WithinTx m background w) as [[a|e|s] w1] eqn:E; pose proof (quiet_sends _ _ _ _ _ (WithinTx_quiet m Hq) E) as Hs;
    try done; destruct (negb _); try done.
  destruct (env_ctx_err _); [done|]. rewrite IH, sends_sleep. exact Hs.
Qed.

Lemma commits_WithinSerializableTx {A} R (m : M A) : quiet m -> body_does R m -> commits R (WithinSerializableTx m).
Proof.
  intros Hq Hm w r w' E. pose proof (serializable_attempts_sends 9 1 m w Hq) as Hs.
  unfold WithinSerializableTx in E. simpl in E. simpl in Hs. rewrite E in Hs.
  apply (serializable_attempts_cases 9 1) in E as [(e & -> & _)|(a & t & w1 & w2 & -> & Hdb & Hdb1 & Hrun)]; [by right|].
  left. rewrite Hdb, <- Hdb1. by apply (Hm _ _ _ _ Hrun).
Qed.

Lemma commits_then {A B} R (m : M A) (k : A -> M B) : commits R m -> (∀ a, still (k a)) -> commits R (m ≫= k).
Proof.
  intros Hm Hk w r w' [(a & w1 & E1 & E2)|(Hr & r0 & E & Hr0)]%bind_inv.
  - left. rewrite (still_run _ _ _ _ _ (Hk a) E2). destruct (Hm _ _ _ E1) as [|[Hno _]]; [done|]. by destruct (Hno a).
  - destruct (Hm _ _ _ E) as [|[_ ?]]; [by left|by right].
Qed.
Lemma commits_tells {A} R (m : M A) : commits R m -> tells_after R m.
Proof. intros Hm w r w' E. destruct (Hm _ _ _ E) as [|[_ ?]]; [by left|by right]. Qed.
Lemma tells_after_then {A B} R (m : M A) (k : A -> M B) :
  quiet m -> still m -> (∀ a, tells_after R (k a)) -> tells_after R (m ≫= k).
Proof.
  intros Hq Hs Hk w r w' [(a & w1 & E1 & E2)|(_ & r0 & E & _)]%bind_inv.
  - rewrite <- (still_run _ _ _ _ _ Hs E1), <- (quiet_sends _ _ _ _ _ Hq E1). by eapply Hk.
  - right. by eapply quiet_sends, E.
Qed.
Lemma tells_after_discard {A} R (m : M A) : tells_after R m -> tells_after R (_ ← m; mret tt).
Proof. intros Hm w r w' [(a & w1 & E1 & [= _ <-])|(_ & r0 & E & _)]%bind_inv; by eapply Hm. Qed.
(** [x, err := m], where the error is handled in silence. *)
Lemma tells_after_attempt {A B} R (m : M A) (k : A + error -> M B) :
  commits R m -> (∀ a, still (k (inl a))) -> (∀ e, still (k (inr e)) ∧ quiet (k (inr e))) ->
  tells_after R (attempt m ≫= k).
Proof.
  intros Hm Hok Herr w r w' [(a & w1 & E1 & E2)|(_ & r0 & E & _)]%bind_inv.
  - apply attempt_Ok in E1. destruct a as [a|e]; destruct (Hm _ _ _ E1) as [HR|[Hno Hs]].
    + left. by rewrite (still_run _ _ _ _ _ (Hok a) E2).
    + by destruct (Hno a).
    + left. by rewrite (still_run _ _ _ _ _ (proj1 (Herr e)) E2).
    + right. by rewrite (quiet_sends _ _ _ _ _ (proj2 (Herr e)) E2).
  - unfold attempt in E. destruct (m background w) as [o w1] eqn:E1. destruct (Hm _ _ _ E1) as [HR|[_ Hs]];
      destruct o; simplify_eq; first [by left|by right].
Qed.

Lemma commits_updateWithApply {B} R id (apply : Maintenance -> M (Maintenance * B)) :
  (∀ m, quiet (apply m)) -> body_does R (apply_in_tx id apply) -> commits R (updateWithApply id apply).
Proof.
  intros Hq Hb. apply commits_then; [apply commits_WithinTx; [by apply quiet_apply_in_tx|done]|].
  intros [[p c] b]. still_solve.
Qed.

Lemma commits_updateStepWithApply id sid status applyF :
  changes_step sid status applyF -> (∀ l, quiet (applyF l)) -> commits lifecycle (updateStepWithApply id applyF).
Proof.
  intros Hch Hq. apply commits_then.
  - apply commits_updateWithApply; [intros m; by apply quiet_apply_steps|by eapply apply_in_tx_steps].
  - intros [[p c] b]. still_solve.
Qed.

Lemma raise_silent (e : error) : still (raise (A := unit) e) ∧ quiet (raise (A := unit) e).
Proof. split; [apply still_raise|done]. Qed.
Lemma skip_silent (b : bool) (e : error) :
  still (if b then mret tt else raise e) ∧ quiet (if b then mret tt else raise (A := unit) e).
Proof. destruct b; [split; [apply still_ret|done]|apply raise_silent]. Qed.

Definition single (r : request) : bool := match r with ReqAutoCancel _ _ => false | _ => true end.

Lemma serve_tells_after r : single r = true -> tells_after lifecycle (serve r).
Proof.
  destruct r; intros Hs; try discriminate Hs; simpl.
  - apply tells_after_discard. apply tells_after_then; [apply quiet_validateCreate|auto with still|intros _].
    apply tells_after_then; [apply quiet_validateApprover|auto with still|intros _]. apply commits_tells, commits_then; [|still_solve].
    apply commits_WithinTx; [apply quiet_create_in_tx|apply create_in_tx_lifecycle].
  - apply tells_after_then; [apply quiet_reject_if|auto with still|intros _].
    apply tells_after_then; [|destruct (uc_ApproverUserID cmd); auto with still|intros _].
    { destruct (uc_ApproverUserID cmd); [apply quiet_validateApprover|done]. }
    apply tells_after_then; [apply quiet_Resolve|auto with still|intros ts].
    apply commits_tells, commits_then; [apply commits_updateWithApply|intros [[p c] b]; still_solve].
    + intros m. apply quiet_bind; [apply quiet_applyUpdate|done].
    + apply apply_in_tx_update.
  - unfold ApproveMaint. destruct (av_Actor cmd) as [actor|]; [|by intros w r w' [= <- <-]; right].
    apply tells_after_attempt; [|intros [[p c] b]; auto with still|intros e; destruct (dbtx_ErrorIs _ _); apply raise_silent].
    apply commits_then; [|intros [[p c] b]; still_solve]. apply commits_WithinSerializableTx.
    + apply quiet_apply_in_tx. intros m. apply quiet_apply_approve.
    + apply apply_in_tx_move; [auto with still|apply moves_approve].
  - apply commits_tells, commits_then; [apply commits_updateWithApply; [apply quiet_apply_start|]|intros [[p c] b]; still_solve].
    apply apply_in_tx_move; [auto with still|apply moves_start].
  - apply tells_after_attempt; [|intros [[p c] b]; auto with still|intros e; apply skip_silent].
    apply commits_updateWithApply; [intros m; apply quiet_apply_cancel|].
    apply apply_in_tx_move; [auto with still|apply moves_cancel, can_cancel_live].
  - apply tells_after_attempt; [|intros [[p c] b]; auto with still|intros e; apply skip_silent].
    apply commits_updateWithApply; [apply quiet_apply_complete|].
    apply apply_in_tx_move; [auto with still|apply moves_complete].
  - apply commits_tells, commits_then; [|intros [m l]; still_solve].
    eapply commits_updateStepWithApply; [apply changes_start_step|apply quiet_start_step].
  - apply commits_tells, commits_then; [|intros [m l]; still_solve].
    eapply commits_updateStepWithApply; [apply changes_finish_step|apply quiet_finish_step].
  - apply commits_tells, commits_then; [|intros [m l]; still_solve].
    eapply commits_updateStepWithApply; [apply changes_finish_step|apply quiet_finish_step].
Qed.

Lemma cancel_tells_after cmd can : only_live can -> tells_after lifecycle (cancelMaint cmd can).
Proof.
  intros Hcan. apply tells_after_attempt; [|intros [[p c] b]; auto with still|intros e; apply skip_silent].
  apply commits_updateWithApply; [intros m; apply quiet_apply_cancel|].
  apply apply_in_tx_move; [auto with still|by apply moves_cancel].
Qed.

Lemma tells_after_attempt_only {A} R (m : M A) : tells_after R m -> tells_after R (attempt m).
Proof.
  intros Hm w r w'. unfold attempt. destruct (m background w) as [o w1] eqn:E. intros E'. apply (Hm w o).
  by destruct o; simplify_eq.
Qed.

Lemma cancel_each_tells_after l errs : tells_after (tc lifecycle) (cancel_each l errs).
Proof.
  revert errs. induction l as [|m l IH]; intros errs; simpl.
  - intros w r w' E. right. by destruct errs; injection E as _ <-.
  - pose proof (refines_cancelMaint (unstarted_cmd m) still_unstarted still_unstarted_live) as Hr%refines_attempt.
    pose proof (cancel_tells_after (unstarted_cmd m) still_unstarted still_unstarted_live) as Ht%tells_after_attempt_only.
    intros w r w' [(a & w1 & E1 & E2)|(_ & r0 & E & _)]%bind_inv.
    + pose proof (refines_cancel_each _ _ _ _ _ E2) as Hrest. destruct (Ht _ _ _ E1) as [HR|Hs].
      { left. eapply tc_rtc_r; [by apply tc_once|done]. }
      destruct (IH _ _ _ _ E2) as [HR|Hs']; [|right; congruence]. left.
      destruct (Hr _ _ _ E1) as [<-|HR1]; [done|]. by eapply tc_l.
    + destruct (Ht _ _ _ E) as [HR|Hs]; [left; by apply tc_once|by right].
Qed.

Lemma quiet_ListOverdue cutoff limit : quiet (ListOverdueNotStarted cutoff limit).
Proof. unfold ListOverdueNotStarted, make_cap. apply quiet_bind; [by destruct (limit <? 0)|]. intros _. apply quiet_query. Qed.

Lemma sweep_tells_after threshold limit : tells_after (tc lifecycle) (AutoCancel_ProcessTask threshold limit).
Proof.
  apply tells_after_then; [done|auto with still|]. intros now. apply tells_after_then; [apply quiet_ListOverdue| |].
  - unfold ListOverdueNotStarted, make_cap. destruct (limit <? 0); [|still_solve].
    apply still_bind; [intros c; apply keeps_panic|intros; apply still_query].
  - intros [|m l]; [by intros w r w' [= _ <-]; right|apply cancel_each_tells_after].
Qed.

(** C33. Nobody is told of a change that did not happen.  However a request
    ends, if a message was handed to a transport then the lifecycle moved, and
    the move is in the database the request leaves behind; a request whose
    transaction failed, was refused or had nothing to do sends nothing. *)
Theorem commit_before_message r w :
  let '(_, w') := serve r background w in
  sends (w_log w') = sends (w_log w) ∨
  (if single r then lifecycle else tc lifecycle) (core (w_db w)) (core (w_db w')).
Proof.
  destruct (serve r background w) as [a w'] eqn:E. destruct (single r) eqn:Hs.
  - apply serve_tells_after in E; [|done]. tauto.
  - destruct r; try discriminate Hs. apply sweep_tells_after in E. tauto.
Qed.
End ordering.
