(* ===== verification/Calendar.v ===== *)
(** * The calendar (internal/services/calendar and internal/calendardto)

    The read side: the card of a maintenance, its conflicts, the listing of a
    period and the queue of an approver.  Its theorems say that reading changes
    nothing, that a listing is complete or says it is not, and that what a card
    shows is what the approve gate will compare. *)
From Stdlib Require Import ZArith Lia Ascii String.
From stdpp Require Import base sorting sets strings numbers list.
From S2P Require Import Prelude Go Entity Conflict AuditTrail Schema Logic Dbtx MaintStore Fixtures ConflictStore Queue.
From S2P Require Import Deferred NotifyTargets Notify.
Open Scope Z_scope.

(** ** calendardto *)

Record MaintenanceResource := mkDTOResource { dre_ID : UUID; dre_Name : string }.
Record MaintenanceNotifyTarget := mkDTOTarget { dta_ID : UUID; dta_Name : string; dta_Transport : NotifyTransport }.
Record MaintenanceDeferredNotification := mkDTODeferred { dde_ID : UUID; dde_FireAt : Time; dde_Scheduled : bool }.
Record DTOStep := mkDTOStep {
  ds_ID : UUID; ds_Order : Z; ds_Description : string; ds_RollbackDescription : string; ds_DurationMinutes : Z;
  ds_Status : MaintenanceStepStatus }.
Record DTOMaintenance := mkDTO {
  d_ID : UUID; d_Title : string; d_Description : string; d_PlannedPeriod : Period; d_ActualPeriod : option Period;
  d_Resources : list MaintenanceResource; d_Scope : MaintenanceScope; d_Impact : MaintenanceImpact;
  d_Status : MaintenanceStatus; d_CancelReason : MaintenanceCancelReason; d_CancelReasonComment : string;
  d_CreatedAt : Time; d_UpdatedAt : option Time; d_Revision : Z; d_CreatedByUserID : UUID; d_ApproverUserID : UUID;
  d_Steps : list DTOStep; d_NotifyTargets : list MaintenanceNotifyTarget;
  d_DeferredNotifications : list MaintenanceDeferredNotification; d_Mentions : list UUID; d_TaskTrackerURL : string }.
Record MaintenancesMeta := mkMeta { mm_Count : Z; mm_Truncated : bool }.
Record DTOConflict := mkDTOConflict {
  dc_MaintenanceID : UUID; dc_Title : string; dc_OverlapStart : Time; dc_OverlapEnd : Time; dc_Scope : MaintenanceScope;
  dc_Resources : list MaintenanceResource; dc_KnownAtApproval : bool }.
Record CardConflictQuery := mkCardQuery {
  kq_MaintID : UUID; kq_Status : MaintenanceStatus; kq_PlannedPeriod : Period; kq_ActualPeriod : option Period;
  kq_Scope : MaintenanceScope; kq_ResourceIDs : list UUID }.

Definition limitMonth : Duration := 3 * 30 * 24 * Hour.

Section calendar.
Context `{Env}.

(** ** get_maint_conflicts.go *)

Definition plannedConflicts (cmd : CardConflictQuery) : M (list ConflictWithResources) :=
  conflicts ← ConflictStore.GetConflicts
    (mkConflictQuery (kq_MaintID cmd) (kq_PlannedPeriod cmd) (kq_Scope cmd) (kq_ResourceIDs cmd));
  MarkApprovalState (kq_MaintID cmd) conflicts.

Definition factualConflicts (cmd : CardConflictQuery) : M (list ConflictWithResources) :=
  '(conflicts, _) ← GetActualConflicts
    (mkActualQuery (kq_MaintID cmd) (FromPtr (mkPeriod zeroTime None) (kq_ActualPeriod cmd)) (kq_Scope cmd)
       (kq_ResourceIDs cmd));
  MarkApprovalState (kq_MaintID cmd) conflicts.

Definition resolveConflicts (cmd : CardConflictQuery) : M (list ConflictWithResources) :=
  if negb (MaintenanceStatus_IsTerminal (kq_Status cmd)) then plannedConflicts cmd
  else
    match kq_ActualPeriod cmd with
    | None => GetApprovalSnapshot (kq_MaintID cmd)
    | Some p => if IsOpen p then GetApprovalSnapshot (kq_MaintID cmd) else factualConflicts cmd
    end.

(** storages/resources.GetResources *)
Definition GetResources (resourceIDs : list UUID) : M (list ResourceRow) :=
  match resourceIDs with
  | [] => mret []
  | _ => query (fun db => filter (fun r => rs_ID r ∈ resourceIDs) (resources db))
  end.

(** A map built with [lo.SliceToMap]: a later entry of a key replaces the
    earlier one. *)
Definition map_last {A V} (key : A -> UUID) (val : A -> V) (l : list A) (k : UUID) : option V :=
  val <$> last (filter (fun x => key x = k) l).

Definition resolveResourceNames (resourceIDs : list UUID) : M (UUID -> option ResourceRow) :=
  match resourceIDs with
  | [] => mret (fun _ => None)
  | _ =>
      details ← GetResources resourceIDs;
      mret (map_last rs_ID id details)
  end.

Definition to_dto_conflict (resourcesM : UUID -> option (list UUID)) (details : UUID -> option ResourceRow)
    (item : ConflictWithResources) : DTOConflict :=
  let rs := default [] (resourcesM (cr_MaintenanceID item)) in
  mkDTOConflict (cr_MaintenanceID item) (cf_Title (cr_Conflict item)) (cr_OverlapStart item) (cr_OverlapEnd item)
    (cr_Scope item)
    ((fun r => mkDTOResource r (match details r with Some d => rs_Name d | None => "unknown resource" end)) <$> rs)
    (cr_KnownAtApproval item).

(** The ids reach the query as a set: their order does not matter. *)
Definition GetConflicts (cmd : CardConflictQuery) : M (list DTOConflict) :=
  conflicts ← resolveConflicts cmd;
  let conflictResourcesM := map_last cr_MaintenanceID cr_Resources conflicts in
  resourcesDetails ← resolveResourceNames (uniq (conflicts ≫= fun c => default [] (conflictResourcesM (cr_MaintenanceID c))));
  mret (to_dto_conflict conflictResourcesM resourcesDetails <$> conflicts).

(** ** to_dto_maint.go, get_maints.go, list_pending_approvals.go *)

Definition toListDTOMaint (item : Maintenance) : DTOMaintenance :=
  {| d_ID := ID item; d_Title := Title item; d_Description := Description item; d_PlannedPeriod := PlannedPeriod item;
     d_ActualPeriod := ActualPeriod item; d_Resources := []; d_Scope := Scope item; d_Impact := Impact item;
     d_Status := Status item; d_CancelReason := CancelReason item; d_CancelReasonComment := CancelReasonComment item;
     d_CreatedAt := CreatedAt item; d_UpdatedAt := UpdatedAt item; d_Revision := 0;
     d_CreatedByUserID := CreatedByUserID item; d_ApproverUserID := ApproverUserID item; d_Steps := [];
     d_NotifyTargets := []; d_DeferredNotifications := []; d_Mentions := []; d_TaskTrackerURL := "" |}.

Definition GetMaints (filter : GetMaintsFilter) : M (list DTOMaintenance * MaintenancesMeta) :=
  reject_if (limitMonth <? Time_Sub (gf_PeriodTo filter) (gf_PeriodFrom filter))
    (Errorf "should be less or equal than 90 days" ErrInvalidPeriodInterval);;
  '(maints, truncated) ← MaintStore.GetMaints filter 1000;
  mret (toListDTOMaint <$> maints, mkMeta (Z.of_nat (length maints)) truncated).

Definition ListPendingApprovals (filter : PendingApprovalsFilter) : M (list DTOMaintenance * Z) :=
  '(maints, total) ← MaintStore.ListPendingApprovals filter;
  mret (toListDTOMaint <$> maints, total).

(** ** get_maint.go *)

Definition getMaintResources (maintIDs : list UUID) : M (UUID -> list MaintenanceResource) :=
  match maintIDs with
  | [] => mret (fun _ => [])
  | _ =>
      maintsResources ← GetMaintResources maintIDs;
      mret (fun id => (fun r => mkDTOResource (rs_ID r) (rs_Name r)) <$> maintsResources id)
  end.

Definition to_dto_step (s : MaintenanceStep) : DTOStep :=
  mkDTOStep (st_ID s) (st_Order s) (st_Description s) (st_RollbackDescription s) (st_DurationMinutes s) (st_Status s).

(** The rest of the card, once its row was read. *)
Definition load_card (maint : Maintenance) : M DTOMaintenance :=
  maintResourcesM ← getMaintResources [ID maint];
  steps ← GetMaintSteps (ID maint);
  notifyTargets ← NotifyTargets.ListByMaint (ID maint);
  deferred ← Deferred.ListByMaint (ID maint);
  mentions ← GetMaintMentions (ID maint);
  mret {| d_ID := ID maint; d_Title := Title maint; d_Description := Description maint;
          d_PlannedPeriod := PlannedPeriod maint; d_ActualPeriod := ActualPeriod maint;
          d_Resources := maintResourcesM (ID maint); d_Scope := Scope maint; d_Impact := Impact maint;
          d_Status := Status maint; d_CancelReason := CancelReason maint;
          d_CancelReasonComment := CancelReasonComment maint; d_CreatedAt := CreatedAt maint;
          d_UpdatedAt := UpdatedAt maint; d_Revision := Revision maint; d_CreatedByUserID := CreatedByUserID maint;
          d_ApproverUserID := ApproverUserID maint; d_Steps := to_dto_step <$> steps;
          d_NotifyTargets := (fun t => mkDTOTarget (nt_ChannelID t) (nt_ChannelName t) (nt_Transport t)) <$> notifyTargets;
          d_DeferredNotifications := (fun n => mkDTODeferred (dn_ID n) (dn_FireAt n) (IsScheduled n)) <$> deferred;
          d_Mentions := mentions; d_TaskTrackerURL := TaskTrackerURL maint |}.
Definition GetMaint (maintID : UUID) : M DTOMaintenance :=
  maint ← MaintStore.GetMaint maintID;
  load_card maint.
End calendar.

(** ** Reading is only reading *)

Section reading.
Context `{Env}.

Lemma reads_attachResources cs : reads (attachResources cs).
Proof. unfold attachResources, ConflictedResources, ConflictedResources_store. reads_solve. Qed.
Lemma reads_MarkApprovalState id l : reads (MarkApprovalState id l).
Proof. unfold MarkApprovalState, GetSnapshots. reads_solve. Qed.
Hint Resolve reads_attachResources reads_MarkApprovalState : reads.
Lemma reads_resolveConflicts cmd : reads (resolveConflicts cmd).
Proof.
  unfold resolveConflicts, plannedConflicts, factualConflicts, ConflictStore.GetConflicts, ConflictedMaints,
    GetActualConflicts, ActualConflictedMaints, GetApprovalSnapshot, GetSnapshots. reads_solve.
Qed.
Hint Resolve reads_resolveConflicts : reads.
Lemma reads_GetConflicts cmd : reads (GetConflicts cmd).
Proof. unfold GetConflicts, resolveResourceNames, GetResources. reads_solve. Qed.
Lemma reads_GetMaints f : reads (GetMaints f).
Proof. unfold GetMaints, MaintStore.GetMaints, make_cap. reads_solve. Qed.
Lemma reads_ListPendingApprovals f : reads (ListPendingApprovals f).
Proof. unfold ListPendingApprovals, MaintStore.ListPendingApprovals, countPendingApprovals, make_cap. reads_solve. Qed.
Lemma reads_GetMaint id : reads (GetMaint id).
Proof.
  unfold GetMaint, load_card, MaintStore.GetMaint, getMaint, getMaintResources, GetMaintResources, GetMaintSteps, getSteps,
    NotifyTargets.ListByMaint, NotifyTargets.store_ListByMaint, Deferred.ListByMaint, Deferred.store_ListByMaint, GetMaintMentions.
  reads_solve.
Qed.
End reading.

(** ** A card shows what the approve gate compares *)

Section preview.
Context `{Env}.

(** What of a conflict survives marking and sorting. *)
Definition substance (c : ConflictWithResources) : Conflict * list UUID := (cr_Conflict c, cr_Resources c).

Lemma MarkApprovalState_Ok id live ctx w l w' :
  MarkApprovalState id live ctx w = (Ok l, w') -> substance <$> l ≡ₚ substance <$> live.
Proof.
  unfold MarkApprovalState. destruct live as [|c0 live0] eqn:El; [by intros E; run_all|].
  rewrite <- El. clear El c0 live0. intros E. run_all.
  assert (∀ l, substance <$> SortConflicts l ≡ₚ substance <$> l) as Hsort.
  { intros l0. apply fmap_Permutation, sort_by_Permutation. }
  destruct a as [snapshot|e]; run_all; rewrite Hsort; [|done].
  unfold MarkKnownAtApproval. destruct (_ || _); [done|]. by rewrite <- list_fmap_compose.
Qed.

(** What a client sends back of a conflict it was shown. *)
Definition echo (d : DTOConflict) : ConflictWithResources :=
  mkCWR (mkConflict (dc_MaintenanceID d) (dc_Title d) (dc_OverlapStart d) (dc_OverlapEnd d) (dc_Scope d))
    (dre_ID <$> dc_Resources d) false.

Lemma map_last_unique {A V} (key : A -> UUID) (val : A -> V) l x :
  NoDup (key <$> l) -> x ∈ l -> map_last key val l (key x) = Some (val x).
Proof.
  intros Hnd Hx. unfold map_last. enough (filter (fun y => key y = key x) l = [x]) as -> by done.
  induction l as [|y l IH]; [by apply elem_of_nil in Hx|]. rewrite fmap_cons in Hnd. apply NoDup_cons in Hnd as [Hy Hnd].
  apply elem_of_cons in Hx as [->|Hx].
  - rewrite filter_cons_True by done. f_equal. clear IH. induction l as [|z l IH]; [done|].
    rewrite filter_cons_False; [apply IH|]; [set_solver|by apply NoDup_cons in Hnd as [_ ?]|]. intros Hz. apply Hy. rewrite <- Hz.
    rewrite fmap_cons. set_solver.
  - rewrite filter_cons_False; [by apply IH|]. intros Heq. apply Hy. rewrite Heq. by apply list_elem_of_fmap_2.
Qed.

Lemma GetConflicts_echo cmd ctx w l w' shown w1 :
  resolveConflicts cmd ctx w = (Ok shown, w1) -> NoDup (cr_MaintenanceID <$> shown) ->
  GetConflicts cmd ctx w = (Ok l, w') -> substance <$> (echo <$> l) = substance <$> shown.
Proof.
  intros Hres Hnd E. unfold GetConflicts in E. run_all.
  match goal with Hr : resolveConflicts cmd ctx w = (Ok ?a, _) |- _ => rewrite Hres in Hr; injection Hr as <- <- end.
  rewrite <- !list_fmap_compose. apply list_fmap_ext. intros i c Hc%list_elem_of_lookup_2. simpl. unfold substance, echo. simpl.
  rewrite (map_last_unique _ _ _ _ Hnd Hc). simpl. rewrite <- list_fmap_compose. simpl. rewrite list_fmap_id. by destruct c as [[]].
Qed.

Lemma gate_keys_substance own l1 l2 :
  substance <$> l1 ≡ₚ substance <$> l2 -> gate_keys own (Some <$> l1) ≡ₚ gate_keys own (Some <$> l2).
Proof.
  intros HP. unfold gate_keys. rewrite !omap_id_Some.
  assert (∀ l : list ConflictWithResources, key ∘ shared_with own <$> l = (fun p => key (shared_with own (mkCWR p.1 p.2 false))) <$> (substance <$> l)) as Hs.
  { intros l. by rewrite <- list_fmap_compose. }
  by rewrite !Hs, HP.
Qed.

(** The rows a card is computed from. *)
Definition valid_tables (db : DB) : Prop :=
  NoDup (mr_ID <$> maintenances db) ∧
  Forall (fun r => uuid_valid (mr_ID r) ∧ (mr_Scope r = MaintenanceScopeGlobal ∨ mr_Scope r = MaintenanceScopeResources))
    (maintenances db) ∧
  Forall (fun l => uuid_valid (mrr_ResourceID l)) (maintenance_resources db).

Lemma live_conflicts_valid db cmd :
  valid_tables db -> Forall valid_conflict (live_conflicts db cmd) ∧ NoDup (cr_MaintenanceID <$> live_conflicts db cmd).
Proof.
  intros (Hnd & Hrows & Hlinks). unfold live_conflicts. set (p := planned_conflict _ _ _ _). split.
  - rewrite Forall_fmap. apply Forall_forall. intros r [Hr _]%list_elem_of_In%filter_In.
    rewrite Forall_forall in Hrows. destruct (Hrows r) as [Hid Hsc]; [by apply list_elem_of_In|].
    split; [done|]. split; [|done]. simpl. unfold linked_resources. rewrite Forall_fmap. apply Forall_forall.
    intros l [_ Hl]%list_elem_of_filter. rewrite Forall_forall in Hlinks. by apply Hlinks.
  - rewrite <- list_fmap_compose. clear -Hnd. induction (maintenances db) as [|r l IH]; [constructor|].
    rewrite fmap_cons in Hnd. apply NoDup_cons in Hnd as [Hr Hnd]. simpl. destruct (p r); [|by apply IH].
    rewrite fmap_cons. apply NoDup_cons. split; [|by apply IH]. intros (x & Hx & [Hin _]%list_elem_of_In%filter_In)%list_elem_of_fmap.
    apply Hr. apply list_elem_of_fmap. exists x. split; [exact Hx|by apply list_elem_of_In].
Qed.

(** The query a card's conflicts are asked with. *)
Definition card_query (d : DTOMaintenance) : CardConflictQuery :=
  mkCardQuery (d_ID d) (d_Status d) (d_PlannedPeriod d) (d_ActualPeriod d) (d_Scope d) (dre_ID <$> d_Resources d).

Definition card_of (m : Maintenance) (rs : list UUID) (d : DTOMaintenance) : Prop :=
  d_ID d = ID m ∧ d_Status d = Status m ∧ d_PlannedPeriod d = PlannedPeriod m ∧ d_ActualPeriod d = ActualPeriod m ∧
  d_Scope d = Scope m ∧ d_Revision d = Revision m ∧ dre_ID <$> d_Resources d = rs.

Lemma load_card_Ok m ctx w d w' :
  load_card m ctx w = (Ok d, w') -> card_of m (rs_ID <$> resource_rows (ID m) (w_db w)) d.
Proof.
  unfold load_card, getMaintResources. intros E. run_all.
  match goal with Hf : GetMaintResources _ _ _ = _ |- _ => apply GetMaintResources_Ok in Hf as (_ & _ & Hf);
    specialize (Hf (ID m) ltac:(set_solver)) end.
  unfold card_of. simpl. split_and!; [done..|]. rewrite <- list_fmap_compose.
  match goal with Hf : _ = resource_rows _ _ |- _ => rewrite Hf end. done.
Qed.

Lemma GetMaint_Ok id ctx w d w' :
  GetMaint id ctx w = (Ok d, w') ->
  ∃ row, find_maint id (w_db w) = Some row ∧
    card_of (fromDBMaintenance row) (rs_ID <$> resource_rows (mr_ID row) (w_db w)) d.
Proof.
  intros (m & w1 & Hget & E)%bind_Ok. apply getMaint_Ok in Hget as (row & Hrow & -> & Hdb & _).
  apply load_card_Ok in E. rewrite Hdb in E. eauto.
Qed.

(** What a card shows passes the approve gate.  Take a draft's card and its
    conflicts as the calendar shows them; as long as the tables have not
    changed, the revision on the card is the one [ApproveMaint] will compare,
    and the conflicts sent back have the fingerprint of the conflicts it will
    find, in whatever order they were shown and whether or not the reviewed
    ones could be marked. *)
Theorem preview_passes_gate id w card w1 shown w2 :
  valid_tables (w_db w) ->
  GetMaint id background w = (Ok card, w1) -> d_Status card = MaintenanceStatusDraft ->
  GetConflicts (card_query card) background w1 = (Ok shown, w2) ->
  ∃ row, find_maint id (w_db w2) = Some row ∧
    let own := rs_ID <$> resource_rows (mr_ID row) (w_db w2) in
    d_Revision card = Revision (fromDBMaintenance row) ∧
    ConflictFingerprintFor (Some <$> (echo <$> shown)) own =
      ConflictFingerprintFor (Some <$> live_conflicts (w_db w2)
        (mkConflictQuery (mr_ID row) (FromPgRange (mr_PlannedPeriod row)) (mr_Scope row) own)) own.
Proof.
  intros Hv Hcard Hdraft Hshown. destruct (reads_run _ _ _ _ _ (reads_GetMaint id) Hcard) as [Hdb1 _].
  destruct (reads_run _ _ _ _ _ (reads_GetConflicts _) Hshown) as [Hdb2 _]. rewrite Hdb2, Hdb1.
  apply GetMaint_Ok in Hcard as (row & Hrow & Hid & Hst & Hper & Hact & Hsc & Hrev & Hrs). exists row. split; [done|].
  split; [done|]. set (own := rs_ID <$> resource_rows (mr_ID row) (w_db w)) in *. pose proof Hshown as Hrun.
  unfold GetConflicts in Hrun. apply bind_Ok in Hrun as (conflicts & w3 & Hres & _).
  assert (conflicts_from : substance <$> conflicts ≡ₚ substance <$> live_conflicts (w_db w)
    (mkConflictQuery (mr_ID row) (FromPgRange (mr_PlannedPeriod row)) (mr_Scope row) own)).
  { unfold resolveConflicts, card_query, plannedConflicts in Hres. simpl in Hres. rewrite Hdraft in Hres. simpl in Hres.
    apply bind_Ok in Hres as (live & w4 & Hlive & Hmark). apply MarkApprovalState_Ok in Hmark as ->.
    apply GetConflicts_Ok in Hlive as (-> & _ & _). rewrite Hdb1, Hid, Hper, Hsc, Hrs. done. }
  destruct (live_conflicts_valid (w_db w) (mkConflictQuery (mr_ID row) (FromPgRange (mr_PlannedPeriod row)) (mr_Scope row) own) Hv)
    as [Hvalid Hnd].
  set (live := live_conflicts _ _) in *. clearbody live.
  assert (substance <$> (echo <$> shown) ≡ₚ substance <$> live) as HP.
  { etrans; [|exact conflicts_from]. rewrite (GetConflicts_echo (card_query card) background w1 shown w2 conflicts w3); [done|done| |done].
    apply (fmap_Permutation (fun p => cf_MaintenanceID p.1)) in conflicts_from. rewrite <- !list_fmap_compose in conflicts_from.
    unfold compose in conflicts_from. simpl in conflicts_from. unfold cr_MaintenanceID in *. by rewrite conflicts_from. }
  symmetry. apply fingerprint_stable; [by rewrite omap_id_Some|unfold ids_of; by rewrite omap_id_Some|].
  by apply gate_keys_substance.
Qed.
End preview.

Lemma ex_valid_tables : valid_tables ex_db.
Proof.
  split; [decide_now|]. split; [|repeat constructor].
  repeat constructor; simpl; (right; reflexivity) || (left; reflexivity).
Qed.

Lemma preview_passes_gate_witness :
  ∃ card w1 shown w2, @GetMaint calm_env 2 background ex_world = (Ok card, w1) ∧
    @GetConflicts calm_env (card_query card) background w1 = (Ok shown, w2) ∧
    dc_MaintenanceID <$> shown = [1%N] ∧
    ∃ row, find_maint 2 (w_db w2) = Some row ∧ d_Revision card = Revision (fromDBMaintenance row).
Proof.
  destruct (@GetMaint calm_env 2 background ex_world) as [r w1] eqn:E1.
  assert (r = fst (@GetMaint calm_env 2 background ex_world)) as Er by by rewrite E1.
  assert (w1 = snd (@GetMaint calm_env 2 background ex_world)) as Ew by by rewrite E1.
  vm_compute in Er. vm_compute in Ew. destruct r as [card|e|s]; [|discriminate Er..]. injection Er as Ecard.
  destruct (@GetConflicts calm_env (card_query card) background w1) as [r2 w2] eqn:E2.
  assert (r2 = fst (@GetConflicts calm_env (card_query card) background w1)) as Er2 by by rewrite E2.
  rewrite Ecard, Ew in Er2. vm_compute in Er2. destruct r2 as [shown|e|s]; [|discriminate Er2..]. injection Er2 as Eshown.
  exists card, w1, shown, w2. split; [reflexivity|]. split; [exact E2|]. split; [rewrite Eshown; reflexivity|].
  destruct (@preview_passes_gate calm_env 2 ex_world card w1 shown w2 ex_valid_tables E1) as (row & Hrow & Hrev & _);
    [rewrite Ecard; reflexivity|exact E2|]. exists row. split; [exact Hrow|exact Hrev].
Defined.

(** ** Listings *)

Section listings.
Context `{Env}.

Lemma take_both {A} n (l : list A) :
  (if (Z.of_nat n <? Z.of_nat (length (take (S n) l))) then take n (take (S n) l) else take (S n) l) = take n l ∧
  (Z.of_nat n <? Z.of_nat (length (take (S n) l))) = (Z.of_nat n <? Z.of_nat (length l)).
Proof.
  rewrite length_take. destruct (Z.ltb_spec (Z.of_nat n) (Z.of_nat (S n `min` length l))),
    (Z.ltb_spec (Z.of_nat n) (Z.of_nat (length l))); try lia; split; try done.
  - rewrite take_take. f_equal. lia.
  - rewrite !take_ge by lia. done.
Qed.

(** The rows of a period, newest first. *)
Definition matching (now : Time) (f : GetMaintsFilter) (db : DB) : list MaintRow :=
  sort_by listing_cmp (List.filter (filterToWhereExpr now f db) (maintenances db)).

Lemma store_GetMaints_Ok f ctx w l truncated w' :
  MaintStore.GetMaints f 1000 ctx w = (Ok (l, truncated), w') ->
  let rows := matching (env_now (w_step w)) f (w_db w) in
  l = fromDBMaintenance <$> take 1000 rows ∧ truncated = (1000 <? Z.of_nat (length rows)).
Proof.
  unfold MaintStore.GetMaints. intros (now & w1 & Hnow & E)%bind_Ok. injection Hnow as <- <-.
  set (now := env_now (w_step w)) in *. apply bind_Ok in E as (u & w2 & Hcap & E). injection Hcap as _ <-. destruct (filter_period now f) as [from to].
  apply bind_Ok in E as (rows & w3 & Hsql & E). apply sql_Ok in Hsql as (db' & Hq & ->).
  apply require_Ok in Hq as [_ Hq]. injection Hq as <- _. fold (matching now f (w_db (tick w))) in E. simpl in E.
  destruct (take_both 1000 (matching now f (w_db w))) as [H1 H2].
  change (Z.of_nat 1000) with 1000 in H1, H2. unfold mret, M_ret in E. injection E as <- <- _.
  rewrite <- H1 at 1. rewrite <- H2. split; reflexivity.
Qed.

Lemma store_GetMaints_panic f ctx w s w' : MaintStore.GetMaints f 1000 ctx w ≠ (Panic s, w').
Proof.
  unfold MaintStore.GetMaints. intros [E|(now & w1 & _ & E)]%bind_Panic; [done|].
  apply bind_Panic in E as [E|(u & w2 & _ & E)]; [done|]. destruct (filter_period now f) as [from to].
  apply bind_Panic in E as [E|(rows & w3 & _ & E)]; [|done]. unfold sql, require in E.
  destruct (env_fault _); [done|]. by destruct (negb _).
Qed.

(** A listing is complete or says that it is not.  A period longer than
    ninety days is refused; otherwise the answer holds the first thousand of
    the maintenances that overlap the period and pass the filters, latest
    planned period first, counts them, and is marked truncated exactly when
    there are more.  It never panics and changes nothing. *)
Theorem listing_correct f w :
  let '(r, w') := GetMaints f background w in
  w_db w' = w_db w ∧
  (limitMonth < Time_Sub (gf_PeriodTo f) (gf_PeriodFrom f) -> ∃ e, r = Err e ∧ errors_Is e ErrInvalidPeriodInterval = true) ∧
  match r with
  | Ok (l, meta) => let rows := matching (env_now (w_step w)) f (w_db w) in
      l = toListDTOMaint ∘ fromDBMaintenance <$> take 1000 rows ∧
      mm_Count meta = Z.of_nat (length l) ∧ mm_Truncated meta = (1000 <? Z.of_nat (length rows))
  | Err _ => True
  | Panic _ => False
  end.
Proof.
  destruct (GetMaints f background w) as [r w'] eqn:E. pose proof (reads_run _ _ _ _ _ (reads_GetMaints f) E) as [Hdb _].
  split; [done|]. unfold GetMaints in E. destruct (Z.ltb_spec limitMonth (Time_Sub (gf_PeriodTo f) (gf_PeriodFrom f))) as [Hlt|Hge].
  - injection E as <- _. split; [|done]. intros _. eexists. split; [done|]. reflexivity.
  - split; [lia|]. destruct r as [[l meta]|e|s]; [|done|].
    + run_all. destruct a0 as [maints truncated].
      match goal with Hs : MaintStore.GetMaints _ _ _ _ = _ |- _ => apply store_GetMaints_Ok in Hs as [-> ->] end.
      run_all. simpl. rewrite !length_fmap. by rewrite <- list_fmap_compose.
    + apply bind_Panic in E as [E|(u & w1 & _ & E)]; [done|].
      apply bind_Panic in E as [E|([ms t] & w2 & _ & E)]; [|done]. by apply store_GetMaints_panic in E.
Qed.

(** The drafts that wait for an approver, oldest first. *)
Definition awaiting (approver : UUID) (db : DB) : list MaintRow :=
  sort_by created_cmp (List.filter (fun r => N.eqb (mr_ApproverUserID r) approver &&
    String.eqb (mr_Status r) MaintenanceStatusDraft) (maintenances db)).

Lemma ListPendingApprovals_Ok f ctx w l total w' :
  ListPendingApprovals f ctx w = (Ok (l, total), w') ->
  pf_ApproverUserID f ≠ uuid_Nil ∧ 0 <= pf_Limit f ∧ total = Z.of_nat (length (awaiting (pf_ApproverUserID f) (w_db w))) ∧
  l = toListDTOMaint ∘ fromDBMaintenance <$>
    take (Z.to_nat (pf_Limit f)) (drop (Z.to_nat (pf_Offset f)) (awaiting (pf_ApproverUserID f) (w_db w))).
Proof.
  unfold ListPendingApprovals, MaintStore.ListPendingApprovals, countPendingApprovals, make_cap.
  intros ([maints t] & w1 & Hst & Hret)%bind_Ok. injection Hret as <- <- _. run_all.
  destruct (Z.ltb_spec (pf_Limit f) 0); run_all.
  repeat match goal with Hq : query _ _ _ = (Ok _, _) |- _ => apply query_Ok in Hq as (-> & Hq & _) end.
  repeat match goal with Hq : w_db ?x = w_db ?y |- context [w_db ?x] => rewrite Hq end.
  split; [by apply N.eqb_neq|]. split; [done|]. unfold awaiting. rewrite length_sort_by. split; [done|].
  by rewrite <- list_fmap_compose.
Qed.

(** The pages of an approver's queue fit together.  Two requests with
    adjoining windows, on the same tables, return adjoining parts of one list:
    the drafts that wait for that approver, oldest first, each exactly once;
    and both report its full length. *)
Theorem pages_join approver offset n1 n2 w l1 t1 w1 l2 t2 w2 :
  0 <= offset -> NoDup (mr_ID <$> maintenances (w_db w)) ->
  ListPendingApprovals (mkPendingFilter approver n1 offset) background w = (Ok (l1, t1), w1) ->
  ListPendingApprovals (mkPendingFilter approver n2 (offset + n1)) background w1 = (Ok (l2, t2), w2) ->
  let queue := toListDTOMaint ∘ fromDBMaintenance <$> awaiting approver (w_db w) in
  l1 ++ l2 = take (Z.to_nat (n1 + n2)) (drop (Z.to_nat offset) queue) ∧
  t1 = Z.of_nat (length queue) ∧ t2 = t1 ∧ NoDup (d_ID <$> queue) ∧
  ∀ r, r ∈ awaiting approver (w_db w) ↔
    r ∈ maintenances (w_db w) ∧ mr_ApproverUserID r = approver ∧ mr_Status r = MaintenanceStatusDraft.
Proof.
  intros Hoff Hnd E1 E2. destruct (reads_run _ _ _ _ _ (reads_ListPendingApprovals _) E1) as [Hdb _].
  apply ListPendingApprovals_Ok in E1 as (_ & Hn1 & -> & ->). apply ListPendingApprovals_Ok in E2 as (_ & Hn2 & -> & ->).
  simpl in *. rewrite Hdb. set (L := awaiting approver (w_db w)). split_and!.
  - rewrite <- fmap_app, <- fmap_drop, <- fmap_take. f_equal.
    rewrite !Z2Nat.inj_add by lia. rewrite <- drop_drop. by rewrite <- take_take_drop.
  - by rewrite length_fmap.
  - done.
  - rewrite <- list_fmap_compose. subst L. unfold awaiting. rewrite sort_by_Permutation.
    change (d_ID ∘ (toListDTOMaint ∘ fromDBMaintenance)) with mr_ID. clear -Hnd.
    induction (maintenances (w_db w)) as [|r l IH]; [constructor|]. rewrite fmap_cons in Hnd. apply NoDup_cons in Hnd as [Hr Hnd].
    simpl. destruct (_ && _); [|by apply IH]. rewrite fmap_cons. apply NoDup_cons. split; [|by apply IH].
    intros (x & Hx & [Hin _]%list_elem_of_In%filter_In)%list_elem_of_fmap. apply Hr. rewrite Hx.
    by apply list_elem_of_fmap_2, list_elem_of_In.
  - intros r. subst L. unfold awaiting. rewrite elem_of_sort_by, list_elem_of_In, filter_In, <- list_elem_of_In, andb_true_iff,
      N.eqb_eq, String.eqb_eq. done.
Qed.
End listings.

Lemma pages_join_witness :
  ∃ l1 t1 w1 l2 t2 w2,
    @ListPendingApprovals calm_env (mkPendingFilter 11 1 0) background ex_world = (Ok (l1, t1), w1) ∧
    @ListPendingApprovals calm_env (mkPendingFilter 11 1 1) background w1 = (Ok (l2, t2), w2) ∧
    d_ID <$> l1 ++ l2 = [2%N] ∧ t1 = 1 ∧ t2 = t1.
Proof.
  do 6 eexists. split; [vm_compute; reflexivity|]. split; [vm_compute; reflexivity|].
  split; [vm_compute; reflexivity|]. split; [reflexivity|].
  refine (proj1 (proj2 (proj2 (@pages_join calm_env 11 0 1 1 ex_world _ _ _ _ _ _ _ _ _ _)))); [lia|decide_now|..];
    vm_compute; reflexivity.
Defined.
